(* ===== verification/_CoqProject ===== *)
-Q . S2P
Prelude.v
Trace.v
Errors.v
Varint.v
RustStr.v
Proxy.v
Frag.v
Obfs.v
ObfsSocket.v
Float.v
Limit.v
Relay.v
Duplex.v
Auth.v
Server.v
Client.v
UdpSend.v
UdpClient.v
UdpServer.v
Net.v
Socks5.v
Io.v
SpeedTest.v
HttpProxy.v
Quic.v
Config.v
Endpoint.v
Share.v
Anyhow.v
Dns.v
LocalSocks.v
Association.v
LocalClient.v
MobileForm.v
MobileShare.v
MobileStatus.v
Controller.v
ControllerSafety.v
ControllerRuns.v
UdpForward.v
Listeners.v
Bench.v
Cli.v
Serde.v
ConfigFile.v
MobileView.v
MobileApp.v
Style.v
Screen.v
ScreenSafety.v
Android.v
Bridge.v
Imports.v
Files.v
Brutal.v
Pacer.v
BenchRun.v
Commands.v
