(* ===== verification/Prelude.v ===== *)
(** * A verification library for hysteria-rs

    hysteria-rs is a proxy over QUIC. A client authenticates to a server with
    an HTTP/3 request, then opens streams that the server connects to TCP
    targets, and sends UDP messages as QUIC datagrams that the server relays
    through sockets of its own. The packets of the connection may be obfuscated,
    each end may limit its sending rate, and on the client's side SOCKS5 and
    HTTP front ends accept local connections and put them on the tunnel, UDP
    ports are forwarded, and an Android application keeps a VPN on it. The code
    is in [src/core] (the two ends and their wire formats), [src/extras]
    (obfuscation and the speed test), [src/app] (configuration, front ends and
    the command line) and [src/mobile] (the application).

    ** The files

    - [Prelude] (this file): outcomes of Rust computations, machine integers,
      slices, byte streams, and the lemmas, hints and tactics on them.
    - [Trace]: computations that leave a trace of what they do to the world,
      which [Endpoint], [BenchRun] and [Commands] are written in.
    - [Errors] models [core/src/errors.rs].
    - [Varint] models [core/src/varint.rs].
    - [RustStr]: what the code uses of strings (UTF-8, [trim], [split_once],
      [parse], [to_string]), as the Rust standard library defines it.
    - [Proxy] models the wire formats: [core/src/protocol/proxy.rs], its
      padding ([padding.rs]) and the asynchronous readers and writers
      ([core/src/runtime_io.rs]).
    - [Frag] models fragmentation and reassembly, [core/src/frag.rs].
    - [Obfs] models the Salamander obfuscator, [extras/src/obfs.rs], behind the
      class [Obfuscator]; [ObfsSocket] models the socket that uses it,
      [core/src/socket.rs].
    - [Float]: double-precision arithmetic as correctly rounded rationals;
      [Limit] models the token bucket, [core/src/limit.rs], on it.
    - [Relay] models [core/src/relay.rs] and the write half of
      [core/src/stream.rs], against the class [ChunkSource]; [Duplex] joins the
      two directions of a relay as machines that interleave.
    - [Auth] models [core/src/protocol/auth.rs], against the class [HeaderMap].
    - [Server] models [core/src/server.rs]; [Client] models
      [core/src/client.rs] and [core/src/health.rs], and composes both ends.
    - [UdpSend], [UdpClient] and [UdpServer] model [core/src/udp.rs]: sending
      through the limiter into the queue of outgoing datagrams of the vendored
      QUIC library ([vendor/quinn-proto/src/connection/datagrams.rs],
      [vendor/quinn/src/connection.rs]), the sessions of a client as a step
      relation, and the loop of the server.
    - [Net]: socket addresses and their texts, as [std::net] defines them.
    - [Socks5] models [app/src/socks5.rs].
    - [Io]: connections as segments that arrive and sinks that take bytes, with
      the task monad of the front ends.
    - [SpeedTest] models [extras/src/speedtest.rs].
    - [HttpProxy] models [app/src/http_proxy.rs].
    - [Quic] models [core/src/quic.rs], [Config] models [app/src/config.rs] and
      [Share] models [app/src/share.rs].
    - [Endpoint] models how connections come about: sockets and endpoints
      ([core/src/socket.rs]), TLS settings and [Client::connect] with everything
      it does to the network, and [Server::bind] and [Server::serve].
    - [Anyhow]: errors with their chain of contexts, as the anyhow crate
      documents them.
    - [Dns] models [mobile/src/dns_proxy.rs] against the class [DotNet], and
      [LocalSocks] models [mobile/src/local_socks.rs], which uses it, against
      [LocalNet]; [Association] models the UDP associations of this front end
      and of [Socks5] as tasks that interleave and share a session, which a
      dropped clone closes, and [LocalClient] the handler of a whole connection
      with the association it runs.
    - [MobileForm] models the settings of the application: the form, launch
      intents, share URIs and documents, and the configuration they become
      ([mobile/src/main.rs], [mobile/src/android_bridge.rs]); [MobileShare]
      compares it with [Config].
    - [MobileStatus] models what the application shows and the commands and
      events of its controller; [Controller] models [controller_thread] with its
      tasks and timers as a step relation over the class [Platform];
      [ControllerSafety] has the abstract controller, the refinement and the
      invariant, and [ControllerRuns] what follows for runs.
    - [MobileView] models the labels, figures, cards and counters of the user
      interface, and [MobileApp] its component [App]: signals, futures and
      handlers as turns on one thread ([mobile/src/main.rs]), and the payloads
      Android returns ([mobile/src/android_bridge.rs]). [Style] models the style
      sheet and the inline styles, [Screen] what the component and its parts
      render, as a tree of elements with their handlers, and [ScreenSafety] what
      such a tree offers and displays.
    - [Android] models the preferences of the Kotlin side
      ([mobile/android/MainActivity.kt]); [Bridge] models the calls between Rust
      and Android with the life of the activity, the service and the process
      ([mobile/src/android_bridge.rs], the JNI functions of
      [mobile/src/main.rs]) as events of a phone; [Imports] follows documents and
      certificates from the picker to the application.
    - [Files] models configuration, certificate and key files and the roots
      both clients trust ([app/src/config.rs], [mobile/src/main.rs]); [Serde]
      models what the derived readers and writers of such files use, as the serde
      crate documents it, against the class [YamlLib] of the text format, and
      [ConfigFile] has those of every structure of [app/src/config.rs] and
      [app/src/share.rs].
    - [Brutal] models the congestion controller added to the vendored QUIC
      library ([vendor/quinn-proto/src/congestion/brutal.rs]) against the class
      [CongestionController] of its fallback, and [Pacer] the pacing it uses
      ([vendor/quinn-proto/src/connection/pacing.rs]).
    - [UdpForward] models [app/src/udp_forwarding.rs] as interleaved turns;
      [Listeners] models how all local listeners start and accept.
    - [Bench] models the receive task of [app/src/udp_bench.rs] and [BenchRun]
      its sender, echo server and commands; [Cli] models the loops and texts of
      [app/src/main.rs] and [app/src/speedtest.rs], and [Commands] every command
      from its file to its end ([app/src/cli.rs], [app/src/main.rs]).

    Definitions carry the names of the functions and types they model. A loop
    or a branch that is modelled apart has a name of its own.

    ** Conventions

    Bytes are integers between 0 and 255 and byte vectors are lists; a string
    is the list of its UTF-8 bytes. [usize] has 64 bits. Arithmetic that can
    overflow takes a flag [checks]: with it (the debug profile) an overflow
    panics, without it (the release profile) it wraps; casts wrap in both. The
    length of a vector in memory is a mathematical integer. A computation is an
    [outcome]: a value, an error, or a panic, and a panic is never the result
    of an error path.

    Code that is not in the repository is a parameter: the hash functions, the
    header map, base64, URLs, the QUIC connection, name resolution, sockets and
    certificates. Random values, clocks and elapsed times are arguments. Laws
    that the proofs use of such code are classes or hypotheses, each with an
    instance or a concrete value in a witness.

    Loops are structural where their input is a list. Where a turn consumes
    input or time, a fuel argument counts the turns, and the definition that
    the source function corresponds to picks a fuel that the bytes at hand
    bound ([x_turns], [turns], [handle_connection] of [HttpProxy]); the
    theorems show that this fuel is enough, since they state the result and
    not only what follows if there is one. Two loops have no such bound: the
    unbounded download of the speed test ends only when a write fails, and a
    wait for the bandwidth limiter takes how late its looks at the bucket come
    after the sleeps it computes; the theorems show that four looks serve a
    request within the burst, at rates up to 8 Gbit/s.

    A stream that has not ended and has nothing to read suspends its reader
    ([None] of [Io]); deadlock is the state where both ends are suspended.

    ** The theorems

    - Wire formats: varints, TCP requests and responses, UDP messages,
      authentication headers, SOCKS5 datagrams and share URIs round trip, for
      every padding and every length the format admits (for share URIs, but for
      the colon of an empty password); parsers are total on arbitrary bytes; the
      asynchronous readers refine the synchronous ones.
    - UDP: fragments reassemble in any order and with repetitions, packets are
      never mixed, and a message whose datagrams all arrive is received, if the
      send buffer and the limiter's burst hold it; sessions are isolated in every
      interleaving; the server's loop survives any input, stops exactly at the
      end of its connection, and removes a session exactly when it was idle for
      too long.
    - Obfuscation is transparent, segment by segment, and every malformed
      receive is classified.
    - Rates: the bucket is never overdrawn, a stream is granted a byte at least
      and what the bucket holds at most, and a datagram is served exactly if it
      fits into the burst.
    - Congestion: the acknowledgement rate of Brutal is that of the last five
      seconds, its pacing rate lies between the target and a quarter above it for
      targets below 2^50 bytes per second and overflows from 2^61 on, and the
      pacer sends at most a burst and what the rate gives.
    - Authentication: nothing is served before a request that was accepted, on
      the tunnel and on SOCKS5, and on HTTP every request of a connection has to
      carry the credentials; the negotiated rates are the minima of
      what both ends declare.
    - End to end: a stream opened by the client reaches the dialed target with
      its payload, health checks and speed tests complete, and HTTP requests
      and bodies are forwarded without changing their framing.
    - Configuration: what an accepted server configuration and an accepted
      form of the application guarantee; both clients read a share URI alike; the
      file that a client's file is shared as is read back as what is shared of it
      and starts the same client.
    - The controller: every handler refines an abstract controller; in every
      reachable state there is one session at most, with all its tasks and no
      other; a lost connection is retried; a disconnection is final; no command
      stops the thread.
    - The user interface: what it shows follows the controller's events in every
      run, the clock of a session runs exactly while it is active, commands
      carry validated forms with one exception, the large button does what its
      label says, and the futures of a launch end; the controls a rendering offers
      are exactly the turns of the model, and the secrets of the profiles are
      nowhere but in the two inputs in which they are edited, in clear.
    - Android: whatever order calls, tasks, deliveries and ends of the process
      come in and wherever JNI fails, the preferences implement an abstract
      phone with a saved profile and a managed VPN, the interface belongs to the
      service that runs, a start connects with the form it was called with, and
      what is picked arrives.
    - Connections: the password is sent only to a peer that was verified against
      the configured roots and has the pinned hash, from a socket that is set up
      and was handed to the protector of the VPN if one is installed, whatever
      that answered; the roots are exactly those the configuration
      names, and a server that was bound loses no connection to its settings.
    - Relays: in every interleaving of the two directions what an end gets is a
      prefix of what the other sent, and every schedule ends with everything
      delivered or an error of one of the streams, also through limiters, with
      the sleeps they compute.
    - DNS and forwarding: the question parser is the grammar, queries are
      answered by the first upstream that can, and the sessions of a forwarder
      are isolated by peer in every interleaving; a SOCKS5 association serves one
      client, however its tasks interleave, and its session is open exactly while
      all of them that hold it run; every reason for which a local connection
      makes the application reconnect is an error of the tunnel or a session that
      was closed.
    - The command line: whatever the command but the benchmark, it opens at most
      one connection or server, after nothing but printing, with the
      configuration its file gives, and a file that is refused is its error; the
      client starts exactly the tasks of its configuration and ends
      with the result of the first to end.
    - The benchmark counts a packet once, and against the echo server over a
      network that loses nothing it counts them all.

    Some theorems show where the code does not do what it means to: a short
    last segment panics the obfuscated socket, a message above the burst is
    never sent, a session created while the connection is lost waits forever, a
    malformed datagram ends a SOCKS5 association and may make the application
    reconnect, an upload of [2^32 - 1] bytes
    deadlocks, a truncated HTTP body counts as complete, a late report about
    the previous connection ends the next one, a connection that failed is shown
    as open, the task of an expired forwarding session closes its successor,
    a pacer that is asked early names an instant that has gone by, imports are
    never counted, and two pages of the application are never shown.

    ** What is not modelled

    The QUIC library but for the parts named above, TLS, the
    text format of YAML, QR codes, JNI, the toolkit that paints the tree of the
    application and delivers its events, and argument parsing: they are
    third-party code whose results the components take as arguments. Methods that
    only pass a call on to such code ([poll_read], [poll_flush] and the
    signature checks of TLS, [fmt] for debugging) have no definition of their
    own. On the Kotlin side the names of copied certificates and the
    notification are left out. *)

From stdpp Require Export base list list_numbers gmap strings.
From Stdlib Require Export Lia ZArith Ascii.
Local Open Scope Z_scope.
#[global] Unset Printing Records.

(** ** Outcomes of Rust computations

    A computation returns a value, returns the [Err] of a [Result], or panics
    (a failed assertion, an index or slice out of range, a checked arithmetic
    overflow). *)
Inductive outcome (E A : Type) : Type :=
| Ret (a : A)
| Err (e : E)
| Panic.
Arguments Ret {E A} a.
Arguments Err {E A} e.
Arguments Panic {E A}.

#[global] Instance outcome_ret {E} : MRet (outcome E) := fun A a => Ret a.
#[global] Instance outcome_bind {E} : MBind (outcome E) := fun A B f m =>
  match m with Ret a => f a | Err e => Err e | Panic => Panic end.
#[global] Instance outcome_fmap {E} : FMap (outcome E) := fun A B f m =>
  match m with Ret a => Ret (f a) | Err e => Err e | Panic => Panic end.

(** [map_err], the conversion a [?] applies to an error. *)
Definition map_err {E F A} (f : E → F) (m : outcome E A) : outcome F A :=
  match m with Ret a => Ret a | Err e => Err (f e) | Panic => Panic end.

(** [Option::ok_or]. *)
Definition ok_or {E A} (o : option A) (e : E) : outcome E A :=
  match o with Some a => Ret a | None => Err e end.

(** [Result::ok]: the value of a result, its error dropped. *)
Definition ok {E A} (m : outcome E A) : option A :=
  match m with Ret a => Some a | _ => None end.

(** A computation that does not panic. *)
Definition no_panic {E A} (m : outcome E A) : Prop := m ≠ Panic.

Lemma Ret_inj {E A} (a b : A) : Ret (E:=E) a = Ret b → a = b.
Proof. congruence. Qed.
Lemma bind_Ret_inv {E A B} (m : outcome E A) (f : A → outcome E B) b :
  m ≫= f = Ret b → ∃ a, m = Ret a ∧ f a = Ret b.
Proof. destruct m; simpl; try done. eauto. Qed.

Lemma no_panic_bind {E A B} (m : outcome E A) (f : A → outcome E B) :
  no_panic m → (∀ a, m = Ret a → no_panic (f a)) → no_panic (m ≫= f).
Proof. unfold no_panic. destruct m; simpl; naive_solver. Qed.

Lemma no_panic_Ret {E A} (a : A) : no_panic (E:=E) (Ret a).
Proof. done. Qed.
Lemma no_panic_Err {E A} (e : E) : no_panic (A:=A) (Err e).
Proof. done. Qed.

Lemma no_panic_map_err {E F A} (f : E → F) (m : outcome E A) :
  no_panic m → no_panic (map_err f m).
Proof. by destruct m. Qed.

Create HintDb rust.
Create Rewrite HintDb len.
#[export] Hint Resolve no_panic_Ret no_panic_Err no_panic_map_err : rust.

(** ** Bytes, machine integers and slices *)

Abbreviation bytes := (list Z).

(** The length of a slice or a vector, a [usize]. *)
Definition len {A} (l : list A) : Z := Z.of_nat (length l).
(** [is_empty()] of a [Vec] or a [String]. *)
Definition is_empty {A} (l : list A) : bool := match l with [] => true | _ => false end.

Definition u8_max : Z := 255.
Definition u16_max : Z := 65535.
Definition u32_max : Z := 4294967295.
Definition u64_max : Z := 18446744073709551615.

(** [x as uN]. *)
Definition as_u8 (x : Z) : Z := x mod 256.
Definition as_u16 (x : Z) : Z := x mod 65536.
Definition as_u32 (x : Z) : Z := x mod 4294967296.
Definition as_u64 (x : Z) : Z := x mod 18446744073709551616.

Definition is_u8 (x : Z) : Prop := 0 ≤ x < 256.
Definition is_u16 (x : Z) : Prop := 0 ≤ x < 65536.
Definition is_u32 (x : Z) : Prop := 0 ≤ x < 4294967296.
Definition is_u64 (x : Z) : Prop := 0 ≤ x < 18446744073709551616.
#[global] Instance is_u16_dec x : Decision (is_u16 x).
Proof. unfold is_u16. apply _. Defined.
#[global] Instance is_u32_dec x : Decision (is_u32 x).
Proof. unfold is_u32. apply _. Defined.
#[global] Instance is_u8_dec x : Decision (is_u8 x).
Proof. unfold is_u8. apply _. Defined.

(** Every element of a byte vector is a [u8]. *)
Definition bytes_ok (l : bytes) : Prop := Forall is_u8 l.
#[global] Instance bytes_ok_dec l : Decision (bytes_ok l).
Proof. unfold bytes_ok. apply _. Defined.

(** Addition, subtraction and multiplication on [u64]/[usize]: with overflow
    checks (the dev profile) an overflow panics, without them (the release
    profile) it wraps. *)
Definition u64_arith {E} (checks : bool) (x : Z) : outcome E Z :=
  if decide (0 ≤ x ≤ u64_max) then Ret x
  else if checks then Panic else Ret (as_u64 x).
Definition u64_add {E} (checks : bool) (a b : Z) : outcome E Z := u64_arith checks (a + b).
Definition u64_sub {E} (checks : bool) (a b : Z) : outcome E Z := u64_arith checks (a - b).
Definition u64_mul {E} (checks : bool) (a b : Z) : outcome E Z := u64_arith checks (a * b).

(** The same on [u8]. *)
Definition u8_add {E} (checks : bool) (a b : Z) : outcome E Z :=
  if decide (0 ≤ a + b ≤ u8_max) then Ret (a + b)
  else if checks then Panic else Ret (as_u8 (a + b)).

(** [saturating_add] and [saturating_sub] on [u64]/[usize]. *)
Definition sat_add (a b : Z) : Z := Z.min u64_max (a + b).
Definition sat_mul (a b : Z) : Z := Z.min u64_max (a * b).
Definition sat_sub (a b : Z) : Z := Z.max 0 (a - b).

(** [usize::div_ceil]; a zero divisor panics in both profiles. *)
Definition div_ceil {E} (a b : Z) : outcome E Z :=
  if decide (b = 0) then Panic else Ret ((a + b - 1) / b).

Lemma u64_arith_ok {E} checks x : 0 ≤ x ≤ u64_max → u64_arith (E:=E) checks x = Ret x.
Proof. intros. unfold u64_arith. by rewrite decide_True. Qed.

(** [&l[a..b]] and [&l[a..]]: a range out of order or past the end panics. *)
Definition slice {E A} (l : list A) (a b : Z) : outcome E (list A) :=
  if decide (0 ≤ a ≤ b ∧ b ≤ len l)
  then Ret (take (Z.to_nat (b - a)) (drop (Z.to_nat a) l))
  else Panic.
Definition slice_from {E A} (l : list A) (a : Z) : outcome E (list A) := slice l a (len l).

(** [l[i]] as an rvalue. *)
Definition index {E A} (l : list A) (i : Z) : outcome E A :=
  if decide (0 ≤ i) then
    match l !! Z.to_nat i with Some x => Ret x | None => Panic end
  else Panic.

(** [l.get(i)]. *)
Definition get {A} (l : list A) (i : Z) : option A :=
  if decide (0 ≤ i) then l !! Z.to_nat i else None.

(** [l[i] = x]. *)
Definition set_index {E A} (l : list A) (i : Z) (x : A) : outcome E (list A) :=
  if decide (0 ≤ i < len l) then Ret (<[Z.to_nat i:=x]> l) else Panic.

(** [l[a..b].copy_from_slice(s)] with [b = a + len s]: the range has to be in
    bounds. *)
Definition blit {A} (l : list A) (a : nat) (s : list A) : list A :=
  take a l ++ s ++ drop (a + length s) l.
Definition copy_from_slice {E A} (l : list A) (a b : Z) (s : list A) : outcome E (list A) :=
  if decide (0 ≤ a ≤ b ∧ b ≤ len l ∧ b - a = len s)
  then Ret (blit l (Z.to_nat a) s)
  else Panic.

#[global] Arguments slice : simpl never.
#[global] Arguments slice_from : simpl never.
#[global] Arguments index : simpl never.
#[global] Arguments get : simpl never.
#[global] Arguments set_index : simpl never.
#[global] Arguments copy_from_slice : simpl never.
#[global] Arguments blit : simpl never.
#[global] Arguments len : simpl never.
#[global] Arguments u64_arith : simpl never.
#[global] Arguments u64_add : simpl never.
#[global] Arguments u64_sub : simpl never.
#[global] Arguments u64_mul : simpl never.
#[global] Arguments u8_add : simpl never.
#[global] Arguments div_ceil : simpl never.
#[global] Arguments as_u8 : simpl never.
#[global] Arguments as_u16 : simpl never.
#[global] Arguments as_u32 : simpl never.
#[global] Arguments as_u64 : simpl never.

Lemma len_nonneg {A} (l : list A) : 0 ≤ len l.
Proof. unfold len. lia. Qed.
#[export] Hint Resolve len_nonneg : rust.

Lemma len_app {A} (l k : list A) : len (l ++ k) = len l + len k.
Proof. unfold len. rewrite length_app. lia. Qed.
Lemma len_cons {A} (x : A) l : len (x :: l) = 1 + len l.
Proof. unfold len. simpl. lia. Qed.
Lemma len_nil {A} : len (@nil A) = 0.
Proof. done. Qed.
Lemma len_replicate {A} n (x : A) : len (replicate n x) = Z.of_nat n.
Proof. unfold len. by rewrite length_replicate. Qed.
Lemma len_take {A} n (l : list A) : len (take n l) = Z.min (Z.of_nat n) (len l).
Proof. unfold len. rewrite length_take. lia. Qed.
Lemma len_drop {A} n (l : list A) : len (drop n l) = Z.max 0 (len l - Z.of_nat n).
Proof. unfold len. rewrite length_drop. lia. Qed.
#[export] Hint Rewrite @len_app @len_cons @len_nil @len_replicate @len_take @len_drop : len.

(** Reads the lengths in the goal and the context, and closes arithmetic. *)
Ltac len_lia :=
  autorewrite with len in *; rewrite ?length_app, ?length_replicate, ?length_take, ?length_drop in *;
  unfold len, u8_max, u16_max, u32_max, u64_max in *; simpl length in *; lia.

(** Proves a decidable closed proposition by evaluating its decision. *)
Ltac by_decide :=
  match goal with |- ?P => refine (bool_decide_eq_true_1 P _) end; vm_compute; reflexivity.

(** Peels equal prefixes off an equation between concatenations. *)
Ltac peel_app :=
  rewrite <- ?app_assoc; cbn [app];
  repeat first [ apply (f_equal2 app); [done|] | apply (f_equal2 cons); [done|] ].

(** Evaluates the closed powers in the goal. *)
Ltac eval_pow :=
  repeat match goal with
  | |- context [Z.pow ?b ?e] =>
      let r := eval vm_compute in (Z.pow b e) in
      lazymatch r with Zpos _ => change (Z.pow b e) with r end
  end.

(** Evaluates [Z.to_nat] and [Z.of_nat] of literals in the goal. *)
Ltac eval_nat :=
  repeat match goal with
  | |- context [Z.to_nat (Zpos ?p)] =>
      let r := eval vm_compute in (Z.to_nat (Zpos p)) in change (Z.to_nat (Zpos p)) with r
  | |- context [Z.to_nat 0] => change (Z.to_nat 0) with 0%nat
  end.

Lemma len_0_nil {A} (l : list A) : len l = 0 → l = [].
Proof. destruct l; [done|]. rewrite len_cons. pose proof (len_nonneg l). lia. Qed.

Lemma slice_ok {E A} (l : list A) a b :
  0 ≤ a ≤ b → b ≤ len l →
  slice (E:=E) l a b = Ret (take (Z.to_nat (b - a)) (drop (Z.to_nat a) l)).
Proof. intros. unfold slice. by rewrite decide_True by lia. Qed.

Lemma slice_app_mid {E A} (p s q : list A) a b :
  a = len p → b = len p + len s → slice (E:=E) (p ++ s ++ q) a b = Ret s.
Proof.
  intros -> ->. rewrite slice_ok; [|pose proof (len_nonneg p); pose proof (len_nonneg s); lia|len_lia].
  f_equal. unfold len. rewrite Nat2Z.id, drop_app_length.
  replace (Z.to_nat _) with (length s) by lia. by rewrite take_app_length.
Qed.

Lemma slice_from_app {E A} (p s : list A) a :
  a = len p → slice_from (E:=E) (p ++ s) a = Ret s.
Proof.
  intros ->. unfold slice_from.
  rewrite <- (app_nil_r s) at 1 2. apply slice_app_mid; [done|len_lia].
Qed.

Lemma slice_prefix {E A} (p q : list A) b :
  b = len p → slice (E:=E) (p ++ q) 0 b = Ret p.
Proof. intros ->. exact (slice_app_mid [] p q 0 (len p) eq_refl eq_refl). Qed.

Lemma index_app_r {E A} (p q : list A) x i :
  i = len p → index (E:=E) (p ++ x :: q) i = Ret x.
Proof.
  intros ->. unfold index. rewrite decide_True by apply len_nonneg.
  unfold len. rewrite Nat2Z.id. by rewrite list_lookup_middle.
Qed.

Lemma index_head {E A} (x : A) l : index (E:=E) (x :: l) 0 = Ret x.
Proof. done. Qed.

Lemma index_ok {E A} (l : list A) i :
  0 ≤ i < len l → ∃ x, l !! Z.to_nat i = Some x ∧ index (E:=E) l i = Ret x.
Proof.
  intros [H1 H2]. destruct (lookup_lt_is_Some_2 l (Z.to_nat i)) as [x Hx]; [len_lia|].
  exists x. split; [done|]. unfold index. by rewrite decide_True, Hx by lia.
Qed.

(** Indexing does not depend on the error type around it. *)
Lemma index_cases {A} (l : list A) i :
  (∃ x, l !! Z.to_nat i = Some x ∧ ∀ E, index (E:=E) l i = Ret x) ∨ (∀ E, index (E:=E) l i = Panic).
Proof. unfold index. case_decide; [|by right]. destruct (l !! Z.to_nat i); eauto. Qed.

Lemma no_panic_index {E A} (l : list A) i : 0 ≤ i < len l → no_panic (index (E:=E) l i).
Proof. intros H. destruct (index_ok (E:=E) l i H) as (x & _ & ->). done. Qed.
Lemma no_panic_slice {E A} (l : list A) a b :
  0 ≤ a ≤ b → b ≤ len l → no_panic (slice (E:=E) l a b).
Proof. intros. by rewrite slice_ok. Qed.
#[export] Hint Resolve no_panic_index no_panic_slice : rust.

Lemma length_blit {A} (l : list A) a s :
  (a + length s ≤ length l)%nat → length (blit l a s) = length l.
Proof. intros. unfold blit. rewrite !length_app, length_take, length_drop. lia. Qed.

Lemma blit_app {A} (p s s' q : list A) a :
  a = length p → length s = length s' → blit (p ++ s ++ q) a s' = p ++ s' ++ q.
Proof.
  intros -> Hs. unfold blit. rewrite take_app_length. f_equal. f_equal.
  rewrite <- drop_drop, drop_app_length, <- Hs. by rewrite drop_app_length.
Qed.

Lemma set_index_ok {E A} (l : list A) i x :
  0 ≤ i < len l → set_index (E:=E) l i x = Ret (<[Z.to_nat i:=x]> l).
Proof. intros. unfold set_index. by rewrite decide_True. Qed.

Lemma copy_from_slice_ok {E A} (p s s' q : list A) a b :
  a = len p → b = len p + len s' → len s = len s' →
  copy_from_slice (E:=E) (p ++ s ++ q) a b s' = Ret (p ++ s' ++ q).
Proof.
  intros -> -> Hs. unfold copy_from_slice.
  rewrite decide_True by (pose proof (len_nonneg p); pose proof (len_nonneg s); len_lia).
  f_equal. apply blit_app; unfold len in *; lia.
Qed.

(** Writing at a cursor: the buffer is what has been written and the room
    left after it. *)
Lemma put_slice {E A} (pre rest s : list A) a b :
  a = len pre → b = len pre + len s → len s ≤ len rest →
  copy_from_slice (E:=E) (pre ++ rest) a b s = Ret ((pre ++ s) ++ drop (Z.to_nat (len s)) rest).
Proof.
  intros -> -> Hs. unfold len at 4. rewrite Nat2Z.id. rewrite <- (take_drop (length s) rest) at 1.
  rewrite copy_from_slice_ok; [by rewrite <- app_assoc|done|done|len_lia].
Qed.

Lemma put_index {E A} (pre rest : list A) i x :
  i = len pre → 0 < len rest →
  set_index (E:=E) (pre ++ rest) i x = Ret ((pre ++ [x]) ++ drop 1 rest).
Proof.
  intros -> Hr. destruct rest as [|y rest]; [done|]. pose proof (len_nonneg pre).
  rewrite set_index_ok by len_lia. f_equal. unfold len. rewrite Nat2Z.id.
  rewrite insert_app_r_alt by lia. rewrite Nat.sub_diag. simpl. by rewrite <- app_assoc.
Qed.

(** A list at least [n] long is a prefix of [n] elements and a rest. *)
Lemma split_at {A} (l : list A) n :
  n ≤ len l → 0 ≤ n → ∃ p q, l = p ++ q ∧ len p = n.
Proof.
  intros. exists (take (Z.to_nat n) l), (drop (Z.to_nat n) l).
  split; [by rewrite take_drop|]. len_lia.
Qed.

(** Or-ing a multiple of [2^n] into an [n]-bit value adds it. *)
Lemma lor_disjoint a b n : 0 ≤ n → 0 ≤ a < 2 ^ n → Z.lor a (b * 2 ^ n) = a + b * 2 ^ n.
Proof.
  intros Hn Ha. symmetry. apply Z.add_nocarry_lor. apply Z.bits_inj'. intros i Hi.
  rewrite Z.land_spec, Z.bits_0. destruct (decide (i < n)).
  - rewrite Z.mul_pow2_bits_low by done. apply andb_false_r.
  - rewrite <- (Z.mod_small a (2 ^ n)) by done. by rewrite Z.mod_pow2_bits_high by lia.
Qed.

Lemma lor_shl8 v b : is_u8 b → Z.lor (Z.shiftl v 8) b = v * 256 + b.
Proof.
  intros Hb. rewrite Z.shiftl_mul_pow2, Z.lor_comm by lia.
  rewrite lor_disjoint by (unfold is_u8 in Hb; simpl; lia). change (2 ^ 8) with 256. lia.
Qed.

(** A decidable property of every byte, by evaluation. *)
Lemma u8_forall (P : Z → bool) : forallb P (map Z.of_nat (seq 0 256)) = true → ∀ b, is_u8 b → P b = true.
Proof.
  intros H b Hb. rewrite forallb_forall in H. apply H. apply in_map_iff. exists (Z.to_nat b). unfold is_u8 in Hb.
  split; [lia|]. apply in_seq. lia.
Qed.

(** Strings are their UTF-8 bytes; [str] writes an ASCII literal. *)
Definition byte_of_ascii (a : ascii) : Z := Z.of_nat (nat_of_ascii a).
Fixpoint str (s : string) : bytes :=
  match s with
  | EmptyString => []
  | String a s => byte_of_ascii a :: str s
  end.

Lemma byte_of_ascii_u8 a : is_u8 (byte_of_ascii a).
Proof. unfold is_u8, byte_of_ascii. pose proof (nat_ascii_bounded a). lia. Qed.
Lemma str_ok s : bytes_ok (str s).
Proof. induction s; constructor; auto using byte_of_ascii_u8. Qed.
#[export] Hint Resolve str_ok : rust.

Lemma bytes_ok_app l k : bytes_ok (l ++ k) ↔ bytes_ok l ∧ bytes_ok k.
Proof. apply Forall_app. Qed.
Lemma bytes_ok_take n l : bytes_ok l → bytes_ok (take n l).
Proof. apply Forall_take. Qed.
Lemma bytes_ok_drop n l : bytes_ok l → bytes_ok (drop n l).
Proof. apply Forall_drop. Qed.
#[export] Hint Resolve bytes_ok_take bytes_ok_drop : rust.

(** ** Big-endian integers: [to_be_bytes] and [from_be_bytes] *)

Fixpoint be_bytes (n : nat) (v : Z) : bytes :=
  match n with
  | O => []
  | S n => (v / 256 ^ Z.of_nat n) mod 256 :: be_bytes n v
  end.
Definition of_be (l : bytes) : Z := fold_left (fun acc b => acc * 256 + b) l 0.

Lemma length_be_bytes n v : length (be_bytes n v) = n.
Proof. induction n; cbn [be_bytes length]; auto. Qed.
Lemma len_be_bytes n v : len (be_bytes n v) = Z.of_nat n.
Proof. unfold len. by rewrite length_be_bytes. Qed.
#[export] Hint Rewrite len_be_bytes : len.

Lemma be_bytes_ok n v : bytes_ok (be_bytes n v).
Proof.
  induction n; cbn [be_bytes]; constructor; auto. unfold is_u8. apply Z.mod_pos_bound. lia.
Qed.
#[export] Hint Resolve be_bytes_ok : rust.

Lemma fold_be_acc l acc :
  fold_left (fun acc b => acc * 256 + b) l acc = acc * 256 ^ len l + of_be l.
Proof.
  unfold of_be. revert acc. induction l as [|b l IH]; intros acc; cbn [fold_left].
  - rewrite len_nil. lia.
  - rewrite (IH (acc * 256 + b)), (IH (0 * 256 + b)), len_cons, Z.pow_add_r by (try apply len_nonneg; lia). nia.
Qed.

Lemma of_be_cons b l : of_be (b :: l) = b * 256 ^ len l + of_be l.
Proof. unfold of_be at 1. simpl. by rewrite fold_be_acc. Qed.

Lemma of_be_bound l : bytes_ok l → 0 ≤ of_be l < 256 ^ len l.
Proof.
  induction 1 as [|b l Hb Hl IH]; [done|].
  rewrite of_be_cons, len_cons, Z.pow_add_r by (try apply len_nonneg; lia).
  unfold is_u8 in Hb. nia.
Qed.

(** [from_be_bytes] after [to_be_bytes] truncates to the width. *)
Lemma of_be_be_bytes n v : of_be (be_bytes n v) = v mod 256 ^ Z.of_nat n.
Proof.
  induction n as [|n IH].
  - simpl. by rewrite Z.mod_1_r.
  - cbn [be_bytes]. rewrite of_be_cons, IH, len_be_bytes.
    rewrite Nat2Z.inj_succ, Z.pow_succ_r by lia.
    rewrite (Z.mul_comm 256), Z.rem_mul_r by lia. lia.
Qed.

Lemma of_be_be_bytes_id n v : 0 ≤ v < 256 ^ Z.of_nat n → of_be (be_bytes n v) = v.
Proof. intros. rewrite of_be_be_bytes. by apply Z.mod_small. Qed.

(** [to_be_bytes] after [from_be_bytes] is the identity. *)
Lemma be_bytes_of_be l : bytes_ok l → be_bytes (length l) (of_be l) = l.
Proof.
  cut (∀ n v l, bytes_ok l → length l = n → of_be l = v mod 256 ^ Z.of_nat n → be_bytes n v = l).
  { intros H Hl. apply H; auto. rewrite Z.mod_small; [done|].
    by apply of_be_bound. }
  intros n. induction n as [|n IH]; intros v k Hk Hlen Heq.
  { by apply length_zero_iff_nil in Hlen as ->. }
  destruct k as [|b k]; [done|]. inversion Hk as [|? ? Hb Hk']; subst.
  simpl in Hlen. injection Hlen as Hlen.
  rewrite of_be_cons in Heq. unfold len in Heq. rewrite Hlen in Heq.
  rewrite Nat2Z.inj_succ, Z.pow_succ_r in Heq by lia.
  rewrite (Z.mul_comm 256), Z.rem_mul_r in Heq by lia.
  pose proof (of_be_bound k Hk') as Hbd. unfold len in Hbd. rewrite Hlen in Hbd.
  pose proof (Z.mod_pos_bound v (256 ^ Z.of_nat n) ltac:(lia)).
  pose proof (Z.mod_pos_bound (v / 256 ^ Z.of_nat n) 256 ltac:(lia)).
  unfold is_u8 in Hb. set (w := 256 ^ Z.of_nat n) in *.
  assert (b = (v / w) mod 256) as Hbe by nia. cbn [be_bytes]. f_equal; [done|].
  apply IH; auto. nia.
Qed.

Lemma be_bytes_S n v :
  be_bytes (S n) v = (v / 256 ^ Z.of_nat n) mod 256 :: be_bytes n v.
Proof. done. Qed.
Lemma be_bytes_0 v : be_bytes 0 v = [].
Proof. done. Qed.
#[global] Arguments be_bytes : simpl never.

(** ** [slice::chunks]: consecutive pieces of [n] bytes, the last one shorter *)

Fixpoint chunks (fuel : nat) (n : Z) (l : bytes) : list bytes :=
  match fuel with
  | O => []
  | S fuel =>
      match l with
      | [] => []
      | _ => take (Z.to_nat n) l :: chunks fuel n (drop (Z.to_nat n) l)
      end
  end.

Lemma chunks_concat fuel n l :
  0 < n → (length l ≤ fuel)%nat → concat (chunks fuel n l) = l.
Proof.
  intros Hn. revert l. induction fuel as [|fuel IH]; intros l Hl.
  { by destruct l; simpl in *; [|lia]. }
  destruct l as [|b l]; [done|]. cbn [chunks concat]. rewrite IH by (rewrite length_drop; simpl in *; lia).
  by rewrite take_drop.
Qed.

Lemma chunks_length fuel n l :
  0 < n → (length l ≤ fuel)%nat → Z.of_nat (length (chunks fuel n l)) = (len l + n - 1) / n.
Proof.
  intros Hn. revert l. induction fuel as [|fuel IH]; intros l Hl.
  - destruct l; simpl in *; [|lia]. symmetry. apply Z.div_small. unfold len; simpl; lia.
  - destruct l as [|b l]; [symmetry; apply Z.div_small; unfold len; simpl; lia|].
    cbn [chunks length]. rewrite Nat2Z.inj_succ, IH by (rewrite length_drop; simpl in *; lia).
    rewrite len_drop, Z2Nat.id by lia. pose proof (len_nonneg l).
    set (k := len (b :: l)). assert (0 < k) by (unfold k; rewrite len_cons; lia).
    destruct (decide (n ≤ k)).
    + rewrite Z.max_r by lia. replace (k + n - 1) with ((k - n + n - 1) + 1 * n) by lia.
      rewrite Z.div_add by lia. lia.
    + rewrite Z.max_l by lia. rewrite Z.div_small by lia.
      replace (k + n - 1) with ((k - 1) + 1 * n) by lia.
      rewrite Z.div_add, Z.div_small by lia. lia.
Qed.

Lemma chunks_bounds fuel n l c :
  0 < n → c ∈ chunks fuel n l → 1 ≤ len c ≤ n.
Proof.
  intros Hn. revert l. induction fuel as [|fuel IH]; intros l; [by intros ?%elem_of_nil|].
  destruct l as [|b l]; [by intros ?%elem_of_nil|]. cbn [chunks].
  intros [->|?]%elem_of_cons; [|by eapply IH]. pose proof (len_nonneg l).
  rewrite len_take, len_cons. lia.
Qed.

Lemma chunks_bytes_ok fuel n l : bytes_ok l → Forall bytes_ok (chunks fuel n l).
Proof.
  revert l. induction fuel as [|fuel IH]; intros l Hl; [constructor|]. destruct l as [|b l]; [constructor|].
  cbn [chunks]. constructor; [by apply bytes_ok_take|]. by apply IH, bytes_ok_drop.
Qed.

(** ** Readers

    A reader ([Read] or [AsyncRead]) holds the bytes still to come and the
    error its source reports once they have run out; an end of file is the
    [UnexpectedEof] that [read_exact] makes of it. *)
Inductive io_error :=
| IoUnexpectedEof (msg : bytes)
| IoOther (msg : bytes).

Record reader := Reader { rd_data : bytes; rd_end : io_error }.

(** [read_exact] on a buffer of [n] bytes. *)
Definition read_exact (r : reader) (n : Z) : outcome io_error (bytes * reader) :=
  if decide (n ≤ len (rd_data r)) then
    Ret (take (Z.to_nat n) (rd_data r), Reader (drop (Z.to_nat n) (rd_data r)) (rd_end r))
  else Err (rd_end r).

#[global] Arguments read_exact : simpl never.

Lemma read_exact_app s q e n :
  n = len s → read_exact (Reader (s ++ q) e) n = Ret (s, Reader q e).
Proof.
  intros ->. unfold read_exact. simpl. rewrite decide_True by len_lia.
  unfold len. rewrite Nat2Z.id. by rewrite take_app_length, drop_app_length.
Qed.

Lemma no_panic_read_exact r n : no_panic (read_exact r n).
Proof. unfold read_exact. by destruct (decide _). Qed.
#[export] Hint Resolve no_panic_read_exact : rust.
