(* ===== verification/Trace.v ===== *)
(** * Computations that leave a trace

    What a computation does to the world, in order, with its result: a value, an
    error or a panic, after which it does nothing more. *)
From S2P Require Import Prelude.
Local Open Scope Z_scope.

Definition traced (Ev E A : Type) : Type := list Ev * outcome E A.
#[global] Instance traced_ret {Ev E} : MRet (traced Ev E) := fun A a => ([], Ret a).
#[global] Instance traced_bind {Ev E} : MBind (traced Ev E) := fun A B f m =>
  match m with
  | (evs, Ret a) => let '(evs', r) := f a in (evs ++ evs', r)
  | (evs, Err e) => (evs, Err e)
  | (evs, Panic) => (evs, Panic)
  end.
(** An event, and a computation that leaves none. *)
Definition tell {Ev E} (e : Ev) : traced Ev E unit := ([e], Ret ()).
Definition try {Ev E A} (m : outcome E A) : traced Ev E A := ([], m).
(** [let _ = m]: the result is dropped, a panic is not. *)
Definition drop_result {Ev E F A} (m : traced Ev E A) : traced Ev F unit :=
  (m.1, match m.2 with Panic => Panic | _ => Ret () end).

(** A [for] loop. *)
Fixpoint for_each {Ev E A} (f : A → traced Ev E unit) (l : list A) : traced Ev E unit :=
  match l with
  | [] => mret ()
  | a :: l => _ ← f a; for_each f l
  end.

Section traces.
Context {Ev E : Type}.
Implicit Types e : Ev.

Lemma traced_elem {A B} (m : traced Ev E A) (f : A → traced Ev E B) e :
  e ∈ (m ≫= f).1 → e ∈ m.1 ∨ ∃ a, m.2 = Ret a ∧ e ∈ (f a).1.
Proof.
  destruct m as [evs [a|err|]]; cbn; [|by left..]. destruct (f a) as [evs' r] eqn:Hf. cbn. intros [?|?]%elem_of_app; [by left|].
  right. exists a. by rewrite Hf.
Qed.
Lemma traced_try {A B} (m : outcome E A) (f : A → traced Ev E B) e :
  e ∈ (try m ≫= f).1 → ∃ a, m = Ret a ∧ e ∈ (f a).1.
Proof. intros [?%elem_of_nil|(a & Hm & He)]%traced_elem; [done|]. eauto. Qed.
Lemma traced_tell {B} e' (f : unit → traced Ev E B) e : e ∈ (tell e' ≫= f).1 → e = e' ∨ e ∈ (f ()).1.
Proof. intros [?%list_elem_of_singleton|([] & _ & He)]%traced_elem; [by left|by right]. Qed.
Lemma traced_Ret {A B} (m : traced Ev E A) (f : A → traced Ev E B) b :
  (m ≫= f).2 = Ret b → ∃ a, m.2 = Ret a ∧ (f a).2 = Ret b ∧ (m ≫= f).1 = m.1 ++ (f a).1.
Proof.
  destruct m as [evs [a|err|]]; cbn; [|done..]. destruct (f a) as [evs' r] eqn:Hf. cbn. intros ->. exists a. by rewrite Hf.
Qed.
Lemma traced_after {A B} (m : traced Ev E A) (f : A → traced Ev E B) a : m.2 = Ret a → (m ≫= f).1 = m.1 ++ (f a).1.
Proof. destruct m as [evs r]. cbn. intros ->. by destruct (f a). Qed.
Lemma traced_bind_Ret {A B} (m : traced Ev E A) (f : A → traced Ev E B) a :
  m.2 = Ret a → m ≫= f = (m.1 ++ (f a).1, (f a).2).
Proof. destruct m as [evs r]. cbn. intros ->. by destruct (f a). Qed.
Lemma bind_result {A B} (m : traced Ev E A) (f : A → traced Ev E B) a : m.2 = Ret a → (m ≫= f).2 = (f a).2.
Proof. intros Hm. by rewrite (traced_bind_Ret _ _ _ Hm). Qed.
Lemma try_bind {A B} (a : A) (f : A → traced Ev E B) : try (Ret a) ≫= f = f a.
Proof. cbn. by destruct (f a). Qed.
Lemma tell_bind {B} e (f : unit → traced Ev E B) : tell e ≫= f = (e :: (f ()).1, (f ()).2).
Proof. cbn. by destruct (f ()). Qed.

(** What a computation does at most. *)
Lemma does_bind {A B} (P : Ev → Prop) (m : traced Ev E A) (f : A → traced Ev E B) :
  Forall P m.1 → (∀ a, m.2 = Ret a → Forall P (f a).1) → Forall P (m ≫= f).1.
Proof.
  destruct m as [evs [a|err|]]; cbn; intros Hm Hf; [|done..]. specialize (Hf a eq_refl). destruct (f a) as [evs' r]. cbn in *.
  by apply Forall_app.
Qed.
Lemma does_tell (P : Ev → Prop) e : P e → Forall P (tell (E:=E) e).1.
Proof. by constructor. Qed.
Lemma does_try {A} (P : Ev → Prop) (m : outcome E A) : Forall P (try m).1.
Proof. constructor. Qed.
Lemma does_mret {A} (P : Ev → Prop) (a : A) : Forall P (mret (M:=traced Ev E) a).1.
Proof. constructor. Qed.
Lemma does_each {A} (P : Ev → Prop) (f : A → traced Ev E unit) l : (∀ a, Forall P (f a).1) → Forall P (for_each f l).1.
Proof. intros Hf. induction l as [|a l IH]; cbn [for_each]; [constructor|]. by apply does_bind. Qed.

(** A loop whose turns all end: the trace is that of the turns. *)
Lemma for_each_Ret {A} (f : A → traced Ev E unit) (l : list A) :
  (∀ a, a ∈ l → (f a).2 = Ret ()) → for_each f l = (concat (map (fun a => (f a).1) l), Ret ()).
Proof.
  induction l as [|a l IH]; intros Hf; [done|]. cbn [for_each map concat].
  rewrite (traced_bind_Ret _ _ ()) by (apply Hf; left). rewrite IH by (intros ? ?; apply Hf; by right). done.
Qed.
Lemma for_each_end {A} (f : A → traced Ev E unit) (l : list A) :
  (for_each f l).2 = Ret () → ∀ a, a ∈ l → (f a).2 = Ret ().
Proof.
  induction l as [|b l IH]; cbn; [by intros _ a ?%elem_of_nil|]. intros ([] & Hb & Hl & _)%traced_Ret a [->|Ha]%elem_of_cons; [done|by apply IH].
Qed.
Lemma for_each_elem {A} (f : A → traced Ev E unit) (l : list A) e : e ∈ (for_each f l).1 → ∃ a, a ∈ l ∧ e ∈ (f a).1.
Proof.
  induction l as [|a l IH]; [by intros ?%elem_of_nil|]. cbn. intros [He|(_ & _ & He)]%traced_elem.
  - exists a. split; [left|done].
  - destruct (IH He) as (b & ? & ?). exists b. split; [by right|done].
Qed.
End traces.

(** Walks through a computation, to the actions it does. *)
Ltac does :=
  repeat first
    [ apply does_bind; [|intros ? _] | apply does_tell | apply does_try | apply does_mret | apply does_each; intros ?
    | match goal with
      | |- Forall _ (fst (if ?b then _ else _)) => destruct b
      | |- Forall _ (fst (match ?x with _ => _ end)) => destruct x
      end ].
