(* ===== verification/Errors.v ===== *)
(** * Errors ([core/src/errors.rs])

    The two error enums of the core crate and the conversions that the [?]
    operator applies. An error that carries a text keeps the text. *)
From S2P Require Import Prelude.
Local Open Scope Z_scope.

Inductive ProtocolError :=
| InvalidAddressLength
| InvalidMessageLength
| InvalidPaddingLength
| VarintOverflow
| UnexpectedEof
| InvalidHeaderValue
| Io (msg : bytes).

Inductive CoreError :=
| Protocol (e : ProtocolError)
| Config (msg : bytes)
| Closed (msg : bytes)
| Connect (msg : bytes)
| Transport (msg : bytes)
| Authentication (status : Z)
| Dial (msg : bytes)
| UnexpectedFrameType (frame : Z)
| Tls (msg : bytes).

#[global] Instance ProtocolError_eq_dec : EqDecision ProtocolError.
Proof. solve_decision. Defined.
#[global] Instance CoreError_eq_dec : EqDecision CoreError.
Proof. solve_decision. Defined.

(** The text an [io::Error] prints. *)
Definition io_error_text (e : io_error) : bytes :=
  match e with IoUnexpectedEof msg | IoOther msg => msg end.

(** [impl From<io::Error> for ProtocolError]. *)
Definition protocol_error_of_io (e : io_error) : ProtocolError :=
  match e with
  | IoUnexpectedEof _ => UnexpectedEof
  | IoOther msg => Io msg
  end.

(** [impl From<io::Error> for CoreError]. *)
Definition core_error_of_io (e : io_error) : CoreError := Transport (io_error_text e).

(** [?] on an io result inside a function that returns a [ProtocolError]. *)
Definition read_exact_p (r : reader) (n : Z) : outcome ProtocolError (bytes * reader) :=
  map_err protocol_error_of_io (read_exact r n).

(** [?] on an io result inside a function that returns a [CoreError]. *)
Definition read_exact_c (r : reader) (n : Z) : outcome CoreError (bytes * reader) :=
  map_err core_error_of_io (read_exact r n).

#[global] Arguments read_exact_p : simpl never.
#[global] Arguments read_exact_c : simpl never.

Lemma read_exact_p_app s q e n :
  n = len s → read_exact_p (Reader (s ++ q) e) n = Ret (s, Reader q e).
Proof. intros. unfold read_exact_p. by rewrite read_exact_app. Qed.
Lemma read_exact_c_app s q e n :
  n = len s → read_exact_c (Reader (s ++ q) e) n = Ret (s, Reader q e).
Proof. intros. unfold read_exact_c. by rewrite read_exact_app. Qed.
Lemma no_panic_read_exact_p r n : no_panic (read_exact_p r n).
Proof. unfold read_exact_p. auto with rust. Qed.
Lemma no_panic_read_exact_c r n : no_panic (read_exact_c r n).
Proof. unfold read_exact_c. auto with rust. Qed.
#[export] Hint Resolve no_panic_read_exact_p no_panic_read_exact_c : rust.
