(* ===== verification/Varint.v ===== *)
(** * QUIC variable-length integers ([core/src/varint.rs])

    [varint_encode] is the reference encoding of RFC 9000, section 16: the
    value in 1, 2, 4 or 8 big-endian bytes whose two top bits hold the base-2
    logarithm of the length. The writer is proved to splice it into its buffer
    and both readers to invert it. *)
From S2P Require Import Prelude Errors.
Local Open Scope Z_scope.

Definition MAX_VARINT : Z := 0x3fffffffffffffff.

(** [varint::len]: the assertion panics on a value of more than 62 bits. *)
Definition varint_len {E} (value : Z) : outcome E Z :=
  if decide (value ≤ MAX_VARINT) then
    Ret (if decide (value ≤ 63) then 1
         else if decide (value ≤ 16383) then 2
         else if decide (value ≤ 1073741823) then 4
         else 8)
  else Panic.

(** [varint::write]: the number of bytes written and the buffer after it. *)
Definition varint_write (buf : bytes) (value : Z) : outcome ProtocolError (Z * bytes) :=
  if decide (MAX_VARINT < value) then Err VarintOverflow
  else
    needed ← varint_len value;
    if decide (len buf < needed) then Err UnexpectedEof
    else
      buf ← (match needed with
             | 1 => set_index buf 0 (as_u8 value)
             | 2 =>
                 buf ← set_index buf 0 (Z.lor (as_u8 (Z.shiftr value 8)) 0x40);
                 set_index buf 1 (as_u8 value)
             | 4 =>
                 buf ← set_index buf 0 (Z.lor (as_u8 (Z.shiftr value 24)) 0x80);
                 buf ← set_index buf 1 (as_u8 (Z.shiftr value 16));
                 buf ← set_index buf 2 (as_u8 (Z.shiftr value 8));
                 set_index buf 3 (as_u8 value)
             | 8 =>
                 buf ← set_index buf 0 (Z.lor (as_u8 (Z.shiftr value 56)) 0xc0);
                 buf ← set_index buf 1 (as_u8 (Z.shiftr value 48));
                 buf ← set_index buf 2 (as_u8 (Z.shiftr value 40));
                 buf ← set_index buf 3 (as_u8 (Z.shiftr value 32));
                 buf ← set_index buf 4 (as_u8 (Z.shiftr value 24));
                 buf ← set_index buf 5 (as_u8 (Z.shiftr value 16));
                 buf ← set_index buf 6 (as_u8 (Z.shiftr value 8));
                 set_index buf 7 (as_u8 value)
             | _ => Panic
             end : outcome ProtocolError bytes);
      Ret (needed, buf).

(** The loop [value = (value << 8) | u64::from(byte)] of both readers; [<<]
    drops the bits above the sixty-fourth. *)
Definition varint_fold (first : Z) (rest : bytes) : Z :=
  fold_left (fun value byte => Z.lor (as_u64 (Z.shiftl value 8)) byte) rest (Z.land first 0x3f).

(** [1usize << (first >> 6)]. *)
Definition varint_needed (first : Z) : Z := Z.shiftl 1 (Z.shiftr first 6).

(** [varint::read]. *)
Definition varint_read (r : reader) : outcome ProtocolError (Z * reader) :=
  '(first, r) ← read_exact_p r 1;
  b ← index first 0;
  let needed := varint_needed b in
  '(rest, r) ← (if decide (1 < needed) then read_exact_p r (needed - 1) else Ret ([], r));
  Ret (varint_fold b rest, r).

(** [varint::read_slice]. *)
Definition varint_read_slice (buf : bytes) : outcome ProtocolError (Z * Z) :=
  match buf with
  | [] => Err UnexpectedEof
  | first :: _ =>
      let needed := varint_needed first in
      if decide (len buf < needed) then Err UnexpectedEof
      else
        rest ← slice buf 1 needed;
        Ret (varint_fold first rest, needed)
  end.

#[global] Arguments varint_len : simpl never.
#[global] Arguments varint_write : simpl never.
#[global] Arguments varint_fold : simpl never.
#[global] Arguments varint_needed : simpl never.
#[global] Arguments varint_read : simpl never.
#[global] Arguments varint_read_slice : simpl never.

(** ** Reference encoding *)

(** The length class of a value: 0, 1, 2 or 3. *)
Definition varint_class (v : Z) : Z :=
  if decide (v ≤ 63) then 0
  else if decide (v ≤ 16383) then 1
  else if decide (v ≤ 1073741823) then 2
  else 3.
Definition varint_size (v : Z) : Z := 2 ^ varint_class v.
Definition varint_encode (v : Z) : bytes :=
  be_bytes (Z.to_nat (varint_size v)) (v + varint_class v * 2 ^ (8 * varint_size v - 2)).

Ltac varint_cases v :=
  unfold varint_encode, varint_size, varint_class;
  repeat (case_decide; try lia).

Lemma varint_size_cases v : varint_size v ∈ [1; 2; 4; 8].
Proof. varint_cases v; set_solver. Qed.

Lemma varint_size_bounds v : 1 ≤ varint_size v ≤ 8.
Proof. varint_cases v; lia. Qed.

Lemma varint_len_size {E} v : v ≤ MAX_VARINT → varint_len (E:=E) v = Ret (varint_size v).
Proof. intros. unfold varint_len. rewrite decide_True by done. f_equal. by varint_cases v. Qed.

Lemma len_varint_encode v : len (varint_encode v) = varint_size v.
Proof. unfold varint_encode. rewrite len_be_bytes. pose proof (varint_size_bounds v). lia. Qed.
#[export] Hint Rewrite len_varint_encode : len.

Lemma varint_encode_ok v : bytes_ok (varint_encode v).
Proof. apply be_bytes_ok. Qed.
#[export] Hint Resolve varint_encode_ok : rust.

(** ** The writer *)

(** Setting a tag in the two free bits of a byte is an addition. *)
Lemma lor_tag a k : 0 ≤ a < 64 → Z.lor a (k * 64) = a + k * 64.
Proof. intros. change 64 with (2 ^ 6) in *. by apply lor_disjoint. Qed.

Ltac solve_byte :=
  unfold as_u8;
  rewrite ?Z.shiftr_div_pow2 by lia;
  rewrite ?(Z.mod_small (_ / _) 256) by (Z.div_mod_to_equations; lia);
  change 0x40 with (1 * 64); change 0x80 with (2 * 64); change 0xc0 with (3 * 64);
  rewrite ?lor_tag by (Z.div_mod_to_equations; lia);
  Z.div_mod_to_equations; lia.

Lemma varint_write_spec p q v :
  0 ≤ v ≤ MAX_VARINT → len p = varint_size v →
  varint_write (p ++ q) v = Ret (varint_size v, varint_encode v ++ q).
Proof.
  intros Hv Hp. unfold varint_write. rewrite decide_False by lia.
  rewrite varint_len_size by lia. cbn [mbind outcome_bind].
  rewrite decide_False by (rewrite len_app; pose proof (len_nonneg q); lia).
  unfold MAX_VARINT in Hv. revert Hp.
  varint_cases v; eval_pow; intros Hp;
    repeat (destruct p as [|? p]; [first [discriminate Hp | clear Hp] | try solve [exfalso; pose proof (len_nonneg p); len_lia]]);
    cbn -[set_index be_bytes];
    repeat (rewrite set_index_ok by (pose proof (len_nonneg q); len_lia); cbn -[set_index be_bytes]);
    eval_nat; rewrite ?be_bytes_S, be_bytes_0; cbn -[as_u8 Z.lor]; eval_pow.
  all: repeat f_equal.
  all: solve_byte.
Qed.

Lemma varint_write_overflow buf v : MAX_VARINT < v → varint_write buf v = Err VarintOverflow.
Proof. intros. unfold varint_write. by rewrite decide_True. Qed.

Lemma varint_write_short buf v :
  0 ≤ v ≤ MAX_VARINT → len buf < varint_size v → varint_write buf v = Err UnexpectedEof.
Proof.
  intros Hv Hb. unfold varint_write. rewrite decide_False by lia.
  rewrite varint_len_size by lia. cbn [mbind outcome_bind]. by rewrite decide_True.
Qed.

(** ** The readers *)

Lemma varint_fold_acc rest acc :
  bytes_ok rest → 0 ≤ acc → (acc + 1) * 256 ^ len rest ≤ 2 ^ 64 →
  fold_left (fun value byte => Z.lor (as_u64 (Z.shiftl value 8)) byte) rest acc
  = acc * 256 ^ len rest + of_be rest.
Proof.
  intros Hr. revert acc. induction Hr as [|b rest Hb Hr IH]; intros acc Hacc Hbd.
  { cbn [fold_left]. rewrite len_nil. change (of_be []) with 0. lia. }
  cbn [fold_left]. rewrite len_cons, Z.pow_add_r in * by (try apply len_nonneg; lia).
  change (256 ^ 1) with 256 in *. pose proof (len_nonneg rest).
  assert (1 ≤ 256 ^ len rest) by (apply Z.lt_pred_le, Z.pow_pos_nonneg; lia).
  unfold as_u64. rewrite Z.mod_small; cycle 1.
  { rewrite Z.shiftl_mul_pow2 by lia. change (2 ^ 8) with 256. change (2 ^ 64) with 18446744073709551616 in Hbd. nia. }
  rewrite lor_shl8 by done. unfold is_u8 in Hb.
  rewrite IH by nia. rewrite of_be_cons. nia.
Qed.

Lemma varint_fold_spec b rest :
  is_u8 b → bytes_ok rest → len rest ≤ 7 →
  varint_fold b rest = (b mod 64) * 256 ^ len rest + of_be rest.
Proof.
  intros Hb Hr Hlen. unfold varint_fold.
  change 0x3f with (Z.ones 6). rewrite Z.land_ones by lia. change (2 ^ 6) with 64.
  pose proof (Z.mod_pos_bound b 64 ltac:(lia)).
  apply varint_fold_acc; [done|lia|].
  assert (256 ^ len rest ≤ 256 ^ 7) by (apply Z.pow_le_mono_r; lia).
  change (256 ^ 7) with 72057594037927936 in *. eval_pow. nia.
Qed.

Lemma varint_needed_spec b : is_u8 b → varint_needed b = 2 ^ (b / 64).
Proof.
  intros [? ?]. unfold varint_needed. rewrite Z.shiftr_div_pow2, Z.shiftl_mul_pow2 by (try apply Z.div_pos; lia).
  change (2 ^ 6) with 64. lia.
Qed.

Lemma varint_needed_cases b :
  is_u8 b → varint_needed b = 1 ∨ varint_needed b = 2 ∨ varint_needed b = 4 ∨ varint_needed b = 8.
Proof.
  intros Hb. rewrite varint_needed_spec by done. unfold is_u8 in Hb.
  assert (b / 64 = 0 ∨ b / 64 = 1 ∨ b / 64 = 2 ∨ b / 64 = 3) as [->|[->|[->| ->]]]
    by (Z.div_mod_to_equations; lia); eval_pow; tauto.
Qed.

(** The first byte of an encoding holds the class and the top of the value. *)
Lemma varint_encode_cons v :
  0 ≤ v ≤ MAX_VARINT →
  ∃ b rest, varint_encode v = b :: rest ∧ is_u8 b ∧ bytes_ok rest ∧
    len rest = varint_size v - 1 ∧ varint_needed b = varint_size v ∧ varint_fold b rest = v.
Proof.
  intros Hv. pose proof (varint_encode_ok v) as Hok. pose proof (len_varint_encode v) as Hlen.
  pose proof (varint_size_bounds v) as Hsz.
  assert (of_be (varint_encode v) = v + varint_class v * 2 ^ (8 * varint_size v - 2)) as Hbe.
  { unfold varint_encode. apply of_be_be_bytes_id. unfold MAX_VARINT in Hv.
    varint_cases v; eval_pow; eval_nat; cbn; lia. }
  destruct (varint_encode v) as [|b rest] eqn:Heq; [rewrite len_nil in Hlen; lia|].
  inversion Hok as [|? ? Hb Hr]; subst. rewrite len_cons in Hlen.
  exists b, rest. split_and!; [done|done|done|lia|..].
  - rewrite of_be_cons in Hbe. rewrite varint_needed_spec by done. unfold varint_size at 1.
    pose proof (of_be_bound rest Hr). assert (len rest = varint_size v - 1) as Hl by lia.
    rewrite Hl in *. unfold is_u8 in Hb. unfold MAX_VARINT in Hv. f_equal. revert Hbe H.
    varint_cases v; eval_pow; change (256 ^ (1 - 1)) with 1; change (256 ^ (2 - 1)) with 256;
      change (256 ^ (4 - 1)) with 16777216; change (256 ^ (8 - 1)) with 72057594037927936;
      intros; Z.div_mod_to_equations; lia.
  - rewrite varint_fold_spec by (done || lia). rewrite of_be_cons in Hbe.
    pose proof (of_be_bound rest Hr). assert (len rest = varint_size v - 1) as Hl by lia.
    rewrite Hl in *. unfold is_u8 in Hb. unfold MAX_VARINT in Hv. revert Hbe H.
    varint_cases v; eval_pow; change (256 ^ (1 - 1)) with 1; change (256 ^ (2 - 1)) with 256;
      change (256 ^ (4 - 1)) with 16777216; change (256 ^ (8 - 1)) with 72057594037927936;
      intros; Z.div_mod_to_equations; lia.
Qed.

Lemma varint_read_encode v q e :
  0 ≤ v ≤ MAX_VARINT → varint_read (Reader (varint_encode v ++ q) e) = Ret (v, Reader q e).
Proof.
  intros Hv. destruct (varint_encode_cons v Hv) as (b & rest & -> & Hb & Hr & Hl & Hn & Hf).
  unfold varint_read. change ((b :: rest) ++ q) with ([b] ++ rest ++ q).
  rewrite read_exact_p_app by done. cbn. rewrite index_head. cbn.
  rewrite Hn. case_decide.
  - rewrite read_exact_p_app by lia. cbn. by rewrite Hf.
  - assert (rest = []) as -> by (apply len_0_nil; pose proof (varint_size_bounds v); lia).
    cbn. by rewrite Hf.
Qed.

Lemma varint_read_slice_encode v q :
  0 ≤ v ≤ MAX_VARINT → varint_read_slice (varint_encode v ++ q) = Ret (v, varint_size v).
Proof.
  intros Hv. destruct (varint_encode_cons v Hv) as (b & rest & -> & Hb & Hr & Hl & Hn & Hf).
  unfold varint_read_slice. cbn [app]. rewrite Hn. pose proof (len_nonneg q).
  rewrite decide_False by len_lia.
  change (b :: rest ++ q) with ([b] ++ rest ++ q).
  rewrite slice_app_mid by (rewrite ?len_cons, ?len_nil; lia). cbn. by rewrite Hf.
Qed.

(** A successful read of either kind is a value below [2^62]. *)
Lemma varint_fold_range b rest :
  is_u8 b → bytes_ok rest → len rest ≤ 7 → 0 ≤ varint_fold b rest ≤ MAX_VARINT.
Proof.
  intros Hb Hr Hl. rewrite varint_fold_spec by done. unfold MAX_VARINT.
  pose proof (of_be_bound rest Hr). pose proof (Z.mod_pos_bound b 64 ltac:(lia)).
  pose proof (len_nonneg rest).
  assert (256 ^ len rest ≤ 256 ^ 7) by (apply Z.pow_le_mono_r; lia).
  change (256 ^ 7) with 72057594037927936 in *. nia.
Qed.

(** What the slice reader does on any input, and that it does not panic. *)
Lemma varint_read_slice_total buf :
  bytes_ok buf →
  (varint_read_slice buf = Err UnexpectedEof ∧
     (buf = [] ∨ ∃ b, buf !! 0%nat = Some b ∧ len buf < varint_needed b)) ∨
  (∃ b rest q, buf = b :: rest ++ q ∧ len rest = varint_needed b - 1 ∧
     varint_read_slice buf = Ret (varint_fold b rest, varint_needed b) ∧
     0 ≤ varint_fold b rest ≤ MAX_VARINT).
Proof.
  intros Hok. destruct buf as [|b l]; [left; cbn; auto|].
  inversion Hok as [|? ? Hb Hl]; subst. unfold varint_read_slice.
  destruct (decide (len (b :: l) < varint_needed b)) as [Hs|Hs].
  { left. split; [done|]. right. exists b. done. }
  right. pose proof (varint_needed_cases b Hb) as Hn.
  destruct (split_at l (varint_needed b - 1)) as (rest & q & -> & Hlen); [len_lia|lia|].
  exists b, rest, q. apply bytes_ok_app in Hl as [Hr Hq]. split_and!; [done|done| |..].
  - change (b :: rest ++ q) with ([b] ++ rest ++ q).
    by rewrite slice_app_mid by (rewrite ?len_cons, ?len_nil; lia).
  - apply varint_fold_range; (done || lia).
  - apply varint_fold_range; (done || lia).
Qed.

(** [varint_read] on a reader is [varint_read_slice] on the bytes it holds. *)
Lemma varint_read_agrees data e :
  bytes_ok data →
  varint_read (Reader data e) =
    match varint_read_slice data with
    | Ret (v, n) => Ret (v, Reader (drop (Z.to_nat n) data) e)
    | Err _ => Err (protocol_error_of_io e)
    | Panic => Panic
    end.
Proof.
  intros Hok. destruct data as [|b l]; [done|].
  inversion Hok as [|? ? Hb Hl]; subst. unfold varint_read, varint_read_slice.
  change (b :: l) with ([b] ++ l) at 1. rewrite read_exact_p_app by done.
  cbn. rewrite index_head. cbn -[drop].
  pose proof (varint_needed_cases b Hb) as Hn. unfold read_exact_p, read_exact. cbn -[drop].
  destruct (decide (len (b :: l) < varint_needed b)).
  { rewrite decide_True by len_lia. rewrite decide_False by len_lia. done. }
  rewrite slice_ok by (try len_lia). cbn -[drop].
  change (drop (Z.to_nat 1) (b :: l)) with l.
  case_decide.
  - rewrite decide_True by len_lia. cbn -[drop].
    do 3 f_equal. by replace (Z.to_nat (varint_needed b)) with (S (Z.to_nat (varint_needed b - 1))) by lia.
  - cbn -[drop]. assert (varint_needed b = 1) as -> by lia. done.
Qed.

Lemma no_panic_varint_read_slice buf : bytes_ok buf → no_panic (varint_read_slice buf).
Proof.
  intros H. destruct (varint_read_slice_total buf H) as [[-> _]|(?&?&?&_&_&->&_)]; done.
Qed.
Lemma no_panic_varint_read data e : bytes_ok data → no_panic (varint_read (Reader data e)).
Proof.
  intros H. rewrite varint_read_agrees by done. pose proof (no_panic_varint_read_slice data H).
  by destruct (varint_read_slice data) as [[]| |].
Qed.
#[export] Hint Resolve no_panic_varint_read_slice no_panic_varint_read : rust.

(** ** Properties *)

(** Round trip. For every value of at most 62 bits and every buffer long
    enough, [varint::write] overwrites exactly the first [varint_size v] bytes
    with the RFC 9000 encoding, and both readers give the value back, the
    stream reader leaving exactly the bytes after the encoding. *)
Theorem varint_roundtrip buf v e :
  0 ≤ v ≤ MAX_VARINT → varint_size v ≤ len buf →
  ∃ buf', varint_write buf v = Ret (varint_size v, buf') ∧
    len buf' = len buf ∧
    drop (Z.to_nat (varint_size v)) buf' = drop (Z.to_nat (varint_size v)) buf ∧
    varint_read_slice buf' = Ret (v, varint_size v) ∧
    varint_read (Reader buf' e) = Ret (v, Reader (drop (Z.to_nat (varint_size v)) buf) e).
Proof.
  intros Hv Hb. pose proof (varint_size_bounds v).
  destruct (split_at buf (varint_size v)) as (p & q & -> & Hp); [lia|lia|].
  exists (varint_encode v ++ q). rewrite varint_write_spec by done.
  rewrite varint_read_encode, varint_read_slice_encode by done.
  rewrite !drop_app_length' by (pose proof (len_varint_encode v); unfold len in *; lia).
  split_and!; try done. len_lia.
Qed.

Lemma varint_roundtrip_witness :
  ∃ buf', varint_write (replicate 6 9) 494878333 = Ret (4, buf') ∧
    varint_read_slice buf' = Ret (494878333, 4).
Proof.
  destruct (varint_roundtrip (replicate 6 9) 494878333 (IoUnexpectedEof []))
    as (buf' & H1 & _ & _ & H2 & _); [vm_compute; done..|].
  exists buf'. split; [exact H1|exact H2].
Defined.

(** Error paths and totality. The writer rejects what does not fit in 62
    bits or in the buffer; the slice reader never panics, fails only when the
    buffer ends before the length its first byte announces, and otherwise
    returns a value of at most 62 bits. *)
Theorem varint_errors buf v :
  bytes_ok buf → 0 ≤ v →
  (MAX_VARINT < v → varint_write buf v = Err VarintOverflow) ∧
  (v ≤ MAX_VARINT → len buf < varint_size v → varint_write buf v = Err UnexpectedEof) ∧
  ((varint_read_slice buf = Err UnexpectedEof ∧
     (buf = [] ∨ ∃ b, buf !! 0%nat = Some b ∧ len buf < varint_needed b)) ∨
   (∃ b rest q, buf = b :: rest ++ q ∧ len rest = varint_needed b - 1 ∧
     varint_read_slice buf = Ret (varint_fold b rest, varint_needed b) ∧
     0 ≤ varint_fold b rest ≤ MAX_VARINT)).
Proof.
  intros Hok Hv. split_and!; [apply varint_write_overflow|..|by apply varint_read_slice_total].
  intros. by apply varint_write_short.
Qed.

Lemma varint_errors_witness :
  varint_write [] 4611686018427387904 = Err VarintOverflow.
Proof. apply (varint_errors [] 4611686018427387904); [constructor|lia|vm_compute; done]. Defined.
