(* ===== verification/RustStr.v ===== *)
(** * What the sources use of Rust's [str] and [String]

    A string is the list of its UTF-8 bytes. The file models UTF-8 validation
    ([String::from_utf8], [str::from_utf8]) and the lossy decoding
    ([String::from_utf8_lossy]), decimal integers ([to_string] and [parse]),
    and the splitting, trimming and case functions. *)
From S2P Require Import Prelude.
Local Open Scope Z_scope.

(** ** UTF-8 *)

Definition in_range (lo hi b : Z) : bool := (lo <=? b) && (b <=? hi).
Definition is_cont (b : Z) : bool := in_range 0x80 0xbf b.

(** [utf8_char_width]: the length a leading byte announces, 0 for a byte that
    cannot lead. *)
Definition utf8_width (b : Z) : nat :=
  if in_range 0 0x7f b then 1
  else if in_range 0xc2 0xdf b then 2
  else if in_range 0xe0 0xef b then 3
  else if in_range 0xf0 0xf4 b then 4
  else 0.

(** The second byte a three- or four-byte character may have. *)
Definition utf8_second (b c : Z) : bool :=
  if b =? 0xe0 then in_range 0xa0 0xbf c
  else if b =? 0xed then in_range 0x80 0x9f c
  else if b =? 0xf0 then in_range 0x90 0xbf c
  else if b =? 0xf4 then in_range 0x80 0x8f c
  else in_range 0x80 0xbf c.

(** One step of [core::str::lossy]: whether the bytes at the front are a
    character, and how many bytes the step takes (a character, or the longest
    prefix of one before the byte that breaks it). A byte past the end reads
    as 0. *)
Definition utf8_step (l : bytes) : bool * nat :=
  match l with
  | [] => (true, 0%nat)
  | b :: l =>
      let c1 := nth 0 l 0 in
      let c2 := nth 1 l 0 in
      let c3 := nth 2 l 0 in
      match utf8_width b with
      | 1%nat => (true, 1%nat)
      | 2%nat => if is_cont c1 then (true, 2%nat) else (false, 1%nat)
      | 3%nat =>
          if utf8_second b c1 then
            if is_cont c2 then (true, 3%nat) else (false, 2%nat)
          else (false, 1%nat)
      | 4%nat =>
          if utf8_second b c1 then
            if is_cont c2 then
              if is_cont c3 then (true, 4%nat) else (false, 3%nat)
            else (false, 2%nat)
          else (false, 1%nat)
      | _ => (false, 1%nat)
      end
  end.

(** The steps over a whole slice; the fuel is its length, and every step takes
    at least a byte. *)
Fixpoint utf8_valid_from (fuel : nat) (l : bytes) : bool :=
  match fuel, l with
  | _, [] => true
  | O, _ => false
  | S fuel, _ =>
      let '(good, k) := utf8_step l in good && utf8_valid_from fuel (drop k l)
  end.
Definition utf8_valid (l : bytes) : bool := utf8_valid_from (length l) l.

(** U+FFFD. *)
Definition REPLACEMENT : bytes := [0xef; 0xbf; 0xbd].

Fixpoint utf8_lossy_from (fuel : nat) (l : bytes) : bytes :=
  match fuel, l with
  | _, [] => []
  | O, _ => []
  | S fuel, _ =>
      let '(good, k) := utf8_step l in
      (if good then take k l else REPLACEMENT) ++ utf8_lossy_from fuel (drop k l)
  end.

(** [String::from_utf8_lossy(l).into_owned()]. *)
Definition from_utf8_lossy (l : bytes) : bytes := utf8_lossy_from (length l) l.

(** [String::from_utf8(l)] and [str::from_utf8(l)]. *)
Definition from_utf8 (l : bytes) : option bytes := if utf8_valid l then Some l else None.

Ltac utf8_cases :=
  repeat match goal with
  | |- context [match utf8_width ?b with _ => _ end] => destruct (utf8_width b) as [|[|[|[|[|?]]]]] eqn:?
  | |- context [if utf8_second ?b ?c then _ else _] => destruct (utf8_second b c) eqn:?
  | |- context [if is_cont ?b then _ else _] => destruct (is_cont b) eqn:?
  | H : context [match utf8_width ?b with _ => _ end] |- _ => destruct (utf8_width b) as [|[|[|[|[|?]]]]] eqn:?
  | H : context [if utf8_second ?b ?c then _ else _] |- _ => destruct (utf8_second b c) eqn:?
  | H : context [if is_cont ?b then _ else _] |- _ => destruct (is_cont b) eqn:?
  end.

Lemma utf8_step_pos b l : (1 ≤ snd (utf8_step (b :: l)))%nat.
Proof. unfold utf8_step. utf8_cases; simpl; lia. Qed.

Lemma not_cont_0 : is_cont 0 = false.
Proof. done. Qed.
Lemma not_second_0 b : utf8_second b 0 = false.
Proof. unfold utf8_second. repeat (case_match; try done). Qed.

(** A whole character is in the slice, and what follows it does not matter. *)
Lemma utf8_step_good l k :
  utf8_step l = (true, k) →
  (k ≤ length l)%nat ∧ ∀ q, utf8_step (take k l ++ q) = if decide (k = 0%nat) then utf8_step q else (true, k).
Proof.
  destruct l as [|b l]; [intros [= <-]; split; [simpl; lia|]; intros q; by rewrite decide_True|].
  unfold utf8_step at 1.
  destruct l as [|c1 [|c2 [|c3 l]]]; simpl nth; rewrite ?not_cont_0, ?not_second_0;
    utf8_cases; intros [= <-]; (split; [simpl; lia|]); intros q; simpl;
    repeat match goal with H : ?x = _ |- context [?x] => rewrite H end; done.
Qed.

Lemma utf8_valid_from_fuel n m l :
  (length l ≤ n)%nat → (length l ≤ m)%nat → utf8_valid_from n l = utf8_valid_from m l.
Proof.
  revert m l. induction n as [|n IH]; intros [|m] [|b l] Hn Hm; simpl in Hn, Hm; try lia; try done.
  cbn [utf8_valid_from]. pose proof (utf8_step_pos b l). destruct (utf8_step (b :: l)) as [g k].
  f_equal. simpl in *. apply IH; rewrite length_drop; simpl; lia.
Qed.

Lemma utf8_valid_cons b l :
  utf8_valid (b :: l) =
    (fst (utf8_step (b :: l)) && utf8_valid (drop (snd (utf8_step (b :: l))) (b :: l)))%bool.
Proof.
  unfold utf8_valid. cbn [length utf8_valid_from]. pose proof (utf8_step_pos b l).
  destruct (utf8_step (b :: l)) as [g k]. simpl in *. f_equal.
  apply utf8_valid_from_fuel; rewrite length_drop; simpl; lia.
Qed.

Lemma utf8_lossy_from_fuel n m l :
  (length l ≤ n)%nat → (length l ≤ m)%nat → utf8_lossy_from n l = utf8_lossy_from m l.
Proof.
  revert m l. induction n as [|n IH]; intros [|m] [|b l] Hn Hm; simpl in Hn, Hm; try lia; try done.
  cbn [utf8_lossy_from]. pose proof (utf8_step_pos b l). destruct (utf8_step (b :: l)) as [g k].
  f_equal. simpl in *. apply IH; rewrite length_drop; simpl; lia.
Qed.

Lemma from_utf8_lossy_cons b l :
  from_utf8_lossy (b :: l) =
    (if fst (utf8_step (b :: l)) then take (snd (utf8_step (b :: l))) (b :: l) else REPLACEMENT)
    ++ from_utf8_lossy (drop (snd (utf8_step (b :: l))) (b :: l)).
Proof.
  unfold from_utf8_lossy. cbn [length utf8_lossy_from]. pose proof (utf8_step_pos b l).
  destruct (utf8_step (b :: l)) as [g k]. simpl in *. f_equal.
  apply utf8_lossy_from_fuel; rewrite length_drop; simpl; lia.
Qed.

(** Induction along the steps of the decoder. *)
Lemma utf8_ind (P : bytes → Prop) :
  P [] →
  (∀ b l, P (drop (snd (utf8_step (b :: l))) (b :: l)) → P (b :: l)) →
  ∀ l, P l.
Proof.
  intros H0 HS l. remember (length l) as n eqn:Hn. revert l Hn.
  induction n as [n IH] using lt_wf_ind. intros [|b l] Hn; [done|].
  apply HS. eapply IH; [|done]. pose proof (utf8_step_pos b l).
  rewrite length_drop, Hn. simpl in *. lia.
Qed.

(** A good character in front of a string. *)
Lemma utf8_valid_char_app l k q :
  utf8_step l = (true, k) → (0 < k)%nat → utf8_valid (take k l ++ q) = utf8_valid q.
Proof.
  intros Hs Hk. destruct (utf8_step_good l k Hs) as [Hl Hq]. specialize (Hq q).
  rewrite decide_False in Hq by lia.
  destruct (take k l ++ q) as [|b r] eqn:Heq.
  { apply (f_equal length) in Heq. rewrite length_app, length_take in Heq. simpl in Heq. lia. }
  rewrite utf8_valid_cons, Hq. simpl fst. simpl snd. rewrite andb_true_l, <- Heq.
  by rewrite drop_app_length' by (rewrite length_take; lia).
Qed.

Lemma utf8_valid_step b l :
  utf8_valid (b :: l) = true →
  ∃ k, utf8_step (b :: l) = (true, k) ∧ (0 < k ≤ length (b :: l))%nat ∧
    utf8_valid (drop k (b :: l)) = true.
Proof.
  rewrite utf8_valid_cons. pose proof (utf8_step_pos b l).
  destruct (utf8_step (b :: l)) as [g k] eqn:Hs. simpl fst. simpl snd.
  intros [-> Hd]%andb_prop. exists k. split_and!; try done.
  by apply utf8_step_good in Hs as [? _].
Qed.

Lemma utf8_valid_app l q : utf8_valid l = true → utf8_valid (l ++ q) = utf8_valid q.
Proof.
  induction l as [|b l IH] using utf8_ind; intros Hv; [done|].
  destruct (utf8_valid_step b l Hv) as (k & Hs & Hk & Hd). rewrite Hs in IH. simpl snd in IH.
  rewrite <- (take_drop k (b :: l)), <- app_assoc.
  rewrite utf8_valid_char_app by (done || lia). auto.
Qed.

(** Lossy decoding leaves a valid string alone. *)
Lemma from_utf8_lossy_valid l : utf8_valid l = true → from_utf8_lossy l = l.
Proof.
  induction l as [|b l IH] using utf8_ind; intros Hv; [done|].
  destruct (utf8_valid_step b l Hv) as (k & Hs & Hk & Hd). rewrite Hs in IH. simpl snd in IH.
  rewrite from_utf8_lossy_cons, Hs. simpl fst. simpl snd.
  rewrite IH by done. by rewrite take_drop.
Qed.

(** Lossy decoding always makes a valid string. *)
Lemma from_utf8_lossy_is_valid l : utf8_valid (from_utf8_lossy l) = true.
Proof.
  induction l as [|b l IH] using utf8_ind; [done|].
  rewrite from_utf8_lossy_cons. pose proof (utf8_step_pos b l).
  destruct (utf8_step (b :: l)) as [[] k] eqn:Hs; cbn [fst snd] in *.
  - rewrite utf8_valid_char_app by (done || lia). done.
  - by rewrite utf8_valid_app by done.
Qed.

(** ASCII text is valid. *)
Definition is_ascii (l : bytes) : Prop := Forall (fun b => 0 ≤ b < 128) l.
#[global] Instance is_ascii_dec l : Decision (is_ascii l).
Proof. unfold is_ascii. apply _. Defined.

Lemma ascii_valid l : is_ascii l → utf8_valid l = true.
Proof.
  induction 1 as [|b l Hb Hl IH]; [done|].
  rewrite utf8_valid_cons. unfold utf8_step, utf8_width.
  replace (in_range 0 0x7f b) with true; [done|].
  symmetry. unfold in_range. rewrite andb_true_iff, !Z.leb_le. lia.
Qed.

Lemma ascii_bytes_ok l : is_ascii l → bytes_ok l.
Proof. intros H. eapply Forall_impl; [exact H|]. intros b Hb. cbn in Hb. unfold is_u8. lia. Qed.
#[global] Arguments from_utf8_lossy : simpl never.
#[global] Arguments from_utf8 : simpl never.
#[global] Arguments utf8_valid : simpl never.
#[export] Hint Resolve ascii_valid ascii_bytes_ok from_utf8_lossy_is_valid : rust.

(** ** Decimal integers *)

Definition is_digit (b : Z) : bool := in_range 48 57 b.

(** [n.to_string()] for an unsigned integer: the digits, most significant
    first. The fuel is the number of digits left; twenty are enough for a
    [u64]. *)
Fixpoint dec_digits (fuel : nat) (n : Z) : bytes :=
  match fuel with
  | O => []
  | S fuel => (if decide (n < 10) then [] else dec_digits fuel (n / 10)) ++ [48 + n mod 10]
  end.
Definition to_string (n : Z) : bytes := dec_digits 20 n.

(** The loop of [from_str_radix(_, 10)]: a byte that is no digit or a value
    above [max] is an error. *)
Fixpoint parse_digits (max acc : Z) (l : bytes) : option Z :=
  match l with
  | [] => Some acc
  | b :: l =>
      if is_digit b then
        let acc := acc * 10 + (b - 48) in
        if decide (acc ≤ max) then parse_digits max acc l else None
      else None
  end.

(** [s.parse::<uN>()]: an empty string or a lone sign is an error, one leading
    [+] is skipped. *)
Definition parse_uint (max : Z) (s : bytes) : option Z :=
  match s with
  | [] => None
  | [43] | [45] => None
  | 43 :: l => parse_digits max 0 l
  | _ => parse_digits max 0 s
  end.
Definition parse_u16 : bytes → option Z := parse_uint u16_max.
Definition parse_u64 : bytes → option Z := parse_uint u64_max.

Lemma parse_digits_app max acc l k :
  parse_digits max acc (l ++ k) =
    match parse_digits max acc l with Some a => parse_digits max a k | None => None end.
Proof.
  revert acc. induction l as [|b l IH]; intros acc; [done|].
  cbn [app parse_digits]. destruct (is_digit b); [|done]. case_decide; [|done]. apply IH.
Qed.

Lemma in_range_true lo hi b : in_range lo hi b = true ↔ lo ≤ b ≤ hi.
Proof. unfold in_range. rewrite andb_true_iff, !Z.leb_le. done. Qed.

Lemma is_digit_of d : 0 ≤ d < 10 → is_digit (48 + d) = true.
Proof. intros. apply in_range_true. lia. Qed.

Lemma dec_digits_parse max fuel n :
  0 ≤ n ≤ max → n < 10 ^ Z.of_nat fuel → (0 < fuel)%nat →
  parse_digits max 0 (dec_digits fuel n) = Some n.
Proof.
  revert n. induction fuel as [|fuel IH]; intros n Hn Hf Hp; [lia|].
  cbn [dec_digits]. rewrite Nat2Z.inj_succ, Z.pow_succ_r in Hf by lia.
  pose proof (Z.mod_pos_bound n 10 ltac:(lia)).
  rewrite parse_digits_app. case_decide as Hs.
  - cbn [parse_digits]. rewrite is_digit_of by lia.
    rewrite Z.mod_small in * by lia. rewrite decide_True by lia. f_equal. lia.
  - assert (0 < Z.of_nat fuel) by (destruct fuel; [simpl in Hf; lia|lia]).
    rewrite IH; [|Z.div_mod_to_equations; lia|Z.div_mod_to_equations; lia|lia].
    cbn [parse_digits]. rewrite is_digit_of by lia.
    pose proof (Z.div_mod n 10 ltac:(lia)). rewrite decide_True by lia. f_equal. lia.
Qed.

Lemma dec_digits_digits fuel n : 0 ≤ n → Forall (fun b => is_digit b = true) (dec_digits fuel n).
Proof.
  revert n. induction fuel as [|fuel IH]; intros n Hn; [constructor|]. cbn [dec_digits].
  apply Forall_app. split.
  - case_decide; [constructor|]. apply IH. apply Z.div_pos; lia.
  - constructor; [|constructor]. pose proof (Z.mod_pos_bound n 10 ltac:(lia)).
    by apply is_digit_of.
Qed.

Lemma digit_cases b : is_digit b = true → 48 ≤ b ≤ 57.
Proof. apply in_range_true. Qed.

Lemma to_string_nonempty n : to_string n ≠ [].
Proof. unfold to_string. cbn [dec_digits]. by intros [_ ?]%app_eq_nil. Qed.

Lemma to_string_digits n : 0 ≤ n → Forall (fun b => is_digit b = true) (to_string n).
Proof. apply dec_digits_digits. Qed.

Lemma to_string_ascii n : 0 ≤ n → is_ascii (to_string n).
Proof.
  intros Hn. eapply Forall_impl; [by apply to_string_digits|]. intros b Hb%digit_cases. lia.
Qed.
#[export] Hint Resolve to_string_ascii : rust.

(** A string of digits has no sign to skip. *)
Lemma parse_uint_digits max l :
  l ≠ [] → Forall (fun b => is_digit b = true) l → parse_uint max l = parse_digits max 0 l.
Proof.
  intros Hne Hd. destruct l as [|b l]; [done|]. inversion Hd as [|? ? Hb _]; subst.
  apply digit_cases in Hb. unfold parse_uint.
  destruct b as [|p|p]; [lia| |lia]. do 6 (destruct p as [p|p|]; try lia; try done).
Qed.

(** [parse] inverts [to_string]. *)
Lemma parse_to_string max n :
  0 ≤ n ≤ max → max ≤ u64_max → parse_uint max (to_string n) = Some n.
Proof.
  intros Hn Hm. rewrite parse_uint_digits by (apply to_string_nonempty || apply to_string_digits; lia).
  apply dec_digits_parse; [lia| |lia]. unfold u64_max in Hm.
  change (10 ^ Z.of_nat 20) with 100000000000000000000. lia.
Qed.

Lemma parse_digits_range max acc l n :
  0 ≤ acc ≤ max → parse_digits max acc l = Some n → 0 ≤ n ≤ max.
Proof.
  revert acc. induction l as [|b l IH]; intros acc Hacc; simpl; [congruence|].
  destruct (is_digit b) eqn:Hd; [|done]. apply digit_cases in Hd. case_decide; [|done].
  apply IH. lia.
Qed.

Lemma parse_uint_range max l n : 0 ≤ max → parse_uint max l = Some n → 0 ≤ n ≤ max.
Proof.
  intros Hm. unfold parse_uint. repeat case_match; try done; apply parse_digits_range; lia.
Qed.

(** ** Splitting, trimming, case *)

(** [s.split_once(c)]. *)
Fixpoint split_once (c : Z) (s : bytes) : option (bytes * bytes) :=
  match s with
  | [] => None
  | b :: s =>
      if decide (b = c) then Some ([], s)
      else match split_once c s with Some (l, r) => Some (b :: l, r) | None => None end
  end.

(** [s.rsplit_once(c)]. *)
Definition rsplit_once (c : Z) (s : bytes) : option (bytes * bytes) :=
  match split_once c (reverse s) with
  | Some (l, r) => Some (reverse r, reverse l)
  | None => None
  end.

(** [s.strip_prefix(p)] and [s.starts_with(p)]. *)
Fixpoint strip_prefix (p s : bytes) : option bytes :=
  match p, s with
  | [], _ => Some s
  | a :: p, b :: s => if decide (a = b) then strip_prefix p s else None
  | _ :: _, [] => None
  end.
Definition starts_with (p s : bytes) : bool := bool_decide (is_Some (strip_prefix p s)).

(** [s.contains(c)] for an ASCII character. *)
Definition contains_byte (c : Z) (s : bytes) : bool := bool_decide (c ∈ s).

Definition ascii_lower (b : Z) : Z := if in_range 65 90 b then b + 32 else b.
Definition to_ascii_lowercase (s : bytes) : bytes := map ascii_lower s.
Definition eq_ignore_ascii_case (s t : bytes) : bool :=
  bool_decide (to_ascii_lowercase s = to_ascii_lowercase t).

(** Drops the prefix of elements that satisfy [f]. *)
Fixpoint drop_while {A} (f : A → bool) (l : list A) : list A :=
  match l with
  | [] => []
  | x :: l' => if f x then drop_while f l' else l
  end.

(** [s.trim_start_matches(c)] and [s.trim_end_matches(c)] for one ASCII
    character. *)
Definition trim_start_matches (c : Z) (s : bytes) : bytes := drop_while (fun b => b =? c) s.
Definition trim_end_matches (c : Z) (s : bytes) : bytes :=
  reverse (drop_while (fun b => b =? c) (reverse s)).

(** The length in bytes of the [White_Space] character a string starts with,
    0 if there is none. *)
Definition ws_len (s : bytes) : nat :=
  match s with
  | b :: s' =>
      if in_range 9 13 b || (b =? 32) then 1
      else if b =? 0xc2 then
        match s' with c :: _ => if (c =? 0x85) || (c =? 0xa0) then 2 else 0 | _ => 0 end
      else
        match s' with
        | c :: d :: _ =>
            if (b =? 0xe1) && (c =? 0x9a) && (d =? 0x80) then 3
            else if (b =? 0xe2) && (c =? 0x80) &&
                    (in_range 0x80 0x8a d || (d =? 0xa8) || (d =? 0xa9) || (d =? 0xaf)) then 3
            else if (b =? 0xe2) && (c =? 0x81) && (d =? 0x9f) then 3
            else if (b =? 0xe3) && (c =? 0x80) && (d =? 0x80) then 3
            else 0
        | _ => 0
        end
  | [] => 0
  end.

(** The same for the character a string ends with, read on the reversed
    bytes: the bytes of a [White_Space] character have its leading byte last. *)
Definition ws_len_rev (r : bytes) : nat :=
  match r with
  | b :: r' =>
      if in_range 9 13 b || (b =? 32) then 1
      else
        match r' with
        | c :: r'' =>
            if (c =? 0xc2) && ((b =? 0x85) || (b =? 0xa0)) then 2
            else match r'' with
                 | a :: _ => if bool_decide (ws_len [a; c; b] = 3%nat) then 3 else 0
                 | [] => 0
                 end
        | [] => 0
        end
  | [] => 0
  end.

Fixpoint trim_ws (wl : bytes → nat) (fuel : nat) (s : bytes) : bytes :=
  match fuel with
  | O => s
  | S fuel => match wl s with O => s | k => trim_ws wl fuel (drop k s) end
  end.

(** [s.trim_start()], [s.trim_end()] and [s.trim()]. *)
Definition trim_start (s : bytes) : bytes := trim_ws ws_len (length s) s.
Definition trim_end (s : bytes) : bytes := reverse (trim_ws ws_len_rev (length s) (reverse s)).
Definition trim (s : bytes) : bytes := trim_end (trim_start s).

Example trim_ex : trim (str " 	ab c ") = str "ab c".
Proof. reflexivity. Qed.

(** A text without spaces and beyond ASCII is its own trim. *)
Definition visible (b : Z) : Prop := 33 ≤ b < 128.
Lemma trim_ws_0 wl fuel s : wl s = O → trim_ws wl fuel s = s.
Proof. intros H. destruct fuel; [done|]. cbn. by rewrite H. Qed.
Lemma ws_len_visible s : Forall visible s → ws_len s = O.
Proof.
  destruct s as [|b s]; [done|]. intros [Hb _]%Forall_cons. unfold visible in Hb. unfold ws_len, in_range.
  destruct s as [|c [|d s]]; repeat case_match; try done; lia.
Qed.
Lemma ws_len_rev_visible s : Forall visible s → ws_len_rev s = O.
Proof.
  intros H. destruct s as [|b s]; [done|]. destruct s as [|c s]; unfold ws_len_rev, in_range.
  - apply Forall_cons in H as [H _]. unfold visible in H. case_match; [lia|done].
  - destruct s as [|a s].
    + apply Forall_cons in H as [H [Hc _]%Forall_cons]. unfold visible in H, Hc. repeat case_match; try done; lia.
    + rewrite (ws_len_visible [a; c; b]) by (rewrite !Forall_cons in H |- *; naive_solver).
      apply Forall_cons in H as [H [Hc _]%Forall_cons]. unfold visible in H, Hc. repeat case_match; try done; lia.
Qed.
Lemma trim_visible s : Forall visible s → trim s = s.
Proof.
  intros H. unfold trim, trim_end, trim_start. rewrite (trim_ws_0 ws_len) by by apply ws_len_visible.
  rewrite trim_ws_0 by (apply ws_len_rev_visible; by rewrite Forall_reverse). apply reverse_involutive.
Qed.
Lemma ws_len_visible_head b s : visible b → ws_len (b :: s) = O.
Proof. unfold visible. intros Hb. unfold ws_len, in_range. destruct s as [|c [|d s]]; repeat case_match; try done; lia. Qed.
Lemma ws_len_rev_last l b : visible b → (ws_len_rev (l ++ [b]) ≤ length l)%nat.
Proof.
  intros Hb. pose proof (ws_len_rev_visible [b] ltac:(by constructor)) as H1. destruct l as [|a [|c [|d l]]]; cbn [app length]; [lia| | |].
  - unfold ws_len_rev. unfold visible in Hb. repeat case_match; lia.
  - unfold ws_len_rev. rewrite (ws_len_visible_head b), bool_decide_eq_false_2 by done. repeat case_match; lia.
  - unfold ws_len_rev. repeat case_match; lia.
Qed.
Lemma trim_ws_last fuel l b : visible b → ∃ l', trim_ws ws_len_rev fuel (l ++ [b]) = l' ++ [b].
Proof.
  intros Hb. revert l. induction fuel as [|fuel IH]; intros l; [by exists l|]. cbn.
  pose proof (ws_len_rev_last l b Hb). destruct (ws_len_rev (l ++ [b])) as [|k] eqn:E; [by exists l|].
  rewrite drop_app_le by lia. apply IH.
Qed.
Lemma visible_of_lower s : Forall visible (to_ascii_lowercase s) → Forall visible s.
Proof.
  unfold to_ascii_lowercase. rewrite Forall_map. intros H. eapply Forall_impl; [exact H|]. intros b. unfold ascii_lower, visible. cbn.
  destruct (in_range 65 90 b) eqn:E; [|done]. apply in_range_true in E. lia.
Qed.
#[global] Instance visible_dec b : Decision (visible b).
Proof. unfold visible. apply _. Defined.

Lemma split_once_app c l r : c ∉ l → split_once c (l ++ c :: r) = Some (l, r).
Proof.
  induction l as [|b l IH]; intros Hc; simpl.
  - by rewrite decide_True.
  - apply not_elem_of_cons in Hc as [? ?]. rewrite decide_False by done. by rewrite IH.
Qed.

Lemma split_once_Some c s l r : split_once c s = Some (l, r) → s = l ++ c :: r ∧ c ∉ l.
Proof.
  revert l r. induction s as [|b s IH]; intros l r; simpl; [done|].
  case_decide.
  - intros [= <- <-]. subst. split; [done|]. apply not_elem_of_nil.
  - destruct (split_once c s) as [[l' r']|]; [|done]. intros [= <- <-].
    destruct (IH l' r' eq_refl) as [-> ?]. split; [done|]. by apply not_elem_of_cons.
Qed.

Lemma split_once_None c s : split_once c s = None ↔ c ∉ s.
Proof.
  induction s as [|b s IH]; simpl.
  - split; [intros _; apply not_elem_of_nil|done].
  - rewrite not_elem_of_cons. case_decide.
    + subst. split; [done|naive_solver].
    + destruct (split_once c s) as [[]|]; naive_solver.
Qed.

Lemma rsplit_once_app c l r : c ∉ r → rsplit_once c (l ++ c :: r) = Some (l, r).
Proof.
  intros Hr. unfold rsplit_once. rewrite reverse_app, reverse_cons, <- app_assoc. simpl.
  rewrite split_once_app by (by rewrite elem_of_reverse). by rewrite !reverse_involutive.
Qed.

Lemma rsplit_once_None c s : rsplit_once c s = None ↔ c ∉ s.
Proof.
  unfold rsplit_once. destruct (split_once c (reverse s)) as [[l r]|] eqn:H.
  - split; [done|]. apply split_once_Some in H as [H _].
    apply (f_equal reverse) in H. rewrite reverse_involutive in H. subst.
    rewrite elem_of_reverse. set_solver.
  - apply split_once_None in H. rewrite elem_of_reverse in H. done.
Qed.

Lemma strip_prefix_app p s : strip_prefix p (p ++ s) = Some s.
Proof. induction p; simpl; [done|]. by rewrite decide_True. Qed.

Lemma strip_prefix_Some p s r : strip_prefix p s = Some r → s = p ++ r.
Proof.
  revert s. induction p as [|a p IH]; intros [|b s]; simpl; try (by intros [= ->]).
  case_decide; [|done]. intros Hr%IH. by subst.
Qed.
