(* ===== verification/Proxy.v ===== *)
(** * The proxy wire format ([core/src/protocol/proxy.rs], [padding.rs],
    [core/src/runtime_io.rs])

    UDP messages in datagrams, TCP requests and responses on streams, with
    their synchronous readers and writers and the asynchronous ones the
    runtime uses. The random padding is an argument of the writers; [sampled]
    states what the padding generator promises. *)
From S2P Require Import Prelude Errors Varint RustStr.
Local Open Scope Z_scope.

Definition FRAME_TYPE_TCP_REQUEST : Z := 0x401.
Definition MAX_ADDRESS_LENGTH : Z := 2048.
Definition MAX_MESSAGE_LENGTH : Z := 2048.
Definition MAX_PADDING_LENGTH : Z := 4096.
Definition MAX_DATAGRAM_FRAME_SIZE : Z := 1200.
Definition MAX_UDP_SIZE : Z := 4096.

(** ** Padding *)

Record PaddingRange := { pad_min : Z; pad_max : Z }.
Definition AUTH_REQUEST_PADDING : PaddingRange := {| pad_min := 256; pad_max := 2048 |}.
Definition AUTH_RESPONSE_PADDING : PaddingRange := {| pad_min := 256; pad_max := 2048 |}.
Definition TCP_REQUEST_PADDING : PaddingRange := {| pad_min := 64; pad_max := 512 |}.
Definition TCP_RESPONSE_PADDING : PaddingRange := {| pad_min := 128; pad_max := 1024 |}.

Definition is_alphanumeric (b : Z) : bool :=
  in_range 48 57 b || in_range 65 90 b || in_range 97 122 b.

(** [PaddingRange::sample]: a string of [min..max] characters, each drawn from
    the [Alphanumeric] distribution. *)
Definition sampled (range : PaddingRange) (padding : bytes) : Prop :=
  pad_min range ≤ len padding < pad_max range ∧
  Forall (fun b => is_alphanumeric b = true) padding.
#[global] Instance sampled_dec range padding : Decision (sampled range padding).
Proof. unfold sampled. apply _. Defined.

Lemma alphanumeric_ascii l : Forall (fun b => is_alphanumeric b = true) l → is_ascii l.
Proof.
  intros H. eapply Forall_impl; [exact H|]. intros b Hb. unfold is_alphanumeric in Hb.
  cbn in Hb. rewrite !orb_true_iff, !in_range_true in Hb. lia.
Qed.
Lemma sampled_bytes_ok range padding : sampled range padding → bytes_ok padding.
Proof. intros [_ H]. by apply ascii_bytes_ok, alphanumeric_ascii. Qed.

(** ** UDP messages *)

(** The step [index += varint::write(&mut buf[index..], v)?] of the writers. *)
Definition put_varint (buf : bytes) (idx v : Z) : outcome ProtocolError (bytes * Z) :=
  tail ← slice_from buf idx;
  '(n, tail) ← varint_write tail v;
  Ret (take (Z.to_nat idx) buf ++ tail, idx + n).


Record UDPMessage := mkUDPMessage {
  session_id : Z;
  packet_id : Z;
  frag_id : Z;
  frag_count : Z;
  addr : bytes;
  data : bytes
}.

#[global] Instance UDPMessage_eq_dec : EqDecision UDPMessage.
Proof. solve_decision. Defined.

(** The field types of the struct; [addr] is a [String]. *)
Definition udp_message_ok (m : UDPMessage) : Prop :=
  is_u32 (session_id m) ∧ is_u16 (packet_id m) ∧ is_u8 (frag_id m) ∧ is_u8 (frag_count m) ∧
  bytes_ok (addr m) ∧ utf8_valid (addr m) = true ∧ bytes_ok (data m).

#[global] Instance udp_message_ok_dec m : Decision (udp_message_ok m).
Proof. unfold udp_message_ok. apply _. Defined.

Definition header_size {E} (m : UDPMessage) : outcome E Z :=
  n ← varint_len (len (addr m));
  Ret (4 + 2 + 1 + 1 + n + len (addr m)).

Definition size {E} (m : UDPMessage) : outcome E Z :=
  h ← header_size m;
  Ret (h + len (data m)).

(** [UDPMessage::serialize]: the bytes written, with the buffer after it. *)
Definition serialize {E} (m : UDPMessage) (buf : bytes) : outcome E (option (Z * bytes)) :=
  n ← size m;
  if decide (len buf < n) then Ret None
  else
    buf ← copy_from_slice buf 0 4 (be_bytes 4 (session_id m));
    buf ← copy_from_slice buf 4 6 (be_bytes 2 (packet_id m));
    buf ← set_index buf 6 (frag_id m);
    buf ← set_index buf 7 (frag_count m);
    match put_varint buf 8 (len (addr m)) with
    | Panic => Panic
    | Err _ => Ret None
    | Ret (buf, idx) =>
        buf ← copy_from_slice buf idx (idx + len (addr m)) (addr m);
        let idx := idx + len (addr m) in
        buf ← copy_from_slice buf idx (idx + len (data m)) (data m);
        let idx := idx + len (data m) in
        Ret (Some (idx, buf))
    end.

Definition parse_udp_message (buf : bytes) : outcome ProtocolError UDPMessage :=
  if decide (len buf < 8) then Err UnexpectedEof
  else
    s ← slice buf 0 4;
    p ← slice buf 4 6;
    frag_id ← index buf 6;
    frag_count ← index buf 7;
    tail ← slice_from buf 8;
    '(addr_len, addr_len_size) ← varint_read_slice tail;
    if decide (addr_len = 0 ∨ MAX_MESSAGE_LENGTH < addr_len) then Err InvalidAddressLength
    else
      let addr_start := 8 + addr_len_size in
      let addr_end := addr_start + addr_len in
      if decide (len buf < addr_end) then Err InvalidMessageLength
      else
        addr ← slice buf addr_start addr_end;
        data ← slice_from buf addr_end;
        Ret {| session_id := of_be s; packet_id := of_be p; frag_id := frag_id;
               frag_count := frag_count; addr := from_utf8_lossy addr; data := data |}.

(** ** TCP requests and responses *)

(** A writer ([Write] or [AsyncWrite]): what it accepted, and the error it
    fails with, if it fails. *)
Record writer := Writer { wr_out : bytes; wr_fail : option io_error }.
Definition write_all (w : writer) (buf : bytes) : outcome io_error writer :=
  match wr_fail w with
  | Some e => Err e
  | None => Ret (Writer (wr_out w ++ buf) None)
  end.

Definition read_tcp_request (r : reader) : outcome ProtocolError (bytes * reader) :=
  '(addr_len, r) ← varint_read r;
  if decide (addr_len = 0 ∨ MAX_ADDRESS_LENGTH < addr_len) then Err InvalidAddressLength
  else
    '(addr, r) ← read_exact_p r addr_len;
    '(padding_len, r) ← varint_read r;
    if decide (MAX_PADDING_LENGTH < padding_len) then Err InvalidPaddingLength
    else
      '(_, r) ← (if decide (0 < padding_len) then read_exact_p r padding_len else Ret ([], r));
      Ret (from_utf8_lossy addr, r).

Definition write_tcp_request (padding : bytes) (w : writer) (addr : bytes)
    : outcome ProtocolError writer :=
  let addr_len := len addr in
  let padding_len := len padding in
  n0 ← varint_len FRAME_TYPE_TCP_REQUEST;
  n1 ← varint_len addr_len;
  n2 ← varint_len padding_len;
  let size := n0 + n1 + addr_len + n2 + padding_len in
  let buf := replicate (Z.to_nat size) 0 in
  '(buf, idx) ← put_varint buf 0 FRAME_TYPE_TCP_REQUEST;
  '(buf, idx) ← put_varint buf idx addr_len;
  buf ← copy_from_slice buf idx (idx + addr_len) addr;
  let idx := idx + addr_len in
  '(buf, idx) ← put_varint buf idx padding_len;
  buf ← copy_from_slice buf idx (idx + padding_len) padding;
  map_err protocol_error_of_io (write_all w buf).

Definition read_tcp_response (r : reader) : outcome ProtocolError ((bool * bytes) * reader) :=
  '(status, r) ← read_exact_p r 1;
  '(message_len, r) ← varint_read r;
  if decide (MAX_MESSAGE_LENGTH < message_len) then Err InvalidMessageLength
  else
    '(message, r) ← (if decide (0 < message_len) then read_exact_p r message_len else Ret ([], r));
    '(padding_len, r) ← varint_read r;
    if decide (MAX_PADDING_LENGTH < padding_len) then Err InvalidPaddingLength
    else
      '(_, r) ← (if decide (0 < padding_len) then read_exact_p r padding_len else Ret ([], r));
      s ← index status 0;
      Ret ((s =? 0, from_utf8_lossy message), r).

Definition write_tcp_response (padding : bytes) (w : writer) (ok : bool) (message : bytes)
    : outcome ProtocolError writer :=
  let message_len := len message in
  let padding_len := len padding in
  n1 ← varint_len message_len;
  n2 ← varint_len padding_len;
  let size := 1 + n1 + message_len + n2 + padding_len in
  let buf := replicate (Z.to_nat size) 0 in
  buf ← set_index buf 0 (if ok then 0 else 1);
  '(buf, idx) ← put_varint buf 1 message_len;
  buf ← copy_from_slice buf idx (idx + message_len) message;
  let idx := idx + message_len in
  '(buf, idx) ← put_varint buf idx padding_len;
  buf ← copy_from_slice buf idx (idx + padding_len) padding;
  map_err protocol_error_of_io (write_all w buf).

(** ** The asynchronous readers and writers *)

Definition rt_read_varint (r : reader) : outcome CoreError (Z * reader) :=
  '(first, r) ← read_exact_c r 1;
  b ← index first 0;
  let needed := varint_needed b in
  '(rest, r) ← (if decide (1 < needed) then read_exact_c r (needed - 1) else Ret ([], r));
  Ret (varint_fold b rest, r).

(** The loop of [discard_exact], with the remaining length as fuel. *)
Fixpoint discard_loop (fuel : nat) (r : reader) (remaining : Z) : outcome CoreError reader :=
  match fuel with
  | O => Ret r
  | S fuel =>
      if decide (0 < remaining) then
        let chunk := Z.min remaining 1024 in
        '(_, r) ← read_exact_c r chunk;
        discard_loop fuel r (remaining - chunk)
      else Ret r
  end.
Definition discard_exact (r : reader) (n : Z) : outcome CoreError reader :=
  discard_loop (Z.to_nat n) r n.

Definition rt_read_tcp_request (r : reader) : outcome CoreError (bytes * reader) :=
  '(addr_len, r) ← rt_read_varint r;
  if decide (addr_len = 0 ∨ MAX_ADDRESS_LENGTH < addr_len)
  then Err (Protocol InvalidAddressLength)
  else
    '(addr_buf, r) ← read_exact_c r addr_len;
    '(padding_len, r) ← rt_read_varint r;
    if decide (MAX_PADDING_LENGTH < padding_len) then Err (Protocol InvalidPaddingLength)
    else
      r ← discard_exact r padding_len;
      Ret (from_utf8_lossy addr_buf, r).

Definition read_framed_tcp_request (r : reader) : outcome CoreError (bytes * reader) :=
  '(frame_type, r) ← rt_read_varint r;
  if decide (frame_type ≠ FRAME_TYPE_TCP_REQUEST) then Err (UnexpectedFrameType frame_type)
  else rt_read_tcp_request r.

Definition rt_read_tcp_response (r : reader) : outcome CoreError ((bool * bytes) * reader) :=
  '(status, r) ← read_exact_c r 1;
  '(msg_len, r) ← rt_read_varint r;
  if decide (MAX_MESSAGE_LENGTH < msg_len) then Err (Protocol InvalidMessageLength)
  else
    '(message, r) ← (if decide (0 < msg_len) then read_exact_c r msg_len else Ret ([], r));
    '(padding_len, r) ← rt_read_varint r;
    if decide (MAX_PADDING_LENGTH < padding_len) then Err (Protocol InvalidPaddingLength)
    else
      r ← discard_exact r padding_len;
      s ← index status 0;
      Ret ((s =? 0, from_utf8_lossy message), r).

(** [encode_*] into a [Vec], which does not fail, then one [write_all]. *)
Definition rt_write_tcp_request (padding : bytes) (w : writer) (addr : bytes)
    : outcome CoreError writer :=
  buf ← map_err Protocol (write_tcp_request padding (Writer [] None) addr);
  map_err core_error_of_io (write_all w (wr_out buf)).

Definition rt_write_tcp_response (padding : bytes) (w : writer) (ok : bool) (message : bytes)
    : outcome CoreError writer :=
  buf ← map_err Protocol (write_tcp_response padding (Writer [] None) ok message);
  map_err core_error_of_io (write_all w (wr_out buf)).

#[global] Arguments put_varint : simpl never.
#[global] Arguments rt_read_varint : simpl never.
#[global] Arguments discard_exact : simpl never.

(** ** Writing *)

Lemma put_varint_spec pre rest i v :
  i = len pre → 0 ≤ v ≤ MAX_VARINT → varint_size v ≤ len rest →
  put_varint (pre ++ rest) i v
  = Ret ((pre ++ varint_encode v) ++ drop (Z.to_nat (len (varint_encode v))) rest, len pre + varint_size v).
Proof.
  intros -> Hv Hr. unfold put_varint. rewrite slice_from_app by done. cbn.
  pose proof (varint_size_bounds v).
  destruct (split_at rest (varint_size v)) as (p & q & -> & Hp); [lia|lia|].
  rewrite varint_write_spec by done. cbn. unfold len at 1 3. rewrite !Nat2Z.id, take_app_length.
  rewrite drop_app_length' by (pose proof (len_varint_encode v); unfold len in *; lia).
  by rewrite <- app_assoc.
Qed.

(** The layout of a UDP message on the wire. *)
Definition udp_wire (m : UDPMessage) : bytes :=
  be_bytes 4 (session_id m) ++ be_bytes 2 (packet_id m) ++ [frag_id m; frag_count m]
  ++ varint_encode (len (addr m)) ++ addr m ++ data m.

Definition udp_header_len (m : UDPMessage) : Z := 8 + varint_size (len (addr m)) + len (addr m).

Lemma header_size_spec {E} m :
  len (addr m) ≤ MAX_VARINT → header_size (E:=E) m = Ret (udp_header_len m).
Proof. intros. unfold header_size. by rewrite varint_len_size by done. Qed.

Lemma size_spec {E} m :
  len (addr m) ≤ MAX_VARINT → size (E:=E) m = Ret (udp_header_len m + len (data m)).
Proof. intros. unfold size. by rewrite header_size_spec. Qed.

Lemma len_udp_wire m : len (udp_wire m) = udp_header_len m + len (data m).
Proof. unfold udp_wire, udp_header_len. autorewrite with len. lia. Qed.

Ltac put :=
  first [ rewrite put_slice by (autorewrite with len in *; lia)
        | rewrite put_index by (autorewrite with len in *; lia)
        | rewrite put_varint_spec by (autorewrite with len in *; lia) ]; cbn -[Z.add drop be_bytes app].

Lemma serialize_spec {E} m buf :
  len (addr m) ≤ MAX_VARINT → len (udp_wire m) ≤ len buf →
  serialize (E:=E) m buf
  = Ret (Some (len (udp_wire m), udp_wire m ++ drop (length (udp_wire m)) buf)).
Proof.
  intros Ha Hb. unfold serialize. rewrite size_spec by done. cbn. rewrite len_udp_wire in *.
  rewrite decide_False by lia. pose proof (varint_size_bounds (len (addr m))).
  pose proof (len_nonneg (addr m)). pose proof (len_nonneg (data m)). unfold udp_header_len in *.
  change buf with ([] ++ buf) at 1. do 7 put.
  apply (f_equal Ret), (f_equal Some), (f_equal2 pair).
  { autorewrite with len. lia. }
  rewrite !drop_drop. replace (length (udp_wire m)) with (Z.to_nat (len (udp_wire m))) by len_lia.
  rewrite len_udp_wire. unfold udp_wire, udp_header_len. peel_app. f_equal.
  autorewrite with len. lia.
Qed.

(** The layout of a TCP request (with its frame type) and of a response. *)
Definition tcp_request_wire (padding addr : bytes) : bytes :=
  varint_encode FRAME_TYPE_TCP_REQUEST ++ varint_encode (len addr) ++ addr
  ++ varint_encode (len padding) ++ padding.
Definition tcp_response_wire (padding : bytes) (ok : bool) (message : bytes) : bytes :=
  (if ok then 0 else 1) :: varint_encode (len message) ++ message
  ++ varint_encode (len padding) ++ padding.

Ltac bounds_of l := pose proof (varint_size_bounds (len l)); pose proof (len_nonneg l).

Lemma write_tcp_request_spec padding addr w :
  len addr ≤ MAX_VARINT → len padding ≤ MAX_VARINT →
  write_tcp_request padding w addr
  = map_err protocol_error_of_io (write_all w (tcp_request_wire padding addr)).
Proof.
  intros Ha Hp. unfold write_tcp_request. bounds_of addr. bounds_of padding.
  pose proof (varint_size_bounds FRAME_TYPE_TCP_REQUEST) as Hf.
  assert (0 ≤ FRAME_TYPE_TCP_REQUEST ≤ MAX_VARINT) by done.
  rewrite !varint_len_size by lia. cbn -[Z.add].
  remember (replicate _ 0) as room eqn:Hroom. apply (f_equal len) in Hroom. rewrite len_replicate in Hroom.
  change room with ([] ++ room) at 1. do 5 put. do 2 f_equal.
  rewrite !drop_drop, drop_ge, app_nil_r.
  - unfold tcp_request_wire. by rewrite <- !app_assoc.
  - autorewrite with len.
    assert (len room = Z.of_nat (length room)) by done. lia.
Qed.

Lemma write_tcp_response_spec padding ok message w :
  len message ≤ MAX_VARINT → len padding ≤ MAX_VARINT →
  write_tcp_response padding w ok message
  = map_err protocol_error_of_io (write_all w (tcp_response_wire padding ok message)).
Proof.
  intros Ha Hp. unfold write_tcp_response. bounds_of message. bounds_of padding.
  rewrite !varint_len_size by done. cbn -[Z.add].
  remember (replicate _ 0) as room eqn:Hroom. apply (f_equal len) in Hroom. rewrite len_replicate in Hroom.
  change room with ([] ++ room) at 1. do 5 put. do 2 f_equal.
  rewrite !drop_drop, drop_ge, app_nil_r.
  - unfold tcp_response_wire. by rewrite <- !app_assoc.
  - autorewrite with len.
    assert (len room = Z.of_nat (length room)) by done. lia.
Qed.

(** ** Reading *)

Lemma discard_loop_spec fuel r n :
  0 ≤ n → n ≤ Z.of_nat fuel →
  discard_loop fuel r n
  = match read_exact_c r n with Ret (_, r') => Ret r' | Err e => Err e | Panic => Panic end.
Proof.
  revert r n. induction fuel as [|fuel IH]; intros r n Hn Hf.
  { assert (n = 0) as -> by lia. destruct r as [d e]. unfold read_exact_c, read_exact. cbn.
    rewrite decide_True by apply len_nonneg. done. }
  cbn [discard_loop]. case_decide as Hpos; cycle 1.
  { assert (n = 0) as -> by lia. destruct r as [d e]. unfold read_exact_c, read_exact. cbn.
    rewrite decide_True by apply len_nonneg. done. }
  destruct r as [d e]. unfold read_exact_c at 1, read_exact. cbn [rd_data rd_end].
  case_decide as Hc.
  - cbn. rewrite IH by lia. unfold read_exact_c, read_exact. cbn [rd_data rd_end].
    destruct (decide (n ≤ len d)).
    + rewrite !decide_True by len_lia. cbn. do 2 f_equal. rewrite drop_drop. f_equal. lia.
    + rewrite !decide_False by len_lia. done.
  - cbn. unfold read_exact_c, read_exact. cbn. rewrite decide_False by lia. done.
Qed.

Lemma discard_exact_spec r n :
  0 ≤ n →
  discard_exact r n
  = match read_exact_c r n with Ret (_, r') => Ret r' | Err e => Err e | Panic => Panic end.
Proof. intros. apply discard_loop_spec; lia. Qed.

(** The error an asynchronous reader reports for a synchronous one: a
    validation error is wrapped, an error of the source is a transport
    error. *)
Definition lift_error (src : io_error) (e : ProtocolError) : CoreError :=
  match e with
  | UnexpectedEof | Io _ => core_error_of_io src
  | e => Protocol e
  end.

Lemma lift_error_io e : lift_error e (protocol_error_of_io e) = core_error_of_io e.
Proof. by destruct e. Qed.

Lemma read_exact_c_lift d e n :
  read_exact_c (Reader d e) n = map_err (lift_error e) (read_exact_p (Reader d e) n).
Proof.
  unfold read_exact_c, read_exact_p, read_exact. cbn. case_decide; cbn; [done|].
  by rewrite lift_error_io.
Qed.

Lemma read_exact_p_Ret d e n x r :
  read_exact_p (Reader d e) n = Ret (x, r) →
  x = take (Z.to_nat n) d ∧ r = Reader (drop (Z.to_nat n) d) e ∧ n ≤ len d.
Proof.
  unfold read_exact_p, read_exact. cbn. case_decide; cbn; [|done]. intros [= <- <-]. done.
Qed.

Lemma varint_read_end d e x r : varint_read (Reader d e) = Ret (x, r) → rd_end r = e.
Proof.
  unfold varint_read. intros [[f r1] [H1 H2]]%bind_Ret_inv.
  apply read_exact_p_Ret in H1 as (_ & -> & _). apply bind_Ret_inv in H2 as (b & _ & H2).
  apply bind_Ret_inv in H2 as ([rest r2] & H3 & [= _ <-]). revert H3. case_decide.
  - by intros (_ & -> & _)%read_exact_p_Ret.
  - by intros [= _ <-].
Qed.

Lemma varint_read_ok d e x r :
  bytes_ok d → varint_read (Reader d e) = Ret (x, r) → bytes_ok (rd_data r) ∧ 0 ≤ x ≤ MAX_VARINT.
Proof.
  intros Hd. rewrite varint_read_agrees by done.
  destruct (varint_read_slice_total d Hd) as [[-> _]|(b&rest&q&->&Hl&->&Hx)]; [done|].
  intros [= <- <-]. split; [|done]. by apply bytes_ok_drop.
Qed.

Lemma rt_read_varint_lift d e :
  rt_read_varint (Reader d e) = map_err (lift_error e) (varint_read (Reader d e)).
Proof.
  unfold rt_read_varint, varint_read. rewrite read_exact_c_lift.
  destruct (read_exact_p (Reader d e) 1) as [[f r]|err|] eqn:H1; cbn; try done.
  apply read_exact_p_Ret in H1 as (_ & -> & _).
  destruct (index_cases f 0) as [(b & _ & Hb)|Hb]; rewrite !Hb; cbn; [|done].
  case_decide; cbn; [|done]. rewrite read_exact_c_lift.
  by destruct (read_exact_p _ _) as [[? ?]|?|].
Qed.

(** Runs one step that both readers share, and forgets the error case. *)
Ltac lift_step :=
  match goal with
  | |- context [rt_read_varint (Reader ?d ?e)] =>
      rewrite (rt_read_varint_lift d e);
      let H := fresh "Hv" in
      destruct (varint_read (Reader d e)) as [[? [? ?]]| |] eqn:H; cbn; [|done|done];
      pose proof (varint_read_end _ _ _ _ H); cbn in *; subst
  | |- context [read_exact_c (Reader ?d ?e) ?n] =>
      rewrite (read_exact_c_lift d e n);
      let H := fresh "Hx" in
      destruct (read_exact_p (Reader d e) n) as [[? [? ?]]| |] eqn:H; cbn; [|done|done];
      let H1 := fresh in
      apply read_exact_p_Ret in H as H1; destruct H1 as (-> & [= -> ->] & ?)
  end.

Lemma rt_read_tcp_request_lift d e :
  bytes_ok d →
  rt_read_tcp_request (Reader d e) = map_err (lift_error e) (read_tcp_request (Reader d e)).
Proof.
  intros Hd. unfold rt_read_tcp_request, read_tcp_request. lift_step.
  apply varint_read_ok in Hv as [Hd1 _]; [|done]. cbn in Hd1.
  case_decide; [done|]. lift_step. lift_step.
  apply varint_read_ok in Hv as [_ Hx2]; [|by apply bytes_ok_drop].
  case_decide; [done|]. rewrite discard_exact_spec by lia. case_decide.
  - lift_step. done.
  - assert (z0 = 0) as -> by lia. unfold read_exact_c, read_exact. cbn.
    rewrite decide_True by apply len_nonneg. done.
Qed.

(** What both response readers do after the message. *)
Lemma response_tail_lift st x d e :
  bytes_ok d →
  ('(padding_len, r) ← rt_read_varint (Reader d e);
   if decide (MAX_PADDING_LENGTH < padding_len) then Err (Protocol InvalidPaddingLength)
   else r ← discard_exact r padding_len; s ← index st 0; Ret ((s =? 0, from_utf8_lossy x), r))
  = map_err (lift_error e)
   ('(padding_len, r) ← varint_read (Reader d e);
    if decide (MAX_PADDING_LENGTH < padding_len) then Err InvalidPaddingLength
    else '(_, r) ← (if decide (0 < padding_len) then read_exact_p r padding_len else Ret ([], r));
         s ← index st 0; Ret ((s =? 0, from_utf8_lossy x), r)).
Proof.
  intros Hd. lift_step. apply varint_read_ok in Hv as [_ Hx]; [|done].
  case_decide; [done|]. rewrite discard_exact_spec by lia.
  case_decide.
  - lift_step. destruct (index_cases st 0) as [(b & _ & Hb)|Hb]; by rewrite !Hb.
  - assert (z = 0) as -> by lia. unfold read_exact_c, read_exact. cbn.
    rewrite decide_True by apply len_nonneg. cbn.
    destruct (index_cases st 0) as [(b & _ & Hb)|Hb]; by rewrite !Hb.
Qed.

Lemma rt_read_tcp_response_lift d e :
  bytes_ok d →
  rt_read_tcp_response (Reader d e) = map_err (lift_error e) (read_tcp_response (Reader d e)).
Proof.
  intros Hd. unfold rt_read_tcp_response, read_tcp_response. lift_step.
  generalize (take (Z.to_nat 1) d). intros st. lift_step.
  apply varint_read_ok in Hv as [Hd1 _]; [|by apply bytes_ok_drop]. cbn in Hd1.
  case_decide; [done|]. case_decide; cbn; [|by apply response_tail_lift].
  rewrite read_exact_c_lift.
  destruct (read_exact_p _ z) as [[? [? ?]]| |] eqn:Hy; cbn; [|done|done].
  apply read_exact_p_Ret in Hy as (-> & [= -> ->] & _). apply response_tail_lift. by apply bytes_ok_drop.
Qed.

Lemma read_tcp_request_wire padding a q e :
  utf8_valid a = true → 1 ≤ len a ≤ MAX_ADDRESS_LENGTH → len padding ≤ MAX_PADDING_LENGTH →
  read_tcp_request
    (Reader (varint_encode (len a) ++ a ++ varint_encode (len padding) ++ padding ++ q) e)
  = Ret (a, Reader q e).
Proof.
  intros Hu Ha Hp. pose proof (len_nonneg padding). unfold read_tcp_request, MAX_ADDRESS_LENGTH, MAX_PADDING_LENGTH in *.
  rewrite varint_read_encode by (unfold MAX_VARINT; lia). cbn.
  rewrite decide_False by lia. rewrite read_exact_p_app by done. cbn.
  rewrite varint_read_encode by (unfold MAX_VARINT; lia). cbn.
  rewrite decide_False by lia. rewrite from_utf8_lossy_valid by done.
  case_decide; [by rewrite read_exact_p_app by done|].
  assert (padding = []) as -> by (apply len_0_nil; lia). done.
Qed.

Lemma read_tcp_response_wire padding ok msg q e :
  utf8_valid msg = true → len msg ≤ MAX_MESSAGE_LENGTH → len padding ≤ MAX_PADDING_LENGTH →
  read_tcp_response (Reader (tcp_response_wire padding ok msg ++ q) e) = Ret ((ok, msg), Reader q e).
Proof.
  intros Hu Ha Hp. pose proof (len_nonneg padding). pose proof (len_nonneg msg).
  unfold read_tcp_response, tcp_response_wire, MAX_MESSAGE_LENGTH, MAX_PADDING_LENGTH in *.
  cbn [app]. rewrite <- !app_assoc.
  match goal with |- context [Reader (?s :: ?t) e] => change (s :: t) with ([s] ++ t) end.
  rewrite read_exact_p_app by done. cbn.
  rewrite varint_read_encode by (unfold MAX_VARINT; lia). cbn.
  rewrite decide_False by lia.
  assert (∀ t, (if decide (0 < len msg) then read_exact_p (Reader (msg ++ t) e) (len msg)
          else Ret ([], Reader (msg ++ t) e)) = Ret (msg, Reader t e)) as ->.
  { intros t. case_decide; [by apply read_exact_p_app|].
    assert (msg = []) as -> by (apply len_0_nil; lia). done. }
  cbn. rewrite varint_read_encode by (unfold MAX_VARINT; lia). cbn.
  rewrite decide_False by lia. rewrite from_utf8_lossy_valid by done.
  case_decide.
  - rewrite read_exact_p_app by done. cbn. rewrite index_head. cbn. by destruct ok.
  - assert (padding = []) as -> by (apply len_0_nil; lia). cbn. rewrite index_head. by destruct ok.
Qed.

Lemma parse_udp_wire m :
  udp_message_ok m → 1 ≤ len (addr m) ≤ MAX_MESSAGE_LENGTH → parse_udp_message (udp_wire m) = Ret m.
Proof.
  intros (Hs & Hp & Hf & Hc & Ha & Hu & Hd) Hal. unfold parse_udp_message.
  pose proof (len_udp_wire m) as Hl. unfold udp_header_len in Hl.
  bounds_of (addr m). bounds_of (data m). rewrite decide_False by lia.
  set (al := len (addr m)) in *. assert (0 ≤ al ≤ MAX_VARINT) by (unfold MAX_MESSAGE_LENGTH, MAX_VARINT in *; lia).
  assert (slice (E:=ProtocolError) (udp_wire m) 0 4 = Ret (be_bytes 4 (session_id m))) as ->.
  { by apply slice_prefix. }
  assert (slice (E:=ProtocolError) (udp_wire m) 4 6 = Ret (be_bytes 2 (packet_id m))) as ->.
  { by apply slice_app_mid. }
  assert (index (E:=ProtocolError) (udp_wire m) 6 = Ret (frag_id m)) as ->.
  { unfold udp_wire. rewrite app_assoc. by apply index_app_r. }
  assert (index (E:=ProtocolError) (udp_wire m) 7 = Ret (frag_count m)) as ->.
  { replace (udp_wire m) with ((be_bytes 4 (session_id m) ++ be_bytes 2 (packet_id m) ++ [frag_id m])
      ++ frag_count m :: varint_encode al ++ addr m ++ data m) by (unfold udp_wire; by rewrite <- !app_assoc).
    by apply index_app_r. }
  assert (∃ pre, udp_wire m = pre ++ varint_encode al ++ addr m ++ data m ∧ len pre = 8) as (pre & Hw & Hpre).
  { exists (be_bytes 4 (session_id m) ++ be_bytes 2 (packet_id m) ++ [frag_id m; frag_count m]).
    split; [unfold udp_wire; by rewrite <- !app_assoc|done]. }
  rewrite Hw in *. cbn. rewrite slice_from_app by done. cbn.
  rewrite varint_read_slice_encode by done. cbn -[Z.add].
  rewrite decide_False by lia. rewrite decide_False by lia.
  rewrite (app_assoc pre). rewrite slice_app_mid by (autorewrite with len; fold al; lia). cbn -[Z.add].
  rewrite (app_assoc _ (addr m)). rewrite slice_from_app by (autorewrite with len; fold al; lia). cbn.
  rewrite from_utf8_lossy_valid by done. destruct m; cbn in *.
  unfold is_u32, is_u16 in *. rewrite !of_be_be_bytes_id by (cbn; lia). done.
Qed.

Lemma slice_bytes_ok {E} l a b s : bytes_ok l → slice (E:=E) l a b = Ret s → bytes_ok s.
Proof. intros Hl. unfold slice. case_decide; [|done]. intros [= <-]. auto with rust. Qed.

Lemma index_u8 {E} l i b : bytes_ok l → index (E:=E) l i = Ret b → is_u8 b.
Proof.
  intros Hl. unfold index. case_decide; [|done]. destruct (l !! _) eqn:Hi; [|done].
  intros [= <-]. by eapply Forall_lookup_1 in Hi.
Qed.

Lemma slice_len {E A} (l : list A) a b s : slice (E:=E) l a b = Ret s → len s = b - a.
Proof. unfold slice. case_decide; [|done]. intros [= <-]. autorewrite with len. lia. Qed.

(** Lossy decoding makes bytes. *)
Lemma from_utf8_lossy_ok l : bytes_ok l → bytes_ok (from_utf8_lossy l).
Proof.
  induction l as [|b l IH] using utf8_ind; intros Hl; [constructor|].
  rewrite from_utf8_lossy_cons. apply bytes_ok_app. split; [|by apply IH, bytes_ok_drop].
  destruct (fst _); [by apply bytes_ok_take|]. unfold REPLACEMENT, is_u8. repeat constructor; lia.
Qed.

(** What parsing any datagram does: an error, or a message whose fields have
    the types of the struct. *)
Lemma parse_udp_message_cases buf :
  bytes_ok buf →
  (∃ e, parse_udp_message buf = Err e ∧
     (e = UnexpectedEof ∨ e = InvalidAddressLength ∨ e = InvalidMessageLength)) ∨
  (∃ m, parse_udp_message buf = Ret m ∧ udp_message_ok m ∧ len (data m) ≤ len buf - 10).
Proof.
  intros Hok. unfold parse_udp_message. case_decide as Hl; [left; eauto|].
  destruct (slice (E:=ProtocolError) buf 0 4) as [s|?|] eqn:Hs; try (rewrite slice_ok in Hs by lia; discriminate).
  destruct (slice (E:=ProtocolError) buf 4 6) as [p|?|] eqn:Hp; try (rewrite slice_ok in Hp by lia; discriminate).
  destruct (index_ok (E:=ProtocolError) buf 6 ltac:(lia)) as (f & _ & Hf).
  destruct (index_ok (E:=ProtocolError) buf 7 ltac:(lia)) as (c & _ & Hc).
  rewrite Hf, Hc. destruct (split_at buf 8) as (pre & tail & -> & Hpre); [lia|lia|].
  cbn. rewrite slice_from_app by done. cbn. rewrite len_app in *.
  apply bytes_ok_app in Hok as Hok'. destruct Hok' as [Hok1 Hok2].
  destruct (varint_read_slice_total tail Hok2) as [[-> _]|(b & rest & q & Htail & Hrest & -> & Hv)]; cbn -[Z.add]; [left; eauto|].
  case_decide as Ha; [left; eauto|]. case_decide as Hm; [left; eauto|]. right.
  assert (is_u8 b) as Hb. { rewrite Htail in Hok2. by inversion Hok2. }
  pose proof (varint_needed_cases b Hb).
  destruct (slice (E:=ProtocolError) (pre ++ tail) (8 + varint_needed b) _) as [a|?|] eqn:Hsl;
    try (rewrite slice_ok in Hsl by (rewrite ?len_app; lia); discriminate). cbn -[Z.add].
  unfold slice_from.
  destruct (slice (E:=ProtocolError) (pre ++ tail) _ (len (pre ++ tail))) as [dt|?|] eqn:Hd;
    try (rewrite slice_ok in Hd by (rewrite ?len_app; lia); discriminate). cbn.
  eexists. split; [reflexivity|]. split.
  - unfold udp_message_ok. cbn. pose proof (slice_len _ _ _ _ Hs). pose proof (slice_len _ _ _ _ Hp).
    apply (slice_bytes_ok _ _ _ _ Hok) in Hs, Hp, Hsl, Hd.
    pose proof (of_be_bound s Hs) as B1. pose proof (of_be_bound p Hp) as B2.
    rewrite H0 in B1. rewrite H1 in B2. change (256 ^ (4 - 0)) with 4294967296 in B1.
    change (256 ^ (6 - 4)) with 65536 in B2. unfold is_u32, is_u16.
    split_and!; try lia; try done; try apply from_utf8_lossy_is_valid; try by apply from_utf8_lossy_ok.
    + exact (index_u8 _ _ _ Hok Hf).
    + exact (index_u8 _ _ _ Hok Hc).
  - cbn. pose proof (slice_len _ _ _ _ Hd). rewrite len_app in *. lia.
Qed.

Lemma rt_write_tcp_request_ok padding out a :
  sampled TCP_REQUEST_PADDING padding → len a ≤ MAX_VARINT →
  rt_write_tcp_request padding (Writer out None) a = Ret (Writer (out ++ tcp_request_wire padding a) None).
Proof.
  intros [Hp _] Ha. unfold rt_write_tcp_request. cbn in Hp.
  rewrite write_tcp_request_spec by (unfold MAX_VARINT in *; lia). done.
Qed.

Lemma rt_write_tcp_response_ok padding out ok msg :
  sampled TCP_RESPONSE_PADDING padding → len msg ≤ MAX_VARINT →
  rt_write_tcp_response padding (Writer out None) ok msg
  = Ret (Writer (out ++ tcp_response_wire padding ok msg) None).
Proof.
  intros [Hp _] Ha. unfold rt_write_tcp_response. cbn in Hp.
  rewrite write_tcp_response_spec by (unfold MAX_VARINT in *; lia). done.
Qed.

Lemma read_framed_wire padding a q e :
  sampled TCP_REQUEST_PADDING padding → utf8_valid a = true → bytes_ok a → bytes_ok q →
  1 ≤ len a ≤ MAX_ADDRESS_LENGTH →
  read_framed_tcp_request (Reader (tcp_request_wire padding a ++ q) e) = Ret (a, Reader q e).
Proof.
  intros Hp Hu Ha Hq Hl. pose proof (sampled_bytes_ok _ _ Hp) as Hpad. destruct Hp as [Hp _]. cbn in Hp.
  unfold read_framed_tcp_request. rewrite rt_read_varint_lift. unfold tcp_request_wire, MAX_ADDRESS_LENGTH in *.
  rewrite <- !app_assoc. rewrite varint_read_encode by done. cbn.
  rewrite decide_False by naive_solver.
  rewrite rt_read_tcp_request_lift by (rewrite !bytes_ok_app; auto with rust).
  by rewrite read_tcp_request_wire by (unfold MAX_PADDING_LENGTH; (done || lia)).
Qed.

Lemma rt_read_response_wire padding ok msg q e :
  sampled TCP_RESPONSE_PADDING padding → utf8_valid msg = true → bytes_ok msg → bytes_ok q →
  len msg ≤ MAX_MESSAGE_LENGTH →
  rt_read_tcp_response (Reader (tcp_response_wire padding ok msg ++ q) e) = Ret ((ok, msg), Reader q e).
Proof.
  intros Hp Hu Hm Hq Hl. pose proof (sampled_bytes_ok _ _ Hp) as Hpad. destruct Hp as [Hp _]. cbn in Hp.
  rewrite rt_read_tcp_response_lift.
  - by rewrite read_tcp_response_wire by (unfold MAX_PADDING_LENGTH, MAX_MESSAGE_LENGTH in *; (done || lia)).
  - unfold tcp_response_wire. cbn [app]. constructor; [destruct ok; unfold is_u8; lia|].
    change (Forall is_u8) with bytes_ok. rewrite !bytes_ok_app. auto with rust.
Qed.

(** ** Properties *)

(** A UDP message survives the wire. Serializing a message whose address is
    a non-empty string of at most 2048 bytes into a buffer that is long enough
    reports the exact size of the message, leaves the rest of the buffer
    alone, and parsing the reported prefix gives the message back. *)
Theorem udp_message_roundtrip m buf :
  udp_message_ok m → 1 ≤ len (addr m) ≤ MAX_MESSAGE_LENGTH →
  udp_header_len m + len (data m) ≤ len buf →
  ∃ n buf', serialize (E:=ProtocolError) m buf = Ret (Some (n, buf')) ∧
    size (E:=ProtocolError) m = Ret n ∧ len buf' = len buf ∧
    drop (Z.to_nat n) buf' = drop (Z.to_nat n) buf ∧
    parse_udp_message (take (Z.to_nat n) buf') = Ret m.
Proof.
  intros Hok Ha Hb. assert (len (addr m) ≤ MAX_VARINT) by (unfold MAX_MESSAGE_LENGTH, MAX_VARINT in *; lia).
  exists (len (udp_wire m)), (udp_wire m ++ drop (length (udp_wire m)) buf).
  rewrite serialize_spec, size_spec by (rewrite ?len_udp_wire; done).
  pose proof (len_nonneg (udp_wire m)). rewrite <- len_udp_wire in Hb.
  assert (Z.to_nat (len (udp_wire m)) = length (udp_wire m)) as Hn by (unfold len; lia).
  rewrite Hn, take_app_length, drop_app_length, parse_udp_wire by done.
  rewrite len_udp_wire. split_and!; try done.
  rewrite len_app, len_drop, len_udp_wire in *. unfold len in *. lia.
Qed.

Lemma udp_message_roundtrip_witness :
  ∃ n buf',
    serialize (E:=ProtocolError)
      (mkUDPMessage 7 1 0 1 (str "example.com:53") [1; 2; 3]) (replicate 64 0) = Ret (Some (n, buf')) ∧
    parse_udp_message (take (Z.to_nat n) buf')
      = Ret (mkUDPMessage 7 1 0 1 (str "example.com:53") [1; 2; 3]).
Proof.
  destruct (udp_message_roundtrip
    (mkUDPMessage 7 1 0 1 (str "example.com:53") [1; 2; 3]) (replicate 64 0))
    as (n & buf' & H1 & _ & _ & _ & H2).
  - by_decide.
  - by_decide.
  - by_decide.
  - exists n, buf'. split; [exact H1|exact H2].
Defined.

(** Parsing a datagram is total. On any bytes it does not panic: it returns
    one of the three length errors, or a message whose address is valid UTF-8
    and whose fields fit their widths, with at most [len buf - 10] bytes of
    payload. *)
Theorem parse_udp_message_total buf :
  bytes_ok buf →
  parse_udp_message buf ≠ Panic ∧
  (∀ e, parse_udp_message buf = Err e →
     e = UnexpectedEof ∨ e = InvalidAddressLength ∨ e = InvalidMessageLength) ∧
  (∀ m, parse_udp_message buf = Ret m → udp_message_ok m ∧ len (data m) ≤ len buf - 10).
Proof.
  intros Hok. destruct (parse_udp_message_cases buf Hok) as [(e & -> & He)|(m & -> & Hm)];
    split_and!; naive_solver.
Qed.

Lemma parse_udp_message_total_witness :
  parse_udp_message [0; 0; 0; 1; 0; 0; 0; 1; 0] ≠ Panic.
Proof.
  apply (parse_udp_message_total [0; 0; 0; 1; 0; 0; 0; 1; 0]).
  by_decide.
Defined.

(** A TCP request reaches the server. What the runtime writes for an
    address of 1 to 2048 bytes, whatever padding was drawn, is read back by the
    server's framed reader as that address, and the reader stops exactly where
    the proxied payload [q] starts; an empty or longer address is refused with
    [InvalidAddressLength]. *)
Theorem tcp_request_roundtrip padding a out q e :
  sampled TCP_REQUEST_PADDING padding → utf8_valid a = true → bytes_ok a → bytes_ok q →
  len a ≤ MAX_VARINT →
  ∃ wire, rt_write_tcp_request padding (Writer out None) a = Ret (Writer (out ++ wire) None) ∧
    read_framed_tcp_request (Reader (wire ++ q) e)
    = if decide (1 ≤ len a ≤ MAX_ADDRESS_LENGTH) then Ret (a, Reader q e)
      else Err (Protocol InvalidAddressLength).
Proof.
  intros Hp Hu Ha Hq Hl. exists (tcp_request_wire padding a). split; [by apply rt_write_tcp_request_ok|].
  case_decide; [by apply read_framed_wire|]. pose proof (len_nonneg a).
  unfold read_framed_tcp_request. rewrite rt_read_varint_lift. unfold tcp_request_wire.
  rewrite <- !app_assoc. rewrite varint_read_encode by done. cbn. rewrite decide_False by naive_solver.
  pose proof (sampled_bytes_ok _ _ Hp). rewrite rt_read_tcp_request_lift by (rewrite !bytes_ok_app; auto with rust).
  unfold read_tcp_request. rewrite varint_read_encode by (unfold MAX_VARINT in *; lia). cbn.
  rewrite decide_True; [done|]. lia.
Qed.

Lemma tcp_request_roundtrip_witness :
  ∃ wire, rt_write_tcp_request (replicate 64 97) (Writer [] None) (str "example.com:80")
            = Ret (Writer ([] ++ wire) None) ∧
    read_framed_tcp_request (Reader (wire ++ str "GET /") (IoUnexpectedEof []))
    = Ret (str "example.com:80", Reader (str "GET /") (IoUnexpectedEof [])).
Proof.
  apply (tcp_request_roundtrip (replicate 64 97) (str "example.com:80") [] (str "GET /")
           (IoUnexpectedEof [])); [|reflexivity|apply str_ok|apply str_ok|vm_compute; discriminate].
  by_decide.
Defined.

(** A TCP response reaches the client: the runtime's reader returns the
    status and the message the runtime's writer was given, for every padding
    drawn, and stops where the relayed payload starts. *)
Theorem tcp_response_roundtrip padding ok msg out q e :
  sampled TCP_RESPONSE_PADDING padding → utf8_valid msg = true → bytes_ok msg → bytes_ok q →
  len msg ≤ MAX_MESSAGE_LENGTH →
  ∃ wire, rt_write_tcp_response padding (Writer out None) ok msg = Ret (Writer (out ++ wire) None) ∧
    rt_read_tcp_response (Reader (wire ++ q) e) = Ret ((ok, msg), Reader q e).
Proof.
  intros Hp Hu Hm Hq Hl. exists (tcp_response_wire padding ok msg).
  split; [apply rt_write_tcp_response_ok; [done|unfold MAX_MESSAGE_LENGTH, MAX_VARINT in *; lia]|].
  by apply rt_read_response_wire.
Qed.

Lemma tcp_response_roundtrip_witness :
  ∃ wire, rt_write_tcp_response (replicate 200 90) (Writer [] None) true (str "Connected")
            = Ret (Writer ([] ++ wire) None) ∧
    rt_read_tcp_response (Reader (wire ++ []) (IoUnexpectedEof []))
    = Ret ((true, str "Connected"), Reader [] (IoUnexpectedEof [])).
Proof.
  apply (tcp_response_roundtrip (replicate 200 90) true (str "Connected") [] [] (IoUnexpectedEof []));
    [|reflexivity|apply str_ok|constructor|vm_compute; discriminate].
  by_decide.
Defined.

(** The asynchronous readers are the synchronous ones. On every byte stream
    the runtime's request and response readers return what the protocol
    module's readers return, with a validation error wrapped and an error of
    the source reported as a transport error; [discard_exact], which skips the
    padding 1024 bytes at a time, consumes exactly the padding. *)
Theorem runtime_readers_refine d e :
  bytes_ok d →
  rt_read_tcp_request (Reader d e) = map_err (lift_error e) (read_tcp_request (Reader d e)) ∧
  rt_read_tcp_response (Reader d e) = map_err (lift_error e) (read_tcp_response (Reader d e)) ∧
  ∀ n, 0 ≤ n ≤ len d →
    discard_exact (Reader d e) n = Ret (Reader (drop (Z.to_nat n) d) e).
Proof.
  intros Hd. split_and!; [by apply rt_read_tcp_request_lift|by apply rt_read_tcp_response_lift|].
  intros n Hn. rewrite discard_exact_spec by lia. unfold read_exact_c, read_exact. cbn.
  by rewrite decide_True by lia.
Qed.

Lemma runtime_readers_refine_witness :
  rt_read_tcp_response (Reader [0; 0; 0] (IoUnexpectedEof []))
  = map_err (lift_error (IoUnexpectedEof [])) (read_tcp_response (Reader [0; 0; 0] (IoUnexpectedEof []))).
Proof.
  apply (runtime_readers_refine [0; 0; 0] (IoUnexpectedEof [])).
  by_decide.
Defined.
