(* ===== verification/Frag.v ===== *)
(** * Fragmentation and reassembly of UDP messages ([core/src/frag.rs])

    [frag_udp_message] cuts a message that does not fit a datagram, and
    [Defragger] puts the fragments back together, keeping at most
    [MAX_IN_FLIGHT_PACKETS] packets. The map of packets is a [gmap] and the
    order queue a list, oldest first. *)
From S2P Require Import Prelude Errors Varint RustStr Proxy.
Local Open Scope Z_scope.

Definition MAX_IN_FLIGHT_PACKETS : Z := 64.

(** [message.clone()] with the three fields a fragment overwrites. *)
Definition with_fragment (m : UDPMessage) (id count : Z) (payload : bytes) : UDPMessage :=
  mkUDPMessage (session_id m) (packet_id m) id count (addr m) payload.

(** The loop of [frag_udp_message]. Every turn consumes a byte of the payload
    at least, so that its length bounds the turns; running out of fuel is a
    [Panic] which the theorems exclude. *)
Fixpoint frag_loop {E} (fuel : nat) (checks : bool) (m : UDPMessage)
    (max_payload_size frag_count offset frag_id : Z) : outcome E (list UDPMessage) :=
  match fuel with
  | O => Panic
  | S fuel =>
      if decide (offset < len (data m)) then
        let payload_size := Z.min (len (data m) - offset) max_payload_size in
        payload ← slice (data m) offset (offset + payload_size);
        next_id ← u8_add checks frag_id 1;
        rest ← frag_loop fuel checks m max_payload_size frag_count (offset + payload_size) next_id;
        Ret (with_fragment m frag_id frag_count payload :: rest)
      else Ret []
  end.

Definition frag_udp_message {E} (checks : bool) (m : UDPMessage) (max_size : Z)
    : outcome E (list UDPMessage) :=
  n ← size m;
  if decide (n ≤ max_size) then Ret [m]
  else
    h ← header_size m;
    max_payload_size ← u64_sub checks max_size h;
    frag_count ← div_ceil (len (data m)) max_payload_size;
    frag_loop (S (length (data m))) checks m max_payload_size (as_u8 frag_count) 0 0.

Record PacketState := mkPacketState {
  ps_session_id : Z;
  ps_addr : bytes;
  ps_fragments : list (option UDPMessage);
  ps_count : Z;
  ps_size : Z
}.

Record Defragger := mkDefragger {
  packets : gmap Z PacketState;
  order : list Z
}.

(** [Defragger::default]. *)
Definition defragger_default : Defragger := mkDefragger ∅ [].

(** [order.remove] at the first position that holds the id. *)
Fixpoint remove_first (id : Z) (l : list Z) : list Z :=
  match l with
  | [] => []
  | x :: l => if decide (x = id) then l else x :: remove_first id l
  end.

Definition remove_packet (d : Defragger) (id : Z) : Defragger :=
  mkDefragger (delete id (packets d)) (remove_first id (order d)).

(** The eviction loop of [insert_packet]: a turn pops the oldest id. *)
Fixpoint evict (ps : gmap Z PacketState) (l : list Z) : Defragger :=
  if decide (MAX_IN_FLIGHT_PACKETS ≤ len l) then
    match l with
    | [] => mkDefragger ps []
    | oldest :: l => evict (delete oldest ps) l
    end
  else mkDefragger ps l.

Definition insert_packet {E} (d : Defragger) (id frag_count : Z) (m : UDPMessage)
    : outcome E Defragger :=
  let d := remove_packet d id in
  let d := evict (packets d) (order d) in
  fragments ← set_index (replicate (Z.to_nat frag_count) None) (frag_id m) (Some m);
  Ret (mkDefragger
    (<[id := mkPacketState (session_id m) (addr m) fragments 1 (len (data m))]> (packets d))
    (order d ++ [id])).

(** The payloads in order; a missing fragment is the panic of its [expect]. *)
Fixpoint assemble {E} (l : list (option UDPMessage)) : outcome E bytes :=
  match l with
  | [] => Ret []
  | None :: _ => Panic
  | Some m :: l => rest ← assemble l; Ret (data m ++ rest)
  end.

Definition needs_reset (d : Defragger) (m : UDPMessage) : bool :=
  match packets d !! packet_id m with
  | Some st =>
      negb (bool_decide (ps_session_id st = session_id m))
      || negb (bool_decide (ps_addr st = addr m))
      || negb (bool_decide (len (ps_fragments st) = frag_count m))
  | None => true
  end.

Definition feed {E} (checks : bool) (d : Defragger) (m : UDPMessage)
    : outcome E (option UDPMessage * Defragger) :=
  if decide (frag_count m ≤ 1) then Ret (Some m, d)
  else if decide (frag_count m ≤ frag_id m) then Ret (None, d)
  else if needs_reset d m then
    d ← insert_packet d (packet_id m) (frag_count m) m;
    Ret (None, d)
  else
    match packets d !! packet_id m with
    | None => Ret (None, d)
    | Some st =>
        slot ← index (ps_fragments st) (frag_id m);
        st ← match slot with
             | Some _ => Ret st
             | None =>
                 size ← u64_add checks (ps_size st) (len (data m));
                 count ← u8_add checks (ps_count st) 1;
                 fragments ← set_index (ps_fragments st) (frag_id m) (Some m);
                 Ret (mkPacketState (ps_session_id st) (ps_addr st) fragments count size)
             end;
        let d := mkDefragger (<[packet_id m := st]> (packets d)) (order d) in
        if decide (ps_count st = len (ps_fragments st)) then
          payload ← assemble (ps_fragments st);
          Ret (Some (with_fragment m 0 1 payload), remove_packet d (packet_id m))
        else Ret (None, d)
    end.

(** Feeding a sequence of messages, with what each feed returned. *)
Fixpoint feed_all {E} (checks : bool) (d : Defragger) (ms : list UDPMessage)
    : outcome E (list (option UDPMessage) * Defragger) :=
  match ms with
  | [] => Ret ([], d)
  | m :: ms =>
      '(o, d) ← feed checks d m;
      '(os, d) ← feed_all checks d ms;
      Ret (o :: os, d)
  end.

(** ** Fragmentation *)

(** The fragments of a message for a list of payload chunks. *)
Definition fragments_of (m : UDPMessage) (count : Z) (first : Z) (cs : list bytes) : list UDPMessage :=
  imap (fun i c => with_fragment m (first + Z.of_nat i) count c) cs.

#[global] Arguments fragments_of : simpl never.

Lemma fragments_of_cons m count first c cs :
  fragments_of m count first (c :: cs)
  = with_fragment m first count c :: fragments_of m count (first + 1) cs.
Proof.
  unfold fragments_of. cbn [imap]. rewrite Z.add_0_r. f_equal.
  apply imap_ext. intros i x _. cbn. f_equal. lia.
Qed.

Lemma frag_loop_spec {E} fuel checks m mp count off fid fuel' :
  0 < mp → 0 ≤ off ≤ len (data m) →
  (length (drop (Z.to_nat off) (data m)) < fuel)%nat →
  (length (drop (Z.to_nat off) (data m)) ≤ fuel')%nat →
  0 ≤ fid → fid + Z.of_nat (length (chunks fuel' mp (drop (Z.to_nat off) (data m)))) ≤ u8_max →
  frag_loop (E:=E) fuel checks m mp count off fid
  = Ret (fragments_of m count fid (chunks fuel' mp (drop (Z.to_nat off) (data m)))).
Proof.
  intros Hmp. revert off fid fuel'. induction fuel as [|fuel IH]; intros off fid fuel' Hoff Hf Hf' Hfid Hid; [lia|].
  cbn [frag_loop]. assert (len (drop (Z.to_nat off) (data m)) = len (data m) - off) as Hld
    by (rewrite len_drop; lia).
  case_decide as Hlt; last first.
  { assert (drop (Z.to_nat off) (data m) = []) as -> by (apply len_0_nil; lia).
    by destruct fuel'. }
  set (ps := Z.min (len (data m) - off) mp). rewrite slice_ok by lia. cbn -[Z.add].
  destruct (drop (Z.to_nat off) (data m)) as [|b l] eqn:Hd; [rewrite len_nil in Hld; lia|].
  destruct fuel' as [|fuel']; [simpl in Hf'; lia|]. cbn [chunks] in *. rewrite <- Hd in *.
  assert (Z.to_nat (off + ps - off) = Z.to_nat ps) as -> by lia.
  assert (take (Z.to_nat ps) (drop (Z.to_nat off) (data m)) = take (Z.to_nat mp) (drop (Z.to_nat off) (data m))) as ->.
  { destruct (decide (mp ≤ len (data m) - off)); [f_equal; lia|].
    unfold ps. rewrite !take_ge by (unfold len in *; lia). done. }
  assert (drop (Z.to_nat mp) (drop (Z.to_nat off) (data m)) = drop (Z.to_nat (off + ps)) (data m)) as Hrest.
  { rewrite drop_drop. destruct (decide (mp ≤ len (data m) - off)); [f_equal; lia|].
    unfold ps. rewrite !drop_ge by (unfold len in *; lia). done. }
  rewrite Hrest in *. cbn [length] in Hid. unfold u8_max in *.
  unfold u8_add at 1. rewrite decide_True by (unfold u8_max; lia). cbn -[Z.add].
  assert (length (drop (Z.to_nat (off + ps)) (data m)) < length (drop (Z.to_nat off) (data m)))%nat.
  { rewrite !length_drop. unfold len in *. lia. }
  rewrite (IH (off + ps) (fid + 1) fuel') by lia. cbn. by rewrite fragments_of_cons.
Qed.

(** What fragmenting an oversized message gives when its header leaves room
    for payload and at most 255 fragments are needed. *)
Definition payload_chunks (m : UDPMessage) (max_size : Z) : list bytes :=
  chunks (length (data m)) (max_size - udp_header_len m) (data m).

Lemma frag_udp_message_spec {E} checks m max_size :
  len (addr m) ≤ MAX_VARINT → udp_header_len m < max_size ≤ u64_max →
  max_size < udp_header_len m + len (data m) →
  len (payload_chunks m max_size) ≤ u8_max →
  frag_udp_message (E:=E) checks m max_size
  = Ret (fragments_of m (len (payload_chunks m max_size)) 0 (payload_chunks m max_size)).
Proof.
  intros Ha Hm Hs Hc. unfold frag_udp_message, payload_chunks in *.
  rewrite size_spec, header_size_spec by done. cbn -[frag_loop]. rewrite decide_False by lia.
  pose proof (varint_size_bounds (len (addr m))). pose proof (len_nonneg (addr m)).
  unfold u64_sub. rewrite u64_arith_ok by (unfold udp_header_len in *; lia). cbn -[frag_loop].
  unfold div_ceil. rewrite decide_False by lia. cbn -[frag_loop].
  rewrite (frag_loop_spec _ _ _ _ _ 0 0 (length (data m)));
    change (Z.to_nat 0) with 0%nat; rewrite ?drop_0; try (unfold len in *; lia).
  rewrite <- (chunks_length (length (data m))) by lia. f_equal. f_equal.
  unfold as_u8. apply Z.mod_small. unfold len, u8_max in *. lia.
Qed.

Lemma fragments_of_lookup m count first cs i f :
  fragments_of m count first cs !! i = Some f ↔
  ∃ c, cs !! i = Some c ∧ f = with_fragment m (first + Z.of_nat i) count c.
Proof.
  unfold fragments_of. rewrite list_lookup_imap. destruct (cs !! i); naive_solver.
Qed.

Lemma length_fragments_of m count first cs : length (fragments_of m count first cs) = length cs.
Proof. apply length_imap. Qed.

Lemma fragments_of_data m count first cs :
  concat (map data (fragments_of m count first cs)) = concat cs.
Proof.
  revert first. induction cs as [|c cs IH]; intros first; [done|].
  rewrite fragments_of_cons. cbn [map concat]. by rewrite IH.
Qed.

(** ** Reassembly: the invariant *)

Definition count_some {A} (l : list (option A)) : Z := len (filter is_Some l).
Definition slot_len (s : option UDPMessage) : Z := match s with Some m => len (data m) | None => 0 end.
Definition slots_len (l : list (option UDPMessage)) : Z := foldr (fun s acc => slot_len s + acc) 0 l.

Lemma count_some_cons {A} (s : option A) l :
  count_some (s :: l) = (if s then 1 else 0) + count_some l.
Proof.
  unfold count_some. rewrite filter_cons. destruct s; simpl; [by rewrite len_cons|done].
Qed.

Lemma count_some_le {A} (l : list (option A)) : 0 ≤ count_some l ≤ len l.
Proof.
  induction l as [|s l IH]; [done|]. rewrite count_some_cons, len_cons. destruct s; lia.
Qed.

Lemma count_some_full {A} (l : list (option A)) :
  count_some l = len l ↔ Forall is_Some l.
Proof.
  induction l as [|s l IH]; [split; [constructor|done]|].
  rewrite count_some_cons, len_cons, Forall_cons, <- IH.
  pose proof (count_some_le l). destruct s; split; try (intros [[? ?] ?]); intros; split_and?; try done; try lia.
Qed.

Lemma count_some_insert {A} (l : list (option A)) i x :
  l !! i = Some None → count_some (<[i := Some x]> l) = count_some l + 1.
Proof.
  revert i. induction l as [|s l IH]; intros [|i] Hi; simplify_eq/=.
  - rewrite !count_some_cons. lia.
  - rewrite !count_some_cons, IH by done. lia.
Qed.

Lemma count_some_none {A} n : count_some (replicate n (None : option A)) = 0.
Proof. induction n; [done|]. simpl. rewrite count_some_cons. lia. Qed.

Lemma slots_len_insert l i x :
  l !! i = Some None → slots_len (<[i := Some x]> l) = slots_len l + len (data x).
Proof.
  revert i. induction l as [|s l IH]; intros [|i] Hi; simplify_eq/=; [lia|].
  rewrite IH by done. lia.
Qed.

Lemma slots_len_none n : slots_len (replicate n None) = 0.
Proof. induction n; simpl; lia. Qed.

(** A fragment the defragger stores for a packet: it is one of the messages
    fed, and its header agrees with the packet. *)
Definition fragment_of (fed : list UDPMessage) (id sid : Z) (a : bytes) (n i : Z) (f : UDPMessage) : Prop :=
  f ∈ fed ∧ packet_id f = id ∧ session_id f = sid ∧ addr f = a ∧ frag_count f = n ∧ frag_id f = i.

Definition packet_inv (fed : list UDPMessage) (id : Z) (st : PacketState) : Prop :=
  2 ≤ len (ps_fragments st) ≤ u8_max ∧
  ps_count st = count_some (ps_fragments st) ∧
  0 < ps_count st < len (ps_fragments st) ∧
  ps_size st = slots_len (ps_fragments st) ∧
  ∀ i f, ps_fragments st !! i = Some (Some f) →
    fragment_of fed id (ps_session_id st) (ps_addr st) (len (ps_fragments st)) (Z.of_nat i) f.

(** The invariant of the defragger: the queue lists the packets of the map, each
    once, at most [MAX_IN_FLIGHT_PACKETS] of them, and every packet is
    incomplete. *)
Definition defragger_inv (fed : list UDPMessage) (d : Defragger) : Prop :=
  NoDup (order d) ∧ (∀ id, id ∈ order d ↔ is_Some (packets d !! id)) ∧
  len (order d) ≤ MAX_IN_FLIGHT_PACKETS ∧
  ∀ id st, packets d !! id = Some st → packet_inv fed id st.

(** What a message from a datagram has: the types of its fields, and a payload
    whose length fits 32 bits. *)
Definition datagram_message (m : UDPMessage) : Prop :=
  udp_message_ok m ∧ len (data m) ≤ u32_max.
#[global] Instance datagram_message_dec m : Decision (datagram_message m).
Proof. unfold datagram_message. apply _. Defined.

Lemma packet_inv_mono fed fed' id st : fed ⊆ fed' → packet_inv fed id st → packet_inv fed' id st.
Proof.
  intros Hs (H1 & H2 & H3 & H4 & H5). split_and!; try done; try lia.
  intros i f Hf. destruct (H5 i f Hf) as [Hin ?]. split; [by apply Hs|done].
Qed.

Lemma defragger_inv_mono fed fed' d : fed ⊆ fed' → defragger_inv fed d → defragger_inv fed' d.
Proof. intros ? (?&?&?&?). split_and!; eauto using packet_inv_mono. Qed.

Lemma elem_of_remove_first id l x :
  NoDup l → x ∈ remove_first id l ↔ x ∈ l ∧ x ≠ id.
Proof.
  induction 1 as [|y l Hy Hl IH]; simpl; [set_solver|].
  case_decide; subst; [set_solver|]. rewrite !elem_of_cons, IH. set_solver.
Qed.
Lemma NoDup_remove_first id l : NoDup l → NoDup (remove_first id l).
Proof.
  induction 1 as [|y l Hy Hl IH]; simpl; [constructor|].
  case_decide; [done|]. constructor; [|done]. rewrite elem_of_remove_first by done. tauto.
Qed.
Lemma len_remove_first id l : len (remove_first id l) ≤ len l.
Proof. induction l as [|y l IH]; simpl; [done|]. case_decide; rewrite ?len_cons; lia. Qed.

Lemma remove_packet_inv fed d id :
  defragger_inv fed d → defragger_inv fed (remove_packet d id) ∧ packets (remove_packet d id) !! id = None.
Proof.
  intros (Hnd & Hdom & Hlen & Hp). split; [|apply lookup_delete_eq]. split_and!; cbn.
  - by apply NoDup_remove_first.
  - intros x. rewrite elem_of_remove_first, Hdom by done. destruct (decide (x = id)) as [->|].
    + rewrite lookup_delete_eq. split; [tauto|by intros [? ?]].
    + rewrite lookup_delete_ne by done. tauto.
  - pose proof (len_remove_first id (order d)). lia.
  - intros x st [_ Hx]%lookup_delete_Some. by apply Hp.
Qed.

(** After the eviction the queue is a suffix of what it was, with room for one
    more packet. *)
Lemma evict_inv fed ps l :
  NoDup l → (∀ id, id ∈ l ↔ is_Some (ps !! id)) → (∀ id st, ps !! id = Some st → packet_inv fed id st) →
  defragger_inv fed (evict ps l) ∧ len (order (evict ps l)) < MAX_IN_FLIGHT_PACKETS ∧
  packets (evict ps l) ⊆ ps.
Proof.
  revert ps. induction l as [|x l IH]; intros ps Hnd Hdom Hp; cbn [evict].
  - case_decide; (split_and!; [|done|done]); (split_and!; [done..|exact Hp]).
  - apply NoDup_cons in Hnd as [Hx Hnd]. case_decide as Hc; last first.
    { split_and!; [|cbn; lia|done]. split_and!; [by constructor|done|cbn; lia|exact Hp]. }
    destruct (IH (delete x ps)) as (H1 & H2 & H3); [done| | |].
    + intros id. destruct (decide (id = x)) as [->|].
      * rewrite lookup_delete_eq. split; [done|by intros [? ?]].
      * rewrite lookup_delete_ne, <- Hdom, elem_of_cons by done. tauto.
    + intros id st [_ Hid]%lookup_delete_Some. by apply Hp.
    + split_and!; [done|done|]. etrans; [exact H3|]. apply delete_subseteq.
Qed.

Lemma fragment_slots fed m :
  datagram_message m → 2 ≤ frag_count m → frag_id m < frag_count m → m ∈ fed →
  packet_inv fed (packet_id m)
    (mkPacketState (session_id m) (addr m)
       (<[Z.to_nat (frag_id m) := Some m]> (replicate (Z.to_nat (frag_count m)) None)) 1 (len (data m))).
Proof.
  intros [(_ & _ & Hid & Hcnt & _) _] H2 Hlt Hin. unfold is_u8 in *. unfold packet_inv. cbn.
  assert (replicate (Z.to_nat (frag_count m)) (None : option UDPMessage) !! Z.to_nat (frag_id m) = Some None) as Hslot
    by (apply lookup_replicate; split; [done|lia]).
  rewrite count_some_insert, count_some_none, slots_len_insert, slots_len_none by done.
  assert (len (<[Z.to_nat (frag_id m):=Some m]> (replicate (Z.to_nat (frag_count m)) None)) = frag_count m) as ->.
  { unfold len. rewrite length_insert, length_replicate. lia. }
  split_and!; try lia; [unfold u8_max; lia|]. intros i f.
  destruct (decide (i = Z.to_nat (frag_id m))) as [->|Hne].
  - rewrite list_lookup_insert_eq by (rewrite length_replicate; lia). intros [= ->].
    split_and!; try done. lia.
  - rewrite list_lookup_insert_ne by done. intros [? _]%lookup_replicate. done.
Qed.

Lemma insert_packet_inv {E} fed d m :
  defragger_inv fed d → datagram_message m → 2 ≤ frag_count m → frag_id m < frag_count m → m ∈ fed →
  ∃ d', insert_packet (E:=E) d (packet_id m) (frag_count m) m = Ret d' ∧ defragger_inv fed d' ∧
    packets d' !! packet_id m = Some (mkPacketState (session_id m) (addr m)
      (<[Z.to_nat (frag_id m) := Some m]> (replicate (Z.to_nat (frag_count m)) None)) 1 (len (data m))).
Proof.
  intros Hd Hm H2 Hlt Hin. assert (is_u8 (frag_id m)) as [H0 _] by apply Hm.
  unfold insert_packet. rewrite set_index_ok by (rewrite len_replicate; lia). cbn -[remove_packet].
  destruct (remove_packet_inv fed d (packet_id m) Hd) as [(Hnd & Hdom & Hlen & Hp) Hnone].
  destruct (evict_inv fed _ _ Hnd Hdom Hp) as ((Hnd' & Hdom' & Hlen' & Hp') & Hroom & Hsub).
  set (e := evict _ _) in *. clearbody e. eexists. split; [done|]. split; [|apply lookup_insert_eq].
  assert (packets e !! packet_id m = None) as He.
  { destruct (packets e !! packet_id m) eqn:?; [|done].
    eapply lookup_weaken in Hsub; [|done]. congruence. }
  split_and!; cbn.
  - apply NoDup_app. split_and!; [done| |apply NoDup_singleton].
    intros x Hx ->%list_elem_of_singleton. apply Hdom' in Hx as [? ?]. congruence.
  - intros x. rewrite elem_of_app, list_elem_of_singleton, lookup_insert_is_Some, Hdom'.
    destruct (decide (packet_id m = x)); naive_solver.
  - rewrite len_app, len_cons, len_nil. lia.
  - intros x st [[<- <-]|[Hx Hst]]%lookup_insert_Some; [by apply fragment_slots|by apply Hp'].
Qed.

(** What a defragger may return: a message fed unfragmented, or the payloads of
    a complete set of fed fragments of one packet, in order. *)
Definition emitted_ok (fed : list UDPMessage) (r : UDPMessage) : Prop :=
  (frag_count r ≤ 1 ∧ r ∈ fed) ∨
  (frag_id r = 0 ∧ frag_count r = 1 ∧
   ∃ fs, 2 ≤ len fs ≤ u8_max ∧ data r = concat (map data fs) ∧
     ∀ i f, fs !! i = Some f →
       fragment_of fed (packet_id r) (session_id r) (addr r) (len fs) (Z.of_nat i) f).

Lemma assemble_spec {E} fs : assemble (E:=E) (map Some fs) = Ret (concat (map data fs)).
Proof. induction fs as [|f fs IH]; [done|]. cbn. by rewrite IH. Qed.

Lemma full_slots {A} (l : list (option A)) : count_some l = len l → ∃ fs, l = map Some fs.
Proof.
  rewrite count_some_full. induction 1 as [|s l [x ->] _ [fs ->]]; [by exists []|by exists (x :: fs)].
Qed.

Lemma slots_len_bound fed l id sid a n :
  Forall datagram_message fed →
  (∀ i f, l !! i = Some (Some f) → fragment_of fed id sid a n (Z.of_nat i) f) →
  0 ≤ slots_len l ≤ len l * u32_max.
Proof.
  intros Hfed Hl. assert (∀ s, s ∈ l → 0 ≤ slot_len s ≤ u32_max) as Hs.
  { intros s [i Hi]%list_elem_of_lookup. destruct s as [f|]; [|unfold u32_max; simpl; lia].
    destruct (Hl i f Hi) as [Hf _]. rewrite Forall_forall in Hfed. apply Hfed in Hf as [_ ?].
    simpl. pose proof (len_nonneg (data f)). lia. }
  clear -Hs. induction l as [|s l IH]; [done|]. cbn [slots_len foldr]. fold (slots_len l).
  pose proof (Hs s ltac:(set_solver)). rewrite len_cons.
  assert (0 ≤ slots_len l ≤ len l * u32_max) by (apply IH; set_solver). lia.
Qed.

(** A packet of the map that takes one more fragment. *)
Lemma packet_inv_add fed st m :
  packet_inv fed (packet_id m) st → m ∈ fed → is_u8 (frag_id m) →
  ps_session_id st = session_id m → ps_addr st = addr m → len (ps_fragments st) = frag_count m →
  ps_fragments st !! Z.to_nat (frag_id m) = Some None →
  let st' := mkPacketState (ps_session_id st) (ps_addr st)
    (<[Z.to_nat (frag_id m) := Some m]> (ps_fragments st)) (ps_count st + 1) (ps_size st + len (data m)) in
  ps_count st' = count_some (ps_fragments st') ∧ len (ps_fragments st') = len (ps_fragments st) ∧
  ps_size st' = slots_len (ps_fragments st') ∧
  (∀ i f, ps_fragments st' !! i = Some (Some f) →
    fragment_of fed (packet_id m) (ps_session_id st) (ps_addr st) (len (ps_fragments st)) (Z.of_nat i) f).
Proof.
  intros (H1 & H2 & H3 & H4 & H5) Hin Hid Hs Ha Hn Hslot. cbn.
  rewrite count_some_insert, slots_len_insert by done. split_and!; try lia.
  { unfold len. by rewrite length_insert. }
  intros i f. destruct (decide (i = Z.to_nat (frag_id m))) as [->|Hne].
  - rewrite list_lookup_insert_eq by (by eapply lookup_lt_Some). intros [= ->].
    unfold is_u8 in Hid. split_and!; try done; lia.
  - rewrite list_lookup_insert_ne by done. apply H5.
Qed.

Lemma needs_reset_false d m :
  needs_reset d m = false →
  ∃ st, packets d !! packet_id m = Some st ∧ ps_session_id st = session_id m ∧
    ps_addr st = addr m ∧ len (ps_fragments st) = frag_count m.
Proof.
  unfold needs_reset. destruct (packets d !! packet_id m) as [st|]; [|done].
  rewrite !orb_false_iff, !negb_false_iff, !bool_decide_eq_true. naive_solver.
Qed.

Lemma defragger_inv_update fed d id st :
  defragger_inv fed d → is_Some (packets d !! id) → packet_inv fed id st →
  defragger_inv fed (mkDefragger (<[id := st]> (packets d)) (order d)).
Proof.
  intros (Hnd & Hdom & Hlen & Hp) Hid Hst. split_and!; cbn; [done| |done|].
  - intros x. rewrite lookup_insert_is_Some, Hdom. destruct (decide (id = x)); naive_solver.
  - intros x st' [[<- <-]|[_ Hx]]%lookup_insert_Some; [done|by apply Hp].
Qed.

Lemma remove_packet_insert d id st :
  remove_packet (mkDefragger (<[id := st]> (packets d)) (order d)) id = remove_packet d id.
Proof. unfold remove_packet. cbn. by rewrite delete_insert_eq. Qed.

(** What storing the fragment in its packet does. *)
Definition add_fragment (st : PacketState) (m : UDPMessage) : PacketState :=
  mkPacketState (ps_session_id st) (ps_addr st)
    (<[Z.to_nat (frag_id m) := Some m]> (ps_fragments st)) (ps_count st + 1) (ps_size st + len (data m)).

(** A feed into a packet of the map: the slot is filled if it was empty, and
    the packet leaves the map with its payload once every slot is filled. *)
Lemma feed_known {E} checks fed d m st :
  defragger_inv fed d → Forall datagram_message fed → datagram_message m → m ∈ fed →
  2 ≤ frag_count m → frag_id m < frag_count m →
  packets d !! packet_id m = Some st → ps_session_id st = session_id m → ps_addr st = addr m →
  len (ps_fragments st) = frag_count m →
  feed (E:=E) checks d m =
    match ps_fragments st !! Z.to_nat (frag_id m) with
    | Some None =>
        let st' := add_fragment st m in
        if decide (count_some (ps_fragments st') = frag_count m) then
          payload ← assemble (ps_fragments st');
          Ret (Some (with_fragment m 0 1 payload), remove_packet d (packet_id m))
        else Ret (None, mkDefragger (<[packet_id m := st']> (packets d)) (order d))
    | _ => Ret (None, d)
    end.
Proof.
  intros Hd Hall Hm Hin H2 Hlt Hst Hs Ha Hn. assert (Hp := Hd). destruct Hp as (_ & _ & _ & Hp).
  specialize (Hp _ _ Hst). assert (is_u8 (frag_id m)) as Hid by apply Hm. unfold is_u8 in Hid.
  unfold feed. rewrite decide_False, decide_False by lia.
  unfold needs_reset. rewrite Hst, Hs, Ha, Hn, !bool_decide_true by done. cbn -[remove_packet].
  destruct (index_ok (E:=E) (ps_fragments st) (frag_id m)) as (slot & Hslot & ->); [lia|].
  rewrite Hslot. cbn -[remove_packet]. destruct Hp as (H3 & H4 & H5 & H6 & H7). destruct slot as [f|].
  { cbn. rewrite decide_False by lia. rewrite insert_id by done. by destruct d. }
  pose proof (slots_len_bound _ _ _ _ _ _ Hall H7). destruct Hm as [_ Hm]. unfold u32_max, u8_max in *.
  pose proof (len_nonneg (data m)).
  unfold u64_add. rewrite u64_arith_ok by (unfold u64_max; lia).
  unfold u8_add. rewrite decide_True by (unfold u8_max; lia). rewrite set_index_ok by lia.
  unfold add_fragment. cbn -[remove_packet]. rewrite Hs, Ha. rewrite count_some_insert, <- H4 by done.
  replace (len (<[_:=_]> _)) with (frag_count m) by (unfold len; rewrite length_insert; unfold len in Hn; lia).
  rewrite remove_packet_insert. done.
Qed.

Lemma feed_step {E} checks fed d m :
  defragger_inv fed d → Forall datagram_message fed → datagram_message m →
  ∃ o d', feed (E:=E) checks d m = Ret (o, d') ∧ defragger_inv (fed ++ [m]) d' ∧
    ∀ r, o = Some r → emitted_ok (fed ++ [m]) r.
Proof.
  intros Hd Hall Hm. apply (defragger_inv_mono _ (fed ++ [m])) in Hd; [|set_solver].
  assert (Forall datagram_message (fed ++ [m])) as Hall' by (apply Forall_app; auto).
  assert (m ∈ fed ++ [m]) as Hin by set_solver.
  set (fed' := fed ++ [m]) in *. clearbody fed'.
  destruct (decide (frag_count m ≤ 1)) as [Hc|Hc].
  { exists (Some m), d. unfold feed. rewrite decide_True by done. split_and!; [done..|].
    intros r [= <-]. by left. }
  destruct (decide (frag_count m ≤ frag_id m)) as [Hi|Hi].
  { exists None, d. unfold feed. rewrite decide_False, decide_True by done. by split_and!. }
  destruct (needs_reset d m) eqn:Hr.
  { destruct (insert_packet_inv (E:=E) fed' d m) as (d' & Heq & Hd' & _); [done|done|lia|lia|done|].
    exists None, d'. unfold feed. rewrite decide_False, decide_False, Hr, Heq by done. by split_and!. }
  apply needs_reset_false in Hr as (st & Hst & Hs & Ha & Hn).
  rewrite (feed_known checks fed' d m st) by (done || lia).
  destruct (ps_fragments st !! _) as [[f|]|] eqn:Hslot; [exists None, d; by split_and!| |exists None, d; by split_and!].
  assert (Hp := Hd). destruct Hp as (_ & _ & _ & Hp). specialize (Hp _ _ Hst).
  assert (is_u8 (frag_id m)) as Hid by apply Hm.
  destruct (packet_inv_add _ _ _ Hp Hin Hid Hs Ha Hn Hslot) as (Q1 & Q2 & Q3 & Q4).
  fold (add_fragment st m) in *. set (st' := add_fragment st m) in *. cbv zeta.
  destruct Hp as (H3 & H4 & H5 & H6 & H7). pose proof (count_some_le (ps_fragments st')).
  case_decide as Hfull.
  - destruct (full_slots (ps_fragments st')) as [fs Hfs]; [lia|].
    rewrite Hfs, assemble_spec. do 2 eexists. split; [done|]. split; [by apply remove_packet_inv|].
    intros r [= <-]. right. split_and!; [done..|]. exists fs.
    assert (len fs = frag_count m) as Hlen by (rewrite Hfs in Q2; unfold len in *; rewrite length_map in Q2; lia).
    split_and!; [lia|unfold u8_max in *; lia|done|]. intros i f Hf. cbn. rewrite Hlen, <- Hn, <- Hs, <- Ha.
    apply Q4. rewrite Hfs, list_lookup_fmap, Hf. done.
  - do 2 eexists. split; [done|]. split; [|done]. apply defragger_inv_update; [done|by eexists|].
    assert (ps_count st' = ps_count st + 1) by done. unfold packet_inv. rewrite !Q2. split_and!; try done; lia.
Qed.

Lemma feed_all_step {E} checks fed d ms :
  defragger_inv fed d → Forall datagram_message fed → Forall datagram_message ms →
  ∃ os d', feed_all (E:=E) checks d ms = Ret (os, d') ∧ length os = length ms ∧
    defragger_inv (fed ++ ms) d' ∧
    ∀ k r, os !! k = Some (Some r) → emitted_ok (fed ++ take (S k) ms) r.
Proof.
  revert fed d. induction ms as [|m ms IH]; intros fed d Hd Hall Hms.
  { exists [], d. rewrite app_nil_r. by split_and!. }
  apply Forall_cons in Hms as [Hm Hms].
  destruct (feed_step (E:=E) checks fed d m Hd Hall Hm) as (o & d1 & Hf & Hd1 & Ho).
  destruct (IH (fed ++ [m]) d1) as (os & d2 & Hf2 & Hlen & Hd2 & Hos); [done|by apply Forall_app; auto|done|].
  exists (o :: os), d2. cbn. rewrite Hf. cbn. rewrite Hf2. rewrite <- app_assoc in Hd2.
  split_and!; [done|cbn; lia|done|]. intros [|k] r Hk; simplify_eq/=; [by apply Ho|].
  specialize (Hos k r Hk). by rewrite <- app_assoc in Hos.
Qed.

Lemma default_inv : defragger_inv [] defragger_default.
Proof. split_and!; [constructor| |done|done]. cbn. intros id. rewrite lookup_empty. split; [by intros ?%elem_of_nil|by intros [? ?]]. Qed.

(** ** Reassembly of one message *)

Lemma NoDup_fragments m count cs : NoDup (fragments_of m count 0 cs).
Proof.
  apply NoDup_alt. intros i j f (c & _ & ->)%fragments_of_lookup (c' & _ & Heq)%fragments_of_lookup.
  unfold with_fragment in Heq. injection Heq as Heq _. lia.
Qed.

(** The slots of a packet of which exactly the fragments in [got] arrived. *)
Definition slots_got (fs got : list UDPMessage) : list (option UDPMessage) :=
  map (fun f => if decide (f ∈ got) then Some f else None) fs.

Definition collecting (fs got : list UDPMessage) (m : UDPMessage) (d : Defragger) : Prop :=
  ∃ st, packets d !! packet_id m = Some st ∧ ps_session_id st = session_id m ∧ ps_addr st = addr m ∧
    ps_fragments st = slots_got fs got.

Lemma slots_got_lookup fs got i f :
  fs !! i = Some f → slots_got fs got !! i = Some (if decide (f ∈ got) then Some f else None).
Proof. intros H. unfold slots_got. by rewrite list_lookup_fmap, H. Qed.

Lemma slots_got_insert fs got i f :
  NoDup fs → fs !! i = Some f → <[i := Some f]> (slots_got fs got) = slots_got fs (f :: got).
Proof.
  intros Hnd Hi. apply list_eq. intros j. destruct (decide (j = i)) as [->|Hne].
  - rewrite list_lookup_insert_eq by (unfold slots_got; rewrite length_map; by eapply lookup_lt_Some).
    erewrite slots_got_lookup by done. by rewrite decide_True by set_solver.
  - rewrite list_lookup_insert_ne by done. destruct (fs !! j) as [g|] eqn:Hj.
    + erewrite !slots_got_lookup by done. assert (g ≠ f) by (intros ->; by eapply Hne, NoDup_lookup).
      destruct (decide (g ∈ got)); [rewrite decide_True by set_solver|rewrite decide_False by set_solver]; done.
    + unfold slots_got. by rewrite !list_lookup_fmap, Hj.
Qed.

Lemma slots_got_nil fs : slots_got fs [] = replicate (length fs) None.
Proof. unfold slots_got. induction fs as [|f fs IH]; [done|]. cbn. by rewrite IH. Qed.

Lemma slots_got_ext fs got got' : (∀ f, f ∈ fs → f ∈ got ↔ f ∈ got') → slots_got fs got = slots_got fs got'.
Proof.
  intros H. unfold slots_got. apply map_ext_in. intros f Hf%list_elem_of_In.
  specialize (H f Hf). destruct (decide (f ∈ got)), (decide (f ∈ got')); tauto.
Qed.

Lemma slots_got_all fs got : fs ⊆ got → slots_got fs got = map Some fs.
Proof.
  intros H. unfold slots_got. apply map_ext_in. intros f Hf%list_elem_of_In.
  by rewrite decide_True by (by apply H).
Qed.

Lemma slots_got_full fs got : count_some (slots_got fs got) = len fs → fs ⊆ got.
Proof.
  intros Hc f [i Hi]%list_elem_of_lookup. assert (Forall is_Some (slots_got fs got)) as Hall.
  { apply count_some_full. rewrite Hc. unfold slots_got, len. by rewrite length_map. }
  eapply Forall_lookup_1 in Hall; [|by eapply slots_got_lookup]. destruct (decide _); [done|by destruct Hall].
Qed.

Section collect.
Context (checks : bool) (m : UDPMessage) (cs : list bytes) (fed : list UDPMessage).
Let fs := fragments_of m (len cs) 0 cs.
Hypothesis Hcount : 2 ≤ len cs ≤ u8_max.
Hypothesis Hfs : Forall datagram_message fs.
Hypothesis Hfed : Forall datagram_message fed.
Hypothesis Hin : fs ⊆ fed.

Lemma collect_header f :
  f ∈ fs → packet_id f = packet_id m ∧ session_id f = session_id m ∧ addr f = addr m ∧
  frag_count f = len fs ∧ fs !! Z.to_nat (frag_id f) = Some f ∧ 0 ≤ frag_id f < frag_count f.
Proof.
  intros [i Hi]%list_elem_of_lookup. assert (Hl := lookup_lt_Some _ _ _ Hi).
  assert (Hi' := Hi). apply fragments_of_lookup in Hi' as (c & _ & ->).
  unfold with_fragment in *. cbn [packet_id session_id addr frag_count frag_id]. rewrite Z.add_0_l in *.
  unfold fs in *. rewrite length_fragments_of in Hl. rewrite Nat2Z.id.
  unfold len. rewrite length_fragments_of. split_and!; try done; lia.
Qed.

Lemma len_fs : len fs = len cs.
Proof. unfold len, fs. by rewrite length_fragments_of. Qed.

Lemma collect_first {E} d f :
  defragger_inv fed d → f ∈ fs → needs_reset d f = true →
  ∃ d', feed (E:=E) checks d f = Ret (None, d') ∧ defragger_inv fed d' ∧ collecting fs [f] m d'.
Proof.
  intros Hd Hf Hr. destruct (collect_header f Hf) as (H1 & H2 & H3 & H4 & H5 & H6).
  pose proof len_fs. rewrite Forall_forall in Hfs. assert (f ∈ fed) by (by apply Hin).
  destruct (insert_packet_inv (E:=E) fed d f) as (d' & Heq & Hd' & Hst); [done|by apply Hfs|lia|lia|done|].
  exists d'. unfold feed. rewrite decide_False, decide_False by lia. rewrite Hr, Heq.
  split_and!; [done|done|]. rewrite H1 in Hst. eexists. split; [exact Hst|].
  split_and!; [done..|]. cbn. rewrite H4. unfold len. rewrite Nat2Z.id, <- slots_got_nil.
  apply slots_got_insert; [apply NoDup_fragments|done].
Qed.

Lemma collect_more {E} d f got :
  defragger_inv fed d → f ∈ fs → collecting fs got m d →
  (¬ fs ⊆ f :: got → ∃ d', feed (E:=E) checks d f = Ret (None, d') ∧ defragger_inv fed d' ∧
     collecting fs (f :: got) m d') ∧
  (f ∉ got → fs ⊆ f :: got →
     feed (E:=E) checks d f = Ret (Some (with_fragment m 0 1 (concat cs)), remove_packet d (packet_id m))).
Proof.
  intros Hd Hf (st & Hst & Hs & Ha & Hsl). destruct (collect_header f Hf) as (H1 & H2 & H3 & H4 & H5 & H6).
  pose proof len_fs. rewrite Forall_forall in Hfs. rewrite <- H1 in Hst.
  assert (len (ps_fragments st) = frag_count f) as Hlen.
  { rewrite Hsl, H4. unfold slots_got, len. by rewrite length_map. }
  assert (f ∈ fed) as Hff by (by apply Hin).
  destruct (feed_step (E:=E) checks fed d f Hd Hfed (Hfs f Hf)) as (o & d1 & Heq & Hd1 & _).
  rewrite (feed_known checks fed d f st) in * by (done || lia || (by apply Hfs) || congruence).
  rewrite Hsl in *. erewrite slots_got_lookup in * by done. case_decide as Hg.
  { split; [|done]. intros _. exists d. split_and!; [done..|]. rewrite H1 in Hst. exists st. split_and!; [done..|].
    rewrite Hsl. apply slots_got_ext. set_solver. }
  unfold add_fragment. cbn -[remove_packet].
  rewrite Hsl, slots_got_insert by (done || apply NoDup_fragments). split.
  - intros Hnot. rewrite decide_False; last first.
    { rewrite H4. intros Hc%slots_got_full. done. }
    eexists. split_and!; [done| |].
    + unfold add_fragment in Heq. cbn -[remove_packet] in Heq. rewrite Hsl, slots_got_insert in Heq by (done || apply NoDup_fragments).
      rewrite decide_False in Heq by (rewrite H4; by intros Hc%slots_got_full).
      injection Heq as <- <-. revert Hd1. apply defragger_inv_mono. set_solver.
    + rewrite H1. eexists. split; [apply lookup_insert_eq|]. by split_and!.
  - intros _ Hall. rewrite slots_got_all by done. rewrite decide_True; last first.
    { rewrite H4. replace (len fs) with (len (map Some fs)) by (unfold len; by rewrite length_map).
      apply count_some_full, Forall_fmap, Forall_true. by eexists. }
    rewrite assemble_spec. cbn. rewrite H1. unfold fs. rewrite fragments_of_data.
    unfold with_fragment. by rewrite H1, H2, H3.
Qed.

(** Any order, with duplicates, of all fragments but one gives nothing; the
    missing one then completes the message. *)
Lemma collect_all {E} d arrivals last got :
  defragger_inv fed d → collecting fs got m d → arrivals ⊆ fs → last ∈ fs →
  last ∉ arrivals → last ∉ got → fs ⊆ last :: arrivals ++ got →
  ∃ d', feed_all (E:=E) checks d (arrivals ++ [last])
      = Ret (replicate (length arrivals) None ++ [Some (with_fragment m 0 1 (concat cs))], d') ∧
    packets d' !! packet_id m = None.
Proof.
  revert d got. induction arrivals as [|f arrivals IH]; intros d got Hd Hcol Hsub Hlast Hna Hng Hcov; cbn [app feed_all].
  - destruct (collect_more (E:=E) d last got Hd Hlast Hcol) as [_ Hfin]. rewrite Hfin by done. cbn -[remove_packet].
    eexists. split; [done|]. by apply (remove_packet_inv fed).
  - destruct (collect_more (E:=E) d f got Hd ltac:(set_solver) Hcol) as [Hmore _].
    destruct Hmore as (d1 & -> & Hd1 & Hcol1). { intros Hc. apply Hc in Hlast. set_solver. }
    destruct (IH d1 (f :: got)) as (d' & Heq & Hp); [done|done|set_solver|done|set_solver|set_solver|set_solver|].
    exists d'. cbn. rewrite Heq. done.
Qed.
(** From a defragger with no packet of the message in progress. *)
Lemma collect_arrivals {E} d arrivals last :
  defragger_inv fed d → needs_reset d (with_fragment m 0 (len cs) []) = true →
  arrivals ⊆ fs → last ∈ fs → last ∉ arrivals → fs ⊆ last :: arrivals →
  ∃ d', feed_all (E:=E) checks d (arrivals ++ [last])
      = Ret (replicate (length arrivals) None ++ [Some (with_fragment m 0 1 (concat cs))], d') ∧
    packets d' !! packet_id m = None.
Proof.
  intros Hinv Hr Hsub Hlast Hna Hcov. destruct arrivals as [|f arrivals].
  { exfalso. unfold fs in Hcov. assert (2 ≤ length cs)%nat as H2 by (unfold len in Hcount; lia).
    destruct (lookup_lt_is_Some_2 (fragments_of m (len cs) 0 cs) 0) as [x Hx]; [rewrite length_fragments_of; lia|].
    destruct (lookup_lt_is_Some_2 (fragments_of m (len cs) 0 cs) 1) as [y Hy]; [rewrite length_fragments_of; lia|].
    pose proof (Hcov x ltac:(by eapply list_elem_of_lookup_2)) as Hx'. pose proof (Hcov y ltac:(by eapply list_elem_of_lookup_2)) as Hy'.
    apply list_elem_of_singleton in Hx', Hy'. subst.
    pose proof (NoDup_lookup _ _ _ _ (NoDup_fragments m (len cs) cs) Hx Hy). done. }
  destruct (collect_header f ltac:(set_solver)) as (E1 & E2 & E3 & E4 & _).
  destruct (collect_first (E:=E) d f Hinv) as (d1 & Hf1 & Hd1 & Hcol); [set_solver| |].
  { unfold needs_reset in *. rewrite E1, E2, E3, E4, len_fs. exact Hr. }
  destruct (collect_all (E:=E) d1 arrivals last [f] Hd1 Hcol) as (d' & Hall & Hp); [set_solver..|].
  exists d'. cbn [app feed_all length replicate]. rewrite Hf1. cbn -[feed_all]. by rewrite Hall.
Qed.
End collect.

Lemma len_payload_chunks m max_size :
  udp_header_len m < max_size →
  len (payload_chunks m max_size)
  = (len (data m) + (max_size - udp_header_len m) - 1) / (max_size - udp_header_len m).
Proof. intros. apply chunks_length; lia. Qed.

Lemma fragments_datagram m max_size :
  datagram_message m → len (payload_chunks m max_size) ≤ u8_max → udp_header_len m < max_size →
  Forall datagram_message
    (fragments_of m (len (payload_chunks m max_size)) 0 (payload_chunks m max_size)).
Proof.
  intros [(H1 & H2 & _ & _ & H5 & H6 & H7) H8] Hc Hm. apply Forall_forall.
  intros f [i Hi]%list_elem_of_lookup. apply fragments_of_lookup in Hi as (c & Hi & ->).
  assert (Hl := lookup_lt_Some _ _ _ Hi). unfold u8_max, u32_max, len in *.
  assert (bytes_ok c ∧ len c ≤ len (data m)) as [Hok Hlen].
  { pose proof (chunks_bytes_ok (length (data m)) (max_size - udp_header_len m) (data m) H7) as Hall.
    split; [by eapply Forall_lookup_1 in Hall|].
    rewrite <- (chunks_concat (length (data m)) (max_size - udp_header_len m) (data m)) at 1 by lia.
    fold (payload_chunks m max_size). apply list_elem_of_lookup_2, list_elem_of_split in Hi as (l1 & l2 & ->).
    rewrite concat_app. cbn [concat]. len_lia. }
  unfold datagram_message, udp_message_ok, with_fragment, is_u8. cbn [session_id packet_id frag_id frag_count addr data].
  unfold len in *. split_and!; try done; unfold u32_max; lia.
Qed.

Lemma payload_chunks_two m max_size :
  udp_header_len m < max_size → max_size < udp_header_len m + len (data m) →
  2 ≤ len (payload_chunks m max_size).
Proof.
  intros. rewrite len_payload_chunks by done. apply Z.div_le_lower_bound; lia.
Qed.

(** ** Properties *)

(** Fragmentation. When the header leaves room for payload and at most 255
    fragments are needed, a message that fits is sent as it is, and one that
    does not is cut into consecutive fragments that all fit [max_size], carry
    the header of the message, are numbered from 0 with the total in
    [frag_count], and whose payloads concatenate to the message's; the loop
    terminates and nothing panics in either build profile. *)
Theorem frag_udp_message_correct checks m max_size :
  len (addr m) ≤ MAX_VARINT → udp_header_len m < max_size ≤ u64_max →
  (len (data m) + (max_size - udp_header_len m) - 1) / (max_size - udp_header_len m) ≤ u8_max →
  ∃ fs, frag_udp_message (E:=CoreError) checks m max_size = Ret fs ∧
    (udp_header_len m + len (data m) ≤ max_size → fs = [m]) ∧
    (max_size < udp_header_len m + len (data m) →
       2 ≤ len fs ∧ concat (map data fs) = data m ∧
       ∀ i f, fs !! i = Some f →
         (∃ n, size (E:=CoreError) f = Ret n ∧ n ≤ max_size) ∧ 1 ≤ len (data f) ∧
         f = mkUDPMessage (session_id m) (packet_id m) (Z.of_nat i) (len fs) (addr m) (data f)).
Proof.
  intros Ha Hm Hc. rewrite <- len_payload_chunks in Hc by lia.
  destruct (decide (udp_header_len m + len (data m) ≤ max_size)) as [Hfit|Hbig].
  { exists [m]. unfold frag_udp_message. rewrite size_spec by done. cbn -[frag_loop].
    rewrite decide_True by done. split_and!; [done..|lia]. }
  eexists. split; [apply frag_udp_message_spec; (done || lia)|]. split; [lia|]. intros _.
  assert (∀ c, len (fragments_of m c 0 (payload_chunks m max_size)) = len (payload_chunks m max_size)) as Hlen
    by (intros; unfold len; by rewrite length_fragments_of).
  rewrite fragments_of_data, Hlen. split_and!.
  - apply payload_chunks_two; lia.
  - apply chunks_concat; lia.
  - intros i f (c & Hi & ->)%fragments_of_lookup.
    assert (1 ≤ len c ≤ max_size - udp_header_len m) as Hcl
      by (eapply chunks_bounds; [|by eapply list_elem_of_lookup_2]; lia).
    split_and!; [|cbn; lia|done]. eexists. split; [by apply size_spec|]. unfold udp_header_len in *. cbn. lia.
Qed.

Lemma frag_udp_message_correct_witness :
  ∃ fs, frag_udp_message (E:=CoreError) true (mkUDPMessage 1 2 0 1 (str "a:1") (replicate 20 7)) 18 = Ret fs ∧
    concat (map data fs) = replicate 20 7.
Proof.
  destruct (frag_udp_message_correct true (mkUDPMessage 1 2 0 1 (str "a:1") (replicate 20 7)) 18)
    as (fs & H1 & _ & H2).
  - by_decide.
  - by_decide.
  - by_decide.
  - exists fs. split; [exact H1|]. apply H2. by_decide.
Defined.

(** Outside that range. A limit equal to the header size panics (a division
    by zero) in both profiles; a limit below it panics with overflow checks,
    and in the release profile the message is returned uncut as one fragment
    that exceeds the limit. *)
Theorem frag_udp_message_small_limit m max_size :
  len (addr m) ≤ MAX_VARINT → 0 ≤ max_size → 0 < len (data m) → udp_header_len m + len (data m) ≤ u32_max →
  (max_size = udp_header_len m → ∀ checks, frag_udp_message (E:=CoreError) checks m max_size = Panic) ∧
  (max_size < udp_header_len m →
     frag_udp_message (E:=CoreError) true m max_size = Panic ∧
     frag_udp_message (E:=CoreError) false m max_size = Ret [with_fragment m 0 1 (data m)]).
Proof.
  intros Ha H0 Hd Hb. pose proof (len_nonneg (addr m)). pose proof (varint_size_bounds (len (addr m))).
  unfold u32_max in Hb. unfold frag_udp_message. rewrite size_spec, header_size_spec by done. cbn -[frag_loop].
  split.
  - intros -> checks. rewrite decide_False by lia. unfold u64_sub.
    rewrite Z.sub_diag, u64_arith_ok by (unfold u64_max; lia). done.
  - intros Hlt. rewrite decide_False by lia. unfold u64_sub, u64_arith.
    rewrite !(decide_False (P:=0 ≤ _ ≤ u64_max)) by lia. split; [done|]. cbn -[frag_loop].
    assert (as_u64 (max_size - udp_header_len m) = max_size - udp_header_len m + 18446744073709551616) as ->.
    { unfold as_u64. symmetry. apply (Zmod_unique _ _ (-1)); lia. }
    unfold div_ceil. rewrite decide_False by lia.
    rewrite <- (Z.div_unique_pos _ _ 1 (len (data m) - 1)) by lia.
    rewrite (decide_False (P:=_ + 18446744073709551616 = 0)) by lia. cbn -[frag_loop]. cbn [frag_loop]. rewrite decide_True by lia. rewrite Z.min_l by lia.
    rewrite slice_ok by lia. unfold u8_add at 1. rewrite decide_True by (unfold u8_max; lia). cbn -[frag_loop].
    rewrite drop_0, take_ge by (unfold len; lia).
    destruct (length (data m)) as [|n] eqn:Hl; [unfold len in *; lia|]. cbn [frag_loop].
    rewrite decide_False by lia. done.
Qed.

Lemma frag_udp_message_small_limit_witness :
  frag_udp_message (E:=CoreError) false (mkUDPMessage 1 2 0 1 (str "a:1") [5; 6]) 4
  = Ret [with_fragment (mkUDPMessage 1 2 0 1 (str "a:1") [5; 6]) 0 1 [5; 6]].
Proof.
  apply (frag_udp_message_small_limit (mkUDPMessage 1 2 0 1 (str "a:1") [5; 6]) 4); by_decide.
Defined.

(** C3: reassembly. Take the fragments of an oversized message and any
    defragger a run of messages has led to that has no packet in progress under
    the same id, session, address and count. The fragments, in any order and
    with any repetitions, yield nothing until the last missing one arrives,
    which yields the whole message, and the packet is forgotten. *)
Theorem reassembly_any_order checks m max_size fed os d arrivals last :
  datagram_message m → len (addr m) ≤ MAX_VARINT → udp_header_len m < max_size ≤ u64_max →
  max_size < udp_header_len m + len (data m) →
  (len (data m) + (max_size - udp_header_len m) - 1) / (max_size - udp_header_len m) ≤ u8_max →
  Forall datagram_message fed → feed_all (E:=CoreError) checks defragger_default fed = Ret (os, d) →
  ∃ fs, frag_udp_message (E:=CoreError) checks m max_size = Ret fs ∧
    (needs_reset d (with_fragment m 0 (len fs) []) = true →
     arrivals ⊆ fs → last ∈ fs → last ∉ arrivals → fs ⊆ last :: arrivals →
     ∃ d', feed_all (E:=CoreError) checks d (arrivals ++ [last])
         = Ret (replicate (length arrivals) None ++ [Some (with_fragment m 0 1 (data m))], d') ∧
       packets d' !! packet_id m = None).
Proof.
  intros Hm Ha Hms Hbig Hc Hfed Hd. rewrite <- len_payload_chunks in Hc by lia.
  destruct (feed_all_step (E:=CoreError) checks [] defragger_default fed) as (os' & d0 & Hd0 & _ & Hinv & _);
    [apply default_inv|constructor|done|]. rewrite Hd in Hd0. injection Hd0 as <- <-.
  set (cs := payload_chunks m max_size) in *. set (fs := fragments_of m (len cs) 0 cs).
  exists fs. split; [apply frag_udp_message_spec; (done || lia)|].
  intros Hr Hsub Hlast Hna Hcov. assert (len fs = len cs) as Hlfs by exact (len_fs m cs). rewrite Hlfs in Hr.
  assert (2 ≤ len cs) as H2 by (apply payload_chunks_two; lia).
  assert (Forall datagram_message fs) as Hfs by (by apply fragments_datagram; [| |lia]).
  assert (Forall datagram_message (fed ++ fs)) as Hfed' by (by apply Forall_app).
  apply (defragger_inv_mono _ (fed ++ fs)) in Hinv; [|set_solver].
  assert (fs ⊆ fed ++ fs) as Hin by set_solver.
  assert (concat cs = data m) as <- by (apply chunks_concat; lia).
  exact (collect_arrivals checks m cs (fed ++ fs) (conj H2 Hc) Hfs Hfed' Hin d arrivals last Hinv Hr Hsub Hlast Hna Hcov).
Qed.

Lemma reassembly_any_order_witness :
  ∃ d', feed_all (E:=CoreError) true defragger_default
      [with_fragment (mkUDPMessage 1 2 0 1 (str "a:1") []) 2 3 [5];
       with_fragment (mkUDPMessage 1 2 0 1 (str "a:1") []) 0 3 [1; 2];
       with_fragment (mkUDPMessage 1 2 0 1 (str "a:1") []) 1 3 [3; 4]]
    = Ret ([None; None; Some (mkUDPMessage 1 2 0 1 (str "a:1") [1; 2; 3; 4; 5])], d').
Proof.
  destruct (reassembly_any_order true (mkUDPMessage 1 2 0 1 (str "a:1") [1; 2; 3; 4; 5]) 14 []
    [] defragger_default
    [with_fragment (mkUDPMessage 1 2 0 1 (str "a:1") []) 2 3 [5];
     with_fragment (mkUDPMessage 1 2 0 1 (str "a:1") []) 0 3 [1; 2]]
    (with_fragment (mkUDPMessage 1 2 0 1 (str "a:1") []) 1 3 [3; 4])) as (fs & H & K); try by_decide.
  - reflexivity.
  - vm_compute in H. injection H as <-. destruct K as (d' & K & _); try by_decide.
    exists d'. exact K.
Defined.

(** C4: the defragger never panics and never mixes packets. From the empty
    defragger, any sequence of datagrams is processed in both profiles; the
    queue and the map hold the same packets, at most 64; and a message returned
    at step [k] was either fed unfragmented or is the ordered concatenation of
    a complete set of fragments, fed up to that step, that share its packet id,
    session and address. *)
Theorem defragger_sound checks ms :
  Forall datagram_message ms →
  ∃ os d, feed_all (E:=CoreError) checks defragger_default ms = Ret (os, d) ∧
    length os = length ms ∧ NoDup (order d) ∧
    (∀ id, id ∈ order d ↔ is_Some (packets d !! id)) ∧ len (order d) ≤ MAX_IN_FLIGHT_PACKETS ∧
    ∀ k r, os !! k = Some (Some r) → emitted_ok (take (S k) ms) r.
Proof.
  intros Hms. destruct (feed_all_step (E:=CoreError) checks [] defragger_default ms)
    as (os & d & H1 & H2 & (H3 & H4 & H5 & _) & H6); [apply default_inv|constructor|done|].
  exists os, d. by split_and!.
Qed.

Lemma defragger_sound_witness :
  ∃ os d, feed_all (E:=CoreError) true defragger_default
    [mkUDPMessage 1 2 1 2 (str "a:1") [3]; mkUDPMessage 1 2 0 2 (str "a:1") [1; 2]] = Ret (os, d) ∧
    length os = 2%nat.
Proof.
  destruct (defragger_sound true
    [mkUDPMessage 1 2 1 2 (str "a:1") [3]; mkUDPMessage 1 2 0 2 (str "a:1") [1; 2]]) as (os & d & H1 & H2 & _).
  - by_decide.
  - exists os, d. split; [exact H1|exact H2].
Defined.
