(* ===== verification/Obfs.v ===== *)
(** * The Salamander obfuscator ([extras/src/obfs.rs])

    The [Obfuscator] trait is a class of the two operations; what its users
    rely on is the class [ObfuscatorLaws], which the Salamander implementation
    discharges. The Blake2b hash, a third-party function, is a parameter; the
    salt that the random generator fills in is an argument. *)
From S2P Require Import Prelude.
Local Open Scope Z_scope.

Definition SALAMANDER_PSK_MIN_LEN : Z := 4.
Definition SALAMANDER_SALT_LEN : Z := 8.
Definition SALAMANDER_KEY_LEN : Z := 32.

(** [trait Obfuscator]: each operation returns the number of bytes written,
    with the output buffer after it. *)
Class Obfuscator (O : Type) := {
  obfuscate : ∀ {E}, O → bytes → bytes → bytes → outcome E (Z * bytes);
  deobfuscate : ∀ {E}, O → bytes → bytes → outcome E (Z * bytes)
}.

(** What a transport relies on: there is a sealed form of every payload, eight
    bytes longer, which [obfuscate] writes and [deobfuscate] opens, each
    leaving the rest of its buffer alone, and an input of more than eight
    bytes always fills an output buffer of its length less eight. *)
Class ObfuscatorLaws (O : Type) `{!Obfuscator O} := {
  seal : O → bytes → bytes → bytes;
  seal_len : ∀ o salt input, len salt = SALAMANDER_SALT_LEN →
    len (seal o salt input) = len input + SALAMANDER_SALT_LEN;
  obfuscate_seal : ∀ E o salt input output, len salt = SALAMANDER_SALT_LEN →
    obfuscate (E:=E) o salt input output =
      if decide (len output < len input + SALAMANDER_SALT_LEN) then Ret (0, output)
      else Ret (len input + SALAMANDER_SALT_LEN,
                seal o salt input ++ drop (length (seal o salt input)) output);
  deobfuscate_seal : ∀ E o salt input output, len salt = SALAMANDER_SALT_LEN →
    0 < len input ≤ len output →
    deobfuscate (E:=E) o (seal o salt input) output
    = Ret (len input, input ++ drop (length input) output);
  deobfuscate_fills : ∀ E o input output,
    SALAMANDER_SALT_LEN < len input → len output = len input - SALAMANDER_SALT_LEN →
    ∃ output', deobfuscate (E:=E) o input output = Ret (len output, output') ∧
      len output' = len output;
  deobfuscate_short : ∀ E o input output, len input ≤ SALAMANDER_SALT_LEN →
    deobfuscate (E:=E) o input output = Ret (0, output)
}.

Inductive SalamanderError := PskTooShort.

Record SalamanderObfuscator := mkSalamander { psk : bytes }.

Definition salamander_new (psk : bytes) : outcome SalamanderError SalamanderObfuscator :=
  if decide (len psk < SALAMANDER_PSK_MIN_LEN) then Err PskTooShort else Ret (mkSalamander psk).

(** The loop both operations share: byte [index] of the input, xored with the
    key repeated, goes to [output[index + shift]]. *)
Fixpoint xor_loop {E} (key input : bytes) (shift idx : Z) (output : bytes) : outcome E bytes :=
  match input with
  | [] => Ret output
  | b :: input =>
      k ← index key (idx mod SALAMANDER_KEY_LEN);
      output ← set_index output (idx + shift) (Z.lxor b k);
      xor_loop key input shift (idx + 1) output
  end.

Section salamander.
Context (digest : bytes → bytes).

Definition salamander_key (o : SalamanderObfuscator) (salt : bytes) : bytes :=
  digest (psk o ++ salt).

Definition salamander_obfuscate {E} (o : SalamanderObfuscator) (salt input output : bytes)
    : outcome E (Z * bytes) :=
  let out_len := len input + SALAMANDER_SALT_LEN in
  if decide (len output < out_len) then Ret (0, output)
  else
    output ← copy_from_slice output 0 SALAMANDER_SALT_LEN salt;
    s ← slice output 0 SALAMANDER_SALT_LEN;
    let key := salamander_key o s in
    output ← xor_loop key input SALAMANDER_SALT_LEN 0 output;
    Ret (out_len, output).

Definition salamander_deobfuscate {E} (o : SalamanderObfuscator) (input output : bytes)
    : outcome E (Z * bytes) :=
  let out_len := sat_sub (len input) SALAMANDER_SALT_LEN in
  if decide (out_len = 0 ∨ len output < out_len) then Ret (0, output)
  else
    salt ← slice input 0 SALAMANDER_SALT_LEN;
    let key := salamander_key o salt in
    body ← slice_from input SALAMANDER_SALT_LEN;
    output ← xor_loop key body 0 0 output;
    Ret (out_len, output).

#[global] Instance salamander_obfuscator : Obfuscator SalamanderObfuscator := {
  obfuscate := @salamander_obfuscate;
  deobfuscate := @salamander_deobfuscate
}.

(** The key stream xored over a payload. *)
Definition xor_stream (key input : bytes) (idx : Z) : bytes :=
  imap (fun i b => Z.lxor b (key !!! Z.to_nat ((idx + Z.of_nat i) mod SALAMANDER_KEY_LEN))) input.

#[local] Arguments xor_stream : simpl never.

Lemma xor_stream_cons key b input idx :
  xor_stream key (b :: input) idx
  = Z.lxor b (key !!! Z.to_nat (idx mod SALAMANDER_KEY_LEN)) :: xor_stream key input (idx + 1).
Proof.
  unfold xor_stream. cbn [imap]. rewrite Z.add_0_r. f_equal.
  apply imap_ext. intros i x _. cbn. by replace (idx + Z.of_nat (S i)) with (idx + 1 + Z.of_nat i) by lia.
Qed.

Lemma length_xor_stream key input idx : length (xor_stream key input idx) = length input.
Proof. apply length_imap. Qed.
Lemma len_xor_stream key input idx : len (xor_stream key input idx) = len input.
Proof. unfold len. by rewrite length_xor_stream. Qed.

Lemma xor_stream_involutive key input idx :
  xor_stream key (xor_stream key input idx) idx = input.
Proof.
  revert idx. induction input as [|b input IH]; intros idx; [done|].
  rewrite !xor_stream_cons, IH. by rewrite Z.lxor_assoc, Z.lxor_nilpotent, Z.lxor_0_r.
Qed.

Lemma xor_loop_spec {E} key input shift idx pre rest :
  len key = SALAMANDER_KEY_LEN → 0 ≤ idx → idx + shift = len pre → len input ≤ len rest →
  xor_loop (E:=E) key input shift idx (pre ++ rest)
  = Ret ((pre ++ xor_stream key input idx) ++ drop (length input) rest).
Proof.
  intros Hk. revert idx pre rest. induction input as [|b input IH]; intros idx pre rest Hi Hs Hr.
  { cbn. by rewrite app_nil_r. }
  cbn [xor_loop]. pose proof (Z.mod_pos_bound idx SALAMANDER_KEY_LEN ltac:(done)).
  destruct (index_ok (E:=E) key (idx mod SALAMANDER_KEY_LEN)) as (k & Hkk & ->); [lia|].
  cbn -[Z.add]. pose proof (len_nonneg input). rewrite len_cons in Hr.
  rewrite put_index by lia. cbn -[Z.add].
  destruct rest as [|r rest]; [rewrite len_nil in Hr; lia|]. rewrite len_cons in Hr. cbn [drop].
  rewrite drop_0. rewrite IH; [|lia|rewrite len_app, len_cons, len_nil; lia|lia].
  rewrite xor_stream_cons, (list_lookup_total_correct _ _ _ Hkk). by rewrite <- !app_assoc.
Qed.

Definition salamander_seal (o : SalamanderObfuscator) (salt input : bytes) : bytes :=
  salt ++ xor_stream (salamander_key o salt) input 0.

(** The digest has 32 bytes. *)
Hypothesis digest_len : ∀ x, len (digest x) = SALAMANDER_KEY_LEN.

Lemma salamander_obfuscate_spec E o salt input output :
  len salt = SALAMANDER_SALT_LEN →
  salamander_obfuscate (E:=E) o salt input output =
    if decide (len output < len input + SALAMANDER_SALT_LEN) then Ret (0, output)
    else Ret (len input + SALAMANDER_SALT_LEN,
              salamander_seal o salt input ++ drop (length (salamander_seal o salt input)) output).
Proof.
  intros Hs. unfold salamander_obfuscate. pose proof (len_nonneg input). case_decide as Hd; [done|].
  unfold SALAMANDER_SALT_LEN in *.
  rewrite (put_slice [] output salt 0 8); [|done|rewrite len_nil; lia|lia].
  cbn -[Z.add]. rewrite slice_prefix by done. cbn -[Z.add].
  rewrite xor_loop_spec; [|apply digest_len|done|lia|rewrite len_drop; lia].
  cbn -[Z.add]. unfold salamander_seal. rewrite drop_drop, length_app, length_xor_stream.
  do 4 f_equal. unfold len in *. lia.
Qed.

Lemma salamander_deobfuscate_seal E o salt input output :
  len salt = SALAMANDER_SALT_LEN → 0 < len input ≤ len output →
  salamander_deobfuscate (E:=E) o (salamander_seal o salt input) output
  = Ret (len input, input ++ drop (length input) output).
Proof.
  intros Hs Hi. unfold salamander_deobfuscate, salamander_seal, SALAMANDER_SALT_LEN in *.
  rewrite len_app, len_xor_stream, Hs. unfold sat_sub. rewrite Z.max_r by lia.
  rewrite decide_False by lia. rewrite slice_prefix, slice_from_app by done. cbn -[Z.add].
  rewrite (xor_loop_spec _ _ 0 0 [] output); [|apply digest_len|done|done|rewrite len_xor_stream; lia].
  cbn -[Z.add]. rewrite xor_stream_involutive, length_xor_stream. do 2 f_equal. lia.
Qed.

Lemma salamander_deobfuscate_fills E o input output :
  SALAMANDER_SALT_LEN < len input → len output = len input - SALAMANDER_SALT_LEN →
  ∃ output', salamander_deobfuscate (E:=E) o input output = Ret (len output, output') ∧
    len output' = len output.
Proof.
  intros Hi Ho. unfold salamander_deobfuscate, SALAMANDER_SALT_LEN in *.
  destruct (split_at input 8) as (salt & body & -> & Hs); [lia|lia|]. rewrite len_app in *.
  unfold sat_sub. rewrite Z.max_r by lia. rewrite decide_False by lia.
  rewrite slice_prefix, slice_from_app by done. cbn -[Z.add].
  rewrite (xor_loop_spec _ _ 0 0 [] output); [|apply digest_len|done|done|lia].
  eexists. cbn -[Z.add]. split; [f_equal; f_equal; lia|]. rewrite len_app, len_xor_stream, len_drop.
  unfold len in *. lia.
Qed.

Lemma salamander_deobfuscate_short E o input output :
  len input ≤ SALAMANDER_SALT_LEN → salamander_deobfuscate (E:=E) o input output = Ret (0, output).
Proof.
  intros Hi. unfold salamander_deobfuscate, sat_sub. pose proof (len_nonneg input).
  by rewrite decide_True by lia.
Qed.

Lemma salamander_seal_len o salt input :
  len salt = SALAMANDER_SALT_LEN → len (salamander_seal o salt input) = len input + SALAMANDER_SALT_LEN.
Proof. intros Hs. unfold salamander_seal. rewrite len_app, len_xor_stream. lia. Qed.

#[global] Instance salamander_laws : ObfuscatorLaws SalamanderObfuscator := {
  seal := salamander_seal;
  seal_len := salamander_seal_len;
  obfuscate_seal := salamander_obfuscate_spec;
  deobfuscate_seal := salamander_deobfuscate_seal;
  deobfuscate_fills := salamander_deobfuscate_fills;
  deobfuscate_short := salamander_deobfuscate_short
}.
End salamander.

(** ** Properties *)

(** Salamander round trip. For every hash with 32-byte digests, every PSK
    the constructor accepts, every salt drawn and every payload, obfuscating
    into a buffer with room writes the salt and eight more bytes than the
    payload, and deobfuscating that prefix gives the payload back, bytes after
    it untouched; a buffer without room, or an input of at most eight bytes,
    writes nothing and reports 0; a PSK under four bytes is refused. *)
Theorem salamander_roundtrip digest p salt input out1 out2 :
  (∀ x, len (digest x) = SALAMANDER_KEY_LEN) → len salt = SALAMANDER_SALT_LEN →
  (len p < SALAMANDER_PSK_MIN_LEN → salamander_new p = Err PskTooShort) ∧
  (SALAMANDER_PSK_MIN_LEN ≤ len p → ∃ o, salamander_new p = Ret o ∧
    (len out1 < len input + SALAMANDER_SALT_LEN →
       salamander_obfuscate (E:=unit) digest o salt input out1 = Ret (0, out1)) ∧
    (len input + SALAMANDER_SALT_LEN ≤ len out1 → 0 < len input ≤ len out2 →
       ∃ n wire, salamander_obfuscate (E:=unit) digest o salt input out1 = Ret (n, wire) ∧
         n = len input + SALAMANDER_SALT_LEN ∧ take 8 wire = salt ∧
         drop (Z.to_nat n) wire = drop (Z.to_nat n) out1 ∧
         salamander_deobfuscate (E:=unit) digest o (take (Z.to_nat n) wire) out2
         = Ret (len input, input ++ drop (length input) out2)) ∧
    (len input ≤ SALAMANDER_SALT_LEN →
       salamander_deobfuscate (E:=unit) digest o input out2 = Ret (0, out2))).
Proof.
  intros Hd Hs. unfold salamander_new. split; [intros ?; by rewrite decide_True|].
  intros Hp. rewrite decide_False by lia. exists (mkSalamander p). split; [done|]. split_and!.
  - intros Ho. rewrite salamander_obfuscate_spec by done. by rewrite decide_True.
  - intros Ho Hi. rewrite salamander_obfuscate_spec by done. rewrite decide_False by lia.
    do 2 eexists. split; [done|]. split; [done|].
    pose proof (salamander_seal_len digest (mkSalamander p) salt input Hs) as Hl. rewrite <- Hl.
    unfold len at 1 2 3. rewrite !Nat2Z.id, take_app_length, drop_app_length.
    rewrite salamander_deobfuscate_seal by done. split_and!; [|done|done].
    unfold salamander_seal. rewrite <- app_assoc, take_app_length'; [done|].
    unfold len, SALAMANDER_SALT_LEN in Hs. lia.
  - apply salamander_deobfuscate_short.
Qed.

Lemma salamander_roundtrip_witness :
  ∃ n wire,
    salamander_obfuscate (E:=unit) (fun x => replicate 32 (Z.of_nat (length x))) (mkSalamander (str "secret"))
      [1; 2; 3; 4; 5; 6; 7; 8] (str "quic") (replicate 20 0) = Ret (n, wire) ∧
    salamander_deobfuscate (E:=unit) (fun x => replicate 32 (Z.of_nat (length x))) (mkSalamander (str "secret"))
      (take (Z.to_nat n) wire) (replicate 6 0) = Ret (4, str "quic" ++ [0; 0]).
Proof.
  destruct (salamander_roundtrip (fun x => replicate 32 (Z.of_nat (length x))) (str "secret")
    [1; 2; 3; 4; 5; 6; 7; 8] (str "quic") (replicate 20 0) (replicate 6 0)) as [_ H].
  - intros x. apply len_replicate.
  - reflexivity.
  - destruct H as (o & Ho & _ & H & _); [by_decide|]. injection Ho as <-.
    destruct H as (n & wire & H1 & _ & _ & _ & H2); [by_decide|by_decide|].
    exists n, wire. split; [exact H1|exact H2].
Defined.
