(* ===== verification/ObfsSocket.v ===== *)
(** * The obfuscating UDP socket ([core/src/socket.rs])

    [ObfsUdpSocket] wraps the socket quinn sends and receives with: it seals
    every segment of a transmit, and opens received buffers in place, segment
    by segment. It is verified against [ObfuscatorLaws]; the inner socket is
    an argument: a function from a transmit to its result when sending, and
    the buffers it filled when receiving. *)
From S2P Require Import Prelude Errors Obfs.
Local Open Scope Z_scope.

Inductive ObfsConfig := Salamander (password : bytes).

(** [build_obfuscator]; the text is the one the error prints. *)
Definition build_obfuscator (config : ObfsConfig) : outcome CoreError SalamanderObfuscator :=
  match config with
  | Salamander password =>
      map_err (fun _ => Config (str "PSK must be at least 4 bytes")) (salamander_new password)
  end.

Record Transmit := mkTransmit {
  tx_destination : bytes;
  tx_ecn : option Z;
  tx_contents : bytes;
  tx_segment_size : option Z;
  tx_src_ip : option bytes
}.

Record RecvMeta := mkRecvMeta {
  rm_addr : bytes;
  rm_len : Z;
  rm_stride : Z;
  rm_ecn : option Z;
  rm_dst_ip : option bytes
}.

(** [Poll]. *)
Inductive poll (A : Type) := Ready (a : A) | Pending.
Arguments Ready {A} a.
Arguments Pending {A}.

Section socket.
Context {Ob : Type} `{!Obfuscator Ob}.

(** The loop of [try_send] over the segments; [salts] is what the random
    generator yields, one salt per segment. *)
Fixpoint encode_chunks (o : Ob) (salts : nat → bytes) (i : nat) (cs : list bytes) (encoded : bytes)
    : outcome io_error bytes :=
  match cs with
  | [] => Ret encoded
  | chunk :: cs =>
      let out := replicate (Z.to_nat (len chunk + SALAMANDER_SALT_LEN)) 0 in
      '(written, out) ← obfuscate o (salts i) chunk out;
      if decide (written = 0) then Err (IoOther (str "failed to obfuscate QUIC datagram"))
      else
        s ← slice out 0 written;
        encode_chunks o salts (S i) cs (encoded ++ s)
  end.

(** [ObfsUdpSocket::try_send]; [chunks(0)] and [div_ceil(0)] panic. *)
Definition try_send (o : Ob) (salts : nat → bytes) (inner : Transmit → outcome io_error unit)
    (t : Transmit) : outcome io_error unit :=
  let segment_size := default (Z.max (len (tx_contents t)) 1) (tx_segment_size t) in
  segment_count ← div_ceil (len (tx_contents t)) segment_size;
  encoded ← encode_chunks o salts 0 (chunks (length (tx_contents t)) segment_size (tx_contents t)) [];
  inner (mkTransmit (tx_destination t) (tx_ecn t) encoded
           ((fun size => size + SALAMANDER_SALT_LEN) <$> tx_segment_size t) (tx_src_ip t)).

(** The loop of [poll_recv] over the segments of one buffer: segments
    [segment_index] onwards, [n] of them. *)
Fixpoint decode_segments (checks : bool) (o : Ob) (n : nat)
    (segment_index total_len original_stride decoded_stride : Z) (buffer : bytes) (decoded_total : Z)
    : outcome io_error (bytes * Z) :=
  match n with
  | O => Ret (buffer, decoded_total)
  | S n =>
      let input_offset := segment_index * original_stride in
      let input_len := Z.min (sat_sub total_len input_offset) original_stride in
      input ← slice buffer input_offset (input_offset + input_len);
      let output_offset := segment_index * decoded_stride in
      output_len ← u64_sub checks input_len SALAMANDER_SALT_LEN;
      output_end ← u64_add checks output_offset output_len;
      output ← slice buffer output_offset output_end;
      '(written, output) ← deobfuscate o input output;
      buffer ← copy_from_slice buffer output_offset output_end output;
      if decide (written ≠ output_len)
      then Err (IoOther (str "failed to deobfuscate QUIC datagram"))
      else decode_segments checks o n (segment_index + 1) total_len original_stride decoded_stride
             buffer (decoded_total + written)
  end.

(** The body of the loop of [poll_recv] over the buffers. *)
Definition decode_buffer (checks : bool) (o : Ob) (buffer : bytes) (meta : RecvMeta)
    : outcome io_error (bytes * RecvMeta) :=
  let total_len := rm_len meta in
  if decide (total_len = 0) then Ret (buffer, meta)
  else
    let original_stride := if decide (rm_stride meta = 0) then total_len else rm_stride meta in
    if decide (original_stride ≤ SALAMANDER_SALT_LEN)
    then Err (IoOther (str "invalid obfuscated QUIC datagram"))
    else
      datagram_count ← div_ceil total_len original_stride;
      let decoded_stride := original_stride - SALAMANDER_SALT_LEN in
      '(buffer, decoded_total) ←
        decode_segments checks o (Z.to_nat datagram_count) 0 total_len original_stride decoded_stride
          buffer 0;
      Ret (buffer, mkRecvMeta (rm_addr meta) decoded_total
                     (if decide (1 < datagram_count) then decoded_stride else decoded_total)
                     (rm_ecn meta) (rm_dst_ip meta)).

Fixpoint decode_buffers (checks : bool) (o : Ob) (n : nat) (idx : Z) (bufs : list bytes)
    (meta : list RecvMeta) : outcome io_error (list bytes * list RecvMeta) :=
  match n with
  | O => Ret (bufs, meta)
  | S n =>
      buffer ← index bufs idx;
      mt ← index meta idx;
      '(buffer, mt) ← decode_buffer checks o buffer mt;
      bufs ← set_index bufs idx buffer;
      meta ← set_index meta idx mt;
      decode_buffers checks o n (idx + 1) bufs meta
  end.

(** [ObfsUdpSocket::poll_recv]: what the inner socket polled, with the
    buffers and metadata it filled. *)
Definition poll_recv (checks : bool) (o : Ob) (inner : poll (outcome io_error Z))
    (bufs : list bytes) (meta : list RecvMeta)
    : poll (outcome io_error (Z * list bytes * list RecvMeta)) :=
  match inner with
  | Pending => Pending
  | Ready (Err e) => Ready (Err e)
  | Ready Panic => Ready Panic
  | Ready (Ret count) =>
      Ready ('(bufs, meta) ← decode_buffers checks o (Z.to_nat count) 0 bufs meta;
             Ret (count, bufs, meta))
  end.

Context `{!ObfuscatorLaws Ob}.

(** The sealed segments of a payload. *)
Fixpoint seal_chunks (o : Ob) (salts : nat → bytes) (i : nat) (cs : list bytes) : list bytes :=
  match cs with
  | [] => []
  | c :: cs => seal o (salts i) c :: seal_chunks o salts (S i) cs
  end.

Lemma encode_chunks_spec o salts i cs encoded :
  (∀ j, len (salts j) = SALAMANDER_SALT_LEN) →
  encode_chunks o salts i cs encoded = Ret (encoded ++ concat (seal_chunks o salts i cs)).
Proof.
  intros Hs. revert i encoded. induction cs as [|c cs IH]; intros i encoded; cbn [encode_chunks seal_chunks concat].
  { by rewrite app_nil_r. }
  pose proof (len_nonneg c). unfold SALAMANDER_SALT_LEN in *.
  rewrite obfuscate_seal by apply Hs. unfold SALAMANDER_SALT_LEN.
  rewrite decide_False by (rewrite len_replicate; lia). cbn -[Z.add]. rewrite decide_False by lia.
  rewrite slice_prefix by (rewrite seal_len; [done|apply Hs]).
  cbn. rewrite IH. by rewrite app_assoc.
Qed.

Lemma len_seal_chunks o salts i cs :
  (∀ j, len (salts j) = SALAMANDER_SALT_LEN) →
  len (concat (seal_chunks o salts i cs)) = len (concat cs) + SALAMANDER_SALT_LEN * len cs.
Proof.
  intros Hs. revert i. induction cs as [|c cs IH]; intros i; cbn [seal_chunks concat]; [done|].
  rewrite !len_app, IH, seal_len, len_cons by apply Hs. lia.
Qed.

(** One sealed segment opened in place: the plaintext so far, a gap, the
    segment, the rest. *)
Lemma decode_segment checks o (salts : nat → bytes) i n si total stride D J c R acc :
  (∀ j, len (salts j) = SALAMANDER_SALT_LEN) →
  1 ≤ len c → si * stride = len D + len J → si * (stride - SALAMANDER_SALT_LEN) = len D →
  Z.min (total - (len D + len J)) stride = len c + SALAMANDER_SALT_LEN →
  len D + len J + len R + stride ≤ u32_max →
  ∃ J', len J' = len J + SALAMANDER_SALT_LEN ∧
  decode_segments checks o (S n) si total stride (stride - SALAMANDER_SALT_LEN)
    (D ++ J ++ seal o (salts i) c ++ R) acc
  = decode_segments checks o n (si + 1) total stride (stride - SALAMANDER_SALT_LEN)
    ((D ++ c) ++ J' ++ R) (acc + len c).
Proof.
  intros Hs Hc Hi Ho Hm Hb. pose proof (len_nonneg D). pose proof (len_nonneg J). pose proof (len_nonneg R).
  assert (len (seal o (salts i) c) = len c + 8) as Hl by (by rewrite seal_len by apply Hs).
  unfold u32_max, SALAMANDER_SALT_LEN in *. cbn [decode_segments]. unfold sat_sub. rewrite Hi, Ho.
  rewrite Z.max_r by lia. rewrite Hm. rewrite (app_assoc D J).
  rewrite slice_app_mid by (rewrite ?len_app, ?Hl; lia).
  cbn -[Z.add decode_segments]. unfold u64_sub, u64_add.
  rewrite u64_arith_ok by (unfold u64_max, SALAMANDER_SALT_LEN; lia). cbn -[Z.add decode_segments].
  rewrite u64_arith_ok by (unfold u64_max, SALAMANDER_SALT_LEN; lia). cbn -[Z.add decode_segments].
  replace (len c + 8 - SALAMANDER_SALT_LEN) with (len c) by (unfold SALAMANDER_SALT_LEN; lia).
  rewrite <- (app_assoc D J).
  destruct (split_at (J ++ seal o (salts i) c ++ R) (len c)) as (p & q & Hpq & Hp); [rewrite !len_app; lia|lia|].
  rewrite Hpq. rewrite slice_app_mid by lia. cbn -[Z.add decode_segments].
  rewrite deobfuscate_seal by (apply Hs || lia).
  rewrite (drop_ge p) by (unfold len in *; lia). rewrite app_nil_r. cbn -[Z.add decode_segments].
  rewrite copy_from_slice_ok by lia. cbn -[Z.add decode_segments]. rewrite decide_False by lia.
  assert (∃ J', q = J' ++ R ∧ len J' = len J + 8) as (J' & -> & HJ').
  { assert (len q = len J + 8 + len R) as Hq.
    { apply (f_equal len) in Hpq. rewrite !len_app in Hpq. lia. }
    exists (drop (length p) (J ++ seal o (salts i) c)). split.
    - assert (drop (length p) (p ++ q) = q) as <- by apply drop_app_length.
      rewrite <- Hpq, app_assoc, drop_app_le; [done|]. unfold len in *. rewrite length_app. lia.
    - rewrite len_drop, len_app. unfold len in *. lia. }
  exists J'. split; [lia|]. by rewrite app_assoc.
Qed.

Lemma decode_segments_spec checks o salts fuel stride l i si total D J tail acc :
  (∀ j, len (salts j) = SALAMANDER_SALT_LEN) →
  let ds := stride - SALAMANDER_SALT_LEN in
  let cs := chunks fuel ds l in
  0 < ds → (length l ≤ fuel)%nat →
  (l ≠ [] → si * stride = len D + len J ∧ si * ds = len D) →
  total = len D + len J + len (concat (seal_chunks o salts i cs)) →
  total + len tail + stride ≤ u32_max →
  ∃ J', decode_segments checks o (length cs) si total stride ds
      (D ++ J ++ concat (seal_chunks o salts i cs) ++ tail) acc
    = Ret ((D ++ l) ++ J' ++ tail, acc + len l) ∧ len (D ++ l ++ J') = total.
Proof.
  intros Hs ds cs Hds Hf Hpos Ht Hb. subst cs. revert l i si D J acc Hf Hpos Ht.
  induction fuel as [|fuel IH]; intros l i si D J acc Hf Hpos Ht.
  { destruct l; [|simpl in Hf; lia]. cbn -[Z.add] in *. exists J. rewrite app_nil_r, len_app. change (len []) with 0 in *.
    split; [f_equal; f_equal|]; lia. }
  destruct l as [|b l]; cbn [chunks] in *.
  { cbn -[Z.add] in *. exists J. rewrite app_nil_r, len_app. change (len []) with 0 in *.
    split; [f_equal; f_equal|]; lia. }
  set (c := take (Z.to_nat ds) (b :: l)) in *. set (l' := drop (Z.to_nat ds) (b :: l)) in *.
  assert (b :: l = c ++ l') as Hcl by (unfold c, l'; by rewrite take_drop).
  destruct (Hpos ltac:(done)) as [Hp1 Hp2]. pose proof (len_nonneg l). pose proof (len_nonneg D). pose proof (len_nonneg J).
  pose proof (len_nonneg tail).
  assert (1 ≤ len c ≤ ds) as Hc by (unfold c; rewrite len_take, len_cons; lia).
  assert (l' ≠ [] → len c = ds) as Hfull.
  { intros Hne. destruct l' as [|x l'']; [done|]. pose proof (len_nonneg l'').
    apply (f_equal len) in Hcl as Hll. rewrite len_app, (len_cons x) in Hll.
    unfold c in *. rewrite len_take in *. lia. }
  assert (l' = [] → chunks fuel ds l' = []) as Hnil by (intros ->; by destruct fuel).
  cbn [seal_chunks concat length] in *. set (R := concat (seal_chunks o salts (S i) (chunks fuel ds l'))) in *.
  rewrite len_app, seal_len in Ht by apply Hs. pose proof (len_nonneg R).
  rewrite <- (app_assoc (seal o (salts i) c)).
  destruct (decode_segment checks o salts i (length (chunks fuel ds l')) si total stride D J c (R ++ tail) acc)
    as (J' & HJ' & Heq); [done|lia|lia|done| |rewrite len_app; unfold SALAMANDER_SALT_LEN in *; lia|].
  { destruct (decide (l' = [])) as [E|E].
    - assert (len R = 0) by (unfold R; by rewrite Hnil). unfold ds in *. lia.
    - specialize (Hfull E). unfold ds in *. lia. }
  fold ds in Heq. rewrite Heq. rewrite Hcl.
  destruct (IH l' (S i) (si + 1) (D ++ c) J' (acc + len c)) as (J2 & Heq2 & Hlen).
  - unfold l'. rewrite length_drop. simpl in *. lia.
  - intros Hne. specialize (Hfull Hne). rewrite len_app. unfold ds in *. lia.
  - fold R. rewrite len_app. lia.
  - fold R in Heq2. exists J2. rewrite Heq2. rewrite <- !app_assoc in *. split; [|done].
    f_equal. f_equal. rewrite len_app. lia.
Qed.

(** One segment of any bytes, long enough for a salt and in the buffer. *)
Lemma decode_segment_any checks o n si total stride buffer acc :
  0 ≤ si → SALAMANDER_SALT_LEN < stride → si * stride < total ≤ len buffer →
  SALAMANDER_SALT_LEN ≤ Z.min (total - si * stride) stride → len buffer + stride ≤ u32_max →
  ∃ buffer', len buffer' = len buffer ∧
    decode_segments checks o (S n) si total stride (stride - SALAMANDER_SALT_LEN) buffer acc
    = decode_segments checks o n (si + 1) total stride (stride - SALAMANDER_SALT_LEN) buffer'
        (acc + (Z.min (total - si * stride) stride - SALAMANDER_SALT_LEN)).
Proof.
  intros Hsi Hst Htot Hmin Hb. unfold u32_max in Hb. cbn [decode_segments].
  assert (sat_sub total (si * stride) = total - si * stride) as -> by (unfold sat_sub; lia).
  unfold SALAMANDER_SALT_LEN in Hmin, Hst. assert (0 ≤ si * stride) by nia.
  set (il := Z.min (total - si * stride) stride) in *.
  assert (il ≤ total - si * stride ∧ il ≤ stride) as Hil by (unfold il; lia). clearbody il.
  set (oo := si * (stride - SALAMANDER_SALT_LEN)).
  assert (0 ≤ oo ∧ oo ≤ si * stride) as Hoo by (unfold oo, SALAMANDER_SALT_LEN in *; nia).
  clearbody oo. rewrite slice_ok by lia. cbn -[Z.add decode_segments].
  set (input := take _ _). assert (len input = il) as Hin by (unfold input; autorewrite with len; lia).
  clearbody input. unfold u64_sub, u64_add.
  rewrite u64_arith_ok by (unfold u64_max, SALAMANDER_SALT_LEN; nia). cbn -[Z.add decode_segments].
  rewrite u64_arith_ok by (unfold u64_max, SALAMANDER_SALT_LEN; nia). cbn -[Z.add decode_segments].
  set (ol := il - SALAMANDER_SALT_LEN).
  assert (0 ≤ ol ∧ oo + ol ≤ len buffer) as Hol by (unfold ol, SALAMANDER_SALT_LEN; lia).
  rewrite slice_ok by lia. cbn -[Z.add decode_segments].
  set (output := take (Z.to_nat (oo + ol - oo)) _).
  assert (len output = ol) as Hout by (unfold output; autorewrite with len; lia).
  assert (∃ output', deobfuscate (E:=io_error) o input output = Ret (ol, output') ∧ len output' = ol)
    as (output' & -> & Hout').
  { destruct (decide (il = 8)) as [E8|Hne].
    - exists output. rewrite deobfuscate_short by (unfold SALAMANDER_SALT_LEN; lia).
      unfold ol, SALAMANDER_SALT_LEN in *. rewrite E8 in *. split; [done|lia].
    - destruct (deobfuscate_fills io_error o input output) as (o' & Ho & Hlo);
        [unfold SALAMANDER_SALT_LEN; lia|unfold ol in *; lia|].
      exists o'. rewrite Ho, Hout. split; [done|lia]. }
  cbn -[Z.add decode_segments]. unfold copy_from_slice. rewrite decide_True by lia.
  cbn -[Z.add decode_segments]. rewrite decide_False by lia.
  eexists. split; [|done]. unfold len. rewrite length_blit; [done|]. unfold len in *. lia.
Qed.

Lemma decode_segments_full checks o n m si total stride buffer acc :
  0 ≤ si → SALAMANDER_SALT_LEN < stride → (si + Z.of_nat n) * stride ≤ total ≤ len buffer →
  len buffer + stride ≤ u32_max →
  ∃ buffer', len buffer' = len buffer ∧
    decode_segments checks o (n + m) si total stride (stride - SALAMANDER_SALT_LEN) buffer acc
    = decode_segments checks o m (si + Z.of_nat n) total stride (stride - SALAMANDER_SALT_LEN) buffer'
        (acc + Z.of_nat n * (stride - SALAMANDER_SALT_LEN)).
Proof.
  intros Hsi Hst. revert si buffer acc Hsi. induction n as [|n IH]; intros si buffer acc Hsi Htot Hb.
  { exists buffer. split; [done|]. cbn [Nat.add]. f_equal; lia. }
  cbn [Nat.add]. destruct (decode_segment_any checks o (n + m) si total stride buffer acc) as (b1 & Hl1 & ->);
    [done|done|unfold SALAMANDER_SALT_LEN in *; nia|unfold SALAMANDER_SALT_LEN in *; nia|done|].
  destruct (IH (si + 1) b1 (acc + (Z.min (total - si * stride) stride - SALAMANDER_SALT_LEN))) as (b2 & Hl2 & ->);
    [lia|nia|lia|].
  exists b2. split; [lia|]. rewrite Z.min_r by (unfold SALAMANDER_SALT_LEN in *; nia). f_equal; lia.
Qed.

(** A segment shorter than its salt: the length of its payload underflows,
    and what the wrapped length selects is out of the buffer. *)
Lemma decode_segment_short checks o n si total stride buffer acc :
  0 ≤ si → SALAMANDER_SALT_LEN < stride → total ≤ len buffer → len buffer + stride ≤ u32_max →
  0 < total - si * stride < SALAMANDER_SALT_LEN →
  decode_segments checks o (S n) si total stride (stride - SALAMANDER_SALT_LEN) buffer acc = Panic.
Proof.
  intros Hsi Hst Htot Hb Hs. unfold u32_max, SALAMANDER_SALT_LEN in *. cbn [decode_segments].
  assert (sat_sub total (si * stride) = total - si * stride) as -> by (unfold sat_sub; lia).
  rewrite Z.min_l by lia. rewrite slice_ok by nia. cbn -[Z.add decode_segments].
  unfold u64_sub, u64_arith. rewrite decide_False by (unfold SALAMANDER_SALT_LEN; lia).
  destruct checks; [done|]. cbn -[Z.add decode_segments].
  set (k := total - si * stride) in *.
  assert (as_u64 (k - SALAMANDER_SALT_LEN) = k - 8 + 18446744073709551616) as ->.
  { unfold as_u64. symmetry. apply (Zmod_unique _ _ (-1)); unfold SALAMANDER_SALT_LEN; lia. }
  set (oo := si * (stride - 8)). assert (0 ≤ oo ≤ si * stride) as Hoo by (unfold oo; nia).
  unfold u64_add, u64_arith. case_decide; cbn -[Z.add decode_segments].
  - unfold slice at 1. by rewrite decide_False by lia.
  - assert (as_u64 (oo + (k - 8 + 18446744073709551616)) = oo + k - 8) as ->.
    { unfold as_u64. symmetry. apply (Zmod_unique _ _ 1); [unfold u64_max in *; lia|lia]. }
    unfold slice at 1. by rewrite decide_False by lia.
Qed.

(** The number of segments of a sealed payload is that of the payload. *)
Lemma sealed_count L ds :
  0 < ds → 0 ≤ L →
  (L + SALAMANDER_SALT_LEN * ((L + ds - 1) / ds) + (ds + SALAMANDER_SALT_LEN) - 1)
    / (ds + SALAMANDER_SALT_LEN) = (L + ds - 1) / ds.
Proof.
  intros Hd HL. pose proof (Z.div_mod (L + ds - 1) ds ltac:(lia)).
  pose proof (Z.mod_pos_bound (L + ds - 1) ds Hd). unfold SALAMANDER_SALT_LEN in *.
  set (k := (L + ds - 1) / ds) in *. symmetry. apply (Z.div_unique_pos _ _ _ (L - k * ds + ds + 8 - 1)); nia.
Qed.

(** The segment size a transmit uses. *)
Definition segment_of (t : Transmit) : Z := default (Z.max (len (tx_contents t)) 1) (tx_segment_size t).

Definition sealed_transmit (o : Ob) (salts : nat → bytes) (t : Transmit) : Transmit :=
  mkTransmit (tx_destination t) (tx_ecn t)
    (concat (seal_chunks o salts 0 (chunks (length (tx_contents t)) (segment_of t) (tx_contents t))))
    ((fun size => size + SALAMANDER_SALT_LEN) <$> tx_segment_size t) (tx_src_ip t).

Lemma try_send_spec o salts inner t :
  (∀ j, len (salts j) = SALAMANDER_SALT_LEN) → 0 < segment_of t →
  try_send o salts inner t = inner (sealed_transmit o salts t).
Proof.
  intros Hs Hseg. unfold try_send. fold (segment_of t). unfold div_ceil. rewrite decide_False by lia.
  cbn -[Z.add]. by rewrite encode_chunks_spec by done.
Qed.

Lemma decode_sealed checks o salts t tail meta :
  (∀ j, len (salts j) = SALAMANDER_SALT_LEN) → 0 < segment_of t → 0 < len (tx_contents t) →
  rm_len meta = len (tx_contents (sealed_transmit o salts t)) →
  rm_stride meta = segment_of t + SALAMANDER_SALT_LEN →
  rm_len meta + len tail + rm_stride meta ≤ u32_max →
  ∃ junk, decode_buffer checks o (tx_contents (sealed_transmit o salts t) ++ tail) meta
  = Ret (tx_contents t ++ junk ++ tail,
         mkRecvMeta (rm_addr meta) (len (tx_contents t))
           (if decide (segment_of t < len (tx_contents t)) then segment_of t else len (tx_contents t))
           (rm_ecn meta) (rm_dst_ip meta)) ∧
    len (tx_contents t ++ junk) = rm_len meta.
Proof.
  intros Hs Hseg Hne Hlen Hstride Hb. unfold decode_buffer. set (L := len (tx_contents t)) in *.
  set (ds := segment_of t) in *.
  assert (rm_len meta = L + SALAMANDER_SALT_LEN * ((L + ds - 1) / ds)) as Htot.
  { rewrite Hlen. cbn [tx_contents sealed_transmit]. rewrite len_seal_chunks by done.
    rewrite chunks_concat by (fold ds; lia). unfold len at 2. rewrite chunks_length by (fold ds; lia). done. }
  assert (0 ≤ (L + ds - 1) / ds) by (apply Z.div_pos; lia).
  unfold SALAMANDER_SALT_LEN in *.
  rewrite decide_False by lia. rewrite (decide_False (P:=rm_stride meta = 0)) by lia.
  rewrite decide_False by lia. unfold div_ceil. rewrite decide_False by lia.
  assert ((rm_len meta + rm_stride meta - 1) / rm_stride meta = (L + ds - 1) / ds) as ->.
  { rewrite Htot, Hstride. exact (sealed_count L ds Hseg ltac:(lia)). }
  cbn -[Z.add decode_segments].
  destruct (decode_segments_spec checks o salts (length (tx_contents t)) (rm_stride meta) (tx_contents t)
    0 0 (rm_len meta) [] [] tail 0) as (J & Heq & HJ); [done|unfold SALAMANDER_SALT_LEN; lia|lia| | |done|].
  { done. }
  { rewrite Hlen. cbn. unfold SALAMANDER_SALT_LEN. rewrite Hstride. by replace (ds + 8 - 8) with ds by lia. }
  exists J. unfold SALAMANDER_SALT_LEN in *. replace (rm_stride meta - 8) with ds in * by lia.
  replace (Z.to_nat ((L + ds - 1) / ds)) with (length (chunks (length (tx_contents t)) ds (tx_contents t))); last first.
  { apply Nat2Z.inj. rewrite chunks_length by lia. fold L. lia. }
  cbn [app] in Heq. cbn [tx_contents sealed_transmit]. fold ds. rewrite Heq. cbn -[Z.add]. rewrite Z.add_0_l. fold L.
  split; [|exact HJ]. assert (1 < (L + ds - 1) / ds ↔ ds < L) as Hiff.
  { split; intros Hx; [|apply Z.lt_le_trans with 2; [lia|apply Z.div_le_lower_bound; lia]].
    destruct (decide (ds < L)); [done|]. assert ((L + ds - 1) / ds < 2) by (apply Z.div_lt_upper_bound; lia). lia. }
  destruct (decide (1 < _)), (decide (ds < L)); (done || tauto).
Qed.
End socket.

Lemma poll_recv_single {Ob} `{!Obfuscator Ob} checks (o : Ob) buffer meta :
  poll_recv checks o (Ready (Ret 1)) [buffer] [meta]
  = Ready ('(b, mt) ← decode_buffer checks o buffer meta; Ret (1, [b], [mt])).
Proof.
  unfold poll_recv. change (Z.to_nat 1) with 1%nat. cbn [decode_buffers]. rewrite !index_head.
  cbn -[decode_buffer]. by destruct (decode_buffer checks o buffer meta) as [[b mt]| |].
Qed.

(** ** Properties *)

(** C11: transparency of the obfuscated socket. What [try_send] hands to the
    inner socket for a non-empty transmit has the same addressing, and when
    [poll_recv] is given that content (as one receive, coalesced segments
    included, followed by any stale bytes of the buffer) it leaves the original
    content at the start of the buffer, reports its length, and reports the
    original segment size as the stride if there was more than one segment:
    the in-place decoding never overwrites a segment it still has to read. *)
Theorem obfs_socket_transparent digest checks o salts t tail addr ecn dst :
  (∀ x, len (digest x) = SALAMANDER_KEY_LEN) → (∀ j, len (salts j) = SALAMANDER_SALT_LEN) →
  0 < segment_of t → 0 < len (tx_contents t) →
  2 * len (tx_contents t) * (1 + SALAMANDER_SALT_LEN) + segment_of t + len tail ≤ u32_max →
  let _ := salamander_obfuscator digest in
  ∃ t', (∀ inner, try_send o salts inner t = inner t') ∧
    tx_destination t' = tx_destination t ∧ tx_ecn t' = tx_ecn t ∧ tx_src_ip t' = tx_src_ip t ∧
    tx_segment_size t' = (fun s => s + SALAMANDER_SALT_LEN) <$> tx_segment_size t ∧
    ∃ buf, poll_recv checks o (Ready (Ret 1)) [tx_contents t' ++ tail]
        [mkRecvMeta addr (len (tx_contents t')) (segment_of t + SALAMANDER_SALT_LEN) ecn dst]
      = Ready (Ret (1, [buf],
          [mkRecvMeta addr (len (tx_contents t))
             (if decide (segment_of t < len (tx_contents t)) then segment_of t else len (tx_contents t)) ecn dst])) ∧
      take (length (tx_contents t)) buf = tx_contents t ∧ len buf = len (tx_contents t' ++ tail).
Proof.
  intros Hd Hs Hseg Hne Hb I. pose proof (salamander_laws digest Hd) as L. fold I in L.
  exists (sealed_transmit o salts t). split; [intros; by apply try_send_spec|]. split_and!; [done..|].
  set (meta := mkRecvMeta _ _ _ _ _).
  assert (rm_len meta ≤ len (tx_contents t) * (1 + SALAMANDER_SALT_LEN)) as Hl.
  { cbn [rm_len meta tx_contents sealed_transmit]. unfold meta. cbn [rm_len tx_contents sealed_transmit].
    rewrite len_seal_chunks by done. rewrite chunks_concat by lia. unfold len at 2. rewrite chunks_length by lia.
    assert ((len (tx_contents t) + segment_of t - 1) / segment_of t ≤ len (tx_contents t)).
    { apply Z.div_le_upper_bound; [done|]. nia. }
    unfold SALAMANDER_SALT_LEN in *. lia. }
  destruct (decode_sealed checks o salts t tail meta) as (junk & Heq & Hj); [done..| |].
  { unfold SALAMANDER_SALT_LEN in *. cbn [rm_stride meta] in *. unfold meta in *. cbn [rm_stride rm_len] in *.
    unfold SALAMANDER_SALT_LEN in *. lia. }
  eexists. rewrite poll_recv_single, Heq. cbn [mbind outcome_bind]. split; [done|].
  split; [by rewrite take_app_length|]. rewrite app_assoc, !len_app. rewrite len_app in Hj. cbn [rm_len meta] in Hj.
  unfold meta in Hj. cbn [rm_len] in Hj. lia.
Qed.

Lemma obfs_socket_transparent_witness :
  ∃ t' : Transmit, tx_segment_size t' = Some 10 ∧
    try_send (Obfuscator0 := salamander_obfuscator (fun x => replicate 32 (Z.of_nat (length x)))) (mkSalamander (str "secret"))
      (fun j => replicate 8 (Z.of_nat j)) (fun _ => Ret ())
      (mkTransmit (str "1.2.3.4:443") None [1; 2; 3; 4; 5] (Some 2) None) = Ret ().
Proof.
  destruct (obfs_socket_transparent (fun x => replicate 32 (Z.of_nat (length x))) true (mkSalamander (str "secret"))
    (fun j => replicate 8 (Z.of_nat j)) (mkTransmit (str "1.2.3.4:443") None [1; 2; 3; 4; 5] (Some 2) None)
    [] [] None None) as (t' & H1 & _ & _ & _ & H2 & _).
  - intros x. apply len_replicate.
  - intros j. apply len_replicate.
  - by_decide.
  - by_decide.
  - by_decide.
  - exists t'. split; [exact H2|]. apply (H1 (fun _ => Ret ())).
Defined.

(** C40: what a received buffer does to the socket, on any bytes. An empty
    receive is left alone; a datagram size of at most the salt length makes
    [poll_recv] fail as a whole; a last segment of 1 to 7 bytes panics in both
    build profiles, because the length of its payload underflows; in every
    other case the receive succeeds, every segment losing its eight bytes. *)
Theorem poll_recv_cases digest checks o buffer addr total stride ecn dst :
  (∀ x, len (digest x) = SALAMANDER_KEY_LEN) →
  0 ≤ total ≤ len buffer → 0 ≤ stride → len buffer + total + stride ≤ u32_max →
  let _ := salamander_obfuscator digest in
  let st := if decide (stride = 0) then total else stride in
  let r := poll_recv checks o (Ready (Ret 1)) [buffer] [mkRecvMeta addr total stride ecn dst] in
  (total = 0 → r = Ready (Ret (1, [buffer], [mkRecvMeta addr total stride ecn dst]))) ∧
  (0 < total → st ≤ SALAMANDER_SALT_LEN → r = Ready (Err (IoOther (str "invalid obfuscated QUIC datagram")))) ∧
  (SALAMANDER_SALT_LEN < st → 0 < total mod st < SALAMANDER_SALT_LEN → r = Ready Panic) ∧
  (0 < total → SALAMANDER_SALT_LEN < st → ¬ (0 < total mod st < SALAMANDER_SALT_LEN) →
     ∃ buffer' stride', len buffer' = len buffer ∧
       r = Ready (Ret (1, [buffer'],
         [mkRecvMeta addr (total - SALAMANDER_SALT_LEN * ((total + st - 1) / st)) stride' ecn dst]))).
Proof.
  intros Hd Htot Hst Hb I st r. pose proof (salamander_laws digest Hd) as L. fold I in L.
  unfold r. rewrite poll_recv_single. unfold decode_buffer. cbn [rm_len rm_stride rm_addr rm_ecn rm_dst_ip]. fold st.
  clearbody I. assert (len buffer + st ≤ u32_max) as Hbs by (unfold st; destruct (decide _); lia).
  split_and!.
  - intros ->. by rewrite decide_True.
  - intros H0 Hs. rewrite decide_False, decide_True by lia. done.
  - intros Hs Hm. pose proof (Z.div_mod total st ltac:(unfold SALAMANDER_SALT_LEN in *; lia)) as Hdm.
    assert (0 ≤ total / st) by (apply Z.div_pos; unfold SALAMANDER_SALT_LEN in *; lia).
    rewrite decide_False by (intros ->; rewrite Z.mod_0_l in Hm; unfold SALAMANDER_SALT_LEN in *; lia).
    rewrite decide_False by lia. unfold div_ceil. rewrite decide_False by (unfold SALAMANDER_SALT_LEN in *; lia).
    rewrite <- (Z.div_unique_pos _ st (total / st + 1) (total mod st - 1)) by (unfold SALAMANDER_SALT_LEN in *; lia).
    cbn [mbind outcome_bind]. replace (Z.to_nat (total / st + 1)) with (Z.to_nat (total / st) + 1)%nat by lia.
    destruct (decode_segments_full checks o (Z.to_nat (total / st)) 1 0 total st buffer 0) as (b & Hlb & ->);
      [done|done|rewrite Z2Nat.id by done; unfold SALAMANDER_SALT_LEN in *; lia|done|].
    rewrite decode_segment_short; [done|lia|done|lia|lia|]. rewrite Z2Nat.id by done.
    replace (total - (0 + total / st) * st) with (total mod st) by lia. done.
  - intros H0 Hs Hm. unfold SALAMANDER_SALT_LEN in Hs, Hm.
    pose proof (Z.div_mod total st ltac:(lia)) as Hdm. pose proof (Z.mod_pos_bound total st ltac:(lia)).
    assert (0 ≤ total / st) by (apply Z.div_pos; lia).
    rewrite decide_False, decide_False by (unfold SALAMANDER_SALT_LEN; lia). unfold div_ceil. rewrite decide_False by lia.
    destruct (decide (total mod st = 0)) as [Hz|Hz].
    + rewrite <- (Z.div_unique_pos _ st (total / st) (st - 1)) by lia.
      cbn [mbind outcome_bind]. replace (Z.to_nat (total / st)) with (Z.to_nat (total / st) + 0)%nat by lia.
      destruct (decode_segments_full checks o (Z.to_nat (total / st)) 0 0 total st buffer 0) as (b & Hlb & ->);
        [done|unfold SALAMANDER_SALT_LEN; lia|rewrite Z2Nat.id by done; lia|done|].
      cbn [decode_segments mbind outcome_bind]. do 2 eexists. split; [exact Hlb|]. do 7 f_equal.
      rewrite Z2Nat.id by done. unfold SALAMANDER_SALT_LEN. lia.
    + rewrite <- (Z.div_unique_pos _ st (total / st + 1) (total mod st - 1)) by lia.
      cbn [mbind outcome_bind]. replace (Z.to_nat (total / st + 1)) with (Z.to_nat (total / st) + 1)%nat by lia.
      destruct (decode_segments_full checks o (Z.to_nat (total / st)) 1 0 total st buffer 0) as (b & Hlb & ->);
        [done|unfold SALAMANDER_SALT_LEN; lia|rewrite Z2Nat.id by done; lia|done|].
      rewrite Z2Nat.id by done.
      destruct (decode_segment_any checks o 0 (0 + total / st) total st b (0 + total / st * (st - SALAMANDER_SALT_LEN)))
        as (b' & Hlb' & ->); [lia|unfold SALAMANDER_SALT_LEN; lia|lia|unfold SALAMANDER_SALT_LEN; lia|lia|].
      cbn [decode_segments mbind outcome_bind]. do 2 eexists. split; [rewrite Hlb'; exact Hlb|]. do 7 f_equal.
      unfold SALAMANDER_SALT_LEN. lia.
Qed.

Lemma poll_recv_cases_witness :
  poll_recv (Obfuscator0 := salamander_obfuscator (fun x => replicate 32 (Z.of_nat (length x)))) false
    (mkSalamander (str "secret")) (Ready (Ret 1)) [replicate 40 7] [mkRecvMeta [] 23 20 None None]
  = Ready Panic.
Proof.
  destruct (poll_recv_cases (fun x => replicate 32 (Z.of_nat (length x))) false (mkSalamander (str "secret"))
    (replicate 40 7) [] 23 20 None None) as (_ & _ & H & _).
  - intros x. apply len_replicate.
  - by_decide.
  - by_decide.
  - by_decide.
  - apply H; by_decide.
Defined.
