(* ===== verification/Float.v ===== *)
(** * Double-precision arithmetic

    The values an [f64] takes in the limiter are finite, and every operation of
    IEEE 754 on them returns the exact result rounded to the nearest double,
    ties to even. A double is the rational number it denotes, and [rnd] is the
    rounding. The exponent range is not bounded above: the limiter works on
    rates, durations and sizes below [2^64], whose products are far below the
    largest double. *)
From S2P Require Import Prelude.
From Stdlib Require Export QArith Qround Qreduction Qminmax Lqa.
Local Open Scope Z_scope.

Abbreviation f64 := Q.

(** [n / d] rounded to the nearest integer, ties to even. *)
Definition round_half_even (n d : Z) : Z :=
  let q := n / d in
  let r := n mod d in
  match 2 * r ?= d with
  | Lt => q
  | Gt => q + 1
  | Eq => if Z.even q then q else q + 1
  end.

(** The exponent [k] with [2^k <= n/d < 2^(k+1)]. *)
Definition floor_log2 (n d : Z) : Z :=
  let k := Z.log2 n - Z.log2 d in
  if decide (n * 2 ^ Z.max 0 (- k) < d * 2 ^ Z.max 0 k) then k - 1 else k.

(** A positive rational rounded to 53 bits (fewer below the normal range). *)
Definition rnd_pos (n d : Z) : Q :=
  let e := Z.max (floor_log2 n d - 52) (-1074) in
  let q := round_half_even (n * 2 ^ Z.max 0 (- e)) (d * 2 ^ Z.max 0 e) in
  Qred (Qmake (q * 2 ^ Z.max 0 e) (Z.to_pos (2 ^ Z.max 0 (- e)))).

Definition rnd (x : Q) : f64 :=
  match Qnum x with
  | Z0 => 0%Q
  | Zpos p => rnd_pos (Zpos p) (Zpos (Qden x))
  | Zneg p => Qopp (rnd_pos (Zpos p) (Zpos (Qden x)))
  end.

(** [x as f64] of an unsigned integer. *)
Definition f64_of_u64 (x : Z) : f64 := rnd (inject_Z x).
Definition f64_add (x y : f64) : f64 := rnd (x + y)%Q.
Definition f64_sub (x y : f64) : f64 := rnd (x - y)%Q.
Definition f64_mul (x y : f64) : f64 := rnd (x * y)%Q.
Definition f64_div (x y : f64) : f64 := rnd (x / y)%Q.
Definition f64_ge (x y : f64) : bool := Qle_bool y x.
Definition f64_min (x y : f64) : f64 := if Qle_bool x y then x else y.
Definition f64_max (x y : f64) : f64 := if Qle_bool y x then x else y.
(** [x.floor()], which is exact. *)
Definition f64_floor (x : f64) : f64 := inject_Z (Qfloor x).
(** [x as usize]: towards zero, saturating. *)
Definition f64_as_usize (x : f64) : Z := Z.max 0 (Z.min u64_max (Qfloor x)).

Lemma round_half_even_exact q d : 0 < d → round_half_even (q * d) d = q.
Proof.
  intros Hd. unfold round_half_even. rewrite Z.div_mul, Z.mod_mul by lia. cbn.
  by destruct d.
Qed.

Lemma round_half_even_nonneg n d : 0 ≤ n → 0 < d → 0 ≤ round_half_even n d.
Proof.
  intros Hn Hd. unfold round_half_even. assert (0 ≤ n / d) by (apply Z.div_pos; lia).
  destruct (_ ?= _); [destruct (Z.even _)|..]; lia.
Qed.

Lemma rnd_nonneg x : (0 <= x)%Q → (0 <= rnd x)%Q.
Proof.
  intros Hx. destruct x as [n d]. unfold Qle in Hx. cbn in Hx. unfold rnd. cbn [Qnum Qden].
  destruct n as [|p|p]; [done| |lia]. unfold rnd_pos. rewrite Qred_correct. unfold Qle. cbn [Qnum Qden].
  assert (∀ e, 0 < 2 ^ Z.max 0 e) by (intros; lia).
  set (e := Z.max _ (-1074)). pose proof (H e). pose proof (H (- e)).
  assert (0 ≤ round_half_even (Z.pos p * 2 ^ Z.max 0 (- e)) (Z.pos d * 2 ^ Z.max 0 e))
    by (apply round_half_even_nonneg; nia). nia.
Qed.

(** Integers of at most 53 bits are doubles. *)
Lemma rnd_int n : 0 ≤ n < 2 ^ 53 → (rnd (inject_Z n) == inject_Z n)%Q.
Proof.
  intros Hn. unfold rnd, inject_Z. cbn [Qnum Qden]. destruct n as [|p|p]; [done| |lia].
  unfold rnd_pos, floor_log2. change (Z.log2 1) with 0. rewrite Z.sub_0_r.
  set (k := Z.log2 (Z.pos p)). assert (0 ≤ k < 53) as Hk.
  { split; [apply Z.log2_nonneg|]. apply Z.log2_lt_pow2; lia. }
  assert (2 ^ k ≤ Z.pos p) as Hlow by (apply Z.log2_spec; lia).
  rewrite (Z.max_l 0 (- k)), (Z.max_r 0 k) by lia. rewrite decide_False by lia.
  rewrite (Z.max_l (k - 52)) by lia. rewrite (Z.max_l 0 (k - 52)), (Z.max_r 0 (- (k - 52))) by lia.
  rewrite Qred_correct. change (2 ^ 0) with 1. rewrite !Z.mul_1_r.
  set (w := 2 ^ (- (k - 52))). assert (0 < w) by (unfold w; lia).
  replace (round_half_even (Z.pos p * w) 1) with (Z.pos p * w); last first.
  { symmetry. rewrite <- (Z.mul_1_r (Z.pos p * w)) at 1. apply round_half_even_exact. lia. }
  unfold Qeq. cbn [Qnum Qden]. rewrite Z2Pos.id by done. lia.
Qed.

Lemma f64_of_u64_exact n : 0 ≤ n < 2 ^ 53 → (f64_of_u64 n == inject_Z n)%Q.
Proof. apply rnd_int. Qed.

Lemma Qle_bool_false x y : Qle_bool x y = false ↔ (y < x)%Q.
Proof.
  split.
  - intros H. apply Qnot_le_lt. intros Hle. apply Qle_bool_iff in Hle. congruence.
  - intros H. destruct (Qle_bool x y) eqn:E; [|done]. apply Qle_bool_iff in E. by apply Qlt_not_le in H.
Qed.

Lemma f64_min_le_r x y : (f64_min x y <= y)%Q.
Proof. unfold f64_min. destruct (Qle_bool x y) eqn:E; [by apply Qle_bool_iff|apply Qle_refl]. Qed.
Lemma f64_min_glb x y z : (z <= x)%Q → (z <= y)%Q → (z <= f64_min x y)%Q.
Proof. unfold f64_min. by destruct (Qle_bool x y). Qed.
Lemma f64_max_ge_r x y : (y <= f64_max x y)%Q.
Proof. unfold f64_max. destruct (Qle_bool y x) eqn:E; [by apply Qle_bool_iff|apply Qle_refl]. Qed.

Lemma floor_log2_spec n d :
  0 < n → 0 < d → d * 2 ^ Z.max 0 (floor_log2 n d) ≤ n * 2 ^ Z.max 0 (- floor_log2 n d).
Proof.
  intros Hn Hd. unfold floor_log2. set (k := Z.log2 n - Z.log2 d). case_decide as Hc; [|lia].
  pose proof (Z.log2_spec n Hn) as [Hl _]. pose proof (Z.log2_spec d Hd) as [_ Hu].
  pose proof (Z.log2_nonneg n). pose proof (Z.log2_nonneg d).
  assert (d * 2 ^ (k - 1 + Z.max 0 (- (k - 1))) ≤ n * 2 ^ Z.max 0 (- (k - 1))); last first.
  { by replace (k - 1 + Z.max 0 (- (k - 1))) with (Z.max 0 (k - 1)) in H1 by lia. }
  set (m := Z.max 0 (- (k - 1))). assert (0 ≤ m) by lia. assert (0 ≤ k - 1 + m) by lia.
  assert (2 ^ (Z.succ (Z.log2 d)) * 2 ^ (k - 1 + m) = 2 ^ (Z.log2 n) * 2 ^ m) as Hpow.
  { rewrite <- !Z.pow_add_r by lia. f_equal. lia. }
  assert (0 < 2 ^ m) by lia. assert (0 < 2 ^ (k - 1 + m)) by lia. nia.
Qed.

(** Rounding does not go below an integer of at most 53 bits. *)
Lemma rnd_lower x n : 0 ≤ n < 2 ^ 53 → (inject_Z n <= x)%Q → (inject_Z n <= rnd x)%Q.
Proof.
  intros Hn Hx. destruct x as [a d]. unfold Qle in Hx. cbn [Qnum Qden inject_Z] in Hx. rewrite Z.mul_1_r in Hx.
  destruct a as [|a|a]; unfold rnd; cbn [Qnum Qden]; [unfold Qle; cbn; lia| |lia].
  unfold rnd_pos. rewrite Qred_correct. set (k := floor_log2 (Z.pos a) (Z.pos d)).
  pose proof (floor_log2_spec (Z.pos a) (Z.pos d) ltac:(lia) ltac:(lia)) as Hk. fold k in Hk.
  set (e := Z.max (k - 52) (-1074)). unfold Qle. cbn [Qnum Qden inject_Z]. rewrite Z.mul_1_r.
  assert (0 < 2 ^ Z.max 0 (- e)) as Hp1 by lia. assert (0 < 2 ^ Z.max 0 e) as Hp2 by lia.
  rewrite Z2Pos.id by done.
  set (N := Z.pos a * 2 ^ Z.max 0 (- e)). set (D := Z.pos d * 2 ^ Z.max 0 e).
  assert (0 < D) by (unfold D; nia).
  assert (N / D ≤ round_half_even N D) as Hr.
  { unfold round_half_even. destruct (_ ?= _); [destruct (Z.even _)|..]; lia. }
  destruct (decide (e ≤ 0)) as [He|He].
  - assert (n * 2 ^ Z.max 0 (- e) ≤ N / D) as Hq.
    { apply Z.div_le_lower_bound; [done|]. unfold D, N. rewrite (Z.max_l 0 e) by lia. change (2 ^ 0) with 1. nia. }
    rewrite (Z.max_l 0 e) by lia. change (2 ^ 0) with 1. lia.
  - assert (k = e + 52) as Hke by lia. rewrite (Z.max_l 0 (- k)), (Z.max_r 0 k) in Hk by lia.
    assert (2 ^ 52 ≤ N / D) as Hq.
    { apply Z.div_le_lower_bound; [done|]. unfold D, N. rewrite (Z.max_l 0 (- e)), (Z.max_r 0 e) by lia.
      rewrite Hke, Z.pow_add_r in Hk by lia. change (2 ^ 0) with 1 in *. lia. }
    rewrite (Z.max_l 0 (- e)), (Z.max_r 0 e) by lia. change (2 ^ 0) with 1.
    assert (2 ^ 1 ≤ 2 ^ e) by (apply Z.pow_le_mono_r; lia). change (2 ^ 1) with 2 in *.
    change (2 ^ 53) with (2 ^ 52 * 2) in Hn. nia.
Qed.

(** Nor below a power of two. *)
Lemma rnd_lower_pow2 x j : 0 ≤ j → (inject_Z (2 ^ j) <= x)%Q → (inject_Z (2 ^ j) <= rnd x)%Q.
Proof.
  intros Hj Hx. destruct x as [a d]. unfold Qle in Hx. cbn [Qnum Qden inject_Z] in Hx. rewrite Z.mul_1_r in Hx.
  assert (0 < 2 ^ j) as Hpj by lia. destruct a as [|a|a]; unfold rnd; cbn [Qnum Qden]; [nia| |nia].
  unfold rnd_pos. rewrite Qred_correct. set (k := floor_log2 (Z.pos a) (Z.pos d)).
  pose proof (floor_log2_spec (Z.pos a) (Z.pos d) ltac:(lia) ltac:(lia)) as Hk. fold k in Hk.
  set (e := Z.max (k - 52) (-1074)). unfold Qle. cbn [Qnum Qden inject_Z]. rewrite Z.mul_1_r.
  assert (0 < 2 ^ Z.max 0 (- e)) as Hp1 by lia. assert (0 < 2 ^ Z.max 0 e) as Hp2 by lia. rewrite Z2Pos.id by done.
  set (N := Z.pos a * 2 ^ Z.max 0 (- e)). set (D := Z.pos d * 2 ^ Z.max 0 e). assert (0 < D) by (unfold D; nia).
  assert (N / D ≤ round_half_even N D) as Hr.
  { unfold round_half_even. destruct (_ ?= _); [destruct (Z.even _)|..]; lia. }
  destruct (decide (e ≤ 0)) as [He|He].
  - assert (2 ^ j * 2 ^ Z.max 0 (- e) ≤ N / D) as Hq.
    { apply Z.div_le_lower_bound; [done|]. unfold D, N. rewrite (Z.max_l 0 e) by lia. change (2 ^ 0) with 1. nia. }
    rewrite (Z.max_l 0 e) by lia. change (2 ^ 0) with 1. lia.
  - assert (k = e + 52) as Hke by lia. rewrite (Z.max_l 0 (- k)), (Z.max_r 0 k) in Hk by lia.
    rewrite (Z.max_l 0 (- e)), (Z.max_r 0 e) by lia. change (2 ^ 0) with 1 in *.
    assert (0 < 2 ^ e) by lia. rewrite Z.mul_1_r. destruct (decide (j ≤ e)) as [Hje|Hje].
    + assert (2 ^ 52 ≤ N / D) as Hq.
      { apply Z.div_le_lower_bound; [done|]. unfold D, N. rewrite (Z.max_l 0 (- e)), (Z.max_r 0 e) by lia.
        rewrite Hke, Z.pow_add_r in Hk by lia. change (2 ^ 0) with 1. lia. }
      pose proof (Z.pow_le_mono_r 2 j e ltac:(lia) Hje). nia.
    + assert (2 ^ (j - e) ≤ N / D) as Hq.
      { apply Z.div_le_lower_bound; [done|]. unfold D, N. rewrite (Z.max_l 0 (- e)), (Z.max_r 0 e) by lia. change (2 ^ 0) with 1.
        replace j with (e + (j - e)) in Hx by lia. rewrite Z.pow_add_r in Hx by lia. lia. }
      replace j with ((j - e) + e) at 1 by lia. rewrite Z.pow_add_r by lia. apply Z.mul_le_mono_nonneg_r; lia.
Qed.

Lemma round_half_even_upper n d m : 0 < d → n ≤ m * d → round_half_even n d ≤ m.
Proof.
  intros Hd Hn. unfold round_half_even. pose proof (Z.div_mod n d ltac:(lia)).
  pose proof (Z.mod_pos_bound n d Hd). assert (n / d ≤ m) by (apply Z.div_le_upper_bound; lia).
  destruct (Z.compare_spec (2 * (n mod d)) d); [destruct (Z.even _)|..]; nia.
Qed.

(** Nor above one. *)
Lemma rnd_upper x n : 0 ≤ n < 2 ^ 53 → (0 <= x)%Q → (x <= inject_Z n)%Q → (rnd x <= inject_Z n)%Q.
Proof.
  intros Hn H0 Hx. destruct x as [a d]. unfold Qle in H0, Hx. cbn [Qnum Qden inject_Z] in H0, Hx. rewrite Z.mul_1_r in H0, Hx.
  destruct a as [|a|a]; unfold rnd; cbn [Qnum Qden]; [unfold Qle; cbn; lia| |lia].
  unfold rnd_pos. rewrite Qred_correct. set (k := floor_log2 (Z.pos a) (Z.pos d)).
  pose proof (floor_log2_spec (Z.pos a) (Z.pos d) ltac:(lia) ltac:(lia)) as Hk. fold k in Hk.
  assert (k < 53) as Hk53.
  { destruct (decide (k < 53)); [done|]. rewrite (Z.max_l 0 (- k)), (Z.max_r 0 k) in Hk by lia.
    assert (2 ^ 53 ≤ 2 ^ k) by (apply Z.pow_le_mono_r; lia). change (2 ^ 0) with 1 in Hk. nia. }
  set (e := Z.max (k - 52) (-1074)). assert (e ≤ 0) as He by lia.
  rewrite (Z.max_l 0 e) by lia. unfold Qle. cbn [Qnum Qden inject_Z]. change (2 ^ 0) with 1.
  assert (0 < 2 ^ Z.max 0 (- e)) as Hp1 by lia. rewrite Z2Pos.id by done. rewrite !Z.mul_1_r.
  apply round_half_even_upper; [lia|]. nia.
Qed.

(** *** Relative errors *)

(** Rounding loses at most a part in [2^52] of a number that is not tiny. *)
Definition epsilon : Q := 1 # 4503599627370496.
Lemma floor_log2_low n d : 0 < n → 0 < d → d ≤ n * 2 ^ 100 → -101 ≤ floor_log2 n d.
Proof.
  intros Hn Hd Hle. unfold floor_log2. assert (Z.log2 d ≤ 100 + Z.log2 n) as Hl.
  { rewrite <- Z.log2_mul_pow2 by lia. by apply Z.log2_le_mono. }
  case_decide; lia.
Qed.
Lemma rnd_rel x : ((1 # 1267650600228229401496703205376) <= x)%Q → (x - x * epsilon <= rnd x)%Q.
Proof.
  intros Hx. destruct x as [a d]. unfold Qle in Hx. cbn [Qnum Qden] in Hx.
  destruct a as [|a|a]; [lia| |lia]. unfold rnd. cbn [Qnum Qden]. unfold rnd_pos. rewrite Qred_correct.
  set (k := floor_log2 (Z.pos a) (Z.pos d)).
  pose proof (floor_log2_spec (Z.pos a) (Z.pos d) ltac:(lia) ltac:(lia)) as Hk. fold k in Hk.
  pose proof (floor_log2_low (Z.pos a) (Z.pos d) ltac:(lia) ltac:(lia) ltac:(change (2 ^ 100) with 1267650600228229401496703205376; lia)) as Hlow. fold k in Hlow.
  set (e := Z.max (k - 52) (-1074)). assert (k = e + 52) as Hke by lia.
  set (A := Z.pos a) in *. set (B := Z.pos d) in *. assert (0 < A ∧ 0 < B) as [HA HB] by lia.
  assert (0 < 2 ^ Z.max 0 (- e)) as Hp1 by lia. assert (0 < 2 ^ Z.max 0 e) as Hp2 by lia.
  set (N := A * 2 ^ Z.max 0 (- e)). set (D := B * 2 ^ Z.max 0 e). assert (0 < D) by (unfold D; nia).
  assert (D * 2 ^ 52 ≤ N) as HN.
  { unfold N, D. destruct (decide (e ≤ 0)) as [He|He].
    - rewrite (Z.max_l 0 e), (Z.max_r 0 (- e)) by lia. destruct (decide (0 ≤ k)).
      + rewrite (Z.max_r 0 k), (Z.max_l 0 (- k)) in Hk by lia. change (2 ^ 0) with 1 in *.
        assert (2 ^ 52 = 2 ^ k * 2 ^ (- e)) as -> by (rewrite <- Z.pow_add_r by lia; f_equal; lia). assert (0 < 2 ^ (- e)) by lia. nia.
      + rewrite (Z.max_l 0 k), (Z.max_r 0 (- k)) in Hk by lia. change (2 ^ 0) with 1 in *.
        assert (2 ^ (- e) = 2 ^ (- k) * 2 ^ 52) as -> by (rewrite <- Z.pow_add_r by lia; f_equal; lia). nia.
    - rewrite (Z.max_l 0 (- e)), (Z.max_r 0 e) by lia. rewrite (Z.max_r 0 k), (Z.max_l 0 (- k)) in Hk by lia.
      rewrite Hke, Z.pow_add_r in Hk by lia. change (2 ^ 0) with 1 in *. lia. }
  set (r := round_half_even N D). assert (N / D ≤ r) as Hr.
  { unfold r, round_half_even. destruct (_ ?= _); [destruct (Z.even _)|..]; lia. }
  assert (N - D ≤ r * D) as Hrd by (pose proof (Z.div_mod N D ltac:(lia)); pose proof (Z.mod_pos_bound N D ltac:(lia)); nia).
  assert ((2 ^ 52 - 1) * N ≤ 2 ^ 52 * (r * D)) as Hfin by lia.
  apply Qle_trans with (Qmake ((2 ^ 52 - 1) * A) (4503599627370496 * d)).
  - unfold epsilon, Qle. cbn -[Z.mul Z.pow]. unfold A, B in *. lia.
  - unfold Qle. cbn [Qnum Qden]. rewrite Z2Pos.id by done. rewrite Pos2Z.inj_mul. fold B. change (Z.pos 4503599627370496) with (2 ^ 52).
    unfold N, D in Hfin. nia.
Qed.
Lemma round_half_even_lower n d : 0 < d → 2 * n - d ≤ 2 * (round_half_even n d * d).
Proof.
  intros Hd. unfold round_half_even. pose proof (Z.div_mod n d ltac:(lia)). pose proof (Z.mod_pos_bound n d Hd).
  destruct (Z.compare_spec (2 * (n mod d)) d); [destruct (Z.even _)|..]; nia.
Qed.
Lemma Qeq_le x y : (x == y)%Q → (x <= y)%Q.
Proof. intros ->. apply Qle_refl. Qed.
