(* ===== verification/Limit.v ===== *)
(** * The bandwidth limiter ([core/src/limit.rs])

    A token bucket in double-precision arithmetic. An instant is a number of
    nanoseconds. A loop that sleeps starts at an instant and takes how much later
    than it could each of its turns reads the clock: a turn that follows a sleep
    reads it when the computed duration has passed, or later. *)
From S2P Require Import Prelude Float.
Local Open Scope Z_scope.

Definition MIN_BURST_BYTES : Z := 10 * 1500.
Definition MAX_WRITE_CHUNK : Z := 64 * 1024.

Record LimiterState := mkLimiterState { tokens : f64; last_refill : Z }.

Record BandwidthLimiter := mkLimiter {
  rate_bytes_per_sec : Z;
  burst_bytes : Z;
  lim_state : LimiterState
}.

(** A [Duration] is a number of nanoseconds. *)
Inductive LimitDecision :=
| LimitReady (granted : Z)
| LimitWait (duration : Z).

Definition negotiated_limit (local_limit remote_limit : Z) : Z :=
  if decide (local_limit = 0) then
    if decide (remote_limit = 0) then 0 else remote_limit
  else if decide (remote_limit = 0) then local_limit
  else Z.min local_limit remote_limit.

Definition limiter_new (now rate : Z) : BandwidthLimiter :=
  let burst := Z.max (rate / 250) MIN_BURST_BYTES in
  mkLimiter rate burst (mkLimiterState (f64_of_u64 burst) now).

Definition limiter_optional (now rate : Z) : option BandwidthLimiter :=
  if decide (0 < rate) then Some (limiter_new now rate) else None.

Definition NANOS_PER_SEC : Z := 1000000000.
Definition NANOS_PER_SEC_pos : positive := 1000000000.

(** [Duration::as_secs_f64]. *)
Definition as_secs_f64 (d : Z) : f64 :=
  f64_add (f64_of_u64 (d / NANOS_PER_SEC))
          (f64_div (f64_of_u64 (d mod NANOS_PER_SEC)) (f64_of_u64 NANOS_PER_SEC)).

(** [Duration::from_secs_f64]: the nearest number of nanoseconds; a negative
    number of seconds, or one over 64 bits, panics. *)
Definition from_secs_f64 {E} (x : f64) : outcome E Z :=
  if Qle_bool 0 x then
    let ns := round_half_even (Qnum x * NANOS_PER_SEC) (Zpos (Qden x)) in
    if decide (ns / NANOS_PER_SEC ≤ u64_max) then Ret ns else Panic
  else Panic.

Definition refill (lim : BandwidthLimiter) (now : Z) : LimiterState :=
  let st := lim_state lim in
  let elapsed := Z.max 0 (now - last_refill st) in
  let replenished := f64_mul (f64_of_u64 (rate_bytes_per_sec lim)) (as_secs_f64 elapsed) in
  mkLimiterState (f64_min (f64_add (tokens st) replenished) (f64_of_u64 (burst_bytes lim))) now.

Definition wait_duration {E} (lim : BandwidthLimiter) (missing_bytes : f64) : outcome E Z :=
  from_secs_f64 (f64_div (f64_max missing_bytes 1%Q) (f64_of_u64 (Z.max (rate_bytes_per_sec lim) 1))).

Definition set_state (lim : BandwidthLimiter) (st : LimiterState) : BandwidthLimiter :=
  mkLimiter (rate_bytes_per_sec lim) (burst_bytes lim) st.

Definition take_stream_budget {E} (lim : BandwidthLimiter) (now requested : Z)
    : outcome E (LimitDecision * BandwidthLimiter) :=
  if decide (requested = 0) then Ret (LimitReady 0, lim)
  else
    let st := refill lim now in
    if f64_ge (tokens st) 1%Q then
      let available := f64_as_usize (f64_max (f64_floor (tokens st)) 1%Q) in
      let granted := Z.min (Z.min requested available) MAX_WRITE_CHUNK in
      let st := mkLimiterState (f64_sub (tokens st) (f64_of_u64 granted)) (last_refill st) in
      Ret (LimitReady granted, set_state lim st)
    else
      d ← wait_duration lim (f64_sub 1%Q (tokens st));
      Ret (LimitWait d, set_state lim st).

(** The loop of [wait_for_chunk] from the instant [now] on: the grant, or [None]
    when it still waits after the last turn, with the bucket and the instant of
    the last look at it. *)
Fixpoint wait_for_chunk {E} (delays : list Z) (now : Z) (lim : BandwidthLimiter) (requested : Z)
    : outcome E (option Z * BandwidthLimiter * Z) :=
  if decide (requested = 0) then Ret (Some 0, lim, now)
  else
    match delays with
    | [] => Ret (None, lim, now)
    | delay :: delays =>
        let now := now + delay in
        '(decision, lim) ← take_stream_budget lim now requested;
        match decision with
        | LimitReady granted => Ret (Some granted, lim, now)
        | LimitWait duration => wait_for_chunk delays (now + duration) lim requested
        end
    end.

(** A turn of [wait_for]: all of the request, or a wait. *)
Definition take_all {E} (lim : BandwidthLimiter) (now requested : Z)
    : outcome E (LimitDecision * BandwidthLimiter) :=
  let st := refill lim now in
  if f64_ge (tokens st) (f64_of_u64 requested) then
    Ret (LimitReady requested,
         set_state lim (mkLimiterState (f64_sub (tokens st) (f64_of_u64 requested)) (last_refill st)))
  else
    d ← wait_duration lim (f64_sub (f64_of_u64 requested) (tokens st));
    Ret (LimitWait d, set_state lim st).

Fixpoint wait_for {E} (delays : list Z) (now : Z) (lim : BandwidthLimiter) (requested : Z)
    : outcome E (option unit * BandwidthLimiter * Z) :=
  if decide (requested = 0) then Ret (Some (), lim, now)
  else
    match delays with
    | [] => Ret (None, lim, now)
    | delay :: delays =>
        let now := now + delay in
        '(decision, lim) ← take_all lim now requested;
        match decision with
        | LimitReady _ => Ret (Some (), lim, now)
        | LimitWait duration => wait_for delays (now + duration) lim requested
        end
    end.

(** ** The bucket *)

(** A limiter of the program: a positive rate, the burst computed from it, and
    a bucket that is not overdrawn. *)
Definition limiter_inv (lim : BandwidthLimiter) : Prop :=
  1 ≤ rate_bytes_per_sec lim < 2 ^ 53 ∧
  burst_bytes lim = Z.max (rate_bytes_per_sec lim / 250) MIN_BURST_BYTES ∧
  (0 <= tokens (lim_state lim))%Q.

Lemma burst_bound lim : limiter_inv lim → MIN_BURST_BYTES ≤ burst_bytes lim < 2 ^ 53.
Proof.
  intros (Hr & -> & _). assert (rate_bytes_per_sec lim / 250 ≤ rate_bytes_per_sec lim) by (apply Z.div_le_upper_bound; lia).
  unfold MIN_BURST_BYTES. split; [lia|]. change (2 ^ 53) with 9007199254740992 in *. lia.
Qed.

Lemma f64_of_u64_nonneg n : 0 ≤ n → (0 <= f64_of_u64 n)%Q.
Proof. intros. apply rnd_nonneg. unfold Qle. cbn. lia. Qed.

Lemma as_secs_f64_nonneg d : 0 ≤ d → (0 <= as_secs_f64 d)%Q.
Proof.
  intros Hd. unfold as_secs_f64, f64_add, f64_div. apply rnd_nonneg.
  assert (0 ≤ d / NANOS_PER_SEC) by (apply Z.div_pos; [lia|done]).
  assert (0 ≤ d mod NANOS_PER_SEC) by (by apply Z.mod_pos_bound).
  rewrite <- (Qplus_0_r 0) at 1. apply Qplus_le_compat; [by apply f64_of_u64_nonneg|].
  apply rnd_nonneg. unfold Qdiv. apply Qmult_le_0_compat; [by apply f64_of_u64_nonneg|].
  apply Qinv_le_0_compat. by apply f64_of_u64_nonneg.
Qed.

Lemma refill_bounds lim now :
  limiter_inv lim →
  (0 <= tokens (refill lim now) <= inject_Z (burst_bytes lim))%Q.
Proof.
  intros Hi. pose proof (burst_bound lim Hi) as Hb. destruct Hi as (Hr & _ & Ht). unfold refill. cbn [tokens].
  unfold MIN_BURST_BYTES in Hb. split.
  - apply f64_min_glb; [|apply f64_of_u64_nonneg; lia]. unfold f64_add. apply rnd_nonneg.
    rewrite <- (Qplus_0_r 0) at 1. apply Qplus_le_compat; [done|]. unfold f64_mul. apply rnd_nonneg.
    apply Qmult_le_0_compat; [apply f64_of_u64_nonneg; lia|apply as_secs_f64_nonneg; lia].
  - eapply Qle_trans; [apply f64_min_le_r|]. rewrite f64_of_u64_exact by lia. apply Qle_refl.
Qed.

Lemma set_state_inv lim st :
  limiter_inv lim → (0 <= tokens st)%Q → limiter_inv (set_state lim st).
Proof. intros (? & ? & _) ?. unfold limiter_inv. split_and!; cbn; try done; lia. Qed.


Lemma wait_duration_total {E} lim x :
  limiter_inv lim → (x <= inject_Z u32_max)%Q → ∃ d, wait_duration (E:=E) lim x = Ret d ∧ 0 ≤ d.
Proof.
  intros (Hr & _) Hx. unfold wait_duration, from_secs_f64. rewrite Z.max_l by lia.
  set (y := f64_div _ _). assert (0 <= y <= inject_Z u32_max)%Q as [Hy0 Hy].
  { set (m := f64_max x 1). assert (1 <= m)%Q by apply f64_max_ge_r.
    assert (m <= inject_Z u32_max)%Q as Hm by (unfold m, f64_max; destruct (Qle_bool 1 x); done).
    assert (1 <= f64_of_u64 (rate_bytes_per_sec lim))%Q as Hr1.
    { rewrite f64_of_u64_exact by lia. unfold Qle. cbn. lia. }
    assert (0 < f64_of_u64 (rate_bytes_per_sec lim))%Q by (eapply Qlt_le_trans; [|exact Hr1]; done).
    assert (0 <= m)%Q by (eapply Qle_trans; [|eassumption]; done).
    assert (0 <= m / f64_of_u64 (rate_bytes_per_sec lim))%Q as Hpos
      by (apply Qle_shift_div_l; [done|]; by rewrite Qmult_0_l).
    unfold y, f64_div. split; [by apply rnd_nonneg|]. apply rnd_upper; [done|done|].
    apply Qle_shift_div_r; [done|]. eapply Qle_trans; [exact Hm|].
    rewrite <- (Qmult_1_r (inject_Z u32_max)) at 1. by rewrite Qmult_le_l. }
  clearbody y. rewrite (proj2 (Qle_bool_iff 0 y) Hy0).
  assert (0 ≤ Qnum y ∧ Qnum y ≤ u32_max * Zpos (Qden y)) as [Hn0 Hn].
  { destruct y as [n d]. unfold Qle in *. cbn in *. lia. }
  set (ns := round_half_even _ _). assert (0 ≤ ns) by (apply round_half_even_nonneg; unfold NANOS_PER_SEC; lia).
  assert (ns ≤ u32_max * NANOS_PER_SEC) by (apply round_half_even_upper; unfold NANOS_PER_SEC; lia).
  rewrite decide_True; [eauto|]. apply Z.div_le_upper_bound; unfold NANOS_PER_SEC, u32_max, u64_max in *; lia.
Qed.

Lemma take_stream_budget_cases {E} lim now requested :
  limiter_inv lim → 0 < requested →
  (∃ g lim', take_stream_budget (E:=E) lim now requested = Ret (LimitReady g, lim') ∧
     1 ≤ g ≤ requested ∧ g ≤ MAX_WRITE_CHUNK ∧ (inject_Z g <= tokens (refill lim now))%Q ∧
     limiter_inv lim' ∧ lim_state lim' = mkLimiterState (f64_sub (tokens (refill lim now)) (f64_of_u64 g)) now) ∨
  (∃ d, take_stream_budget (E:=E) lim now requested = Ret (LimitWait d, set_state lim (refill lim now)) ∧
     0 ≤ d ∧ wait_duration (E:=E) lim (f64_sub 1 (tokens (refill lim now))) = Ret d ∧ (tokens (refill lim now) < 1)%Q ∧ limiter_inv (set_state lim (refill lim now))).
Proof.
  intros Hi Hreq. destruct (refill_bounds lim now Hi) as [Ht0 Htb]. pose proof (burst_bound lim Hi) as Hb.
  unfold take_stream_budget. rewrite decide_False by lia. set (t := tokens (refill lim now)) in *.
  destruct (f64_ge t 1) eqn:Hge; unfold f64_ge in Hge.
  - left. apply Qle_bool_iff in Hge. assert (1 ≤ Qfloor t) as Hf.
    { change 1 with (Qfloor 1). by apply Qfloor_resp_le. }
    assert (Qfloor t ≤ burst_bytes lim) as Hfb.
    { rewrite <- (Qfloor_Z (burst_bytes lim)). by apply Qfloor_resp_le. }
    assert (f64_as_usize (f64_max (f64_floor t) 1) = Qfloor t) as ->.
    { unfold f64_max, f64_floor. rewrite (proj2 (Qle_bool_iff 1 (inject_Z (Qfloor t)))) by (change 1%Q with (inject_Z 1); by rewrite <- Zle_Qle).
      unfold f64_as_usize. rewrite Qfloor_Z. unfold u64_max. change (2 ^ 53) with 9007199254740992 in *. lia. }
    set (g := Z.min (Z.min requested (Qfloor t)) MAX_WRITE_CHUNK).
    assert (1 ≤ g ∧ g ≤ requested ∧ g ≤ Qfloor t ∧ g ≤ MAX_WRITE_CHUNK) as (Hg1 & Hg2 & Hg3 & Hg4)
      by (unfold g, MAX_WRITE_CHUNK in *; lia).
    assert (inject_Z g <= t)%Q as Hgt.
    { eapply Qle_trans; [|apply Qfloor_le]. by rewrite <- Zle_Qle. }
    assert (f64_of_u64 g == inject_Z g)%Q as Hex.
    { apply f64_of_u64_exact. unfold MAX_WRITE_CHUNK in *. change (2 ^ 53) with 9007199254740992. lia. }
    do 2 eexists. split; [reflexivity|]. split_and!; try done.
    apply set_state_inv; [done|]. cbn [tokens]. apply rnd_nonneg. rewrite Hex. lra.
  - right. apply Qle_bool_false in Hge. destruct (wait_duration_total (E:=E) lim (f64_sub 1 t)) as (d & Hd & Hd0); [done| |].
    { unfold f64_sub. apply rnd_upper; [done|lra|]. unfold inject_Z, u32_max. lra. }
    rewrite Hd. cbn. exists d. split_and!; try done. by apply set_state_inv.
Qed.

Lemma limiter_new_inv now rate :
  1 ≤ rate < 2 ^ 53 → limiter_inv (limiter_new now rate).
Proof.
  intros Hr. unfold limiter_inv, limiter_new. cbn [rate_bytes_per_sec burst_bytes lim_state tokens].
  split_and!; try lia. apply f64_of_u64_nonneg. unfold MIN_BURST_BYTES. lia.
Qed.

Lemma take_all_cases {E} lim now requested :
  limiter_inv lim → 0 < requested ≤ u32_max →
  (take_all (E:=E) lim now requested = Ret (LimitReady requested,
     set_state lim (mkLimiterState (f64_sub (tokens (refill lim now)) (f64_of_u64 requested)) now)) ∧
   (inject_Z requested <= tokens (refill lim now))%Q) ∨
  (∃ d, take_all (E:=E) lim now requested = Ret (LimitWait d, set_state lim (refill lim now)) ∧
     wait_duration (E:=E) lim (f64_sub (f64_of_u64 requested) (tokens (refill lim now))) = Ret d ∧
     (tokens (refill lim now) < inject_Z requested)%Q ∧ limiter_inv (set_state lim (refill lim now))).
Proof.
  intros Hi Hreq. destruct (refill_bounds lim now Hi) as [Ht0 _]. unfold take_all. unfold u32_max in Hreq.
  assert (f64_of_u64 requested == inject_Z requested)%Q as Hex
    by (apply f64_of_u64_exact; change (2 ^ 53) with 9007199254740992; lia).
  set (t := tokens (refill lim now)) in *. destruct (f64_ge t (f64_of_u64 requested)) eqn:Hge; unfold f64_ge in Hge.
  - left. apply Qle_bool_iff in Hge. rewrite Hex in Hge. done.
  - right. apply Qle_bool_false in Hge. rewrite Hex in Hge.
    destruct (wait_duration_total (E:=E) lim (f64_sub (f64_of_u64 requested) t)) as (d & Hd & _); [done| |].
    { unfold f64_sub. apply rnd_upper; [done|rewrite Hex; lra|]. rewrite Hex.
      assert (inject_Z requested <= inject_Z u32_max)%Q by (rewrite <- Zle_Qle; unfold u32_max; lia). lra. }
    rewrite Hd. cbn. exists d. split_and!; try done. by apply set_state_inv.
Qed.

(** A request above the burst is never served. *)
Lemma wait_for_starves {E} delays now lim requested :
  limiter_inv lim → burst_bytes lim < requested ≤ u32_max →
  ∃ lim' now', wait_for (E:=E) delays now lim requested = Ret (None, lim', now') ∧ limiter_inv lim'.
Proof.
  intros Hi Hreq. revert now lim Hi Hreq. induction delays as [|delay delays IH]; intros now lim Hi Hreq; cbn [wait_for];
    pose proof (burst_bound lim Hi) as Hb; unfold MIN_BURST_BYTES in Hb; rewrite decide_False by lia; [eauto|].
  destruct (take_all_cases (E:=E) lim (now + delay) requested Hi ltac:(lia)) as [[_ Hge]|(d & -> & _ & _ & Hi')].
  - exfalso. destruct (refill_bounds lim (now + delay) Hi) as [_ Htb].
    assert (inject_Z (burst_bytes lim) < inject_Z requested)%Q by (rewrite <- Zlt_Qlt; lia). lra.
  - cbn. by apply IH.
Qed.

(** *** What a sleep brings *)

Lemma as_secs_lower e : 0 ≤ e → (inject_Z e / inject_Z NANOS_PER_SEC * (1 - 3 * epsilon) <= as_secs_f64 e)%Q.
Proof.
  intros He. destruct (decide (e = 0)) as [->|Hne].
  { eapply Qle_trans; [|by apply as_secs_f64_nonneg]. vm_compute. discriminate. }
  unfold as_secs_f64, f64_add, f64_div. set (q := e / NANOS_PER_SEC). set (m := e mod NANOS_PER_SEC).
  assert (e = NANOS_PER_SEC * q + m ∧ 0 ≤ q ∧ 0 ≤ m < NANOS_PER_SEC) as (Heq & Hq & Hm).
  { split; [apply Z.div_mod; done|]. split; [apply Z.div_pos; done|by apply Z.mod_pos_bound]. }
  clearbody q m.
  assert (inject_Z q * (1 - epsilon) <= f64_of_u64 q)%Q as H1.
  { destruct (decide (q = 0)) as [E|]; [rewrite E; vm_compute; discriminate|]. pose proof (rnd_rel (inject_Z q)) as H. unfold f64_of_u64.
    eapply Qle_trans; [|apply H; unfold Qle; cbn; lia]. lra. }
  assert (inject_Z m / inject_Z NANOS_PER_SEC * (1 - epsilon) <= rnd (f64_of_u64 m / f64_of_u64 NANOS_PER_SEC))%Q as H2.
  { destruct (decide (m = 0)) as [E|]; [rewrite E; vm_compute; discriminate|].
    pose proof (rnd_rel (f64_of_u64 m / f64_of_u64 NANOS_PER_SEC)) as H.
    assert (f64_of_u64 m / f64_of_u64 NANOS_PER_SEC == inject_Z m / inject_Z NANOS_PER_SEC)%Q as Hx
      by (rewrite !f64_of_u64_exact by (unfold NANOS_PER_SEC in *; lia); reflexivity).
    rewrite Hx in H at 1 2 3. eapply Qle_trans; [|apply H].
    - lra.
    - apply Qle_shift_div_l; [done|]. unfold Qle, NANOS_PER_SEC in *. cbn. lia. }
  set (x := f64_of_u64 q) in *. set (y := rnd (f64_of_u64 m / _)) in *.
  assert (inject_Z e / inject_Z NANOS_PER_SEC == inject_Z q + inject_Z m / inject_Z NANOS_PER_SEC)%Q as Hsum.
  { rewrite Heq, inject_Z_plus, inject_Z_mult. field. discriminate. }
  assert (1 # NANOS_PER_SEC_pos <= inject_Z e / inject_Z NANOS_PER_SEC)%Q as Hpos.
  { apply Qle_shift_div_l; [done|]. unfold Qle, NANOS_PER_SEC, NANOS_PER_SEC_pos. cbn. lia. }
  set (w := (inject_Z e / inject_Z NANOS_PER_SEC)%Q) in *. set (v := (inject_Z m / inject_Z NANOS_PER_SEC)%Q) in *.
  clearbody w v x y. unfold NANOS_PER_SEC_pos, epsilon in *. pose proof (rnd_rel (x + y)) as H. unfold epsilon in H.
  assert (w * (1 - (1 # 4503599627370496)) <= x + y)%Q as Hxy by lra.
  eapply Qle_trans; [|apply H; lra]. lra.
Qed.

(** Nanoseconds [e] at the rate bring [g] bytes, but for the rounding. *)
Lemma refill_gain lim now g :
  limiter_inv lim → (tokens (lim_state lim) <= 131072)%Q → (0 <= g <= 131072)%Q →
  (g * inject_Z NANOS_PER_SEC <= inject_Z (rate_bytes_per_sec lim * Z.max 0 (now - last_refill (lim_state lim))))%Q →
  (tokens (lim_state lim) + g - (1 # 100) <= tokens (refill lim now) ∨ inject_Z (burst_bytes lim) <= tokens (refill lim now))%Q.
Proof.
  intros Hi Htb Hg Hge. pose proof (burst_bound lim Hi) as Hb. destruct Hi as (Hr & _ & Ht). unfold refill. cbn [tokens].
  set (e := Z.max 0 (now - last_refill (lim_state lim))) in *. set (t := tokens (lim_state lim)) in *.
  set (rep := f64_mul (f64_of_u64 (rate_bytes_per_sec lim)) (as_secs_f64 e)).
  assert (0 ≤ e) as He by lia. clearbody e. pose proof (as_secs_lower e He) as Hs. pose proof (as_secs_f64_nonneg e He) as Hs0.
  set (sec := as_secs_f64 e) in *. set (rate := rate_bytes_per_sec lim) in *.
  assert (f64_of_u64 rate == inject_Z rate)%Q as Hex by (apply f64_of_u64_exact; lia).
  assert (0 <= inject_Z rate)%Q as Hr0 by (unfold Qle; cbn; lia).
  assert (0 <= rep)%Q as Hrep0 by (apply rnd_nonneg; rewrite Hex; by apply Qmult_le_0_compat).
  assert (g * (1 - 3 * epsilon) <= inject_Z rate * sec)%Q as Hprod.
  { apply Qle_trans with (inject_Z rate * (inject_Z e / inject_Z NANOS_PER_SEC * (1 - 3 * epsilon)))%Q.
    - rewrite inject_Z_mult in Hge. assert (g <= inject_Z rate * inject_Z e / inject_Z NANOS_PER_SEC)%Q as Hg' by (by apply Qle_shift_div_l).
      apply Qle_trans with (inject_Z rate * inject_Z e / inject_Z NANOS_PER_SEC * (1 - 3 * epsilon))%Q.
      + apply Qmult_le_compat_r; [exact Hg'|vm_compute; discriminate].
      + apply Qeq_le. field. discriminate.
    - rewrite !(Qmult_comm (inject_Z rate)). by apply Qmult_le_compat_r. }
  assert (g - (1 # 500) <= rep)%Q as Hrep.
  { destruct (Qlt_le_dec g (1 # 1000)) as [Hsmall|Hbig]; [lra|]. pose proof (rnd_rel (f64_of_u64 rate * sec)) as H.
    unfold rep, f64_mul. rewrite Hex in H at 1 2 3. set (z := (inject_Z rate * sec)%Q) in *. unfold epsilon in *.
    assert (z - z * (1 # 4503599627370496) <= rnd (f64_of_u64 rate * sec))%Q by (apply H; lra). lra. }
  unfold f64_min. destruct (Qle_bool (f64_add t rep) _); [left|right].
  - destruct (Qlt_le_dec (1 # 100) (t + g)) as [Hbig|Hsmall]; [|assert (0 <= f64_add t rep)%Q by (apply rnd_nonneg; lra); lra].
    pose proof (rnd_rel (t + rep)) as H. unfold f64_add. unfold epsilon in H. set (z := (t + rep)%Q) in *.
    assert (z - z * (1 # 4503599627370496) <= rnd z)%Q by (apply H; unfold z; lra). unfold z in *. lra.
  - rewrite f64_of_u64_exact by (unfold MIN_BURST_BYTES in Hb; lia). apply Qle_refl.
Qed.
(** At rates of up to a byte in a nanosecond, the duration that is computed for
    [x] missing bytes brings these bytes, and one at least, but for half of one. *)
Definition MAX_TIMED_RATE : Z := NANOS_PER_SEC.
Lemma wait_gain {E} lim x d :
  limiter_inv lim → rate_bytes_per_sec lim ≤ MAX_TIMED_RATE → (x <= 131072)%Q → wait_duration (E:=E) lim x = Ret d →
  ((f64_max x 1 - (51 # 100)) * inject_Z NANOS_PER_SEC <= inject_Z (rate_bytes_per_sec lim * d))%Q.
Proof.
  intros (Hr & _) Hmax Hx. unfold wait_duration, from_secs_f64. rewrite Z.max_l by lia. set (m := f64_max x 1).
  assert (1 <= m <= 131072)%Q as [Hm1 Hm2] by (split; [apply f64_max_ge_r|unfold m, f64_max; destruct (Qle_bool 1 x); [done|lra]]).
  set (rate := rate_bytes_per_sec lim) in *. assert (f64_of_u64 rate == inject_Z rate)%Q as Hex by (apply f64_of_u64_exact; lia).
  set (y := f64_div m (f64_of_u64 rate)). assert (1 <= inject_Z rate)%Q as Hr1 by (unfold Qle; cbn; lia).
  assert (inject_Z rate <= 1000000000)%Q as Hr2 by (unfold Qle, MAX_TIMED_RATE, NANOS_PER_SEC in *; cbn; lia).
  assert (m - m * epsilon <= y * inject_Z rate)%Q as Hy.
  { pose proof (rnd_rel (m / f64_of_u64 rate)) as H. fold (f64_div m (f64_of_u64 rate)) in H. fold y in H. rewrite Hex in H at 1 2 3.
    assert (m / inject_Z rate - m / inject_Z rate * epsilon <= y)%Q as H'.
    { apply H. apply Qle_shift_div_l; [lra|]. lra. }
    apply (Qmult_le_compat_r _ _ (inject_Z rate)) in H'; [|lra]. eapply Qle_trans; [|exact H']. apply Qeq_le. field. lra. }
  clearbody y. destruct (Qle_bool 0 y); [|done]. set (ns := round_half_even _ _). case_decide; [|done]. intros [= <-].
  pose proof (round_half_even_lower (Qnum y * NANOS_PER_SEC) (Z.pos (Qden y)) ltac:(lia)) as Hround. fold ns in Hround.
  assert (y * inject_Z NANOS_PER_SEC - (1 # 2) <= inject_Z ns)%Q as Hns.
  { destruct y as [yn yd]. unfold Qle. cbn [Qnum Qden Qmult Qminus Qplus Qopp inject_Z] in *. unfold NANOS_PER_SEC in *. lia. }
  clearbody ns. apply (Qmult_le_compat_r _ _ (inject_Z rate)) in Hns; [|lra]. rewrite inject_Z_mult, (Qmult_comm (inject_Z rate)).
  eapply Qle_trans; [|exact Hns]. apply Qle_trans with (y * inject_Z rate * inject_Z NANOS_PER_SEC - (1 # 2) * inject_Z rate)%Q; [|apply Qeq_le; ring].
  assert ((m - m * epsilon) * inject_Z NANOS_PER_SEC <= y * inject_Z rate * inject_Z NANOS_PER_SEC)%Q as Hz by (apply Qmult_le_compat_r; [done|vm_compute; discriminate]).
  unfold epsilon, NANOS_PER_SEC, MAX_TIMED_RATE, inject_Z in *. lra.
Qed.
(** So after a look that made it wait, a loop that slept finds more. *)
Lemma sleep_gain {E} lim now x d delay :
  limiter_inv lim → rate_bytes_per_sec lim ≤ MAX_TIMED_RATE → (x <= 131072)%Q → 0 ≤ delay → 0 ≤ d →
  (tokens (refill lim now) <= 131072)%Q → wait_duration (E:=E) lim x = Ret d →
  let lim' := set_state lim (refill lim now) in
  let t := tokens (refill lim' (now + d + delay)) in
  (tokens (refill lim now) + f64_max x 1 - (53 # 100) <= t ∨ inject_Z (burst_bytes lim) <= t)%Q.
Proof.
  intros Hi Hrate Hx Hdelay Hd0 Htb Hd lim' t. pose proof (wait_gain (E:=E) lim x d Hi Hrate Hx Hd) as Hg.
  assert (1 <= f64_max x 1 <= 131072)%Q as [Hm1 Hm2] by (split; [apply f64_max_ge_r|unfold f64_max; destruct (Qle_bool 1 x); [done|lra]]).
  assert (limiter_inv lim') as Hi' by (apply set_state_inv; [done|by apply refill_bounds]).
  destruct (refill_gain lim' (now + d + delay) (f64_max x 1 - (51 # 100)) Hi') as [H|H]; [exact Htb|lra| |left|right; exact H].
  - eapply Qle_trans; [exact Hg|]. rewrite <- Zle_Qle. unfold lim'. cbn [set_state rate_bytes_per_sec lim_state refill last_refill].
    destruct Hi as (? & _). nia.
  - unfold t. cbn [lim' set_state lim_state] in H. fold lim' in H. lra.
Qed.

(** *** Waits end *)

Lemma chunk_looks {E} n k delays now lim requested :
  limiter_inv lim → rate_bytes_per_sec lim ≤ MAX_TIMED_RATE → 0 < requested → Forall (fun d => 0 ≤ d) delays → length delays = k → (n ≤ k)%nat →
  (∀ delay rest, delays = delay :: rest → 1 - (2 # 5) * inject_Z (Z.of_nat n - 1) <= tokens (refill lim (now + delay)))%Q → (0 < n)%nat →
  ∃ g lim' now', wait_for_chunk (E:=E) delays now lim requested = Ret (Some g, lim', now').
Proof.
  revert k delays now lim. induction n as [|n IH]; intros k delays now lim Hi Hrate Hreq Hdel Hlen Hk Hlevel Hn; [lia|].
  destruct delays as [|delay delays]; [cbn in Hlen; lia|]. apply Forall_cons in Hdel as [Hd0 Hdel]. cbn [wait_for_chunk]. rewrite decide_False by lia.
  specialize (Hlevel delay delays eq_refl).
  destruct (take_stream_budget_cases (E:=E) lim (now + delay) requested Hi Hreq) as [(g & lim' & -> & _)|(d & -> & Hd & Hw & Hlt & Hi')]; cbn; [eauto|].
  destruct n as [|n]; [exfalso; change (inject_Z (Z.of_nat 1 - 1)) with 0%Q in Hlevel; lra|]. cbn in Hlen. destruct (refill_bounds lim (now + delay) Hi) as [Ht0 _].
  apply (IH (length delays)); try done; [lia| |lia].
  intros delay' rest ->. apply Forall_cons in Hdel as [Hd' _].
  assert (f64_sub 1 (tokens (refill lim (now + delay))) <= 1)%Q as Hx by (apply (rnd_upper _ 1); [lia|lra|change (inject_Z 1) with 1%Q; lra]).
  destruct (sleep_gain (E:=E) lim (now + delay) (f64_sub 1 (tokens (refill lim (now + delay)))) d delay' Hi Hrate ltac:(lra) Hd' Hd ltac:(lra) Hw) as [H|H].
  - eapply Qle_trans; [|exact H]. assert (1 <= f64_max (f64_sub 1 (tokens (refill lim (now + delay)))) 1)%Q by apply f64_max_ge_r.
    replace (Z.of_nat (S (S n)) - 1) with (Z.of_nat (S n) - 1 + 1) in Hlevel by lia. rewrite inject_Z_plus in Hlevel.
    change (inject_Z 1) with 1%Q in Hlevel. lra.
  - eapply Qle_trans; [|exact H]. pose proof (burst_bound lim Hi) as Hb. unfold MIN_BURST_BYTES in Hb.
    assert (15000 <= inject_Z (burst_bytes lim))%Q by (unfold Qle; cbn; lia).
    assert (0 <= inject_Z (Z.of_nat (S n) - 1))%Q by (unfold Qle; cbn; lia). lra.
Qed.
(** Four looks are enough. *)
Lemma wait_for_chunk_served {E} delays now lim requested :
  limiter_inv lim → rate_bytes_per_sec lim ≤ MAX_TIMED_RATE → 0 < requested → Forall (fun d => 0 ≤ d) delays → (4 ≤ length delays)%nat →
  ∃ g lim' now', wait_for_chunk (E:=E) delays now lim requested = Ret (Some g, lim', now').
Proof.
  intros Hi Hrate Hreq Hdel Hlen. apply (chunk_looks 4 (length delays)); try done; [|lia].
  intros delay rest _. destruct (refill_bounds lim (now + delay) Hi) as [Ht0 _]. change (inject_Z (Z.of_nat 4 - 1)) with 3%Q. lra.
Qed.

(** The same for a whole request within the burst. *)
Lemma wait_duration_nonneg {E} lim x d : wait_duration (E:=E) lim x = Ret d → 0 ≤ d.
Proof.
  unfold wait_duration, from_secs_f64. set (y := f64_div _ _). destruct (Qle_bool 0 y) eqn:E0; [|done]. apply Qle_bool_iff in E0.
  case_decide; [|done]. intros [= <-]. apply round_half_even_nonneg; [|lia]. destruct y as [yn yd]. unfold Qle, NANOS_PER_SEC in *. cbn in *. lia.
Qed.
(** What is missing of a request, as the code computes it. *)
Lemma missing_lower requested t :
  0 < requested ≤ 131072 → (0 <= t < inject_Z requested)%Q →
  let x := f64_max (f64_sub (f64_of_u64 requested) t) 1 in
  (inject_Z requested - t - (1 # 100) <= x ∧ 1 <= x ∧ f64_sub (f64_of_u64 requested) t <= 131072)%Q.
Proof.
  intros Hr Ht x. assert (f64_of_u64 requested == inject_Z requested)%Q as Hex by (apply f64_of_u64_exact; lia).
  assert (inject_Z requested <= 131072)%Q as Hr' by (unfold Qle; cbn; lia).
  assert (f64_sub (f64_of_u64 requested) t <= 131072)%Q as Hup.
  { apply (rnd_upper _ 131072); [lia|rewrite Hex; lra|]. rewrite Hex. change (inject_Z 131072) with 131072%Q. lra. }
  assert (1 <= x)%Q as H1 by apply f64_max_ge_r. split_and!; [|done|done].
  destruct (Qlt_le_dec (inject_Z requested - t) 1) as [Hs|Hb]; [lra|].
  pose proof (rnd_rel (f64_of_u64 requested - t)) as H. fold (f64_sub (f64_of_u64 requested) t) in H. rewrite Hex in H at 1 2 3.
  set (z := (inject_Z requested - t)%Q) in *. unfold epsilon in H.
  assert (z - z * (1 # 4503599627370496) <= f64_sub (f64_of_u64 requested) t)%Q as Hz by (apply H; lra).
  assert (f64_sub (f64_of_u64 requested) t <= x)%Q as Hx.
  { unfold x, f64_max. destruct (Qle_bool 1 _) eqn:Eq; [apply Qle_refl|]. apply Qle_bool_false in Eq. lra. }
  assert (z <= 131072)%Q by (unfold z; lra). lra.
Qed.
Definition looks_level (n : nat) (requested : Z) : Q :=
  match n with
  | 0%nat | 1%nat => inject_Z requested
  | 2%nat => (inject_Z requested - (2 # 5))%Q
  | 3%nat => (inject_Z requested - (4 # 5))%Q
  | _ => 0%Q
  end.
Lemma request_looks {E} n delays now lim requested :
  limiter_inv lim → rate_bytes_per_sec lim ≤ MAX_TIMED_RATE → 0 < requested ≤ 131072 → requested ≤ burst_bytes lim →
  Forall (fun d => 0 ≤ d) delays → (n ≤ length delays)%nat → (0 < n ≤ 4)%nat →
  (∀ delay rest, delays = delay :: rest → looks_level n requested <= tokens (refill lim (now + delay)))%Q →
  ∃ lim' now', wait_for (E:=E) delays now lim requested = Ret (Some (), lim', now') ∧
    limiter_inv lim' ∧ rate_bytes_per_sec lim' = rate_bytes_per_sec lim ∧ burst_bytes lim' = burst_bytes lim.
Proof.
  revert delays now lim. induction n as [|n IH]; intros delays now lim Hi Hrate Hreq Hburst Hdel Hlen Hn Hlevel; [lia|].
  destruct delays as [|delay delays]; [cbn in Hlen; lia|]. apply Forall_cons in Hdel as [Hd0 Hdel]. cbn [wait_for]. rewrite decide_False by lia.
  specialize (Hlevel delay delays eq_refl). destruct (refill_bounds lim (now + delay) Hi) as [Ht0 _].
  assert (0 < requested ≤ u32_max) as Hu32 by (unfold u32_max; lia).
  destruct (take_all_cases (E:=E) lim (now + delay) requested Hi Hu32) as [[-> Hge]|(d & -> & Hw & Hlt & Hi')]; cbn [mbind outcome_bind].
  { do 2 eexists. split; [done|]. split; [|done]. apply set_state_inv; [done|]. cbn [tokens]. unfold f64_sub. apply rnd_nonneg.
    rewrite f64_of_u64_exact by lia. lra. }
  pose proof (wait_duration_nonneg _ _ _ Hw) as Hd.
  destruct (missing_lower requested (tokens (refill lim (now + delay))) Hreq (conj Ht0 Hlt)) as (Hm1 & Hm2 & Hm3).
  assert (inject_Z requested <= 131072)%Q as Hr' by (unfold Qle; cbn; lia).
  destruct n as [|n]; [exfalso; cbn [looks_level] in Hlevel; lra|].
  destruct (IH delays (now + delay + d) (set_state lim (refill lim (now + delay)))) as (lim' & now' & Hw' & ? & ? & ?); try done; [cbn in Hlen; lia|lia| |].
  - intros delay' rest ->. apply Forall_cons in Hdel as [Hd' _].
    destruct (sleep_gain (E:=E) lim (now + delay) _ d delay' Hi Hrate Hm3 Hd' Hd ltac:(lra) Hw) as [H|H].
    + eapply Qle_trans; [|exact H]. destruct n as [|[|[|n]]]; cbn [looks_level] in *; lra.
    + eapply Qle_trans; [|exact H]. assert (inject_Z requested <= inject_Z (burst_bytes lim))%Q by (by rewrite <- Zle_Qle).
      assert (0 < inject_Z requested)%Q by (unfold Qlt; cbn; lia).
      destruct n as [|[|[|n]]]; cbn [looks_level]; lra.
  - eauto 6.
Qed.
Lemma wait_for_served {E} delays now lim requested :
  limiter_inv lim → rate_bytes_per_sec lim ≤ MAX_TIMED_RATE → 0 ≤ requested ≤ 131072 → requested ≤ burst_bytes lim →
  Forall (fun d => 0 ≤ d) delays → (4 ≤ length delays)%nat →
  ∃ lim' now', wait_for (E:=E) delays now lim requested = Ret (Some (), lim', now') ∧
    limiter_inv lim' ∧ rate_bytes_per_sec lim' = rate_bytes_per_sec lim ∧ burst_bytes lim' = burst_bytes lim.
Proof.
  intros Hi Hrate Hreq Hb Hdel Hlen. destruct (decide (requested = 0)) as [->|Hne].
  { exists lim, now. split; [by destruct delays|done]. }
  apply (request_looks 4); try done; [lia|lia|]. intros delay rest _. cbn. apply (refill_bounds lim (now + delay) Hi).
Qed.

(** ** Properties *)

(** A zero limit means no limit, and the negotiated rate is the tighter of
    the two ends' limits: with 0 read as infinity it is their minimum, so it is
    symmetric, never above either limit, and unlimited only if both are. *)
Theorem negotiated_limit_meet a b :
  0 ≤ a → 0 ≤ b →
  let inf := fun x => if decide (x = 0) then None else Some x in
  inf (negotiated_limit a b)
  = match inf a, inf b with
    | None, y => y | x, None => x | Some x, Some y => Some (Z.min x y) end
  ∧ negotiated_limit a b = negotiated_limit b a.
Proof.
  intros Ha Hb inf. unfold inf, negotiated_limit.
  repeat case_decide; subst; split; try done; try lia; f_equal; lia.
Qed.

Lemma negotiated_limit_meet_witness :
  negotiated_limit 1000 2000 = negotiated_limit 2000 1000 ∧ negotiated_limit 0 1000 = 1000.
Proof.
  split; [|reflexivity]. apply (negotiated_limit_meet 1000 2000); lia.
Defined.

(** A stream grant. For every limiter with a rate between 1 and [2^53]
    bytes per second, a request is either granted at least one byte, at most
    what was asked, 64 KiB and the whole tokens in the bucket, which is never
    overdrawn nor above the burst; or it is told to wait because less than one
    token is left. Nothing panics, in spite of the rounding, and the invariant
    of the bucket is kept. *)
Theorem stream_budget_bounds lim now requested :
  limiter_inv lim → 0 < requested →
  (0 <= tokens (refill lim now) <= inject_Z (burst_bytes lim))%Q ∧
  ((∃ g lim', take_stream_budget (E:=unit) lim now requested = Ret (LimitReady g, lim') ∧
      1 ≤ g ≤ requested ∧ g ≤ MAX_WRITE_CHUNK ∧ (inject_Z g <= tokens (refill lim now))%Q ∧ limiter_inv lim') ∨
   (∃ d lim', take_stream_budget (E:=unit) lim now requested = Ret (LimitWait d, lim') ∧
      0 ≤ d ∧ (tokens (refill lim now) < 1)%Q ∧ limiter_inv lim')).
Proof.
  intros Hi Hr. split; [by apply refill_bounds|].
  destruct (take_stream_budget_cases (E:=unit) lim now requested Hi Hr) as [(g & lim' & H)|(d & H)].
  - left. exists g, lim'. naive_solver.
  - right. exists d, (set_state lim (refill lim now)). naive_solver.
Qed.

Lemma stream_budget_bounds_witness :
  (tokens (refill (limiter_new 0 1000000) 5) <= inject_Z 15000)%Q.
Proof.
  apply (stream_budget_bounds (limiter_new 0 1000000) 5 1).
  - apply limiter_new_inv. by_decide.
  - lia.
Defined.

(** [wait_for], which a datagram waits on, needs the whole request in the
    bucket at once. A request above the burst size ([max(rate/250, 15000)]
    bytes) is never served, however long it waits; one within the burst, of up
    to 128 KiB and at up to a byte in a nanosecond, is served after three sleeps
    of the durations the code computes at most, in spite of the rounding. *)
Theorem wait_for_served_iff_within_burst lim now requested :
  limiter_inv lim → 0 < requested ≤ u32_max →
  (burst_bytes lim < requested →
     ∀ delays, ∃ lim' now', wait_for (E:=unit) delays now lim requested = Ret (None, lim', now')) ∧
  (requested ≤ burst_bytes lim → requested ≤ 131072 → rate_bytes_per_sec lim ≤ MAX_TIMED_RATE →
     ∀ delays, Forall (fun d => 0 ≤ d) delays → (4 ≤ length delays)%nat →
       ∃ lim' now', wait_for (E:=unit) delays now lim requested = Ret (Some (), lim', now')).
Proof.
  intros Hi Hr. split.
  - intros Hb delays. destruct (wait_for_starves (E:=unit) delays now lim requested) as (lim' & now' & H & _); [done|lia|eauto].
  - intros Hb Hk Hrate delays Hd Hl. destruct (wait_for_served (E:=unit) delays now lim requested) as (lim' & now' & H & _); try done; [lia|eauto].
Qed.

Lemma wait_for_served_iff_within_burst_witness :
  (∃ lim' now', wait_for (E:=unit) [1; 1000000000; 3600000000000] 0 (limiter_new 0 1000000) 65535 = Ret (None, lim', now')) ∧
  ∃ lim' now', wait_for (E:=unit) [0; 0; 0; 0] 0 (limiter_new 0 1000000) 1300 = Ret (Some (), lim', now').
Proof.
  split.
  - destruct (wait_for_served_iff_within_burst (limiter_new 0 1000000) 0 65535) as [H _].
    + apply limiter_new_inv. by_decide.
    + by_decide.
    + apply H. by_decide.
  - apply (wait_for_served_iff_within_burst (limiter_new 0 1000000) 0 1300).
    + apply limiter_new_inv. by_decide.
    + by_decide.
    + by_decide.
    + by_decide.
    + by_decide.
    + by_decide.
    + by_decide.
Defined.
