(* ===== verification/Relay.v ===== *)
(** * The relay loop and the limited stream ([core/src/relay.rs],
    [core/src/stream.rs])

    [copy_with_limit] copies one direction of a proxied connection. What it
    needs of a limiter is the class [ChunkSource]; the bandwidth limiter under
    a clock is an instance, and so is the absence of a limiter. The write half
    of [TcpProxyStream] is a state machine driven by its polls. *)
From S2P Require Import Prelude Float Limit ObfsSocket.
Local Open Scope Z_scope.

Definition RELAY_BUFFER_SIZE : Z := 64 * 1024.

(** The limiter as the relay sees it: how many of [n] bytes it may write next,
    or [None] while it has to keep waiting. *)
Class ChunkSource (L : Type) := next_chunk : L → Z → option (Z * L).
Class ChunkSourceLaws (L : Type) `{!ChunkSource L} (inv : L → Prop) := {
  next_chunk_bounds : ∀ l n g l', inv l → 0 < n → next_chunk l n = Some (g, l') → 1 ≤ g ≤ n ∧ inv l'
}.

(** No limiter: all at once. *)
#[global] Instance unlimited_source : ChunkSource unit := fun l n => Some (n, l).
#[global] Instance unlimited_laws : ChunkSourceLaws unit (fun _ => True).
Proof. constructor. intros l n g l' _ Hn [= <- <-]. lia. Qed.

(** A limiter with the instant up to which it was used and the number of its
    waits. The [turn]-th look at it comes [late turn] after it could; a wait
    sleeps for the durations the limiter computes, and is given up after
    [patience] looks. Nobody else takes from the bucket during a wait. *)
Record clocked_limiter := mkClocked { cl_limiter : BandwidthLimiter; cl_now : Z; cl_turn : nat }.
Section clocked.
Context (late : nat → Z) (patience : nat).
Definition clocked_next (l : clocked_limiter) (n : Z) : option (Z * clocked_limiter) :=
  match wait_for_chunk (E:=unit) (map late (seq (cl_turn l) patience)) (cl_now l) (cl_limiter l) n with
  | Ret (Some g, lim, now) => Some (g, mkClocked lim now (cl_turn l + patience))
  | _ => None
  end.
End clocked.

(** ** The relay *)

(** The write half: what was accepted, how many bytes it accepts before it
    fails (if it does) and whether it was shut down. A sink that has failed
    cannot be shut down. *)
Record sink := mkSink { sk_out : bytes; sk_room : option (Z * io_error); sk_shut : bool }.

Definition sink_write_all (s : sink) (b : bytes) : sink * option io_error :=
  match sk_room s with
  | None => (mkSink (sk_out s ++ b) None (sk_shut s), None)
  | Some (k, e) =>
      if decide (len b ≤ k) then (mkSink (sk_out s ++ b) (Some (k - len b, e)) (sk_shut s), None)
      else (mkSink (sk_out s ++ take (Z.to_nat k) b) (Some (0, e)) (sk_shut s), Some e)
  end.
Definition sink_shutdown (s : sink) : sink * option io_error :=
  match sk_room s with
  | Some (0, e) => (s, Some e)
  | _ => (mkSink (sk_out s) (sk_room s) true, None)
  end.

Section relay.
Context {L : Type} `{!ChunkSource L}.

(** The inner loop: the bytes of one read, from [written] on. [None] while
    the limiter keeps waiting. Every turn writes a byte at least, so the
    bytes left bound the turns. *)
Fixpoint write_chunks (fuel : nat) (buffer : bytes) (read written : Z) (lim : L) (w : sink)
    : option (sink * outcome io_error L) :=
  match fuel with
  | O => Some (w, Ret lim)
  | S fuel =>
      if decide (written < read) then
        match next_chunk lim (read - written) with
        | None => None
        | Some (chunk, lim) =>
            match slice (E:=io_error) buffer written (written + chunk) with
            | Ret piece =>
                match sink_write_all w piece with
                | (w, Some e) => Some (w, Err e)
                | (w, None) => write_chunks fuel buffer read (written + chunk) lim w
                end
            | _ => Some (w, Panic)
            end
        end
      else Some (w, Ret lim)
  end.

(** [copy_with_limit]: the reads its source returns, in order, then what it
    ends with: the end of the stream ([None]) or an error. A read fills a
    prefix of the buffer. *)
Fixpoint copy_loop (reads : list bytes) (fin : option io_error) (buffer : bytes) (lim : L)
    (w : sink) (total : Z) : option (sink * outcome io_error Z) :=
  match reads with
  | [] =>
      match fin with
      | Some e => Some (w, Err e)
      | None =>
          match sink_shutdown w with
          | (w, Some e) => Some (w, Err e)
          | (w, None) => Some (w, Ret total)
          end
      end
  | r :: reads =>
      let buffer := blit buffer 0 r in
      let read := len r in
      if decide (read = 0) then
        match sink_shutdown w with
        | (w, Some e) => Some (w, Err e)
        | (w, None) => Some (w, Ret total)
        end
      else
        match write_chunks (length r) buffer read 0 lim w with
        | None => None
        | Some (w, Ret lim) => copy_loop reads fin buffer lim w (sat_add total read)
        | Some (w, Err e) => Some (w, Err e)
        | Some (w, Panic) => Some (w, Panic)
        end
  end.

Definition copy_with_limit (reads : list bytes) (fin : option io_error) (lim : L) (w : sink)
    : option (sink * outcome io_error Z) :=
  copy_loop reads fin (replicate (Z.to_nat RELAY_BUFFER_SIZE) 0) lim w 0.

Context (inv : L → Prop) `{!ChunkSourceLaws L inv}.

(** What the sink holds after a write that may fail: a prefix of it. *)
Lemma sink_write_spec w b w' o :
  (∀ k e, sk_room w = Some (k, e) → 0 ≤ k) →
  sink_write_all w b = (w', o) →
  (∀ k e, sk_room w' = Some (k, e) → 0 ≤ k) ∧ sk_shut w' = sk_shut w ∧
  match o with
  | None => sk_out w' = sk_out w ++ b ∧ (sk_room w = None → sk_room w' = None)
  | Some e => (∃ n, sk_out w' = sk_out w ++ take n b) ∧ ∃ k, sk_room w = Some (k, e)
  end.
Proof.
  intros Hk. unfold sink_write_all. destruct (sk_room w) as [[k e]|]; [|intros [= <- <-]; by split_and!].
  specialize (Hk k e eq_refl). case_decide; intros [= <- <-]; cbn; split_and!; try done; eauto;
    intros ? ? [= <- <-]; lia.
Qed.

Lemma write_chunks_spec fuel buffer r rest written lim w :
  buffer = r ++ rest → 0 ≤ written ≤ len r → (Z.to_nat (len r - written) ≤ fuel)%nat → inv lim →
  (∀ k e, sk_room w = Some (k, e) → 0 ≤ k) →
  match write_chunks fuel buffer (len r) written lim w with
  | None => ∃ l n, inv l ∧ 0 < n ≤ len r ∧ next_chunk l n = None
  | Some (w', o) =>
      sk_shut w' = sk_shut w ∧ (∀ k e, sk_room w' = Some (k, e) → 0 ≤ k) ∧
      match o with
      | Ret l => sk_out w' = sk_out w ++ drop (Z.to_nat written) r ∧ inv l ∧ (sk_room w = None → sk_room w' = None)
      | Err e => (∃ n, sk_out w' = sk_out w ++ take n (drop (Z.to_nat written) r)) ∧ sk_room w ≠ None
      | Panic => False
      end
  end.
Proof.
  intros Hbuf. revert written lim w. induction fuel as [|fuel IH]; intros written lim w Hw Hf Hi Hk; cbn [write_chunks].
  { split_and!; try done. rewrite drop_ge by (unfold len in *; lia). by rewrite app_nil_r. }
  case_decide as Hlt; last first.
  { split_and!; try done. rewrite drop_ge by (unfold len in *; lia). by rewrite app_nil_r. }
  destruct (next_chunk lim (len r - written)) as [[chunk lim']|] eqn:Hn; [|exists lim, (len r - written); split_and!; (done || lia)].
  destruct (next_chunk_bounds lim (len r - written) chunk lim' Hi ltac:(lia) Hn) as [Hc Hi'].
  rewrite slice_ok by (rewrite ?Hbuf, ?len_app; pose proof (len_nonneg rest); lia).
  set (piece := take _ _). assert (piece = take (Z.to_nat chunk) (drop (Z.to_nat written) r)) as Hp.
  { unfold piece. rewrite Hbuf, drop_app_le, take_app_le by (rewrite ?length_drop; unfold len in *; lia). f_equal. lia. }
  destruct (sink_write_all w piece) as [w' o] eqn:Hs. apply sink_write_spec in Hs as (Hk' & Hsh & Ho); [|done].
  destruct o as [e|].
  - destruct Ho as [[n Ho] [k Hro]]. split_and!; [done|done| |congruence]. rewrite Ho, Hp, take_take. eauto.
  - destruct Ho as [Ho Hroom]. specialize (IH (written + chunk) lim' w' ltac:(lia) ltac:(lia) Hi' Hk').
    assert (drop (Z.to_nat written) r = piece ++ drop (Z.to_nat (written + chunk)) r) as Hsplit.
    { rewrite Hp, Z2Nat.inj_add, <- drop_drop by lia. by rewrite take_drop. }
    destruct (write_chunks fuel buffer (len r) (written + chunk) lim' w') as [[w2 o2]|]; [|done].
    destruct IH as (IH1 & IH2 & IH3). rewrite Hsplit. split_and!; [congruence|done|]. destruct o2 as [l|e|]; [| |done].
    + destruct IH3 as (-> & ? & ?). rewrite Ho, app_assoc. split_and!; [done|done|tauto].
    + destruct IH3 as [[n ->] Hne]. split; [|tauto]. exists (length piece + n)%nat.
      rewrite Ho, <- app_assoc, take_app_add. done.
Qed.

Lemma copy_loop_spec reads fin buffer lim w total :
  Forall (fun r => 0 < len r ≤ len buffer) reads → inv lim → 0 ≤ total ≤ u64_max →
  (∀ k e, sk_room w = Some (k, e) → 0 ≤ k) →
  match copy_loop reads fin buffer lim w total with
  | None => ∃ l n, inv l ∧ 0 < n ≤ len buffer ∧ next_chunk l n = None
  | Some (w', Ret tot) =>
      sk_out w' = sk_out w ++ concat reads ∧ sk_shut w' = true ∧ fin = None ∧
      tot = Z.min u64_max (total + len (concat reads))
  | Some (w', Err e) =>
      (∃ n, sk_out w' = sk_out w ++ take n (concat reads)) ∧
      (sk_room w ≠ None ∨ (fin = Some e ∧ sk_out w' = sk_out w ++ concat reads))
  | Some (w', Panic) => False
  end.
Proof.
  revert buffer lim w total. induction reads as [|r reads IH]; intros buffer lim w total Hr Hi Ht Hk; cbn [copy_loop].
  { destruct fin as [e|]; cbn.
    - split; [|right; split; [done|]; by rewrite app_nil_r]. exists 0%nat. by rewrite app_nil_r.
    - unfold sink_shutdown. destruct (sk_room w) as [[[] e]|] eqn:Er; rewrite ?app_nil_r, ?len_nil; cbn; split_and!;
        rewrite ?app_nil_r; try done; try lia; [exists 0%nat; by rewrite app_nil_r|by left]. }
  apply Forall_cons in Hr as [Hr Hrs]. rewrite decide_False by lia.
  assert (blit buffer 0 r = r ++ drop (length r) buffer) as Hbl by done.
  assert (len (blit buffer 0 r) = len buffer) as Hlb by (unfold len in *; rewrite length_blit; lia).
  pose proof (write_chunks_spec (length r) (blit buffer 0 r) r (drop (length r) buffer) 0 lim w Hbl
    ltac:(lia) ltac:(unfold len; lia) Hi Hk) as Hw.
  destruct (write_chunks (length r) (blit buffer 0 r) (len r) 0 lim w) as [[w1 o1]|]; last first.
  { destruct Hw as (l & n & ? & ? & ?). exists l, n. split_and!; (done || lia). }
  destruct Hw as (Hsh & Hk1 & Ho1). change (Z.to_nat 0) with 0%nat in Ho1. rewrite drop_0 in Ho1. destruct o1 as [l1|e|]; [| |done].
  - destruct Ho1 as (Hout & Hi1 & Hroom). rewrite <- Hlb in Hrs.
    specialize (IH (blit buffer 0 r) l1 w1 (sat_add total (len r)) Hrs Hi1 ltac:(unfold sat_add; lia) Hk1).
    rewrite Hlb in IH.
    destruct (copy_loop reads fin (blit buffer 0 r) l1 w1 (sat_add total (len r))) as [[w2 [tot|e|]]|]; [| |done|done].
    + destruct IH as (-> & ? & ? & ->). cbn [concat]. rewrite Hout, <- app_assoc, len_app.
      split_and!; [done..|]. unfold sat_add. pose proof (len_nonneg (concat reads)). lia.
    + destruct IH as [[n Hn] Hor]. cbn [concat]. split.
      * exists (length r + n)%nat. rewrite Hn, Hout, take_app_add, app_assoc. done.
      * destruct Hor as [?|[? Hall]]; [left; tauto|right]. split; [done|]. by rewrite Hall, Hout, app_assoc.
  - destruct Ho1 as [[n Hn] Hne]. cbn [concat]. split; [|by left]. exists (Nat.min n (length r)).
    rewrite Hn, take_app_le by lia. f_equal. destruct (decide (n ≤ length r)%nat).
    + f_equal. lia.
    + rewrite !take_ge by lia. done.
Qed.
End relay.

(** The limiter under a clock. *)
Section clocked_laws.
Context (late : nat → Z) (patience : nat).

Lemma wait_for_chunk_bounds {E} delays now lim n :
  limiter_inv lim → 0 < n →
  ∃ o lim' now', wait_for_chunk (E:=E) delays now lim n = Ret (o, lim', now') ∧ limiter_inv lim' ∧
    rate_bytes_per_sec lim' = rate_bytes_per_sec lim ∧ ∀ g, o = Some g → 1 ≤ g ≤ n.
Proof.
  revert now lim. induction delays as [|delay delays IH]; intros now lim Hi Hn; cbn [wait_for_chunk]; rewrite decide_False by lia.
  { by exists None, lim, now. }
  assert (∀ d lim', take_stream_budget (E:=E) lim (now + delay) n = Ret (d, lim') → rate_bytes_per_sec lim' = rate_bytes_per_sec lim) as Hrate.
  { intros d lim'. unfold take_stream_budget. rewrite decide_False by lia. destruct (f64_ge _ _); [by intros [= _ <-]|].
    destruct (wait_duration _ _); [by intros [= _ <-]|done..]. }
  destruct (take_stream_budget_cases (E:=E) lim (now + delay) n Hi Hn) as [(g & lim' & Ht & Hg & _ & _ & Hi' & _)|(d & Ht & _ & _ & _ & Hi')];
    rewrite Ht; apply Hrate in Ht; cbn [mbind outcome_bind].
  - exists (Some g), lim', (now + delay). split_and!; try done. by intros ? [= <-].
  - destruct (IH (now + delay + d) _ Hi' Hn) as (o & lim2 & now2 & -> & ? & Hr2 & ?). exists o, lim2, now2. split_and!; [done|done|by rewrite Hr2|done].
Qed.

#[global] Instance clocked_source : ChunkSource clocked_limiter := clocked_next late patience.
#[global] Instance clocked_laws : ChunkSourceLaws clocked_limiter (fun l => limiter_inv (cl_limiter l)).
Proof.
  constructor. intros l n g l' Hi Hn. unfold next_chunk, clocked_source, clocked_next.
  destruct (wait_for_chunk_bounds (E:=unit) (map late (seq (cl_turn l) patience)) (cl_now l) (cl_limiter l) n Hi Hn)
    as (o & lim' & now' & -> & Hi' & _ & Ho).
  destruct o as [g'|]; [|done]. intros [= <- <-]. auto.
Qed.

(** At up to a byte in a nanosecond, the durations that the limiter computes
    are long enough: a wait ends within four looks. *)
Definition timely (l : clocked_limiter) : Prop := limiter_inv (cl_limiter l) ∧ rate_bytes_per_sec (cl_limiter l) ≤ MAX_TIMED_RATE.
Lemma timely_laws : ChunkSourceLaws clocked_limiter timely.
Proof.
  constructor. intros l n g l' [Hi Hr] Hn. unfold next_chunk, clocked_source, clocked_next.
  destruct (wait_for_chunk_bounds (E:=unit) (map late (seq (cl_turn l) patience)) (cl_now l) (cl_limiter l) n Hi Hn)
    as (o & lim' & now' & -> & Hi' & Hr' & Ho).
  destruct o as [g'|]; [|done]. intros [= <- <-]. split; [by apply Ho|]. split; [done|]. cbn. by rewrite Hr'.
Qed.
Lemma clocked_next_total l n :
  (∀ j, 0 ≤ late j) → (4 ≤ patience)%nat → timely l → 0 < n → clocked_next late patience l n ≠ None.
Proof.
  intros Hlate Hp [Hi Hr] Hn. unfold clocked_next.
  destruct (wait_for_chunk_served (E:=unit) (map late (seq (cl_turn l) patience)) (cl_now l) (cl_limiter l) n Hi Hr Hn) as (g & lim' & now' & ->);
    [|by rewrite length_map, length_seq|done]. apply Forall_map, Forall_forall. intros j _. apply Hlate.
Qed.
End clocked_laws.

(** What one direction of the relay promises, for any limiter that keeps
    serving. *)
Definition relay_ok (reads : list bytes) (fin : option io_error) (w : sink)
    (r : option (sink * outcome io_error Z)) : Prop :=
  ∃ w' o, r = Some (w', o) ∧
    (∃ n, sk_out w' = sk_out w ++ take n (concat reads)) ∧
    match o with
    | Ret total => sk_out w' = sk_out w ++ concat reads ∧ total = Z.min u64_max (len (concat reads)) ∧ sk_shut w' = true
    | Err e => sk_room w ≠ None ∨ fin = Some e
    | Panic => False
    end ∧
    (sk_room w = None → fin = None → ∃ total, o = Ret total).

Lemma copy_relay_ok {L} `{!ChunkSource L} (inv : L → Prop) `{!ChunkSourceLaws L inv} reads fin lim w :
  (∀ l n, inv l → 0 < n → next_chunk l n ≠ None) →
  Forall (fun r => 0 < len r ≤ RELAY_BUFFER_SIZE) reads → inv lim →
  (∀ k e, sk_room w = Some (k, e) → 0 ≤ k) →
  relay_ok reads fin w (copy_with_limit reads fin lim w).
Proof.
  intros Htot Hr Hi Hk. unfold copy_with_limit. set (buffer := replicate _ 0).
  assert (len buffer = RELAY_BUFFER_SIZE) as Hb by (unfold buffer; rewrite len_replicate; apply Z2Nat.id; unfold RELAY_BUFFER_SIZE; lia).
  clearbody buffer. rewrite <- Hb in Hr.
  pose proof (copy_loop_spec inv reads fin buffer lim w 0 Hr Hi ltac:(unfold u64_max; lia) Hk) as H.
  destruct (copy_loop reads fin buffer lim w 0) as [[w' [tot|e|]]|]; [| |done|].
  - destruct H as (H1 & H2 & H3 & H4). exists w', (Ret tot). split_and!; eauto.
    exists (length (concat reads)). by rewrite H1, firstn_all.
  - destruct H as [H1 H2]. exists w', (Err e). split_and!; try done; naive_solver.
  - destruct H as (l & n & Hl & Hn & Hnone). exfalso. eapply Htot; [exact Hl| |exact Hnone]. lia.
Qed.

(** ** The write half of [TcpProxyStream] *)

(** Its state: the limiter it shares, and the sleep it is waiting on. *)
Record TcpProxyStream := mkStream {
  st_limiter : option BandwidthLimiter;
  st_sleep : option Z
}.

Definition stream_new (tx_limiter : option BandwidthLimiter) : TcpProxyStream := mkStream tx_limiter None.

(** The loop of [poll_write] that asks for a budget: [instants] are the clock
    reads of its turns and [polls] what polling a sleep returns ([true] once
    it has elapsed). *)
Fixpoint budget_loop (instants : list Z) (polls : list bool) (lim : BandwidthLimiter) (n : Z)
    : outcome io_error (option Z * TcpProxyStream) :=
  match instants with
  | [] => Ret (None, mkStream (Some lim) None)
  | now :: instants =>
      '(decision, lim) ← take_stream_budget lim now n;
      match decision with
      | LimitReady granted => Ret (Some granted, mkStream (Some lim) None)
      | LimitWait d =>
          match polls with
          | true :: polls => budget_loop instants polls lim n
          | _ => Ret (None, mkStream (Some lim) (Some d))
          end
      end
  end.

(** [TcpProxyStream::poll_write]; [inner] is the QUIC stream's [poll_write]. *)
Definition poll_write (instants : list Z) (polls : list bool) (inner : bytes → poll (outcome io_error Z))
    (s : TcpProxyStream) (buf : bytes) : outcome io_error (poll (outcome io_error Z) * TcpProxyStream) :=
  match st_limiter s with
  | None => Ret (inner buf, s)
  | Some lim =>
      let '(waiting, polls) :=
        match st_sleep s with
        | None => (false, polls)
        | Some _ => match polls with true :: polls => (false, polls) | _ => (true, polls) end
        end in
      if waiting : bool then Ret (Pending, s)
      else
        '(granted, s) ← budget_loop instants polls lim (len buf);
        match granted with
        | None => Ret (Pending, s)
        | Some g => piece ← slice buf 0 g; Ret (inner piece, s)
        end
  end.

Lemma budget_loop_spec instants polls lim n :
  limiter_inv lim → 0 < n →
  ∃ g s lim', budget_loop instants polls lim n = Ret (g, s) ∧ st_limiter s = Some lim' ∧ limiter_inv lim' ∧
    ∀ k, g = Some k → 1 ≤ k ≤ n ∧ k ≤ MAX_WRITE_CHUNK.
Proof.
  revert polls lim. induction instants as [|now instants IH]; intros polls lim Hi Hn; cbn [budget_loop].
  { exists None, (mkStream (Some lim) None), lim. by split_and!. }
  destruct (take_stream_budget_cases (E:=io_error) lim now n Hi Hn)
    as [(g & lim' & -> & Hg & Hg' & _ & Hi' & _)|(d & -> & _ & _ & _ & Hi')]; cbn.
  - exists (Some g), (mkStream (Some lim') None), lim'. split_and!; try done. by intros ? [= <-].
  - destruct polls as [|[] polls]; [|by apply IH|]; do 3 eexists; by split_and!.
Qed.

(** ** Properties *)

(** The relay is a faithful copy. Whatever the sizes of the reads (up to
    its 64 KiB buffer) and however the limiter cuts them up, what the sink has
    received is always a prefix of what was read, in order; if neither side
    fails everything is forwarded, the sink is shut down after the last byte
    and the count (saturating) is returned; an error ends it with the error of
    the side that failed. It holds without a limiter, and with a limit of up to
    a byte in a nanosecond, whose waits last as long as the limiter computes or
    longer; and the loop terminates. *)
Theorem relay_copies_stream late patience reads fin l w :
  timely l → (∀ j, 0 ≤ late j) → (4 ≤ patience)%nat →
  Forall (fun r => 0 < len r ≤ RELAY_BUFFER_SIZE) reads → (∀ k e, sk_room w = Some (k, e) → 0 ≤ k) →
  relay_ok reads fin w (copy_with_limit (L:=unit) reads fin () w) ∧
  relay_ok reads fin w (copy_with_limit (ChunkSource0:=clocked_source late patience) reads fin l w).
Proof.
  intros Hi Hlate Hp Hr Hk. split.
  - by apply (copy_relay_ok (fun _ => True)).
  - apply (copy_relay_ok (ChunkSource0:=clocked_source late patience) timely (ChunkSourceLaws0:=timely_laws late patience)); try done.
    intros l' n Hl Hn. by apply clocked_next_total.
Qed.

Lemma relay_copies_stream_witness :
  relay_ok [str "hello"; str "world"] None (mkSink [] None false)
    (copy_with_limit (ChunkSource0:=clocked_source (fun _ => 0) 4)
       [str "hello"; str "world"] None (mkClocked (limiter_new 0 1000) 0 0) (mkSink [] None false)).
Proof.
  apply (relay_copies_stream (fun _ => 0) 4 [str "hello"; str "world"] None (mkClocked (limiter_new 0 1000) 0 0) (mkSink [] None false)).
  - split; [apply limiter_new_inv; by_decide|by_decide].
  - intros j. lia.
  - lia.
  - by_decide.
  - done.
Defined.

(** The limited write half never panics and writes a prefix. A poll with a
    non-empty buffer either is pending (a sleep has not elapsed, or a new one
    was started) or hands the QUIC stream a non-empty prefix of at most 64 KiB
    of the buffer, whose result it returns; without a limiter it hands over the
    whole buffer. While an earlier sleep is pending the bucket is not touched. *)
Theorem poll_write_prefix instants polls inner s lim buf :
  st_limiter s = Some lim → limiter_inv lim → 0 < len buf →
  poll_write instants polls inner (mkStream None (st_sleep s)) buf
    = Ret (inner buf, mkStream None (st_sleep s)) ∧
  (st_sleep s ≠ None → head polls ≠ Some true → poll_write instants polls inner s buf = Ret (Pending, s)) ∧
  ∃ r s' lim', poll_write instants polls inner s buf = Ret (r, s') ∧
    st_limiter s' = Some lim' ∧ limiter_inv lim' ∧
    (r = Pending ∨ ∃ k, (1 ≤ k ≤ length buf)%nat ∧ Z.of_nat k ≤ MAX_WRITE_CHUNK ∧ r = inner (take k buf)).
Proof.
  intros Hl Hi Hb. unfold poll_write. cbn [st_limiter]. rewrite Hl. split; [done|].
  assert (∀ polls, ∃ r s' lim',
    ('(granted, s) ← budget_loop instants polls lim (len buf);
     match granted with None => Ret (Pending, s) | Some g => piece ← slice buf 0 g; Ret (inner piece, s) end)
     = Ret (E:=io_error) (r, s') ∧ st_limiter s' = Some lim' ∧ limiter_inv lim' ∧
    (r = Pending ∨ ∃ k, (1 ≤ k ≤ length buf)%nat ∧ Z.of_nat k ≤ MAX_WRITE_CHUNK ∧ r = inner (take k buf))) as Hgo.
  { intros ps. destruct (budget_loop_spec instants ps lim (len buf) Hi Hb) as (g & s1 & lim' & -> & Hs & Hi' & Hg).
    cbn. destruct g as [g|]; [|do 3 eexists; split_and!; eauto]. destruct (Hg g eq_refl) as [H1 H2].
    rewrite slice_ok by lia. cbn. do 3 eexists. split_and!; [done|done|done|]. right.
    exists (Z.to_nat g). unfold len in H1. split_and!; [lia|lia|lia|]. by rewrite Z.sub_0_r, drop_0. }
  split.
  - intros Hs Hp. destruct (st_sleep s); [|done]. by destruct polls as [|[] polls].
  - destruct (st_sleep s); [|apply Hgo]. destruct polls as [|[] polls]; [|apply Hgo|]; exists Pending, s, lim; split_and!; auto.
Qed.

Lemma poll_write_prefix_witness :
  poll_write [] [false] (fun b => Ready (Ret (len b))) (mkStream (Some (limiter_new 0 1000)) (Some 5)) (str "x")
  = Ret (Pending, mkStream (Some (limiter_new 0 1000)) (Some 5)).
Proof.
  apply (poll_write_prefix [] [false] (fun b => Ready (Ret (len b)))
    (mkStream (Some (limiter_new 0 1000)) (Some 5)) (limiter_new 0 1000) (str "x")).
  - reflexivity.
  - apply limiter_new_inv. by_decide.
  - by_decide.
  - discriminate.
  - discriminate.
Defined.
