(* ===== verification/Duplex.v ===== *)
(** * Both directions of a relay ([core/src/relay.rs])

    [copy_bidirectional_with_limit] joins two copies. Each of them is a machine
    whose turns are the operations it waits for: a read, a grant of the limiter,
    a write, the shutdown. The turns of the two machines, the bytes that arrive
    and the other users of the limiters interleave in any order. *)
From S2P Require Import Prelude Float Limit Relay.
Local Open Scope Z_scope.

(** [Option<Arc<BandwidthLimiter>>]: what the relay is given. *)
#[global] Instance option_source {L} `{!ChunkSource L} : ChunkSource (option L) := fun l n =>
  match l with
  | None => Some (n, None)
  | Some l => match next_chunk l n with Some (g, l) => Some (g, Some l) | None => None end
  end.
#[global] Instance option_laws {L} `{!ChunkSource L} (inv : L → Prop) `{!ChunkSourceLaws L inv} :
  ChunkSourceLaws (option L) (fun l => ∀ l', l = Some l' → inv l').
Proof.
  constructor. intros [l|] n g l' Hi Hn; cbn; [|intros [= <- <-]; split; [lia|done]].
  destruct (next_chunk l n) as [[g' l2]|] eqn:E; [|done]. intros [= <- <-].
  destruct (next_chunk_bounds l n g' l2 (Hi l eq_refl) Hn E) as [? ?]. split; [done|]. by intros ? [= <-].
Qed.

(** ** State *)

(** What arrives at an end: all of it so far, how much of it was read, and how
    it ended if it did. *)
Record source := mkSource { so_arrived : bytes; so_read : nat; so_end : option (option io_error) }.
Definition unread (s : source) : bytes := drop (so_read s) (so_arrived s).

(** Where a copy is suspended. *)
Inductive pc :=
| PRead (total : Z)
| PWait (read written total : Z)
| PWrite (rest : bytes) (read written total : Z)
| PShutdown (total : Z)
| PDone (total : Z).

Section duplex.
Context {L : Type} `{!ChunkSource L}.

Record direction := mkDirection { d_pc : pc; d_limiter : L; d_buffer : bytes; d_source : source; d_sink : sink }.
Definition set_pc (p : pc) (d : direction) : direction := mkDirection p (d_limiter d) (d_buffer d) (d_source d) (d_sink d).
Definition set_limiter (l : L) (d : direction) : direction := mkDirection (d_pc d) l (d_buffer d) (d_source d) (d_sink d).
Definition set_source (s : source) (d : direction) : direction := mkDirection (d_pc d) (d_limiter d) (d_buffer d) s (d_sink d).
Definition set_sink (w : sink) (d : direction) : direction := mkDirection (d_pc d) (d_limiter d) (d_buffer d) (d_source d) w.

Definition direction_new (lim : L) (w : sink) : direction :=
  mkDirection (PRead 0) lim (replicate (Z.to_nat RELAY_BUFFER_SIZE) 0) (mkSource [] 0 None) w.

(** [reader.read(buffer)]: [k] bytes of what has arrived, nothing at the end of
    the stream, or its error, which may overtake what was not read. *)
Definition turn_read (k : nat) (total : Z) (d : direction) : option (direction * option (outcome io_error Z)) :=
  let s := d_source d in
  if decide (k = 0)%nat then
    match so_end s with
    | Some (Some e) => Some (d, Some (Err e))
    | Some None => if decide (unread s = []) then Some (set_pc (PShutdown total) d, None) else None
    | None => None
    end
  else if decide (k ≤ length (unread s) ∧ k ≤ length (d_buffer d))%nat then
    Some (mkDirection (PWait (Z.of_nat k) 0 total) (d_limiter d) (blit (d_buffer d) 0 (take k (unread s)))
            (mkSource (so_arrived s) (so_read s + k) (so_end s)) (d_sink d), None)
  else None.
(** The head of the inner loop, with its wait for the limiter. *)
Definition turn_wait (read written total : Z) (d : direction) : option (direction * option (outcome io_error Z)) :=
  if decide (written < read) then
    match next_chunk (d_limiter d) (read - written) with
    | None => None
    | Some (chunk, lim) =>
        match slice (E:=io_error) (d_buffer d) written (written + chunk) with
        | Ret piece => Some (set_pc (PWrite piece read (written + chunk) total) (set_limiter lim d), None)
        | _ => Some (d, Some Panic)
        end
    end
  else Some (set_pc (PRead (sat_add total read)) d, None).
(** [writer.write_all(piece)], of which [rest] is left: the writer takes [k]
    bytes, or fails. *)
Definition turn_write (k : nat) (rest : bytes) (read written total : Z) (d : direction)
    : option (direction * option (outcome io_error Z)) :=
  let w := d_sink d in
  if decide (rest = []) then Some (set_pc (PWait read written total) d, None)
  else if decide (0 < k ≤ length rest)%nat then
    match sink_write_all w (take k rest) with
    | (w, Some e) => Some (set_sink w d, Some (Err e))
    | (w, None) => Some (set_pc (PWrite (drop k rest) read written total) (set_sink w d), None)
    end
  else None.

(** A turn of one copy: [None] if it stays suspended; its result if it ends. *)
Definition poll_copy (k : nat) (d : direction) : option (direction * option (outcome io_error Z)) :=
  match d_pc d with
  | PRead total => turn_read k total d
  | PWait read written total => turn_wait read written total d
  | PWrite rest read written total => turn_write k rest read written total d
  | PShutdown total =>
      match sink_shutdown (d_sink d) with
      | (w, Some e) => Some (d, Some (Err e))
      | (w, None) => Some (set_pc (PDone total) (set_sink w d), Some (Ret total))
      end
  | PDone _ => None
  end.

Record duplex := mkDuplex { x_ab : direction; x_ba : direction; x_result : option (outcome io_error (Z * Z)) }.
Definition duplex_new (a_to_b_limiter b_to_a_limiter : L) (a b : sink) : duplex :=
  mkDuplex (direction_new a_to_b_limiter b) (direction_new b_to_a_limiter a) None.
Definition side (from_a : bool) (x : duplex) : direction := if from_a then x_ab x else x_ba x.
Definition set_side (from_a : bool) (d : direction) (x : duplex) : duplex :=
  if from_a then mkDuplex d (x_ba x) (x_result x) else mkDuplex (x_ab x) d (x_result x).
Definition set_result (r : option (outcome io_error (Z * Z))) (x : duplex) : duplex := mkDuplex (x_ab x) (x_ba x) r.
(** [try_join!]: the first error ends both, and both values end it. *)
Definition join (o : option (outcome io_error Z)) (x : duplex) : option (outcome io_error (Z * Z)) :=
  match o with
  | Some (Err e) => Some (Err e)
  | Some Panic => Some Panic
  | Some (Ret _) =>
      match d_pc (x_ab x), d_pc (x_ba x) with
      | PDone n, PDone m => Some (Ret (n, m))
      | _, _ => None
      end
  | None => None
  end.
Definition poll_duplex (from_a : bool) (k : nat) (x : duplex) : option duplex :=
  match x_result x with
  | Some _ => None
  | None =>
      '(d, o) ← poll_copy k (side from_a x);
      let x := set_side from_a d x in
      Some (set_result (join o x) x)
  end.

(** One step: a turn of a copy, or the world. [inv] is what every user of a
    limiter maintains. *)
Inductive duplex_step (inv : L → Prop) : duplex → duplex → Prop :=
| step_poll from_a k x x' : poll_duplex from_a k x = Some x' → duplex_step inv x x'
| step_arrive from_a b x s :
    d_source (side from_a x) = s → so_end s = None →
    duplex_step inv x (set_side from_a (set_source (mkSource (so_arrived s ++ b) (so_read s) None) (side from_a x)) x)
| step_end from_a o x s :
    d_source (side from_a x) = s → so_end s = None →
    duplex_step inv x (set_side from_a (set_source (mkSource (so_arrived s) (so_read s) (Some o)) (side from_a x)) x)
| step_limiter from_a l x : inv l → duplex_step inv x (set_side from_a (set_limiter l (side from_a x)) x).
End duplex.
Arguments direction L : clear implicits.
Arguments duplex L : clear implicits.

(** ** One copy *)

Section copy.
Context {L : Type} `{!ChunkSource L} (inv : L → Prop) `{!ChunkSourceLaws L inv}.
Implicit Types (d : direction L) (x : duplex L).

(** What a copy has read and not written. *)
Definition pending (d : direction L) : bytes :=
  match d_pc d with
  | PWait read written _ => drop (Z.to_nat written) (take (Z.to_nat read) (d_buffer d))
  | PWrite rest read written _ => rest ++ drop (Z.to_nat written) (take (Z.to_nat read) (d_buffer d))
  | _ => []
  end.
Definition counted (n : Z) : Z := Z.min u64_max n.
Definition sink_error (w : sink) : option io_error := snd <$> sk_room w.
Definition ended (s : source) : Prop := so_end s = Some None ∧ so_read s = length (so_arrived s).
Definition loop_ok (read written total : Z) (d : direction L) : Prop :=
  0 ≤ written ≤ read ∧ 0 < read ≤ RELAY_BUFFER_SIZE ∧ read ≤ Z.of_nat (so_read (d_source d)) ∧
  total = counted (Z.of_nat (so_read (d_source d)) - read) ∧ sk_shut (d_sink d) = false.
Record dir_ok (d : direction L) : Prop := mkDirOk {
  ok_limiter : inv (d_limiter d);
  ok_room : ∀ k e, sk_room (d_sink d) = Some (k, e) → 0 ≤ k;
  ok_buffer : len (d_buffer d) = RELAY_BUFFER_SIZE;
  ok_read : (so_read (d_source d) ≤ length (so_arrived (d_source d)))%nat;
  ok_data : sk_out (d_sink d) ++ pending d = take (so_read (d_source d)) (so_arrived (d_source d));
  ok_pc : match d_pc d with
    | PRead total => total = counted (Z.of_nat (so_read (d_source d))) ∧ sk_shut (d_sink d) = false
    | PWait read written total | PWrite _ read written total => loop_ok read written total d
    | PShutdown total =>
        total = counted (Z.of_nat (so_read (d_source d))) ∧ ended (d_source d) ∧ sk_shut (d_sink d) = false
    | PDone total =>
        total = counted (Z.of_nat (so_read (d_source d))) ∧ ended (d_source d) ∧ sk_shut (d_sink d) = true
    end
}.
(** What holds of a copy that was dropped too. *)
Definition side_ok (d : direction L) : Prop :=
  sk_out (d_sink d) `prefix_of` so_arrived (d_source d) ∧
  (sk_shut (d_sink d) = true → so_end (d_source d) = Some None ∧ sk_out (d_sink d) = so_arrived (d_source d)).

Lemma dir_new_ok lim w :
  inv lim → sk_out w = [] → sk_shut w = false → (∀ k e, sk_room w = Some (k, e) → 0 ≤ k) → dir_ok (direction_new lim w).
Proof.
  intros Hi Ho Hs Hr. unfold direction_new. set (buffer := replicate _ _).
  assert (len buffer = RELAY_BUFFER_SIZE) as Hb by apply len_replicate. clearbody buffer.
  split; cbn; rewrite ?Ho; done.
Qed.
Lemma dir_side_ok d : dir_ok d → side_ok d.
Proof.
  intros [_ _ _ Hr Hd Hp]. split.
  - exists (pending d ++ drop (so_read (d_source d)) (so_arrived (d_source d))). by rewrite app_assoc, Hd, take_drop.
  - intros Hs. unfold pending in Hd. destruct (d_pc d) as [|r wr t|rest r wr t| |]; unfold loop_ok, ended in Hp; rewrite Hs in Hp; try naive_solver.
    destruct Hp as (_ & [He Hn] & _). split; [done|]. by rewrite app_nil_r, Hn, firstn_all in Hd.
Qed.

Definition poll_result (d d' : direction L) (o : option (outcome io_error Z)) : Prop :=
  match o with
  | None => dir_ok d'
  | Some (Ret n) => dir_ok d' ∧ d_pc d' = PDone n
  | Some (Err e) => side_ok d' ∧ (so_end (d_source d) = Some (Some e) ∨ sink_error (d_sink d) = Some e)
  | Some Panic => False
  end.
Definition same_world (d d' : direction L) : Prop :=
  so_arrived (d_source d') = so_arrived (d_source d) ∧ so_end (d_source d') = so_end (d_source d) ∧ sink_error (d_sink d') = sink_error (d_sink d).

Lemma turn_read_ok k total d d' o :
  dir_ok d → d_pc d = PRead total → turn_read k total d = Some (d', o) → same_world d d' ∧ poll_result d d' o.
Proof.
  intros Hok Hpc. assert (Hs := dir_side_ok d Hok). destruct Hok as [Hi Hr Hb Hrd Hd Hp]. unfold pending in Hd. rewrite Hpc in Hd, Hp.
  destruct Hp as [-> Hsh]. unfold turn_read. case_decide as Hk.
  - destruct (so_end (d_source d)) as [[e|]|] eqn:He; [| |done].
    + intros [= <- <-]. split; [done|]. split; [done|by left].
    + case_decide as Hu; [|done]. intros [= <- <-]. split; [done|]. split; try done. cbn. split_and!; [done| |done].
      split; [done|]. unfold unread in Hu. apply (f_equal length) in Hu. rewrite length_drop in Hu. cbn in Hu. lia.
  - case_decide as Hle; [|done]. destruct Hle as [Hle Hlb]. intros [= <- <-]. split; [done|].
    assert (length (unread (d_source d)) = length (so_arrived (d_source d)) - so_read (d_source d))%nat as Hlu by apply length_drop.
    assert (take k (blit (d_buffer d) 0 (take k (unread (d_source d)))) = take k (unread (d_source d))) as Hblit.
    { change (blit (d_buffer d) 0 ?r) with (r ++ drop (length r) (d_buffer d)).
      rewrite take_app_le by (rewrite length_take; lia). by rewrite take_take, Nat.min_id. }
    split; cbn; try done.
    + unfold len in *. rewrite length_blit; [done|]. rewrite length_take. lia.
    + lia.
    + unfold pending. cbn. rewrite Nat2Z.id, drop_0, Hblit. rewrite app_nil_r in Hd. rewrite Hd. unfold unread.
      rewrite take_take_drop. done.
    + unfold loop_ok. cbn. unfold len in Hb. split_and!; try done; try lia. f_equal. lia.
Qed.

Lemma turn_wait_ok read written total d d' o :
  dir_ok d → d_pc d = PWait read written total → turn_wait read written total d = Some (d', o) → same_world d d' ∧ poll_result d d' o.
Proof.
  intros [Hi Hr Hb Hrd Hd Hp] Hpc. unfold pending in Hd. rewrite Hpc in Hd, Hp.
  destruct Hp as (Hw & Hrb & Hrs & Ht & Hsh). unfold turn_wait. case_decide as Hlt.
  - destruct (next_chunk (d_limiter d) (read - written)) as [[chunk l]|] eqn:Hn; [|done].
    destruct (next_chunk_bounds (d_limiter d) (read - written) chunk l Hi ltac:(lia) Hn) as [Hc Hi'].
    rewrite slice_ok by lia. intros [= <- <-]. split; [done|]. split; try done; [|unfold loop_ok; cbn; split_and!; (done || lia)].
    unfold pending. cbn [d_pc set_pc set_limiter d_buffer d_sink d_source]. rewrite <- Hd. f_equal.
    rewrite <- (take_drop (Z.to_nat chunk) (drop (Z.to_nat written) (take (Z.to_nat read) (d_buffer d)))). f_equal.
    + rewrite !take_drop_commute, take_take. do 2 f_equal. lia.
    + rewrite drop_drop. f_equal. lia.
  - intros [= <- <-]. split; [done|]. split; try done.
    + unfold pending. cbn. rewrite app_nil_r, <- Hd. rewrite drop_ge by (rewrite length_take; lia). by rewrite app_nil_r.
    + cbn. split; [|done]. rewrite Ht. unfold sat_add, counted. lia.
Qed.

Lemma turn_write_ok k rest read written total d d' o :
  dir_ok d → d_pc d = PWrite rest read written total → turn_write k rest read written total d = Some (d', o) →
  same_world d d' ∧ poll_result d d' o.
Proof.
  intros Hok Hpc. destruct Hok as [Hi Hr Hb Hrd Hd Hp]. unfold pending in Hd. rewrite Hpc in Hd, Hp. assert (Hp' := Hp).
  destruct Hp as (Hw & Hrb & Hrs & Ht & Hsh). unfold turn_write. case_decide as Hnil.
  { intros [= <- <-]. split; [done|]. split; try done. subst rest. done. }
  case_decide as Hk; [|done]. destruct (sink_write_all (d_sink d) (take k rest)) as [w oe] eqn:Hs.
  assert (sink_error w = sink_error (d_sink d)) as Hse.
  { revert Hs. unfold sink_write_all, sink_error. destruct (sk_room (d_sink d)) as [[? ?]|]; [case_decide|]; intros [= <- <-]; done. }
  apply sink_write_spec in Hs as (Hr' & Hsh' & Ho); [|done]. destruct oe as [e|]; intros [= <- <-]; (split; [split_and!; [done|done|exact Hse]|]).
  - destruct Ho as [[n Ho] [k' Hroom]]. split; [|right; unfold sink_error; by rewrite Hroom]. split; cbn; [|congruence].
    rewrite Ho, take_take. exists (drop (Nat.min n k) rest ++ drop (Z.to_nat written) (take (Z.to_nat read) (d_buffer d)) ++ drop (so_read (d_source d)) (so_arrived (d_source d))).
    rewrite <- !app_assoc, (app_assoc (take _ rest)), take_drop, (app_assoc rest), (app_assoc (sk_out _)), Hd. symmetry. apply take_drop.
  - destruct Ho as [Ho _]. split; try done; cbn.
    + unfold pending. cbn. rewrite Ho, <- app_assoc, (app_assoc (take k rest)), take_drop. done.
    + unfold loop_ok. cbn. rewrite Hsh'. split_and!; (done || lia).
Qed.

Lemma poll_copy_ok k d d' o : dir_ok d → poll_copy k d = Some (d', o) → same_world d d' ∧ poll_result d d' o.
Proof.
  intros Hok. unfold poll_copy. destruct (d_pc d) as [total|read written total|rest read written total|total|total] eqn:Hpc.
  - by apply turn_read_ok.
  - by apply turn_wait_ok.
  - by apply turn_write_ok.
  - assert (Hs := dir_side_ok d Hok). destruct Hok as [Hi Hr Hb Hrd Hd Hp]. unfold pending in Hd. rewrite Hpc in Hd, Hp. unfold sink_shutdown.
    destruct (sk_room (d_sink d)) as [[z e]|] eqn:Er; [destruct (decide (z = 0)) as [->|Hz]|].
    1: { intros [= <- <-]. split; [done|]. split; [done|]. right. unfold sink_error. by rewrite Er. }
    1: replace (match z with 0 => _ | _ => _ end) with (mkSink (sk_out (d_sink d)) (Some (z, e)) true, @None io_error) by (by destruct z).
    all: intros [= <- <-]; (split; [split_and!; [done|done|]; unfold sink_error; cbn; by rewrite Er|]).
    all: split; [|done]; split; try done; cbn; try (rewrite <- Er; done); naive_solver.
  - done.
Qed.
End copy.

(** ** Both copies *)

Section both.
Context {L : Type} `{!ChunkSource L} (inv : L → Prop) `{!ChunkSourceLaws L inv}.
Implicit Types (d : direction L) (x : duplex L).

Definition caused (e : io_error) (d : direction L) : Prop :=
  so_end (d_source d) = Some (Some e) ∨ sink_error (d_sink d) = Some e.
Definition duplex_ok (x : duplex L) : Prop :=
  match x_result x with
  | None => dir_ok inv (x_ab x) ∧ dir_ok inv (x_ba x) ∧ ∀ n m, ¬ (d_pc (x_ab x) = PDone n ∧ d_pc (x_ba x) = PDone m)
  | Some (Ret (n, m)) => dir_ok inv (x_ab x) ∧ dir_ok inv (x_ba x) ∧ d_pc (x_ab x) = PDone n ∧ d_pc (x_ba x) = PDone m
  | Some (Err e) => side_ok (x_ab x) ∧ side_ok (x_ba x) ∧ (caused e (x_ab x) ∨ caused e (x_ba x))
  | Some Panic => False
  end.

Lemma side_set from_a d x : side from_a (set_side from_a d x) = d.
Proof. by destruct from_a. Qed.
Lemma side_set_other from_a d x : side (negb from_a) (set_side from_a d x) = side (negb from_a) x.
Proof. by destruct from_a. Qed.
Lemma ok_side from_a x : x_result x = None → duplex_ok x → dir_ok inv (side from_a x).
Proof. unfold duplex_ok. intros ->. destruct from_a; naive_solver. Qed.
(** Only a copy that returns becomes done. *)
Lemma poll_not_done k d d' n : poll_copy k d = Some (d', None) → d_pc d' ≠ PDone n.
Proof.
  unfold poll_copy, turn_read, turn_wait, turn_write. intros H ?.
  repeat (case_match || case_decide || done); simplify_eq; naive_solver.
Qed.

Lemma poll_duplex_ok from_a k x x' : duplex_ok x → poll_duplex from_a k x = Some x' → duplex_ok x'.
Proof.
  unfold poll_duplex. intros Hok. destruct (x_result x) eqn:Hres; [done|].
  destruct (poll_copy k (side from_a x)) as [[d o]|] eqn:Hp; [|done]. cbn. intros [= <-].
  destruct (poll_copy_ok inv k _ _ _ (ok_side from_a x Hres Hok) Hp) as [(Ha & He & Hs) Hr].
  unfold duplex_ok in Hok. rewrite Hres in Hok. destruct Hok as (H1 & H2 & H3). unfold duplex_ok, join.
  destruct o as [[n|e|]|]; cbn in Hr |- *; [| |done|].
  - destruct Hr as [Hd Hpc]. destruct from_a; cbn in *; rewrite Hpc.
    + destruct (d_pc (x_ba x)) eqn:E; cbn; by rewrite ?Hpc; split_and!; try (intros ??; rewrite ?E; naive_solver).
    + destruct (d_pc (x_ab x)) eqn:E; cbn; by rewrite ?Hpc; split_and!; try (intros ??; rewrite ?E; naive_solver).
  - destruct Hr as [Hd Hc].
    destruct from_a; cbn in *; unfold caused; rewrite ?He, ?Hs; split_and!; auto; by apply (dir_side_ok inv).
  - pose proof (fun n => poll_not_done k _ _ n Hp). destruct from_a; cbn in *; split_and!; naive_solver.
Qed.

(** The world changes the source of a side. *)
Lemma dir_ok_world d s :
  (∃ b, so_arrived s = so_arrived (d_source d) ++ b) → so_read s = so_read (d_source d) → so_end (d_source d) = None →
  dir_ok inv d → dir_ok inv (set_source s d).
Proof.
  intros [b Ha] Hn He [Hi Hr Hb Hrd Hd Hp]. split; cbn; rewrite ?Ha, ?Hn; try done.
  - rewrite length_app. lia.
  - by rewrite take_app_le.
  - unfold loop_ok, ended in *. cbn. rewrite Hn. destruct (d_pc d); try done; rewrite He in Hp; naive_solver.
Qed.
Lemma side_ok_world d s :
  (∃ b, so_arrived s = so_arrived (d_source d) ++ b) → so_end (d_source d) = None → side_ok d → side_ok (set_source s d).
Proof.
  intros [b Ha] He [H1 H2]. split; cbn; rewrite ?Ha; [by apply prefix_app_r|]. intros Hs. destruct (H2 Hs). congruence.
Qed.

(** A change of one side that keeps what is known of it. *)
Lemma duplex_ok_side from_a d x :
  duplex_ok x → d_pc d = d_pc (side from_a x) → (dir_ok inv (side from_a x) → dir_ok inv d) → (side_ok (side from_a x) → side_ok d) →
  (∀ e, caused e (side from_a x) → caused e d) → duplex_ok (set_side from_a d x).
Proof.
  unfold duplex_ok. intros Hok Hpc H1 H2 H3. destruct from_a; cbn in *; rewrite Hpc; destruct (x_result x) as [[[n m]|e|]|]; naive_solver.
Qed.
Lemma duplex_step_ok x x' : duplex_ok x → duplex_step inv x x' → duplex_ok x'.
Proof.
  intros Hok H. destruct H as [from_a k x x' Hp|from_a b x s Hs He|from_a o x s Hs He|from_a l x Hl].
  - by eapply poll_duplex_ok.
  - subst s. apply duplex_ok_side; try done; [apply dir_ok_world|apply side_ok_world|]; cbn; eauto.
    intros e [?|?]; [congruence|by right].
  - subst s. apply duplex_ok_side; try done; [apply dir_ok_world|apply side_ok_world|]; cbn; try (exists []; by rewrite app_nil_r); eauto.
    intros e [?|?]; [congruence|by right].
  - apply duplex_ok_side; try done. intros [Hi Hr Hb Hrd Hd Hp]. by split.
Qed.
Definition fresh_sink (w : sink) : Prop := sk_out w = [] ∧ sk_shut w = false ∧ ∀ k e, sk_room w = Some (k, e) → 0 ≤ k.
Lemma duplex_reachable_ok la lb a b x :
  inv la → inv lb → fresh_sink a → fresh_sink b → rtc (duplex_step inv) (duplex_new la lb a b) x → duplex_ok x.
Proof.
  intros Hla Hlb (Ha1 & Ha2 & Ha3) (Hb1 & Hb2 & Hb3). intros H.
  assert (duplex_ok (duplex_new la lb a b)) as Hok.
  { unfold duplex_ok. cbn -[direction_new]. split_and!; [by apply dir_new_ok|by apply dir_new_ok|]. by intros n m [[=] _]. }
  revert Hok. induction H; eauto using duplex_step_ok.
Qed.

(** ** Progress *)

Definition room_for (d : direction L) : nat := length (unread (d_source d)).
(** The turns a copy can still take on what has arrived. *)
Definition turns_left (d : direction L) : nat :=
  match d_pc d with
  | PRead _ => 6 * room_for d + 3
  | PWait read written _ => 6 * room_for d + 4 * Z.to_nat (read - written) + 4
  | PWrite rest read written _ => 6 * room_for d + 4 * Z.to_nat (read - written) + 2 * length rest + 5
  | PShutdown _ => 6 * room_for d + 1
  | PDone _ => 0
  end.
Lemma poll_turns k d d' o : dir_ok inv d → poll_copy k d = Some (d', o) → (∀ e, o ≠ Some (Err e)) → (turns_left d' < turns_left d)%nat.
Proof.
  intros Hok H Hne. destruct (poll_copy_ok inv k d d' o Hok H) as [_ Hpr]. revert H. destruct Hok as [Hi Hr Hb Hrd Hd Hp].
  unfold turns_left, room_for, poll_copy in *. destruct (d_pc d) as [total|read written total|rest read written total|total|total] eqn:Hpc.
  - unfold turn_read. case_decide.
    { destruct (so_end (d_source d)) as [[e|]|]; [intros [= <- <-]; by destruct (Hne e)| |done].
      case_decide; [|done]. intros [= <- <-]. cbn [d_pc d_source set_pc]. lia. }
    case_decide; [|done]. intros [= <- <-]. cbn [d_pc d_source]. unfold unread in *. cbn [so_read so_arrived]. rewrite !length_drop in *. lia.
  - unfold turn_wait. case_decide; [|intros [= <- <-]; cbn; lia].
    destruct (next_chunk (d_limiter d) (read - written)) as [[chunk l]|] eqn:Hn; [|done].
    destruct (next_chunk_bounds (d_limiter d) (read - written) chunk l Hi ltac:(lia) Hn) as [Hc _]. destruct Hp as (Hw & Hrb & _).
    rewrite slice_ok by lia. intros [= <- <-]. cbn. rewrite length_take, length_drop. unfold len in Hb. lia.
  - unfold turn_write. case_decide; [intros [= <- <-]; cbn; subst; cbn; lia|]. case_decide; [|done].
    destruct (sink_write_all _ _) as [w [e|]]; intros [= <- <-]; [by destruct (Hne e)|]. cbn. rewrite length_drop. lia.
  - destruct (sink_shutdown _) as [w [e|]]; intros [= <- <-]; [by destruct (Hne e)|]. cbn. lia.
  - done.
Qed.

(** A copy that cannot take a turn has delivered what has arrived. *)
Lemma suspended d :
  (∀ l n, inv l → 0 < n → next_chunk l n ≠ None) → dir_ok inv d → (∀ k, poll_copy k d = None) →
  sk_out (d_sink d) = so_arrived (d_source d) ∧ ((∃ n, d_pc d = PDone n) ∨ so_end (d_source d) = None).
Proof.
  intros Hserve Hok Hstuck. assert (Hside := dir_side_ok inv d Hok). destruct Hok as [Hi Hr Hb Hrd Hd Hp]. unfold pending in Hd.
  unfold poll_copy in Hstuck. destruct (d_pc d) as [total|read written total|rest read written total|total|total] eqn:Hpc.
  - assert (unread (d_source d) = []) as Hu.
    { destruct (unread (d_source d)) eqn:E; [done|]. specialize (Hstuck 1%nat). unfold turn_read in Hstuck.
      rewrite decide_False, decide_True in Hstuck by (rewrite ?E; unfold len, RELAY_BUFFER_SIZE in *; cbn; lia). done. }
    specialize (Hstuck 0%nat). unfold turn_read in Hstuck. rewrite decide_True in Hstuck by done.
    unfold unread in Hu. apply (f_equal length) in Hu. rewrite length_drop in Hu. cbn in Hu.
    rewrite app_nil_r, take_ge in Hd by lia. split; [done|right].
    destruct (so_end (d_source d)) as [[e|]|]; [done| |done]. rewrite decide_True in Hstuck; [done|].
    apply nil_length_inv. unfold unread. rewrite length_drop. lia.
  - exfalso. specialize (Hstuck 0%nat). unfold turn_wait in Hstuck. case_decide; [|done].
    destruct (next_chunk (d_limiter d) (read - written)) as [[chunk l]|] eqn:Hn; [|by eapply Hserve; [| |exact Hn]; [|lia]].
    by destruct (slice _ _ _).
  - exfalso. specialize (Hstuck 1%nat). unfold turn_write in Hstuck. case_decide; [done|].
    rewrite decide_True in Hstuck by (destruct rest; cbn; [done|lia]). by destruct (sink_write_all _ _) as [w [e|]].
  - exfalso. specialize (Hstuck 0%nat). by destruct (sink_shutdown _) as [w [e|]].
  - destruct Hp as (_ & [He Hn] & Hs). split; [by apply Hside|eauto].
Qed.

(** A turn of either copy. *)
Definition duplex_poll (x y : duplex L) : Prop := ∃ from_a k, poll_duplex from_a k x = Some y.
Lemma duplex_poll_ok x y : duplex_ok x → duplex_poll x y → duplex_ok y.
Proof. intros Hok (from_a & k & H). by eapply poll_duplex_ok. Qed.
Lemma duplex_poll_world x y : duplex_ok x → duplex_poll x y → ∀ from_a, same_world (side from_a x) (side from_a y).
Proof.
  intros Hok (from_a & k & H) b. unfold poll_duplex in H. destruct (x_result x) eqn:Hres; [done|].
  destruct (poll_copy k (side from_a x)) as [[d o]|] eqn:Hp; [|done]. injection H as <-.
  destruct (poll_copy_ok inv k _ _ _ (ok_side from_a x Hres Hok) Hp) as [Hw _]. by destruct from_a, b.
Qed.
Lemma duplex_polls x y : duplex_ok x → rtc duplex_poll x y → duplex_ok y ∧ ∀ from_a, same_world (side from_a x) (side from_a y).
Proof.
  intros Hok H. induction H as [x|x y z Hp _ IH]; [done|]. destruct IH as [Hz Hw]; [by eapply duplex_poll_ok|]. split; [done|].
  intros b. destruct (Hw b) as (? & ? & ?), (duplex_poll_world x y Hok Hp b) as (? & ? & ?). split_and!; congruence.
Qed.
Lemma duplex_turns n x y : duplex_ok x → nsteps duplex_poll n x y → (n ≤ turns_left (x_ab x) + turns_left (x_ba x) + 1)%nat.
Proof.
  revert x. induction n as [|n IH]; intros x Hok H; [lia|]. inversion H as [|n' x0 x1 y0 Hp Hn]; subst.
  specialize (IH x1 (duplex_poll_ok x x1 Hok Hp) Hn). destruct Hp as (from_a & k & Hp). unfold poll_duplex in Hp.
  destruct (x_result x) eqn:Hres; [done|]. destruct (poll_copy k (side from_a x)) as [[d o]|] eqn:Hc; [|done]. injection Hp as <-.
  assert ((∃ e, o = Some (Err e)) ∨ ∀ e, o ≠ Some (Err e)) as [[e ->]|Hne] by (destruct o as [[]|]; naive_solver).
  { inversion Hn as [|n' x0 x1 y0 (b & j & Hp') _]; subst; [lia|]. by destruct from_a. }
  pose proof (poll_turns k _ _ _ (ok_side from_a x Hres Hok) Hc Hne). destruct from_a; cbn in *; lia.
Qed.
Lemma duplex_stuck y :
  (∀ l n, inv l → 0 < n → next_chunk l n ≠ None) → duplex_ok y → (∀ z, ¬ duplex_poll y z) → x_result y = None →
  (∀ from_a, sk_out (d_sink (side from_a y)) = so_arrived (d_source (side from_a y))) ∧
  ∃ from_a, so_end (d_source (side from_a y)) = None.
Proof.
  intros Hserve Hok Hstuck Hres.
  assert (∀ b, sk_out (d_sink (side b y)) = so_arrived (d_source (side b y)) ∧
    ((∃ n, d_pc (side b y) = PDone n) ∨ so_end (d_source (side b y)) = None)) as Hs.
  { intros b. apply suspended; [done|by apply ok_side|]. intros k. destruct (poll_copy k (side b y)) as [[d o]|] eqn:E; [|done].
    exfalso. eapply Hstuck. exists b, k. unfold poll_duplex. by rewrite Hres, E. }
  split; [intros b; apply Hs|]. unfold duplex_ok in Hok. rewrite Hres in Hok. destruct Hok as (_ & _ & Hnd).
  destruct (Hs true) as [_ [[n Hn]|?]]; [|by exists true]. destruct (Hs false) as [_ [[m Hm]|?]]; [|by exists false]. by destruct (Hnd n m).
Qed.
End both.

(** ** The loop is a schedule of the machine *)

Section schedule.
Context {L : Type} `{!ChunkSource L} (inv : L → Prop) `{!ChunkSourceLaws L inv}.
Fixpoint run_copy (ks : list nat) (d : direction L) : option (direction L * option (outcome io_error Z)) :=
  match ks with
  | [] => Some (d, None)
  | k :: ks => match poll_copy k d with Some (d, None) => run_copy ks d | r => r end
  end.
Lemma run_copy_app ks ks' d d1 : run_copy ks d = Some (d1, None) → run_copy (ks ++ ks') d = run_copy ks' d1.
Proof.
  revert d. induction ks as [|k ks IH]; intros d; cbn; [by intros [= <-]|].
  destruct (poll_copy k d) as [[d2 [o|]]|]; [done|apply IH|done].
Qed.

Lemma write_chunks_schedule fuel buffer read written lim w s total w' o :
  len buffer = RELAY_BUFFER_SIZE → 0 ≤ written ≤ read → read ≤ RELAY_BUFFER_SIZE → (Z.to_nat (read - written) ≤ fuel)%nat → inv lim →
  write_chunks fuel buffer read written lim w = Some (w', o) →
  ∃ ks d', run_copy ks (mkDirection (PWait read written total) lim buffer s w) = Some (d', match o with Ret _ => None | Err e => Some (Err e) | Panic => Some Panic end) ∧
    match o with
    | Ret lim' => inv lim' ∧ d' = mkDirection (PRead (sat_add total read)) lim' buffer s w'
    | _ => d_sink d' = w'
    end.
Proof.
  intros Hb. revert written lim w. induction fuel as [|fuel IH]; intros written lim w Hw Hr Hf Hi; cbn [write_chunks].
  { intros [= <- <-]. eexists [0%nat], _. cbn. unfold turn_wait. rewrite decide_False by lia. by split. }
  case_decide as Hlt.
  2: { intros [= <- <-]. eexists [0%nat], _. cbn. unfold turn_wait. rewrite decide_False by lia. by split. }
  destruct (next_chunk lim (read - written)) as [[chunk l]|] eqn:Hn; [|done].
  destruct (next_chunk_bounds lim (read - written) chunk l Hi ltac:(lia) Hn) as [Hc Hi']. rewrite slice_ok by lia.
  set (piece := take _ _). assert (length piece = Z.to_nat chunk) as Hp.
  { unfold piece. rewrite length_take, length_drop. unfold len in Hb. lia. }
  set (d1 := mkDirection (PWrite piece read (written + chunk) total) l buffer s w).
  assert (poll_copy 0 (mkDirection (PWait read written total) lim buffer s w) = Some (d1, None)) as E1.
  { cbn. unfold turn_wait. rewrite decide_True by done. cbn [d_limiter d_buffer]. by rewrite Hn, slice_ok by lia. }
  assert (poll_copy (length piece) d1 = match sink_write_all w piece with
    | (w, Some e) => Some (set_sink w d1, Some (Err e))
    | (w, None) => Some (set_pc (PWrite [] read (written + chunk) total) (set_sink w d1), None) end) as E2.
  { cbn. unfold turn_write. rewrite decide_False by (intros ->; cbn in Hp; lia). rewrite decide_True by lia. cbn [d_sink d1].
    by rewrite firstn_all, drop_all. }
  destruct (sink_write_all w piece) as [w1 [e|]].
  - intros [= <- <-]. exists [0%nat; length piece], (set_sink w1 d1). cbn [run_copy]. by rewrite E1, E2.
  - intros H. destruct (IH (written + chunk) l w1 ltac:(lia) Hr ltac:(lia) Hi' H) as (ks & d' & Hrun & Hd).
    exists (0%nat :: length piece :: 0%nat :: ks), d'. cbn [run_copy]. by rewrite E1, E2.
Qed.

(** Everything [copy_with_limit] does with reads it is given is a run of the
    machine on a stream of the same bytes. *)
Lemma copy_loop_schedule reads fin buffer lim w arrived n total w' o :
  len buffer = RELAY_BUFFER_SIZE → Forall (fun r => 0 < len r ≤ RELAY_BUFFER_SIZE) reads → inv lim → drop n arrived = concat reads →
  copy_loop reads fin buffer lim w total = Some (w', o) →
  ∃ ks d', run_copy ks (mkDirection (PRead total) lim buffer (mkSource arrived n (Some fin)) w) = Some (d', Some o) ∧ d_sink d' = w'.
Proof.
  revert buffer lim w n total. induction reads as [|r reads IH]; intros buffer lim w n total Hb Hr Hi Ha; cbn [copy_loop].
  - destruct fin as [e|].
    + intros [= <- <-]. by eexists [0%nat], _.
    + intros H. exists [0%nat; 0%nat]. cbn -[sink_shutdown turn_read]. unfold turn_read, unread. cbn -[sink_shutdown]. rewrite Ha, !decide_True by done.
      cbn -[sink_shutdown]. destruct (sink_shutdown w) as [w1 [e|]] eqn:Es; injection H as <- <-; (eexists; split; [done|]); [|done].
      cbn. revert Es. unfold sink_shutdown. repeat case_match; by intros [= <-].
  - apply Forall_cons in Hr as [Hr Hrs]. rewrite decide_False by lia.
    assert (len (blit buffer 0 r) = len buffer) as Hlb by (unfold len in *; rewrite length_blit; lia). rewrite <- Hlb in Hb.
    destruct (write_chunks (length r) (blit buffer 0 r) (len r) 0 lim w) as [[w1 o1]|] eqn:Hw; [|done].
    set (s := mkSource arrived (n + length r) (Some fin)).
    destruct (write_chunks_schedule (length r) (blit buffer 0 r) (len r) 0 lim w s total w1 o1) as (ks & d1 & Hrun & Hd);
      [done|lia|lia|unfold len; lia|done|done|].
    set (d0 := mkDirection (PWait (len r) 0 total) lim (blit buffer 0 r) s w) in *.
    assert (poll_copy (length r) (mkDirection (PRead total) lim buffer (mkSource arrived n (Some fin)) w) = Some (d0, None)) as E0.
    { cbn. unfold turn_read, unread. cbn [d_source so_arrived so_read d_buffer d_limiter d_sink so_end]. rewrite Ha. cbn [concat].
      unfold len in *. rewrite decide_False, decide_True by (rewrite ?length_app; lia). by rewrite take_app_length. }
    destruct o1 as [l1|e|].
    + destruct Hd as [Hi1 ->]. intros H. destruct (IH (blit buffer 0 r) l1 w1 (n + length r)%nat (sat_add total (len r))) as (ks' & d' & Hrun' & Hd');
        [done|done|done|by rewrite <- drop_drop, Ha; cbn; rewrite drop_app_length|done|].
      exists (length r :: ks ++ ks'), d'. cbn [run_copy]. rewrite E0. by rewrite (run_copy_app _ _ _ _ Hrun).
    + intros [= <- <-]. exists (length r :: ks), d1. cbn [run_copy]. by rewrite E0.
    + intros [= <- <-]. exists (length r :: ks), d1. cbn [run_copy]. by rewrite E0.
Qed.
End schedule.

(** ** Properties *)

(** The limiters of the program: none, or a token bucket under a clock. *)
Section program.
Context (late : nat → Z) (patience : nat).
#[local] Existing Instance clocked_source.
#[local] Existing Instance clocked_laws.
Definition limiter_ok (l : option clocked_limiter) : Prop := ∀ l', l = Some l' → limiter_inv (cl_limiter l').
Definition limited_source : ChunkSource (option clocked_limiter) := @option_source _ (clocked_source late patience).
#[local] Existing Instance limited_source.
#[local] Instance limited_laws : ChunkSourceLaws (option clocked_limiter) limiter_ok :=
  @option_laws _ (clocked_source late patience) _ (clocked_laws late patience).
(** Those whose computed waits are long enough. *)
Definition limiter_timely (l : option clocked_limiter) : Prop := ∀ l', l = Some l' → timely l'.
Lemma limited_timely_laws : ChunkSourceLaws (option clocked_limiter) limiter_timely.
Proof. exact (@option_laws _ (clocked_source late patience) _ (timely_laws late patience)). Qed.
Lemma limited_serves l n :
  (∀ j, 0 ≤ late j) → (4 ≤ patience)%nat → limiter_timely l → 0 < n → next_chunk l n ≠ None.
Proof.
  intros Hlate Hp Hl Hn. destruct l as [l|]; [|done]. unfold next_chunk, limited_source, option_source.
  pose proof (clocked_next_total late patience l n Hlate Hp (Hl l eq_refl) Hn) as H.
  unfold next_chunk, clocked_source. by destruct (clocked_next late patience l n) as [[]|].
Qed.

(** C33: a relay never mixes, loses or invents bytes. In every interleaving of the
    two copies with arrivals, ends and errors of both streams and with the other
    users of the limiters: what was written to an end is a prefix of what
    arrived at the other; an end is shut down only after everything that
    arrived at the other, whose stream has ended, was written; the relay
    returns the two counts only when both ends are shut down; it fails only
    with an error that one of the streams gave; and it does not panic. *)
Theorem duplex_relays la lb a b x :
  limiter_ok la → limiter_ok lb → fresh_sink a → fresh_sink b → rtc (duplex_step limiter_ok) (duplex_new la lb a b) x →
  (∀ from_a, sk_out (d_sink (side from_a x)) `prefix_of` so_arrived (d_source (side from_a x)) ∧
     (sk_shut (d_sink (side from_a x)) = true →
        so_end (d_source (side from_a x)) = Some None ∧ sk_out (d_sink (side from_a x)) = so_arrived (d_source (side from_a x)))) ∧
  match x_result x with
  | None => True
  | Some (Ret (n, m)) =>
      n = counted (len (so_arrived (d_source (x_ab x)))) ∧ m = counted (len (so_arrived (d_source (x_ba x)))) ∧
      ∀ from_a, sk_shut (d_sink (side from_a x)) = true
  | Some (Err e) => ∃ from_a, so_end (d_source (side from_a x)) = Some (Some e) ∨ sink_error (d_sink (side from_a x)) = Some e
  | Some Panic => False
  end.
Proof.
  intros Hla Hlb Ha Hb Hx. pose proof (duplex_reachable_ok limiter_ok la lb a b x Hla Hlb Ha Hb Hx) as Hok. split.
  - intros from_a. change (side_ok (side from_a x)). unfold duplex_ok in Hok.
    destruct (x_result x) as [[[n m]|e|]|], from_a; cbn [side]; destruct_and?; try done; by apply (dir_side_ok limiter_ok).
  - unfold duplex_ok in Hok. destruct (x_result x) as [[[n m]|e|]|]; [| |done..].
    + destruct Hok as ([_ _ _ _ _ H1] & [_ _ _ _ _ H2] & E1 & E2). rewrite E1 in H1. rewrite E2 in H2. unfold ended in *.
      destruct H1 as (-> & [_ ->] & ?), H2 as (-> & [_ ->] & ?). split_and!; [done|done|]. by intros [].
    + destruct Hok as (_ & _ & [H|H]); [exists true|exists false]; exact H.
Qed.

(** C34: a relay makes progress and ends. Without a limit, or with limits of up
    to a byte in a nanosecond (8 Gbit/s), where every wait sleeps for the
    durations the limiter computes or longer and looks at the bucket again up to
    three times: from every reachable state, however the turns of the two copies
    are scheduled, their number is bounded by what has arrived, if nobody else
    takes from the limiters meanwhile; when none is left, either the relay has
    returned, or everything that arrived at either end was written to the other,
    whatever the other direction is waiting for, and one of the streams has not
    ended. So when both streams have ended and neither end fails, every schedule
    returns the two counts with everything delivered. *)
Theorem duplex_completes la lb a b x :
  (∀ j, 0 ≤ late j) → (4 ≤ patience)%nat →
  limiter_timely la → limiter_timely lb → fresh_sink a → fresh_sink b → rtc (duplex_step limiter_timely) (duplex_new la lb a b) x →
  (∀ n y, nsteps duplex_poll n x y → (n ≤ turns_left (x_ab x) + turns_left (x_ba x) + 1)%nat) ∧
  (∀ y, rtc duplex_poll x y → (∀ z, ¬ duplex_poll y z) → x_result y = None →
     (∀ from_a, sk_out (d_sink (side from_a y)) = so_arrived (d_source (side from_a x))) ∧
     ∃ from_a, so_end (d_source (side from_a x)) = None) ∧
  (∀ y, rtc duplex_poll x y → (∀ z, ¬ duplex_poll y z) → (∀ from_a, so_end (d_source (side from_a x)) = Some None) →
     (∀ from_a, sk_room (d_sink (side from_a x)) = None) →
     x_result y = Some (Ret (counted (len (so_arrived (d_source (x_ab x)))), counted (len (so_arrived (d_source (x_ba x)))))) ∧
     ∀ from_a, sk_out (d_sink (side from_a y)) = so_arrived (d_source (side from_a x))).
Proof.
  pose proof limited_timely_laws as Hlaws.
  intros Hlate Hp Hla Hlb Ha Hb Hx. pose proof (duplex_reachable_ok limiter_timely la lb a b x Hla Hlb Ha Hb Hx) as Hok.
  assert (∀ y, rtc duplex_poll x y → (∀ z, ¬ duplex_poll y z) → x_result y = None →
     (∀ from_a, sk_out (d_sink (side from_a y)) = so_arrived (d_source (side from_a x))) ∧
     ∃ from_a, so_end (d_source (side from_a x)) = None) as Hstuck.
  { intros y Hy Hz Hres. destruct (duplex_polls limiter_timely x y Hok Hy) as [Hoky Hw].
    destruct (duplex_stuck limiter_timely y) as [Hout [b0 He]]; [intros; by apply limited_serves|done..|].
    split; [intros b1; rewrite Hout; apply Hw|]. exists b0. destruct (Hw b0) as (_ & <- & _). done. }
  split_and!; [intros n y; by apply (duplex_turns limiter_timely)|done|].
  intros y Hy Hz Hend Hroom. destruct (duplex_polls limiter_timely x y Hok Hy) as [Hoky Hw]. unfold duplex_ok in Hoky.
  destruct (x_result y) as [[[n m]|e|]|] eqn:Hres; [| |done|].
  - destruct Hoky as (H1 & H2 & E1 & E2).
    assert (∀ from_a, sk_out (d_sink (side from_a y)) = so_arrived (d_source (side from_a x))) as Hout.
    { intros b0. destruct (Hw b0) as (<- & _ & _). destruct b0; cbn.
      - apply (dir_side_ok limiter_timely _ H1). destruct H1 as [_ _ _ _ _ H1]. rewrite E1 in H1. apply H1.
      - apply (dir_side_ok limiter_timely _ H2). destruct H2 as [_ _ _ _ _ H2]. rewrite E2 in H2. apply H2. }
    split; [|done]. destruct H1 as [_ _ _ _ _ H1], H2 as [_ _ _ _ _ H2]. rewrite E1 in H1. rewrite E2 in H2. unfold ended in *.
    destruct (Hw true) as (E3 & _), (Hw false) as (E4 & _). cbn in E3, E4. rewrite <- E3, <- E4. by destruct H1 as (-> & [_ ->] & ?), H2 as (-> & [_ ->] & ?).
  - exfalso. destruct Hoky as (_ & _ & Hc).
    assert (∀ b0, ¬ caused e (side b0 y)) as Hno.
    { intros b0 [Hc'|Hc']; destruct (Hw b0) as (_ & He & Hs); [rewrite He, Hend in Hc'; done|]. rewrite Hs in Hc'. unfold sink_error in Hc'. by rewrite Hroom in Hc'. }
    destruct Hc; [by eapply (Hno true)|by eapply (Hno false)].
  - exfalso. destruct (Hstuck y Hy Hz Hres) as [_ [b0 He]]. by rewrite Hend in He.
Qed.
End program.

(** A relay of a greeting and its answer, with an empty bucket on the way back:
    every look comes as early as it can. *)
Definition relay_late (j : nat) : Z := 0.
Definition relay_limiter : option clocked_limiter := Some (mkClocked (mkLimiter 1000000 15000 (mkLimiterState 0 0)) 0 0).
Definition quiet_sink : sink := mkSink [] None false.
#[local] Existing Instance limited_source.
Definition relay_start : duplex (option clocked_limiter) := duplex_new None relay_limiter quiet_sink quiet_sink.
Definition arrive (from_a : bool) (b : bytes) (x : duplex (option clocked_limiter)) : duplex (option clocked_limiter) :=
  let s := d_source (side from_a x) in
  set_side from_a (set_source (mkSource (so_arrived s ++ b) (so_read s) None) (side from_a x)) x.
Definition finish (from_a : bool) (x : duplex (option clocked_limiter)) : duplex (option clocked_limiter) :=
  let s := d_source (side from_a x) in
  set_side from_a (set_source (mkSource (so_arrived s) (so_read s) (Some None)) (side from_a x)) x.
Definition relay_state : duplex (option clocked_limiter) :=
  finish false (finish true (arrive false (str "hello back") (arrive true (str "hello") relay_start))).
Lemma relay_limiter_timely : limiter_timely relay_limiter.
Proof. intros ? [= <-]. split; [|by_decide]. split; [by_decide|]. split; [reflexivity|]. vm_compute. discriminate. Qed.
Lemma relay_limiter_ok : limiter_ok relay_limiter.
Proof. intros l Hl. by apply relay_limiter_timely. Qed.
Lemma relay_reachable inv : rtc (duplex_step (ChunkSource0:=limited_source relay_late 4) inv) relay_start relay_state.
Proof.
  eapply rtc_l; [exact (step_arrive _ true (str "hello") relay_start _ eq_refl eq_refl)|].
  eapply rtc_l; [exact (step_arrive _ false (str "hello back") (arrive true (str "hello") relay_start) _ eq_refl eq_refl)|].
  eapply rtc_l; [exact (step_end _ true None (arrive false (str "hello back") (arrive true (str "hello") relay_start)) _ eq_refl eq_refl)|].
  eapply rtc_l; [exact (step_end _ false None (finish true (arrive false (str "hello back") (arrive true (str "hello") relay_start))) _ eq_refl eq_refl)|].
  apply rtc_refl.
Qed.
Lemma quiet_fresh : fresh_sink quiet_sink.
Proof. done. Qed.

Fixpoint run_polls `{!ChunkSource L} (turns : list (bool * nat)) (x : duplex L) : option (duplex L) :=
  match turns with
  | [] => Some x
  | (from_a, k) :: turns => x ← poll_duplex from_a k x; run_polls turns x
  end.
Lemma run_polls_rtc `{!ChunkSource L} turns (x y : duplex L) : run_polls turns x = Some y → rtc duplex_poll x y.
Proof.
  revert x. induction turns as [|[from_a k] turns IH]; intros x; cbn; [by intros [= ->]|].
  destruct (poll_duplex from_a k x) as [x'|] eqn:E; [|done]. cbn. intros H. eapply rtc_l; [by exists from_a, k|by apply IH].
Qed.
Definition relay_schedule : list (bool * nat) :=
  ([(true, 5); (false, 10); (true, 0); (true, 2); (true, 3); (true, 0); (true, 0); (true, 0); (true, 0)]
   ++ concat (replicate 10 [(false, 0); (false, 1); (false, 0)]) ++ [(false, 0); (false, 0); (false, 0)])%nat.
Definition relay_end : duplex (option clocked_limiter) :=
  default relay_start (run_polls (ChunkSource0:=limited_source relay_late 4) relay_schedule relay_state).
Lemma relay_runs : run_polls (ChunkSource0:=limited_source relay_late 4) relay_schedule relay_state = Some relay_end.
Proof.
  unfold relay_end. destruct (run_polls _ _) eqn:E; [done|]. exfalso. apply (f_equal (fun o : option (duplex _) => bool_decide (is_Some o))) in E.
  vm_compute in E. discriminate E.
Qed.
Lemma poll_after_result `{!ChunkSource L} (x z : duplex L) : is_Some (x_result x) → ¬ duplex_poll x z.
Proof. intros [r Hr] (from_a & k & Hz). unfold poll_duplex in Hz. rewrite Hr in Hz. discriminate. Qed.
Lemma relay_returned : is_Some (x_result relay_end).
Proof.
  assert (bool_decide (is_Some (x_result relay_end)) = true) as H by (vm_compute; reflexivity). by apply bool_decide_eq_true in H.
Qed.

Lemma duplex_relays_witness : sk_out (d_sink (x_ab relay_state)) `prefix_of` str "hello".
Proof.
  refine (proj1 (proj1 (duplex_relays relay_late 4 None relay_limiter quiet_sink quiet_sink relay_state _ _ _ _ _) true)).
  - done.
  - apply relay_limiter_ok.
  - apply quiet_fresh.
  - apply quiet_fresh.
  - apply relay_reachable.
Defined.
Lemma duplex_completes_witness : x_result relay_end = Some (Ret (5, 10)) ∧ sk_out (d_sink (side false relay_end)) = str "hello back".
Proof.
  destruct (duplex_completes relay_late 4 None relay_limiter quiet_sink quiet_sink relay_state) as (_ & _ & H).
  - intros j. unfold relay_late. lia.
  - lia.
  - done.
  - apply relay_limiter_timely.
  - apply quiet_fresh.
  - apply quiet_fresh.
  - apply relay_reachable.
  - destruct (H relay_end) as [H1 H2].
    + apply (run_polls_rtc relay_schedule). apply relay_runs.
    + intros z. apply poll_after_result, relay_returned.
    + by intros [].
    + by intros [].
    + assert (counted (len (so_arrived (d_source (x_ab relay_state)))) = 5) as E1 by reflexivity.
      assert (counted (len (so_arrived (d_source (x_ba relay_state)))) = 10) as E2 by reflexivity.
      assert (so_arrived (d_source (side false relay_state)) = str "hello back") as E3 by reflexivity.
      rewrite E1, E2 in H1. rewrite <- E3. exact (conj H1 (H2 false)).
Defined.
