(* ===== verification/Auth.v ===== *)
(** * The authentication exchange ([core/src/protocol/auth.rs])

    The request and response of the handshake as HTTP header fields. The
    header map and its values belong to the [http] crate: they are the class
    [HeaderMap], and [HeaderMapLaws] states its documented behaviour. *)
From S2P Require Import Prelude Errors RustStr Proxy.
Local Open Scope Z_scope.

(** [http::HeaderMap] and [http::HeaderValue]. *)
Class HeaderMap (H V : Type) := {
  hm_empty : H;
  hm_get : H → bytes → option V;
  hm_insert : H → bytes → V → H;
  hv_from_str : bytes → option V;
  hv_to_str : V → option bytes
}.

(** The characters of a header value that is text: visible ASCII, space and
    tab. *)
Definition is_header_char (b : Z) : bool := in_range 32 126 b || (b =? 9).
Definition header_text (s : bytes) : Prop := Forall (fun b => is_header_char b = true) s.
#[global] Instance header_text_dec s : Decision (header_text s).
Proof. unfold header_text. apply _. Defined.

(** An insertion replaces the values of its name and no other; a text made a
    value reads back as itself. *)
Class HeaderMapLaws (H V : Type) `{!HeaderMap H V} := {
  hm_get_empty : ∀ k, hm_get (hm_empty : H) k = (None : option V);
  hm_get_insert : ∀ (h : H) k (v : V), hm_get (hm_insert h k v) k = Some v;
  hm_get_insert_ne : ∀ (h : H) k k' (v : V), k ≠ k' → hm_get (hm_insert h k v) k' = hm_get h k';
  hv_text : ∀ s, header_text s → ∃ v : V, hv_from_str s = Some v ∧ hv_to_str v = Some s
}.

Definition URL_HOST : bytes := str "hysteria".
Definition URL_PATH : bytes := str "/auth".
Definition REQUEST_HEADER_AUTH : bytes := str "hysteria-auth".
Definition RESPONSE_HEADER_UDP_ENABLED : bytes := str "hysteria-udp".
Definition COMMON_HEADER_CC_RX : bytes := str "hysteria-cc-rx".
Definition COMMON_HEADER_PADDING : bytes := str "hysteria-padding".
Definition STATUS_AUTH_OK : Z := 233.

Record AuthRequest := mkAuthRequest { ar_auth : bytes; ar_rx : Z }.
Record AuthResponse := mkAuthResponse { as_udp_enabled : bool; as_rx : Z; as_rx_auto : bool }.

(** [str::parse::<bool>]. *)
Definition parse_bool (s : bytes) : option bool :=
  if decide (s = str "true") then Some true
  else if decide (s = str "false") then Some false
  else None.

Section headers.
Context {H V : Type} `{!HeaderMap H V}.

(** [headers.get(name).and_then(|value| value.to_str().ok())]. *)
Definition get_text (h : H) (name : bytes) : option bytes := hm_get h name ≫= hv_to_str.

Definition auth_request_from_headers (h : H) : AuthRequest :=
  let auth := default [] (get_text h REQUEST_HEADER_AUTH) in
  let rx := default 0 (get_text h COMMON_HEADER_CC_RX ≫= parse_u64) in
  mkAuthRequest auth rx.

(** [headers.insert(name, HeaderValue::from_str(text).map_err(..)?)]. *)
Definition insert_text (h : H) (name text : bytes) : outcome ProtocolError H :=
  v ← ok_or (hv_from_str text) InvalidHeaderValue;
  Ret (hm_insert h name v).

Definition auth_request_to_headers (padding : bytes) (h : H) (request : AuthRequest)
    : outcome ProtocolError H :=
  h ← insert_text h REQUEST_HEADER_AUTH (ar_auth request);
  h ← insert_text h COMMON_HEADER_CC_RX (to_string (ar_rx request));
  insert_text h COMMON_HEADER_PADDING padding.

Definition auth_response_from_headers (h : H) : AuthResponse :=
  let udp_enabled := default false (get_text h RESPONSE_HEADER_UDP_ENABLED ≫= parse_bool) in
  let cc_rx := default [] (get_text h COMMON_HEADER_CC_RX) in
  if decide (cc_rx = str "auto") then mkAuthResponse udp_enabled 0 true
  else mkAuthResponse udp_enabled (default 0 (parse_u64 cc_rx)) false.

Definition auth_response_to_headers (padding : bytes) (h : H) (response : AuthResponse)
    : outcome ProtocolError H :=
  h ← insert_text h RESPONSE_HEADER_UDP_ENABLED
        (if as_udp_enabled response then str "true" else str "false");
  let rx_value := if as_rx_auto response then str "auto" else to_string (as_rx response) in
  h ← insert_text h COMMON_HEADER_CC_RX rx_value;
  insert_text h COMMON_HEADER_PADDING padding.

Context `{!HeaderMapLaws H V}.

Lemma insert_text_ok (h : H) name text :
  header_text text →
  ∃ h', insert_text h name text = Ret h' ∧ get_text h' name = Some text ∧
    ∀ name', name ≠ name' → get_text h' name' = get_text h name'.
Proof.
  intros Ht. unfold insert_text, get_text. destruct (hv_text (H:=H) (V:=V) text Ht) as (v & -> & Hv). cbn.
  eexists. split; [done|]. rewrite hm_get_insert. cbn. split; [done|].
  intros name' Hne. by rewrite hm_get_insert_ne by done.
Qed.

Lemma alphanumeric_header s : Forall (fun b => is_alphanumeric b = true) s → header_text s.
Proof.
  intros Hs. eapply Forall_impl; [exact Hs|]. intros b Hb. unfold is_alphanumeric, is_header_char in *. cbn beta in *.
  rewrite !orb_true_iff, !in_range_true in *. lia.
Qed.
Lemma to_string_header n : 0 ≤ n → header_text (to_string n).
Proof.
  intros Hn. apply alphanumeric_header. eapply Forall_impl; [by apply to_string_digits|].
  intros b Hb. unfold is_alphanumeric. unfold is_digit in Hb. cbn beta in *. by rewrite Hb.
Qed.

(** The fields of a request, whatever was in the map before. *)
Lemma auth_request_headers padding (h : H) request :
  header_text (ar_auth request) → is_u64 (ar_rx request) → sampled AUTH_REQUEST_PADDING padding →
  ∃ h', auth_request_to_headers padding h request = Ret h' ∧ auth_request_from_headers h' = request.
Proof.
  intros Ha Hr [_ Hp]. unfold auth_request_to_headers. unfold is_u64 in Hr.
  destruct (insert_text_ok h REQUEST_HEADER_AUTH (ar_auth request) Ha) as (h1 & -> & E1 & N1). cbn [mbind outcome_bind].
  destruct (insert_text_ok h1 COMMON_HEADER_CC_RX (to_string (ar_rx request))) as (h2 & -> & E2 & N2); [apply to_string_header; lia|].
  cbn [mbind outcome_bind].
  destruct (insert_text_ok h2 COMMON_HEADER_PADDING padding) as (h3 & -> & E3 & N3); [by apply alphanumeric_header|].
  exists h3. split; [done|]. unfold auth_request_from_headers.
  rewrite !N3, N2, E1, E2 by (vm_compute; discriminate). cbn [default option_bind mbind].
  unfold parse_u64. rewrite parse_to_string by (unfold u64_max; lia). by destruct request.
Qed.

Lemma auth_response_headers padding (h : H) response :
  is_u64 (as_rx response) → sampled AUTH_RESPONSE_PADDING padding →
  ∃ h', auth_response_to_headers padding h response = Ret h' ∧
    auth_response_from_headers h'
    = mkAuthResponse (as_udp_enabled response) (if as_rx_auto response then 0 else as_rx response) (as_rx_auto response).
Proof.
  intros Hr [_ Hp]. unfold auth_response_to_headers. unfold is_u64 in Hr.
  set (u := if as_udp_enabled response then str "true" else str "false").
  set (x := if as_rx_auto response then str "auto" else to_string (as_rx response)).
  destruct (insert_text_ok h RESPONSE_HEADER_UDP_ENABLED u) as (h1 & -> & E1 & N1);
    [unfold u; destruct (as_udp_enabled response); by_decide|]. cbn [mbind outcome_bind].
  destruct (insert_text_ok h1 COMMON_HEADER_CC_RX x) as (h2 & -> & E2 & N2);
    [unfold x; destruct (as_rx_auto response); [by_decide|apply to_string_header; lia]|]. cbn [mbind outcome_bind].
  destruct (insert_text_ok h2 COMMON_HEADER_PADDING padding) as (h3 & -> & E3 & N3); [by apply alphanumeric_header|].
  exists h3. split; [done|]. unfold auth_response_from_headers.
  rewrite !N3, (N2 RESPONSE_HEADER_UDP_ENABLED), E1, E2 by (vm_compute; discriminate). cbn [default option_bind mbind option_map].
  assert (parse_bool u = Some (as_udp_enabled response)) as -> by (unfold u; by destruct (as_udp_enabled response)).
  unfold x. destruct response as [udp rx auto]. cbn [as_rx_auto as_rx as_udp_enabled] in *. cbn [from_option id].
  destruct auto.
  - by rewrite decide_True.
  - rewrite decide_False; [unfold parse_u64; rewrite parse_to_string by (unfold u64_max; lia); done|].
    intros Heq. pose proof (to_string_digits rx ltac:(lia)) as Hd. rewrite Heq in Hd. cbn in Hd.
    inversion Hd as [|? ? Hx]. by vm_compute in Hx.
Qed.
End headers.

(** A header map that stores the text of its values. *)
#[global] Instance gmap_headers : HeaderMap (gmap bytes bytes) bytes := {
  hm_empty := ∅;
  hm_get h k := h !! k;
  hm_insert h k v := <[k := v]> h;
  hv_from_str s := if decide (header_text s) then Some s else None;
  hv_to_str v := Some v
}.
#[global] Instance gmap_headers_laws : HeaderMapLaws (gmap bytes bytes) bytes.
Proof.
  split; cbn.
  - intros k. apply lookup_empty.
  - intros h k v. apply lookup_insert_eq.
  - intros h k k' v Hne. by apply lookup_insert_ne.
  - intros s Hs. exists s. by rewrite decide_True.
Qed.

(** ** Properties *)

(** The handshake carries its fields. Over any header map with the
    documented behaviour, and whatever it holds before, a request whose
    password is header text reads back as itself, and a response reads back
    with its UDP flag and its rate, the rate being 0 when the server answers
    [auto]; a password that is not a header value is refused. *)
Theorem auth_headers_roundtrip {H V} `{!HeaderMap H V} `{!HeaderMapLaws H V} (h : H) pad1 pad2 request response :
  is_u64 (ar_rx request) → is_u64 (as_rx response) →
  sampled AUTH_REQUEST_PADDING pad1 → sampled AUTH_RESPONSE_PADDING pad2 →
  (header_text (ar_auth request) →
     ∃ h', auth_request_to_headers pad1 h request = Ret h' ∧ auth_request_from_headers h' = request) ∧
  (hv_from_str (H:=H) (V:=V) (ar_auth request) = None →
     auth_request_to_headers pad1 h request = Err InvalidHeaderValue) ∧
  ∃ h', auth_response_to_headers pad2 h response = Ret h' ∧
    auth_response_from_headers h'
    = mkAuthResponse (as_udp_enabled response) (if as_rx_auto response then 0 else as_rx response) (as_rx_auto response).
Proof.
  intros Hr1 Hr2 Hp1 Hp2. split_and!.
  - intros Ha. by apply auth_request_headers.
  - intros Ha. unfold auth_request_to_headers, insert_text. by rewrite Ha.
  - by apply auth_response_headers.
Qed.

Lemma auth_headers_roundtrip_witness :
  ∃ h' : gmap bytes bytes,
    auth_request_to_headers (replicate 256 97) ∅ (mkAuthRequest (str "secret") 1000) = Ret h' ∧
    auth_request_from_headers h' = mkAuthRequest (str "secret") 1000.
Proof.
  apply (auth_headers_roundtrip (H:=gmap bytes bytes) (V:=bytes) ∅ (replicate 256 97) (replicate 300 98)
    (mkAuthRequest (str "secret") 1000) (mkAuthResponse true 0 false)).
  - vm_compute. split; [discriminate|reflexivity].
  - vm_compute. split; [discriminate|reflexivity].
  - by_decide.
  - by_decide.
  - by_decide.
Defined.
