(* ===== verification/Server.v ===== *)
(** * The server ([core/src/server.rs])

    The authentication gate of a connection, the services it opens, and what
    the server does with one proxied stream. The QUIC connection, the HTTP/3
    exchange, dialing and the runtime's tasks are outside: what they return is
    an argument. *)
From S2P Require Import Prelude Errors RustStr Proxy Limit Auth.
Local Open Scope Z_scope.

(** [trait Authenticator]: the remote address, the password and the client's
    declared rate to an identity. *)
Definition Authenticator : Type := bytes → bytes → Z → option bytes.

Record PasswordAuthenticator := mkPasswordAuthenticator { pa_password : bytes; pa_auth_id : bytes }.
Definition password_new (password : bytes) : PasswordAuthenticator :=
  mkPasswordAuthenticator password password.
Definition password_with_auth_id (password auth_id : bytes) : PasswordAuthenticator :=
  mkPasswordAuthenticator password auth_id.
Definition password_authenticate (a : PasswordAuthenticator) : Authenticator :=
  fun _ auth _ => if decide (auth = pa_password a) then Some (pa_auth_id a) else None.

Record ServerState := mkServerState {
  sv_authenticator : Authenticator;
  sv_disable_udp : bool;
  sv_speed_test : bool;
  sv_udp_idle_timeout : Z;
  sv_bandwidth_max_tx : Z;
  sv_bandwidth_max_rx : Z;
  sv_ignore_client_bandwidth : bool
}.

Definition DEFAULT_UDP_IDLE_TIMEOUT : Z := 60 * NANOS_PER_SEC.

(** The state [Server::bind] builds from its configuration. *)
Definition bind_state (certificates : list bytes) (config : ServerState) : outcome CoreError ServerState :=
  if decide (certificates = []) then Err (Config (str "at least one certificate must be provided"))
  else Ret (mkServerState (sv_authenticator config) (sv_disable_udp config) (sv_speed_test config)
    (if decide (sv_udp_idle_timeout config = 0) then DEFAULT_UDP_IDLE_TIMEOUT else sv_udp_idle_timeout config)
    (sv_bandwidth_max_tx config) (sv_bandwidth_max_rx config) (sv_ignore_client_bandwidth config)).

(** An HTTP/3 request as the server resolves it, and its response. *)
Record Request (H : Type) := mkRequest {
  rq_method : bytes;
  rq_path : bytes;
  rq_host : option bytes;
  rq_headers : H
}.
Arguments mkRequest {H}.
Arguments rq_method {H}.
Arguments rq_path {H}.
Arguments rq_host {H}.
Arguments rq_headers {H}.
Record Response (H : Type) := mkResponse { rs_status : Z; rs_headers : H }.
Arguments mkResponse {H}.
Arguments rs_status {H}.
Arguments rs_headers {H}.

(** Where a connection goes after its first request: held open with nothing
    served, or serving with a transmit rate. *)
Inductive phase := Held | Serving (actual_tx : Z).
#[global] Instance phase_eq_dec : EqDecision phase.
Proof. solve_decision. Defined.

Section gate.
Context {H V : Type} `{!HeaderMap H V}.

Definition valid_auth_request (request : Request H) : bool :=
  bool_decide (rq_method request = str "POST") && bool_decide (rq_path request = URL_PATH)
  && bool_decide (rq_host request = Some URL_HOST).

Definition not_found : Response H := mkResponse 404 hm_empty.

(** What [handle_connection] decides on the resolved request: the response,
    the phase after it, and the transmit target stored for the congestion
    controller. *)
Definition decide_request (padding : bytes) (st : ServerState) (remote : bytes)
    (request : Request H) (tx_target : Z) : Z * outcome CoreError (Response H * phase) :=
  if negb (valid_auth_request request) then (tx_target, Ret (not_found, Held))
  else
    let auth_request := auth_request_from_headers (rq_headers request) in
    match sv_authenticator st remote (ar_auth auth_request) (ar_rx auth_request) with
    | None => (tx_target, Ret (not_found, Held))
    | Some _ =>
        let actual_tx :=
          if sv_ignore_client_bandwidth st then 0
          else negotiated_limit (sv_bandwidth_max_tx st) (ar_rx auth_request) in
        (actual_tx,
         headers ← map_err Protocol (auth_response_to_headers padding hm_empty
           (mkAuthResponse (negb (sv_disable_udp st)) (sv_bandwidth_max_rx st) (sv_ignore_client_bandwidth st)));
         Ret (mkResponse STATUS_AUTH_OK headers, Serving actual_tx))
    end.

(** [handle_connection] from the resolved request on; [send] is the sending of
    the response and the end of its stream. *)
Definition handle_connection (padding : bytes) (st : ServerState) (remote : bytes)
    (send : Response H → outcome CoreError unit) (request : Request H) (tx_target : Z)
    : Z * outcome CoreError phase :=
  let '(tx_target, decision) := decide_request padding st remote request tx_target in
  (tx_target, '(response, p) ← decision; _ ← send response; Ret p).
End gate.

(** ** One proxied stream *)

Definition HEALTH_CHECK_DEST : bytes := str "@HealthCheck:0".
Definition SPEEDTEST_DEST : bytes := str "@SpeedTest".

Definition is_healthcheck_request (addr : bytes) : bool := bool_decide (trim addr = HEALTH_CHECK_DEST).
Definition is_speedtest_request (addr : bytes) : bool :=
  bool_decide (trim addr = SPEEDTEST_DEST) || bool_decide (trim addr = str "@SpeedTest:0")
  || match split_once 58 addr with
     | Some (host, _) => bool_decide (host = SPEEDTEST_DEST)
     | None => false
     end.

(** What a stream is given to: nothing more, the built-in speed test, or a
    remote that was dialed; the reader is where its payload starts. *)
Inductive tcp_action (R : Type) :=
| Answered
| RelaySpeedTest (payload : reader)
| RelayTo (remote : R) (payload : reader).
Arguments Answered {R}.
Arguments RelaySpeedTest {R} payload.
Arguments RelayTo {R} remote payload.

(** What was written on the stream, whether it was finished, and the result. *)
Record tcp_served (R : Type) := mkServed {
  ts_send : writer;
  ts_finished : bool;
  ts_result : outcome CoreError (tcp_action R)
}.
Arguments mkServed {R}.
Arguments ts_send {R}.
Arguments ts_finished {R}.
Arguments ts_result {R}.

Section stream.
Context {R : Type}.
(** Dialing, [RecvStream::read_to_end] and [SendStream::finish]. *)
Context (connect : bytes → outcome io_error R).
Context (read_to_end : reader → Z → outcome bytes bytes).
Context (finish : outcome bytes unit).
Context (padding : bytes).

(** [send.finish().map_err(..)?] then the error [e]. *)
Definition finish_with (w : writer) (e : CoreError) : tcp_served R :=
  match finish with
  | Ret _ => mkServed w true (Err e)
  | Err msg => mkServed w false (Err (Transport msg))
  | Panic => mkServed w false Panic
  end.

(** [let _ = ...] of a write: the writer after it, whether or not it failed. *)
Definition ignore_write (w : writer) {E} (r : outcome E writer) : writer :=
  match r with Ret w' => w' | _ => w end.

Definition serve_healthcheck (w : writer) (recv : reader) : tcp_served R :=
  match rt_write_tcp_response padding w true (str "Connected") with
  | Err e => mkServed w false (Err e)
  | Panic => mkServed w false Panic
  | Ret w =>
      match read_to_end recv 64 with
      | Err msg => mkServed w false (Err (Transport msg))
      | Panic => mkServed w false Panic
      | Ret payload =>
          if decide (payload ≠ str "ping") then
            let w := ignore_write w (write_all w (str "bad-healthcheck")) in
            finish_with w (Dial (str "invalid healthcheck payload"))
          else
            match write_all w (str "pong") with
            | Err e => mkServed w false (Err (core_error_of_io e))
            | Panic => mkServed w false Panic
            | Ret w =>
                match finish with
                | Ret _ => mkServed w true (Ret Answered)
                | Err msg => mkServed w false (Err (Transport msg))
                | Panic => mkServed w false Panic
                end
            end
      end
  end.

Definition serve_speedtest (speed_test_enabled : bool) (w : writer) (recv : reader) : tcp_served R :=
  if negb speed_test_enabled then
    let w := ignore_write w (rt_write_tcp_response padding w false (str "speed test disabled")) in
    finish_with w (Dial (str "speed test disabled"))
  else
    match rt_write_tcp_response padding w true (str "Connected") with
    | Err e => mkServed w false (Err e)
    | Panic => mkServed w false Panic
    | Ret w => mkServed w false (Ret (RelaySpeedTest recv))
    end.

Definition serve_dial (req_addr : bytes) (w : writer) (recv : reader) : tcp_served R :=
  match connect req_addr with
  | Ret remote =>
      match rt_write_tcp_response padding w true (str "Connected") with
      | Err e => mkServed w false (Err e)
      | Panic => mkServed w false Panic
      | Ret w => mkServed w false (Ret (RelayTo remote recv))
      end
  | Err err =>
      let w := ignore_write w (rt_write_tcp_response padding w false (io_error_text err)) in
      finish_with w (Dial (io_error_text err))
  | Panic => mkServed w false Panic
  end.

Definition handle_tcp_stream (speed_test_enabled : bool) (w : writer) (recv : reader) : tcp_served R :=
  match read_framed_tcp_request recv with
  | Err e => mkServed w false (Err e)
  | Panic => mkServed w false Panic
  | Ret (req_addr, recv) =>
      if is_healthcheck_request req_addr then serve_healthcheck w recv
      else if is_speedtest_request req_addr then serve_speedtest speed_test_enabled w recv
      else serve_dial req_addr w recv
  end.
End stream.

(** ** The life of a connection

    The first request decides; only a serving connection accepts streams, and
    datagrams if UDP is enabled. *)
Inductive conn_event (H : Type) :=
| EvRequest (request : Request H)
| EvStream (recv : reader)
| EvDatagram (datagram : bytes).
Arguments EvRequest {H} request.
Arguments EvStream {H} recv.
Arguments EvDatagram {H} datagram.

Inductive conn_state := AwaitRequest | InPhase (p : phase) | Failed.

Inductive conn_action :=
| ActStream (tx : Z) (recv : reader)
| ActDatagram (tx : Z) (datagram : bytes).

Section connection.
Context {H V : Type} `{!HeaderMap H V}.
Context (padding : bytes) (st : ServerState) (remote : bytes) (send : Response H → outcome CoreError unit).

Definition conn_step (s : conn_state) (ev : conn_event H) : conn_state * list conn_action :=
  match s, ev with
  | AwaitRequest, EvRequest request =>
      match handle_connection padding st remote send request 0 with
      | (_, Ret p) => (InPhase p, [])
      | _ => (Failed, [])
      end
  | InPhase (Serving tx), EvStream recv => (s, [ActStream tx recv])
  | InPhase (Serving tx), EvDatagram d =>
      (s, if sv_disable_udp st then [] else [ActDatagram tx d])
  | _, _ => (s, [])
  end.

Fixpoint conn_run (s : conn_state) (evs : list (conn_event H)) : list (list conn_action) :=
  match evs with
  | [] => []
  | ev :: evs => let '(s, acts) := conn_step s ev in acts :: conn_run s evs
  end.
End connection.

Lemma handle_connection_serving {H V} `{!HeaderMap H V} padding st remote send (request : Request H) t t' tx :
  handle_connection padding st remote send request t = (t', Ret (Serving tx)) →
  valid_auth_request request = true ∧ t' = tx ∧
  (∃ id, sv_authenticator st remote (ar_auth (auth_request_from_headers (rq_headers request)))
           (ar_rx (auth_request_from_headers (rq_headers request))) = Some id) ∧
  tx = (if sv_ignore_client_bandwidth st then 0
        else negotiated_limit (sv_bandwidth_max_tx st) (ar_rx (auth_request_from_headers (rq_headers request)))).
Proof.
  unfold handle_connection, decide_request. destruct (valid_auth_request request); cbn [negb]; last first.
  { cbn. destruct (send _); intros [=]. }
  destruct (sv_authenticator st remote _ _) as [id|]; [|cbn; destruct (send _); intros [=]].
  destruct (map_err _ _) as [h| |]; cbn; try (intros [=]; fail). destruct (send _); intros [= <- <-].
  split_and!; eauto.
Qed.

(** The run of a connection, from the phase its first request gave it. *)
Lemma conn_run_serving {H V} `{!HeaderMap H V} padding st remote send s (evs : list (conn_event H)) k acts a :
  conn_run padding st remote send s evs !! k = Some acts → a ∈ acts →
  (∃ tx, s = InPhase (Serving tx) ∧ (∃ r, a = ActStream tx r) ∨
         s = InPhase (Serving tx) ∧ (∃ d, a = ActDatagram tx d) ∧ sv_disable_udp st = false) ∨
  (s = AwaitRequest ∧ ∃ j request tx t, (j < k)%nat ∧ evs !! j = Some (EvRequest request) ∧
     (∀ i r, (i < j)%nat → evs !! i ≠ Some (EvRequest r)) ∧
     handle_connection padding st remote send request 0 = (t, Ret (Serving tx)) ∧
     ((∃ r, a = ActStream tx r) ∨ ((∃ d, a = ActDatagram tx d) ∧ sv_disable_udp st = false))).
Proof.
  revert s k. induction evs as [|ev evs IH]; intros s k; cbn [conn_run]; [done|].
  destruct (conn_step padding st remote send s ev) as [s' acts'] eqn:Hs. destruct k as [|k]; cbn [lookup list_lookup].
  - intros [= <-] Ha. left.
    destruct s as [|[|tx]|], ev as [rq|r|d]; cbn in Hs;
      try (injection Hs as <- <-; by apply elem_of_nil in Ha).
    + destruct (handle_connection _ _ _ _ _ _) as [t [p| |]]; injection Hs as <- <-; by apply elem_of_nil in Ha.
    + injection Hs as <- <-. exists tx. left. apply list_elem_of_singleton in Ha. eauto.
    + destruct (sv_disable_udp st) eqn:Hu; injection Hs as <- <-; [by apply elem_of_nil in Ha|].
      exists tx. right. apply list_elem_of_singleton in Ha. eauto.
  - intros Hk Ha. specialize (IH s' k Hk Ha).
    destruct s as [|p|]; last first.
    { destruct ev; injection Hs as <- <-; destruct IH as [(tx & [[? _]|[? _]])|[? _]]; done. }
    { assert (s' = InPhase p) as -> by (destruct p as [|tx], ev; cbn in Hs; by injection Hs as <- <-).
      destruct IH as [IH|[? _]]; [by left|done]. }
    right. split; [done|]. destruct ev as [rq|r|d].
    + cbn in Hs. destruct (handle_connection padding st remote send rq 0) as [t [p| |]] eqn:Hh; injection Hs as <- <-;
        (destruct IH as [(tx & IH)|[? _]]; [|done]).
      * exists 0%nat, rq, tx, t. assert (p = Serving tx) as -> by naive_solver.
        split_and!; [lia|done|lia|done|naive_solver].
      * naive_solver.
      * naive_solver.
    + injection Hs as <- <-. destruct IH as [(tx & [[? _]|[? _]])|(_ & j & rq & tx & t & Hj & He & Hf & Hh & Hor)]; [done|done|].
      exists (S j), rq, tx, t. split_and!; [lia|done| |done|done]. intros [|i] r' Hi; [done|]. apply Hf. lia.
    + injection Hs as <- <-. destruct IH as [(tx & [[? _]|[? _]])|(_ & j & rq & tx & t & Hj & He & Hf & Hh & Hor)]; [done|done|].
      exists (S j), rq, tx, t. split_and!; [lia|done| |done|done]. intros [|i] r' Hi; [done|]. apply Hf. lia.
Qed.

(** ** Properties *)

(** C1: nothing is served without authentication. In any sequence of requests,
    streams and datagrams on a connection, a stream or datagram is acted on
    only after a request whose method, path and host are those of the
    authentication endpoint and whose password the authenticator accepted,
    which was the first request of the connection; datagrams only if UDP is
    enabled; and the rate in force is the one negotiated from that request. *)
Theorem served_only_authenticated {H V} `{!HeaderMap H V} padding st remote send (evs : list (conn_event H)) k acts a :
  conn_run padding st remote send AwaitRequest evs !! k = Some acts → a ∈ acts →
  ∃ j request id tx, (j < k)%nat ∧ evs !! j = Some (EvRequest request) ∧
    (∀ i r, (i < j)%nat → evs !! i ≠ Some (EvRequest r)) ∧
    rq_method request = str "POST" ∧ rq_path request = URL_PATH ∧ rq_host request = Some URL_HOST ∧
    sv_authenticator st remote (ar_auth (auth_request_from_headers (rq_headers request)))
      (ar_rx (auth_request_from_headers (rq_headers request))) = Some id ∧
    tx = (if sv_ignore_client_bandwidth st then 0
          else negotiated_limit (sv_bandwidth_max_tx st) (ar_rx (auth_request_from_headers (rq_headers request)))) ∧
    ((∃ r, a = ActStream tx r) ∨ ((∃ d, a = ActDatagram tx d) ∧ sv_disable_udp st = false)).
Proof.
  intros Hk Ha. destruct (conn_run_serving _ _ _ _ _ _ _ _ _ Hk Ha) as [(tx & [[? _]|[? _]])|(_ & j & rq & tx & t & Hj & He & Hf & Hh & Hor)];
    [done|done|].
  apply handle_connection_serving in Hh as (Hv & -> & [id Hid] & Htx).
  unfold valid_auth_request in Hv. rewrite !andb_true_iff, !bool_decide_eq_true in Hv.
  exists j, rq, id, tx. naive_solver.
Qed.

Lemma served_only_authenticated_witness :
  let st := mkServerState (password_authenticate (password_new (str "pw"))) false false 0 0 0 false in
  let h : gmap bytes bytes := {[ REQUEST_HEADER_AUTH := str "pw" ]} in
  ∃ j request id tx, (j < 1)%nat ∧
    [EvRequest (mkRequest (str "POST") URL_PATH (Some URL_HOST) h); EvDatagram [1]] !! j = Some (EvRequest request) ∧
    sv_authenticator st [] (ar_auth (auth_request_from_headers (rq_headers request)))
      (ar_rx (auth_request_from_headers (rq_headers request))) = Some id ∧
    ActDatagram 0 [1] = ActDatagram tx [1].
Proof.
  intros st h.
  destruct (served_only_authenticated (replicate 256 97) st [] (fun _ => Ret ())
    [EvRequest (mkRequest (str "POST") URL_PATH (Some URL_HOST) h); EvDatagram [1]] 1
    [ActDatagram 0 [1]] (ActDatagram 0 [1])) as (j & rq & id & tx & Hj & He & _ & _ & _ & _ & Hid & Htx & Hor).
  - vm_compute. reflexivity.
  - by apply list_elem_of_singleton.
  - exists j, rq, id, tx. split; [exact Hj|]. split; [exact He|]. split; [exact Hid|].
    destruct Hor as [[r Hr]|[[d Hd] _]]; [discriminate|]. injection Hd as -> _. reflexivity.
Defined.
