(* ===== verification/Client.v ===== *)
(** * The client ([core/src/client.rs], [core/src/health.rs])

    The handshake, the opening of a proxied stream and the health check, with
    the end-to-end theorems that put the client against the server. The QUIC
    connection and the certificate store are outside; their results are
    arguments. *)
From S2P Require Import Prelude Errors Varint RustStr Proxy Limit Auth Server.
Local Open Scope Z_scope.

Record ClientConfig := mkClientConfig {
  cc_server_name : bytes;
  cc_auth : bytes;
  cc_bandwidth_max_tx : Z;
  cc_bandwidth_max_rx : Z;
  cc_pinned_sha256 : option bytes
}.

(** [ClientConfig::new]. *)
Definition client_config_new (server_name : bytes) : ClientConfig :=
  mkClientConfig server_name [] 0 0 None.

Record HandshakeInfo := mkHandshakeInfo { hi_udp_enabled : bool; hi_tx : Z }.

(** The identity the peer presented: none, one of an unexpected type, or a
    chain of certificates. *)
Definition peer_identity : Type := option (option (list bytes)).

Definition downcast_certificates (identity : option (list bytes)) : outcome CoreError (list bytes) :=
  ok_or identity (Tls (str "unexpected peer identity type")).

(** [verify_pinned_certificate]; [sha256] is the digest of the [sha2] crate.
    On a mismatch the connection is also closed. *)
Definition verify_pinned_certificate (sha256 : bytes → bytes) (identity : peer_identity)
    (expected_hash : option bytes) : outcome CoreError unit :=
  match expected_hash with
  | None => Ret ()
  | Some expected_hash =>
      identity ← ok_or identity (Tls (str "peer did not present a certificate"));
      certs ← downcast_certificates identity;
      certificate ← ok_or (head certs) (Tls (str "peer did not present an end-entity certificate"));
      if decide (sha256 certificate = expected_hash) then Ret ()
      else Err (Tls (str "no certificate matches the pinned SHA-256 hash"))
  end.

Section client.
Context {H V : Type} `{!HeaderMap H V}.

(** The authentication request. *)
Definition auth_request (padding : bytes) (config : ClientConfig) : outcome CoreError (Request H) :=
  headers ← map_err Protocol (auth_request_to_headers padding hm_empty
              (mkAuthRequest (cc_auth config) (cc_bandwidth_max_rx config)));
  Ret (mkRequest (str "POST") URL_PATH (Some URL_HOST) headers).

(** What the client makes of the response: [tx] is also the target of its
    congestion controller and of its limiter. *)
Definition accept_response (config : ClientConfig) (response : Response H) : outcome CoreError HandshakeInfo :=
  if decide (rs_status response ≠ STATUS_AUTH_OK) then Err (Authentication (rs_status response))
  else
    let auth_response := auth_response_from_headers (rs_headers response) in
    let tx := if as_rx_auto auth_response then 0
              else negotiated_limit (cc_bandwidth_max_tx config) (as_rx auth_response) in
    Ret (mkHandshakeInfo (as_udp_enabled auth_response) tx).

(** [Client::connect]: [establish] is the QUIC connection, with the identity
    of the peer, and [exchange] the HTTP/3 exchange. *)
Definition client_connect (sha256 : bytes → bytes) (padding : bytes)
    (establish : outcome CoreError peer_identity)
    (exchange : Request H → outcome CoreError (Response H)) (config : ClientConfig)
    : outcome CoreError HandshakeInfo :=
  if decide (cc_server_name config = []) then Err (Config (str "server_name must not be empty"))
  else
    identity ← establish;
    _ ← verify_pinned_certificate sha256 identity (cc_pinned_sha256 config);
    request ← auth_request padding config;
    response ← exchange request;
    accept_response config response.
End client.

(** [Client::tcp], on the two halves of a new stream: [recv] is what the
    server sends. *)
Definition client_tcp (padding : bytes) (send : writer) (recv : reader) (addr : bytes)
    : outcome CoreError (writer * reader) :=
  send ← rt_write_tcp_request padding send addr;
  '((ok, message), recv) ← rt_read_tcp_response recv;
  if (ok : bool) then Ret (send, recv) else Err (Dial message).

(** [run_client_health_check]; [read_to_end] reads the rest of the stream. *)
Definition health_check (padding : bytes) (read_to_end : reader → outcome io_error bytes)
    (send : writer) (recv : reader) : outcome CoreError writer :=
  '(send, recv) ← client_tcp padding send recv HEALTH_CHECK_DEST;
  send ← map_err core_error_of_io (write_all send (str "ping"));
  response ← map_err core_error_of_io (read_to_end recv);
  if decide (response ≠ str "pong") then Err (Dial (str "unexpected healthcheck response"))
  else Ret send.

(** ** The two ends together *)

(** The server's answer to a request, as the client's exchange. *)
Definition server_exchange {H V} `{!HeaderMap H V} (padding : bytes) (st : ServerState) (remote : bytes)
    (request : Request H) : outcome CoreError (Response H) :=
  '(response, _) ← snd (decide_request padding st remote request 0);
  Ret response.

(** ** Properties *)

(** C2: the handshake end to end. A client whose connection and pin check
    succeeded, against the server: if the authenticator accepts its password
    the client succeeds, UDP is enabled exactly if the server enables it, each
    end transmits at the minimum of its own limit and the other's declared
    receive limit (no limit at all if the server ignores client bandwidth), and
    the server goes on to serve at that rate; if it refuses, the client gets
    the status 404 and the server serves nothing. *)
Theorem handshake_end_to_end {H V} `{!HeaderMap H V} `{!HeaderMapLaws H V}
    sha256 pad1 pad2 st remote identity config :
  cc_server_name config ≠ [] → verify_pinned_certificate sha256 identity (cc_pinned_sha256 config) = Ret () →
  header_text (cc_auth config) → is_u64 (cc_bandwidth_max_rx config) → is_u64 (sv_bandwidth_max_rx st) →
  sampled AUTH_REQUEST_PADDING pad1 → sampled AUTH_RESPONSE_PADDING pad2 →
  ∃ request : Request H, auth_request pad1 config = Ret request ∧
  let result := client_connect sha256 pad1 (Ret identity) (server_exchange pad2 st remote) config in
  let served := snd (decide_request pad2 st remote request 0) in
  match sv_authenticator st remote (cc_auth config) (cc_bandwidth_max_rx config) with
  | Some _ =>
      result = Ret (mkHandshakeInfo (negb (sv_disable_udp st))
        (if sv_ignore_client_bandwidth st then 0
         else negotiated_limit (cc_bandwidth_max_tx config) (sv_bandwidth_max_rx st))) ∧
      ∃ response, served = Ret (response, Serving
        (if sv_ignore_client_bandwidth st then 0
         else negotiated_limit (sv_bandwidth_max_tx st) (cc_bandwidth_max_rx config)))
  | None => result = Err (Authentication 404) ∧ ∃ response, served = Ret (response, Held)
  end.
Proof.
  intros Hn Hpin Ha Hr1 Hr2 Hp1 Hp2. unfold auth_request, client_connect.
  rewrite decide_False by done. cbn [mbind outcome_bind]. rewrite Hpin. cbn [mbind outcome_bind]. unfold auth_request.
  destruct (auth_request_headers pad1 (hm_empty : H) (mkAuthRequest (cc_auth config) (cc_bandwidth_max_rx config)) Ha Hr1 Hp1)
    as (h & -> & Hh). cbn [map_err mbind outcome_bind].
  eexists. split; [done|]. cbv zeta. unfold server_exchange, decide_request, valid_auth_request.
  cbn [rq_method rq_path rq_host rq_headers]. rewrite !bool_decide_true by done. cbn [andb negb]. rewrite Hh. cbn [ar_auth ar_rx].
  destruct (sv_authenticator st remote _ _) as [id|]; cbn [snd mbind outcome_bind]; [|by split; eauto].
  destruct (auth_response_headers pad2 (hm_empty : H)
    (mkAuthResponse (negb (sv_disable_udp st)) (sv_bandwidth_max_rx st) (sv_ignore_client_bandwidth st)) Hr2 Hp2)
    as (h2 & -> & Hh2). cbn [map_err mbind outcome_bind]. split; [|eauto].
  unfold accept_response. cbn [rs_status rs_headers]. rewrite decide_False by tauto. rewrite Hh2. cbn.
  by destruct (sv_ignore_client_bandwidth st).
Qed.

Lemma handshake_end_to_end_witness :
  client_connect (H:=gmap bytes bytes) (fun x => x) (replicate 256 97) (Ret None)
    (server_exchange (replicate 256 98)
       (mkServerState (password_authenticate (password_new (str "pw"))) false false 0 5000 7000 false) [])
    (mkClientConfig (str "example.com") (str "pw") 9000 4000 None)
  = Ret (mkHandshakeInfo true 7000).
Proof.
  destruct (handshake_end_to_end (H:=gmap bytes bytes) (fun x => x) (replicate 256 97) (replicate 256 98)
    (mkServerState (password_authenticate (password_new (str "pw"))) false false 0 5000 7000 false) [] None
    (mkClientConfig (str "example.com") (str "pw") 9000 4000 None)) as (request & _ & Hr).
  - discriminate.
  - reflexivity.
  - by_decide.
  - vm_compute. split; [discriminate|reflexivity].
  - vm_compute. split; [discriminate|reflexivity].
  - by_decide.
  - by_decide.
  - exact (proj1 Hr).
Defined.

(** The bytes a stream's server writes, as what the client then reads, followed
    by whatever the remote sends. *)
Definition replies {R} (s : tcp_served R) (down : bytes) (e : io_error) : reader :=
  Reader (wr_out (ts_send s) ++ down) e.

(** C6: opening a stream end to end. For a target of 1 to 2048 bytes that is
    not one of the built-in names, the server dials exactly that target. If the
    dial succeeds the client's [tcp] returns, the server relays, and each side
    starts exactly at the other's payload; if it fails the client gets the dial
    error with the server's text and the server relays nothing. *)
Theorem stream_end_to_end {R} connect read_to_end pad1 pad2 a up down e e' speed out :
  sampled TCP_REQUEST_PADDING pad1 → sampled TCP_RESPONSE_PADDING pad2 →
  utf8_valid a = true → bytes_ok a → 1 ≤ len a ≤ MAX_ADDRESS_LENGTH → bytes_ok up → bytes_ok down →
  is_healthcheck_request a = false → is_speedtest_request a = false →
  let served := handle_tcp_stream (R:=R) connect read_to_end (Ret ()) pad2 speed (Writer [] None)
                  (Reader (tcp_request_wire pad1 a ++ up) e) in
  let opened := client_tcp pad1 (Writer out None) (replies served down e') a in
  match connect a with
  | Ret remote =>
      opened = Ret (Writer (out ++ tcp_request_wire pad1 a) None, Reader down e') ∧
      ts_result served = Ret (RelayTo remote (Reader up e)) ∧ ts_finished served = false
  | Err err =>
      utf8_valid (io_error_text err) = true → bytes_ok (io_error_text err) →
      len (io_error_text err) ≤ MAX_MESSAGE_LENGTH →
      opened = Err (Dial (io_error_text err)) ∧ ts_result served = Err (Dial (io_error_text err)) ∧
      ts_finished served = true
  | Panic => True
  end.
Proof.
  intros Hp1 Hp2 Hu Ha Hl Hup Hdown Hh Hs served opened. unfold opened, served, handle_tcp_stream.
  rewrite read_framed_wire by done. rewrite Hh, Hs. unfold serve_dial, MAX_ADDRESS_LENGTH, MAX_MESSAGE_LENGTH in *.
  destruct (connect a) as [remote|err|]; [| |done].
  - rewrite rt_write_tcp_response_ok by done. split; [|done]. unfold client_tcp, replies. cbn [ts_send wr_out app].
    rewrite rt_write_tcp_request_ok by (unfold MAX_VARINT; (done || lia)). cbn [mbind outcome_bind].
    rewrite rt_read_response_wire by (done || apply str_ok). done.
  - intros Hu' Ha' Hl'. rewrite rt_write_tcp_response_ok by (unfold MAX_VARINT; (done || lia)).
    cbn [ignore_write finish_with]. split; [|done]. unfold client_tcp, replies. cbn [ts_send wr_out app].
    rewrite rt_write_tcp_request_ok by (unfold MAX_VARINT; (done || lia)). cbn [mbind outcome_bind].
    by rewrite rt_read_response_wire by done.
Qed.

Lemma stream_end_to_end_witness :
  client_tcp (replicate 64 97) (Writer [] None)
    (replies (handle_tcp_stream (R:=unit) (fun _ => Err (IoOther (str "refused"))) (fun _ _ => Err []) (Ret ())
       (replicate 128 97) false (Writer [] None)
       (Reader (tcp_request_wire (replicate 64 97) (str "example.com:80") ++ []) (IoOther []))) [] (IoOther []))
    (str "example.com:80")
  = Err (Dial (str "refused")).
Proof.
  refine (proj1 (stream_end_to_end (R:=unit) (fun _ => Err (IoOther (str "refused"))) (fun _ _ => Err [])
    (replicate 64 97) (replicate 128 97) (str "example.com:80") [] [] (IoOther []) (IoOther []) false []
    _ _ _ _ _ _ _ _ _ _ _ _)).
  all: first [reflexivity | by_decide].
Defined.

(** The health check end to end. Against a server whose stream gives the
    client's bytes, the client's health check succeeds: the server answers
    [pong] without dialing anything, for every padding drawn by both ends. *)
Theorem health_check_end_to_end {R} connect read_to_end rest_of pad1 pad2 speed out e e' :
  sampled TCP_REQUEST_PADDING pad1 → sampled TCP_RESPONSE_PADDING pad2 →
  read_to_end (Reader (str "ping") e) 64 = Ret (str "ping") →
  rest_of (Reader (str "pong") e') = Ret (str "pong") →
  let served := handle_tcp_stream (R:=R) connect read_to_end (Ret ()) pad2 speed (Writer [] None)
                  (Reader (tcp_request_wire pad1 HEALTH_CHECK_DEST ++ str "ping") e) in
  ts_result served = Ret Answered ∧ ts_finished served = true ∧
  health_check pad1 rest_of (Writer out None) (replies served [] e')
  = Ret (Writer (out ++ tcp_request_wire pad1 HEALTH_CHECK_DEST ++ str "ping") None).
Proof.
  intros Hp1 Hp2 Hr Hrest served. unfold served, handle_tcp_stream.
  rewrite read_framed_wire by (try done; apply str_ok).
  change (is_healthcheck_request HEALTH_CHECK_DEST) with true. cbn iota. unfold serve_healthcheck.
  rewrite rt_write_tcp_response_ok by done. rewrite Hr. rewrite decide_False by naive_solver.
  cbn [write_all wr_fail wr_out]. split_and!; [done|done|]. unfold health_check, client_tcp, replies. cbn [ts_send wr_out].
  rewrite rt_write_tcp_request_ok by done. cbn [mbind outcome_bind]. rewrite app_nil_r, app_nil_l.
  rewrite rt_read_response_wire by (try done; apply str_ok). cbn [mbind outcome_bind write_all wr_fail wr_out map_err].
  rewrite Hrest. cbn [map_err mbind outcome_bind]. rewrite decide_False by naive_solver. by rewrite <- app_assoc.
Qed.

Lemma health_check_end_to_end_witness :
  health_check (replicate 64 97) (fun r => Ret (rd_data r)) (Writer [] None)
    (replies (handle_tcp_stream (R:=unit) (fun _ => Panic) (fun r _ => Ret (rd_data r)) (Ret ()) (replicate 128 97)
       false (Writer [] None)
       (Reader (tcp_request_wire (replicate 64 97) HEALTH_CHECK_DEST ++ str "ping") (IoOther []))) [] (IoOther []))
  = Ret (Writer ([] ++ tcp_request_wire (replicate 64 97) HEALTH_CHECK_DEST ++ str "ping") None).
Proof.
  apply (health_check_end_to_end (R:=unit) (fun _ => Panic) (fun r _ => Ret (rd_data r)) (fun r => Ret (rd_data r))
    (replicate 64 97) (replicate 128 97) false [] (IoOther []) (IoOther [])).
  - by_decide.
  - by_decide.
  - reflexivity.
  - reflexivity.
Defined.
