(* ===== verification/UdpSend.v ===== *)
(** * Sending UDP messages over datagrams ([core/src/udp.rs])

    [send_udp_message] sends a message in one datagram, or in fragments if the
    connection finds it too large. The datagram half of a connection is the one of
    the vendored quinn ([vendor/quinn], [vendor/quinn-proto]): it discards old
    datagrams when its buffer is full, and its driver transmits what is queued
    meanwhile. A datagram first waits for the bandwidth limiter, if there is one. *)
From S2P Require Import Prelude Errors Varint RustStr Proxy Frag Float Limit.
Local Open Scope Z_scope.

Inductive SendDatagramError :=
| UnsupportedByPeer
| Disabled
| TooLarge
| ConnectionLost.

(** The text the error prints. *)
Definition send_datagram_error_text (e : SendDatagramError) : bytes :=
  match e with
  | UnsupportedByPeer => str "datagrams not supported by peer"
  | Disabled => str "datagram support disabled"
  | TooLarge => str "datagram too large"
  | ConnectionLost => str "connection lost"
  end.
(** [impl From<quinn::SendDatagramError> for CoreError]. *)
Definition core_error_of_send (e : SendDatagramError) : CoreError := Transport (send_datagram_error_text e).

(** ** The datagrams of a connection *)

(** A connection: whether it was lost, the sizes of its datagram buffers, the
    largest datagram it takes now, the datagrams that are queued with their total
    size, those that were transmitted, and what its driver does before each of the
    next sends: how many of the queued ones it transmits, and the largest datagram
    the connection takes from then on. *)
Record Connection := mkConnection {
  cn_error : bool;
  cn_receive_buffer : option Z;
  cn_send_buffer : Z;
  cn_max : option Z;
  cn_outgoing : list bytes;
  cn_outgoing_total : Z;
  cn_transmitted : list bytes;
  cn_driver : list (nat * option Z)
}.
Definition set_outgoing (outgoing : list bytes) (total : Z) (c : Connection) : Connection :=
  mkConnection (cn_error c) (cn_receive_buffer c) (cn_send_buffer c) (cn_max c) outgoing total (cn_transmitted c) (cn_driver c).
(** [DatagramState::write], [n] times. *)
Fixpoint write_datagrams (n : nat) (c : Connection) : Connection :=
  match n, cn_outgoing c with
  | S n, datagram :: outgoing =>
      write_datagrams n (mkConnection (cn_error c) (cn_receive_buffer c) (cn_send_buffer c) (cn_max c) outgoing
        (cn_outgoing_total c - len datagram) (cn_transmitted c ++ [datagram]) (cn_driver c))
  | _, _ => c
  end.
Definition drive (c : Connection) : Connection :=
  match cn_driver c with
  | [] => c
  | (n, max) :: driver =>
      let c := write_datagrams n c in
      mkConnection (cn_error c) (cn_receive_buffer c) (cn_send_buffer c) max (cn_outgoing c) (cn_outgoing_total c)
        (cn_transmitted c) driver
  end.
(** The datagrams dropped to make space, from the oldest on. *)
Fixpoint make_space (limit : Z) (outgoing : list bytes) (total : Z) : outcome SendDatagramError (list bytes * Z) :=
  if decide (limit < total) then
    match outgoing with
    | prev :: outgoing => make_space limit outgoing (total - len prev)
    | [] => Panic
    end
  else Ret (outgoing, total).
(** [Datagrams::send(data, true)]. *)
Definition datagrams_send (data : bytes) (c : Connection) : outcome SendDatagramError Connection :=
  match cn_receive_buffer c with
  | None => Err Disabled
  | Some _ =>
      match cn_max c with
      | None => Err UnsupportedByPeer
      | Some max =>
          if decide (max < len data) then Err TooLarge
          else
            '(outgoing, total) ← make_space (cn_send_buffer c) (cn_outgoing c) (cn_outgoing_total c);
            Ret (set_outgoing (outgoing ++ [data]) (total + len data) c)
      end
  end.
(** [Connection::send_datagram]. *)
Definition send_datagram (c : Connection) (data : bytes) : outcome SendDatagramError Connection :=
  if cn_error c then Err ConnectionLost else datagrams_send data c.
Definition max_datagram_size (c : Connection) : option Z := cn_max c.

(** Everything the connection was given and did not discard, in order. *)
Definition handed (c : Connection) : list bytes := cn_transmitted c ++ cn_outgoing c.
(** A connection that takes datagrams of up to [k] bytes, now and before each of
    the next sends, and has room for [room] bytes more. *)
Definition takes (k room : Z) (c : Connection) : Prop :=
  cn_error c = false ∧ is_Some (cn_receive_buffer c) ∧ cn_max c = Some k ∧ Forall (fun s => s.2 = Some k) (cn_driver c) ∧
  cn_outgoing_total c = len (concat (cn_outgoing c)) ∧ 0 ≤ room ∧ cn_outgoing_total c + room ≤ cn_send_buffer c.

Lemma write_datagrams_takes k room n c : takes k room c → takes k room (write_datagrams n c) ∧ handed (write_datagrams n c) = handed c.
Proof.
  revert c. induction n as [|n IH]; intros c Hc; [done|]. cbn [write_datagrams]. destruct (cn_outgoing c) as [|dg out] eqn:E; [done|].
  set (c1 := mkConnection _ _ _ _ _ _ _ _). assert (takes k room c1) as H1.
  { destruct Hc as (H1 & H2 & H3 & H3' & H4 & H5 & H6). rewrite E in H4. cbn [concat] in H4. rewrite len_app in H4. pose proof (len_nonneg dg).
    unfold takes, c1. cbn. split_and!; try done; lia. }
  destruct (IH c1 H1) as [? Hh]. split; [done|]. rewrite Hh. unfold handed, c1. cbn. rewrite E. by rewrite <- app_assoc.
Qed.
Lemma drive_takes k room c : takes k room c → takes k room (drive c) ∧ handed (drive c) = handed c.
Proof.
  intros Hc. unfold drive. destruct (cn_driver c) as [|[n max] driver] eqn:E; [done|].
  destruct (write_datagrams_takes k room n c Hc) as [(H1 & H2 & H3 & _ & H4) Hh]. split; [|exact Hh].
  destruct Hc as (_ & _ & _ & Hd & _). rewrite E in Hd. apply Forall_cons in Hd as [Hm Hd]. cbn in Hm. by unfold takes.
Qed.
Lemma send_datagram_takes k room c b :
  takes k room c → len b ≤ k → len b ≤ room →
  ∃ c', send_datagram c b = Ret c' ∧ takes k (room - len b) c' ∧ handed c' = handed c ++ [b].
Proof.
  intros (H1 & [rb H2] & H3 & H3' & H4 & H5 & H6) Hb Hr. unfold send_datagram, datagrams_send. rewrite H1, H2, H3.
  rewrite decide_False by lia. pose proof (len_nonneg b).
  assert (make_space (cn_send_buffer c) (cn_outgoing c) (cn_outgoing_total c) = Ret (cn_outgoing c, cn_outgoing_total c)) as ->
    by (destruct (cn_outgoing c); cbn; by rewrite decide_False by lia).
  cbn. eexists. split; [done|]. split.
  - unfold takes. cbn. rewrite concat_app, len_app. cbn. rewrite app_nil_r, H2. split_and!; done || lia.
  - unfold handed in *. cbn. by rewrite app_assoc.
Qed.
Lemma send_datagram_large k room c b : takes k room c → k < len b → send_datagram c b = Err TooLarge.
Proof.
  intros (H1 & [rb H2] & H3 & _) Hb. unfold send_datagram, datagrams_send. rewrite H1, H2, H3. by rewrite decide_True.
Qed.

(** ** The bandwidth limiter *)

(** The limiter of a session with the instant up to which it was used, and how
    late the looks of each wait come. *)
Record timed_limiter := mkTimed { tl_limiter : BandwidthLimiter; tl_now : Z; tl_delays : list Z }.
(** [limiter.wait_for(size)]: the state after the wait, or [None] if it does
    not end. *)
Definition wait_budget (l : option timed_limiter) (n : Z) : option (option timed_limiter) :=
  match l with
  | None => Some None
  | Some l =>
      match wait_for (E:=unit) (tl_delays l) (tl_now l) (tl_limiter l) n with
      | Ret (Some _, lim, now) => Some (Some (mkTimed lim now (tl_delays l)))
      | _ => None
      end
  end.
(** No limiter, or one that can serve [n] bytes at once. *)
Definition affords (n : Z) (l : option timed_limiter) : Prop :=
  ∀ t, l = Some t →
    limiter_inv (tl_limiter t) ∧ rate_bytes_per_sec (tl_limiter t) ≤ MAX_TIMED_RATE ∧ n ≤ 131072 ∧ n ≤ burst_bytes (tl_limiter t) ∧
    Forall (fun d => 0 ≤ d) (tl_delays t) ∧ (4 ≤ length (tl_delays t))%nat.
Lemma wait_budget_affords n l size : affords n l → 0 ≤ size ≤ n → ∃ l', wait_budget l size = Some l' ∧ affords n l'.
Proof.
  intros Hl Hs. destruct l as [t|]; [|by exists None]. destruct (Hl t eq_refl) as (Hi & Hr & Hn & Hb & Hd & Hlen). unfold wait_budget.
  destruct (wait_for_served (E:=unit) (tl_delays t) (tl_now t) (tl_limiter t) size) as (lim' & now' & -> & Hi' & Hr' & Hb'); try done; [lia|lia|].
  eexists. split; [done|]. intros ? [= <-]. cbn. rewrite Hr', Hb'. by split_and!.
Qed.

(** ** Sending *)

(** What a call gives, with the connection and the limiter after it; [None]
    when a wait for the budget does not end. The driver works during the wait. *)
Definition sending (E : Type) : Type := option (outcome E unit * Connection * option timed_limiter).

Definition send_single_udp_message (c : Connection) (l : option timed_limiter) (m : UDPMessage) : sending SendDatagramError :=
  match size (E:=SendDatagramError) m with
  | Ret n =>
      let buffer := replicate (Z.to_nat n) 0 in
      match serialize (E:=SendDatagramError) m buffer with
      | Ret (Some (n, buffer)) =>
          match wait_budget l n with
          | None => None
          | Some l =>
              let c := drive c in
              match slice buffer 0 n ≫= send_datagram c with
              | Ret c => Some (Ret (), c, l)
              | Err e => Some (Err e, c, l)
              | Panic => Some (Panic, c, l)
              end
          end
      | Ret None => Some (Err TooLarge, c, l)
      | Err e => Some (Err e, c, l)
      | Panic => Some (Panic, c, l)
      end
  | Err e => Some (Err e, c, l)
  | Panic => Some (Panic, c, l)
  end.

Fixpoint send_fragments (c : Connection) (l : option timed_limiter) (fs : list UDPMessage) : sending CoreError :=
  match fs with
  | [] => Some (Ret (), c, l)
  | f :: fs =>
      match send_single_udp_message c l f with
      | None => None
      | Some (Ret (), c, l) => send_fragments c l fs
      | Some (Err e, c, l) => Some (Err (core_error_of_send e), c, l)
      | Some (Panic, c, l) => Some (Panic, c, l)
      end
  end.

(** [send_udp_message]; [random] is the packet id drawn. *)
Definition send_udp_message (checks : bool) (random : Z) (c : Connection) (l : option timed_limiter) (m : UDPMessage) : sending CoreError :=
  match send_single_udp_message c l m with
  | None => None
  | Some (Ret (), c, l) => Some (Ret (), c, l)
  | Some (Err TooLarge, c, l) =>
      let max_size := default MAX_DATAGRAM_FRAME_SIZE (max_datagram_size c) in
      match header_size (E:=CoreError) m with
      | Ret h =>
          if decide (max_size ≤ h)
          then Some (Err (Transport (str "udp datagram header exceeds peer datagram size")), c, l)
          else
            let fragmented := mkUDPMessage (session_id m) (Z.max random 1) (frag_id m) (frag_count m)
                                (addr m) (data m) in
            match frag_udp_message (E:=CoreError) checks fragmented max_size with
            | Ret fs => send_fragments c l fs
            | Err e => Some (Err e, c, l)
            | Panic => Some (Panic, c, l)
            end
      | Err e => Some (Err e, c, l)
      | Panic => Some (Panic, c, l)
      end
  | Some (Err e, c, l) => Some (Err (core_error_of_send e), c, l)
  | Some (Panic, c, l) => Some (Panic, c, l)
  end.

(** [UdpSession::send] and the message the server's receive loop makes. *)
Definition session_message (sid : Z) (a d : bytes) : UDPMessage := mkUDPMessage sid 0 0 1 a d.

Lemma send_single_spec c l m k room n :
  takes k room c → affords n l → len (addr m) ≤ MAX_VARINT → len (udp_wire m) ≤ n →
  ∃ c' l', affords n l' ∧
    (len (udp_wire m) ≤ k → len (udp_wire m) ≤ room →
       send_single_udp_message c l m = Some (Ret (), c', l') ∧ takes k (room - len (udp_wire m)) c' ∧ handed c' = handed c ++ [udp_wire m]) ∧
    (k < len (udp_wire m) → send_single_udp_message c l m = Some (Err TooLarge, c', l') ∧ takes k room c' ∧ handed c' = handed c).
Proof.
  intros Hc Hl Ha Hn. unfold send_single_udp_message. rewrite size_spec by done. rewrite <- len_udp_wire.
  pose proof (len_nonneg (udp_wire m)) as Hw.
  rewrite serialize_spec by (rewrite ?len_replicate; (done || lia)).
  destruct (wait_budget_affords n l (len (udp_wire m)) Hl ltac:(lia)) as (l' & -> & Hl').
  rewrite slice_prefix by done. cbn [mbind outcome_bind]. destruct (drive_takes k room c Hc) as [Hd Hh].
  destruct (decide (len (udp_wire m) ≤ k)) as [Hfit|Hbig]; [destruct (decide (len (udp_wire m) ≤ room)) as [Hroom|Hroom]|].
  - destruct (send_datagram_takes k room _ (udp_wire m) Hd Hfit Hroom) as (c' & -> & H1 & H2). exists c', l'. rewrite H2, Hh.
    split_and!; [done|intros _ _; by split_and!|lia].
  - exists (drive c), l'. split_and!; [done|lia|lia].
  - exists (drive c), l'. rewrite (send_datagram_large k room) by (done || lia). split_and!; [done|lia|intros _; by split_and!].
Qed.

Lemma send_fragments_spec c l fs k room n :
  takes k room c → affords n l → k ≤ n → len fs * k ≤ room →
  Forall (fun f => len (addr f) ≤ MAX_VARINT ∧ len (udp_wire f) ≤ k) fs →
  ∃ c' l', send_fragments c l fs = Some (Ret (), c', l') ∧ handed c' = handed c ++ map udp_wire fs.
Proof.
  intros Hc Hl Hkn Hroom Hfs. revert c l room Hc Hl Hroom. induction Hfs as [|f fs [Ha Hw] _ IH]; intros c l room Hc Hl Hroom; cbn [send_fragments map].
  { exists c, l. by rewrite app_nil_r. }
  rewrite len_cons in Hroom. pose proof (len_nonneg fs). pose proof (len_nonneg (udp_wire f)).
  destruct (send_single_spec c l f k room n Hc Hl Ha ltac:(lia)) as (c1 & l1 & Hl1 & Hok & _).
  destruct (Hok Hw ltac:(nia)) as (-> & H1 & H2). destruct (IH c1 l1 (room - len (udp_wire f)) H1 Hl1 ltac:(nia)) as (c' & l' & -> & H3).
  exists c', l'. by rewrite H3, H2, <- app_assoc.
Qed.

(** What a receiver makes of the datagrams of a session: those that do not
    parse are skipped, the others go through its defragger. *)
Fixpoint receive_all (checks : bool) (d : Defragger) (dgs : list bytes)
    : outcome CoreError (list UDPMessage * Defragger) :=
  match dgs with
  | [] => Ret ([], d)
  | dg :: dgs =>
      match parse_udp_message dg with
      | Panic => Panic
      | Err _ => receive_all checks d dgs
      | Ret m =>
          '(o, d) ← feed checks d m;
          '(ms, d) ← receive_all checks d dgs;
          Ret (option_list o ++ ms, d)
      end
  end.

Definition wire_ok (m : UDPMessage) : Prop := udp_message_ok m ∧ 1 ≤ len (addr m) ≤ MAX_MESSAGE_LENGTH.

Lemma receive_wires checks d ms os d' :
  Forall wire_ok ms → feed_all (E:=CoreError) checks d ms = Ret (os, d') →
  receive_all checks d (map udp_wire ms) = Ret (omap id os, d').
Proof.
  intros Hms. revert d os. induction Hms as [|m ms [Hok Ha] _ IH]; intros d os; cbn [feed_all receive_all map].
  { by intros [= <- <-]. }
  rewrite parse_udp_wire by done. intros (x & Hf & Hrest)%bind_Ret_inv. destruct x as [o d1].
  apply bind_Ret_inv in Hrest as ([os' d2] & Hf2 & [= <- <-]). rewrite Hf. cbn [mbind outcome_bind].
  rewrite (IH _ _ Hf2). cbn. by destruct o.
Qed.

Lemma omap_replicate_None {A} n (x : A) : omap id (replicate n None ++ [Some x]) = [x].
Proof. induction n; [done|]. cbn. done. Qed.

Lemma snoc_cases {A} (l : list A) : l ≠ [] → ∃ k x, l = k ++ [x].
Proof. induction l as [|x l _] using rev_ind; [done|]. eauto. Qed.

(** The fragments of a message, received in any order by a receiver that has no
    packet of it in progress. *)
Lemma receive_fragments checks m k fed d :
  wire_ok m → len (data m) ≤ u32_max → udp_header_len m < k ≤ u64_max →
  k < udp_header_len m + len (data m) → len (payload_chunks m k) ≤ u8_max →
  Forall datagram_message fed → defragger_inv fed d →
  needs_reset d (with_fragment m 0 (len (payload_chunks m k)) []) = true →
  let fs := fragments_of m (len (payload_chunks m k)) 0 (payload_chunks m k) in
  Forall wire_ok fs ∧ Forall (fun f => len (udp_wire f) ≤ k) fs ∧
  ∀ fs', fs' ≡ₚ fs → ∃ d', receive_all checks d (map udp_wire fs') = Ret ([with_fragment m 0 1 (data m)], d').
Proof.
  intros [Hok Ha] Hd Hk Hbig Hc Hfed Hinv Hr fs. set (cs := payload_chunks m k) in *.
  assert (Forall datagram_message fs) as Hfs by (by apply fragments_datagram; [| |lia]).
  assert (Forall wire_ok fs) as Hwok.
  { rewrite Forall_forall in Hfs |- *. intros f Hf. destruct (Hfs f Hf) as [? _]. split; [done|].
    apply list_elem_of_lookup in Hf as [i Hf]. apply fragments_of_lookup in Hf as (c & _ & ->). done. }
  assert (2 ≤ len cs) as H2 by (apply payload_chunks_two; lia).
  split_and!; [done| |].
  { apply Forall_forall. intros f [i Hf]%list_elem_of_lookup. apply fragments_of_lookup in Hf as (c & Hi & ->).
    rewrite len_udp_wire. assert (1 ≤ len c ≤ k - udp_header_len m)
      by (eapply chunks_bounds; [|by eapply list_elem_of_lookup_2]; lia).
    unfold udp_header_len in *. cbn. lia. }
  intros fs' Hperm. destruct (snoc_cases fs') as (arr & last & Hsnoc).
  { intros ->. apply Permutation_length in Hperm. unfold fs in Hperm. rewrite length_fragments_of in Hperm. unfold len in H2. simpl in Hperm. lia. }
  assert (NoDup fs') as Hnd by (rewrite Hperm; apply NoDup_fragments). rewrite Hsnoc in Hnd. apply NoDup_app in Hnd as (_ & Hdis & _).
  assert (∀ f, f ∈ fs ↔ f ∈ arr ++ [last]) as Hel by (intros f; by rewrite <- Hsnoc, Hperm).
  destruct (collect_arrivals checks m cs (fed ++ fs) (conj H2 Hc) Hfs ltac:(by apply Forall_app) ltac:(set_solver)
    (E:=CoreError) d arr last) as (d' & Hall & _).
  - revert Hinv. apply defragger_inv_mono. set_solver.
  - done.
  - fold fs. set_solver.
  - fold fs. set_solver.
  - intros Hin. apply (Hdis last Hin). set_solver.
  - fold fs. set_solver.
  - exists d'. erewrite receive_wires; [|by rewrite Hperm|by rewrite Hsnoc].
    rewrite omap_replicate_None. unfold cs, payload_chunks. by rewrite chunks_concat by lia.
Qed.

(** ** Properties *)

(** C5: UDP end to end. On a live connection that takes datagrams of up to [k]
    bytes while the message is sent, with [k] above the message's header, sending
    a message of a session succeeds, with no bandwidth limiter or with one of at
    most 8 Gbit/s whose burst (and 128 KiB) the whole message does not exceed,
    however late its timers fire: if the message needs at most 255 fragments and
    the send buffer has room for them, none of the datagrams queued is discarded
    and each fits the limit. And if they all arrive, in any order, at a receiver
    that some earlier traffic led to its state and that has no packet of the id
    drawn in progress, it returns exactly one message, with the payload, address
    and session that were sent. *)
Theorem udp_end_to_end checks random c l k room sid a d fed os dd :
  let m := session_message sid a d in
  let fragments := (len d + (k - udp_header_len m) - 1) / (k - udp_header_len m) in
  takes k room c → affords (len (udp_wire m)) l → is_u16 random → is_u32 sid →
  utf8_valid a = true → bytes_ok a → 1 ≤ len a ≤ MAX_MESSAGE_LENGTH → bytes_ok d → len d ≤ u32_max →
  udp_header_len m < k ≤ u64_max → fragments ≤ u8_max → Z.max 1 fragments * k ≤ room →
  Forall datagram_message fed → feed_all (E:=CoreError) checks defragger_default fed = Ret (os, dd) →
  packets dd !! Z.max random 1 = None →
  ∃ c' l' dgs, send_udp_message checks random c l m = Some (Ret (), c', l') ∧
    handed c' = handed c ++ dgs ∧ Forall (fun dg => len dg ≤ k) dgs ∧
    ∀ dgs', dgs' ≡ₚ dgs →
      ∃ m' d', receive_all checks dd dgs' = Ret ([m'], d') ∧ data m' = d ∧ addr m' = a ∧ session_id m' = sid.
Proof.
  intros m fragments Hlive Hl Hrnd Hsid Hu Ha Hal Hd Hdl Hh Hc Hroom Hfed Hdd Hnone.
  assert (len a ≤ MAX_VARINT) as Hav by (unfold MAX_MESSAGE_LENGTH, MAX_VARINT in *; lia).
  assert (k ≤ room ∧ fragments * k ≤ room) as [Hkr Hfr].
  { assert (0 ≤ udp_header_len m) by (unfold udp_header_len; pose proof (len_nonneg (addr m)); pose proof (varint_size_bounds (len (addr m))); lia).
    pose proof (Z.le_max_l 1 fragments). pose proof (Z.le_max_r 1 fragments). clearbody fragments. split; nia. }
  destruct (send_single_spec c l m k room _ Hlive Hl Hav ltac:(done)) as (c1 & l1 & Hl1 & Hfit & Hbig).
  destruct (decide (len (udp_wire m) ≤ k)) as [Hle|Hgt].
  { destruct (Hfit Hle ltac:(lia)) as (Hs & _ & Hq). exists c1, l1, [udp_wire m]. unfold send_udp_message. rewrite Hs.
    split_and!; [done|done|by constructor|]. intros dgs' ->%Permutation_singleton_r. exists m, dd. cbn [receive_all]. rewrite parse_udp_wire; [done| |done].
    unfold udp_message_ok, m, is_u16, is_u8. cbn. split_and!; (done || lia). }
  destruct (Hbig ltac:(lia)) as (Hs & Hlive1 & Hh1). unfold send_udp_message. rewrite Hs. rewrite header_size_spec by done.
  assert (max_datagram_size c1 = Some k) as -> by apply Hlive1. cbn [default from_option id]. rewrite decide_False by lia.
  set (m2 := mkUDPMessage sid (Z.max random 1) 0 1 a d).
  assert (udp_header_len m2 = udp_header_len m) as Hh2 by done.
  assert (wire_ok m2) as Hok.
  { unfold wire_ok, udp_message_ok, m2, is_u16, is_u8 in *. cbn. split_and!; (done || lia). }
  pose proof Hgt as Hgt'. rewrite len_udp_wire in Hgt'. assert (len (data m) = len d) as Hdata by done.
  destruct (feed_all_step (E:=CoreError) checks [] defragger_default fed) as (os' & d0 & Hd0 & _ & Hinv & _);
    [apply default_inv|constructor|done|]. rewrite Hdd in Hd0. injection Hd0 as <- <-.
  assert (len (payload_chunks m2 k) = fragments) as Hn by (by rewrite len_payload_chunks by (rewrite Hh2; lia)).
  assert (len (payload_chunks m2 k) ≤ u8_max) as Hc' by (by rewrite Hn).
  destruct (receive_fragments checks m2 k fed dd Hok Hdl) as (Hwok & Hwl & Hrecv);
    [rewrite Hh2; lia|rewrite Hh2; cbn; lia|lia|done|exact Hinv|unfold needs_reset; cbn; by rewrite Hnone|].
  assert (frag_udp_message (E:=CoreError) checks m2 k = Ret (fragments_of m2 (len (payload_chunks m2 k)) 0 (payload_chunks m2 k))) as Hfrag
    by (apply frag_udp_message_spec; rewrite ?Hh2; cbn; (done || lia)).
  set (fs := fragments_of m2 _ 0 _) in *.
  destruct (send_fragments_spec c1 l1 fs k room (len (udp_wire m)) Hlive1 Hl1 ltac:(lia)) as (c' & l' & Hsend & Hq).
  { assert (len fs = fragments) as -> by (unfold fs, len; rewrite length_fragments_of; exact Hn). exact Hfr. }
  { rewrite Forall_forall in Hwok, Hwl |- *. intros f Hf. split; [|by apply Hwl]. destruct (Hwok f Hf) as [_ ?].
    unfold MAX_MESSAGE_LENGTH, MAX_VARINT in *. lia. }
  exists c', l', (map udp_wire fs).
  change (mkUDPMessage (session_id m) (Z.max random 1) (frag_id m) (frag_count m) (addr m) (data m)) with m2.
  rewrite Hfrag, Hq, Hh1. split_and!; [exact Hsend|done|by apply Forall_fmap|].
  intros dgs' (fs' & -> & Hp)%Permutation_map_inv. destruct (Hrecv fs' ltac:(done)) as [d' Hr].
  exists (with_fragment m2 0 1 d), d'. by split_and!.
Qed.

Lemma udp_end_to_end_witness :
  ∃ c' l' dgs,
    send_udp_message true 77 (mkConnection false (Some 65536) 200 (Some 20) [[1; 2]] 2 [] [(0%nat, Some 20); (1%nat, Some 20)])
      (Some (mkTimed (limiter_new 0 1000000) 0 [0; 5; 0; 1000])) (session_message 9 (str "h:53") (replicate 30 5)) = Some (Ret (), c', l') ∧
    handed c' = [[1; 2]] ++ dgs ∧
    ∀ dgs', dgs' ≡ₚ dgs → ∃ m' d', receive_all true defragger_default dgs' = Ret ([m'], d') ∧ data m' = replicate 30 5.
Proof.
  destruct (udp_end_to_end true 77 (mkConnection false (Some 65536) 200 (Some 20) [[1; 2]] 2 [] [(0%nat, Some 20); (1%nat, Some 20)])
    (Some (mkTimed (limiter_new 0 1000000) 0 [0; 5; 0; 1000])) 20 198 9 (str "h:53") (replicate 30 5) [] []
    defragger_default) as (c' & l' & dgs & H1 & H2 & _ & H3).
  - unfold takes. cbn. split_and!; [done|by eexists|done|by repeat constructor|by_decide..].
  - intros t [= <-]. cbn [tl_limiter tl_delays]. split_and!; [apply limiter_new_inv; by_decide|by_decide..].
  - by_decide.
  - by_decide.
  - reflexivity.
  - by_decide.
  - by_decide.
  - by_decide.
  - by_decide.
  - by_decide.
  - by_decide.
  - by_decide.
  - constructor.
  - reflexivity.
  - reflexivity.
  - exists c', l', dgs. split; [exact H1|]. split; [exact H2|]. intros dgs' Hp. destruct (H3 dgs' Hp) as (m' & d' & H4 & H5 & _).
    exists m', d'. split; [exact H4|exact H5].
Defined.

(** A large message under a bandwidth limit is never sent. The limiter is
    asked for the whole message before the connection is asked whether it fits
    a datagram, so that a message above the burst size (15000 bytes at rates up
    to 3.75 MB/s) waits for ever, however often the limiter is looked at,
    although its fragments would be served one by one. *)
Theorem oversized_udp_message_starves checks random c lim now delays m :
  limiter_inv lim → len (addr m) ≤ MAX_VARINT →
  burst_bytes lim < udp_header_len m + len (data m) ≤ u32_max →
  send_udp_message checks random c (Some (mkTimed lim now delays)) m = None.
Proof.
  intros Hi Ha Hb. unfold send_udp_message, send_single_udp_message. rewrite size_spec by done. rewrite <- len_udp_wire in *.
  pose proof (len_nonneg (udp_wire m)).
  rewrite serialize_spec by (rewrite ?len_replicate; (done || lia)).
  unfold wait_budget. cbn [tl_delays tl_now tl_limiter].
  destruct (wait_for_starves (E:=unit) delays now lim (len (udp_wire m)) Hi Hb) as (lim' & now' & -> & _). done.
Qed.

Lemma oversized_udp_message_starves_witness :
  send_udp_message true 1 (mkConnection false (Some 65536) 65536 (Some 1200) [] 0 [] [])
    (Some (mkTimed (limiter_new 0 1000000) 1 [0; 1000000000; 5000000000])) (session_message 1 (str "h:53") (replicate 16000 0)) = None.
Proof.
  apply (oversized_udp_message_starves true 1 (mkConnection false (Some 65536) 65536 (Some 1200) [] 0 [] []) (limiter_new 0 1000000)
    1 [0; 1000000000; 5000000000] (session_message 1 (str "h:53") (replicate 16000 0))).
  - apply limiter_new_inv. by_decide.
  - by_decide.
  - by_decide.
Defined.
