(* ===== verification/UdpClient.v ===== *)
(** * The client's UDP sessions ([core/src/udp.rs], the client half)

    The session manager, its reader task and the calls of the application run
    concurrently over shared state. The state is explicit and the atomic
    operations of the code (an atomic load, a [fetch_add], a critical section
    of the session map, one channel operation) are the events of a step
    function, so that a run is any interleaving of them. *)
From S2P Require Import Prelude Errors RustStr Proxy Frag.
Local Open Scope Z_scope.

Definition DEFAULT_CLIENT_UDP_MESSAGE_CHANNEL_SIZE : Z := 1024.

(** One bounded channel: the session id it was created for, what is queued,
    its capacity and whether the session still holds the receiver. *)
Record channel := mkChannel {
  ch_id : Z;
  ch_queue : list UDPMessage;
  ch_cap : Z;
  ch_receiver : bool
}.

(** A [UdpSession]: its id, its channel, its closed flag and its defragger. *)
Record session := mkSession {
  us_id : Z;
  us_chan : nat;
  us_closed : bool;
  us_defragger : Defragger
}.

(** Where a caller of [new_udp] is: not in it, past the check of [closed], or
    holding its id and channel. *)
Inductive caller := CIdle | CChecked (cap : Z) | CAlloc (id : Z) (chan : nat).
(** Where the reader task is: waiting for a datagram, sending a message, in
    [close_all] between its two operations, or ended. *)
Inductive reader_pc := RLoop | RSend (chan : nat) (m : UDPMessage) | RClosing | RDone.

(** [ClientUdpManager] with the tasks that run on it. *)
Record manager := mkManager {
  mg_sessions : gmap Z nat;
  mg_next_id : Z;
  mg_closed : bool;
  mg_channels : list channel;
  mg_handles : list session;
  mg_callers : list caller;
  mg_reader : reader_pc
}.

(** [ClientUdpManager::new], with [n] threads that may call it. *)
Definition manager_new (n : nat) : manager :=
  mkManager ∅ 1 false [] [] (replicate n CIdle) RLoop.

Definition set_caller (s : manager) (i : nat) (c : caller) : manager :=
  mkManager (mg_sessions s) (mg_next_id s) (mg_closed s) (mg_channels s) (mg_handles s)
    (<[i := c]> (mg_callers s)) (mg_reader s).
Definition set_reader (s : manager) (r : reader_pc) : manager :=
  mkManager (mg_sessions s) (mg_next_id s) (mg_closed s) (mg_channels s) (mg_handles s) (mg_callers s) r.
Definition set_sessions (s : manager) (m : gmap Z nat) : manager :=
  mkManager m (mg_next_id s) (mg_closed s) (mg_channels s) (mg_handles s) (mg_callers s) (mg_reader s).
Definition set_channel (s : manager) (k : nat) (c : channel) : manager :=
  mkManager (mg_sessions s) (mg_next_id s) (mg_closed s) (<[k := c]> (mg_channels s)) (mg_handles s)
    (mg_callers s) (mg_reader s).
Definition set_handle (s : manager) (h : nat) (u : session) : manager :=
  mkManager (mg_sessions s) (mg_next_id s) (mg_closed s) (mg_channels s) (<[h := u]> (mg_handles s))
    (mg_callers s) (mg_reader s).

(** [new_udp], first operation: the closed flag and the configuration are
    checked. *)
Definition new_check (s : manager) (cap : Z) : outcome CoreError unit :=
  if mg_closed s then Err (Closed (str "udp session manager closed"))
  else if decide (cap = 0) then Err (Config (str "udp session message_channel_size must be greater than 0"))
  else Ret ().

(** Second: the id is taken ([fetch_add] on a [u32]) and the channel made. *)
Definition new_alloc (s : manager) (i : nat) (cap : Z) : manager :=
  let id := mg_next_id s in
  mkManager (mg_sessions s) (as_u32 (id + 1)) (mg_closed s)
    (mg_channels s ++ [mkChannel id [] cap true]) (mg_handles s)
    (<[i := CAlloc id (length (mg_channels s))]> (mg_callers s)) (mg_reader s).

(** Third: the sender goes into the map and the session is returned. *)
Definition new_insert (s : manager) (i : nat) (id : Z) (chan : nat) : manager :=
  mkManager (<[id := chan]> (mg_sessions s)) (mg_next_id s) (mg_closed s) (mg_channels s)
    (mg_handles s ++ [mkSession id chan false defragger_default])
    (<[i := CIdle]> (mg_callers s)) (mg_reader s).

(** [ClientUdpSessionInner::close], also run by dropping a session. *)
Definition session_close (s : manager) (h : nat) (u : session) : manager :=
  if us_closed u then s
  else
    set_sessions (set_handle s h (mkSession (us_id u) (us_chan u) true (us_defragger u)))
      (delete (us_id u) (mg_sessions s)).

(** The reader, given a datagram. *)
Definition reader_dispatch (s : manager) (datagram : bytes) : manager :=
  match parse_udp_message datagram with
  | Ret m =>
      match mg_sessions s !! session_id m with
      | Some chan => set_reader s (RSend chan m)
      | None => s
      end
  | _ => s
  end.

(** The reader's [sender.send(message).await]: an error if the receiver is
    gone, blocked ([None]) while the queue is full. *)
Definition reader_send (s : manager) (chan : nat) (m : UDPMessage) : option manager :=
  c ← mg_channels s !! chan;
  if ch_receiver c then
    if decide (len (ch_queue c) < ch_cap c) then
      Some (set_reader (set_channel s chan (mkChannel (ch_id c) (ch_queue c ++ [m]) (ch_cap c) true)) RLoop)
    else None
  else Some (set_reader s RLoop).

(** [close_all], its two operations. *)
Definition close_store (s : manager) : manager :=
  mkManager (mg_sessions s) (mg_next_id s) true (mg_channels s) (mg_handles s) (mg_callers s) RClosing.
Definition close_clear (s : manager) : manager := set_reader (set_sessions s ∅) RDone.

(** A sender of the channel is in the map or held by the reader. *)
Definition has_sender (s : manager) (chan : nat) : Prop :=
  (∃ id, mg_sessions s !! id = Some chan) ∨ (∃ m, mg_reader s = RSend chan m) ∨
  (∃ i id, mg_callers s !! i = Some (CAlloc id chan)).

(** One turn of [UdpSession::receive]: what the channel gives, through the
    defragger; [None] while it has to wait. *)
Inductive received := RecvMessage (payload addr : bytes) | RecvAgain | RecvClosed.
Definition receive_turn (checks : bool) (s : manager) (h : nat) (u : session) (c : channel)
    : outcome CoreError (received * manager) :=
  match ch_queue c with
  | [] => Ret (RecvClosed, s)
  | m :: q =>
      '(o, d) ← feed checks (us_defragger u) m;
      let s := set_channel s (us_chan u) (mkChannel (ch_id c) q (ch_cap c) (ch_receiver c)) in
      let s := set_handle s h (mkSession (us_id u) (us_chan u) (us_closed u) d) in
      Ret (match o with Some m => RecvMessage (data m) (addr m) | None => RecvAgain end, s)
  end.

(** The interleavings. *)
Inductive mstep (checks : bool) : manager → manager → Prop :=
| step_check s i cap :
    mg_callers s !! i = Some CIdle → new_check s cap = Ret () → 0 < cap →
    mstep checks s (set_caller s i (CChecked cap))
| step_alloc s i cap :
    mg_callers s !! i = Some (CChecked cap) → mstep checks s (new_alloc s i cap)
| step_insert s i id chan :
    mg_callers s !! i = Some (CAlloc id chan) → mstep checks s (new_insert s i id chan)
| step_close s h u :
    mg_handles s !! h = Some u → mstep checks s (session_close s h u)
| step_drop_receiver s h u c :
    mg_handles s !! h = Some u → us_closed u = true → mg_channels s !! us_chan u = Some c →
    mstep checks s (set_channel s (us_chan u) (mkChannel (ch_id c) (ch_queue c) (ch_cap c) false))
| step_datagram s datagram :
    mg_reader s = RLoop → mstep checks s (reader_dispatch s datagram)
| step_send s chan m s' :
    mg_reader s = RSend chan m → reader_send s chan m = Some s' → mstep checks s s'
| step_lost s : mg_reader s = RLoop → mstep checks s (close_store s)
| step_clear s : mg_reader s = RClosing → mstep checks s (close_clear s)
| step_receive s h u c m q r s' :
    mg_handles s !! h = Some u → mg_channels s !! us_chan u = Some c → ch_queue c = m :: q →
    receive_turn checks s h u c = Ret (r, s') → mstep checks s s'.

(** A receive can return (a message or the closed error) in a state. *)
Definition receive_ready (s : manager) (u : session) : Prop :=
  ∃ c, mg_channels s !! us_chan u = Some c ∧ (ch_queue c ≠ [] ∨ ¬ has_sender s (us_chan u)).

Definition reachable (checks : bool) (n : nat) (s : manager) : Prop := rtc (mstep checks) (manager_new n) s.

(** ** Invariants *)

Definition channel_for (s : manager) (k : nat) (id : Z) : Prop :=
  ∃ c, mg_channels s !! k = Some c ∧ ch_id c = id.

Record manager_inv (s : manager) : Prop := {
  inv_sessions : ∀ id k, mg_sessions s !! id = Some k → channel_for s k id;
  inv_reader : ∀ k m, mg_reader s = RSend k m → channel_for s k (session_id m);
  inv_callers : ∀ i id k, mg_callers s !! i = Some (CAlloc id k) → channel_for s k id;
  inv_handles : ∀ h u, mg_handles s !! h = Some u → channel_for s (us_chan u) (us_id u);
  inv_queues : ∀ k c, mg_channels s !! k = Some c → Forall (fun m => session_id m = ch_id c) (ch_queue c);
  inv_closed : mg_reader s = RClosing ∨ mg_reader s = RDone → mg_closed s = true
}.

Lemma channel_for_set s k c c' k' id :
  mg_channels s !! k = Some c → ch_id c' = ch_id c → channel_for s k' id →
  channel_for (set_channel s k c') k' id.
Proof.
  intros Hk Hid (x & Hx & Hxid). unfold channel_for. cbn. destruct (decide (k = k')) as [->|Hne].
  - rewrite list_lookup_insert_eq by (by eapply lookup_lt_Some). exists c'. split; [done|]. congruence.
  - rewrite list_lookup_insert_ne by done. eauto.
Qed.

Lemma channel_for_app s s' k id l :
  mg_channels s' = mg_channels s ++ l → channel_for s k id → channel_for s' k id.
Proof.
  intros Hs (c & Hc & ?). exists c. split; [|done]. rewrite Hs. by apply lookup_app_l_Some.
Qed.

Lemma queues_set s k c q :
  mg_channels s !! k = Some c → (∀ j x, mg_channels s !! j = Some x → Forall (fun m => session_id m = ch_id x) (ch_queue x)) →
  Forall (fun m => session_id m = ch_id c) q → ∀ cap rx j x,
  mg_channels (set_channel s k (mkChannel (ch_id c) q cap rx)) !! j = Some x →
  Forall (fun m => session_id m = ch_id x) (ch_queue x).
Proof.
  intros Hk Hall Hq cap rx j x. cbn. destruct (decide (k = j)) as [->|Hne].
  - rewrite list_lookup_insert_eq by (by eapply lookup_lt_Some). by intros [= <-].
  - rewrite list_lookup_insert_ne by done. apply Hall.
Qed.

Lemma insert_lookup_cases {A} (l : list A) i j x y :
  <[i := x]> l !! j = Some y → (i = j ∧ y = x) ∨ l !! j = Some y.
Proof.
  destruct (decide (i = j)) as [->|Hne].
  - intros H. assert (j < length l)%nat by (apply lookup_lt_Some in H; by rewrite length_insert in H).
    rewrite list_lookup_insert_eq in H by done. injection H as <-. by left.
  - rewrite list_lookup_insert_ne by done. by right.
Qed.

Lemma snoc_lookup_cases {A} (l : list A) x j y : (l ++ [x]) !! j = Some y → l !! j = Some y ∨ y = x.
Proof.
  intros [H|[_ H]]%lookup_app_Some; [by left|]. right. destruct (j - length l)%nat; cbn in H; [congruence|done].
Qed.

Lemma manager_inv_new n : manager_inv (manager_new n).
Proof.
  split; cbn; try done.
  - intros i id k. rewrite lookup_replicate. by intros [[=] _].
  - intros [?|?]; done.
Qed.

Lemma reader_send_inv s chan m s' :
  manager_inv s → mg_reader s = RSend chan m → reader_send s chan m = Some s' → manager_inv s'.
Proof.
  intros [I1 I2 I3 I4 I5 I6] Hr Hs. unfold reader_send in Hs.
  destruct (mg_channels s !! chan) as [c|] eqn:Hc; [|done]. cbn in Hs.
  destruct (I2 _ _ Hr) as (c0 & Hc0 & Hid). assert (c0 = c) as -> by congruence.
  destruct (ch_receiver c); [|injection Hs as <-; split; cbn; try done; by intros [?|?]].
  case_decide; [|done]. injection Hs as <-.
  split; cbn; try done; try (by intros [?|?]).
  - intros id k Hk. eapply (channel_for_set s chan c); [done|done|]. by apply I1.
  - intros i id k Hk. eapply (channel_for_set s chan c); [done|done|]. by eapply I3.
  - intros h u Hu. eapply (channel_for_set s chan c); [done|done|]. by eapply I4.
  - apply (queues_set s chan c (ch_queue c ++ [m]) Hc I5).
    apply Forall_app. split; [by eapply I5|]. by constructor.
Qed.

Lemma receive_turn_inv checks s h u c m q r s' :
  manager_inv s → mg_handles s !! h = Some u → mg_channels s !! us_chan u = Some c → ch_queue c = m :: q →
  receive_turn checks s h u c = Ret (r, s') → manager_inv s'.
Proof.
  intros [I1 I2 I3 I4 I5 I6] Hh Hc Hq. unfold receive_turn. rewrite Hq.
  intros ([o d] & _ & [= _ <-])%bind_Ret_inv. split; cbn; try done.
  - intros id k Hk. eapply (channel_for_set s (us_chan u) c); [done|done|]. by apply I1.
  - intros k m' Hr. eapply (channel_for_set s (us_chan u) c); [done|done|]. by apply I2.
  - intros i id k Hk. eapply (channel_for_set s (us_chan u) c); [done|done|]. by eapply I3.
  - intros j v [[-> ->]|Hv]%insert_lookup_cases; cbn; (eapply (channel_for_set s (us_chan u) c); [done|done|]).
    + by eapply I4.
    + by eapply I4.
  - apply (queues_set s (us_chan u) c q Hc I5). specialize (I5 _ _ Hc). rewrite Hq in I5. by inversion I5.
Qed.

Lemma mstep_inv checks s s' : mstep checks s s' → manager_inv s → manager_inv s'.
Proof.
  intros Hstep I. assert (I' := I). destruct I' as [I1 I2 I3 I4 I5 I6]. destruct Hstep.
  - split; cbn; try done. intros j id k [[_ [=]]|Hj]%insert_lookup_cases. by eapply I3.
  - assert (∀ k id, channel_for s k id → channel_for (new_alloc s i cap) k id) as Hmono
      by (intros; by eapply channel_for_app).
    split; cbn; try done.
    + intros id k Hk. by apply Hmono, I1.
    + intros k m Hr. by apply Hmono, I2.
    + intros j id k [[_ [= -> ->]]|Hj]%insert_lookup_cases; [|by eapply Hmono, I3].
      exists (mkChannel (mg_next_id s) [] cap true). split; [|done]. cbn. by rewrite list_lookup_middle.
    + intros h u Hu. by eapply Hmono, I4.
    + intros k c [Hk| ->]%snoc_lookup_cases; [by eapply I5|constructor].
  - split; cbn; try done.
    + intros id' k [[<- <-]|[_ Hk]]%lookup_insert_Some; [by eapply I3|by apply I1].
    + intros j id' k [[_ [=]]|Hj]%insert_lookup_cases. by eapply I3.
    + intros h u [Hu| ->]%snoc_lookup_cases; [by eapply I4|]. by eapply I3.
  - unfold session_close. destruct (us_closed u); [done|]. split; cbn; try done.
    + intros id k [_ Hk]%lookup_delete_Some. by apply I1.
    + intros j v [[_ ->]|Hv]%insert_lookup_cases; [|by eapply I4]. cbn. by eapply I4.
  - split; cbn; try done.
    + intros id k Hk. eapply (channel_for_set s (us_chan u) c); [done|done|]. by apply I1.
    + intros k m Hr. eapply (channel_for_set s (us_chan u) c); [done|done|]. by apply I2.
    + intros i id k Hk. eapply (channel_for_set s (us_chan u) c); [done|done|]. by eapply I3.
    + intros j v Hv. eapply (channel_for_set s (us_chan u) c); [done|done|]. by eapply I4.
    + apply (queues_set s (us_chan u) c (ch_queue c)); [done|done|]. by eapply I5.
  - unfold reader_dispatch. destruct (parse_udp_message datagram) as [m| |]; try done.
    destruct (mg_sessions s !! session_id m) as [k|] eqn:Hk; [|done]. split; cbn; try done.
    + intros k' m' [= <- <-]. by apply I1.
    + by intros [?|?].
  - by eapply reader_send_inv.
  - by split.
  - split; cbn; try done. intros _. apply I6. by left.
  - by eapply receive_turn_inv.
Qed.

Lemma reachable_inv checks n s : reachable checks n s → manager_inv s.
Proof.
  intros H. unfold reachable in H. remember (manager_new n) as s0 eqn:H0.
  assert (manager_inv s0) as Hi by (subst; apply manager_inv_new). clear H0.
  induction H as [|x y z Hxy _ IH]; [done|]. apply IH. by eapply mstep_inv.
Qed.

(** The manager after the connection was lost with no [new_udp] in flight. *)
Definition quiet (s : manager) : Prop :=
  mg_reader s = RDone ∧ mg_closed s = true ∧ mg_sessions s = ∅ ∧
  ∀ i c, mg_callers s !! i = Some c → c = CIdle.

Lemma quiet_step checks s s' : mstep checks s s' → quiet s → quiet s'.
Proof.
  intros Hstep (Q1 & Q2 & Q3 & Q4). destruct Hstep; try congruence.
  - unfold new_check in *. by rewrite Q2 in *.
  - by apply Q4 in H.
  - by apply Q4 in H.
  - unfold session_close. destruct (us_closed u); [by split_and!|]. split_and!; cbn; try done. rewrite Q3. apply delete_empty.
  - by split_and!.
  - unfold receive_turn in *. rewrite H1 in *. apply bind_Ret_inv in H2 as ([o d] & _ & [= _ <-]). by split_and!.
Qed.

Lemma quiet_no_sender s k : quiet s → ¬ has_sender s k.
Proof.
  intros (Q1 & _ & Q3 & Q4) [(id & H)|[(m & H)|(i & id & H)]].
  - rewrite Q3 in H. by rewrite lookup_empty in H.
  - congruence.
  - apply Q4 in H. done.
Qed.

(** The state after [new_udp] checked the flag before [close_all] set it and
    inserted its sender after [close_all] had cleared the map. *)
Definition leaked (s : manager) : Prop :=
  mg_reader s = RDone ∧ mg_closed s = true ∧ mg_callers s = [CIdle] ∧
  ∃ u c, mg_handles s = [u] ∧ us_id u = 1 ∧ us_chan u = 0%nat ∧
    mg_channels s = [c] ∧ ch_queue c = [] ∧ (us_closed u = false → mg_sessions s = {[ 1 := 0%nat ]}).

Lemma leaked_step checks s s' : mstep checks s s' → leaked s → leaked s'.
Proof.
  intros Hstep (L1 & L2 & L3 & u & c & L4 & L5 & L6 & L7 & L8 & L9). destruct Hstep; try congruence.
  - unfold new_check in *. by rewrite L2 in *.
  - rewrite L3 in H. destruct i; [done|by destruct i].
  - rewrite L3 in H. destruct i; [done|by destruct i].
  - rewrite L4 in H. destruct h; [|by destruct h]. injection H as <-. unfold session_close. destruct (us_closed u) eqn:Hu.
    + split_and!; [done..|]. exists u, c. split_and!; try done; by rewrite Hu.
    + split_and!; cbn; [done..|]. exists (mkSession (us_id u) (us_chan u) true (us_defragger u)), c.
      rewrite L4. cbn. by split_and!.
  - rewrite L4 in H. destruct h; [|by destruct h]. injection H as <-. rewrite L6, L7 in H1. injection H1 as <-.
    split_and!; cbn; [done..|]. exists u, (mkChannel (ch_id c) (ch_queue c) (ch_cap c) false).
    rewrite L6, L7. cbn. split_and!; try done.
  - rewrite L4 in H. destruct h; [|by destruct h]. injection H as <-. rewrite L6, L7 in H0. injection H0 as <-. congruence.
Qed.

Lemma leaked_reachable checks : ∃ s u, reachable checks 1 s ∧ leaked s ∧ mg_handles s !! 0%nat = Some u ∧ us_closed u = false.
Proof.
  eexists _, _. split.
  - eapply rtc_l; [apply (step_check checks _ 0 1024); [reflexivity|reflexivity|lia]|].
    eapply rtc_l; [apply step_lost; reflexivity|].
    eapply rtc_l; [apply step_clear; reflexivity|].
    eapply rtc_l; [apply (step_alloc checks _ 0 1024); reflexivity|].
    eapply rtc_l; [apply (step_insert checks _ 0 1 0); reflexivity|]. apply rtc_refl.
  - cbn. split; [|by split]. split_and!; [done..|]. do 2 eexists. split_and!; try done.
Qed.

Lemma delivered_reachable checks : ∃ s u c m, reachable checks 2 s ∧ mg_handles s !! 0%nat = Some u ∧
  mg_channels s !! us_chan u = Some c ∧ m ∈ ch_queue c.
Proof.
  eexists _, _, _, _. split.
  - eapply rtc_l; [apply (step_check checks _ 0 8); [reflexivity|reflexivity|lia]|].
    eapply rtc_l; [apply (step_alloc checks _ 0 8); reflexivity|].
    eapply rtc_l; [apply (step_insert checks _ 0 1 0); reflexivity|].
    eapply rtc_l; [apply (step_datagram checks _ (udp_wire (mkUDPMessage 1 0 0 1 (str "a:1") [7]))); reflexivity|].
    eapply rtc_l; [eapply (step_send checks _ 0 (mkUDPMessage 1 0 0 1 (str "a:1") [7])); reflexivity|].
    apply rtc_refl.
  - split_and!; [reflexivity|reflexivity|]. apply list_elem_of_singleton. reflexivity.
Qed.

Lemma rtc_invariant {A} (R : A → A → Prop) (P : A → Prop) x y :
  (∀ a b, R a b → P a → P b) → rtc R x y → P x → P y.
Proof. intros Hstep H. induction H; eauto. Qed.

(** ** Properties *)

(** C12: sessions are isolated. In every interleaving of any number of callers,
    the reader, closes and receives, every message queued for a session was
    addressed to that session's id, the sender registered under an id belongs
    to the channel of that id, and once the connection is lost the manager
    refuses new sessions. *)
Theorem udp_sessions_isolated checks n s :
  reachable checks n s →
  (∀ h u c m, mg_handles s !! h = Some u → mg_channels s !! us_chan u = Some c → m ∈ ch_queue c →
     session_id m = us_id u) ∧
  (∀ id k, mg_sessions s !! id = Some k → ∃ c, mg_channels s !! k = Some c ∧ ch_id c = id) ∧
  (mg_reader s = RClosing ∨ mg_reader s = RDone →
     ∀ cap, new_check s cap = Err (Closed (str "udp session manager closed"))).
Proof.
  intros Hr. destruct (reachable_inv _ _ _ Hr) as [I1 I2 I3 I4 I5 I6]. split_and!.
  - intros h u c m Hu Hc Hm. destruct (I4 _ _ Hu) as (c' & Hc' & Hid). assert (c' = c) as -> by congruence.
    specialize (I5 _ _ Hc). rewrite Forall_forall in I5. rewrite <- Hid. by apply I5.
  - apply I1.
  - intros Hcl cap. unfold new_check. by rewrite I6.
Qed.

Lemma udp_sessions_isolated_witness : ∃ s u c m,
  reachable true 2 s ∧ mg_handles s !! 0%nat = Some u ∧ mg_channels s !! us_chan u = Some c ∧
  m ∈ ch_queue c ∧ session_id m = us_id u.
Proof.
  destruct (delivered_reachable true) as (s & u & c & m & Hr & Hh & Hc & Hm). exists s, u, c, m.
  refine (conj Hr (conj Hh (conj Hc (conj Hm _)))).
  exact (proj1 (udp_sessions_isolated true 2 s Hr) 0%nat u c m Hh Hc Hm).
Defined.

(** The end of a connection. If no [new_udp] is in flight when the reader
    clears the map, then from there on, whatever runs, every receive on every
    session can return: its queued messages and then the closed error. *)
Theorem receive_returns_after_loss checks s s' u :
  mg_reader s = RClosing → mg_closed s = true →
  (∀ i c, mg_callers s !! i = Some c → c = CIdle) → rtc (mstep checks) (close_clear s) s' →
  is_Some (mg_channels s' !! us_chan u) → receive_ready s' u.
Proof.
  intros Hr Hc Hidle Hrun [c Hch]. assert (quiet s') as Hq.
  { eapply (rtc_invariant _ quiet); [apply quiet_step|exact Hrun|]. by split_and!. }
  exists c. split; [done|]. right. by apply quiet_no_sender.
Qed.

Lemma receive_returns_after_loss_witness :
  let s := mkManager {[ 1 := 0%nat ]} 2 true [mkChannel 1 [] 8 true] [mkSession 1 0 false defragger_default] [CIdle] RClosing in
  receive_ready (close_clear s) (mkSession 1 0 false defragger_default).
Proof.
  apply (receive_returns_after_loss true
    (mkManager {[ 1 := 0%nat ]} 2 true [mkChannel 1 [] 8 true] [mkSession 1 0 false defragger_default] [CIdle] RClosing)).
  - reflexivity.
  - reflexivity.
  - intros [|[|i]] c Hc; [injection Hc as <-; reflexivity|discriminate|discriminate].
  - apply rtc_refl.
  - cbn. eexists. reflexivity.
Defined.

(** A [new_udp] in flight breaks it. There is an interleaving, with one
    caller, in which [new_udp] checks the closed flag just before the reader
    sets it and registers its sender just after the reader cleared the map; the
    session it returns then waits for ever in [receive], in every continuation,
    unless the application closes it itself. *)
Theorem receive_can_hang_after_loss checks :
  ∃ s u, reachable checks 1 s ∧ mg_reader s = RDone ∧ mg_closed s = true ∧
    mg_handles s !! 0%nat = Some u ∧ us_closed u = false ∧
    ∀ s' u', rtc (mstep checks) s s' → mg_handles s' !! 0%nat = Some u' → us_closed u' = false →
      ¬ receive_ready s' u'.
Proof.
  destruct (leaked_reachable checks) as (s & u & Hreach & Hl & Hh & Hu). exists s, u.
  assert (Hl' := Hl). destruct Hl' as (L1 & L2 & _). split_and!; try done.
  intros s' u' Hrun Hh' Hu' (c' & Hc' & Hready).
  assert (leaked s') as (_ & _ & _ & v & c & M4 & M5 & M6 & M7 & M8 & M9)
    by (eapply (rtc_invariant _ leaked); [apply leaked_step|exact Hrun|exact Hl]).
  rewrite M4 in Hh'. injection Hh' as <-. rewrite M6, M7 in Hc'. injection Hc' as <-.
  destruct Hready as [?|Hns]; [done|]. apply Hns. left. exists 1. rewrite (M9 Hu'), M6. by rewrite lookup_singleton_eq.
Qed.
