(* ===== verification/UdpServer.v ===== *)
(** * The server's UDP sessions ([core/src/udp.rs], the server half)

    [run_server_udp] is an event loop over a map of sessions: a cleanup tick, a
    session whose receive task ended, a datagram, the end of the connection.
    Name resolution, binding and sending are outside: an event carries what
    they return. *)
From S2P Require Import Prelude Errors RustStr Proxy Frag UdpSend.
Local Open Scope Z_scope.

(** A [SocketAddr]: its family and its text. *)
Record saddr := mkSaddr { sa_v6 : bool; sa_text : bytes }.
#[global] Instance saddr_eq_dec : EqDecision saddr.
Proof. solve_decision. Defined.

(** What the operating system answers while one message is handled:
    [lookup_host] when the socket is created and when the target is resolved,
    [bind] and [send_to]. *)
Record os_env := mkEnv {
  env_lookup_bind : bytes → outcome bytes (list saddr);
  env_lookup_target : bytes → outcome bytes (list saddr);
  env_bind : bool → outcome io_error unit;
  env_send_to : saddr → bytes → outcome io_error unit
}.

Definition resolve_udp_target (lookup : bytes → outcome bytes (list saddr)) (addr : bytes)
    : outcome CoreError saddr :=
  resolved ← map_err Dial (lookup addr);
  ok_or (head resolved) (Dial (str "failed to resolve udp target " ++ addr)).

(** [resolve_udp_bind_addr]: the wildcard address of the target's family. *)
Definition resolve_udp_bind_addr (lookup : bytes → outcome bytes (list saddr)) (addr : bytes)
    : outcome CoreError bool :=
  target ← resolve_udp_target lookup addr;
  Ret (sa_v6 target).

(** [ResolvedUdpTargets::get_or_resolve], the resolver being called only on a
    miss. *)
Definition get_or_resolve (cache : gmap bytes saddr) (destination : bytes)
    (resolver : bytes → outcome CoreError saddr) : gmap bytes saddr * outcome CoreError saddr :=
  match cache !! destination with
  | Some target => (cache, Ret target)
  | None =>
      match resolver destination with
      | Ret target => (<[destination := target]> cache, Ret target)
      | Err e => (cache, Err e)
      | Panic => (cache, Panic)
      end
  end.

(** [ServerUdpSession]; the socket is represented by its family. *)
Record usession := mkUsession {
  su_session_id : Z;
  su_defragger : Defragger;
  su_socket : option bool;
  su_resolved : gmap bytes saddr;
  su_receive_task : bool;
  su_last_activity : Z
}.

Definition usession_new (now id : Z) : usession :=
  mkUsession id defragger_default None ∅ false now.

Definition init_socket (env : os_env) (u : usession) (addr : bytes) : usession * outcome CoreError unit :=
  match resolve_udp_bind_addr (env_lookup_bind env) addr with
  | Err e => (u, Err e)
  | Panic => (u, Panic)
  | Ret family =>
      match env_bind env family with
      | Err e => (u, Err (core_error_of_io e))
      | Panic => (u, Panic)
      | Ret _ =>
          (mkUsession (su_session_id u) (su_defragger u) (Some family) (su_resolved u) true
             (su_last_activity u), Ret ())
      end
  end.

(** The packet a feed sends, if it sends one. *)
Definition send_udp_packet (env : os_env) (target : saddr) (d : bytes) : outcome CoreError (option (saddr * bytes)) :=
  match env_send_to env target d with
  | Ret _ => Ret (Some (target, d))
  | Err e => Err (core_error_of_io e)
  | Panic => Panic
  end.

(** [ServerUdpSession::feed]: the session after it, and the result; an error
    leaves the changes made before it. *)
Definition usession_feed (checks : bool) (now : Z) (env : os_env) (u : usession) (m : UDPMessage)
    : usession * outcome CoreError (option (saddr * bytes)) :=
  match feed (E:=CoreError) checks (su_defragger u) m with
  | Err e => (u, Err e)
  | Panic => (u, Panic)
  | Ret (o, d) =>
      let u := mkUsession (su_session_id u) d (su_socket u) (su_resolved u) (su_receive_task u) now in
      match o with
      | None => (u, Ret None)
      | Some m =>
          let '(u, r) := match su_socket u with
                         | None => init_socket env u (addr m)
                         | Some _ => (u, Ret ())
                         end in
          match r with
          | Err e => (u, Err e)
          | Panic => (u, Panic)
          | Ret _ =>
              match su_socket u with
              | None => (u, Ret None)
              | Some _ =>
                  let '(cache, r) := get_or_resolve (su_resolved u) (addr m)
                                       (resolve_udp_target (env_lookup_target env)) in
                  let u := mkUsession (su_session_id u) (su_defragger u) (su_socket u) cache
                             (su_receive_task u) (su_last_activity u) in
                  match r with
                  | Err e => (u, Err e)
                  | Panic => (u, Panic)
                  | Ret target => (u, send_udp_packet env target (data m))
                  end
              end
          end
      end
  end.

Definition is_idle (now timeout : Z) (u : usession) : bool :=
  bool_decide (timeout < Z.max 0 (now - su_last_activity u)).

Definition usession_close (u : usession) : usession :=
  mkUsession (su_session_id u) (su_defragger u) None (su_resolved u) false (su_last_activity u).

(** The events of [run_server_udp]. *)
Inductive udp_event :=
| EvTick (now : Z)
| EvTaskEnded (id : Z)
| EvUdpDatagram (now : Z) (env : os_env) (datagram : bytes)
| EvClosedByApplication
| EvConnectionError (msg : bytes).

(** The loop runs on, or breaks with its result. *)
Inductive loop_state := Running (sessions : gmap Z usession) | Stopped (r : outcome CoreError unit).

(** One turn: the state after it and the packet sent. *)
Definition server_udp_step (checks : bool) (timeout : Z) (sessions : gmap Z usession) (ev : udp_event)
    : loop_state * option (Z * (saddr * bytes)) :=
  match ev with
  | EvTick now => (Running (filter (fun kv => is_idle now timeout kv.2 = false) sessions), None)
  | EvTaskEnded id => (Running (delete id sessions), None)
  | EvUdpDatagram now env datagram =>
      match parse_udp_message datagram with
      | Err _ => (Running sessions, None)
      | Panic => (Stopped Panic, None)
      | Ret m =>
          let u := default (usession_new now (session_id m)) (sessions !! session_id m) in
          match usession_feed checks now env u m with
          | (u, Ret sent) =>
              (Running (<[session_id m := u]> sessions), (fun p => (session_id m, p)) <$> sent)
          | (u, Err _) => (Running (<[session_id m := usession_close u]> sessions), None)
          | (_, Panic) => (Stopped Panic, None)
          end
      end
  | EvClosedByApplication => (Stopped (Ret ()), None)
  | EvConnectionError msg => (Stopped (Err (Transport msg)), None)
  end.

Fixpoint server_udp_run (checks : bool) (timeout : Z) (s : loop_state) (evs : list udp_event)
    : loop_state * list (option (Z * (saddr * bytes))) :=
  match evs with
  | [] => (s, [])
  | ev :: evs =>
      match s with
      | Stopped r => (Stopped r, [])
      | Running sessions =>
          let '(s, p) := server_udp_step checks timeout sessions ev in
          let '(s, ps) := server_udp_run checks timeout s evs in
          (s, p :: ps)
      end
  end.

(** [server_udp_receive_loop], one turn: the message sent to the client for a
    packet from the socket; the receive buffer is [MAX_UDP_SIZE] bytes and
    what does not fit is cut off. *)
Definition receive_message (sid : Z) (from payload : bytes) : UDPMessage :=
  session_message sid from (take (Z.to_nat MAX_UDP_SIZE) payload).

(** ** Invariants *)

Definition env_ok (env : os_env) : Prop :=
  (∀ a, env_lookup_bind env a ≠ Panic) ∧ (∀ a, env_lookup_target env a ≠ Panic) ∧
  (∀ f, env_bind env f ≠ Panic) ∧ (∀ t d, env_send_to env t d ≠ Panic).

Definition event_ok (ev : udp_event) : Prop :=
  match ev with
  | EvUdpDatagram _ env dg => env_ok env ∧ bytes_ok dg ∧ len dg ≤ u32_max
  | _ => True
  end.

(** A session under its id: its socket exists exactly while its receive task
    does, and its defragger has only seen messages of the session. *)
Definition usession_ok (id : Z) (u : usession) : Prop :=
  su_session_id u = id ∧ (su_receive_task u = true ↔ is_Some (su_socket u)) ∧
  ∃ fed, Forall datagram_message fed ∧ Forall (fun m => session_id m = id) fed ∧
    defragger_inv fed (su_defragger u).

Definition sessions_ok (sessions : gmap Z usession) : Prop :=
  ∀ id u, sessions !! id = Some u → usession_ok id u.

Lemma usession_new_ok now id : usession_ok id (usession_new now id).
Proof.
  split; [done|]. split; [split; [done|by intros [? ?]]|]. exists []. split_and!; [constructor|constructor|apply default_inv].
Qed.

Lemma usession_close_ok id u : usession_ok id u → usession_ok id (usession_close u).
Proof. intros (H1 & _ & H3). split; [done|]. split; [split; [done|by intros [? ?]]|done]. Qed.

Lemma no_panic_resolve lookup a : (∀ x, lookup x ≠ Panic) → resolve_udp_target lookup a ≠ Panic.
Proof.
  intros H. unfold resolve_udp_target. specialize (H a). destruct (lookup a) as [l| |]; [|done|done].
  cbn. by destruct l.
Qed.

Lemma init_socket_spec env u a :
  env_ok env →
  let '(u', r) := init_socket env u a in
  r ≠ Panic ∧ su_session_id u' = su_session_id u ∧ su_defragger u' = su_defragger u ∧
  su_resolved u' = su_resolved u ∧ su_last_activity u' = su_last_activity u ∧
  (u' = u ∨ (su_receive_task u' = true ∧ is_Some (su_socket u'))).
Proof.
  intros (H1 & _ & H3 & _). unfold init_socket, resolve_udp_bind_addr.
  pose proof (no_panic_resolve _ a H1). destruct (resolve_udp_target _ a) as [t|e|]; cbn; [| |done].
  - specialize (H3 (sa_v6 t)). destruct (env_bind env (sa_v6 t)); cbn; split_and!; try done; eauto.
  - split_and!; try done. by left.
Qed.

Lemma get_or_resolve_spec cache a resolver :
  resolver a ≠ Panic →
  let '(cache', r) := get_or_resolve cache a resolver in
  r ≠ Panic ∧ cache ⊆ cache' ∧ (∀ t, r = Ret t → cache' !! a = Some t).
Proof.
  intros H. unfold get_or_resolve. destruct (cache !! a) as [t|] eqn:Hc.
  { split_and!; [done|done|]. by intros ? [= <-]. }
  destruct (resolver a) as [t|e|]; split_and!; try done.
  - by apply insert_subseteq.
  - intros ? [= <-]. apply lookup_insert_eq.
Qed.

Lemma usession_feed_spec checks now env u m :
  usession_ok (session_id m) u → env_ok env → datagram_message m →
  let '(u', r) := usession_feed checks now env u m in
  usession_ok (session_id m) u' ∧ r ≠ Panic ∧ su_last_activity u' = now ∧ su_resolved u ⊆ su_resolved u' ∧
  ∀ t d, r = Ret (Some (t, d)) →
    ∃ fed m', emitted_ok (fed ++ [m]) m' ∧ Forall (fun x => session_id x = session_id m) fed ∧
      d = data m' ∧ su_resolved u' !! addr m' = Some t.
Proof.
  intros (Hid & Htask & fed & Hf1 & Hf2 & Hinv) Henv Hm. unfold usession_feed.
  destruct (feed_step (E:=CoreError) checks fed (su_defragger u) m Hinv Hf1 Hm) as (o & d & -> & Hd & Ho).
  assert (Forall datagram_message (fed ++ [m])) as Hf1' by (apply Forall_app; auto).
  assert (Forall (fun x => session_id x = session_id m) (fed ++ [m])) as Hf2' by (apply Forall_app; auto).
  set (u1 := mkUsession _ d _ _ _ now).
  assert (usession_ok (session_id m) u1) as Hu1 by (split_and!; [done|done|]; by exists (fed ++ [m])).
  destruct o as [m'|]; [|by split_and!].
  assert (∃ u2 r2, match su_socket u1 with None => init_socket env u1 (addr m') | Some _ => (u1, Ret ()) end = (u2, r2) ∧
    r2 ≠ Panic ∧ usession_ok (session_id m) u2 ∧ su_resolved u2 = su_resolved u ∧ su_last_activity u2 = now)
    as (u2 & r2 & -> & Hr2 & Hu2 & Hres & Hlast).
  { destruct (su_socket u1) eqn:Hs; [by exists u1, (Ret ())|].
    pose proof (init_socket_spec env u1 (addr m') Henv) as Hi. destruct (init_socket env u1 (addr m')) as [u2 r2].
    destruct Hi as (Hi1 & Hi2 & Hi3 & Hi4 & Hi5 & Hi6). exists u2, r2. split_and!; try done.
    destruct Hi6 as [->|[Ht Hsk]]; [done|]. unfold usession_ok. rewrite Hi2, Hi3. destruct Hu1 as (? & _ & ?).
    split_and!; [done| |done]. by split. }
  destruct r2 as [[]|e|]; [| |done]; last by split_and!; rewrite ?Hres.
  destruct (su_socket u2) eqn:Hs2; [|by split_and!; rewrite ?Hres].
  destruct Henv as (_ & He2 & _ & He4).
  pose proof (get_or_resolve_spec (su_resolved u2) (addr m') (resolve_udp_target (env_lookup_target env))
    (no_panic_resolve _ _ He2)) as Hg.
  destruct (get_or_resolve (su_resolved u2) (addr m') _) as [cache r3]. destruct Hg as (Hg1 & Hg2 & Hg3).
  set (u3 := mkUsession _ _ _ cache _ _).
  assert (usession_ok (session_id m) u3) as Hu3.
  { destruct Hu2 as (Ha & Hb & Hc). unfold u3. rewrite <- Hs2. by split_and!. }
  rewrite Hres in Hg2.
  destruct r3 as [t|e|]; [|by split_and!|done]. unfold send_udp_packet. specialize (He4 t (data m')).
  destruct (env_send_to env t (data m')) as [?|e|]; [|by split_and!|done]. split_and!; try done.
  intros t' d' [= <- <-]. exists fed, m'. split_and!; try done; [by apply Ho|]. by apply Hg3.
Qed.

Lemma parse_datagram_ok dg m :
  bytes_ok dg → len dg ≤ u32_max → parse_udp_message dg = Ret m → datagram_message m.
Proof.
  intros Hok Hlen Hp. destruct (parse_udp_message_cases dg Hok) as [(e & He & _)|(m' & Hm & Hm1 & Hm2)]; [congruence|].
  assert (m' = m) as -> by congruence. split; [done|]. lia.
Qed.

(** The events that are the end of the connection, with the result the loop
    breaks with; the loop may not end on any other. *)
Definition connection_end (ev : udp_event) : option (outcome CoreError unit) :=
  match ev with
  | EvClosedByApplication => Some (Ret ())
  | EvConnectionError msg => Some (Err (Transport msg))
  | EvTick _ | EvTaskEnded _ | EvUdpDatagram _ _ _ => None
  end.

Lemma server_udp_step_ok checks timeout sessions ev :
  sessions_ok sessions → event_ok ev →
  match connection_end ev with
  | None => ∃ sessions', fst (server_udp_step checks timeout sessions ev) = Running sessions' ∧ sessions_ok sessions'
  | Some r => fst (server_udp_step checks timeout sessions ev) = Stopped r
  end.
Proof.
  intros Hs Hev. destruct ev as [now|id|now env dg| |msg]; cbn [server_udp_step connection_end fst]; try done.
  - eexists. split; [done|]. intros id u [Hu _]%map_lookup_filter_Some. by apply Hs.
  - eexists. split; [done|]. intros id' u [_ Hu]%lookup_delete_Some. by apply Hs.
  - destruct Hev as (Henv & Hok & Hlen). destruct (parse_udp_message_cases dg Hok) as [(e & -> & _)|(m & Hm & _)]; [by eexists|].
    rewrite Hm. pose proof (parse_datagram_ok dg m Hok Hlen Hm) as Hdm.
    assert (usession_ok (session_id m) (default (usession_new now (session_id m)) (sessions !! session_id m))) as Hu.
    { destruct (sessions !! session_id m) eqn:E; cbn; [by apply Hs|apply usession_new_ok]. }
    pose proof (usession_feed_spec checks now env _ m Hu Henv Hdm) as Hf.
    destruct (usession_feed checks now env _ m) as [u' [sent|e|]]; destruct Hf as (Hf1 & Hf2 & _); [| |done];
      (eexists; split; [done|]); intros id u'' [[<- <-]|[_ ?]]%lookup_insert_Some; auto using usession_close_ok.
Qed.

Lemma server_udp_run_ok checks timeout sessions evs :
  sessions_ok sessions → Forall event_ok evs →
  match omap connection_end evs with
  | [] => ∃ sessions', fst (server_udp_run checks timeout (Running sessions) evs) = Running sessions' ∧ sessions_ok sessions'
  | r :: _ => fst (server_udp_run checks timeout (Running sessions) evs) = Stopped r
  end.
Proof.
  intros Hs Hevs. revert sessions Hs. induction Hevs as [|ev evs Hev _ IH]; intros sessions Hs; [by eexists|].
  pose proof (server_udp_step_ok checks timeout sessions ev Hs Hev) as Hstep. cbn [omap list_omap server_udp_run].
  destruct (server_udp_step checks timeout sessions ev) as [s' p]; cbn [fst] in Hstep. destruct (connection_end ev) as [r|].
  - subst s'. by destruct evs.
  - destruct Hstep as (sessions' & -> & Hs'). specialize (IH sessions' Hs').
    by destruct (server_udp_run checks timeout (Running sessions') evs).
Qed.

(** The ticks of a list of instants. *)
Definition ticks (ts : list Z) : list udp_event := map EvTick ts.

Lemma ticks_keep checks timeout sessions id u ts :
  sessions !! id = Some u → Forall (fun t => t ≤ su_last_activity u + timeout) ts → 0 ≤ timeout →
  ∃ sessions', fst (server_udp_run checks timeout (Running sessions) (ticks ts)) = Running sessions' ∧
    sessions' !! id = Some u.
Proof.
  intros Hu Hts Ht. revert sessions Hu. induction Hts as [|t ts Hlt _ IH]; intros sessions Hu; cbn [ticks map server_udp_run]; [eauto|].
  cbn [server_udp_step]. set (s1 := filter _ sessions). destruct (IH s1) as (s' & Hrun & Hs').
  { apply map_lookup_filter_Some. split; [done|]. cbn. unfold is_idle. apply bool_decide_eq_false. lia. }
  exists s'. unfold ticks in Hrun. destruct (server_udp_run checks timeout (Running s1) (map EvTick ts)). done.
Qed.

(** ** Properties *)

(** C13: the server's UDP loop survives anything. From no sessions, for every
    sequence of ticks, ended tasks, and datagrams of arbitrary bytes, with the
    resolver, [bind] and [send_to] failing at will, the loop runs on as long as
    the connection does, without a panic, and every session in its map is stored
    under its own id, has a socket exactly while it has a receive task, and a
    defragger that keeps its invariant and has only seen messages of that
    session. It stops at the first event that is the end of the connection, and
    nowhere else: with success if the peer closed it, and otherwise with its
    error. *)
Theorem server_udp_robust checks timeout evs :
  Forall event_ok evs →
  match omap connection_end evs with
  | [] => ∃ sessions, fst (server_udp_run checks timeout (Running ∅) evs) = Running sessions ∧
      ∀ id u, sessions !! id = Some u →
        su_session_id u = id ∧ (su_receive_task u = true ↔ is_Some (su_socket u)) ∧
        ∃ fed, Forall (fun m => session_id m = id) fed ∧ defragger_inv fed (su_defragger u)
  | r :: _ => fst (server_udp_run checks timeout (Running ∅) evs) = Stopped r
  end.
Proof.
  intros Hevs. assert (sessions_ok ∅) as H0 by (intros id u Hu; by rewrite lookup_empty in Hu).
  pose proof (server_udp_run_ok checks timeout ∅ evs H0 Hevs) as H. destruct (omap connection_end evs) as [|r rs]; [|done].
  destruct H as (sessions & Hrun & Hs). exists sessions. split; [done|].
  intros id u Hu. destruct (Hs id u Hu) as (H1 & H2 & fed & _ & H3 & H4). eauto.
Qed.

(** A malformed datagram, a good one that opens a session whose destination
    cannot be resolved, a tick, and then the end of the connection. *)
Definition example_env : os_env := mkEnv (fun _ => Err []) (fun _ => Err []) (fun _ => Ret ()) (fun _ _ => Ret ()).
Definition example_udp_events : list udp_event :=
  [EvUdpDatagram 5 example_env [0; 1]; EvUdpDatagram 6 example_env [0; 0; 0; 7; 0; 0; 0; 1; 1; 104; 42]; EvTick 9].
Lemma server_udp_robust_witness :
  (∃ sessions, fst (server_udp_run true 60 (Running ∅) example_udp_events) = Running sessions ∧ dom sessions = {[7]}) ∧
  fst (server_udp_run true 60 (Running ∅) (example_udp_events ++ [EvConnectionError (str "timed out"); EvClosedByApplication]))
    = Stopped (Err (Transport (str "timed out"))).
Proof.
  assert (Forall event_ok example_udp_events) as Hok.
  { repeat constructor; try (intros; discriminate); by_decide. }
  split.
  - destruct (server_udp_robust true 60 example_udp_events Hok) as (sessions & Hrun & _). exists sessions. split; [exact Hrun|].
    assert (fst (server_udp_run true 60 (Running ∅) example_udp_events) = Running
      (match fst (server_udp_run true 60 (Running ∅) example_udp_events) with Running s => s | Stopped _ => ∅ end)) as E by reflexivity.
    rewrite E in Hrun. injection Hrun as <-. vm_compute. reflexivity.
  - refine (server_udp_robust true 60 (example_udp_events ++ [EvConnectionError (str "timed out"); EvClosedByApplication]) _). apply Forall_app. split; [exact Hok|]. repeat constructor.
Defined.

(** A datagram only touches its session, and a resolved destination stays.
    Handling a datagram leaves every other session as it was; what the session
    has resolved before is kept whatever the resolver now answers; and a packet
    is sent only for a complete message of that session, with its payload, to
    the address the session has recorded for the message's destination. *)
Theorem server_udp_datagram_effect checks timeout sessions now env dg m s p :
  sessions_ok sessions → env_ok env → bytes_ok dg → len dg ≤ u32_max → parse_udp_message dg = Ret m →
  server_udp_step checks timeout sessions (EvUdpDatagram now env dg) = (s, p) →
  ∃ sessions' u', s = Running sessions' ∧ sessions' !! session_id m = Some u' ∧
    (∀ id, id ≠ session_id m → sessions' !! id = sessions !! id) ∧
    (∀ u, sessions !! session_id m = Some u → su_resolved u ⊆ su_resolved u') ∧
    ∀ id t d, p = Some (id, (t, d)) →
      id = session_id m ∧
      ∃ fed m', emitted_ok (fed ++ [m]) m' ∧ Forall (fun x => session_id x = id) fed ∧
        d = data m' ∧ su_resolved u' !! addr m' = Some t.
Proof.
  intros Hs Henv Hok Hlen Hp. cbn [server_udp_step]. rewrite Hp.
  pose proof (parse_datagram_ok dg m Hok Hlen Hp) as Hdm.
  set (u := default (usession_new now (session_id m)) (sessions !! session_id m)).
  assert (usession_ok (session_id m) u) as Hu.
  { unfold u. destruct (sessions !! session_id m) eqn:E; cbn; [by apply Hs|apply usession_new_ok]. }
  assert (∀ v, sessions !! session_id m = Some v → v = u) as Hv by (intros v E; unfold u; by rewrite E).
  pose proof (usession_feed_spec checks now env u m Hu Henv Hdm) as Hf.
  destruct (usession_feed checks now env u m) as [u' [sent|e|]]; destruct Hf as (Hf1 & Hf2 & Hf3 & Hf4 & Hf5); [| |done];
    intros [= <- <-]; do 2 eexists; (split; [done|]); rewrite lookup_insert_eq; (split; [done|]);
    (split; [intros id Hne; by rewrite lookup_insert_ne|]).
  - split; [intros v ->%Hv; done|]. intros id t d Hsent. destruct sent as [[t' d']|]; [|done].
    injection Hsent as <- <- <-. split; [done|]. by apply Hf5.
  - split; [intros v ->%Hv; done|]. done.
Qed.

Lemma server_udp_datagram_effect_witness :
  ∃ sessions' u', fst (server_udp_step true 60 ∅ (EvUdpDatagram 5
      (mkEnv (fun _ => Ret [mkSaddr false (str "1.2.3.4:53")]) (fun _ => Ret [mkSaddr false (str "1.2.3.4:53")])
         (fun _ => Ret ()) (fun _ _ => Ret ())) [0; 0; 0; 7; 0; 0; 0; 1; 1; 104; 42]))
    = Running sessions' ∧ sessions' !! 7 = Some u'.
Proof.
  destruct (server_udp_datagram_effect true 60 ∅ 5
    (mkEnv (fun _ => Ret [mkSaddr false (str "1.2.3.4:53")]) (fun _ => Ret [mkSaddr false (str "1.2.3.4:53")])
         (fun _ => Ret ()) (fun _ _ => Ret ()))
    [0; 0; 0; 7; 0; 0; 0; 1; 1; 104; 42] (mkUDPMessage 7 0 0 1 [104] [42])
    (fst (server_udp_step true 60 ∅ (EvUdpDatagram 5
      (mkEnv (fun _ => Ret [mkSaddr false (str "1.2.3.4:53")]) (fun _ => Ret [mkSaddr false (str "1.2.3.4:53")])
         (fun _ => Ret ()) (fun _ _ => Ret ())) [0; 0; 0; 7; 0; 0; 0; 1; 1; 104; 42])))
    (snd (server_udp_step true 60 ∅ (EvUdpDatagram 5
      (mkEnv (fun _ => Ret [mkSaddr false (str "1.2.3.4:53")]) (fun _ => Ret [mkSaddr false (str "1.2.3.4:53")])
         (fun _ => Ret ()) (fun _ _ => Ret ())) [0; 0; 0; 7; 0; 0; 0; 1; 1; 104; 42]))))
    as (sessions' & u' & H1 & H2 & _).
  - intros id u Hu. rewrite lookup_empty in Hu. discriminate.
  - split_and!; intros; discriminate.
  - by_decide.
  - by_decide.
  - vm_compute. reflexivity.
  - apply surjective_pairing.
  - exists sessions', u'. split; [exact H1|exact H2].
Defined.

(** The life of a session. A session survives every cleanup tick up to its
    idle timeout after its last datagram, unchanged, and the first tick after
    that removes it. *)
Theorem udp_session_lifetime checks timeout sessions id u ts t :
  sessions !! id = Some u → 0 ≤ timeout → Forall (fun t => t ≤ su_last_activity u + timeout) ts →
  su_last_activity u + timeout < t →
  (∃ sessions', fst (server_udp_run checks timeout (Running sessions) (ticks ts)) = Running sessions' ∧
     sessions' !! id = Some u ∧
     ∃ sessions'', fst (server_udp_step checks timeout sessions' (EvTick t)) = Running sessions'' ∧
       sessions'' !! id = None).
Proof.
  intros Hu Ht Hts Hlate. destruct (ticks_keep checks timeout sessions id u ts Hu Hts Ht) as (s' & Hrun & Hs').
  exists s'. split_and!; [done|done|]. eexists. split; [done|]. apply map_lookup_filter_None. right.
  intros v Hv. assert (v = u) as -> by congruence. cbn. unfold is_idle. rewrite bool_decide_eq_false. lia.
Qed.

Lemma udp_session_lifetime_witness :
  ∃ sessions', fst (server_udp_run true 60 (Running {[ 7 := usession_new 5 7 ]}) (ticks [10; 65])) = Running sessions' ∧
    sessions' !! 7 = Some (usession_new 5 7).
Proof.
  destruct (udp_session_lifetime true 60 {[ 7 := usession_new 5 7 ]} 7 (usession_new 5 7) [10; 65] 66) as (s & H1 & H2 & _).
  - apply lookup_singleton_eq.
  - lia.
  - by_decide.
  - cbn. lia.
  - exists s. split; [exact H1|exact H2].
Defined.
