(* ===== verification/Net.v ===== *)
(** * Addresses of the standard library ([std::net])

    [Ipv4Addr], [Ipv6Addr] and [SocketAddr]: their texts and their parsers, as
    the proxies use them. An IPv4 address is its 4 octets, an IPv6 address its
    16; a parser returns what it read and the rest of the text. *)
From S2P Require Import Prelude RustStr.
Local Open Scope Z_scope.

Inductive SocketAddr :=
| SocketV4 (octets : bytes) (port : Z)
| SocketV6 (octets : bytes) (port : Z).
#[global] Instance SocketAddr_eq_dec : EqDecision SocketAddr.
Proof. solve_decision. Defined.

Definition COLON : Z := 58.
Definition DOT : Z := 46.

(** ** Texts *)

Definition ipv4_text (o : bytes) : bytes :=
  match o with
  | [a; b; c; d] => to_string a ++ DOT :: to_string b ++ DOT :: to_string c ++ DOT :: to_string d
  | _ => []
  end.

Definition hex_digit (d : Z) : Z := if decide (d < 10) then 48 + d else 87 + d.
(** [{:x}] of a 16-bit segment. *)
Definition hex16 (v : Z) : bytes :=
  let ds := [v / 4096 mod 16; v / 256 mod 16; v / 16 mod 16] in
  map hex_digit (drop_while (fun d => d =? 0) ds ++ [v mod 16]).

Fixpoint segments (o : bytes) : list Z :=
  match o with
  | a :: b :: o => a * 256 + b :: segments o
  | _ => []
  end.

Fixpoint join (sep : bytes) (l : list bytes) : bytes :=
  match l with
  | [] => []
  | [x] => x
  | x :: l => x ++ sep ++ join sep l
  end.

(** The first longest run of zero segments, as start and length. *)
Fixpoint longest_zeros (l : list Z) (i : nat) (cur best : nat * nat) : nat * nat :=
  match l with
  | [] => best
  | s :: l =>
      if decide (s = 0) then
        let cur := (if decide (snd cur = 0%nat) then i else fst cur, S (snd cur)) in
        longest_zeros l (S i) cur (if decide (snd best < snd cur)%nat then cur else best)
      else longest_zeros l (S i) (0, 0)%nat best
  end.

(** [Display for Ipv6Addr]. *)
Definition ipv6_text (o : bytes) : bytes :=
  let segs := segments o in
  if decide (take 5 segs = [0; 0; 0; 0; 0] ∧ segs !! 5%nat = Some 65535)
  then str "::ffff:" ++ ipv4_text (drop 12 o)
  else
    let '(start, n) := longest_zeros segs 0 (0, 0)%nat (0, 0)%nat in
    if decide (1 < n)%nat then
      join [COLON] (map hex16 (take start segs)) ++ [COLON; COLON]
      ++ join [COLON] (map hex16 (drop (start + n) segs))
    else join [COLON] (map hex16 segs).

(** [Display for SocketAddr]. *)
Definition socket_addr_text (a : SocketAddr) : bytes :=
  match a with
  | SocketV4 o p => ipv4_text o ++ COLON :: to_string p
  | SocketV6 o p => 91 :: ipv6_text o ++ 93 :: COLON :: to_string p
  end.
(** [addr.ip().to_string()] and [addr.port()]. *)
Definition ip_text (a : SocketAddr) : bytes :=
  match a with SocketV4 o _ => ipv4_text o | SocketV6 o _ => ipv6_text o end.
Definition port_of (a : SocketAddr) : Z := match a with SocketV4 _ p | SocketV6 _ p => p end.

(** ** Parsers *)

Definition digit_value (radix b : Z) : option Z :=
  let v := if in_range 48 57 b then b - 48
           else if in_range 97 122 b then b - 87
           else if in_range 65 90 b then b - 55 else radix in
  if decide (v < radix) then Some v else None.

(** The digits a text starts with. *)
Fixpoint span_digits (radix : Z) (l : bytes) : list Z * bytes :=
  match l with
  | b :: l' =>
      match digit_value radix b with
      | Some d => let '(ds, rest) := span_digits radix l' in (d :: ds, rest)
      | None => ([], l)
      end
  | [] => ([], [])
  end.
Definition of_digits (radix : Z) (ds : list Z) : Z := fold_left (fun acc d => acc * radix + d) ds 0.

(** [Parser::read_number]. *)
Definition read_number (radix : Z) (max_digits : option nat) (allow_zero_prefix : bool) (max : Z) (l : bytes)
    : option (Z * bytes) :=
  let '(ds, rest) := span_digits radix l in
  let too_many := match max_digits with Some n => bool_decide (n < length ds)%nat | None => false end in
  if decide (ds = []) then None
  else if too_many then None
  else if negb allow_zero_prefix && bool_decide (head ds = Some 0) && bool_decide (1 < length ds)%nat then None
  else if decide (of_digits radix ds ≤ max) then Some (of_digits radix ds, rest) else None.

Definition read_given (c : Z) (l : bytes) : option bytes :=
  match l with b :: l => if decide (b = c) then Some l else None | [] => None end.

Definition read_octet : bytes → option (Z * bytes) := read_number 10 (Some 3%nat) false 255.
Definition read_ipv4 (l : bytes) : option (bytes * bytes) :=
  '(a, l) ← read_octet l; l ← read_given DOT l;
  '(b, l) ← read_octet l; l ← read_given DOT l;
  '(c, l) ← read_octet l; l ← read_given DOT l;
  '(d, l) ← read_octet l;
  Some ([a; b; c; d], l).

(** [read_groups]: segments separated by colons, up to [limit] of them, the
    last two possibly as an IPv4 address; whether it was. *)
Fixpoint read_groups (limit : nat) (first : bool) (l : bytes) : list Z * bool * bytes :=
  match limit with
  | O => ([], false, l)
  | S limit' =>
      let start := if first then Some l else read_given COLON l in
      match start with
      | None => ([], false, l)
      | Some l1 =>
          match (if decide (1 ≤ limit')%nat then read_ipv4 l1 else None) with
          | Some ([a; b; c; d], l2) => ([a * 256 + b; c * 256 + d], true, l2)
          | _ =>
              match read_number 16 (Some 4%nat) true 65535 l1 with
              | Some (g, l2) =>
                  let '(gs, v4, l3) := read_groups limit' false l2 in (g :: gs, v4, l3)
              | None => ([], false, l)
              end
          end
      end
  end.

Fixpoint octets_of (segs : list Z) : bytes :=
  match segs with [] => [] | s :: segs => s / 256 :: s mod 256 :: octets_of segs end.

Definition read_ipv6 (l : bytes) : option (bytes * bytes) :=
  let '(hd, head_v4, l) := read_groups 8 true l in
  if decide (length hd = 8%nat) then Some (octets_of hd, l)
  else if head_v4 then None
  else
    l ← read_given COLON l; l ← read_given COLON l;
    let limit := (8 - (length hd + 1))%nat in
    let '(tl, _, l) := read_groups limit true l in
    Some (octets_of (hd ++ replicate (8 - length hd - length tl) 0 ++ tl), l).

(** The whole text has to be read. *)
Definition parse_all {A} (r : option (A * bytes)) : option A :=
  match r with Some (a, []) => Some a | _ => None end.

(** [s.parse::<Ipv4Addr>()] and [s.parse::<Ipv6Addr>()]. *)
Definition parse_ipv4 (s : bytes) : option bytes := parse_all (read_ipv4 s).
Definition parse_ipv6 (s : bytes) : option bytes := parse_all (read_ipv6 s).

Definition read_port (l : bytes) : option (Z * bytes) :=
  l ← read_given COLON l; read_number 10 None true 65535 l.
(** The optional scope of an IPv6 socket address. *)
Definition read_scope (l : bytes) : option bytes :=
  match l with
  | b :: l' => if decide (b = 37) then snd <$> read_number 10 None true 4294967295 l' else Some l
  | [] => Some []
  end.
(** [s.parse::<SocketAddr>()]. *)
Definition parse_socket_v4 (s : bytes) : option SocketAddr :=
  parse_all ('(o, l) ← read_ipv4 s; '(p, l) ← read_port l; Some (SocketV4 o p, l)).
Definition parse_socket_v6 (s : bytes) : option SocketAddr :=
  parse_all (l ← read_given 91 s; '(o, l) ← read_ipv6 l; l ← read_scope l; l ← read_given 93 l;
             '(p, l) ← read_port l; Some (SocketV6 o p, l)).
Definition parse_socket_addr (s : bytes) : option SocketAddr :=
  match parse_socket_v4 s with Some a => Some a | None => parse_socket_v6 s end.

Example ipv6_text_ex :
  map ipv6_text [replicate 15 0 ++ [1]; [32; 1; 13; 184] ++ replicate 11 0 ++ [1];
                 replicate 10 0 ++ [255; 255; 1; 2; 3; 4]]
  = [str "::1"; str "2001:db8::1"; str "::ffff:1.2.3.4"].
Proof. reflexivity. Qed.
Example parse_ex :
  parse_socket_addr (str "[2001:db8::1]:443") = Some (SocketV6 ([32; 1; 13; 184] ++ replicate 11 0 ++ [1]) 443)
  ∧ parse_socket_addr (str "10.0.0.1:80") = Some (SocketV4 [10; 0; 0; 1] 80)
  ∧ parse_ipv4 (str "01.2.3.4") = None ∧ parse_ipv6 (str "::ffff:1.2.3.4") = Some (replicate 10 0 ++ [255; 255; 1; 2; 3; 4])
  ∧ parse_ipv6 (str "1::2::3") = None.
Proof. repeat split; reflexivity. Qed.

(** ** Reading what was printed *)

Definition no_digit (rest : bytes) : Prop := ∀ b, head rest = Some b → is_digit b = false.

Lemma digit_value_10 b : digit_value 10 b = if is_digit b then Some (b - 48) else None.
Proof.
  unfold digit_value, is_digit. destruct (in_range 48 57 b) eqn:H1.
  - apply in_range_true in H1. by rewrite decide_True by lia.
  - destruct (in_range 97 122 b) eqn:H2; [apply in_range_true in H2; by rewrite decide_False by lia|].
    destruct (in_range 65 90 b) eqn:H3; [apply in_range_true in H3; by rewrite decide_False by lia|].
    by rewrite decide_False by lia.
Qed.

Lemma span_digits_parse max acc l rest v :
  parse_digits max acc l = Some v → no_digit rest →
  ∃ ds, span_digits 10 (l ++ rest) = (ds, rest) ∧ fold_left (fun acc d => acc * 10 + d) ds acc = v ∧
    length ds = length l ∧ (∀ b, head l = Some b → head ds = Some (b - 48)).
Proof.
  intros Hp Hrest. revert acc Hp. induction l as [|b l IH]; intros acc; cbn [parse_digits app].
  - intros [= <-]. exists []. split_and!; try done. destruct rest as [|b rest]; [done|].
    cbn [span_digits]. rewrite digit_value_10, (Hrest b eq_refl). done.
  - cbn [span_digits]. rewrite digit_value_10. destruct (is_digit b); [|done]. case_decide; [|done].
    intros Hp. destruct (IH _ Hp) as (ds & -> & Hf & Hl & _). exists (b - 48 :: ds). cbn. split_and!; try done; [lia|].
    by intros ? [= <-].
Qed.

Lemma read_number_text max n rest :
  0 ≤ n ≤ max → max ≤ u64_max → no_digit rest →
  read_number 10 None true max (to_string n ++ rest) = Some (n, rest).
Proof.
  intros Hn Hm Hrest. assert (parse_digits max 0 (to_string n) = Some n) as Hp.
  { apply dec_digits_parse; [done| |lia]. change (10 ^ Z.of_nat 20) with 100000000000000000000. unfold u64_max in Hm. lia. }
  destruct (span_digits_parse _ _ _ rest _ Hp Hrest) as (ds & Hs & Hf & Hl & _).
  unfold read_number. rewrite Hs. assert (ds ≠ []) as Hne.
  { intros ->. pose proof (to_string_nonempty n). by destruct (to_string n). }
  rewrite decide_False by done. cbn [negb andb]. unfold of_digits. rewrite Hf. by rewrite decide_True by lia.
Qed.

(** The text of an octet has up to three digits and no leading zero. *)
Lemma octet_text n :
  is_u8 n → (length (to_string n) ≤ 3)%nat ∧ (head (to_string n) = Some 48 → length (to_string n) = 1%nat).
Proof.
  intros Hn. assert (Forall (fun n => (length (to_string n) ≤ 3)%nat ∧ (head (to_string n) = Some 48 → length (to_string n) = 1%nat))
    (seqZ 0 256)) as H by by_decide.
  rewrite Forall_forall in H. apply H. apply elem_of_seqZ. unfold is_u8 in Hn. lia.
Qed.

Lemma read_octet_text n rest : is_u8 n → no_digit rest → read_octet (to_string n ++ rest) = Some (n, rest).
Proof.
  intros Hn Hrest. destruct (octet_text n Hn) as [H3 H0]. unfold is_u8 in Hn.
  assert (parse_digits 255 0 (to_string n) = Some n) as Hp.
  { apply dec_digits_parse; [lia| |lia]. change (10 ^ Z.of_nat 20) with 100000000000000000000. lia. }
  destruct (span_digits_parse _ _ _ rest _ Hp Hrest) as (ds & Hs & Hf & Hl & Hh).
  unfold read_octet, read_number. rewrite Hs. assert (ds ≠ []) as Hne.
  { intros ->. pose proof (to_string_nonempty n). by destruct (to_string n). }
  rewrite decide_False by done. rewrite bool_decide_false by lia. cbn [negb andb].
  assert (bool_decide (head ds = Some 0) && bool_decide (1 < length ds)%nat = false) as ->.
  { destruct (to_string n) as [|b t] eqn:Ht; [by destruct ds|]. rewrite (Hh b eq_refl).
    destruct (decide (b = 48)) as [->|Hb].
    - rewrite (bool_decide_false (1 < length ds)%nat); [apply andb_false_r|]. rewrite Hl, H0 by done. lia.
    - rewrite bool_decide_false; [done|]. intros [= ?]. lia. }
  unfold of_digits. rewrite Hf. by rewrite decide_True by lia.
Qed.

Lemma no_digit_cons b rest : is_digit b = false → no_digit (b :: rest).
Proof. intros H c [= <-]. done. Qed.
Lemma no_digit_nil : no_digit [].
Proof. by intros ? [=]. Qed.

Lemma read_ipv4_text o rest :
  length o = 4%nat → bytes_ok o → no_digit rest → read_ipv4 (ipv4_text o ++ rest) = Some (o, rest).
Proof.
  intros Hl Hok Hrest. destruct o as [|a [|b [|c [|d [|]]]]]; try done.
  unfold bytes_ok in Hok. rewrite !Forall_cons in Hok. destruct Hok as (Ha & Hb & Hc & Hd & _).
  unfold read_ipv4, ipv4_text.
  do 3 (rewrite <- app_assoc; cbn [app]; rewrite read_octet_text by (done || by apply no_digit_cons);
        cbn [mbind option_bind read_given]; rewrite decide_True by done; cbn [mbind option_bind]).
  rewrite read_octet_text by done. done.
Qed.

Lemma parse_ipv4_text o : length o = 4%nat → bytes_ok o → parse_ipv4 (ipv4_text o) = Some o.
Proof.
  intros Hl Hok. unfold parse_ipv4. rewrite <- (app_nil_r (ipv4_text o)).
  by rewrite read_ipv4_text by (done || apply no_digit_nil).
Qed.

Lemma parse_socket_v4_text o p :
  length o = 4%nat → bytes_ok o → is_u16 p → parse_socket_addr (ipv4_text o ++ COLON :: to_string p) = Some (SocketV4 o p).
Proof.
  intros Hl Hok Hp. unfold parse_socket_addr, parse_socket_v4. rewrite read_ipv4_text by (done || by apply no_digit_cons).
  cbn [mbind option_bind]. unfold read_port. cbn [read_given]. rewrite decide_True by done. cbn [mbind option_bind].
  rewrite <- (app_nil_r (to_string p)). rewrite read_number_text by (apply no_digit_nil || (unfold is_u16, u64_max in *; lia)).
  done.
Qed.

Lemma ipv4_text_chars o : length o = 4%nat → bytes_ok o → Forall (fun b => is_digit b = true ∨ b = DOT) (ipv4_text o).
Proof.
  intros Hl Hok. destruct o as [|a [|b [|c [|d [|]]]]]; try done.
  unfold bytes_ok in Hok. rewrite !Forall_cons in Hok. destruct Hok as (Ha & Hb & Hc & Hd & _). unfold is_u8 in *. unfold ipv4_text.
  assert (∀ n, 0 ≤ n → Forall (fun b => is_digit b = true ∨ b = DOT) (to_string n)) as Hd'.
  { intros n Hn. eapply Forall_impl; [by apply to_string_digits|]. by left. }
  rewrite !Forall_app, !Forall_cons, !Forall_app, !Forall_cons, !Forall_app, !Forall_cons.
  split_and!; try (by right); apply Hd'; lia.
Qed.
