(* ===== verification/Socks5.v ===== *)
(** * The SOCKS5 front end ([app/src/socks5.rs])

    Negotiation, requests, replies and the UDP association. A connection is
    the bytes still to read and what was written; handlers run in a small
    state and error monad over it, whose errors are the texts of the [anyhow]
    errors. *)
From S2P Require Import Prelude RustStr Proxy Net.
Local Open Scope Z_scope.

Definition SOCKS5_VERSION : Z := 5.
Definition SOCKS5_METHOD_NONE : Z := 0.
Definition SOCKS5_METHOD_USERNAME_PASSWORD : Z := 2.
Definition SOCKS5_METHOD_UNACCEPTABLE : Z := 255.
Definition SOCKS5_CMD_CONNECT : Z := 1.
Definition SOCKS5_CMD_UDP_ASSOCIATE : Z := 3.
Definition SOCKS5_REP_SUCCESS : Z := 0.
Definition SOCKS5_REP_HOST_UNREACHABLE : Z := 4.
Definition SOCKS5_REP_COMMAND_NOT_SUPPORTED : Z := 7.
Definition SOCKS5_ATYP_IPV4 : Z := 1.
Definition SOCKS5_ATYP_DOMAIN : Z := 3.
Definition SOCKS5_ATYP_IPV6 : Z := 4.
Definition USERPASS_VERSION : Z := 1.
Definition USERPASS_STATUS_SUCCESS : Z := 0.
Definition USERPASS_STATUS_FAILURE : Z := 1.

(** ** Handlers on a connection *)

Record conn := mkConn { cn_in : reader; cn_out : writer }.
Definition handler (A : Type) : Type := conn → conn * outcome bytes A.

#[global] Instance handler_ret : MRet handler := fun A a c => (c, Ret a).
#[global] Instance handler_bind : MBind handler := fun A B f m c =>
  match m c with
  | (c, Ret a) => f a c
  | (c, Err e) => (c, Err e)
  | (c, Panic) => (c, Panic)
  end.

Definition bail {A} (msg : bytes) : handler A := fun c => (c, Err msg).
Definition lift {A} (r : outcome bytes A) : handler A := fun c => (c, r).
(** [stream.read_exact(&mut buf).await?] and [stream.write_all(..).await?]. *)
Definition recv_exact (n : Z) : handler bytes := fun c =>
  match read_exact (cn_in c) n with
  | Ret (b, r) => (mkConn r (cn_out c), Ret b)
  | Err (IoUnexpectedEof msg) | Err (IoOther msg) => (c, Err msg)
  | Panic => (c, Panic)
  end.
Definition send_all (b : bytes) : handler unit := fun c =>
  match write_all (cn_out c) b with
  | Ret w => (mkConn (cn_in c) w, Ret ())
  | Err (IoUnexpectedEof msg) | Err (IoOther msg) => (c, Err msg)
  | Panic => (c, Panic)
  end.

(** [negotiate], its username and password part. *)
Definition check_credentials (expected : bytes * bytes) : handler unit :=
  auth_header ← recv_exact 2;
  v ← lift (index auth_header 0);
  if decide (v ≠ USERPASS_VERSION) then
    _ ← send_all [USERPASS_VERSION; USERPASS_STATUS_FAILURE];
    bail (str "unsupported username/password auth version")
  else
    username_len ← lift (index auth_header 1);
    username ← recv_exact username_len;
    password_len ← recv_exact 1;
    n ← lift (index password_len 0);
    password ← recv_exact n;
    if decide (username = fst expected ∧ password = snd expected) then
      send_all [USERPASS_VERSION; USERPASS_STATUS_SUCCESS]
    else
      _ ← send_all [USERPASS_VERSION; USERPASS_STATUS_FAILURE];
      bail (str "invalid SOCKS5 credentials").

Definition negotiate (auth : option (bytes * bytes)) : handler unit :=
  header ← recv_exact 2;
  v ← lift (index header 0);
  if decide (v ≠ SOCKS5_VERSION) then bail (str "unsupported SOCKS version " ++ to_string v)
  else
    method_count ← lift (index header 1);
    methods ← recv_exact method_count;
    let selected := match auth with Some _ => SOCKS5_METHOD_USERNAME_PASSWORD | None => SOCKS5_METHOD_NONE end in
    if decide (selected ∉ methods) then
      _ ← send_all [SOCKS5_VERSION; SOCKS5_METHOD_UNACCEPTABLE];
      bail (str "no acceptable SOCKS5 authentication method")
    else
      _ ← send_all [SOCKS5_VERSION; selected];
      match auth with
      | Some expected => check_credentials expected
      | None => mret ()
      end.

Record SocksRequest := mkSocksRequest { command : Z; address : bytes }.

Definition read_address (atyp : Z) : handler bytes :=
  host ← (if decide (atyp = SOCKS5_ATYP_IPV4) then
            raw ← recv_exact 4; mret (ipv4_text raw)
          else if decide (atyp = SOCKS5_ATYP_IPV6) then
            raw ← recv_exact 16; mret (ipv6_text raw)
          else if decide (atyp = SOCKS5_ATYP_DOMAIN) then
            l ← recv_exact 1; n ← lift (index l 0); raw ← recv_exact n;
            lift (ok_or (from_utf8 raw) (str "invalid SOCKS5 domain address"))
          else bail (str "unsupported SOCKS5 address type " ++ to_string atyp));
  port_bytes ← recv_exact 2;
  mret (host ++ COLON :: to_string (of_be port_bytes)).

Definition read_request : handler SocksRequest :=
  header ← recv_exact 4;
  v ← lift (index header 0);
  if decide (v ≠ SOCKS5_VERSION) then bail (str "unsupported SOCKS request version " ++ to_string v)
  else
    atyp ← lift (index header 3);
    address ← read_address atyp;
    command ← lift (index header 1);
    mret (mkSocksRequest command address).

Definition encode_socket_addr (a : SocketAddr) : bytes :=
  match a with
  | SocketV4 o p => SOCKS5_ATYP_IPV4 :: o ++ be_bytes 2 p
  | SocketV6 o p => SOCKS5_ATYP_IPV6 :: o ++ be_bytes 2 p
  end.

Definition write_reply (reply : Z) (bind_addr : option SocketAddr) : handler unit :=
  let a := default (SocketV4 [0; 0; 0; 0] 0) bind_addr in
  send_all ([SOCKS5_VERSION; reply; 0] ++ encode_socket_addr a).

(** What a connection is used for once its request was answered. *)
Inductive socks_action (R : Type) :=
| SocksRelay (remote : R)
| SocksUdp (relay_addr : SocketAddr)
| SocksDone.
Arguments SocksRelay {R} remote.
Arguments SocksUdp {R} relay_addr.
Arguments SocksDone {R}.

Section socks.
Context {R : Type}.
(** [client.tcp] with the text of its error, and the set up of a UDP relay:
    the socket bound next to the control connection and the session. *)
Context (tcp : bytes → outcome bytes R) (udp_relay : outcome bytes SocketAddr).

Definition handle_connect (address : bytes) : handler (socks_action R) :=
  match tcp address with
  | Ret remote => _ ← write_reply SOCKS5_REP_SUCCESS None; mret (SocksRelay remote)
  | Err err => _ ← write_reply SOCKS5_REP_HOST_UNREACHABLE None; bail err
  | Panic => lift Panic
  end.

Definition handle_udp_associate : handler (socks_action R) :=
  a ← lift udp_relay;
  _ ← write_reply SOCKS5_REP_SUCCESS (Some a);
  mret (SocksUdp a).

Definition handle_client (auth : option (bytes * bytes)) (disable_udp : bool) : handler (socks_action R) :=
  _ ← negotiate auth;
  request ← read_request;
  if decide (command request = SOCKS5_CMD_CONNECT) then handle_connect (address request)
  else if decide (command request = SOCKS5_CMD_UDP_ASSOCIATE ∧ disable_udp = false) then handle_udp_associate
  else
    _ ← write_reply SOCKS5_REP_COMMAND_NOT_SUPPORTED None;
    mret SocksDone.
End socks.

(** The credentials [serve_socks5] asks for: only if both are set. *)
Definition configured_auth (username password : bytes) : option (bytes * bytes) :=
  if decide (username ≠ [] ∧ password ≠ []) then Some (username, password) else None.

(** ** UDP datagrams of the association *)

Definition split_host_port (a : bytes) : outcome bytes (bytes * Z) :=
  match parse_socket_addr a with
  | Some sa => Ret (ip_text sa, port_of sa)
  | None =>
      '(host, port) ← ok_or (rsplit_once COLON a) (str "missing port in address " ++ a);
      p ← ok_or (parse_u16 port) (str "invalid port in address " ++ a);
      Ret (trim_end_matches 93 (trim_start_matches 91 host), p)
  end.

Definition encode_address (a : bytes) : outcome bytes bytes :=
  '(host, port) ← split_host_port a;
  match parse_ipv4 host with
  | Some ip => Ret (SOCKS5_ATYP_IPV4 :: ip ++ be_bytes 2 port)
  | None =>
      match parse_ipv6 host with
      | Some ip => Ret (SOCKS5_ATYP_IPV6 :: ip ++ be_bytes 2 port)
      | None =>
          if decide (u8_max < len host) then Err (str "SOCKS5 domain name is too long")
          else Ret (SOCKS5_ATYP_DOMAIN :: as_u8 (len host) :: host ++ be_bytes 2 port)
      end
  end.

Definition build_udp_datagram (a payload : bytes) : outcome bytes bytes :=
  e ← encode_address a;
  Ret ([0; 0; 0] ++ e ++ payload).

Definition parse_address_from_bytes (buf : bytes) (atyp : Z) : outcome bytes (bytes * Z) :=
  if decide (atyp = SOCKS5_ATYP_IPV4) then
    if decide (len buf < 6) then Err (str "truncated SOCKS5 IPv4 address")
    else
      o ← slice buf 0 4; p ← slice buf 4 6;
      Ret (ipv4_text o ++ COLON :: to_string (of_be p), 6)
  else if decide (atyp = SOCKS5_ATYP_IPV6) then
    if decide (len buf < 18) then Err (str "truncated SOCKS5 IPv6 address")
    else
      o ← slice buf 0 16; p ← slice buf 16 18;
      Ret (91 :: ipv6_text o ++ 93 :: COLON :: to_string (of_be p), 18)
  else if decide (atyp = SOCKS5_ATYP_DOMAIN) then
    if decide (buf = []) then Err (str "truncated SOCKS5 domain address")
    else
      host_len ← index buf 0;
      if decide (len buf < 1 + host_len + 2) then Err (str "truncated SOCKS5 domain address")
      else
        raw ← slice buf 1 (1 + host_len);
        host ← ok_or (from_utf8 raw) (str "invalid SOCKS5 domain address");
        p ← slice buf (1 + host_len) (1 + host_len + 2);
        Ret (host ++ COLON :: to_string (of_be p), 1 + host_len + 2)
  else Err (str "unsupported SOCKS5 address type " ++ to_string atyp).

Definition parse_udp_datagram (buf : bytes) : outcome bytes (option (bytes * bytes)) :=
  if decide (len buf < 4) then Ret None
  else
    b0 ← index buf 0; b1 ← index buf 1;
    if decide (b0 ≠ 0 ∨ b1 ≠ 0) then Ret None
    else
      b2 ← index buf 2;
      if decide (b2 ≠ 0) then Ret None
      else
        atyp ← index buf 3;
        rest ← slice_from buf 4;
        '(a, payload_offset) ← parse_address_from_bytes rest atyp;
        payload ← slice_from buf (4 + payload_offset);
        Ret (Some (a, payload)).

(** One turn of [udp_local_to_remote]: a datagram from a peer; the client the
    association is bound to, and what is sent through the session. *)
Definition local_to_remote_turn (client : option SocketAddr) (peer : SocketAddr) (datagram : bytes)
    : outcome bytes (option SocketAddr * option (bytes * bytes)) :=
  o ← parse_udp_datagram (take 4096 datagram);
  match o with
  | None => Ret (client, None)
  | Some (destination, payload) =>
      match client with
      | None => Ret (Some peer, Some (payload, destination))
      | Some existing =>
          if decide (existing ≠ peer) then Ret (client, None)
          else Ret (client, Some (payload, destination))
      end
  end.

(** One turn of [udp_remote_to_local]: the packet for the bound client. *)
Definition remote_to_local_turn (client : option SocketAddr) (payload from_addr : bytes)
    : outcome bytes (option (SocketAddr * bytes)) :=
  packet ← build_udp_datagram from_addr payload;
  Ret ((fun target => (target, packet)) <$> client).

(** ** The handlers *)

Lemma handler_bind_Ret {A B} (m : handler A) (f : A → handler B) c c' b :
  (m ≫= f) c = (c', Ret b) → ∃ c1 a, m c = (c1, Ret a) ∧ f a c1 = (c', Ret b).
Proof. unfold mbind, handler_bind. destruct (m c) as [c1 [a| |]]; intros H; try discriminate. eauto. Qed.

Lemma recv_exact_Ret n c c' b :
  0 ≤ n → recv_exact n c = (c', Ret b) →
  rd_data (cn_in c) = b ++ rd_data (cn_in c') ∧ len b = n ∧ cn_out c' = cn_out c.
Proof.
  intros Hn. unfold recv_exact, read_exact. case_decide as Hd; [|by destruct (rd_end _)].
  intros [= <- <-]. cbn. rewrite take_drop. split_and!; try done. rewrite len_take. lia.
Qed.

Lemma send_all_Ret b c c' : send_all b c = (c', Ret ()) → cn_in c' = cn_in c.
Proof.
  unfold send_all, write_all. destruct (wr_fail (cn_out c)) as [[]|]; intros [= <-]; done.
Qed.

Lemma lift_index_Ret {A} (l : list A) i c c' x :
  lift (index l i) c = (c', Ret x) → c' = c ∧ l !! Z.to_nat i = Some x.
Proof.
  unfold lift, index. case_decide; [|done]. destruct (l !! Z.to_nat i); [|done]. by intros [= <- <-].
Qed.

(** A step of an inversion of a handler that returned. *)
Ltac hstep H :=
  let c := fresh "c" in let a := fresh "a" in let E := fresh "E" in
  apply handler_bind_Ret in H as (c & a & E & H).

Lemma check_credentials_Ret expected c c' :
  bytes_ok (rd_data (cn_in c)) → check_credentials expected c = (c', Ret ()) →
  rd_data (cn_in c) = [USERPASS_VERSION; len (fst expected)] ++ fst expected
    ++ [len (snd expected)] ++ snd expected ++ rd_data (cn_in c').
Proof.
  intros Hok H. unfold check_credentials in H. hstep H. apply recv_exact_Ret in E as (D1 & L1 & _); [|done].
  destruct a as [|v [|n [|]]]; try (unfold len in L1; cbn in L1; lia). hstep H.
  apply lift_index_Ret in E as [-> [= <-]]. case_decide as Hv.
  { hstep H. unfold bail in H. discriminate. }
  hstep H. apply lift_index_Ret in E as [-> [= <-]]. rewrite D1 in Hok. apply Forall_app in Hok as [Hok1 Hok2].
  rewrite !Forall_cons in Hok1. destruct Hok1 as (Hv8 & Hn8 & _). unfold is_u8 in *.
  hstep H. apply recv_exact_Ret in E as (D2 & L2 & _); [|lia].
  hstep H. apply recv_exact_Ret in E as (D3 & L3 & _); [|done].
  destruct a0 as [|k [|]]; try (unfold len in L3; cbn in L3; lia). hstep H.
  apply lift_index_Ret in E as [-> [= <-]].
  assert (0 ≤ k) as Hk. { rewrite D2, D3 in Hok2. apply Forall_app in Hok2 as [_ Hok2]. cbn [app] in Hok2. rewrite Forall_cons in Hok2. destruct Hok2 as [Hk _]. apply Hk. }
  hstep H. apply recv_exact_Ret in E as (D4 & L4 & _); [|done]. case_decide as Hcred; last first.
  { hstep H. unfold bail in H. discriminate. }
  apply send_all_Ret in H. destruct Hcred as [Hu Hp]. subst.
  rewrite D1, D2, D3, D4, H. done.
Qed.

Lemma negotiate_auth_Ret expected c c' :
  bytes_ok (rd_data (cn_in c)) → negotiate (Some expected) c = (c', Ret ()) →
  ∃ methods, SOCKS5_METHOD_USERNAME_PASSWORD ∈ methods ∧
    rd_data (cn_in c) = [SOCKS5_VERSION; len methods] ++ methods
      ++ [USERPASS_VERSION; len (fst expected)] ++ fst expected ++ [len (snd expected)] ++ snd expected
      ++ rd_data (cn_in c').
Proof.
  intros Hok H. unfold negotiate in H. hstep H. apply recv_exact_Ret in E as (D1 & L1 & _); [|done].
  destruct a as [|v [|n [|]]]; try (unfold len in L1; cbn in L1; lia). hstep H.
  apply lift_index_Ret in E as [-> [= <-]]. case_decide as Hv; [unfold bail in H; discriminate|].
  hstep H. apply lift_index_Ret in E as [-> [= <-]]. rewrite D1 in Hok. apply Forall_app in Hok as [Hok1 Hok2].
  rewrite !Forall_cons in Hok1. destruct Hok1 as (Hv8 & Hn8 & _). unfold is_u8 in *.
  hstep H. apply recv_exact_Ret in E as (D2 & L2 & _); [|lia]. cbv zeta in H. case_decide as Hm.
  { hstep H. unfold bail in H. discriminate. }
  hstep H. destruct a0. apply send_all_Ret in E. rewrite D2 in Hok2. apply Forall_app in Hok2 as [_ Hok2].
  apply check_credentials_Ret in H; [|by rewrite E]. exists a. split; [done|].
  rewrite D1, D2, <- E, H, Hv, L2. done.
Qed.

(** ** Datagrams *)

Lemma trim_brackets host :
  head host ≠ Some 91 → last host ≠ Some 93 →
  trim_end_matches 93 (trim_start_matches 91 host) = host.
Proof.
  intros Hh Hl. unfold trim_start_matches, trim_end_matches.
  assert (drop_while (fun b => b =? 91) host = host) as ->.
  { destruct host as [|b host]; [done|]. cbn. destruct (Z.eqb_spec b 91); [|done]. subst. done. }
  assert (drop_while (fun b => b =? 93) (reverse host) = reverse host) as ->; [|apply reverse_involutive].
  rewrite last_reverse_head in Hl || rewrite <- head_reverse in Hl.
  destruct (reverse host) as [|b l]; [done|]. cbn. destruct (Z.eqb_spec b 93); [|done]. subst. done.
Qed.

Lemma colon_not_in_digits p : 0 ≤ p → COLON ∉ to_string p.
Proof.
  intros Hp Hin. pose proof (to_string_digits p Hp) as Hd. rewrite Forall_forall in Hd.
  apply Hd in Hin. by vm_compute in Hin.
Qed.

Lemma split_host_port_domain host p :
  is_u16 p → parse_socket_addr (host ++ COLON :: to_string p) = None →
  head host ≠ Some 91 → last host ≠ Some 93 →
  split_host_port (host ++ COLON :: to_string p) = Ret (host, p).
Proof.
  intros Hp Hs Hh Hl. unfold split_host_port, is_u16 in *. rewrite Hs.
  rewrite rsplit_once_app by (apply colon_not_in_digits; lia). cbn [ok_or mbind outcome_bind].
  unfold parse_u16. rewrite parse_to_string by (unfold u16_max, u64_max; lia). cbn [ok_or mbind outcome_bind].
  by rewrite trim_brackets.
Qed.

Lemma split_host_port_v4 o p :
  length o = 4%nat → bytes_ok o → is_u16 p →
  split_host_port (ipv4_text o ++ COLON :: to_string p) = Ret (ipv4_text o, p).
Proof. intros. unfold split_host_port. by rewrite parse_socket_v4_text. Qed.

Lemma of_be_port p : is_u16 p → of_be (be_bytes 2 p) = p.
Proof. intros. apply of_be_be_bytes_id. unfold is_u16 in *. cbn. lia. Qed.

Lemma parse_udp_built atyp abytes payload a n :
  parse_address_from_bytes (abytes ++ payload) atyp = Ret (a, n) → n = len abytes →
  parse_udp_datagram ([0; 0; 0] ++ (atyp :: abytes) ++ payload) = Ret (Some (a, payload)).
Proof.
  intros Hp ->. unfold parse_udp_datagram. cbn [app]. pose proof (len_nonneg (abytes ++ payload)).
  rewrite decide_False by (rewrite !len_cons; lia).
  change (index (E:=bytes) (0 :: 0 :: 0 :: atyp :: abytes ++ payload) 0) with (Ret (E:=bytes) 0).
  change (index (E:=bytes) (0 :: 0 :: 0 :: atyp :: abytes ++ payload) 1) with (Ret (E:=bytes) 0).
  change (index (E:=bytes) (0 :: 0 :: 0 :: atyp :: abytes ++ payload) 2) with (Ret (E:=bytes) 0).
  change (index (E:=bytes) (0 :: 0 :: 0 :: atyp :: abytes ++ payload) 3) with (Ret (E:=bytes) atyp).
  cbn [mbind outcome_bind]. rewrite decide_False by tauto. cbn [mbind outcome_bind]. rewrite decide_False by tauto.
  rewrite (slice_from_app [0; 0; 0; atyp] (abytes ++ payload) 4) by done. cbn [mbind outcome_bind]. rewrite Hp.
  cbn [mbind outcome_bind].
  rewrite (slice_from_app ([0; 0; 0; atyp] ++ abytes) payload) by (rewrite len_app; done). done.
Qed.

Lemma parse_address_v4 o p payload :
  length o = 4%nat → is_u16 p →
  parse_address_from_bytes ((o ++ be_bytes 2 p) ++ payload) SOCKS5_ATYP_IPV4
  = Ret (ipv4_text o ++ COLON :: to_string p, 6).
Proof.
  intros Ho Hp. unfold parse_address_from_bytes. rewrite decide_True by done. pose proof (len_nonneg payload).
  assert (len o = 4) as Hlo by (unfold len; lia). rewrite decide_False by (rewrite !len_app, len_be_bytes; lia).
  rewrite <- app_assoc. rewrite slice_prefix by lia. cbn [mbind outcome_bind].
  rewrite slice_app_mid by (rewrite ?len_be_bytes; lia). cbn [mbind outcome_bind]. by rewrite of_be_port.
Qed.

Lemma parse_address_domain host p payload :
  is_u16 p → len host ≤ u8_max → utf8_valid host = true →
  parse_address_from_bytes ((len host :: host ++ be_bytes 2 p) ++ payload) SOCKS5_ATYP_DOMAIN
  = Ret (host ++ COLON :: to_string p, 1 + len host + 2).
Proof.
  intros Hp Hl Hu. unfold parse_address_from_bytes. rewrite decide_False, decide_False, decide_True by done.
  cbn [app]. rewrite decide_False by done. rewrite index_head. cbn [mbind outcome_bind].
  pose proof (len_nonneg payload). pose proof (len_nonneg host).
  rewrite decide_False by (rewrite len_cons, !len_app, len_be_bytes; lia).
  rewrite <- app_assoc. assert (slice (E:=bytes) (len host :: host ++ be_bytes 2 p ++ payload) 1 (1 + len host) = Ret host) as ->
    by exact (slice_app_mid [len host] host (be_bytes 2 p ++ payload) 1 (1 + len host) eq_refl eq_refl).
  cbn [mbind outcome_bind]. unfold from_utf8. rewrite Hu. cbn [ok_or mbind outcome_bind].
  assert (slice (E:=bytes) (len host :: host ++ be_bytes 2 p ++ payload) (1 + len host) (1 + len host + 2) = Ret (be_bytes 2 p)) as ->.
  { apply (slice_app_mid (len host :: host) (be_bytes 2 p) payload); rewrite ?len_cons, ?len_be_bytes; lia. }
  cbn [mbind outcome_bind]. by rewrite of_be_port.
Qed.

Lemma recv_exact_app b q e w n :
  n = len b → recv_exact n (mkConn (Reader (b ++ q) e) w) = (mkConn (Reader q e) w, Ret b).
Proof. intros Hn. unfold recv_exact. cbn [cn_in]. by rewrite read_exact_app. Qed.

Lemma send_all_ok r out b : send_all b (mkConn r (Writer out None)) = (mkConn r (Writer (out ++ b) None), Ret ()).
Proof. done. Qed.

(** Reading a domain request off a connection. *)
Lemma read_request_domain host p cmd q e w :
  is_u16 p → len host ≤ u8_max → utf8_valid host = true →
  read_request (mkConn (Reader ([SOCKS5_VERSION; cmd; 0; SOCKS5_ATYP_DOMAIN; len host] ++ host ++ be_bytes 2 p ++ q) e) w)
  = (mkConn (Reader q e) w, Ret (mkSocksRequest cmd (host ++ COLON :: to_string p))).
Proof.
  intros Hp Hl Hu. unfold read_request, mbind, handler_bind.
  change ([SOCKS5_VERSION; cmd; 0; SOCKS5_ATYP_DOMAIN; len host] ++ host ++ be_bytes 2 p ++ q)
    with ([SOCKS5_VERSION; cmd; 0; SOCKS5_ATYP_DOMAIN] ++ [len host] ++ host ++ be_bytes 2 p ++ q).
  rewrite recv_exact_app by done. unfold lift at 1.
  change (index (E:=bytes) [SOCKS5_VERSION; cmd; 0; SOCKS5_ATYP_DOMAIN] 0) with (Ret (E:=bytes) SOCKS5_VERSION).
  cbn iota. rewrite decide_False by tauto. unfold lift at 1.
  change (index (E:=bytes) [SOCKS5_VERSION; cmd; 0; SOCKS5_ATYP_DOMAIN] 3) with (Ret (E:=bytes) SOCKS5_ATYP_DOMAIN).
  cbn iota. unfold read_address, mbind, handler_bind. rewrite decide_False, decide_False, decide_True by done.
  rewrite recv_exact_app by done. unfold lift at 1. rewrite index_head. rewrite recv_exact_app by done.
  unfold lift at 1, from_utf8. rewrite Hu. cbn [ok_or]. rewrite recv_exact_app by done.
  unfold mret, handler_ret. rewrite of_be_port by done. done.
Qed.

(** ** Properties *)

(** C15: SOCKS5 authentication. When credentials are configured, whatever bytes
    a client sends, its connection is acted on only if they begin with a
    greeting that offers username/password, followed by exactly the configured
    username and password; credentials are asked for exactly if both are set. *)
Theorem socks5_auth_gate {R} (tcp : bytes → outcome bytes R) udp_relay username password disable_udp c c' act :
  bytes_ok (rd_data (cn_in c)) → username ≠ [] → password ≠ [] →
  handle_client tcp udp_relay (configured_auth username password) disable_udp c = (c', Ret act) →
  ∃ methods rest, SOCKS5_METHOD_USERNAME_PASSWORD ∈ methods ∧
    rd_data (cn_in c) = [SOCKS5_VERSION; len methods] ++ methods
      ++ [USERPASS_VERSION; len username] ++ username ++ [len password] ++ password ++ rest.
Proof.
  intros Hok Hu Hp H. unfold configured_auth in H. rewrite decide_True in H by done.
  unfold handle_client in H. hstep H. destruct a. apply negotiate_auth_Ret in E as (methods & Hm & Hd); [|done]. eauto.
Qed.

Lemma socks5_auth_gate_witness :
  ∃ methods rest, SOCKS5_METHOD_USERNAME_PASSWORD ∈ methods ∧
    [5; 1; 2; 1; 1; 117; 1; 112; 5; 1; 0; 1; 1; 2; 3; 4; 0; 80] = [SOCKS5_VERSION; len methods] ++ methods
      ++ [USERPASS_VERSION; len [117]] ++ [117] ++ [len [112]] ++ [112] ++ rest.
Proof.
  apply (socks5_auth_gate (fun a => Ret a) (Err []) [117] [112] false
    (mkConn (Reader [5; 1; 2; 1; 1; 117; 1; 112; 5; 1; 0; 1; 1; 2; 3; 4; 0; 80] (IoOther [])) (Writer [] None))
    (mkConn (Reader [] (IoOther [])) (Writer [5; 2; 1; 0; 5; 0; 0; 1; 0; 0; 0; 0; 0; 0] None))
    (SocksRelay (str "1.2.3.4:80"))).
  - by_decide.
  - discriminate.
  - discriminate.
  - vm_compute. reflexivity.
Defined.

(** A SOCKS5 CONNECT. For a client that follows the protocol without
    authentication and names a domain of up to 255 bytes and a port, the proxy
    opens exactly that host and port, and answers the method selection and then
    success, leaving the client's payload unread; if the tunnel refuses, the
    reply says host unreachable and the error is reported. *)
Theorem socks5_connect {R} (tcp : bytes → outcome bytes R) udp_relay methods host p disable_udp payload e :
  is_u16 p → len host ≤ u8_max → utf8_valid host = true → len methods ≤ u8_max → SOCKS5_METHOD_NONE ∈ methods →
  let input := [SOCKS5_VERSION; len methods] ++ methods
    ++ [SOCKS5_VERSION; SOCKS5_CMD_CONNECT; 0; SOCKS5_ATYP_DOMAIN; len host] ++ host ++ be_bytes 2 p ++ payload in
  let result := handle_client tcp udp_relay None disable_udp (mkConn (Reader input e) (Writer [] None)) in
  let replied := fun rep => Writer ([SOCKS5_VERSION; SOCKS5_METHOD_NONE] ++ [SOCKS5_VERSION; rep; 0; 1; 0; 0; 0; 0; 0; 0]) None in
  match tcp (host ++ COLON :: to_string p) with
  | Ret remote => result = (mkConn (Reader payload e) (replied SOCKS5_REP_SUCCESS), Ret (SocksRelay remote))
  | Err err => result = (mkConn (Reader payload e) (replied SOCKS5_REP_HOST_UNREACHABLE), Err err)
  | Panic => True
  end.
Proof.
  intros Hp Hl Hu Hm Hnone input result replied.
  assert (result = handle_connect tcp (host ++ COLON :: to_string p)
            (mkConn (Reader payload e) (Writer [SOCKS5_VERSION; SOCKS5_METHOD_NONE] None))) as ->.
  - unfold result, input, handle_client, negotiate, mbind, handler_bind. rewrite recv_exact_app by done.
    unfold lift at 1. rewrite index_head. cbn iota. rewrite decide_False by tauto. unfold lift at 1.
    change (index (E:=bytes) [SOCKS5_VERSION; len methods] 1) with (Ret (E:=bytes) (len methods)).
    cbn iota. rewrite recv_exact_app by done. cbv zeta. rewrite decide_False by tauto. rewrite send_all_ok.
    unfold mret, handler_ret. rewrite read_request_domain by done. cbn [command address].
    by rewrite decide_True by done.
  - unfold handle_connect. by destruct (tcp _).
Qed.

Lemma socks5_connect_witness :
  handle_client (fun a => Ret a) (Err []) None false
    (mkConn (Reader ([5; 1] ++ [0] ++ [5; 1; 0; 3; 3] ++ [97; 46; 98] ++ be_bytes 2 443 ++ [22; 3]) (IoOther [])) (Writer [] None))
  = (mkConn (Reader [22; 3] (IoOther [])) (Writer ([5; 0] ++ [5; 0; 0; 1; 0; 0; 0; 0; 0; 0]) None),
     Ret (SocksRelay (str "a.b:443"))).
Proof.
  refine (socks5_connect (fun a => Ret a) (Err []) [0] (str "a.b") 443 false [22; 3] (IoOther []) _ _ _ _ _).
  - by_decide.
  - by_decide.
  - reflexivity.
  - by_decide.
  - by_decide.
Defined.

(** SOCKS5 UDP datagrams round trip. For a target given as an IPv4 address
    or as a domain of at most 255 bytes (one that is not itself an address
    text), building the datagram for it and parsing it gives the same target
    and the payload. *)
Theorem socks5_udp_roundtrip o host p payload :
  length o = 4%nat → bytes_ok o → is_u16 p →
  len host ≤ u8_max → utf8_valid host = true → head host ≠ Some 91 → last host ≠ Some 93 →
  parse_socket_addr (host ++ COLON :: to_string p) = None → parse_ipv4 host = None → parse_ipv6 host = None →
  (∃ d, build_udp_datagram (ipv4_text o ++ COLON :: to_string p) payload = Ret d ∧
     parse_udp_datagram d = Ret (Some (ipv4_text o ++ COLON :: to_string p, payload))) ∧
  (∃ d, build_udp_datagram (host ++ COLON :: to_string p) payload = Ret d ∧
     parse_udp_datagram d = Ret (Some (host ++ COLON :: to_string p, payload))).
Proof.
  intros Ho Hok Hp Hl Hu Hh Hlast Hs H4 H6. unfold build_udp_datagram, encode_address. split.
  - rewrite split_host_port_v4 by done. cbn [mbind outcome_bind]. rewrite parse_ipv4_text by done. cbn [mbind outcome_bind].
    eexists. split; [done|]. eapply parse_udp_built; [by apply parse_address_v4|].
    rewrite len_app, len_be_bytes. unfold len. lia.
  - rewrite split_host_port_domain by done. cbn [mbind outcome_bind]. rewrite H4, H6.
    rewrite decide_False by lia. cbn [mbind outcome_bind]. eexists. split; [done|].
    assert (as_u8 (len host) = len host) as ->.
    { pose proof (len_nonneg host). apply Z.mod_small. unfold u8_max in *. lia. }
    eapply parse_udp_built; [by apply parse_address_domain|]. rewrite len_cons, len_app, len_be_bytes. lia.
Qed.

Lemma socks5_udp_roundtrip_witness :
  (∃ d, build_udp_datagram (ipv4_text [8; 8; 8; 8] ++ COLON :: to_string 53) [1; 2] = Ret d ∧
     parse_udp_datagram d = Ret (Some (ipv4_text [8; 8; 8; 8] ++ COLON :: to_string 53, [1; 2]))) ∧
  (∃ d, build_udp_datagram (str "dns.example" ++ COLON :: to_string 53) [1; 2] = Ret d ∧
     parse_udp_datagram d = Ret (Some (str "dns.example" ++ COLON :: to_string 53, [1; 2]))).
Proof.
  apply (socks5_udp_roundtrip [8; 8; 8; 8] (str "dns.example") 53 [1; 2]).
  - reflexivity.
  - by_decide.
  - by_decide.
  - by_decide.
  - reflexivity.
  - discriminate.
  - vm_compute. discriminate.
  - vm_compute. reflexivity.
  - vm_compute. reflexivity.
  - vm_compute. reflexivity.
Defined.

(** A UDP association and its client. A datagram is forwarded only if it
    came from the peer the association is bound to, which the first well-formed
    datagram binds; but a datagram whose address does not parse ends the
    association with an error, whoever sent it: the sender is compared only
    after parsing. *)
Theorem socks5_association_peer client peer datagram :
  (∀ client' payload dest, local_to_remote_turn client peer datagram = Ret (client', Some (payload, dest)) →
     client' = Some peer ∧ (client = None ∨ client = Some peer)) ∧
  (∀ client', local_to_remote_turn client peer datagram = Ret (client', None) → client' = client) ∧
  (∀ msg, parse_udp_datagram (take 4096 datagram) = Err msg →
     local_to_remote_turn client peer datagram = Err msg) ∧
  local_to_remote_turn client peer [0; 0; 0; 9] = Err (str "unsupported SOCKS5 address type 9").
Proof.
  unfold local_to_remote_turn. split_and!.
  - intros client' payload dest. destruct (parse_udp_datagram _) as [[[d pl]|]| |]; cbn; try done.
    destruct client as [ex|]; [|intros [= <- _ _]; auto]. case_decide; [done|]. intros [= <- _ _]. subst. auto.
  - intros client'. destruct (parse_udp_datagram _) as [[[d pl]|]| |]; cbn; try done; [|by intros [= <-]].
    destruct client as [ex|]; [|done]. case_decide; [by intros [= <-]|done].
  - by intros msg ->.
  - reflexivity.
Qed.
