(* ===== verification/Io.v ===== *)
(** * Connections as segments and sinks

    The connection model the front ends share. A half that is read is a
    sequence of segments, as they arrive, and what follows them: the end of the
    stream, an error, or nothing yet, in which case a read waits and the run is
    suspended ([None]). A half that is written takes what is written to it
    until it fails; a single write may be cut short, where a schedule says. *)
From S2P Require Import Prelude.
Local Open Scope Z_scope.

(** The kinds of [io::Error] the module distinguishes or makes. *)
Inductive io_kind :=
| KUnexpectedEof | KBrokenPipe | KConnectionReset | KConnectionAborted
| KWriteZero | KInvalidData | KInvalidInput | KOther.
#[global] Instance io_kind_eq_dec : EqDecision io_kind.
Proof. solve_decision. Defined.
Record st_error := mkError { er_kind : io_kind; er_text : bytes }.

(** ** The two halves of a connection *)

Inductive ending := Blocked | AtEof | AtError (e : st_error).
Record source := mkSource { so_segs : list bytes; so_end : ending }.

(** Segments hold at least a byte. *)
Definition source_ok (s : source) : Prop := Forall (fun seg => seg ≠ []) (so_segs s).
Definition so_data (s : source) : bytes := concat (so_segs s).

(** A run that waits for input that has not arrived is [None]. *)
Definition io (A : Type) : Type := option (outcome st_error A).
#[global] Instance io_ret : MRet io := fun A a => Some (Ret a).
#[global] Instance io_bind : MBind io := fun A B f m =>
  match m with
  | None => None
  | Some (Ret a) => f a
  | Some (Err e) => Some (Err e)
  | Some Panic => Some Panic
  end.
Definition fail {A} (kind : io_kind) (text : bytes) : io A := Some (Err (mkError kind text)).

(** [conn.read(&mut buf[..cap])]: up to [cap] bytes of what has arrived. *)
Definition src_read (s : source) (cap : Z) : io (bytes * source) :=
  match so_segs s with
  | [] =>
      match so_end s with
      | Blocked => None
      | AtEof => mret ([], s)
      | AtError e => Some (Err e)
      end
  | seg :: rest =>
      let k := Z.to_nat cap in
      mret (take k seg, mkSource (if decide (drop k seg = []) then rest else drop k seg :: rest) (so_end s))
  end.

(** [drop] over segments. *)
Fixpoint drop_segs (n : nat) (l : list bytes) : list bytes :=
  match l with
  | [] => []
  | seg :: rest =>
      if decide (length seg ≤ n)%nat then drop_segs (n - length seg) rest
      else drop n seg :: rest
  end.

(** [read_exact], [read_u8], [read_u16] and [read_u32]. *)
Definition src_read_exact (s : source) (n : Z) : io (bytes * source) :=
  if decide (n ≤ len (so_data s)) then
    mret (take (Z.to_nat n) (so_data s), mkSource (drop_segs (Z.to_nat n) (so_segs s)) (so_end s))
  else
    match so_end s with
    | Blocked => None
    | AtEof => fail KUnexpectedEof (str "early eof")
    | AtError e => Some (Err e)
    end.
Definition src_read_uint (s : source) (n : Z) : io (Z * source) :=
  '(b, s) ← src_read_exact s n; mret (of_be b, s).

(** What was written, how much more is taken before an error, the sizes the
    next single writes are cut to, and whether it was shut down. *)
Record wsink := mkWsink {
  ws_out : bytes;
  ws_room : option (Z * st_error);
  ws_cuts : list Z;
  ws_shut : bool
}.

Definition ws_write_all (w : wsink) (b : bytes) : wsink * option st_error :=
  match ws_room w with
  | None => (mkWsink (ws_out w ++ b) None (ws_cuts w) (ws_shut w), None)
  | Some (k, e) =>
      if decide (len b ≤ k) then (mkWsink (ws_out w ++ b) (Some (k - len b, e)) (ws_cuts w) (ws_shut w), None)
      else (mkWsink (ws_out w ++ take (Z.to_nat k) b) (Some (0, e)) (ws_cuts w) (ws_shut w), Some e)
  end.

(** A single [write]: the number of bytes taken. *)
Definition ws_write (w : wsink) (b : bytes) : wsink * outcome st_error Z :=
  let want := match ws_cuts w with [] => len b | c :: _ => Z.min c (len b) end in
  let cuts := tail (ws_cuts w) in
  match ws_room w with
  | None => (mkWsink (ws_out w ++ take (Z.to_nat want) b) None cuts (ws_shut w), Ret want)
  | Some (k, e) =>
      if decide (k = 0) then (w, Err e)
      else
        let n := Z.min want k in
        (mkWsink (ws_out w ++ take (Z.to_nat n) b) (Some (k - n, e)) cuts (ws_shut w), Ret n)
  end.
Definition ws_shutdown (w : wsink) : wsink := mkWsink (ws_out w) (ws_room w) (ws_cuts w) true.

(** A task on a state: the state after it, and its result. *)
Definition task (S A : Type) : Type := S → S * io A.
#[global] Instance task_ret {S} : MRet (task S) := fun A a c => (c, mret a).
#[global] Instance task_bind {S} : MBind (task S) := fun A B f m c =>
  match m c with
  | (c, Some (Ret a)) => f a c
  | (c, Some (Err e)) => (c, Some (Err e))
  | (c, Some Panic) => (c, Some Panic)
  | (c, None) => (c, None)
  end.
Definition t_fail {S A} (kind : io_kind) (text : bytes) : task S A := fun c => (c, fail kind text).

Lemma task_bind_Ret {S A B} (m : task S A) (f : A → task S B) c c' a :
  m c = (c', mret a) → (m ≫= f) c = f a c'.
Proof. unfold mbind, task_bind. by intros ->. Qed.
Lemma task_bind_None {S A B} (m : task S A) (f : A → task S B) c c' :
  m c = (c', None) → (m ≫= f) c = (c', None).
Proof. unfold mbind, task_bind. by intros ->. Qed.

(** ** Reading *)

(** A source that holds [d] and then [e], in whatever segments. *)
Definition holds (s : source) (d : bytes) (e : ending) : Prop :=
  source_ok s ∧ so_data s = d ∧ so_end s = e.

Lemma drop_segs_concat n l : concat (drop_segs n l) = drop n (concat l).
Proof.
  revert n. induction l as [|seg l IH]; intros n; cbn; [by rewrite drop_nil|].
  case_decide as Hd.
  - rewrite IH, drop_app. by rewrite (drop_ge seg) by lia.
  - rewrite concat_cons, drop_app. by replace (n - length seg)%nat with O by lia.
Qed.

Lemma drop_segs_ok n l : Forall (fun seg => seg ≠ []) l → Forall (fun seg => seg ≠ []) (drop_segs n l).
Proof.
  intros H. revert n. induction H as [|seg l Hs Hl IH]; intros n; cbn; [done|].
  case_decide as Hd; [by apply IH|]. constructor; [|done].
  intros He. apply (f_equal length) in He. rewrite length_drop in He. cbn in He. lia.
Qed.

Lemma src_read_exact_holds s p q e n :
  holds s (p ++ q) e → n = len p → ∃ s', src_read_exact s n = mret (p, s') ∧ holds s' q e.
Proof.
  intros (Hok & Hd & He) ->. unfold src_read_exact. rewrite Hd.
  rewrite decide_True by (rewrite len_app; pose proof (len_nonneg q); lia).
  unfold len. rewrite Nat2Z.id, take_app_length. eexists. split; [done|].
  split_and!; [by apply drop_segs_ok| |done].
  unfold so_data in *. cbn. by rewrite drop_segs_concat, Hd, drop_app_length.
Qed.

Lemma src_read_holds s d e cap :
  holds s d e → d ≠ [] → 0 < cap →
  ∃ b d' s', src_read s cap = mret (b, s') ∧ d = b ++ d' ∧ b ≠ [] ∧ len b ≤ cap ∧ holds s' d' e.
Proof.
  intros (Hok & Hd & He) Hne Hcap. unfold src_read. destruct s as [segs en]; unfold source_ok, so_data in *; cbn in *.
  destruct segs as [|seg rest]; [by subst|]. apply Forall_cons in Hok as [Hs Hr]. cbn in Hd.
  exists (take (Z.to_nat cap) seg), (drop (Z.to_nat cap) seg ++ concat rest). eexists. split; [done|].
  split_and!.
  - by rewrite app_assoc, take_drop.
  - destruct seg; [done|]. destruct (Z.to_nat cap) eqn:E; [lia|done].
  - rewrite len_take. lia.
  - unfold holds, source_ok, so_data. cbn. case_decide as Hdr; split_and!; try done.
    + by rewrite Hdr.
    + by constructor.
Qed.

(** A sink that takes everything. *)
Definition push (w : wsink) (b : bytes) : wsink := mkWsink (ws_out w ++ b) (ws_room w) (ws_cuts w) (ws_shut w).

Lemma push_push w a b : push (push w a) b = push w (a ++ b).
Proof. unfold push. cbn. by rewrite app_assoc. Qed.

Lemma ws_write_all_open w b : ws_room w = None → ws_write_all w b = (push w b, None).
Proof. intros Hr. unfold ws_write_all, push. by rewrite Hr. Qed.

Lemma len_pos_nonempty {A} (l : list A) : 0 < len l → l ≠ [].
Proof. intros H ->. done. Qed.
Lemma nonempty_len_pos {A} (l : list A) : l ≠ [] → 0 < len l.
Proof. destruct l; [done|]. rewrite len_cons. pose proof (len_nonneg l). lia. Qed.
