(* ===== verification/SpeedTest.v ===== *)
(** * The speed test ([extras/src/speedtest.rs])

    The messages of the protocol, the server that answers one test and the
    client that runs one, as tasks on the two halves of a connection. *)
From S2P Require Import Prelude RustStr Io.
Local Open Scope Z_scope.

Definition SPEEDTEST_ADDR : bytes := str "@SpeedTest:0".
Definition CHUNK_SIZE : Z := 64 * 1024.
Definition TYPE_DOWNLOAD : Z := 1.
Definition TYPE_UPLOAD : Z := 2.

Definition is_peer_closed (err : st_error) : bool :=
  match er_kind err with
  | KBrokenPipe | KConnectionReset | KConnectionAborted | KUnexpectedEof => true
  | _ => false
  end.

(** A connection: its two halves. *)
Record st_conn := mkStConn { sc_in : source; sc_out : wsink }.
Definition on_source {A} (f : source → io (A * source)) : task st_conn A := fun c =>
  match f (sc_in c) with
  | Some (Ret (a, s)) => (mkStConn s (sc_out c), mret a)
  | Some (Err e) => (c, Some (Err e))
  | Some Panic => (c, Some Panic)
  | None => (c, None)
  end.
Definition t_write_all (b : bytes) : task st_conn unit := fun c =>
  match ws_write_all (sc_out c) b with
  | (w, None) => (mkStConn (sc_in c) w, mret ())
  | (w, Some e) => (mkStConn (sc_in c) w, Some (Err e))
  end.
Definition t_write (b : bytes) : task st_conn Z := fun c =>
  match ws_write (sc_out c) b with (w, r) => (mkStConn (sc_in c) w, Some r) end.
Definition t_shutdown : task st_conn unit := fun c => (mkStConn (sc_in c) (ws_shutdown (sc_out c)), mret ()).
Definition t_read (cap : Z) : task st_conn bytes := on_source (fun s => src_read s cap).
Definition t_read_exact (n : Z) : task st_conn bytes := on_source (fun s => src_read_exact s n).
Definition t_read_uint (n : Z) : task st_conn Z := on_source (fun s => src_read_uint s n).

(** ** Messages *)

Definition read_download_request : task st_conn Z := t_read_uint 4.
Definition write_download_request (length : Z) : task st_conn unit :=
  t_write_all (TYPE_DOWNLOAD :: be_bytes 4 length).
Definition write_status_message (ok : bool) (message : bytes) : task st_conn unit :=
  if decide (u16_max < len message) then t_fail KInvalidInput (str "speedtest message too long")
  else t_write_all ((if ok then 0 else 1) :: be_bytes 2 (as_u16 (len message)) ++ message).
Definition read_download_response : task st_conn (bool * bytes) :=
  status ← t_read_uint 1;
  msg_len ← t_read_uint 2;
  msg ← t_read_exact msg_len;
  mret (bool_decide (status = 0), from_utf8_lossy msg).
Definition write_download_response : bool → bytes → task st_conn unit := write_status_message.
Definition read_upload_request : task st_conn Z := t_read_uint 4.
Definition write_upload_request (length : Z) : task st_conn unit :=
  t_write_all (TYPE_UPLOAD :: be_bytes 4 length).
Definition read_upload_response : task st_conn (bool * bytes) :=
  status ← t_read_uint 1;
  msg_len ← t_read_uint 2;
  msg ← t_read_exact msg_len;
  mret (bool_decide (status = 0), from_utf8_lossy msg).
Definition write_upload_response : bool → bytes → task st_conn unit := write_status_message.

Definition NANOS_PER_MILLI : Z := 1000000.
(** Durations are in nanoseconds. *)
Definition read_upload_summary : task st_conn (Z * Z) :=
  millis ← t_read_uint 4;
  bytes ← t_read_uint 4;
  mret (millis * NANOS_PER_MILLI, bytes).
Definition write_upload_summary (duration bytes : Z) : task st_conn unit :=
  let millis := Z.min (duration / NANOS_PER_MILLI) u32_max in
  t_write_all (be_bytes 4 millis ++ be_bytes 4 bytes).

(** ** The server *)

(** [chunk] is the random buffer of [CHUNK_SIZE] bytes. The unbounded loop
    runs until a write fails; its turns are counted down by [fuel]. *)
Fixpoint download_forever (fuel : nat) (chunk : bytes) : task st_conn unit :=
  match fuel with
  | O => fun c => (c, None)
  | S fuel => fun c =>
      match t_write_all chunk c with
      | (c, Some (Err err)) => (c, if is_peer_closed err then mret () else Some (Err err))
      | (c, _) => download_forever fuel chunk c
      end
  end.

(** A turn writes at least one byte of [remaining]. *)
Fixpoint download_sized (fuel : nat) (chunk : bytes) (remaining : Z) : task st_conn unit :=
  if decide (0 < remaining) then
    match fuel with
    | O => fun c => (c, None)
    | S fuel =>
        let size := Z.min remaining CHUNK_SIZE in
        _ ← (fun c => match slice (E:=st_error) chunk 0 size with
                      | Ret piece => t_write_all piece c
                      | _ => (c, Some Panic)
                      end);
        download_sized fuel chunk (remaining - size)
    end
  else mret ().

Definition handle_download (fuel : nat) (chunk : bytes) : task st_conn unit :=
  requested ← read_download_request;
  _ ← write_download_response true (str "OK");
  if decide (requested = u32_max) then download_forever fuel chunk
  else download_sized fuel chunk requested.

Definition turns {A} (f : nat → task st_conn A) : task st_conn A := fun c => f (S (length (so_data (sc_in c)))) c.

(** Reading to the end: every turn takes a byte that has arrived, or is the
    last. *)
Fixpoint upload_forever (fuel : nat) (elapsed total_bytes : Z) : task st_conn unit :=
  match fuel with
  | O => fun c => (c, None)
  | S fuel => fun c =>
      match t_read CHUNK_SIZE c with
      | (c, Some (Ret b)) =>
          if decide (len b = 0) then write_upload_summary elapsed (Z.min total_bytes u32_max) c
          else upload_forever fuel elapsed (sat_add total_bytes (len b)) c
      | (c, Some (Err err)) => (c, if is_peer_closed err then mret () else Some (Err err))
      | (c, Some Panic) => (c, Some Panic)
      | (c, None) => (c, None)
      end
  end.

Fixpoint upload_sized (fuel : nat) (remaining : Z) : task st_conn unit :=
  if decide (0 < remaining) then
    match fuel with
    | O => fun c => (c, None)
    | S fuel =>
        b ← t_read (Z.min remaining CHUNK_SIZE);
        if decide (len b = 0) then t_fail KUnexpectedEof (str "upload stream closed early")
        else upload_sized fuel (remaining - len b)
    end
  else mret ().

Definition handle_upload (elapsed : Z) : task st_conn unit :=
  requested ← read_upload_request;
  _ ← write_upload_response true (str "OK");
  if decide (requested = u32_max) then turns (fun fuel => upload_forever fuel elapsed 0)
  else
    _ ← turns (fun fuel => upload_sized fuel requested);
    write_upload_summary elapsed requested.

Definition serve_conn (fuel : nat) (chunk : bytes) (elapsed : Z) : task st_conn unit :=
  typ ← t_read_uint 1;
  if decide (typ = TYPE_DOWNLOAD) then handle_download fuel chunk
  else if decide (typ = TYPE_UPLOAD) then handle_upload elapsed
  else t_fail KInvalidData (str "unknown speedtest request type " ++ to_string typ).

(** ** The client *)

Record TransferSummary := mkSummary { ts_elapsed : Z; ts_bytes : Z }.

(** How long a test runs: for a size, or for a time after which [n] more reads
    or writes have completed. *)
Inductive mode := BySize | ByTime (n : nat).
Definition is_timed (md : mode) : bool := match md with BySize => false | ByTime _ => true end.

(** [timeout_at] around a read: one that still waits is cut off at the
    deadline, which ends the loop as the end of the stream does. *)
Definition before_deadline (m : task st_conn bytes) : task st_conn bytes := fun c =>
  match m c with
  | (c, None) => (c, mret [])
  | r => r
  end.

Fixpoint download_loop (fuel : nat) (md : mode) (remaining total_bytes : Z) : task st_conn Z :=
  match fuel with
  | O => fun c => (c, None)
  | S fuel =>
      match md with
      | BySize =>
          if decide (remaining = 0) then mret total_bytes
          else
            b ← t_read (Z.min remaining CHUNK_SIZE);
            if decide (len b = 0) then t_fail KUnexpectedEof (str "download stream closed early")
            else download_loop fuel BySize (remaining - len b) (total_bytes + len b)
      | ByTime O => mret total_bytes
      | ByTime (S n) =>
          b ← before_deadline (t_read CHUNK_SIZE);
          if decide (len b = 0) then mret total_bytes
          else download_loop fuel (ByTime n) remaining (total_bytes + len b)
      end
  end.

Definition download (data_size elapsed : Z) (md : mode) : task st_conn TransferSummary :=
  let req_size := if is_timed md then u32_max else data_size in
  _ ← write_download_request req_size;
  '(ok, message) ← read_download_response;
  if negb ok then t_fail KOther (str "server rejected download request: " ++ message)
  else
    total_bytes ← turns (fun fuel => download_loop fuel md data_size 0);
    mret (mkSummary elapsed total_bytes).

(** The upload loop: at most [fuel] turns, a byte of [remaining] each. *)
Fixpoint upload_loop (fuel : nat) (buffer : bytes) (md : mode) (remaining : Z) : task st_conn unit :=
  match fuel with
  | O => fun c => (c, None)
  | S fuel =>
      match md with
      | BySize =>
          if decide (remaining = 0) then mret ()
          else
            size ← t_write (take (Z.to_nat (Z.min remaining CHUNK_SIZE)) buffer);
            if decide (size = 0) then t_fail KWriteZero (str "upload stream wrote zero bytes")
            else upload_loop fuel buffer BySize (remaining - size)
      | ByTime O => mret ()
      | ByTime (S n) =>
          size ← t_write buffer;
          if decide (size = 0) then t_fail KWriteZero (str "upload stream wrote zero bytes")
          else upload_loop fuel buffer (ByTime n) remaining
      end
  end.
Definition upload_turns (md : mode) (data_size : Z) : nat :=
  match md with BySize => S (Z.to_nat data_size) | ByTime n => S n end.

Definition upload (data_size : Z) (md : mode) : task st_conn TransferSummary :=
  let req_size := if is_timed md then u32_max else data_size in
  _ ← write_upload_request req_size;
  '(ok, message) ← read_upload_response;
  if negb ok then t_fail KOther (str "server rejected upload request: " ++ message)
  else
    _ ← upload_loop (upload_turns md data_size) (replicate (Z.to_nat CHUNK_SIZE) 0) md data_size;
    _ ← (if is_timed md then t_shutdown else mret ());
    '(elapsed, bytes) ← read_upload_summary;
    mret (mkSummary elapsed bytes).

(** ** Reading *)

Lemma t_read_exact_holds s w p q e n :
  holds s (p ++ q) e → n = len p →
  ∃ s', t_read_exact n (mkStConn s w) = (mkStConn s' w, mret p) ∧ holds s' q e.
Proof.
  intros H Hn. destruct (src_read_exact_holds s p q e n H Hn) as (s' & E & H').
  exists s'. split; [|done]. unfold t_read_exact, on_source. cbn. by rewrite E.
Qed.

Lemma t_read_uint_holds s w (k : nat) v q e :
  holds s (be_bytes k v ++ q) e → 0 ≤ v < 256 ^ Z.of_nat k →
  ∃ s', t_read_uint (Z.of_nat k) (mkStConn s w) = (mkStConn s' w, mret v) ∧ holds s' q e.
Proof.
  intros H Hv. destruct (src_read_exact_holds s _ q e (Z.of_nat k) H) as (s' & E & H'); [by rewrite len_be_bytes|].
  exists s'. split; [|done]. unfold t_read_uint, on_source, src_read_uint. cbn. rewrite E. cbn.
  by rewrite of_be_be_bytes_id.
Qed.

Lemma t_read_holds s w d e cap :
  holds s d e → d ≠ [] → 0 < cap →
  ∃ b d' s', t_read cap (mkStConn s w) = (mkStConn s' w, mret b) ∧ d = b ++ d' ∧ b ≠ [] ∧ len b ≤ cap ∧ holds s' d' e.
Proof.
  intros H Hd Hc. destruct (src_read_holds s d e cap H Hd Hc) as (b & d' & s' & E & Hs).
  exists b, d', s'. split; [|done]. unfold t_read, on_source. cbn. by rewrite E.
Qed.

(** ** The loops *)

Lemma t_write_all_open s w b :
  ws_room w = None → t_write_all b (mkStConn s w) = (mkStConn s (push w b), mret ()).
Proof. intros Hr. unfold t_write_all, ws_write_all, push. cbn. by rewrite Hr. Qed.

Definition OK_RESPONSE : bytes := 0 :: be_bytes 2 2 ++ str "OK".

Lemma write_ok_response s w :
  ws_room w = None → write_status_message true (str "OK") (mkStConn s w) = (mkStConn s (push w OK_RESPONSE), mret ()).
Proof. intros Hr. unfold write_status_message. rewrite decide_False by by_decide. by apply t_write_all_open. Qed.

Lemma read_ok_response s w q e :
  holds s (OK_RESPONSE ++ q) e →
  ∃ s', read_download_response (mkStConn s w) = (mkStConn s' w, mret (true, str "OK")) ∧ holds s' q e.
Proof.
  intros H. unfold read_download_response.
  destruct (t_read_uint_holds s w 1 0 (be_bytes 2 2 ++ str "OK" ++ q) e) as (s1 & E1 & H1); [done|done|].
  destruct (t_read_uint_holds s1 w 2 2 (str "OK" ++ q) e) as (s2 & E2 & H2); [done|done|].
  destruct (t_read_exact_holds s2 w (str "OK") q e 2) as (s3 & E3 & H3); [done|done|].
  exists s3. split; [|done]. erewrite task_bind_Ret by exact E1. erewrite task_bind_Ret by exact E2.
  by erewrite task_bind_Ret by exact E3.
Qed.

Lemma download_sized_spec fuel chunk remaining s w :
  len chunk = CHUNK_SIZE → 0 ≤ remaining → (Z.to_nat remaining ≤ fuel)%nat → ws_room w = None →
  ∃ sent, download_sized fuel chunk remaining (mkStConn s w) = (mkStConn s (push w sent), mret ()) ∧ len sent = remaining.
Proof.
  intros Hc. revert remaining w. induction fuel as [|fuel IH]; intros remaining w Hr Hf Hw; cbn.
  - rewrite decide_False by lia. exists []. split; [|rewrite len_nil; lia]. unfold push. rewrite app_nil_r. by destruct w.
  - case_decide as Hd; last first.
    { exists []. split; [|rewrite len_nil; lia]. unfold push. rewrite app_nil_r. by destruct w. }
    set (size := Z.min remaining CHUNK_SIZE). assert (0 < size ≤ CHUNK_SIZE ∧ size ≤ remaining) as Hs by (unfold CHUNK_SIZE in *; lia).
    destruct (IH (remaining - size) (push w (take (Z.to_nat size) chunk))) as (sent & E & Hl); [lia|lia|done|].
    exists (take (Z.to_nat size) chunk ++ sent). split; last first.
    { rewrite len_app, len_take, Hl. lia. }
    erewrite task_bind_Ret; last first.
    { rewrite slice_ok by lia. rewrite Z.sub_0_r, drop_0. by apply t_write_all_open. }
    by rewrite E, push_push.
Qed.

Lemma t_read_within s w d q e cap :
  holds s (d ++ q) e → 0 < cap ≤ len d →
  ∃ b d' s', t_read cap (mkStConn s w) = (mkStConn s' w, mret b) ∧ d = b ++ d' ∧ 0 < len b ≤ cap ∧ holds s' (d' ++ q) e.
Proof.
  intros H Hc. destruct (t_read_holds s w (d ++ q) e cap H) as (b & r & s' & E & Hd & Hb & Hl & H'); [|lia|].
  { intros Hn. apply app_eq_nil in Hn as [-> _]. unfold len in Hc. cbn in Hc. lia. }
  exists b, (drop (length b) d), s'. apply nonempty_len_pos in Hb. unfold len in *.
  assert (b = take (length b) d) as Hbd.
  { rewrite <- (take_app_le d q) by lia. by rewrite Hd, take_app_length. }
  split_and!; try done; try lia.
  - rewrite Hbd at 1. by rewrite take_drop.
  - rewrite <- drop_app_le by lia. by rewrite Hd, drop_app_length.
Qed.

Lemma download_loop_spec fuel remaining total s w d q e :
  holds s (d ++ q) e → len d = remaining → (length d < fuel)%nat →
  ∃ s', download_loop fuel BySize remaining total (mkStConn s w) = (mkStConn s' w, mret (total + remaining)) ∧ holds s' q e.
Proof.
  revert remaining total s d. induction fuel as [|fuel IH]; intros remaining total s d Hh Hl Hf; [lia|]. cbn.
  case_decide as Hz.
  { subst remaining. apply len_0_nil in Hz as ->. exists s. rewrite Z.add_0_r. done. }
  assert (0 < remaining) as Hpos by (pose proof (len_nonneg d); lia).
  destruct (t_read_within s w d q e (Z.min remaining CHUNK_SIZE)) as (b & d' & s1 & E1 & -> & Hb & H1);
    [done|unfold CHUNK_SIZE; lia|].
  rewrite len_app in Hl. rewrite length_app in Hf. unfold len in *.
  destruct (IH (remaining - Z.of_nat (length b)) (total + Z.of_nat (length b)) s1 d' H1) as (s2 & E2 & H2); [lia|lia|].
  exists s2. split; [|done]. erewrite task_bind_Ret by exact E1. unfold len. rewrite decide_False by lia.
  rewrite E2. do 2 f_equal. lia.
Qed.

Lemma upload_sized_spec fuel remaining s w d q e :
  holds s (d ++ q) e → len d = remaining → (length d ≤ fuel)%nat →
  ∃ s', upload_sized fuel remaining (mkStConn s w) = (mkStConn s' w, mret ()) ∧ holds s' q e.
Proof.
  revert remaining s d. induction fuel as [|fuel IH]; intros remaining s d Hh Hl Hf; cbn.
  { unfold len in Hl. rewrite decide_False by lia. destruct d; [|cbn in Hf; lia]. by exists s. }
  case_decide as Hz; last first.
  { pose proof (len_nonneg d). assert (len d = 0) as H0 by lia. apply len_0_nil in H0 as ->. by exists s. }
  destruct (t_read_within s w d q e (Z.min remaining CHUNK_SIZE)) as (b & d' & s1 & E1 & -> & Hb & H1);
    [done|unfold CHUNK_SIZE; lia|].
  rewrite len_app in Hl. rewrite length_app in Hf. unfold len in *.
  destruct (IH (remaining - Z.of_nat (length b)) s1 d' H1) as (s2 & E2 & H2); [lia|lia|].
  exists s2. split; [|done]. erewrite task_bind_Ret by exact E1. unfold len. by rewrite decide_False by lia.
Qed.

(** The client's writes, cut anywhere: all zeros arrive. *)
Lemma upload_loop_spec fuel remaining s w :
  ws_room w = None → Forall (fun c => 0 < c) (ws_cuts w) → 0 ≤ remaining → (Z.to_nat remaining < fuel)%nat →
  ∃ cuts, upload_loop fuel (replicate (Z.to_nat CHUNK_SIZE) 0) BySize remaining (mkStConn s w)
    = (mkStConn s (mkWsink (ws_out w ++ replicate (Z.to_nat remaining) 0) None cuts (ws_shut w)), mret ()).
Proof.
  revert remaining w. induction fuel as [|fuel IH]; intros remaining w Hw Hc Hr Hf; [lia|]. cbn.
  case_decide as Hz.
  { subst. exists (ws_cuts w). cbn. rewrite app_nil_r. destruct w; cbn in *. by subst. }
  set (b := take _ _). assert (len b = Z.min remaining CHUNK_SIZE) as Hb.
  { unfold b. rewrite len_take, len_replicate. unfold CHUNK_SIZE. lia. }
  set (want := match ws_cuts w with [] => len b | c :: _ => Z.min c (len b) end).
  assert (0 < want ≤ len b) as Hwant.
  { unfold want, CHUNK_SIZE in *. destruct Hc; lia. }
  destruct (IH (remaining - want) (mkWsink (ws_out w ++ take (Z.to_nat want) b) None (tail (ws_cuts w)) (ws_shut w)))
    as (cuts & E); [done| |lia|lia|].
  { cbn. destruct Hc; [done|done]. }
  exists cuts. erewrite task_bind_Ret; last first.
  { unfold t_write, ws_write. cbn. rewrite Hw. done. }
  fold want. rewrite decide_False by lia. rewrite E. cbn. rewrite <- app_assoc.
  replace (take (Z.to_nat want) b) with (replicate (Z.to_nat want) 0); last first.
  { unfold b. rewrite take_take, take_replicate. f_equal. unfold CHUNK_SIZE in *. lia. }
  rewrite <- replicate_add. by replace (Z.to_nat want + Z.to_nat (remaining - want))%nat with (Z.to_nat remaining) by lia.
Qed.

(** Reading to the end of a stream that is still open waits. *)
Lemma upload_forever_blocked fuel elapsed total s w d :
  holds s d Blocked → (length d < fuel)%nat →
  ∃ c, upload_forever fuel elapsed total (mkStConn s w) = (c, None) ∧ sc_out c = w.
Proof.
  revert total s d. induction fuel as [|fuel IH]; intros total s d Hh Hf; [lia|]. cbn.
  destruct (decide (d = [])) as [->|Hd].
  - destruct Hh as (Hok & Hd & He). destruct s as [segs en]. unfold so_data, source_ok in *. cbn in *. subst.
    destruct segs as [|seg segs]; [by eexists|]. apply Forall_cons in Hok as [Hs _]. cbn in Hd.
    apply app_eq_nil in Hd as [? _]. done.
  - destruct (t_read_holds s w d Blocked CHUNK_SIZE) as (b & d' & s' & E & -> & Hb & _ & H'); [done|done|done|].
    rewrite E. cbn [mret io_ret]. apply nonempty_len_pos in Hb. rewrite decide_False by lia.
    apply (IH _ s' d'); [done|]. rewrite length_app in Hf. unfold len in Hb. lia.
Qed.

(** ** Exchanges *)

Definition fresh_out : wsink := mkWsink [] None [] false.
Definition download_request (n : Z) : bytes := TYPE_DOWNLOAD :: be_bytes 4 n.
Definition upload_request (n : Z) : bytes := TYPE_UPLOAD :: be_bytes 4 n.
Definition zeros (n : Z) : bytes := replicate (Z.to_nat n) 0.
Definition reported (elapsed : Z) : Z := Z.min (elapsed / NANOS_PER_MILLI) u32_max.

Lemma serve_download fuel chunk elapsed n s e :
  0 ≤ n < u32_max → len chunk = CHUNK_SIZE → (Z.to_nat n ≤ fuel)%nat → holds s (download_request n) e →
  ∃ s' sent, serve_conn fuel chunk elapsed (mkStConn s fresh_out)
    = (mkStConn s' (push fresh_out (OK_RESPONSE ++ sent)), mret ()) ∧ len sent = n.
Proof.
  intros Hn Hc Hf Hh. unfold serve_conn.
  destruct (t_read_uint_holds s fresh_out 1 TYPE_DOWNLOAD (be_bytes 4 n) e) as (s1 & E1 & H1); [done|done|].
  destruct (t_read_uint_holds s1 fresh_out 4 n [] e) as (s2 & E2 & H2).
  { by rewrite app_nil_r. } { unfold u32_max in *. lia. }
  destruct (download_sized_spec fuel chunk n s2 (push fresh_out OK_RESPONSE)) as (sent & E3 & Hl); [done|lia|done|done|].
  exists s2, sent. split; [|done]. erewrite task_bind_Ret by exact E1. rewrite decide_True by done.
  unfold handle_download. erewrite task_bind_Ret by exact E2.
  erewrite task_bind_Ret by (by apply write_ok_response). rewrite decide_False by lia.
  by rewrite E3, push_push.
Qed.

Lemma client_download n elapsed s e sent :
  len sent = n → holds s (OK_RESPONSE ++ sent) e →
  ∃ s', download n elapsed BySize (mkStConn s fresh_out)
    = (mkStConn s' (push fresh_out (download_request n)), mret (mkSummary elapsed n)).
Proof.
  intros Hl Hh. unfold download. cbn [is_timed].
  destruct (read_ok_response s (push fresh_out (download_request n)) sent e Hh) as (s1 & E1 & H1).
  destruct (download_loop_spec (S (length (so_data s1))) n 0 s1 (push fresh_out (download_request n)) sent [] e)
    as (s2 & E2 & H2); [by rewrite app_nil_r|done| |].
  { destruct H1 as (_ & -> & _). lia. }
  exists s2. erewrite task_bind_Ret by (by apply t_write_all_open). erewrite task_bind_Ret by exact E1.
  cbn [negb]. erewrite task_bind_Ret by exact E2. done.
Qed.

Lemma serve_upload fuel chunk elapsed n s e :
  0 ≤ n < u32_max → holds s (upload_request n ++ zeros n) e →
  ∃ s', serve_conn fuel chunk elapsed (mkStConn s fresh_out)
    = (mkStConn s' (push fresh_out (OK_RESPONSE ++ be_bytes 4 (reported elapsed) ++ be_bytes 4 n)), mret ()).
Proof.
  intros Hn Hh. unfold serve_conn.
  destruct (t_read_uint_holds s fresh_out 1 TYPE_UPLOAD (be_bytes 4 n ++ zeros n) e) as (s1 & E1 & H1); [done|done|].
  destruct (t_read_uint_holds s1 fresh_out 4 n (zeros n) e) as (s2 & E2 & H2); [done|unfold u32_max in *; lia|].
  destruct (upload_sized_spec (S (length (so_data s2))) n s2 (push fresh_out OK_RESPONSE) (zeros n) [] e)
    as (s3 & E3 & H3).
  { by rewrite app_nil_r. } { unfold zeros. rewrite len_replicate. lia. } { destruct H2 as (_ & -> & _). lia. }
  exists s3. erewrite task_bind_Ret by exact E1. rewrite decide_False by done. rewrite decide_True by done.
  unfold handle_upload. erewrite task_bind_Ret by exact E2.
  erewrite task_bind_Ret by (by apply write_ok_response). rewrite decide_False by lia.
  erewrite task_bind_Ret by exact E3. unfold write_upload_summary. rewrite t_write_all_open by done. by rewrite push_push.
Qed.

(** The client up to its summary: its request and its zeros are out. *)
Lemma client_upload_sends n s w e q :
  0 ≤ n → ws_out w = [] → ws_room w = None → Forall (fun c => 0 < c) (ws_cuts w) →
  holds s (OK_RESPONSE ++ q) e →
  ∃ s' cuts, holds s' q e ∧ upload n BySize (mkStConn s w)
    = ('(elapsed, bytes) ← read_upload_summary; mret (mkSummary elapsed bytes))
        (mkStConn s' (mkWsink (upload_request n ++ zeros n) None cuts (ws_shut w))).
Proof.
  intros Hn Ho Hr Hc Hh. unfold upload. cbn [is_timed upload_turns].
  destruct (read_ok_response s (push w (upload_request n)) q e Hh) as (s1 & E1 & H1).
  destruct (upload_loop_spec (S (Z.to_nat n)) n s1 (push w (upload_request n))) as (cuts & E2); [done|done|done|lia|].
  exists s1, cuts. split; [done|]. erewrite task_bind_Ret by (by apply t_write_all_open).
  erewrite task_bind_Ret by exact E1. cbn [negb]. erewrite task_bind_Ret by exact E2.
  erewrite task_bind_Ret by done. unfold push. cbn [ws_out ws_shut]. by rewrite Ho.
Qed.

Lemma client_upload n elapsed s w e :
  is_u32 n → 0 ≤ elapsed → ws_out w = [] → ws_room w = None → Forall (fun c => 0 < c) (ws_cuts w) →
  holds s (OK_RESPONSE ++ be_bytes 4 (reported elapsed) ++ be_bytes 4 n) e →
  ∃ c', upload n BySize (mkStConn s w) = (c', mret (mkSummary (reported elapsed * NANOS_PER_MILLI) n)) ∧
    ws_out (sc_out c') = upload_request n ++ zeros n.
Proof.
  intros Hn He Ho Hr Hc Hh. unfold is_u32 in Hn.
  destruct (client_upload_sends n s w e _ (proj1 Hn) Ho Hr Hc Hh) as (s1 & cuts & H1 & ->).
  set (w' := mkWsink _ _ _ _).
  destruct (t_read_uint_holds s1 w' 4 (reported elapsed) (be_bytes 4 n) e) as (s2 & E2 & H2); [done| |].
  { unfold reported, u32_max. assert (0 ≤ elapsed / NANOS_PER_MILLI) by (apply Z.div_pos; [done|reflexivity]). lia. }
  destruct (t_read_uint_holds s2 w' 4 n [] e) as (s3 & E3 & H3); [by rewrite app_nil_r|lia|].
  exists (mkStConn s3 w'). split; [|done]. erewrite task_bind_Ret; last first.
  { unfold read_upload_summary. erewrite task_bind_Ret by exact E2. by erewrite task_bind_Ret by exact E3. }
  done.
Qed.

(** A sized speed test. For every size below 4294967295 and however the
    bytes of the connection are cut into segments: in a download the server,
    given the client's request, answers and sends exactly that many bytes, and
    the client, given what the server sent, reports that many; in an upload
    the client sends its request and that many bytes, the server consumes
    exactly those and sends its summary, and the client reports that many bytes
    and the server's time, in whole milliseconds capped at 32 bits. *)
Theorem speedtest_exchange n fuel chunk elapsed :
  0 ≤ n < u32_max → 0 ≤ elapsed → len chunk = CHUNK_SIZE → (Z.to_nat n ≤ fuel)%nat →
  (∀ s e, holds s (download_request n) e →
     ∃ s' sent, serve_conn fuel chunk elapsed (mkStConn s fresh_out) = (mkStConn s' (push fresh_out sent), mret ()) ∧
       ∀ r e', holds r sent e' →
         ∃ r', download n elapsed BySize (mkStConn r fresh_out)
           = (mkStConn r' (push fresh_out (download_request n)), mret (mkSummary elapsed n))) ∧
  (∀ s e, holds s (upload_request n ++ zeros n) e →
     ∃ s' sent, serve_conn fuel chunk elapsed (mkStConn s fresh_out) = (mkStConn s' (push fresh_out sent), mret ()) ∧
       ∀ r w e', holds r sent e' → ws_out w = [] → ws_room w = None → Forall (fun c => 0 < c) (ws_cuts w) →
         ∃ c', upload n BySize (mkStConn r w) = (c', mret (mkSummary (reported elapsed * NANOS_PER_MILLI) n)) ∧
           ws_out (sc_out c') = upload_request n ++ zeros n).
Proof.
  intros Hn He Hc Hf. split.
  - intros s e Hh. destruct (serve_download fuel chunk elapsed n s e Hn Hc Hf Hh) as (s' & sent & E & Hl).
    exists s', (OK_RESPONSE ++ sent). split; [done|]. intros r e' Hr. by apply (client_download n elapsed r e' sent).
  - intros s e Hh. destruct (serve_upload fuel chunk elapsed n s e Hn Hh) as (s' & E). exists s', (OK_RESPONSE ++ be_bytes 4 (reported elapsed) ++ be_bytes 4 n).
    split; [done|]. intros r w e' Hr Ho Hw Hcut. apply (client_upload n elapsed r w e'); try done.
    unfold is_u32, u32_max in *. lia.
Qed.

Lemma speedtest_exchange_witness :
  ∃ r', download 2 7 BySize (mkStConn (mkSource [[0; 0]; [2; 79; 75; 0]; [0]] AtEof) fresh_out)
    = (mkStConn r' (push fresh_out [1; 0; 0; 0; 2]), mret (mkSummary 7 2)).
Proof.
  destruct (speedtest_exchange 2 2 (replicate (Z.to_nat CHUNK_SIZE) 0) 7) as [H _].
  - by_decide.
  - by_decide.
  - by_decide.
  - by_decide.
  - destruct (H (mkSource [[1; 0; 0]; [0; 2]] Blocked) Blocked) as (s' & sent & E & Hr).
    + split_and!; [|reflexivity|reflexivity]. by_decide.
    + assert (sent = [0; 0; 2; 79; 75; 0; 0]) as ->.
      { apply (f_equal (fun x => ws_out (sc_out (fst x)))) in E. vm_compute in E. destruct sent; [discriminate|]. congruence. }
      apply (Hr _ AtEof). split_and!; [|reflexivity|reflexivity]. by_decide.
Defined.

(** An upload of exactly 4294967295 bytes never finishes. The server takes
    that size for an unbounded test and reads until the stream ends; the client
    takes it for a sized test, keeps its side open and waits for the summary.
    Whatever the segments, after all of the client's bytes arrived the server
    is still reading with nothing but its first answer sent, and after that
    answer the client is still waiting for the rest. *)
Theorem speedtest_upload_max_waits fuel chunk elapsed s r w :
  holds s (upload_request u32_max ++ zeros u32_max) Blocked →
  holds r OK_RESPONSE Blocked → ws_out w = [] → ws_room w = None → Forall (fun c => 0 < c) (ws_cuts w) →
  (∃ c, serve_conn fuel chunk elapsed (mkStConn s fresh_out) = (c, None) ∧ ws_out (sc_out c) = OK_RESPONSE) ∧
  (∃ c, upload u32_max BySize (mkStConn r w) = (c, None) ∧
     ws_out (sc_out c) = upload_request u32_max ++ zeros u32_max ∧ ws_shut (sc_out c) = ws_shut w).
Proof.
  assert (∃ n, n = u32_max) as [n Hn] by eauto. rewrite <- Hn.
  intros Hs Hr Ho Hw Hc. assert (0 ≤ n < 256 ^ Z.of_nat 4) as Hrange by (subst; done). split.
  - unfold serve_conn.
    destruct (t_read_uint_holds s fresh_out 1 TYPE_UPLOAD (be_bytes 4 n ++ zeros n) Blocked) as (s1 & E1 & H1); [done|done|].
    destruct (t_read_uint_holds s1 fresh_out 4 n (zeros n) Blocked) as (s2 & E2 & H2); [done|done|].
    destruct (upload_forever_blocked (S (length (so_data s2))) elapsed 0 s2 (push fresh_out OK_RESPONSE) (zeros n) H2)
      as (c & E3 & H3); [destruct H2 as (_ & -> & _); lia|].
    exists c. split; [|by rewrite H3]. erewrite task_bind_Ret by exact E1. rewrite decide_False by done.
    rewrite decide_True by done. unfold handle_upload. erewrite task_bind_Ret by exact E2.
    erewrite task_bind_Ret by (by apply write_ok_response). rewrite decide_True by done. exact E3.
  - destruct (client_upload_sends n r w Blocked []) as (r1 & cuts & H1 & ->); try done; [lia|].
    eexists. split; [|split; cycle 1].
    + apply task_bind_None. unfold read_upload_summary. apply task_bind_None.
      unfold t_read_uint, on_source, src_read_uint, src_read_exact. destruct H1 as (_ & Hd & He).
      cbn [sc_in sc_out]. rewrite Hd. rewrite decide_False by by_decide. by rewrite He.
    + reflexivity.
    + reflexivity.
Qed.

Lemma speedtest_upload_max_waits_witness :
  ∃ c, serve_conn 0 [] 0 (mkStConn (mkSource [upload_request u32_max ++ zeros u32_max] Blocked) fresh_out) = (c, None) ∧
    ws_out (sc_out c) = OK_RESPONSE.
Proof.
  refine (proj1 (speedtest_upload_max_waits 0 [] 0 _ (mkSource [OK_RESPONSE] Blocked) fresh_out _ _ eq_refl eq_refl _)).
  - split_and!; [|exact (app_nil_r _)|exact eq_refl]. constructor; [|constructor]. discriminate.
  - split_and!; [|exact (app_nil_r _)|exact eq_refl]. constructor; [|constructor]. discriminate.
  - constructor.
Defined.
