(* ===== verification/HttpProxy.v ===== *)
(** * The HTTP front end ([app/src/http_proxy.rs])

    Request and response heads, proxy authentication, the relaying of bodies
    and the loop over the requests of a connection. The base64 decoders, the
    table of reason phrases and the opening of a proxied stream are arguments.
    The errors are the texts of the [anyhow] errors. *)
From S2P Require Import Prelude RustStr Net Io.
Local Open Scope Z_scope.

Definition KEEP_ALIVE_TIMEOUT_SECS : Z := 60.
Definition MAX_HTTP_HEADER_SIZE : Z := 64 * 1024.
Definition MAX_CHUNK_LINE_SIZE : Z := 8 * 1024.
Definition CR : Z := 13.
Definition LF : Z := 10.
Definition SP : Z := 32.
Definition CRLF : bytes := [CR; LF].

(** ** Splitting of strings *)

(** [s.split("\r\n")]. *)
Fixpoint split_crlf (s : bytes) : list bytes :=
  match s with
  | [] => [[]]
  | b :: r =>
      let grow := match split_crlf r with x :: xs => (b :: x) :: xs | [] => [[b]] end in
      match r with
      | c :: r' => if decide (b = CR ∧ c = LF) then [] :: split_crlf r' else grow
      | [] => grow
      end
  end.

(** [s.split(c)] for an ASCII character. *)
Fixpoint split_char (c : Z) (s : bytes) : list bytes :=
  match s with
  | [] => [[]]
  | b :: r =>
      if decide (b = c) then [] :: split_char c r
      else match split_char c r with x :: xs => (b :: x) :: xs | [] => [[b]] end
  end.

(** [s.splitn(n, ' ')]. *)
Fixpoint splitn_space (n : nat) (s : bytes) : list bytes :=
  match n with
  | O => []
  | S O => [s]
  | S n => match split_once SP s with Some (a, r) => a :: splitn_space n r | None => [s] end
  end.

(** [buffer.windows(p.len()).position(|w| w == p)]. *)
Fixpoint find_sub (p s : bytes) : option nat :=
  if starts_with p s then Some O
  else match s with [] => None | _ :: r => S <$> find_sub p r end.
Definition find_header_end (buffer : bytes) : option nat := find_sub (CRLF ++ CRLF) buffer.
Definition find_crlf (buffer : bytes) : option nat := find_sub CRLF buffer.

(** [usize::from_str_radix(s, 16)]. *)
Fixpoint hex_digits (acc : Z) (s : bytes) : option Z :=
  match s with
  | [] => Some acc
  | b :: r =>
      d ← digit_value 16 b;
      if decide (acc * 16 + d ≤ u64_max) then hex_digits (acc * 16 + d) r else None
  end.
Definition parse_hex_usize (s : bytes) : option Z :=
  match s with
  | [] => None
  | 43 :: [] => None
  | 43 :: r => hex_digits 0 r
  | _ => hex_digits 0 s
  end.

(** ** Heads *)

Abbreviation headers := (list (bytes * bytes)).

Record HttpAuth := mkHttpAuth { ha_username : bytes; ha_password : bytes; ha_realm : bytes }.

Inductive BodyKind := BodyNone | ContentLength (length : Z) | Chunked | UntilEof.
#[global] Instance BodyKind_eq_dec : EqDecision BodyKind.
Proof. solve_decision. Defined.

Record HttpRequestHead := mkRequestHead {
  hq_method : bytes; hq_target : bytes; hq_version : bytes; hq_headers : headers
}.
Record HttpResponseHead := mkResponseHead {
  hr_version : bytes; hr_status : Z; hr_reason : bytes; hr_headers : headers
}.

(** What [serve_http_proxy] asks for: only if both credentials are set. *)
Definition configured_http_auth (username password realm : bytes) : option HttpAuth :=
  if decide (username ≠ [] ∧ password ≠ []) then
    Some (mkHttpAuth username password (if decide (realm = []) then str "Hysteria" else realm))
  else None.

(** The header lines of a head. *)
Fixpoint parse_header_lines (lines : list bytes) : outcome bytes headers :=
  match lines with
  | [] => Ret []
  | line :: lines =>
      if decide (line = []) then parse_header_lines lines
      else
        '(name, value) ← ok_or (split_once COLON line) (str "malformed HTTP header line");
        hs ← parse_header_lines lines;
        Ret ((trim name, trim value) :: hs)
  end.

(** [read_http_request] on the bytes of a head. *)
Definition parse_request_head (header_bytes : bytes) : outcome bytes HttpRequestHead :=
  header_text ← ok_or (from_utf8 header_bytes) (str "HTTP request header is not valid UTF-8");
  match split_crlf header_text with
  | [] => Err (str "missing HTTP request line")
  | request_line :: lines =>
      let parts := splitn_space 3 request_line in
      method ← ok_or (parts !! 0%nat) (str "missing HTTP method");
      target ← ok_or (parts !! 1%nat) (str "missing HTTP request target");
      version ← ok_or (parts !! 2%nat) (str "missing HTTP version");
      hs ← parse_header_lines lines;
      Ret (mkRequestHead method target version hs)
  end.

(** [read_http_response] on the bytes of a head. *)
Definition parse_response_head (header_bytes : bytes) : outcome bytes HttpResponseHead :=
  header_text ← ok_or (from_utf8 header_bytes) (str "HTTP response header is not valid UTF-8");
  match split_crlf header_text with
  | [] => Err (str "missing HTTP response status line")
  | status_line :: lines =>
      let parts := splitn_space 3 status_line in
      version ← ok_or (parts !! 0%nat) (str "missing HTTP response version");
      status_text ← ok_or (parts !! 1%nat) (str "missing HTTP response status");
      status ← ok_or (parse_u16 status_text) (str "invalid HTTP response status");
      let reason := trim (default [] (parts !! 2%nat)) in
      hs ← parse_header_lines lines;
      Ret (mkResponseHead version status reason hs)
  end.

(** The headers of a name. *)
Definition with_name (name : bytes) (hs : headers) : headers :=
  filter (fun h => eq_ignore_ascii_case h.1 name = true) hs.
Definition header_value (hs : headers) (name : bytes) : option bytes := snd <$> head (with_name name hs).
Definition header_contains_token (hs : headers) (name token : bytes) : bool :=
  existsb (fun value => eq_ignore_ascii_case (trim value) token)
    (concat (map (fun h => split_char 44 h.2) (with_name name hs))).

(** [Option::or_else]. *)
Definition or_else {A} (a b : option A) : option A := match a with Some _ => a | None => b end.

(** [proxy_authorized]; [b64_standard] and [b64_url] decode base64. *)
Definition proxy_credentials (b64_standard b64_url : bytes → option bytes) (hs : headers) : option (bytes * bytes) :=
  header ← header_value hs (str "Proxy-Authorization");
  encoded ← or_else (strip_prefix (str "Basic ") header) (strip_prefix (str "basic ") header);
  decoded ← or_else (b64_standard (trim encoded)) (b64_url (trim encoded));
  decoded ← from_utf8 decoded;
  split_once COLON decoded.
Definition proxy_authorized (b64_standard b64_url : bytes → option bytes) (hs : headers) (auth : HttpAuth) : bool :=
  match proxy_credentials b64_standard b64_url hs with
  | Some (username, password) =>
      bool_decide (username = ha_username auth) && bool_decide (password = ha_password auth)
  | None => false
  end.

(** ** Framing *)

Definition request_body_kind (hs : headers) : outcome bytes BodyKind :=
  if header_contains_token hs (str "Transfer-Encoding") (str "chunked") then Ret Chunked
  else
    match header_value hs (str "Transfer-Encoding") with
    | Some _ => Err (str "unsupported request Transfer-Encoding")
    | None =>
        match header_value hs (str "Content-Length") with
        | None => Ret BodyNone
        | Some value =>
            length ← ok_or (parse_u64 value) (str "invalid HTTP Content-Length header");
            Ret (if decide (length = 0) then BodyNone else ContentLength length)
        end
    end.

Definition response_body_kind (request_method : bytes) (status : Z) (hs : headers) : outcome bytes BodyKind :=
  if decide (eq_ignore_ascii_case request_method (str "HEAD") = true ∨ status ∈ [101; 204; 304] ∨ 100 ≤ status < 200)
  then Ret BodyNone
  else if header_contains_token hs (str "Transfer-Encoding") (str "chunked") then Ret Chunked
  else
    match header_value hs (str "Transfer-Encoding") with
    | Some _ => Err (str "unsupported response Transfer-Encoding")
    | None =>
        match header_value hs (str "Content-Length") with
        | None => Ret UntilEof
        | Some value =>
            length ← ok_or (parse_u64 value) (str "invalid HTTP response Content-Length header");
            Ret (if decide (length = 0) then BodyNone else ContentLength length)
        end
    end.

Definition version_at_least_http_11 (version : bytes) : bool :=
  match strip_prefix (str "HTTP/") version with
  | None => false
  | Some rest =>
      match split_once DOT rest with
      | None => false
      | Some (major, minor) =>
          match parse_u16 major, parse_u16 minor with
          | Some major, Some minor => bool_decide (1 < major ∨ (major = 1 ∧ 1 ≤ minor))
          | _, _ => false
          end
      end
  end.
Definition request_keep_alive (request : HttpRequestHead) : bool :=
  version_at_least_http_11 (hq_version request)
  && (header_contains_token (hq_headers request) (str "Proxy-Connection") (str "keep-alive")
      || header_contains_token (hq_headers request) (str "Connection") (str "keep-alive")).

(** ** Targets *)

Definition SLASH : Z := 47.
Definition split_authority_and_path (value : bytes) : bytes * bytes :=
  match split_once SLASH value with
  | Some (authority, path) => (authority, SLASH :: path)
  | None => (value, [SLASH])
  end.

Definition authority_to_addr (authority : bytes) : outcome bytes bytes :=
  match parse_socket_addr authority with
  | Some _ => Ret authority
  | None =>
      let normalized := trim authority in
      if decide (normalized = []) then Err (str "empty authority")
      else if starts_with [91] normalized && bool_decide (is_Some (find_sub (str "]:") normalized)) then Ret normalized
      else if decide (is_Some (rsplit_once COLON normalized)) then Ret normalized
      else Ret (normalized ++ str ":80")
  end.

Definition ends_with (p s : bytes) : bool := starts_with (reverse p) (reverse s).
Definition normalize_host_header (authority : bytes) : outcome bytes bytes :=
  let normalized := trim authority in
  if decide (normalized = []) then Err (str "empty authority")
  else
    match parse_socket_addr normalized with
    | Some (SocketV4 o p) => Ret (if decide (p = 80) then ipv4_text o else normalized)
    | Some (SocketV6 o p) => Ret (if decide (p = 80) then 91 :: ipv6_text o ++ [93] else normalized)
    | None =>
        if ends_with (str ":80") normalized then Ret (take (length normalized - 3) normalized)
        else Ret normalized
    end.

Definition parse_proxy_target (target : bytes) (hs : headers) : outcome bytes (bytes * bytes * bytes) :=
  match strip_prefix (str "http://") target with
  | Some rest =>
      let '(authority, path) := split_authority_and_path rest in
      request_addr ← authority_to_addr authority;
      host_header ← normalize_host_header authority;
      Ret (request_addr, path, host_header)
  | None =>
      if starts_with (str "https://") target then
        Err (str "plain HTTPS proxy requests are not supported; use CONNECT")
      else if starts_with [SLASH] target then
        host ← ok_or (header_value hs (str "Host")) (str "missing Host header for proxied HTTP request");
        request_addr ← authority_to_addr host;
        host_header ← normalize_host_header host;
        Ret (request_addr, target, host_header)
      else
        request_addr ← authority_to_addr target;
        host_header ← normalize_host_header target;
        Ret (request_addr, [SLASH], host_header)
  end.

(** ** Outbound heads *)

Definition hop_by_hop : list bytes :=
  [str "proxy-connection"; str "connection"; str "keep-alive"; str "proxy-authenticate";
   str "proxy-authorization"; str "te"; str "trailers"; str "upgrade"].
Definition should_skip_request_header (name : bytes) (body_kind : BodyKind) : bool :=
  if decide (body_kind = Chunked ∧ eq_ignore_ascii_case name (str "Content-Length") = true) then true
  else bool_decide (to_ascii_lowercase name ∈ hop_by_hop).
Definition should_skip_response_header (name : bytes) (body_kind : BodyKind) : bool :=
  if decide (body_kind = Chunked ∧ eq_ignore_ascii_case name (str "Content-Length") = true) then true
  else bool_decide (to_ascii_lowercase name ∈ hop_by_hop).

(** ["{name}: {value}\r\n"]. *)
Definition header_line (name value : bytes) : bytes := name ++ str ": " ++ value ++ CRLF.

(** The loop over the headers of a request: the bytes, and whether a Host
    header was among them. *)
Fixpoint outbound_headers (hs : headers) (host_header : bytes) (body_kind : BodyKind) : bytes * bool :=
  match hs with
  | [] => ([], false)
  | (name, value) :: hs =>
      let '(rest, saw_host) := outbound_headers hs host_header body_kind in
      if should_skip_request_header name body_kind then (rest, saw_host)
      else if eq_ignore_ascii_case name (str "Host") then (header_line (str "Host") host_header ++ rest, true)
      else (header_line name value ++ rest, saw_host)
  end.

Definition build_outbound_request (request : HttpRequestHead) (request_target host_header : bytes)
    (body_kind : BodyKind) : bytes :=
  let '(lines, saw_host) := outbound_headers (hq_headers request) host_header body_kind in
  hq_method request ++ SP :: request_target ++ SP :: hq_version request ++ CRLF
    ++ lines ++ (if saw_host then [] else header_line (str "Host") host_header)
    ++ header_line (str "Connection") (str "close") ++ CRLF.

(** [canonical_reason] is the table of the [http] crate. *)
Definition build_outbound_response (canonical_reason : Z → option bytes) (response : HttpResponseHead)
    (body_kind : BodyKind) (keep_alive : option bool) : bytes :=
  let reason := if decide (hr_reason response = []) then default [] (canonical_reason (hr_status response))
                else hr_reason response in
  hr_version response ++ SP :: to_string (hr_status response) ++ SP :: reason ++ CRLF
    ++ concat (map (fun h => if should_skip_response_header h.1 body_kind then [] else header_line h.1 h.2)
                 (hr_headers response))
    ++ match keep_alive with
       | Some true =>
           header_line (str "Connection") (str "keep-alive")
             ++ header_line (str "Proxy-Connection") (str "keep-alive")
             ++ header_line (str "Keep-Alive") (str "timeout=" ++ to_string KEEP_ALIVE_TIMEOUT_SECS)
       | Some false => header_line (str "Connection") (str "close")
       | None => []
       end
    ++ CRLF.

Definition status_response (version : bytes) (status : Z) (reason : bytes) (keep_alive : bool) : bytes :=
  version ++ SP :: to_string status ++ SP :: reason ++ CRLF
    ++ header_line (str "Content-Length") (str "0")
    ++ (if keep_alive then
          header_line (str "Connection") (str "keep-alive")
            ++ header_line (str "Proxy-Connection") (str "keep-alive")
            ++ header_line (str "Keep-Alive") (str "timeout=" ++ to_string KEEP_ALIVE_TIMEOUT_SECS)
        else header_line (str "Connection") (str "close"))
    ++ CRLF.
Definition auth_required_response (version realm : bytes) : bytes :=
  version ++ SP :: str "407 Proxy Authentication Required" ++ CRLF
    ++ header_line (str "Proxy-Authenticate") (str "Basic realm=" ++ 34 :: realm ++ [34])
    ++ header_line (str "Content-Length") (str "0")
    ++ header_line (str "Connection") (str "close") ++ CRLF.

(** ** Reading heads and relaying bodies *)

(** One direction: what is read, what of it is buffered, and the writer. *)
Record xfer := mkXfer { xf_in : source; xf_buf : bytes; xf_out : wsink }.

Definition bail {S A} (text : bytes) : task S A := t_fail KOther text.
Definition lift {S A} (o : outcome bytes A) : task S A := fun c =>
  (c, match o with Ret a => mret a | Err e => fail KOther e | Panic => Some Panic end).
Definition x_read (cap : Z) : task xfer bytes := fun c =>
  match src_read (xf_in c) cap with
  | Some (Ret (b, s)) => (mkXfer s (xf_buf c) (xf_out c), mret b)
  | Some (Err e) => (c, Some (Err e))
  | Some Panic => (c, Some Panic)
  | None => (c, None)
  end.
Definition x_write_all (b : bytes) : task xfer unit := fun c =>
  match ws_write_all (xf_out c) b with
  | (w, None) => (mkXfer (xf_in c) (xf_buf c) w, mret ())
  | (w, Some e) => (mkXfer (xf_in c) (xf_buf c) w, Some (Err e))
  end.
Definition x_buffer : task xfer bytes := fun c => (c, mret (xf_buf c)).
Definition x_set_buffer (b : bytes) : task xfer unit := fun c => (mkXfer (xf_in c) b (xf_out c), mret ()).

(** [tokio::io::copy] from the reader, all of it or its first [limit] bytes:
    what has arrived is written; a stream that ends early ends the copy. *)
Definition x_copy (limit : option Z) : task xfer unit := fun c =>
  let data := so_data (xf_in c) in
  let n := match limit with Some n => Z.to_nat n | None => length data end in
  let rest := mkSource (drop_segs n (so_segs (xf_in c))) (so_end (xf_in c)) in
  let c' := mkXfer rest (xf_buf c) (fst (ws_write_all (xf_out c) (take n data))) in
  match ws_write_all (xf_out c) (take n data) with
  | (_, Some e) => (c', Some (Err e))
  | (_, None) =>
      if decide (is_Some limit ∧ (n ≤ length data)%nat) then (c', mret ())
      else
        match so_end (xf_in c) with
        | Blocked => (c', None)
        | AtEof => (c', mret ())
        | AtError e => (c', Some (Err e))
        end
  end.

(** [read_http_head]: a turn either finds the end of the head or reads at
    least a byte. *)
Fixpoint read_head_loop (fuel : nat) : task xfer (option bytes) :=
  match fuel with
  | O => fun c => (c, None)
  | S fuel =>
      buffer ← x_buffer;
      match find_header_end buffer with
      | Some header_end =>
          _ ← x_set_buffer (drop (header_end + 4) buffer);
          mret (Some (take header_end buffer))
      | None =>
          b ← x_read 2048;
          if decide (len b = 0) then
            if decide (buffer = []) then mret None
            else bail (str "unexpected EOF while reading HTTP header")
          else
            _ ← x_set_buffer (buffer ++ b);
            if decide (MAX_HTTP_HEADER_SIZE < len (buffer ++ b)) then bail (str "HTTP header is too large")
            else read_head_loop fuel
      end
  end.
(** The turns a reader of lines or heads can take on what has arrived. *)
Definition x_turns {A} (f : nat → task xfer A) : task xfer A := fun c => f (S (length (so_data (xf_in c)))) c.
Definition read_http_head : task xfer (option bytes) := x_turns read_head_loop.

Definition read_http_request : task xfer (option HttpRequestHead) :=
  o ← read_http_head;
  match o with
  | None => mret None
  | Some header_bytes => request ← lift (parse_request_head header_bytes); mret (Some request)
  end.
Definition read_http_response : task xfer (option HttpResponseHead) :=
  o ← read_http_head;
  match o with
  | None => mret None
  | Some header_bytes => response ← lift (parse_response_head header_bytes); mret (Some response)
  end.

Definition transfer_exact_bytes (remaining : Z) : task xfer unit :=
  if decide (remaining = 0) then mret ()
  else
    buffer ← x_buffer;
    let buffered := Z.min (len buffer) remaining in
    _ ← (if decide (0 < buffered) then
           _ ← x_write_all (take (Z.to_nat buffered) buffer);
           x_set_buffer (drop (Z.to_nat buffered) buffer)
         else mret ());
    if decide (0 < remaining - buffered) then x_copy (Some (remaining - buffered)) else mret ().

Definition transfer_until_eof : task xfer unit :=
  buffer ← x_buffer;
  _ ← (if decide (buffer ≠ []) then _ ← x_write_all buffer; x_set_buffer [] else mret ());
  x_copy None.

Fixpoint read_line_loop (fuel : nat) : task xfer bytes :=
  match fuel with
  | O => fun c => (c, None)
  | S fuel =>
      buffer ← x_buffer;
      match find_crlf buffer with
      | Some position =>
          _ ← x_set_buffer (drop (position + 2) buffer);
          mret (take (position + 2) buffer)
      | None =>
          if decide (MAX_CHUNK_LINE_SIZE < len buffer) then bail (str "HTTP chunk line is too large")
          else
            b ← x_read 1024;
            if decide (len b = 0) then bail (str "unexpected EOF while reading chunked body")
            else _ ← x_set_buffer (buffer ++ b); read_line_loop fuel
      end
  end.
Definition read_crlf_line : task xfer bytes := x_turns read_line_loop.

(** The size in a chunk header line, the line ending included. *)
Definition chunk_size (line : bytes) : outcome bytes Z :=
  line_text ← ok_or (from_utf8 (take (length line - 2) line)) (str "invalid HTTP chunk header");
  let chunk_len_text := trim (default [] (head (split_char 59 line_text))) in
  ok_or (parse_hex_usize chunk_len_text) (str "invalid HTTP chunk size " ++ chunk_len_text).

Fixpoint trailers_loop (fuel : nat) : task xfer unit :=
  match fuel with
  | O => fun c => (c, None)
  | S fuel =>
      trailer ← read_crlf_line;
      _ ← x_write_all trailer;
      if decide (trailer = CRLF) then mret () else trailers_loop fuel
  end.

(** [transfer_chunked_body]; [checks] is whether arithmetic is checked for
    overflow. A turn takes a line, so what is buffered or has arrived bounds
    the turns. *)
Fixpoint chunks_loop (checks : bool) (fuel : nat) : task xfer unit :=
  match fuel with
  | O => fun c => (c, None)
  | S fuel =>
      line ← read_crlf_line;
      _ ← x_write_all line;
      chunk_len ← lift (chunk_size line);
      if decide (chunk_len = 0) then trailers_loop (S fuel)
      else
        n ← lift (u64_add checks chunk_len 2);
        _ ← transfer_exact_bytes n;
        chunks_loop checks fuel
  end.
Definition transfer_chunked_body (checks : bool) : task xfer unit := fun c =>
  chunks_loop checks (S (length (xf_buf c) + length (so_data (xf_in c)))) c.

Definition transfer_body (checks : bool) (body_kind : BodyKind) : task xfer unit :=
  match body_kind with
  | BodyNone => mret ()
  | ContentLength length => transfer_exact_bytes length
  | Chunked => transfer_chunked_body checks
  | UntilEof => transfer_until_eof
  end.

(** ** The connection *)

(** The client's stream with its buffer and what was sent to it; the remotes
    opened so far, the last one first, with what was sent to each; and the
    stream of the last one. *)
Record proxy := mkProxy {
  px_client : source;
  px_buffer : bytes;
  px_reply : wsink;
  px_opened : list (bytes * wsink);
  px_remote : source;
  px_rbuffer : bytes
}.

Definition fresh_sink : wsink := mkWsink [] None [] false.

(** A task from the client to the last remote, and from it to the client. *)
Definition upstream {A} (t : task xfer A) : task proxy A := fun p =>
  let '(addr, w) := default ([], fresh_sink) (head (px_opened p)) in
  let '(x, r) := t (mkXfer (px_client p) (px_buffer p) w) in
  (mkProxy (xf_in x) (xf_buf x) (px_reply p)
     (match px_opened p with [] => [] | _ :: l => (addr, xf_out x) :: l end) (px_remote p) (px_rbuffer p), r).
Definition downstream {A} (t : task xfer A) : task proxy A := fun p =>
  let '(x, r) := t (mkXfer (px_remote p) (px_rbuffer p) (px_reply p)) in
  (mkProxy (px_client p) (px_buffer p) (xf_out x) (px_opened p) (xf_in x) (xf_buf x), r).
Definition shutdown_remote : task proxy unit := fun p =>
  (mkProxy (px_client p) (px_buffer p) (px_reply p)
     (match px_opened p with [] => [] | (addr, w) :: l => (addr, ws_shutdown w) :: l end)
     (px_remote p) (px_rbuffer p), mret ()).
Definition reply (b : bytes) : task proxy unit := downstream (x_write_all b).

Section proxy.
(** [client.tcp]: for the [n]-th stream opened, the text of an error, or what
    the remote sends and the half written to it. *)
Context (tcp : nat → bytes → outcome bytes (source * wsink)).
Context (b64_standard b64_url : bytes → option bytes) (canonical_reason : Z → option bytes) (checks : bool).

Definition open_remote (addr : bytes) : task proxy (outcome bytes unit) := fun p =>
  match tcp (length (px_opened p)) addr with
  | Ret (s, w) => (mkProxy (px_client p) (px_buffer p) (px_reply p) ((addr, w) :: px_opened p) s [], mret (Ret ()))
  | Err e => (p, mret (Err e))
  | Panic => (p, Some Panic)
  end.

Definition send_status (version : bytes) (status : Z) (reason : bytes) (keep_alive : bool) : task proxy unit :=
  reply (status_response version status reason keep_alive).

(** How a connection goes on after a request. *)
Inductive next := NextRequest | NextClose | NextTunnel.

Definition handle_connect (request : HttpRequestHead) : task proxy next :=
  request_addr ← lift (authority_to_addr (hq_target request));
  remote ← open_remote request_addr;
  match remote with
  | Ret _ =>
      _ ← send_status (hq_version request) 200 (str "Connection Established") false;
      _ ← upstream (buffer ← x_buffer;
                    if decide (buffer ≠ []) then _ ← x_write_all buffer; x_set_buffer [] else mret ());
      mret NextTunnel
  | Err e => _ ← send_status (hq_version request) 502 (str "Bad Gateway") false; bail e
  | Panic => lift Panic
  end.

(** The responses of the remote, up to one that is not informational. *)
Fixpoint responses_loop (fuel : nat) (request : HttpRequestHead) (keep_alive_requested : bool) : task proxy bool :=
  match fuel with
  | O => fun p => (p, None)
  | S fuel =>
      o ← downstream read_http_response;
      match o with
      | None =>
          _ ← send_status (hq_version request) 502 (str "Bad Gateway") false;
          bail (str "remote closed before sending an HTTP response")
      | Some response =>
          let is_informational := bool_decide (100 ≤ hr_status response < 200 ∧ hr_status response ≠ 101) in
          body_kind ← lift (response_body_kind (hq_method request) (hr_status response) (hr_headers response));
          let can_keep_alive :=
            keep_alive_requested && negb (bool_decide (body_kind = UntilEof)) && negb is_informational in
          _ ← reply (build_outbound_response canonical_reason response body_kind
                 (if is_informational then None else Some can_keep_alive));
          _ ← downstream (transfer_body checks body_kind);
          if is_informational then responses_loop fuel request keep_alive_requested
          else mret can_keep_alive
      end
  end.

Definition read_responses (request : HttpRequestHead) (keep_alive_requested : bool) : task proxy bool := fun p =>
  responses_loop (S (length (so_data (px_remote p)))) request keep_alive_requested p.

Definition handle_http_request (request : HttpRequestHead) (body_kind : BodyKind) (keep_alive_requested : bool)
    : task proxy bool :=
  '(request_addr, request_target, host_header) ← lift (parse_proxy_target (hq_target request) (hq_headers request));
  remote ← open_remote request_addr;
  match remote with
  | Err e => _ ← send_status (hq_version request) 502 (str "Bad Gateway") false; bail e
  | Panic => lift Panic
  | Ret _ =>
      _ ← upstream (x_write_all (build_outbound_request request request_target host_header body_kind));
      _ ← upstream (transfer_body checks body_kind);
      _ ← shutdown_remote;
      read_responses request keep_alive_requested
  end.

(** One turn of [handle_connection]. *)
Definition handle_turn (auth : option HttpAuth) : task proxy next :=
  o ← upstream read_http_request;
  match o with
  | None => mret NextClose
  | Some request =>
      if match auth with
         | Some auth => negb (proxy_authorized b64_standard b64_url (hq_headers request) auth)
         | None => false
         end
      then
        _ ← reply (auth_required_response (hq_version request) (default [] (ha_realm <$> auth)));
        mret NextClose
      else if eq_ignore_ascii_case (hq_method request) (str "CONNECT") then handle_connect request
      else
        let keep_alive_requested := request_keep_alive request in
        body_kind ← lift (request_body_kind (hq_headers request));
        keep_alive ← handle_http_request request body_kind keep_alive_requested;
        mret (if (keep_alive : bool) then NextRequest else NextClose)
  end.

Fixpoint connection_loop (fuel : nat) (auth : option HttpAuth) : task proxy next :=
  match fuel with
  | O => fun p => (p, None)
  | S fuel =>
      n ← handle_turn auth;
      match n with
      | NextRequest => connection_loop fuel auth
      | _ => mret n
      end
  end.
(** [handle_connection]: a turn that goes on has consumed a head, of four
    bytes at least. *)
Definition handle_connection (auth : option HttpAuth) : task proxy next := fun p =>
  connection_loop (S (length (px_buffer p) + length (so_data (px_client p)))) auth p.
End proxy.

(** ** Examples *)

Definition example_b64 (s : bytes) : option bytes :=
  if decide (s = str "dTpw") then Some (str "u:p") else None.
Definition example_reply : bytes :=
  str "HTTP/1.1 200 OK" ++ CRLF ++ str "Content-Length: 2" ++ CRLF ++ str "Upgrade: x" ++ CRLF ++ CRLF ++ str "hi".
Definition example_request : bytes :=
  str "GET http://a.b/x HTTP/1.1" ++ CRLF ++ str "Host:  a.b:80 " ++ CRLF
    ++ str "Proxy-Authorization: Basic dTpw" ++ CRLF ++ str "Proxy-Connection: keep-alive" ++ CRLF ++ CRLF.
Definition example_run (auth : option HttpAuth) (segs : list bytes) : proxy * io next :=
  handle_connection (fun _ _ => Ret (mkSource [example_reply] AtEof, fresh_sink)) example_b64 (fun _ => None)
    (fun _ => None) true auth (mkProxy (mkSource segs AtEof) [] fresh_sink [] (mkSource [] AtEof) []).

Example http_get_example :
  let '(p, r) := example_run (Some (mkHttpAuth (str "u") (str "p") (str "r"))) [example_request] in
  (map (fun o => (o.1, ws_out o.2)) (px_opened p), r)
  = ([(str "a.b:80", str "GET /x HTTP/1.1" ++ CRLF ++ str "Host: a.b" ++ CRLF ++ str "Connection: close" ++ CRLF ++ CRLF)],
     Some (Ret NextClose)).
Proof. vm_compute. reflexivity. Qed.

(** A bracketed IPv6 host without a port is taken to have one. *)
Example authority_ipv6 : authority_to_addr (str "[::1]") = Ret (str "[::1]").
Proof. vm_compute. reflexivity. Qed.

(** A chunk size of 2^64 - 2 wraps to an empty chunk in a release build, so the
    chunk's bytes are taken for the next size line. *)
Example chunk_size_wraps :
  u64_add (E:=bytes) false 18446744073709551614 2 = Ret 0 ∧
  chunk_size (str "fffffffffffffffe" ++ CRLF) = Ret 18446744073709551614.
Proof. split; vm_compute; reflexivity. Qed.

(** ** Finding line ends *)

Lemma strip_prefix_more p s r t : strip_prefix p s = Some r → strip_prefix p (s ++ t) = Some (r ++ t).
Proof. intros H. apply strip_prefix_Some in H as ->. rewrite <- app_assoc. apply strip_prefix_app. Qed.

Lemma starts_with_spec p s : starts_with p s = true ↔ ∃ r, s = p ++ r.
Proof.
  unfold starts_with. rewrite bool_decide_eq_true. split.
  - intros [r H]. apply strip_prefix_Some in H. eauto.
  - intros [r ->]. rewrite strip_prefix_app. eauto.
Qed.

(** More bytes do not change what a long enough string starts with. *)
Lemma starts_with_long p s t : (length p ≤ length s)%nat → starts_with p (s ++ t) = starts_with p s.
Proof.
  intros Hl. apply eq_bool_prop_intro. rewrite !Is_true_true, !starts_with_spec. split.
  - intros [r Hr]. exists (drop (length p) s). rewrite <- (take_drop (length p) s) at 1. f_equal.
    rewrite <- (take_app_le s t) by lia. by rewrite Hr, take_app_length.
  - intros [r ->]. exists (r ++ t). by rewrite app_assoc.
Qed.

Lemma find_sub_cons p b r :
  find_sub p (b :: r) = if starts_with p (b :: r) then Some O else S <$> find_sub p r.
Proof. done. Qed.

Lemma find_sub_spec p s k :
  find_sub p s = Some k ↔
  starts_with p (drop k s) = true ∧ (k ≤ length s)%nat ∧ ∀ j, (j < k)%nat → starts_with p (drop j s) = false.
Proof.
  revert k. induction s as [|b s IH]; intros k; cbn [find_sub]; destruct (starts_with p _) eqn:E.
  - split; [intros [= <-]; split_and!; [done|lia|lia]|]. intros (_ & Hk & _). cbn in Hk. f_equal. lia.
  - split; [done|]. intros (H & Hk & _). cbn in Hk. replace k with O in H by lia. cbn in H. congruence.
  - split; [intros [= <-]; split_and!; [done|lia|lia]|]. intros (_ & _ & H). destruct k as [|k]; [done|].
    specialize (H O ltac:(lia)). cbn [drop] in H. congruence.
  - destruct k as [|k].
    { split; [destruct (find_sub p s); [cbn; congruence|done]|]. intros (H & _). cbn [drop] in H. congruence. }
    trans (find_sub p s = Some k); [destruct (find_sub p s); cbn; naive_solver congruence|].
    rewrite IH. cbn [drop length]. split.
    + intros (H1 & H2 & H3). split_and!; [done|lia|]. intros [|j] Hj; [done|]. apply H3. lia.
    + intros (H1 & H2 & H3). split_and!; [done|lia|]. intros j Hj. apply (H3 (S j)). lia.
Qed.

Lemma starts_with_length p s : starts_with p s = true → (length p ≤ length s)%nat.
Proof. intros [r ->]%starts_with_spec. rewrite length_app. lia. Qed.

(** What was found stays where it is when more arrives. *)
Lemma find_sub_more p s t k : find_sub p s = Some k → find_sub p (s ++ t) = Some k.
Proof.
  rewrite !find_sub_spec. intros (H1 & H2 & H3). pose proof (starts_with_length _ _ H1) as Hl. rewrite length_drop in Hl.
  split_and!.
  - rewrite drop_app_le by lia. by rewrite starts_with_long by (rewrite length_drop; lia).
  - rewrite length_app. lia.
  - intros j Hj. rewrite drop_app_le by lia. rewrite starts_with_long by (rewrite length_drop; lia). by apply H3.
Qed.

(** It was found as soon as it had arrived. *)
Lemma find_sub_arrived p s t k : find_sub p (s ++ t) = Some k → find_sub p s = None → (length s < k + length p)%nat.
Proof.
  intros H Hn. apply find_sub_spec in H as (H1 & H2 & H3).
  destruct (decide (k + length p ≤ length s)%nat) as [Hle|]; [|lia]. exfalso.
  assert (find_sub p s = Some k) as Hc; [|by rewrite Hc in Hn].
  apply find_sub_spec. rewrite drop_app_le, starts_with_long in H1 by (rewrite ?length_drop; lia).
  split_and!; [done|lia|]. intros j Hj. specialize (H3 j Hj).
  by rewrite drop_app_le, starts_with_long in H3 by (rewrite ?length_drop; lia).
Qed.

Lemma starts_with_crlf b s : starts_with CRLF (b :: s) = bool_decide (b = CR ∧ head s = Some LF).
Proof.
  apply eq_bool_prop_intro. rewrite !Is_true_true, bool_decide_eq_true, starts_with_spec. split.
  - by intros [r [= -> ->]].
  - intros [-> H]. destruct s; [done|]. injection H as ->. by eexists.
Qed.

(** A line without a line end in it ends where its line end is. *)
Lemma find_crlf_line l rest : find_crlf l = None → find_crlf (l ++ CRLF ++ rest) = Some (length l).
Proof.
  unfold find_crlf. induction l as [|b l IH]; [done|]. rewrite <- app_comm_cons. cbn [find_sub].
  rewrite !starts_with_crlf. case_bool_decide as H1; [done|]. intros Hn.
  rewrite bool_decide_eq_false_2; last first.
  { intros [-> H]. apply H1. split; [done|]. destruct l; [discriminate H|done]. }
  rewrite IH; [done|]. by destruct (find_sub CRLF l).
Qed.

(** ** Reading from the wire *)

(** A direction on which [d] is buffered or arriving, and then [e], with [w]
    written so far. *)
Definition at_wire (c : xfer) (d : bytes) (e : ending) (w : wsink) : Prop :=
  ∃ held, holds (xf_in c) held e ∧ xf_buf c ++ held = d ∧ xf_out c = w.

Lemma x_more p k cap c d e w :
  at_wire c d e w → find_sub p d = Some k → find_sub p (xf_buf c) = None → 0 < cap → p ≠ [] →
  ∃ b s', x_read cap c = (mkXfer s' (xf_buf c) (xf_out c), mret b) ∧ 0 < len b ≤ cap ∧
    at_wire (mkXfer s' (xf_buf c ++ b) (xf_out c)) d e w ∧
    (length (so_data s') < length (so_data (xf_in c)))%nat ∧ (length (xf_buf c) < k + length p)%nat.
Proof.
  intros (held & Hh & Hd & Hw) Hf Hn Hc Hp. subst d. pose proof (find_sub_arrived p _ held k Hf Hn) as Hl.
  assert (held ≠ []) as Hne. { intros ->. rewrite app_nil_r in Hf. congruence. }
  destruct (src_read_holds (xf_in c) held e cap Hh Hne Hc) as (b & d' & s' & E & -> & Hb & Hlen & Hh').
  exists b, s'. unfold x_read. rewrite E. cbn. apply nonempty_len_pos in Hb. split_and!; try done.
  - exists d'. cbn. rewrite <- app_assoc. done.
  - destruct Hh as (_ & -> & _), Hh' as (_ & -> & _). rewrite length_app. unfold len in Hb. lia.
Qed.

(** The part of the wire before the first [p], once it has arrived. *)
Lemma found_at p k c d e w :
  at_wire c d e w → find_sub p d = Some k → find_sub p (xf_buf c) ≠ None →
  find_sub p (xf_buf c) = Some k ∧ (k + length p ≤ length (xf_buf c))%nat ∧ (∀ n, (n ≤ k + length p)%nat → take n (xf_buf c) = take n d) ∧
  at_wire (mkXfer (xf_in c) (drop (k + length p) (xf_buf c)) (xf_out c)) (drop (k + length p) d) e w.
Proof.
  intros (held & Hh & <- & Hw) Hf Hn. destruct (find_sub p (xf_buf c)) as [j|] eqn:Hj; [|done].
  pose proof (find_sub_more p _ held j Hj) as Hm. rewrite Hf in Hm. injection Hm as <-.
  apply find_sub_spec in Hj as (H1 & H2 & _). apply starts_with_length in H1. rewrite length_drop in H1.
  split_and!; [done|lia| |].
  - intros n Hn'. rewrite take_app_le by lia. done.
  - exists held. cbn. split_and!; try done. by rewrite drop_app_le by lia.
Qed.

Lemma read_line_spec fuel c line rest e w :
  at_wire c (line ++ CRLF ++ rest) e w → find_crlf line = None → len line < MAX_CHUNK_LINE_SIZE →
  (length (so_data (xf_in c)) < fuel)%nat →
  ∃ c', read_line_loop fuel c = (c', mret (line ++ CRLF)) ∧ at_wire c' rest e w.
Proof.
  intros Hw Hline Hmax Hf. pose proof (find_crlf_line line rest Hline) as Hfind. revert c Hw Hf.
  induction fuel as [|fuel IH]; intros c Hw Hf; [lia|]. cbn [read_line_loop].
  erewrite task_bind_Ret by (unfold x_buffer; done).
  destruct (decide (find_sub CRLF (xf_buf c) = None)) as [Hn|Hn].
  - unfold find_crlf. rewrite Hn.
    destruct (x_more CRLF (length line) 1024 c _ e w Hw Hfind Hn) as (b & s' & E & Hb & Hw' & Hless & Hbuf); [done|done|].
    rewrite decide_False; last first. { unfold len, MAX_CHUNK_LINE_SIZE in *. cbn in Hbuf. lia. }
    erewrite task_bind_Ret by exact E. rewrite decide_False by lia.
    erewrite task_bind_Ret by (unfold x_set_buffer; done). apply IH; [done|]. cbn. lia.
  - destruct (found_at CRLF (length line) c _ e w Hw Hfind Hn) as (E & Hl & Ht & Hw'). unfold find_crlf. rewrite E.
    erewrite task_bind_Ret by (unfold x_set_buffer; done). eexists. split.
    + unfold mret, task_ret. do 2 f_equal. rewrite Ht by done. rewrite app_assoc.
      replace (length line + 2)%nat with (length (line ++ CRLF)) by (by rewrite length_app). by rewrite take_app_length.
    + rewrite app_assoc in Hw'. replace (length line + length CRLF)%nat with (length (line ++ CRLF)) in Hw' by (by rewrite length_app).
      rewrite drop_app_length in Hw'. by rewrite length_app in Hw'.
Qed.

Lemma read_crlf_line_spec c line rest e w :
  at_wire c (line ++ CRLF ++ rest) e w → find_crlf line = None → len line < MAX_CHUNK_LINE_SIZE →
  ∃ c', read_crlf_line c = (c', mret (line ++ CRLF)) ∧ at_wire c' rest e w.
Proof. intros. unfold read_crlf_line, x_turns. eapply read_line_spec; [done|done|done|lia]. Qed.

Lemma x_write_all_wire c d e w b :
  at_wire c d e w → ws_room w = None →
  ∃ c', x_write_all b c = (c', mret ()) ∧ at_wire c' d e (push w b) ∧ xf_in c' = xf_in c ∧ xf_buf c' = xf_buf c.
Proof.
  intros (held & Hh & Hd & Hw) Hr. unfold x_write_all. rewrite Hw, ws_write_all_open by done.
  eexists. split; [done|]. split; [|done]. by exists held.
Qed.

Lemma x_copy_wire c n body rest e w :
  xf_buf c = [] → at_wire c (body ++ rest) e w → ws_room w = None → len body = n →
  ∃ c', x_copy (Some n) c = (c', mret ()) ∧ at_wire c' rest e (push w body).
Proof.
  intros Hb (held & Hh & Hd & Hw) Hr Hn. rewrite Hb in Hd. cbn in Hd. subst held. destruct Hh as (Hok & Hdata & He).
  unfold x_copy. rewrite Hw, Hdata. replace (Z.to_nat n) with (length body) by (unfold len in Hn; lia).
  rewrite take_app_length, ws_write_all_open by done. cbn [fst].
  rewrite decide_True by (split; [eauto|rewrite length_app; lia]). eexists. split; [done|].
  exists rest. cbn. rewrite Hb. split_and!; try done. split_and!; cbn; try done.
  - by apply drop_segs_ok.
  - unfold so_data in *. cbn. rewrite drop_segs_concat, Hdata. by rewrite drop_app_length.
Qed.

Lemma at_wire_length c d e w :
  at_wire c d e w → (length (xf_buf c) + length (so_data (xf_in c)) = length d)%nat.
Proof. intros (held & (_ & -> & _) & <- & _). by rewrite length_app. Qed.

(** Relaying a part of what is buffered, and then of what arrives. *)
Lemma transfer_exact_spec c n body rest e w :
  at_wire c (body ++ rest) e w → ws_room w = None → len body = n →
  ∃ c', transfer_exact_bytes n c = (c', mret ()) ∧ at_wire c' rest e (push w body) ∧
    (length (xf_buf c') + length (so_data (xf_in c')) ≤ length (xf_buf c) + length (so_data (xf_in c)))%nat.
Proof.
  intros (held & Hh & Hd & Hw) Hr Hn.
  assert (∀ c', at_wire c' rest e (push w body) →
    (length (xf_buf c') + length (so_data (xf_in c')) ≤ length (xf_buf c) + length (so_data (xf_in c)))%nat) as Hless.
  { intros c' H. rewrite (at_wire_length c' rest e _ H), (at_wire_length c (body ++ rest) e w) by (by exists held).
    rewrite length_app. lia. }
  cut (∃ c', transfer_exact_bytes n c = (c', mret ()) ∧ at_wire c' rest e (push w body)).
  { intros (c' & E & H). exists c'. split_and!; [done|done|by apply Hless]. }
  clear Hless. unfold transfer_exact_bytes. case_decide as Hz.
  { rewrite Hz in Hn. apply len_0_nil in Hn as ->. exists c. split; [done|]. exists held.
    split_and!; [done|done|]. unfold push. rewrite app_nil_r, Hw. by destruct w. }
  erewrite task_bind_Ret by (unfold x_buffer; done).
  set (k := Z.min (len (xf_buf c)) n). set (m := Z.to_nat k).
  assert (0 ≤ k ≤ n ∧ k ≤ len (xf_buf c)) as Hk by (unfold k; pose proof (len_nonneg body); pose proof (len_nonneg (xf_buf c)); lia).
  assert (take m (xf_buf c) = take m body) as Ht.
  { rewrite <- (take_app_le (xf_buf c) held), Hd by (unfold m, len in *; lia). apply take_app_le. unfold m, len in *. lia. }
  assert (drop m (xf_buf c) ++ held = drop m body ++ rest) as Hdr.
  { rewrite <- !drop_app_le by (unfold m, len in *; lia). by rewrite Hd. }
  set (c1 := mkXfer (xf_in c) (drop m (xf_buf c)) (push w (take m body))).
  assert (at_wire c1 (drop m body ++ rest) e (push w (take m body))) as H1 by (by exists held).
  erewrite task_bind_Ret with (c' := c1); last first.
  { case_decide as Hpos.
    - unfold x_write_all, mbind, task_bind. fold m. rewrite Hw, ws_write_all_open, Ht by done. done.
    - unfold c1. replace m with O by (unfold m; lia). rewrite drop_0, take_0. unfold push. rewrite app_nil_r.
      unfold mret, task_ret. f_equal. rewrite <- Hw. destruct c as [i b [? ? ? ?]]. done. }
  case_decide as Hrem.
  - destruct (x_copy_wire c1 (n - k) (drop m body) rest e (push w (take m body))) as (c2 & E & H2); [|done|done| |].
    + cbn. apply drop_ge. unfold m, len in *. lia.
    + rewrite len_drop. unfold m. lia.
    + exists c2. split; [exact E|]. by rewrite push_push, take_drop in H2.
  - exists c1. split; [done|]. rewrite drop_ge in H1 by (unfold m, len in *; lia).
    by rewrite take_ge in H1 by (unfold m, len in *; lia).
Qed.

(** A stream that ends before its announced length. *)
Lemma transfer_exact_truncated c n body w :
  at_wire c body AtEof w → ws_room w = None → len body < n →
  ∃ c', transfer_exact_bytes n c = (c', mret ()) ∧ at_wire c' [] AtEof (push w body).
Proof.
  intros (held & Hh & Hd & Hw) Hr Hn. pose proof (len_nonneg body).
  destruct Hh as (Hok & Hdata & He). unfold transfer_exact_bytes. rewrite decide_False by lia.
  erewrite task_bind_Ret by (unfold x_buffer; done).
  assert (len (xf_buf c) + len held = len body) as Hlen by (by rewrite <- Hd, len_app).
  pose proof (len_nonneg held). rewrite (Z.min_l (len (xf_buf c)) n) by lia.
  replace (Z.to_nat (len (xf_buf c))) with (length (xf_buf c)) by (unfold len; lia).
  set (c1 := mkXfer (xf_in c) [] (push w (xf_buf c))).
  erewrite task_bind_Ret with (c' := c1); last first.
  { case_decide as Hpos.
    - unfold x_write_all, mbind, task_bind. rewrite Hw, take_ge, drop_ge, ws_write_all_open by done. done.
    - assert (len (xf_buf c) = 0) as Hzero by (pose proof (len_nonneg (xf_buf c)); lia). apply len_0_nil in Hzero.
      unfold c1. rewrite Hzero. unfold push. rewrite app_nil_r. unfold mret, task_ret. f_equal. destruct c as [i b [? ? ? ?]].
      cbn in *. by subst. }
  rewrite decide_True by lia. unfold x_copy. cbn [xf_in xf_out xf_buf c1]. rewrite Hdata.
  rewrite take_ge by (unfold len in *; lia). rewrite ws_write_all_open by done. cbn [fst].
  rewrite decide_False by (unfold len in *; lia). rewrite He. eexists. split; [done|]. exists [].
  rewrite push_push, Hd. cbn. split_and!; try done. split_and!; cbn; [by apply drop_segs_ok| |done].
  unfold so_data in *. cbn. rewrite drop_segs_concat, Hdata. apply drop_ge. unfold len in *. lia.
Qed.

(** ** Chunked bodies *)

Definition line_ok (l : bytes) : Prop := find_crlf l = None ∧ len l < MAX_CHUNK_LINE_SIZE.

(** The trailer part, its empty last line included. *)
Inductive trailers : bytes → Prop :=
| trailers_end : trailers CRLF
| trailers_line l rest : line_ok l → l ≠ [] → trailers rest → trailers (l ++ CRLF ++ rest).

(** A chunked body: every chunk has a size line, then that many bytes and two
    more for the line end after them. *)
Inductive chunked_body : bytes → Prop :=
| chunked_last l rest :
    line_ok l → chunk_size (l ++ CRLF) = Ret 0 → trailers rest → chunked_body (l ++ CRLF ++ rest)
| chunked_chunk l n chunk rest :
    line_ok l → chunk_size (l ++ CRLF) = Ret n → 0 < n → len chunk = n + 2 → len chunk ≤ u64_max →
    chunked_body rest → chunked_body (l ++ CRLF ++ chunk ++ rest).

Lemma lift_Ret {S A} (o : outcome bytes A) a (c : S) : o = Ret a → lift o c = (c, mret a).
Proof. by intros ->. Qed.

Lemma trailers_spec body : trailers body → ∀ fuel c rest e w,
  at_wire c (body ++ rest) e w → ws_room w = None → (length body < fuel)%nat →
  ∃ c', trailers_loop fuel c = (c', mret ()) ∧ at_wire c' rest e (push w body).
Proof.
  induction 1 as [|l rest' [Hl Hmax] Hne Ht IH]; intros fuel c rest e w Hw Hr Hf; (destruct fuel as [|fuel]; [lia|]); cbn [trailers_loop].
  - destruct (read_crlf_line_spec c [] rest e w) as (c1 & E1 & H1); [done|done|done|].
    destruct (x_write_all_wire c1 rest e w CRLF H1 Hr) as (c2 & E2 & H2 & _).
    exists c2. split; [|done]. erewrite task_bind_Ret by exact E1. by erewrite task_bind_Ret by exact E2.
  - rewrite <- !app_assoc in Hw.
    destruct (read_crlf_line_spec c l (rest' ++ rest) e w) as (c1 & E1 & H1); [done|done|done|].
    destruct (x_write_all_wire c1 (rest' ++ rest) e w (l ++ CRLF) H1 Hr) as (c2 & E2 & H2 & _).
    rewrite !length_app in Hf. destruct (IH fuel c2 rest e (push w (l ++ CRLF))) as (c3 & E3 & H3); [done|done|cbn in Hf; lia|].
    exists c3. split; last first. { rewrite push_push, <- app_assoc in H3. done. }
    erewrite task_bind_Ret by exact E1. erewrite task_bind_Ret by exact E2. rewrite decide_False; [done|].
    intros Hc. apply (f_equal length) in Hc. rewrite length_app in Hc. destruct l; [done|]. cbn in Hc. lia.
Qed.

Lemma chunked_spec checks body : chunked_body body → ∀ fuel c rest e w,
  at_wire c (body ++ rest) e w → ws_room w = None → (length body < fuel)%nat →
  ∃ c', chunks_loop checks fuel c = (c', mret ()) ∧ at_wire c' rest e (push w body).
Proof.
  induction 1 as [l rest' [Hl Hmax] Hsize Ht|l n chunk rest' [Hl Hmax] Hsize Hn Hlen Hmax' Hbody IH];
    intros fuel c rest e w Hw Hr Hf; (destruct fuel as [|fuel]; [lia|]); cbn [chunks_loop]; rewrite <- !app_assoc in Hw; rewrite !length_app in Hf.
  - destruct (read_crlf_line_spec c l (rest' ++ rest) e w) as (c1 & E1 & H1); [done|done|done|].
    destruct (x_write_all_wire c1 (rest' ++ rest) e w (l ++ CRLF) H1 Hr) as (c2 & E2 & H2 & _).
    destruct (trailers_spec rest' Ht (S fuel) c2 rest e (push w (l ++ CRLF))) as (c3 & E3 & H3); [done|done|cbn in Hf; lia|].
    exists c3. split; last first. { rewrite push_push, <- app_assoc in H3. done. }
    erewrite task_bind_Ret by exact E1. erewrite task_bind_Ret by exact E2.
    erewrite task_bind_Ret by (by apply lift_Ret). rewrite decide_True by done. exact E3.
  - destruct (read_crlf_line_spec c l (chunk ++ rest' ++ rest) e w) as (c1 & E1 & H1); [done|done|done|].
    destruct (x_write_all_wire c1 (chunk ++ rest' ++ rest) e w (l ++ CRLF) H1 Hr) as (c2 & E2 & H2 & _).
    destruct (transfer_exact_spec c2 (n + 2) chunk (rest' ++ rest) e (push w (l ++ CRLF))) as (c3 & E3 & H3 & _); [done|done|done|].
    destruct (IH fuel c3 rest e (push (push w (l ++ CRLF)) chunk)) as (c4 & E4 & H4); [done|done|cbn in Hf; lia|].
    exists c4. split; last first. { rewrite !push_push, <- !app_assoc in H4. done. }
    erewrite task_bind_Ret by exact E1. erewrite task_bind_Ret by exact E2.
    erewrite task_bind_Ret by (by apply lift_Ret). rewrite decide_False by lia.
    erewrite task_bind_Ret by (apply lift_Ret; unfold u64_add; apply u64_arith_ok; lia).
    by erewrite task_bind_Ret by exact E3.
Qed.

Lemma transfer_until_eof_spec c body w :
  at_wire c body AtEof w → ws_room w = None →
  ∃ c', transfer_until_eof c = (c', mret ()) ∧ at_wire c' [] AtEof (push w body).
Proof.
  intros (held & (Hok & Hdata & He) & Hd & Hw) Hr. unfold transfer_until_eof.
  erewrite task_bind_Ret by (unfold x_buffer; done). set (c1 := mkXfer (xf_in c) [] (push w (xf_buf c))).
  erewrite task_bind_Ret with (c' := c1); last first.
  { case_decide as Hne.
    - unfold x_write_all, mbind, task_bind. rewrite Hw, ws_write_all_open by done. done.
    - unfold c1. rewrite Hne. unfold push. rewrite app_nil_r. unfold mret, task_ret. f_equal.
      destruct c as [i b [? ? ? ?]]. cbn in *. by subst. }
  unfold x_copy. cbn [xf_in xf_out xf_buf c1]. rewrite Hdata, take_ge by done.
  rewrite ws_write_all_open by done. cbn [fst]. rewrite decide_False by (intros [[? ?] _]; done). rewrite He.
  eexists. split; [done|]. exists []. rewrite push_push, Hd. cbn. split_and!; try done.
  split_and!; cbn; [by apply drop_segs_ok| |done]. unfold so_data in *. cbn. rewrite drop_segs_concat, Hdata. by apply drop_ge.
Qed.

(** C10: bodies are relayed byte for byte. However the input is cut into
    segments and however much of it is buffered already: a body of the announced
    length, or a chunked body with any chunks, extensions and trailers, is
    written to the other side exactly and what follows it stays unread; a body
    that ends with the stream is relayed to its end. But a stream that ends
    before the announced length is no error: the transfer reports success with
    the shorter body. *)
Theorem http_body_relayed checks body rest c e w :
  ws_room w = None → at_wire c (body ++ rest) e w →
  let relayed kind rest := ∃ c', transfer_body checks kind c = (c', mret ()) ∧ at_wire c' rest e (push w body) in
  relayed (ContentLength (len body)) rest ∧
  (chunked_body body → relayed Chunked rest) ∧
  (rest = [] → e = AtEof → relayed UntilEof [] ∧ ∀ n, len body < n → relayed (ContentLength n) []).
Proof.
  intros Hr Hw relayed. unfold relayed. cbn [transfer_body]. split_and!.
  - destruct (transfer_exact_spec c (len body) body rest e w Hw Hr eq_refl) as (c' & E & H & _). eauto.
  - intros Hc. apply (chunked_spec checks body Hc _ c rest e w Hw Hr).
    rewrite (at_wire_length c _ e w Hw), length_app. lia.
  - intros -> ->. rewrite app_nil_r in Hw. split; [by apply transfer_until_eof_spec|].
    intros n Hn. by apply transfer_exact_truncated.
Qed.

Lemma http_body_relayed_witness :
  let body := str "3;x=y" ++ CRLF ++ str "abc" ++ CRLF ++ str "0" ++ CRLF ++ str "T: 1" ++ CRLF ++ CRLF in
  ∃ c', transfer_body true Chunked (mkXfer (mkSource [drop 2 body; str "GET"] Blocked) (take 2 body) fresh_sink)
    = (c', mret ()) ∧ at_wire c' (str "GET") Blocked (push fresh_sink body).
Proof.
  intros body.
  refine (proj1 (proj2 (http_body_relayed true body (str "GET") _ Blocked fresh_sink eq_refl _)) _).
  - exists (drop 2 body ++ str "GET"). split_and!; [|reflexivity|reflexivity].
    split_and!; [|reflexivity|reflexivity]. by_decide.
  - apply (chunked_chunk (str "3;x=y") 3 (str "abc" ++ CRLF)).
    + split; [reflexivity|by_decide].
    + vm_compute. reflexivity.
    + by_decide.
    + reflexivity.
    + by_decide.
    + apply chunked_last; [split; [reflexivity|by_decide]|vm_compute; reflexivity|].
      apply (trailers_line (str "T: 1") CRLF); [split; [reflexivity|by_decide]|discriminate|constructor].
Defined.

(** ** The head the remote is sent *)

Lemma no_cr_find l : CR ∉ l → find_crlf l = None.
Proof.
  unfold find_crlf. induction l as [|b l IH]; [done|]. intros [Hb Hl]%not_elem_of_cons. cbn [find_sub].
  rewrite starts_with_crlf, bool_decide_eq_false_2 by (intros [-> _]; done). by rewrite IH.
Qed.

Lemma split_crlf_last l : CR ∉ l → split_crlf l = [l].
Proof.
  induction l as [|b l IH]; [done|]. intros [Hb Hl]%not_elem_of_cons. cbn [split_crlf]. rewrite IH by done.
  destruct l; [done|]. by rewrite decide_False by (intros [-> _]; done).
Qed.

Lemma split_crlf_line l rest : CR ∉ l → split_crlf (l ++ CRLF ++ rest) = l :: split_crlf rest.
Proof.
  induction l as [|b l IH]; [done|]. intros [Hb Hl]%not_elem_of_cons. rewrite <- app_comm_cons. cbn [split_crlf].
  rewrite IH by done. destruct (l ++ CRLF ++ rest); [done|]. by rewrite decide_False by (intros [-> _]; done).
Qed.

Lemma split_crlf_join lines :
  Forall (fun l => CR ∉ l) lines → lines ≠ [] → split_crlf (join CRLF lines) = lines.
Proof.
  intros H Hne. induction H as [|l lines Hl Hlines IH]; [done|]. destruct lines as [|l' lines].
  - by apply split_crlf_last.
  - change (join CRLF (l :: l' :: lines)) with (l ++ CRLF ++ join CRLF (l' :: lines)).
    rewrite split_crlf_line by done. by rewrite IH.
Qed.

(** The end of a head is where its lines end. *)
Lemma find_header_end_base l rest : CR ∉ l → find_header_end (l ++ CRLF ++ CRLF ++ rest) = Some (length l).
Proof.
  intros Hl. apply no_cr_find, (find_crlf_line l (CRLF ++ rest)) in Hl. apply find_sub_spec in Hl as (H1 & H2 & H3).
  apply find_sub_spec. rewrite drop_app_length. split_and!.
  - apply starts_with_spec. by exists rest.
  - rewrite length_app. lia.
  - intros j Hj. destruct (starts_with (CRLF ++ CRLF) _) eqn:E; [|done]. apply starts_with_spec in E as [r E].
    specialize (H3 j Hj). rewrite E in H3. done.
Qed.

Lemma find_header_end_line l rest :
  CR ∉ l → starts_with CRLF rest = false →
  find_header_end (l ++ CRLF ++ rest) = (fun k => (length l + 2 + k)%nat) <$> find_header_end rest.
Proof.
  intros Hl Hrest. unfold find_header_end. induction l as [|b l IH].
  - change ([] ++ CRLF ++ rest) with (CR :: LF :: rest). rewrite find_sub_cons, find_sub_cons.
    assert (starts_with (CRLF ++ CRLF) (CR :: LF :: rest) = false) as ->.
    { apply not_true_iff_false. intros [r [= E]]%starts_with_spec.
      rewrite (proj2 (starts_with_spec CRLF rest)) in Hrest; [done|]. by exists r. }
    assert (starts_with (CRLF ++ CRLF) (LF :: rest) = false) as ->.
    { apply not_true_iff_false. by intros [r [= ?]]%starts_with_spec. }
    by destruct (find_sub _ rest).
  - apply not_elem_of_cons in Hl as [Hb Hl]. rewrite <- app_comm_cons, find_sub_cons.
    assert (starts_with (CRLF ++ CRLF) (b :: l ++ CRLF ++ rest) = false) as ->.
    { apply not_true_iff_false. by intros [r [= ->]]%starts_with_spec. }
    rewrite IH by done. by destruct (find_sub _ rest).
Qed.

Lemma find_header_end_join lines rest :
  Forall (fun l => CR ∉ l ∧ l ≠ []) lines → lines ≠ [] →
  find_header_end (join CRLF lines ++ CRLF ++ CRLF ++ rest) = Some (length (join CRLF lines)).
Proof.
  intros H Hne. induction H as [|l lines [Hl Hl'] Hlines IH]; [done|]. destruct lines as [|l' lines].
  - by apply find_header_end_base.
  - change (join CRLF (l :: l' :: lines)) with (l ++ CRLF ++ join CRLF (l' :: lines)).
    rewrite <- !app_assoc, find_header_end_line; [|done|].
    + rewrite IH by done. cbn [fmap option_fmap option_map]. f_equal. rewrite !length_app. cbn. lia.
    + apply Forall_cons in Hlines as [[Hc Hn] _]. destruct l' as [|b l']; [done|]. apply not_elem_of_cons in Hc as [Hb _].
      assert (∃ r, join CRLF ((b :: l') :: lines) = b :: r) as [r ->] by (destruct lines; cbn; eauto).
      rewrite <- app_comm_cons, starts_with_crlf. apply bool_decide_eq_false_2. by intros [-> _].
Qed.

(** A text that can stand in a head: valid UTF-8 without carriage returns. *)
Definition wire_text (t : bytes) : Prop := utf8_valid t = true ∧ CR ∉ t.
#[global] Instance wire_text_dec t : Decision (wire_text t).
Proof. unfold wire_text. apply _. Defined.

Definition header_ok (h : bytes * bytes) : Prop :=
  wire_text h.1 ∧ wire_text h.2 ∧ COLON ∉ h.1 ∧ trim h.1 = h.1 ∧ trim h.2 = h.2.
#[global] Instance header_ok_dec h : Decision (header_ok h).
Proof. unfold header_ok. apply _. Defined.

Definition is_named (name : bytes) (h : bytes * bytes) : bool := eq_ignore_ascii_case h.1 name.

(** The headers the remote is meant to see: the hop-by-hop ones dropped, the
    host replaced or added, and the connection closed after the exchange. *)
Definition kept_headers (hs : headers) (host : bytes) (kind : BodyKind) : headers :=
  map (fun h => if is_named (str "Host") h then (str "Host", host) else h)
    (filter (fun h => should_skip_request_header h.1 kind = false) hs).
Definition forwarded_headers (hs : headers) (host : bytes) (kind : BodyKind) : headers :=
  kept_headers hs host kind
    ++ (if existsb (is_named (str "Host")) (kept_headers hs host kind) then [] else [(str "Host", host)])
    ++ [(str "Connection", str "close")].

Definition header_line_text (h : bytes * bytes) : bytes := h.1 ++ str ": " ++ h.2.

Lemma outbound_headers_spec hs host kind :
  outbound_headers hs host kind
  = (concat (map (fun h => header_line_text h ++ CRLF) (kept_headers hs host kind)),
     existsb (is_named (str "Host")) (kept_headers hs host kind)).
Proof.
  induction hs as [|[name value] hs IH]; [done|]. cbn [outbound_headers]. rewrite IH. unfold kept_headers.
  rewrite filter_cons. cbn [fst snd]. destruct (should_skip_request_header name kind).
  - by rewrite decide_False.
  - rewrite decide_True by done. cbn [map concat existsb]. unfold is_named. cbn [fst].
    destruct (eq_ignore_ascii_case name (str "Host")) eqn:E; cbn [fst].
    + unfold header_line, header_line_text. cbn [fst snd]. by rewrite <- !app_assoc.
    + rewrite E. cbn [orb]. unfold header_line, header_line_text. cbn [fst snd]. by rewrite <- !app_assoc.
Qed.

Lemma join_lines l hs :
  join CRLF (l :: map header_line_text hs) ++ CRLF = l ++ CRLF ++ concat (map (fun h => header_line_text h ++ CRLF) hs).
Proof.
  revert l. induction hs as [|h hs IH]; intros l; [done|].
  change (join CRLF (l :: map header_line_text (h :: hs)))
    with (l ++ CRLF ++ join CRLF (header_line_text h :: map header_line_text hs)).
  rewrite <- !app_assoc. do 2 f_equal. rewrite IH. cbn [map concat]. by rewrite <- !app_assoc.
Qed.

Lemma build_outbound_request_lines request target host kind :
  build_outbound_request request target host kind
  = join CRLF ((hq_method request ++ SP :: target ++ SP :: hq_version request)
       :: map header_line_text (forwarded_headers (hq_headers request) host kind)) ++ CRLF ++ CRLF.
Proof.
  unfold build_outbound_request. rewrite outbound_headers_spec. rewrite (app_assoc _ CRLF CRLF), join_lines.
  unfold forwarded_headers. rewrite !map_app, !concat_app.
  assert (∀ m t v x : bytes, m ++ SP :: t ++ SP :: v ++ x = (m ++ SP :: t ++ SP :: v) ++ x) as ->.
  { intros. repeat (rewrite <- app_assoc; cbn [app]). done. }
  rewrite <- !app_assoc. do 3 f_equal. destruct (existsb _ _); [done|]. f_equal. cbn [map concat].
  rewrite app_nil_r. unfold header_line, header_line_text. cbn [fst snd]. by rewrite <- !app_assoc.
Qed.

Lemma parse_header_lines_text hs :
  Forall header_ok hs → parse_header_lines (map header_line_text hs) = Ret hs.
Proof.
  intros H. induction H as [|[name value] hs (_ & _ & Hc & Hn & Hv) Hs IH]; [done|]. cbn [map parse_header_lines].
  rewrite decide_False; last first.
  { unfold header_line_text. intros He. apply (f_equal length) in He. rewrite !length_app in He. cbn in He. lia. }
  cbn [fst snd] in *. change (header_line_text (name, value)) with (name ++ COLON :: [SP] ++ value).
  rewrite split_once_app by done. cbn [ok_or mbind outcome_bind]. rewrite IH. cbn [mbind outcome_bind].
  change (trim ([SP] ++ value)) with (trim value). by rewrite Hn, Hv.
Qed.

Lemma wire_app a b : wire_text a → wire_text b → wire_text (a ++ b).
Proof. intros [H1 H2] [H3 H4]. split; [by rewrite utf8_valid_app|by apply not_elem_of_app]. Qed.
Lemma wire_sp b : wire_text b → wire_text (SP :: b).
Proof. intros H. apply (wire_app [SP]); [by_decide|done]. Qed.

Lemma join_valid lines : Forall wire_text lines → utf8_valid (join CRLF lines) = true.
Proof.
  intros H. induction H as [|l lines [Hl _] Hlines IH]; [done|]. destruct lines as [|l' lines]; [done|].
  change (join CRLF (l :: l' :: lines)) with (l ++ CRLF ++ join CRLF (l' :: lines)).
  rewrite utf8_valid_app by done. by rewrite utf8_valid_app.
Qed.

Lemma splitn_request m t v :
  SP ∉ m → SP ∉ t → splitn_space 3 (m ++ SP :: t ++ SP :: v) = [m; t; v].
Proof. intros Hm Ht. cbn [splitn_space]. rewrite split_once_app by done. by rewrite split_once_app. Qed.

Lemma kept_headers_ok hs host kind :
  wire_text host → trim host = host → Forall header_ok hs → Forall header_ok (kept_headers hs host kind).
Proof.
  intros H1 H2 Hs. unfold kept_headers. apply Forall_map, Forall_forall. intros h [_ Hh]%list_elem_of_filter.
  rewrite Forall_forall in Hs. specialize (Hs h Hh). cbn. case_match; [|done]. split_and!; [by_decide|done|by_decide|done|done].
Qed.

Lemma forwarded_headers_ok hs host kind :
  wire_text host → trim host = host → Forall header_ok hs → Forall header_ok (forwarded_headers hs host kind).
Proof.
  intros H1 H2 Hs. unfold forwarded_headers. apply Forall_app. split; [by apply kept_headers_ok|].
  apply Forall_app. split; [|by_decide]. case_match; [constructor|]. constructor; [|constructor].
  split_and!; [by_decide|done|by_decide|done|done].
Qed.

Lemma with_name_cons name n v hs :
  with_name name ((n, v) :: hs)
  = if eq_ignore_ascii_case n name then (n, v) :: with_name name hs else with_name name hs.
Proof. unfold with_name. rewrite filter_cons. cbn [fst]. by destruct (eq_ignore_ascii_case n name). Qed.

(** Headers that are neither hop-by-hop nor the host are kept as they are. *)
Lemma kept_named name hs host kind :
  to_ascii_lowercase name ∉ hop_by_hop → to_ascii_lowercase name ≠ str "host" →
  (kind = Chunked → to_ascii_lowercase name ≠ str "content-length") →
  with_name name (kept_headers hs host kind) = with_name name hs.
Proof.
  intros Hhop Hhost Hcl. unfold kept_headers. induction hs as [|[n v] hs IH]; [done|].
  rewrite filter_cons, with_name_cons. cbn [fst].
  destruct (eq_ignore_ascii_case n name) eqn:En.
  - pose proof En as En'. apply bool_decide_eq_true in En. rewrite decide_True; last first.
    { unfold should_skip_request_header. rewrite decide_False.
      - apply bool_decide_eq_false_2. by rewrite En.
      - intros [Hk Hi]. apply bool_decide_eq_true in Hi. apply (Hcl Hk). by rewrite <- En, Hi. }
    cbn [map]. unfold is_named at 1. cbn [fst].
    assert (eq_ignore_ascii_case n (str "Host") = false) as ->.
    { apply bool_decide_eq_false_2. intros E. apply Hhost. by rewrite <- En, E. }
    by rewrite with_name_cons, En', IH.
  - case_decide; [|done]. cbn [map]. unfold is_named at 1. cbn [fst]. case_match; rewrite with_name_cons, ?En; [|done].
    assert (eq_ignore_ascii_case (str "Host") name = false) as ->; [|done].
    apply bool_decide_eq_false_2. intros E. apply Hhost. by rewrite <- E.
Qed.

Lemma forwarded_named name hs host kind :
  to_ascii_lowercase name ∉ hop_by_hop → to_ascii_lowercase name ≠ str "host" →
  (kind = Chunked → to_ascii_lowercase name ≠ str "content-length") →
  with_name name (forwarded_headers hs host kind) = with_name name hs.
Proof.
  intros Hhop Hhost Hcl. unfold forwarded_headers, with_name. rewrite !filter_app. fold (with_name name (kept_headers hs host kind)).
  rewrite kept_named by done. fold (with_name name hs). rewrite <- (app_nil_r (with_name name hs)) at 2. f_equal.
  fold (with_name name [(str "Connection", str "close")]).
  rewrite with_name_cons.
  assert (eq_ignore_ascii_case (str "Connection") name = false) as ->.
  { apply bool_decide_eq_false_2. intros E. apply Hhop. rewrite <- E. by_decide. }
  rewrite app_nil_r. case_match; [done|]. fold (with_name name [(str "Host", host)]). rewrite with_name_cons.
  assert (eq_ignore_ascii_case (str "Host") name = false) as ->; [|done].
  apply bool_decide_eq_false_2. intros E. apply Hhost. by rewrite <- E.
Qed.

Lemma forwarded_body_kind hs host kind :
  request_body_kind hs = Ret kind → request_body_kind (forwarded_headers hs host kind) = Ret kind.
Proof.
  unfold request_body_kind, header_contains_token, header_value.
  rewrite (forwarded_named (str "Transfer-Encoding")) by first [by_decide|intros _; by_decide].
  destruct (existsb _ _); [done|]. destruct (head (with_name (str "Transfer-Encoding") hs)); [done|]. cbn [fmap option_fmap option_map].
  intros H. assert (kind ≠ Chunked) as Hk.
  { destruct (snd <$> head (with_name (str "Content-Length") hs)); [|by injection H as <-].
    apply bind_Ret_inv in H as (n & _ & [= <-]). by case_decide. }
  by rewrite (forwarded_named (str "Content-Length")) by (done || by_decide).
Qed.

Lemma host_not_hop : to_ascii_lowercase (str "Host") ∉ hop_by_hop.
Proof. by_decide. Qed.

(** What the remote sees of the hop-by-hop headers and of the host. *)
Lemma forwarded_fields hs host kind :
  Forall (fun h => (h = (str "Connection", str "close") ∨ to_ascii_lowercase h.1 ∉ hop_by_hop) ∧
                   (eq_ignore_ascii_case h.1 (str "Host") = true → h = (str "Host", host)))
    (forwarded_headers hs host kind).
Proof.
  unfold forwarded_headers. apply Forall_app. split; [|apply Forall_app; split].
  - unfold kept_headers. apply Forall_map, Forall_forall. intros [n v] [Hs _]%list_elem_of_filter. cbn [fst] in Hs |- *.
    unfold is_named. cbn [fst]. destruct (eq_ignore_ascii_case n (str "Host")) eqn:E.
    + split; [right; exact host_not_hop|done].
    + cbn [fst]. split; [right|congruence]. unfold should_skip_request_header in Hs. case_decide; [done|].
      by apply bool_decide_eq_false in Hs.
  - case_match; [constructor|]. constructor; [|constructor]. split; [right; exact host_not_hop|done].
  - constructor; [|constructor]. split; [by left|]. cbn [fst]. intros H. vm_compute in H. discriminate.
Qed.

(** C9: what the remote is sent for a request. If the parts of the request
    contain no carriage return, the head the proxy sends ends exactly where it
    is meant to, whatever body follows, and parses to the same method, the
    rewritten target, the same version and the intended headers: nothing a
    client puts into a request adds a header or a second request. Of the
    hop-by-hop headers only the proxy's own Connection header is left, every
    Host header is the normalized host, and the remote frames the body exactly
    as the proxy does. *)
Theorem http_request_forwarded request target host kind body :
  wire_text (hq_method request) → SP ∉ hq_method request → wire_text target → SP ∉ target →
  wire_text (hq_version request) → wire_text host → trim host = host → Forall header_ok (hq_headers request) →
  request_body_kind (hq_headers request) = Ret kind →
  let fwd := forwarded_headers (hq_headers request) host kind in
  ∃ head, build_outbound_request request target host kind = head ++ CRLF ++ CRLF ∧
    find_header_end (head ++ CRLF ++ CRLF ++ body) = Some (length head) ∧
    parse_request_head head = Ret (mkRequestHead (hq_method request) target (hq_version request) fwd) ∧
    request_body_kind fwd = Ret kind ∧
    Forall (fun h => (h = (str "Connection", str "close") ∨ to_ascii_lowercase h.1 ∉ hop_by_hop) ∧
                     (eq_ignore_ascii_case h.1 (str "Host") = true → h = (str "Host", host))) fwd.
Proof.
  intros Hm Hms Ht Hts Hv Hh Htrim Hhs Hk fwd. set (line := hq_method request ++ SP :: target ++ SP :: hq_version request).
  assert (wire_text line) as Hline by (apply wire_app, wire_sp, wire_app, wire_sp; done).
  assert (Forall header_ok fwd) as Hfwd by (by apply forwarded_headers_ok).
  assert (Forall wire_text (line :: map header_line_text fwd)) as Hlines.
  { constructor; [done|]. apply Forall_map. eapply Forall_impl; [exact Hfwd|]. intros h (H1 & H2 & _).
    apply wire_app; [done|]. apply wire_app; [by_decide|done]. }
  exists (join CRLF (line :: map header_line_text fwd)). split_and!.
  - apply build_outbound_request_lines.
  - apply find_header_end_join; [|done]. constructor; [split; [apply Hline|]|].
    + unfold line. intros He. apply (f_equal length) in He. rewrite length_app in He. cbn in He. lia.
    + apply Forall_cons in Hlines as [_ Hlines]. rewrite Forall_map in Hlines |- *. eapply Forall_impl; [exact Hlines|].
      intros h [_ H]. split; [done|]. unfold header_line_text. intros He. apply (f_equal length) in He. rewrite !length_app in He. cbn in He. lia.
  - unfold parse_request_head, from_utf8. rewrite join_valid by done. cbn [ok_or mbind outcome_bind].
    rewrite split_crlf_join; [|by eapply Forall_impl; [exact Hlines|]; intros l [_ H]|done].
    unfold line. rewrite splitn_request by done. cbn [lookup list_lookup ok_or mbind outcome_bind].
    by rewrite parse_header_lines_text by done.
  - by apply forwarded_body_kind.
  - apply forwarded_fields.
Qed.

Lemma http_request_forwarded_witness :
  let request := mkRequestHead (str "POST") (str "http://a.b:80/x") (str "HTTP/1.1")
    [(str "host", str "evil"); (str "Transfer-Encoding", str "chunked"); (str "content-length", str "5");
     (str "Upgrade", str "h2c")] in
  ∃ head, build_outbound_request request (str "/x") (str "a.b") Chunked = head ++ CRLF ++ CRLF ∧
    parse_request_head head = Ret (mkRequestHead (str "POST") (str "/x") (str "HTTP/1.1")
      [(str "Host", str "a.b"); (str "Transfer-Encoding", str "chunked"); (str "Connection", str "close")]).
Proof.
  intros request. destruct (http_request_forwarded request (str "/x") (str "a.b") Chunked (str "GET")) as (head & H1 & _ & H2 & _).
  - by_decide.
  - by_decide.
  - by_decide.
  - by_decide.
  - by_decide.
  - by_decide.
  - reflexivity.
  - by_decide.
  - vm_compute. reflexivity.
  - exists head. split; [exact H1|exact H2].
Defined.

(** ** Which streams are opened *)

Definition addrs (p : proxy) : list bytes := map fst (px_opened p).
Definition keeps_addrs {A} (t : task proxy A) : Prop := ∀ p, addrs (fst (t p)) = addrs p.

Lemma keeps_bind {A B} (m : task proxy A) (f : A → task proxy B) :
  keeps_addrs m → (∀ a, keeps_addrs (f a)) → keeps_addrs (m ≫= f).
Proof.
  intros Hm Hf p. specialize (Hm p). unfold mbind, task_bind. destruct (m p) as [p' [[a| |]|]]; cbn in *; try done.
  by rewrite Hf.
Qed.
Lemma keeps_ret {A} (a : A) : keeps_addrs (mret a).
Proof. done. Qed.
Lemma keeps_lift {A} (o : outcome bytes A) : keeps_addrs (lift o).
Proof. done. Qed.
Lemma keeps_bail {A} text : keeps_addrs (bail (A:=A) text).
Proof. done. Qed.
Lemma keeps_upstream {A} (t : task xfer A) : keeps_addrs (upstream t).
Proof.
  intros p. unfold upstream, addrs. destruct (px_opened p) as [|[addr w] l] eqn:E; cbn.
  - by destruct (t _).
  - by destruct (t _).
Qed.
Lemma keeps_downstream {A} (t : task xfer A) : keeps_addrs (downstream t).
Proof. intros p. unfold downstream. by destruct (t _). Qed.
Lemma keeps_shutdown : keeps_addrs shutdown_remote.
Proof. intros p. unfold shutdown_remote, addrs. by destruct (px_opened p) as [|[addr w] l]. Qed.
Lemma keeps_reply b : keeps_addrs (reply b).
Proof. apply keeps_downstream. Qed.
Create HintDb addrs.
#[export] Hint Resolve keeps_bind keeps_ret keeps_lift keeps_bail keeps_upstream keeps_downstream keeps_shutdown
  keeps_reply : addrs.
#[export] Hint Extern 2 (keeps_addrs (if ?b then _ else _)) => destruct b : addrs.
#[export] Hint Extern 2 (keeps_addrs (match ?b with _ => _ end)) => destruct b : addrs.
Ltac keeps := repeat first [ apply keeps_bind; [|intros ?] | solve [auto with addrs] | progress case_match ].


(** ** What is read of the client's stream *)

Lemma task_Ret_inv {S A B} (m : task S A) (f : A → task S B) c c' b :
  (m ≫= f) c = (c', mret b) → ∃ c1 a, m c = (c1, mret a) ∧ f a c1 = (c', mret b).
Proof. unfold mbind, task_bind. destruct (m c) as [c1 [[a| |]|]]; try done. eauto. Qed.
(** Split a run that succeeded into its first step and the rest. *)
Ltac run_step H x E := let c1 := fresh "c" in apply task_Ret_inv in H as (c1 & x & E & H).

(** What of a direction is not consumed: buffered or still arriving. *)
Definition unread (c : xfer) : bytes := xf_buf c ++ so_data (xf_in c).

Lemma x_read_unread cap c c' b : x_read cap c = (c', mret b) → xf_buf c' = xf_buf c ∧ so_data (xf_in c) = b ++ so_data (xf_in c').
Proof.
  unfold x_read, src_read, so_data. destruct (so_segs (xf_in c)) as [|seg segs] eqn:E; [destruct (so_end (xf_in c))|]; cbn; try done.
  - intros [= <- <-]. cbn. by rewrite E.
  - intros [= <- <-]. cbn. split; [done|]. case_decide as Hd; cbn.
    + rewrite <- (take_drop (Z.to_nat cap) seg) at 1. by rewrite Hd, app_nil_r.
    + by rewrite app_assoc, take_drop.
Qed.
Lemma x_write_unread b c c' : x_write_all b c = (c', mret ()) → unread c' = unread c.
Proof. unfold x_write_all. destruct (ws_write_all _ _) as [w [e|]]; [done|]. by intros [= <-]. Qed.
Lemma x_copy_unread n c c' : x_copy (Some n) c = (c', mret ()) → xf_buf c' = xf_buf c ∧ so_data (xf_in c') = drop (Z.to_nat n) (so_data (xf_in c)).
Proof.
  unfold x_copy. destruct (ws_write_all _ _) as [w [e|]]; [done|]. cbn. case_decide; [|destruct (so_end (xf_in c)); try done];
    intros [= <-]; (split; [done|]); unfold so_data; cbn; apply drop_segs_concat.
Qed.

(** A head that was read is the one the stream starts with. *)
Lemma read_head_unread fuel c c' head :
  read_head_loop fuel c = (c', mret (Some head)) →
  find_header_end (unread c) = Some (length head) ∧ unread c = head ++ CRLF ++ CRLF ++ unread c'.
Proof.
  revert c. induction fuel as [|fuel IH]; intros c; [done|]. cbn [read_head_loop]. intros Hr. run_step Hr buffer E. injection E as <- <-.
  destruct (find_header_end (xf_buf c)) as [k|] eqn:Hk.
  - run_step Hr u E. injection E as <- _. injection Hr as <- <-. pose proof (find_sub_more _ _ (so_data (xf_in c)) _ Hk) as Hm.
    apply find_sub_spec in Hk as (Hs & Hl & _). apply starts_with_spec in Hs as [r Hd]. unfold unread. cbn [xf_buf xf_in].
    rewrite length_take_le by done. split; [exact Hm|]. rewrite <- drop_drop, Hd, drop_app_length' by done.
    rewrite <- (take_drop k (xf_buf c)) at 1. rewrite Hd, <- !app_assoc. done.
  - run_step Hr b E. apply x_read_unread in E as [Hb Hd]. case_decide as Hz; [case_decide; done|].
    run_step Hr u E. injection E as <- _. case_decide; [done|]. apply IH in Hr. unfold unread in *. cbn in Hr. by rewrite Hd, app_assoc.
Qed.
Lemma read_request_unread c c' request :
  read_http_request c = (c', mret (Some request)) →
  ∃ head, find_header_end (unread c) = Some (length head) ∧ unread c = head ++ CRLF ++ CRLF ++ unread c' ∧ parse_request_head head = Ret request.
Proof.
  unfold read_http_request. intros Hr. run_step Hr o E. destruct o as [head|]; [|done]. apply read_head_unread in E as [Hf Hd]. exists head.
  run_step Hr rq E. unfold lift in E. destruct (parse_request_head head) as [x| |]; try done. injection E as <- <-. by injection Hr as <- <-.
Qed.
Lemma read_line_unread fuel c c' line : read_line_loop fuel c = (c', mret line) → unread c' `suffix_of` unread c.
Proof.
  revert c. induction fuel as [|fuel IH]; intros c; [done|]. cbn [read_line_loop]. intros Hr. run_step Hr buffer E. injection E as <- <-.
  destruct (find_crlf (xf_buf c)) as [k|] eqn:Hk.
  - run_step Hr u E. injection E as <- _. injection Hr as <- _. unfold unread. cbn [xf_buf xf_in]. exists (take (k + 2) (xf_buf c)).
    by rewrite app_assoc, take_drop.
  - case_decide; [done|]. run_step Hr b E. apply x_read_unread in E as [Hb Hd]. case_decide; [done|].
    run_step Hr u E. injection E as <- _. apply IH in Hr. unfold unread in *. cbn in Hr. by rewrite Hd, app_assoc.
Qed.
Lemma transfer_exact_unread n c c' :
  0 ≤ n → transfer_exact_bytes n c = (c', mret ()) → unread c' = drop (Z.to_nat n) (unread c).
Proof.
  intros Hn. unfold transfer_exact_bytes. case_decide as H0; [intros [= <-]; by subst|]. intros Hr. run_step Hr buffer E. injection E as <- <-.
  run_step Hr u Eb. assert (xf_buf c0 = drop (Z.to_nat n) (xf_buf c) ∧ so_data (xf_in c0) = so_data (xf_in c)) as [Hb Hd].
  { clear Hr. case_decide as Hpos.
    - run_step Eb v Ew. unfold x_write_all in Ew. destruct (ws_write_all _ _) as [w [e|]]; [done|]. injection Ew as <- _. injection Eb as <-. cbn.
      split; [|done]. unfold len in *. destruct (Z.min_spec (Z.of_nat (length (xf_buf c))) n) as [[? ->]|[? ->]]; [|done].
      rewrite Nat2Z.id, drop_all. symmetry. apply drop_ge. lia.
    - injection Eb as <-. pose proof (len_nonneg (xf_buf c)) as Hl. destruct (xf_buf c) as [|b buf]; [by rewrite drop_nil|].
      rewrite len_cons in Hpos, Hl. pose proof (len_nonneg buf). lia. }
  unfold unread. rewrite drop_app. unfold len in Hr. case_decide as Hpos.
  - apply x_copy_unread in Hr as [-> ->]. rewrite Hb, Hd. f_equal. f_equal. lia.
  - injection Hr as <-. rewrite Hb, Hd. f_equal. replace (Z.to_nat n - length (xf_buf c))%nat with O by lia. done.
Qed.
Lemma trailers_unread fuel c c' : trailers_loop fuel c = (c', mret ()) → unread c' `suffix_of` unread c.
Proof.
  revert c. induction fuel as [|fuel IH]; intros c; [done|]. cbn [trailers_loop]. intros Hr.
  run_step Hr line El. apply read_line_unread in El. run_step Hr u Ew. destruct u. apply x_write_unread in Ew. rewrite <- Ew in El.
  case_decide; [by injection Hr as <-|]. apply IH in Hr. by etrans.
Qed.
Lemma u64_add_nonneg {E} checks a b n : u64_add (E:=E) checks a b = Ret n → 0 ≤ n.
Proof. unfold u64_add, u64_arith. case_decide; [|destruct checks]; intros [= <-]; [lia|]. unfold as_u64. apply Z.mod_pos_bound. lia. Qed.
Lemma chunks_unread checks fuel c c' : chunks_loop checks fuel c = (c', mret ()) → unread c' `suffix_of` unread c.
Proof.
  revert c. induction fuel as [|fuel IH]; intros c; [done|]. cbn [chunks_loop]. intros Hr.
  run_step Hr line El. apply read_line_unread in El. run_step Hr u Ew. destruct u. apply x_write_unread in Ew. rewrite <- Ew in El.
  run_step Hr z0 Es. unfold lift in Es. destruct (chunk_size line) as [z| |]; try done. injection Es as <- <-.
  case_decide; [apply trailers_unread in Hr; by etrans|]. run_step Hr n En. unfold lift in En.
  destruct (u64_add checks z 2) as [n'| |] eqn:Ea; try done. injection En as <- <-. apply u64_add_nonneg in Ea.
  run_step Hr v Ex. destruct v. apply transfer_exact_unread in Ex; [|done]. apply IH in Hr. etrans; [exact Hr|]. rewrite Ex.
  etrans; [apply suffix_drop|exact El].
Qed.

(** What is left of the client's stream after a body of each kind. *)
Definition after_body (kind : BodyKind) (d d' : bytes) : Prop :=
  match kind with
  | BodyNone => d' = d
  | ContentLength n => d' = drop (Z.to_nat n) d
  | Chunked | UntilEof => d' `suffix_of` d
  end.
Lemma request_kind_ok hs kind : request_body_kind hs = Ret kind → match kind with ContentLength n => 0 ≤ n | UntilEof => False | _ => True end.
Proof.
  unfold request_body_kind. case_match; [by intros [= <-]|]. case_match; [done|]. case_match; [|by intros [= <-]].
  intros (n & Hn & [= <-])%bind_Ret_inv. case_decide; [done|]. unfold parse_u64 in Hn.
  destruct (parse_uint _ _) as [m|] eqn:E; [|done]. injection Hn as <-. by apply parse_uint_range in E as [? _].
Qed.
Lemma transfer_body_unread checks hs kind c c' :
  request_body_kind hs = Ret kind → transfer_body checks kind c = (c', mret ()) → after_body kind (unread c) (unread c').
Proof.
  intros Hk%request_kind_ok. destruct kind as [|n| |]; cbn [transfer_body after_body]; [by intros [= <-]| | |done].
  - by apply transfer_exact_unread.
  - apply chunks_unread.
Qed.

(** ** Who opens a stream *)

Section opened.
Context (tcp : nat → bytes → outcome bytes (source * wsink)).
Context (b64_standard b64_url : bytes → option bytes) (canonical_reason : Z → option bytes) (checks : bool).

(** What of the client's stream no request or body has taken. *)
Definition client_unread (p : proxy) : bytes := px_buffer p ++ so_data (px_client p).

(** The stream a request is entitled to. *)
Definition target_of (request : HttpRequestHead) (addr : bytes) : Prop :=
  if eq_ignore_ascii_case (hq_method request) (str "CONNECT") then authority_to_addr (hq_target request) = Ret addr
  else ∃ path host, parse_proxy_target (hq_target request) (hq_headers request) = Ret (addr, path, host).
(** The credentials a request carries, if any are asked for, are the ones of [auth]. *)
Definition carries (auth : option HttpAuth) (request : HttpRequestHead) : Prop :=
  ∀ a, auth = Some a → proxy_credentials b64_standard b64_url (hq_headers request) = Some (ha_username a, ha_password a).
(** [request] is the first one of [d], and [rest] comes after its head. *)
Definition leading_request (d : bytes) (request : HttpRequestHead) (rest : bytes) : Prop :=
  ∃ head, d = head ++ CRLF ++ CRLF ++ rest ∧ find_header_end d = Some (length head) ∧ parse_request_head head = Ret request.

(** The streams that serving a client may open when it sends [d]: one for each
    request, in order, every one of which carries the credentials. The first
    request is at the front of [d], and the next one after its body. *)
Inductive entitled (auth : option HttpAuth) : bytes → list bytes → Prop :=
| entitled_none d : entitled auth d []
| entitled_last d request rest addr :
    leading_request d request rest → carries auth request → target_of request addr → entitled auth d [addr]
| entitled_next d request rest addr kind d' more :
    leading_request d request rest → carries auth request → target_of request addr →
    request_body_kind (hq_headers request) = Ret kind → after_body kind rest d' →
    entitled auth d' more → entitled auth d (addr :: more).

Lemma responses_keeps fuel request keep : keeps_addrs (responses_loop canonical_reason checks fuel request keep).
Proof.
  induction fuel as [|fuel IH]; [done|]. cbn [responses_loop]. unfold send_status. keeps.
Qed.

(** A task that opens a stream of [P] at most. *)
Definition opens_for {A} (P : bytes → Prop) (t : task proxy A) : Prop :=
  ∀ p, addrs (fst (t p)) = addrs p ∨ ∃ addr, addrs (fst (t p)) = addr :: addrs p ∧ P addr.

Lemma opens_keeps {A} P (t : task proxy A) : keeps_addrs t → opens_for P t.
Proof. intros H p. by left. Qed.
Lemma opens_lift {A B} P (o : outcome bytes A) (f : A → task proxy B) :
  (∀ a, o = Ret a → opens_for P (f a)) → opens_for P (lift o ≫= f).
Proof. intros H p. unfold mbind, task_bind, lift. destruct o; [by apply H|by left|by left]. Qed.
Lemma opens_then {A B} P (m : task proxy A) (f : A → task proxy B) :
  opens_for P m → (∀ a, keeps_addrs (f a)) → opens_for P (m ≫= f).
Proof.
  intros Hm Hf p. specialize (Hm p). unfold mbind, task_bind.
  destruct (m p) as [p' [[a| |]|]]; cbn in *; try exact Hm. pose proof (Hf a p') as E.
  destruct Hm as [Hm|(addr & Hm & ?)]; [left|right; exists addr; split]; congruence.
Qed.
Lemma opens_open (P : bytes → Prop) addr : P addr → opens_for P (open_remote tcp addr).
Proof.
  intros H p. unfold open_remote. destruct (tcp _ _) as [[s w]| |]; [right|by left|by left]. by exists addr.
Qed.
Lemma handle_connect_opens request : opens_for (fun addr => authority_to_addr (hq_target request) = Ret addr) (handle_connect tcp request).
Proof.
  unfold handle_connect. apply opens_lift. intros addr Ha. apply opens_then; [by apply opens_open|].
  intros o. unfold send_status. keeps.
Qed.
Lemma handle_http_request_opens request kind keep :
  opens_for (fun addr => ∃ path host, parse_proxy_target (hq_target request) (hq_headers request) = Ret (addr, path, host))
    (handle_http_request tcp canonical_reason checks request kind keep).
Proof.
  unfold handle_http_request. apply opens_lift. intros [[addr path] host] Ha.
  apply opens_then; [apply opens_open; eauto|]. intros o. unfold send_status. keeps.
  intros p. apply responses_keeps.
Qed.

(** A turn that got as far as its request. *)
Lemma upstream_unread {A} (t : task xfer A) p p' r :
  upstream t p = (p', r) → ∃ w c, t (mkXfer (px_client p) (px_buffer p) w) = (c, r) ∧ client_unread p' = unread c.
Proof.
  unfold upstream. destruct (default _ _) as [addr w]. destruct (t _) as [c r'] eqn:E. intros [= <- <-]. by exists w, c.
Qed.
Lemma turn_request p p1 request :
  upstream read_http_request p = (p1, mret (Some request)) → leading_request (client_unread p) request (client_unread p1).
Proof.
  intros (w & c & Hr & ->)%upstream_unread. apply read_request_unread in Hr as (head & ? & ? & ?). by exists head.
Qed.
Lemma authorized_carries auth request :
  match auth with Some a => negb (proxy_authorized b64_standard b64_url (hq_headers request) a) | None => false end = false →
  carries auth request.
Proof.
  intros Ha a ->. unfold proxy_authorized in Ha. destruct (proxy_credentials _ _ _) as [[u w]|]; [|done].
  apply negb_false_iff, andb_true_iff in Ha as [->%bool_decide_eq_true ->%bool_decide_eq_true]. done.
Qed.

(** Whatever a turn does, it opens a stream for its own request at most. *)
Lemma handle_turn_opens auth p :
  let p' := fst (handle_turn tcp b64_standard b64_url canonical_reason checks auth p) in
  addrs p' = addrs p ∨
  ∃ addr request rest, addrs p' = addr :: addrs p ∧ leading_request (client_unread p) request rest ∧ carries auth request ∧ target_of request addr.
Proof.
  cbn zeta. destruct (handle_turn _ _ _ _ _ _ _) as [p' r] eqn:E. cbn [fst]. unfold handle_turn, mbind at 1, task_bind at 1 in E.
  pose proof (keeps_upstream read_http_request p) as Hk.
  destruct (upstream read_http_request p) as [p1 [[[request|]| |]|]] eqn:Hu; cbn [fst] in Hk; try (injection E as <- _; by left).
  apply turn_request in Hu. rewrite <- Hk.
  destruct (match auth with Some a => negb (proxy_authorized b64_standard b64_url (hq_headers request) a) | None => false end) eqn:Ha.
  { left. change p' with (fst (p', r)). rewrite <- E. apply (keeps_bind (reply _)); auto with addrs. }
  apply authorized_carries in Ha. set (t := if eq_ignore_ascii_case _ _ then _ else _) in E.
  assert (opens_for (target_of request) t) as Ht.
  { unfold t, target_of. destruct (eq_ignore_ascii_case _ _); [apply handle_connect_opens|].
    apply opens_lift. intros kind _. apply opens_then; [apply handle_http_request_opens|auto with addrs]. }
  change p' with (fst (p', r)). rewrite <- E. destruct (Ht p1) as [?|(addr & ? & ?)]; [by left|right; exists addr, request; eauto].
Qed.

Lemma keeps_run {A} (t : task proxy A) p p' r : keeps_addrs t → t p = (p', r) → addrs p' = addrs p.
Proof. intros Hk E. specialize (Hk p). by rewrite E in Hk. Qed.
(** A turn after which there is another one has taken its request and the body. *)
Lemma downstream_client {A} (t : task xfer A) p p' r : downstream t p = (p', r) → client_unread p' = client_unread p.
Proof. unfold downstream. destruct (t _). by intros [= <- <-]. Qed.
Lemma responses_client fuel request keep p p' b :
  responses_loop canonical_reason checks fuel request keep p = (p', mret b) → client_unread p' = client_unread p.
Proof.
  revert p. induction fuel as [|fuel IH]; intros p; [done|]. cbn [responses_loop]. intros Hr.
  run_step Hr o E. apply downstream_client in E as <-. destruct o as [response|]; [|by apply task_Ret_inv in Hr as (? & ? & _ & ?)].
  run_step Hr kind E. unfold lift in E. destruct (response_body_kind _ _ _); try done. injection E as <- <-.
  run_step Hr u E. apply downstream_client in E as <-. run_step Hr v E. apply downstream_client in E as <-.
  case_match; [by apply IH|]. by injection Hr as <-.
Qed.
Lemma http_request_goes_on request kind keep p p' b :
  request_body_kind (hq_headers request) = Ret kind →
  handle_http_request tcp canonical_reason checks request kind keep p = (p', mret b) →
  (∃ addr path host, parse_proxy_target (hq_target request) (hq_headers request) = Ret (addr, path, host) ∧ addrs p' = addr :: addrs p) ∧
  after_body kind (client_unread p) (client_unread p').
Proof.
  intros Hk. unfold handle_http_request. intros Hr. run_step Hr t E. unfold lift in E.
  destruct (parse_proxy_target _ _) as [[[addr path] host]| |]; try done. injection E as <- <-.
  run_step Hr o E. unfold open_remote in E. destruct (tcp _ _) as [[s w]|e|]; try done; injection E as <- <-; [|by apply task_Ret_inv in Hr as (? & ? & _ & ?)].
  run_step Hr u Ew. pose proof (keeps_run _ _ _ _ (keeps_upstream _) Ew) as Hk1.
  apply upstream_unread in Ew as (w1 & c1 & Ew & Hu1). destruct u. apply x_write_unread in Ew.
  run_step Hr v Eb. pose proof (keeps_run _ _ _ _ (keeps_upstream _) Eb) as Hk2.
  apply upstream_unread in Eb as (w2 & c2 & Eb & Hu2). destruct v. apply (transfer_body_unread _ _ _ _ _ Hk) in Eb.
  run_step Hr x Es. pose proof (keeps_run _ _ _ _ keeps_shutdown Es) as Hk3. unfold shutdown_remote in Es. injection Es as <- _.
  pose proof (keeps_run _ _ _ _ (responses_keeps _ request keep) Hr) as Hk4. apply responses_client in Hr. split.
  - exists addr, path, host. split; [done|]. by rewrite Hk4, Hk3, Hk2, Hk1.
  - rewrite Hr. change (client_unread (mkProxy _ _ _ _ _ _)) with (client_unread c0). rewrite Hu2.
    change (unread (mkXfer (px_client c) (px_buffer c) w2)) with (client_unread c) in Eb. rewrite Hu1, Ew in Eb. exact Eb.
Qed.

Lemma handle_turn_goes_on auth p p' :
  handle_turn tcp b64_standard b64_url canonical_reason checks auth p = (p', mret NextRequest) →
  ∃ request rest addr kind, leading_request (client_unread p) request rest ∧ carries auth request ∧ target_of request addr ∧
    request_body_kind (hq_headers request) = Ret kind ∧ after_body kind rest (client_unread p') ∧ addrs p' = addr :: addrs p.
Proof.
  unfold handle_turn. intros Hr. run_step Hr o Eo. pose proof (keeps_run _ _ _ _ (keeps_upstream _) Eo) as Hk1. destruct o as [request|]; [|done].
  apply turn_request in Eo. destruct (match auth with Some _ => _ | None => _ end) eqn:Ha.
  { by apply task_Ret_inv in Hr as (? & ? & _ & ?). }
  apply authorized_carries in Ha. destruct (eq_ignore_ascii_case _ _) eqn:Hc.
  { exfalso. unfold handle_connect in Hr. apply task_Ret_inv in Hr as (? & ? & _ & Hr). apply task_Ret_inv in Hr as (? & [] & _ & Hr); try done.
    - do 2 apply task_Ret_inv in Hr as (? & ? & _ & Hr). done.
    - by apply task_Ret_inv in Hr as (? & ? & _ & Hr). }
  run_step Hr kind Ek. unfold lift in Ek. destruct (request_body_kind _) as [k| |] eqn:Hk; try done. injection Ek as <- <-.
  run_step Hr keep Eh. apply (http_request_goes_on _ _ _ _ _ _ Hk) in Eh as ((addr & path & host & Ht & Hadd) & Hb).
  destruct keep; [|done]. injection Hr as <-. exists request, (client_unread c), addr, k. split_and!; try done.
  - unfold target_of. rewrite Hc. eauto.
  - by rewrite Hadd, Hk1.
Qed.

Lemma connection_loop_opens fuel auth p :
  ∃ new, addrs (fst (connection_loop tcp b64_standard b64_url canonical_reason checks fuel auth p)) = reverse new ++ addrs p ∧
    entitled auth (client_unread p) new.
Proof.
  revert p. induction fuel as [|fuel IH]; intros p; [exists []; split; [done|constructor]|]. cbn [connection_loop].
  unfold mbind at 1, task_bind at 1. pose proof (handle_turn_opens auth p) as Ht. pose proof (handle_turn_goes_on auth p) as Hg.
  destruct (handle_turn _ _ _ _ _ _ p) as [p1 r]. cbn zeta in Ht. cbn [fst] in Ht.
  assert (∃ new, addrs p1 = reverse new ++ addrs p ∧ entitled auth (client_unread p) new) as Hstop.
  { destruct Ht as [->|(addr & request & rest & -> & ? & ? & ?)]; [exists []; split; [done|constructor]|].
    exists [addr]. split; [done|]. by econstructor. }
  destruct r as [[[| |]| |]|]; try exact Hstop.
  destruct (Hg p1 eq_refl) as (request & rest & addr & kind & H1 & H2 & H3 & H4 & H5 & H6). destruct (IH p1) as (new & Ha & He).
  exists (addr :: new). rewrite Ha, H6, reverse_cons, <- app_assoc. split; [done|]. by econstructor.
Qed.
End opened.

(** C14: proxy authentication. The streams that serving an HTTP connection
    opens, whatever the client and the remotes send and however often the
    connection is kept alive, are the targets of requests of the client's own
    stream, one stream for each request, in order: the first request is the head
    at the front of what the client sent, and each other one is the head after
    the body of the one before it. If both a user name and a password are
    configured, every one of these requests carries exactly them in its
    Proxy-Authorization header, not only the first one of a connection. *)
Theorem http_auth_gate tcp b64_standard b64_url canonical_reason checks username password realm p :
  px_opened p = [] →
  let auth := configured_http_auth username password realm in
  let p' := fst (handle_connection tcp b64_standard b64_url canonical_reason checks auth p) in
  entitled b64_standard b64_url auth (px_buffer p ++ so_data (px_client p)) (reverse (map fst (px_opened p'))) ∧
  (username ≠ [] → password ≠ [] → ∃ a, auth = Some a ∧ ha_username a = username ∧ ha_password a = password).
Proof.
  intros Hp auth p'. split.
  - destruct (connection_loop_opens tcp b64_standard b64_url canonical_reason checks
      (S (length (px_buffer p) + length (so_data (px_client p)))) auth p) as (new & Ha & He).
    unfold addrs in Ha. rewrite Hp, app_nil_r in Ha. unfold p', handle_connection. rewrite Ha, reverse_involutive. exact He.
  - intros Hu Hw. unfold auth, configured_http_auth. rewrite decide_True by done. by eexists.
Qed.

(** Two requests on one connection, the second without the credentials. *)
Definition example_second : bytes := str "GET http://c.d/ HTTP/1.1" ++ CRLF ++ CRLF.
Lemma http_auth_gate_witness :
  let p := fst (example_run (configured_http_auth (str "u") (str "p") []) [example_request; example_second]) in
  map fst (px_opened p) = [str "a.b:80"] ∧
  entitled example_b64 (fun _ => None) (configured_http_auth (str "u") (str "p") []) (example_request ++ example_second) [str "a.b:80"].
Proof.
  split; [vm_compute; reflexivity|].
  refine (proj1 (http_auth_gate (fun _ _ => Ret (mkSource [example_reply] AtEof, fresh_sink)) example_b64 (fun _ => None)
    (fun _ => None) true (str "u") (str "p") []
    (mkProxy (mkSource [example_request; example_second] AtEof) [] fresh_sink [] (mkSource [] AtEof) []) eq_refl)).
Defined.
