(* ===== verification/Quic.v ===== *)
(** * QUIC transport configuration ([core/src/quic.rs])

    The transport parameters of both ends and the translation into the QUIC
    library's configuration: the values the code sets are the fields of
    [TransportConfig]. Environment variables are a function. The overrides that
    are 32-bit floating-point numbers are parsed as [f32::from_str] does. *)
From S2P Require Import Prelude Errors Varint RustStr Float Limit.
Local Open Scope Z_scope.

Definition DEFAULT_STREAM_RECEIVE_WINDOW : Z := 8 * 1024 * 1024.
Definition DEFAULT_CONNECTION_RECEIVE_WINDOW : Z := DEFAULT_STREAM_RECEIVE_WINDOW * 5 / 2.
Definition DEFAULT_MAX_IDLE_TIMEOUT : Z := 30 * NANOS_PER_SEC.
Definition DEFAULT_KEEP_ALIVE_PERIOD : Z := 10 * NANOS_PER_SEC.
Definition DEFAULT_MAX_INCOMING_STREAMS : Z := 1024.
Definition MIN_QUIC_RECEIVE_WINDOW : Z := 16 * 1024.
Definition NANOS_PER_MILLI : Z := 1000000.

Record QuicTransportConfig := mkQuic {
  stream_receive_window : Z;
  receive_window : Z;
  max_idle_timeout : Z;
  keep_alive_interval : option Z;
  max_concurrent_bidi_streams : option Z;
  disable_path_mtu_discovery : bool
}.

Definition client_default : QuicTransportConfig :=
  mkQuic DEFAULT_STREAM_RECEIVE_WINDOW DEFAULT_CONNECTION_RECEIVE_WINDOW DEFAULT_MAX_IDLE_TIMEOUT
    (Some DEFAULT_KEEP_ALIVE_PERIOD) None false.
Definition server_default : QuicTransportConfig :=
  mkQuic DEFAULT_STREAM_RECEIVE_WINDOW DEFAULT_CONNECTION_RECEIVE_WINDOW DEFAULT_MAX_IDLE_TIMEOUT
    None (Some DEFAULT_MAX_INCOMING_STREAMS) false.

(** ** 32-bit floating-point numbers *)

Inductive f32 := F32NaN | F32Inf (negative : bool) | F32Finite (negative : bool) (magnitude : Q).

(** [n / d] rounded to 24 bits, ties to even; infinite from [2^128] on. *)
Definition f32_round (negative : bool) (n d : Z) : f32 :=
  if decide (n = 0) then F32Finite negative 0
  else
    let e := Z.max (floor_log2 n d - 23) (-149) in
    let q := round_half_even (n * 2 ^ Z.max 0 (- e)) (d * 2 ^ Z.max 0 e) in
    let m := Qred (Qmake (q * 2 ^ Z.max 0 e) (Z.to_pos (2 ^ Z.max 0 (- e)))) in
    if Qle_bool (inject_Z (2 ^ 128)) m then F32Inf negative else F32Finite negative m.

(** The value of a run of digits after [acc], and what follows it. *)
Fixpoint span_digits (acc : Z) (s : bytes) : Z * bytes :=
  match s with
  | b :: s' => if is_digit b then span_digits (acc * 10 + (b - 48)) s' else (acc, s)
  | [] => (acc, [])
  end.
Definition parse_sign (s : bytes) : bool * bytes :=
  match s with
  | 43 :: s' => (false, s')
  | 45 :: s' => (true, s')
  | _ => (false, s)
  end.

(** The optional exponent that ends a number. *)
Definition parse_exponent (s : bytes) : option Z :=
  match s with
  | [] => Some 0
  | b :: s =>
      if decide (ascii_lower b = 101) then
        let '(negative, ds) := parse_sign s in
        let '(v, rest) := span_digits 0 ds in
        if decide (ds ≠ [] ∧ rest = []) then Some (if negative then - v else v) else None
      else None
  end.

(** [f32::from_str]: a sign, then [inf], [infinity], [nan] in any case, or
    digits with a point and an exponent; a digit is needed on one side of the
    point. *)
Definition parse_f32 (s : bytes) : option f32 :=
  let '(negative, body) := parse_sign s in
  let word := to_ascii_lowercase body in
  if decide (word = str "nan") then Some F32NaN
  else if decide (word = str "inf" ∨ word = str "infinity") then Some (F32Inf negative)
  else
    let '(int, rest) := span_digits 0 body in
    let int_len := len body - len rest in
    let '(mantissa, frac_len, rest) :=
      match rest with
      | 46 :: frac => let '(m, rest) := span_digits int frac in (m, len frac - len rest, rest)
      | _ => (int, 0, rest)
      end in
    if decide (int_len + frac_len = 0) then None
    else
      e ← parse_exponent rest;
      let e := e - frac_len in
      Some (f32_round negative (mantissa * 10 ^ Z.max 0 e) (10 ^ Z.max 0 (- e))).

(** [x.max(1.0)], which is 1.0 for a NaN. *)
Definition f32_max_one (x : f32) : f32 :=
  match x with
  | F32Inf false => x
  | F32Finite false m => if Qle_bool 1 m then x else F32Finite false 1
  | _ => F32Finite false 1
  end.

(** The environment. *)
Section env.
Context (env : bytes → option bytes).

Definition env_u64 (name : bytes) : option Z := value ← env name; parse_u64 value.
Definition env_f32 (name : bytes) : option f32 := value ← env name; parse_f32 value.
Definition env_bool (name : bytes) : option bool :=
  value ← env name;
  let v := to_ascii_lowercase (trim value) in
  if decide (v ∈ [str "1"; str "true"; str "yes"; str "on"]) then Some true
  else if decide (v ∈ [str "0"; str "false"; str "no"; str "off"]) then Some false
  else None.

(** The acknowledgement frequency: the overrides of the library's values. *)
Record AckFrequency := mkAck {
  ack_eliciting_threshold : option Z;
  max_ack_delay : option Z;
  reordering_threshold : option Z
}.
Definition ack_frequency_override : option AckFrequency :=
  if negb (default false (env_bool (str "HY_RS_ACK_ENABLE"))) then None
  else Some (mkAck
    ((fun value => Z.min value u32_max) <$> env_u64 (str "HY_RS_ACK_THRESH"))
    ((fun value => value * NANOS_PER_MILLI) <$> env_u64 (str "HY_RS_ACK_MAX_DELAY_MS"))
    ((fun value => Z.min value u32_max) <$> env_u64 (str "HY_RS_ACK_REORDER_THRESHOLD"))).

(** The congestion controller: the shared bandwidth target, which the
    controller reads ([T] stands for the cell), and the fallback's settings. *)
Record BbrOverrides := mkBbr {
  initial_window : Z;
  startup_growth_target : f32;
  startup_rounds_without_growth_before_exit : Z;
  exit_startup_on_recovery : bool;
  recover_on_non_persistent_loss : bool;
  non_persistent_loss_reduction_factor : f32
}.
Record BrutalConfig (T : Type) := mkBrutal { bandwidth_target : T; fallback_config : BbrOverrides }.
#[global] Arguments mkBrutal {T}.
#[global] Arguments bandwidth_target {T}.
#[global] Arguments fallback_config {T}.
Definition clamp (lo hi v : Z) : Z := Z.max lo (Z.min hi v).
Definition build_brutal_config {T} (checks : bool) (target : T) : outcome CoreError (BrutalConfig T) :=
  initial_window ←
    match env_u64 (str "HY_RS_BBR_INITIAL_WINDOW") with
    | Some value => Ret value
    | None =>
        match env_u64 (str "HY_RS_BBR_INITIAL_WINDOW_PKTS") with
        | Some value => u64_mul checks value 1200
        | None => Ret (512 * 1200)
        end
    end;
  Ret (mkBrutal target (mkBbr initial_window
    (default (F32Finite false (5 # 4)) (env_f32 (str "HY_RS_BBR_STARTUP_GROWTH")))
    (as_u8 (clamp 1 u8_max (default 6 (env_u64 (str "HY_RS_BBR_STARTUP_ROUNDS")))))
    (default false (env_bool (str "HY_RS_BBR_EXIT_ON_RECOVERY")))
    (default false (env_bool (str "HY_RS_BBR_RECOVER_NON_PERSISTENT")))
    (default (F32Finite false (1 # 4)) (env_f32 (str "HY_RS_BBR_NON_PERSISTENT_LOSS_FACTOR"))))).

(** What is set on the library's configuration. *)
Record TransportConfig (T : Type) := mkTransport {
  tc_stream_receive_window : Z;
  tc_receive_window : Z;
  tc_send_window : Z;
  tc_ack_frequency : option AckFrequency;
  tc_initial_rtt : Z;
  tc_persistent_congestion_threshold : Z;
  tc_max_idle_timeout : Z;
  tc_keep_alive_interval : option Z;
  tc_congestion : BrutalConfig T;
  tc_packet_threshold : option Z;
  tc_time_threshold : option f32;
  tc_segmentation_offload : option bool;
  tc_max_concurrent_bidi_streams : option Z;
  tc_mtu_discovery_disabled : bool
}.
#[global] Arguments mkTransport {T}.

(** [VarInt::try_from] takes up to 62 bits. *)
Definition varint (value : Z) (field : bytes) : outcome CoreError Z :=
  if decide (value ≤ MAX_VARINT) then Ret value
  else Err (Config (field ++ str " is too large for QUIC varint")).
(** [IdleTimeout::try_from] takes a number of milliseconds of 62 bits. *)
Definition idle_timeout (value : Z) : outcome CoreError Z :=
  if decide (value / NANOS_PER_MILLI ≤ MAX_VARINT) then Ret (value / NANOS_PER_MILLI)
  else Err (Config (str "quic.max_idle_timeout is too large")).

Definition build_transport_config {T} (checks : bool) (config : QuicTransportConfig) (target : T)
    : outcome CoreError (TransportConfig T) :=
  if decide (stream_receive_window config < MIN_QUIC_RECEIVE_WINDOW) then
    Err (Config (str "quic.stream_receive_window must be at least 16384"))
  else if decide (receive_window config < MIN_QUIC_RECEIVE_WINDOW) then
    Err (Config (str "quic.receive_window must be at least 16384"))
  else
    stream ← varint (stream_receive_window config) (str "quic.stream_receive_window");
    recv ← varint (receive_window config) (str "quic.receive_window");
    let send_window := Z.max (receive_window config) (sat_mul (stream_receive_window config) 8) in
    idle ← idle_timeout (max_idle_timeout config);
    congestion ← build_brutal_config checks target;
    bidi ← match max_concurrent_bidi_streams config with
           | Some n => n ← varint n (str "quic.max_concurrent_bidi_streams"); Ret (Some n)
           | None => Ret None
           end;
    Ret (mkTransport stream recv send_window ack_frequency_override (250 * NANOS_PER_MILLI)
      (match env_u64 (str "HY_RS_PERSISTENT_CONGESTION_THRESHOLD") with
       | Some value => as_u32 (clamp 1 u32_max value)
       | None => 5
       end)
      idle (keep_alive_interval config) congestion
      ((fun value => as_u32 (clamp 3 u32_max value)) <$> env_u64 (str "HY_RS_PACKET_THRESHOLD"))
      (f32_max_one <$> env_f32 (str "HY_RS_TIME_THRESHOLD"))
      (negb <$> env_bool (str "HY_RS_DISABLE_GSO"))
      bidi (disable_path_mtu_discovery config)).
End env.

Example parse_f32_examples :
  map parse_f32 (map str ["1.5"; "-.25e1"; "3."; "."; "1e"; "+Inf"; "16777217"; "3.5e38"; "1_0"])
  = [Some (F32Finite false (3 # 2)); Some (F32Finite true (5 # 2)); Some (F32Finite false (3 # 1)); None; None;
     Some (F32Inf false); Some (F32Finite false (16777216 # 1)); Some (F32Inf false); None].
Proof. vm_compute. reflexivity. Qed.

(** What makes a configuration acceptable to [build_transport_config]. *)
Definition transport_ok (config : QuicTransportConfig) : Prop :=
  MIN_QUIC_RECEIVE_WINDOW ≤ stream_receive_window config ≤ MAX_VARINT ∧
  MIN_QUIC_RECEIVE_WINDOW ≤ receive_window config ≤ MAX_VARINT ∧
  max_idle_timeout config / NANOS_PER_MILLI ≤ MAX_VARINT ∧
  match max_concurrent_bidi_streams config with Some n => n ≤ MAX_VARINT | None => True end.

(** In a release build the translation succeeds exactly on those. *)
Lemma build_transport_config_accepts {T} env config (target : T) :
  (∃ t, build_transport_config env false config target = Ret t) ↔ transport_ok config.
Proof.
  assert (∃ b, build_brutal_config env false target = Ret b) as [b Hb].
  { unfold build_brutal_config. destruct (env_u64 env (str "HY_RS_BBR_INITIAL_WINDOW")); [by eexists|].
    destruct (env_u64 env (str "HY_RS_BBR_INITIAL_WINDOW_PKTS")) as [v|]; [|by eexists].
    unfold u64_mul, u64_arith. case_decide; by eexists. }
  unfold build_transport_config, transport_ok, varint, idle_timeout.
  destruct (decide (stream_receive_window config < MIN_QUIC_RECEIVE_WINDOW)); [split; [by intros [? ?]|lia]|].
  destruct (decide (receive_window config < MIN_QUIC_RECEIVE_WINDOW)); [split; [by intros [? ?]|lia]|].
  destruct (decide (stream_receive_window config ≤ MAX_VARINT)); cbn [mbind outcome_bind]; [|split; [by intros [? ?]|lia]].
  destruct (decide (receive_window config ≤ MAX_VARINT)); cbn [mbind outcome_bind]; [|split; [by intros [? ?]|lia]].
  destruct (decide (max_idle_timeout config / NANOS_PER_MILLI ≤ MAX_VARINT)); cbn [mbind outcome_bind]; [|split; [by intros [? ?]|lia]].
  rewrite Hb. cbn [mbind outcome_bind]. destruct (max_concurrent_bidi_streams config) as [n'|]; cbn [mbind outcome_bind].
  - case_decide; cbn [mbind outcome_bind]; (split; [intros [? ?]|intros ?]); try done; [split_and!; lia|by eexists|lia].
  - split; [intros _; split_and!; lia|by eexists].
Qed.
