(* ===== verification/Config.v ===== *)
(** * Configuration of the command-line program ([app/src/config.rs])

    The configuration files as records, their validation, and the translation
    into the configurations of the core. Durations are nanoseconds. An error
    is the text of the outermost context of the [anyhow] error. URL parsing,
    name resolution and the reading of certificate files are arguments. *)
From S2P Require Import Prelude Errors RustStr Limit Obfs ObfsSocket Server Net Quic.
Local Open Scope Z_scope.

Definition WIREGUARD_FORWARD_DEFAULT_TIMEOUT : Z := 300 * NANOS_PER_SEC.
Definition WIREGUARD_FORWARD_DEFAULT_SOCKET_BUFFER : Z := 8 * 1024 * 1024.
Definition WIREGUARD_FORWARD_DEFAULT_CHANNEL_DEPTH : Z := 4096.
Definition WIREGUARD_FORWARD_DEFAULT_MTU : Z := 1280.

(** [.context(..)]. *)
Definition context {A} (m : outcome bytes A) (text : bytes) : outcome bytes A := map_err (fun _ => text) m.
(** [if cond { bail!(..) }]. *)
Definition reject (cond : bool) (text : bytes) : outcome bytes unit := if cond then Err text else Ret ().
(** [s.trim().is_empty()] and [s.trim().to_ascii_lowercase()]. *)
Definition blank (s : bytes) : bool := bool_decide (trim s = []).
Definition keyword (s : bytes) : bytes := to_ascii_lowercase (trim s).

(** ** The files *)

Record BandwidthConfig := mkBandwidth { bw_up : bytes; bw_down : bytes }.
Record ObfsSection := mkObfs { ob_type : bytes; ob_salamander_password : bytes }.
Record ClientTlsConfig := mkClientTls {
  tl_sni : bytes; tl_insecure : bool; tl_pin_sha256 : bytes; tl_ca : bytes;
  tl_client_certificate : bytes; tl_client_key : bytes
}.
Record ClientTransportUdpConfig := mkTransportUdp { tp_hop_interval : Z }.
Record ClientTransportConfig := mkClientTransport { tp_type : bytes; tp_udp : ClientTransportUdpConfig }.
Record ClientQuicSockoptsConfig := mkSockopts {
  so_bind_interface : option bytes; so_firewall_mark : option Z; so_fd_control_unix_socket : option bytes
}.
Record ClientQuicConfig := mkClientQuic {
  cq_init_stream_receive_window : Z; cq_max_stream_receive_window : Z;
  cq_init_connection_receive_window : Z; cq_max_connection_receive_window : Z;
  cq_max_idle_timeout : Z; cq_keep_alive_period : Z; cq_disable_path_mtu_discovery : bool;
  cq_sockopts : ClientQuicSockoptsConfig
}.
Record Socks5Config := mkSocks5Config {
  s5_listen : bytes; s5_username : bytes; s5_password : bytes; s5_disable_udp : bool
}.
Record HttpConfig := mkHttpConfig {
  ht_listen : bytes; ht_username : bytes; ht_password : bytes; ht_realm : bytes
}.
Record TcpForwardingEntry := mkTcpForwarding { tf_listen : bytes; tf_remote : bytes }.
Record UdpForwardingEntry := mkUdpForwarding {
  uf_listen : bytes; uf_remote : bytes; uf_timeout : Z; uf_socket_receive_buffer : Z;
  uf_socket_send_buffer : Z; uf_channel_depth : Z; uf_wireguard_mtu : option Z
}.
Record WireGuardForwardingEntry := mkWireGuard {
  wg_listen : bytes; wg_remote : bytes; wg_mtu : Z; wg_timeout : Z;
  wg_socket_receive_buffer : Z; wg_socket_send_buffer : Z; wg_channel_depth : Z
}.
Record TcpTProxyConfig := mkTcpTProxy { tt_listen : bytes }.
Record UdpTProxyConfig := mkUdpTProxy { ut_listen : bytes; ut_timeout : Z }.
Record TcpRedirectConfig := mkTcpRedirect { tr_listen : bytes }.
Record TunAddressConfig := mkTunAddress { tn_ipv4 : bytes; tn_ipv6 : bytes }.
Record TunRouteConfig := mkTunRoute {
  rt_strict : bool; rt_ipv4 : list bytes; rt_ipv6 : list bytes; rt_ipv4_exclude : list bytes; rt_ipv6_exclude : list bytes
}.
Record TunConfig := mkTun {
  tu_name : bytes; tu_mtu : Z; tu_timeout : Z; tu_address : TunAddressConfig; tu_route : option TunRouteConfig
}.

Record ClientConfig := mkClient {
  cf_server : bytes;
  cf_auth : bytes;
  cf_transport : ClientTransportConfig;
  cf_obfs : ObfsSection;
  cf_tls : ClientTlsConfig;
  cf_quic : ClientQuicConfig;
  cf_bandwidth : BandwidthConfig;
  cf_fast_open : bool;
  cf_lazy : bool;
  cf_socks5 : option Socks5Config;
  cf_http : option HttpConfig;
  cf_tcp_forwarding : list TcpForwardingEntry;
  cf_udp_forwarding : list UdpForwardingEntry;
  cf_wireguard_forwarding : list WireGuardForwardingEntry;
  cf_tcp_tproxy : option TcpTProxyConfig;
  cf_udp_tproxy : option UdpTProxyConfig;
  cf_tcp_redirect : option TcpRedirectConfig;
  cf_tun : option TunConfig
}.
Definition obfs_default : ObfsSection := mkObfs [] [].
Definition client_tls_default : ClientTlsConfig := mkClientTls [] false [] [] [] [].
Definition transport_default : ClientTransportConfig := mkClientTransport [] (mkTransportUdp 0).
Definition client_quic_default : ClientQuicConfig := mkClientQuic 0 0 0 0 0 0 false (mkSockopts None None None).
Definition bandwidth_default : BandwidthConfig := mkBandwidth [] [].
(** [ClientConfig::default()] with a server. *)
Definition client_config_for (server : bytes) : ClientConfig :=
  mkClient server [] transport_default obfs_default client_tls_default client_quic_default bandwidth_default false false
    None None [] [] [] None None None None.

Record ServerTlsConfig := mkServerTls {
  st_cert : bytes; st_key : bytes; st_sni_guard : bytes; st_client_ca : bytes
}.
Record ServerQuicConfig := mkServerQuic {
  sq_init_stream_receive_window : Z; sq_max_stream_receive_window : Z;
  sq_init_connection_receive_window : Z; sq_max_connection_receive_window : Z;
  sq_max_idle_timeout : Z; sq_max_incoming_streams : Z; sq_disable_path_mtu_discovery : bool
}.
Record ServerAcmeHttpConfig := mkAcmeHttp { ah_alt_port : Z }.
Record ServerAcmeTlsConfig := mkAcmeTls { at_alt_port : Z }.
Record ServerAcmeDnsConfig := mkAcmeDns { ad_name : bytes; ad_config : list (bytes * bytes) }.
Record ServerAcmeConfig := mkAcme {
  am_domains : list bytes; am_email : bytes; am_ca : bytes; am_listen_host : bytes; am_dir : bytes; am_type : bytes;
  am_http : ServerAcmeHttpConfig; am_tls : ServerAcmeTlsConfig; am_dns : ServerAcmeDnsConfig;
  am_disable_http : bool; am_disable_tlsalpn : bool; am_alt_http_port : Z; am_alt_tlsalpn_port : Z
}.
Record ServerAuthHttpConfig := mkAuthHttp { sah_url : bytes; sah_insecure : bool }.
Record ServerAuthConfig := mkServerAuth {
  sa_type : bytes; sa_password : bytes; sa_userpass : list (bytes * bytes); sa_http : ServerAuthHttpConfig; sa_command : bytes
}.
Record ResolverEndpointConfig := mkResolverEndpoint { re_addr : bytes; re_timeout : Z }.
Record ResolverTlsEndpointConfig := mkResolverTls { rtl_addr : bytes; rtl_timeout : Z; rtl_sni : bytes; rtl_insecure : bool }.
Record ServerResolverConfig := mkResolver {
  rv_type : bytes; rv_tcp : ResolverEndpointConfig; rv_udp : ResolverEndpointConfig;
  rv_tls : ResolverTlsEndpointConfig; rv_https : ResolverTlsEndpointConfig
}.
Record ServerSniffConfig := mkSniff {
  sn_enable : bool; sn_timeout : Z; sn_rewrite_domain : bool; sn_tcp_ports : bytes; sn_udp_ports : bytes
}.
Record ServerAclConfig := mkAcl {
  ac_file : bytes; ac_inline : list bytes; ac_geoip : bytes; ac_geosite : bytes; ac_geo_update_interval : Z
}.
Record ServerOutboundDirectConfig := mkOutDirect {
  od_mode : bytes; od_bind_ipv4 : bytes; od_bind_ipv6 : bytes; od_bind_device : bytes; od_fast_open : bool
}.
Record ServerOutboundSocks5Config := mkOutSocks5 { os_addr : bytes; os_username : bytes; os_password : bytes }.
Record ServerOutboundHttpConfig := mkOutHttp { oh_url : bytes; oh_insecure : bool }.
Record ServerOutboundEntry := mkOutbound {
  oe_name : bytes; oe_type : bytes; oe_direct : ServerOutboundDirectConfig; oe_socks5 : ServerOutboundSocks5Config;
  oe_http : ServerOutboundHttpConfig
}.
Record ServerTrafficStatsConfig := mkTrafficStats { ts_listen : bytes; ts_secret : bytes }.
Record ServerMasqueradeFileConfig := mkMasqFile { mf_dir : bytes }.
Record ServerMasqueradeProxyConfig := mkMasqProxy { mx_url : bytes; mx_rewrite_host : bool; mx_insecure : bool }.
Record ServerMasqueradeStringConfig := mkMasqString { ms_content : bytes; ms_headers : list (bytes * bytes); ms_status_code : Z }.
Record ServerMasqueradeConfig := mkMasquerade {
  mq_type : bytes; mq_file : ServerMasqueradeFileConfig; mq_proxy : ServerMasqueradeProxyConfig; mq_string : ServerMasqueradeStringConfig;
  mq_listen_http : bytes; mq_listen_https : bytes; mq_force_https : bool
}.
Record ServerConfig := mkServer {
  sf_listen : bytes;
  sf_obfs : ObfsSection;
  sf_tls : option ServerTlsConfig;
  sf_acme : option ServerAcmeConfig;
  sf_quic : ServerQuicConfig;
  sf_bandwidth : BandwidthConfig;
  sf_ignore_client_bandwidth : bool;
  sf_speed_test : bool;
  sf_disable_udp : bool;
  sf_udp_idle_timeout : Z;
  sf_auth : ServerAuthConfig;
  sf_resolver : ServerResolverConfig;
  sf_sniff : ServerSniffConfig;
  sf_acl : ServerAclConfig;
  sf_outbounds : list ServerOutboundEntry;
  sf_traffic_stats : ServerTrafficStatsConfig;
  sf_masquerade : ServerMasqueradeConfig
}.
(** [Default] of the sections: what a file that omits them gives. *)
Definition server_auth_default : ServerAuthConfig := mkServerAuth [] [] [] (mkAuthHttp [] false) [].
Definition resolver_default : ServerResolverConfig :=
  mkResolver [] (mkResolverEndpoint [] 0) (mkResolverEndpoint [] 0) (mkResolverTls [] 0 [] false) (mkResolverTls [] 0 [] false).
Definition sniff_default : ServerSniffConfig := mkSniff false 0 false [] [].
Definition acl_default : ServerAclConfig := mkAcl [] [] [] [] 0.
Definition masquerade_default : ServerMasqueradeConfig :=
  mkMasquerade [] (mkMasqFile []) (mkMasqProxy [] false false) (mkMasqString [] [] 0) [] [] false.
Definition server_config_default : ServerConfig :=
  mkServer [] obfs_default None None (mkServerQuic 0 0 0 0 0 0 false) bandwidth_default false false false 0 server_auth_default
    resolver_default sniff_default acl_default [] (mkTrafficStats [] []) masquerade_default.

(** ** Values *)

(** The index of the first character that is not a digit, 0 if there is
    none. *)
Fixpoint digit_prefix (s : bytes) : nat :=
  match s with
  | b :: r => if is_digit b then S (digit_prefix r) else O
  | [] => O
  end.
Definition bandwidth_split (s : bytes) : nat :=
  let n := digit_prefix s in if decide (n = length s) then O else n.

Definition unit_bytes (unit : bytes) : option Z :=
  if decide (unit ∈ [str "b"; str "bps"]) then Some 1
  else if decide (unit ∈ [str "k"; str "kb"; str "kbps"]) then Some 1000
  else if decide (unit ∈ [str "m"; str "mb"; str "mbps"]) then Some 1000000
  else if decide (unit ∈ [str "g"; str "gb"; str "gbps"]) then Some 1000000000
  else if decide (unit ∈ [str "t"; str "tb"; str "tbps"]) then Some 1000000000000
  else None.

Definition parse_bandwidth (input : bytes) : outcome bytes Z :=
  let normalized := keyword input in
  if decide (normalized = []) then Ret 0
  else
    let split := bandwidth_split normalized in
    if decide (split = O) then Err (str "invalid bandwidth format")
    else
      value ← ok_or (parse_u64 (take split normalized)) (str "invalid bandwidth value " ++ take split normalized);
      mult ← ok_or (unit_bytes (trim (drop split normalized))) (str "unsupported bandwidth unit");
      Ret (sat_mul value mult / 8).

Definition validate_min_bandwidth (field : bytes) (value : Z) : outcome bytes unit :=
  reject (bool_decide (value ≠ 0 ∧ value < 65536)) (field ++ str " must be at least 65536 bytes per second").

Definition hex_nibble (value : Z) : outcome bytes Z :=
  if in_range 48 57 value then Ret (value - 48)
  else if in_range 97 102 value then Ret (value - 97 + 10)
  else if in_range 65 70 value then Ret (value - 65 + 10)
  else Err (str "invalid hex digit in pinned SHA-256 hash").

(** [hash.trim().to_ascii_lowercase().replace([':', '-'], '')]. *)
Definition normalize_cert_hash (hash : bytes) : bytes := filter (fun b => b ≠ 58 ∧ b ≠ 45) (keyword hash).

(** The loop over [chunks_exact(2)]. *)
Fixpoint hex_pairs (s : bytes) : outcome bytes bytes :=
  match s with
  | a :: b :: r =>
      high ← hex_nibble a; low ← hex_nibble b; rest ← hex_pairs r;
      Ret (Z.lor (as_u8 (Z.shiftl high 4)) low :: rest)
  | _ => Ret []
  end.
Definition parse_optional_pinned_sha256 (input : bytes) : outcome bytes (option bytes) :=
  let normalized := normalize_cert_hash input in
  if decide (normalized = []) then Ret None
  else if decide (len normalized ≠ 64) then Err (str "pinned SHA-256 hash must be exactly 64 hex characters")
  else output ← hex_pairs normalized; Ret (Some output).

Definition parse_bool_like (value : bytes) : option bool :=
  if decide (keyword value ∈ [str "1"; str "true"; str "t"; str "yes"; str "y"]) then Some true
  else if decide (keyword value ∈ [str "0"; str "false"; str "f"; str "no"; str "n"]) then Some false
  else None.

Definition percent_nibble (value : Z) : outcome bytes Z :=
  if in_range 48 57 value then Ret (value - 48)
  else if in_range 97 102 value then Ret (value - 97 + 10)
  else if in_range 65 70 value then Ret (value - 65 + 10)
  else Err (str "invalid percent-encoding in client URI auth").

Definition PERCENT : Z := 37.
(** The loop of [decode_userinfo_component]. *)
Fixpoint percent_decode (s : bytes) : outcome bytes bytes :=
  match s with
  | [] => Ret []
  | b :: r =>
      if decide (b = PERCENT) then
        match r with
        | h :: l :: r =>
            high ← percent_nibble h; low ← percent_nibble l; rest ← percent_decode r;
            Ret (Z.lor (as_u8 (Z.shiftl high 4)) low :: rest)
        | _ => Err (str "invalid percent-encoding in client URI auth")
        end
      else rest ← percent_decode r; Ret (b :: rest)
  end.
Definition decode_userinfo_component (input : bytes) : outcome bytes bytes :=
  if decide (PERCENT ∉ input) then Ret input
  else
    decoded ← percent_decode input;
    ok_or (from_utf8 decoded) (str "client URI auth is not valid UTF-8").

Definition build_obfs_config (config : ObfsSection) : outcome bytes (option ObfsConfig) :=
  let k := keyword (ob_type config) in
  if decide (k ∈ [[]; str "plain"]) then Ret None
  else if decide (k = str "salamander") then
    let password := trim (ob_salamander_password config) in
    if decide (password = []) then Err (str "obfs.salamander.password must not be empty")
    else Ret (Some (Salamander password))
  else Err (str "unsupported obfs.type " ++ k).

Definition resolve_quic_window (init_window max_window default_window : Z) (init_field max_field : bytes)
    : outcome bytes Z :=
  let value :=
    if decide (init_window = 0 ∧ max_window = 0) then default_window
    else if decide (init_window = 0) then max_window
    else if decide (max_window = 0) then init_window
    else Z.max init_window max_window in
  if decide (value < 16 * 1024) then Err (init_field ++ str " and " ++ max_field ++ str " must be at least 16384")
  else Ret value.
Definition resolve_quic_idle_timeout (value : Z) : outcome bytes Z :=
  if decide (value = 0) then Ret DEFAULT_MAX_IDLE_TIMEOUT
  else if decide (4 * NANOS_PER_SEC ≤ value ≤ 120 * NANOS_PER_SEC) then Ret value
  else Err (str "quic.maxIdleTimeout must be between 4s and 120s").
Definition resolve_keep_alive_period (value : Z) : outcome bytes Z :=
  if decide (value = 0) then Ret DEFAULT_KEEP_ALIVE_PERIOD
  else if decide (2 * NANOS_PER_SEC ≤ value ≤ 60 * NANOS_PER_SEC) then Ret value
  else Err (str "quic.keepAlivePeriod must be between 2s and 60s").

Definition build_client_quic_transport (config : ClientQuicConfig) : outcome bytes QuicTransportConfig :=
  stream ← resolve_quic_window (cq_init_stream_receive_window config) (cq_max_stream_receive_window config)
             DEFAULT_STREAM_RECEIVE_WINDOW (str "quic.initStreamReceiveWindow") (str "quic.maxStreamReceiveWindow");
  recv ← resolve_quic_window (cq_init_connection_receive_window config) (cq_max_connection_receive_window config)
             DEFAULT_CONNECTION_RECEIVE_WINDOW (str "quic.initConnReceiveWindow") (str "quic.maxConnReceiveWindow");
  idle ← resolve_quic_idle_timeout (cq_max_idle_timeout config);
  keep_alive ← resolve_keep_alive_period (cq_keep_alive_period config);
  Ret (mkQuic stream recv idle (Some keep_alive) None (cq_disable_path_mtu_discovery config)).

(** [max_incoming_streams] is signed. *)
Definition build_server_quic_transport (config : ServerQuicConfig) : outcome bytes QuicTransportConfig :=
  max_incoming_streams ←
    (if decide (sq_max_incoming_streams config = 0) then Ret DEFAULT_MAX_INCOMING_STREAMS
     else if decide (sq_max_incoming_streams config < 8) then Err (str "quic.maxIncomingStreams must be at least 8")
     else Ret (as_u64 (sq_max_incoming_streams config)));
  stream ← resolve_quic_window (sq_init_stream_receive_window config) (sq_max_stream_receive_window config)
             DEFAULT_STREAM_RECEIVE_WINDOW (str "quic.initStreamReceiveWindow") (str "quic.maxStreamReceiveWindow");
  recv ← resolve_quic_window (sq_init_connection_receive_window config) (sq_max_connection_receive_window config)
             DEFAULT_CONNECTION_RECEIVE_WINDOW (str "quic.initConnReceiveWindow") (str "quic.maxConnReceiveWindow");
  idle ← resolve_quic_idle_timeout (sq_max_idle_timeout config);
  Ret (mkQuic stream recv idle None (Some max_incoming_streams) (sq_disable_path_mtu_discovery config)).

(** ** Checks *)

Definition ensure_client_core_supported (config : ClientConfig) : outcome bytes unit :=
  _ ← reject (blank (cf_server config)) (str "server must not be empty");
  _ ← reject (bool_decide (keyword (tp_type (cf_transport config)) ∉ [[]; str "udp"]))
        (str "transport.type is not supported yet by the Rust client CLI");
  _ ← reject (bool_decide (keyword (ob_type (cf_obfs config)) ∉ [[]; str "plain"; str "salamander"]))
        (str "obfs.type is not supported yet by the Rust client CLI");
  _ ← reject (negb (blank (tl_client_certificate (cf_tls config))) || negb (blank (tl_client_key (cf_tls config))))
        (str "mutual TLS client certificates are not supported yet by the Rust client CLI");
  _ ← reject (cf_fast_open config) (str "fastOpen is not supported yet by the Rust client CLI");
  _ ← reject (cf_lazy config) (str "lazy mode is not supported yet by the Rust client CLI");
  _ ← reject (bool_decide (is_Some (cf_tcp_tproxy config)) || bool_decide (is_Some (cf_udp_tproxy config))
              || bool_decide (is_Some (cf_tcp_redirect config)) || bool_decide (is_Some (cf_tun config)))
        (str "tproxy/redirect/tun are not supported yet by the Rust client CLI");
  _ ← match cf_socks5 config with
      | Some socks5 => reject (blank (s5_listen socks5)) (str "socks5.listen must not be empty")
      | None => Ret ()
      end;
  match cf_http config with
  | Some http => reject (blank (ht_listen http)) (str "http.listen must not be empty")
  | None => Ret ()
  end.

Definition with_defaults (e : WireGuardForwardingEntry) : WireGuardForwardingEntry :=
  let or_default v d := if decide (v = 0) then d else v in
  mkWireGuard (wg_listen e) (wg_remote e)
    (or_default (wg_mtu e) WIREGUARD_FORWARD_DEFAULT_MTU)
    (or_default (wg_timeout e) WIREGUARD_FORWARD_DEFAULT_TIMEOUT)
    (or_default (wg_socket_receive_buffer e) WIREGUARD_FORWARD_DEFAULT_SOCKET_BUFFER)
    (or_default (wg_socket_send_buffer e) WIREGUARD_FORWARD_DEFAULT_SOCKET_BUFFER)
    (or_default (wg_channel_depth e) WIREGUARD_FORWARD_DEFAULT_CHANNEL_DEPTH).
Definition into_udp_forwarding_entry (e : WireGuardForwardingEntry) : UdpForwardingEntry :=
  let effective := with_defaults e in
  mkUdpForwarding (wg_listen effective) (wg_remote effective) (wg_timeout effective)
    (wg_socket_receive_buffer effective) (wg_socket_send_buffer effective) (wg_channel_depth effective)
    (Some (wg_mtu effective)).
Definition merged_udp_forwarding_entries (config : ClientConfig) : list UdpForwardingEntry :=
  cf_udp_forwarding config ++ map into_udp_forwarding_entry (cf_wireguard_forwarding config).

(** The loops over the forwarding entries, with the index of the first. *)
Fixpoint check_tcp_entries (index : Z) (l : list TcpForwardingEntry) : outcome bytes unit :=
  match l with
  | [] => Ret ()
  | e :: l =>
      _ ← reject (blank (tf_listen e)) (str "tcpForwarding[" ++ to_string index ++ str "].listen must not be empty");
      _ ← reject (blank (tf_remote e)) (str "tcpForwarding[" ++ to_string index ++ str "].remote must not be empty");
      check_tcp_entries (index + 1) l
  end.
Fixpoint check_udp_entries (index : Z) (l : list UdpForwardingEntry) : outcome bytes unit :=
  match l with
  | [] => Ret ()
  | e :: l =>
      _ ← reject (blank (uf_listen e)) (str "udp forwarding entry [" ++ to_string index ++ str "].listen must not be empty");
      _ ← reject (blank (uf_remote e)) (str "udp forwarding entry [" ++ to_string index ++ str "].remote must not be empty");
      check_udp_entries (index + 1) l
  end.

Definition ensure_client_runtime_mode_supported (config : ClientConfig) : outcome bytes unit :=
  _ ← ensure_client_core_supported config;
  let udp_forwarding := merged_udp_forwarding_entries config in
  _ ← reject (bool_decide (cf_socks5 config = None ∧ cf_http config = None ∧ cf_tcp_forwarding config = [] ∧ udp_forwarding = []))
        (str "no client mode specified; configure socks5, http, tcpForwarding, udpForwarding, or wireguardForwarding");
  _ ← check_tcp_entries 0 (cf_tcp_forwarding config);
  check_udp_entries 0 udp_forwarding.

Definition ensure_server_mode_supported (config : ServerConfig) : outcome bytes unit :=
  _ ← reject (bool_decide (keyword (ob_type (sf_obfs config)) ∉ [[]; str "plain"; str "salamander"]))
        (str "obfs.type is not supported yet by the Rust server CLI");
  _ ← reject (bool_decide (is_Some (sf_acme config))) (str "acme is not supported yet by the Rust server CLI");
  let auth := sf_auth config in
  _ ← reject (negb (bool_decide (sa_userpass auth = [])) || negb (blank (sah_url (sa_http auth))) || negb (blank (sa_command auth)))
        (str "only password authentication is supported by the Rust server CLI");
  _ ← reject (negb (blank (rv_type (sf_resolver config))) || sn_enable (sf_sniff config)
              || negb (blank (ac_file (sf_acl config))) || negb (bool_decide (ac_inline (sf_acl config) = []))
              || negb (blank (ac_geoip (sf_acl config))) || negb (blank (ac_geosite (sf_acl config)))
              || negb (bool_decide (len (sf_outbounds config) = 0)) || negb (blank (ts_listen (sf_traffic_stats config)))
              || negb (blank (mq_type (sf_masquerade config))) || negb (blank (mq_listen_http (sf_masquerade config)))
              || negb (blank (mq_listen_https (sf_masquerade config))))
        (str "resolver/sniff/acl/outbounds/trafficStats/masquerade are not supported yet by the Rust server CLI");
  tls ← ok_or (sf_tls config) (str "tls must be configured");
  _ ← reject (blank (st_cert tls) || blank (st_key tls)) (str "tls.cert and tls.key must not be empty");
  _ ← reject (negb (blank (st_client_ca tls))) (str "tls.clientCA is not supported yet by the Rust server CLI");
  _ ← reject (negb (blank (st_sni_guard tls))) (str "tls.sniGuard is not supported yet by the Rust server CLI");
  _ ← reject (bool_decide (keyword (sa_type auth) ∉ [[]; str "password"])) (str "auth.type must be empty or password");
  _ ← reject (blank (sa_password auth)) (str "auth.password must not be empty");
  let t := sf_udp_idle_timeout config in
  reject (bool_decide (t ≠ 0 ∧ (t < 2 * NANOS_PER_SEC ∨ 600 * NANOS_PER_SEC < t)))
    (str "udpIdleTimeout must be between 2s and 600s").

Definition build_password_authenticator (auth : ServerAuthConfig) : outcome bytes PasswordAuthenticator :=
  if blank (sa_password auth) then Err (str "auth.password must not be empty")
  else Ret (password_new (sa_password auth)).

(** ** Translation *)

(** [rustls::pki_types::PrivateKeyDer]. *)
Inductive PrivateKeyDer := Pkcs8 (der : bytes) | Pkcs1 (der : bytes) | Sec1 (der : bytes).
(** What the [url] crate makes of a URL. *)
Record Url := mkUrl {
  url_scheme : bytes;
  url_username : bytes;
  url_password : option bytes;
  url_host : option bytes;
  url_port : option Z;
  url_query_pairs : list (bytes * bytes)
}.

Section translate.
Context (parse_url : bytes → option Url).
Context (to_socket_addrs : bytes → option (list SocketAddr)).
Context (load_certificates : bytes → outcome bytes (list bytes)).
Context (load_private_key : bytes → outcome bytes PrivateKeyDer).
Context (system_loader : outcome bytes (list bytes)).

(** The authentication text of a URL. *)
Definition url_auth (uri : Url) : outcome bytes (option bytes) :=
  if decide (url_username uri = [] ∧ url_password uri = None) then Ret None
  else
    username ← context (decode_userinfo_component (url_username uri))
                 (str "failed to decode auth username from client URI");
    match url_password uri with
    | Some password =>
        password ← context (decode_userinfo_component password)
                     (str "failed to decode auth password from client URI");
        Ret (Some (username ++ COLON :: password))
    | None => Ret (Some username)
    end.

(** The server address of a URL. *)
Definition url_server (host : bytes) (port : option Z) : bytes :=
  match port with
  | Some port =>
      if contains_byte COLON host then 91 :: host ++ 93 :: COLON :: to_string port
      else host ++ COLON :: to_string port
  | None => host
  end.

Definition normalize_client_config (config : ClientConfig) : outcome bytes ClientConfig :=
  let server := trim (cf_server config) in
  if negb (starts_with (str "hy2://") server || starts_with (str "hysteria2://") server) then Ret config
  else
    uri ← ok_or (parse_url server) (str "failed to parse client server URI");
    if decide (url_scheme uri ∉ [str "hy2"; str "hysteria2"]) then Ret config
    else
      host ← ok_or (url_host uri) (str "client URI is missing a host");
      auth ← url_auth uri;
      let query : gmap bytes bytes := list_to_map (reverse (url_query_pairs uri)) in
      let obfs :=
        match query !! str "obfs" with
        | Some obfs_type =>
            mkObfs obfs_type
              (if eq_ignore_ascii_case obfs_type (str "salamander") then default [] (query !! str "obfs-password")
               else ob_salamander_password (cf_obfs config))
        | None => cf_obfs config
        end in
      let tls := cf_tls config in
      let insecure := default (tl_insecure tls) (query !! str "insecure" ≫= parse_bool_like) in
      Ret (mkClient (url_server host (url_port uri)) (default (cf_auth config) auth) (cf_transport config) obfs
        (mkClientTls (default (tl_sni tls) (query !! str "sni")) insecure
           (default (tl_pin_sha256 tls) (query !! str "pinSHA256")) (tl_ca tls) (tl_client_certificate tls) (tl_client_key tls))
        (cf_quic config) (cf_bandwidth config) (cf_fast_open config) (cf_lazy config) (cf_socks5 config) (cf_http config)
        (cf_tcp_forwarding config) (cf_udp_forwarding config) (cf_wireguard_forwarding config)
        (cf_tcp_tproxy config) (cf_udp_tproxy config) (cf_tcp_redirect config) (cf_tun config)).

Definition is_bracket (b : Z) : bool := (b =? 91) || (b =? 93).
Definition infer_server_name (config : ClientConfig) : outcome bytes bytes :=
  if negb (blank (tl_sni (cf_tls config))) then Ret (tl_sni (cf_tls config))
  else
    let server := trim (cf_server config) in
    match parse_socket_addr server with
    | Some addr => Ret (ip_text addr)
    | None =>
        match rsplit_once COLON server with
        | Some (host, _) => Ret (reverse (drop_while is_bracket (reverse (drop_while is_bracket host))))
        | None => Err (str "failed to infer server name from server address; set tls.sni explicitly")
        end
    end.

Definition resolve_socket_addr (input : bytes) (default_host : option bytes) : outcome bytes SocketAddr :=
  let input := trim input in
  if decide (input = []) then Err (str "address must not be empty")
  else
    let normalized := if starts_with [COLON] input then default (str "127.0.0.1") default_host ++ input else input in
    addrs ← ok_or (to_socket_addrs normalized) (str "failed to resolve " ++ normalized);
    ok_or (head addrs) (str "no socket addresses resolved for " ++ normalized).

Definition load_root_certificates_with (path : bytes) : outcome bytes (list bytes) :=
  if blank path then system_loader else context (load_certificates path) (str "failed to load tls.ca").

(** The configuration of the core client. *)
Record CoreClientConfig := mkCoreClient {
  co_server_addr : SocketAddr;
  co_server_name : bytes;
  co_auth : bytes;
  co_bandwidth_max_tx : Z;
  co_bandwidth_max_rx : Z;
  co_obfs : option ObfsConfig;
  co_insecure : bool;
  co_root_certificates : list bytes;
  co_pinned_sha256 : option bytes;
  co_quic : QuicTransportConfig
}.

Definition build_client_core_config_with (config : ClientConfig) : outcome bytes CoreClientConfig :=
  config ← normalize_client_config config;
  _ ← ensure_client_core_supported config;
  addr ← context (resolve_socket_addr (cf_server config) None) (str "invalid server address");
  name ← infer_server_name config;
  tx ← context (parse_bandwidth (bw_up (cf_bandwidth config))) (str "invalid bandwidth.up");
  rx ← context (parse_bandwidth (bw_down (cf_bandwidth config))) (str "invalid bandwidth.down");
  obfs ← context (build_obfs_config (cf_obfs config)) (str "invalid obfs config");
  quic ← context (build_client_quic_transport (cf_quic config)) (str "invalid quic config");
  roots ← load_root_certificates_with (tl_ca (cf_tls config));
  pin ← context (parse_optional_pinned_sha256 (tl_pin_sha256 (cf_tls config))) (str "invalid tls.pinSHA256");
  Ret (mkCoreClient addr name (cf_auth config) tx rx obfs (tl_insecure (cf_tls config)) roots pin quic).

Record RunnableClientConfig := mkRunnableClient {
  rc_core : CoreClientConfig;
  rc_socks5 : option Socks5Config;
  rc_http : option HttpConfig;
  rc_tcp_forwarding : list TcpForwardingEntry;
  rc_udp_forwarding : list UdpForwardingEntry
}.
Definition build_runnable_client_config (config : ClientConfig) : outcome bytes RunnableClientConfig :=
  _ ← ensure_client_runtime_mode_supported config;
  core_config ← build_client_core_config_with config;
  Ret (mkRunnableClient core_config (cf_socks5 config) (cf_http config) (cf_tcp_forwarding config)
    (merged_udp_forwarding_entries config)).

(** The configuration of the core server. *)
Record CoreServerConfig := mkCoreServer {
  se_bind_addr : SocketAddr;
  se_certificates : list bytes;
  se_private_key : PrivateKeyDer;
  se_authenticator : PasswordAuthenticator;
  se_obfs : option ObfsConfig;
  se_speed_test : bool;
  se_disable_udp : bool;
  se_udp_idle_timeout : Z;
  se_bandwidth_max_tx : Z;
  se_bandwidth_max_rx : Z;
  se_ignore_client_bandwidth : bool;
  se_quic : QuicTransportConfig
}.
Definition build_runnable_server_config (config : ServerConfig) : outcome bytes CoreServerConfig :=
  _ ← ensure_server_mode_supported config;
  tls ← ok_or (sf_tls config) (str "tls must be configured for the Rust server");
  tx ← context (parse_bandwidth (bw_up (sf_bandwidth config))) (str "invalid bandwidth.up");
  rx ← context (parse_bandwidth (bw_down (sf_bandwidth config))) (str "invalid bandwidth.down");
  _ ← validate_min_bandwidth (str "bandwidth.up") tx;
  _ ← validate_min_bandwidth (str "bandwidth.down") rx;
  addr ← context (resolve_socket_addr (if decide (sf_listen config = []) then str ":443" else sf_listen config)
                    (Some (str "0.0.0.0"))) (str "invalid listen address");
  certs ← context (load_certificates (st_cert tls)) (str "failed to load tls.cert");
  key ← context (load_private_key (st_key tls)) (str "failed to load tls.key");
  auth ← build_password_authenticator (sf_auth config);
  obfs ← context (build_obfs_config (sf_obfs config)) (str "invalid obfs config");
  quic ← context (build_server_quic_transport (sf_quic config)) (str "invalid quic config");
  Ret (mkCoreServer addr certs key auth obfs (sf_speed_test config) (sf_disable_udp config) (sf_udp_idle_timeout config)
    tx rx (sf_ignore_client_bandwidth config) quic).
End translate.

Example parse_bandwidth_none : parse_bandwidth [] = Ret 0.
Proof. reflexivity. Qed.
Example parse_bandwidth_mbps : parse_bandwidth (str "100 Mbps") = Ret 12500000.
Proof. vm_compute. reflexivity. Qed.
Example parse_bandwidth_g : parse_bandwidth (str "1g") = Ret 125000000.
Proof. vm_compute. reflexivity. Qed.
Example parse_bandwidth_no_unit : parse_bandwidth (str "100") = Err (str "invalid bandwidth format").
Proof. vm_compute. reflexivity. Qed.
Example pin_too_short :
  parse_optional_pinned_sha256 (str "AA:BB-cc") = Err (str "pinned SHA-256 hash must be exactly 64 hex characters").
Proof. vm_compute. reflexivity. Qed.

(** An IPv6 host, which the [url] crate gives in brackets, gets a second pair
    of them, and the server address is none. *)
Example url_server_ipv6 :
  url_server (str "[::1]") (Some 443) = str "[[::1]]:443" ∧
  parse_socket_addr (url_server (str "[::1]") (Some 443)) = None.
Proof. split; vm_compute; reflexivity. Qed.

(** ** What an accepted configuration guarantees *)

(** Follows a computation that returned, naming the results of its steps. *)
Ltac returned H :=
  repeat (let x := fresh "x" in let E := fresh "E" in apply bind_Ret_inv in H as (x & E & H)).

Lemma reject_Ret cond text u : reject cond text = Ret u → cond = false.
Proof. by destruct cond. Qed.
Lemma context_Ret {A} (m : outcome bytes A) text a : context m text = Ret a → m = Ret a.
Proof. by destruct m. Qed.

Lemma resolve_quic_window_Ret a b d f g v : resolve_quic_window a b d f g = Ret v → 16384 ≤ v.
Proof. unfold resolve_quic_window. case_decide; [done|]. intros [= <-]. lia. Qed.

Lemma resolve_quic_idle_timeout_Ret t v :
  resolve_quic_idle_timeout t = Ret v → 4 * NANOS_PER_SEC ≤ v ≤ 120 * NANOS_PER_SEC.
Proof.
  unfold resolve_quic_idle_timeout. repeat case_decide; intros [= <-]; [|done]. unfold DEFAULT_MAX_IDLE_TIMEOUT, NANOS_PER_SEC. lia.
Qed.

Lemma build_server_quic_transport_Ret q c :
  build_server_quic_transport q = Ret c → sq_max_incoming_streams q < 2 ^ 63 →
  MIN_QUIC_RECEIVE_WINDOW ≤ stream_receive_window c ∧ MIN_QUIC_RECEIVE_WINDOW ≤ receive_window c ∧
  4 * NANOS_PER_SEC ≤ max_idle_timeout c ≤ 120 * NANOS_PER_SEC ∧
  ∃ n, max_concurrent_bidi_streams c = Some n ∧ 8 ≤ n.
Proof.
  intros H Hn. unfold build_server_quic_transport in H. returned H. injection H as <-. cbn.
  apply resolve_quic_window_Ret in E0, E1. apply resolve_quic_idle_timeout_Ret in E2.
  split_and!; [done|done|lia|lia|]. eexists. split; [done|]. case_decide; [by injection E as <-|].
  case_decide; [done|]. injection E as <-. unfold as_u64. rewrite Z.mod_small; lia.
Qed.

Lemma build_obfs_config_Ret s o :
  build_obfs_config s = Ret o →
  match o with Some (Salamander p) => p = trim (ob_salamander_password s) ∧ p ≠ [] | None => True end.
Proof. unfold build_obfs_config. repeat case_decide; intros [= <-]; done. Qed.

Lemma validate_min_bandwidth_Ret f v u : validate_min_bandwidth f v = Ret u → v = 0 ∨ 65536 ≤ v.
Proof. intros H. apply reject_Ret, bool_decide_eq_false in H. destruct (decide (v = 0)); [by left|right; lia]. Qed.

Lemma ensure_server_mode_supported_Ret config u :
  ensure_server_mode_supported config = Ret u →
  sf_udp_idle_timeout config = 0 ∨ 2 * NANOS_PER_SEC ≤ sf_udp_idle_timeout config ≤ 600 * NANOS_PER_SEC.
Proof.
  intros H. unfold ensure_server_mode_supported in H. cbn zeta in H. returned H.
  apply reject_Ret, bool_decide_eq_false in H. destruct (decide (sf_udp_idle_timeout config = 0)); [by left|right; lia].
Qed.

(** A server configuration that is accepted. Its authenticator accepts
    exactly the configured password, which is not blank; each bandwidth limit is
    off or at least 65536 bytes per second; the UDP idle timeout is off or
    between two seconds and ten minutes; obfuscation has a non-empty key; and
    the core builds a transport from it exactly if the two windows and the
    stream limit fit into 62 bits, which the configuration does not check. *)
Theorem server_config_sound {T} to_socket_addrs load_certificates load_private_key config c env (target : T) :
  build_runnable_server_config to_socket_addrs load_certificates load_private_key config = Ret c →
  sq_max_incoming_streams (sf_quic config) < 2 ^ 63 →
  (∀ remote auth tx, is_Some (password_authenticate (se_authenticator c) remote auth tx) ↔ auth = sa_password (sf_auth config)) ∧
  trim (sa_password (sf_auth config)) ≠ [] ∧
  (se_bandwidth_max_tx c = 0 ∨ 65536 ≤ se_bandwidth_max_tx c) ∧
  (se_bandwidth_max_rx c = 0 ∨ 65536 ≤ se_bandwidth_max_rx c) ∧
  (se_udp_idle_timeout c = 0 ∨ 2 * NANOS_PER_SEC ≤ se_udp_idle_timeout c ≤ 600 * NANOS_PER_SEC) ∧
  (∀ p, se_obfs c = Some (Salamander p) → p ≠ []) ∧
  ((∃ t, build_transport_config env false (se_quic c) target = Ret t) ↔
     stream_receive_window (se_quic c) ≤ Varint.MAX_VARINT ∧ receive_window (se_quic c) ≤ Varint.MAX_VARINT ∧
     (∀ n, max_concurrent_bidi_streams (se_quic c) = Some n → n ≤ Varint.MAX_VARINT)).
Proof.
  intros H Hn. unfold build_runnable_server_config in H. returned H. injection H as <-. cbn.
  apply ensure_server_mode_supported_Ret in E. apply validate_min_bandwidth_Ret in E3, E4.
  apply context_Ret, build_obfs_config_Ret in E9. apply context_Ret, build_server_quic_transport_Ret in E10; [|done].
  destruct E10 as (Hs & Hr & Hi & n & Hb & Hn8). unfold build_password_authenticator in E8.
  destruct (blank (sa_password (sf_auth config))) eqn:Hblank; [done|]. apply bool_decide_eq_false in Hblank. injection E8 as <-.
  split_and!; try done.
  - intros remote auth tx. unfold password_authenticate. cbn.
    destruct (decide (auth = sa_password (sf_auth config))); split; try done; try by intros [? ?].
  - intros p ->. by destruct E9.
  - rewrite build_transport_config_accepts. unfold transport_ok. rewrite Hb. split.
    + intros (? & ? & ? & ?). split_and!; try lia. intros ? [= <-]. done.
    + intros (? & ? & Hfit). split_and!; try lia; [|by apply Hfit]. unfold NANOS_PER_SEC, NANOS_PER_MILLI, Varint.MAX_VARINT in *.
      apply Z.div_le_upper_bound; lia.
Qed.

Definition example_server : ServerConfig :=
  mkServer [] obfs_default (Some (mkServerTls (str "c") (str "k") [] [])) None (mkServerQuic 0 0 0 0 0 0 false)
    (mkBandwidth (str "100 Mbps") (str "1g")) false false false 0 (mkServerAuth [] (str "hunter2") [] (mkAuthHttp [] false) [])
    resolver_default sniff_default acl_default [] (mkTrafficStats [] []) masquerade_default.

Lemma server_config_sound_witness :
  is_Some (password_authenticate (password_new (str "hunter2")) [] (str "hunter2") 0) ↔ str "hunter2" = str "hunter2".
Proof.
  assert (∃ c, build_runnable_server_config (fun _ => Some [SocketV4 [0; 0; 0; 0] 443]) (fun _ => Ret [[1]]) (fun _ => Ret (Pkcs8 [2]))
    example_server = Ret c ∧ se_authenticator c = password_new (str "hunter2")) as (c & H & Ha).
  { eexists. split; [vm_compute; reflexivity|reflexivity]. }
  rewrite <- Ha. refine (proj1 (server_config_sound _ _ _ example_server c (fun _ => None) () H _) [] (str "hunter2") 0).
  reflexivity.
Defined.
