(* ===== verification/Endpoint.v ===== *)
(** * Sockets, TLS and connections ([core/src/socket.rs], [core/src/client.rs], [core/src/server.rs])

    From a configuration to a connection: the UDP socket and its endpoint, the
    TLS settings with the verifier of the server's certificate, [Client::connect]
    with everything it does to the network in order, and [Server::bind] and
    [Server::serve]. The socket API, rustls and quinn are arguments. *)
From S2P Require Import Prelude Trace Errors RustStr Proxy Limit Obfs ObfsSocket Auth Server Client Net Quic Config.
Local Open Scope Z_scope.

(** ** Errors of other libraries ([core/src/errors.rs]) *)

Inductive foreign_error :=
| HttpError (text : bytes)
| ConnectError (text : bytes)
| ConnectionError (text : bytes)
| WriteError (text : bytes)
| ReadError (text : bytes)
| ClosedStream (text : bytes)
| SendDatagramError (text : bytes)
| RustlsError (text : bytes)
| H3ConnectionError (text : bytes)
| H3StreamError (text : bytes).
(** The [From] implementations that a [?] uses. *)
Definition core_error_of_foreign (e : foreign_error) : CoreError :=
  match e with
  | ConnectError text => Connect text
  | RustlsError text => Tls text
  | HttpError text | ConnectionError text | WriteError text | ReadError text | ClosedStream text | SendDatagramError text
  | H3ConnectionError text | H3StreamError text => Transport text
  end.

(** ** Effects *)

Definition CLOSE_ERR_CODE_OK : Z := 256.
Definition CLOSE_ERR_CODE_PROTOCOL_ERROR : Z := 257.
Definition DEFAULT_UDP_SOCKET_BUFFER_SIZE : Z := 16 * 1024 * 1024.
Definition ALPN_H3 : bytes := str "h3".

(** What is done to the network, in order. *)
Inductive net_event (H : Type) :=
| EvBind (addr : SocketAddr)
| EvBuffers (size : Z)
| EvProtect (answer : bool)
| EvNonblocking
| EvDial (addr : SocketAddr) (server_name : bytes)
| EvRequest (request : Request H)
| EvClose (code : Z) (reason : bytes).
Arguments EvBind {H} addr.
Arguments EvBuffers {H} size.
Arguments EvProtect {H} answer.
Arguments EvNonblocking {H}.
Arguments EvDial {H} addr server_name.
Arguments EvRequest {H} request.
Arguments EvClose {H} code reason.

(** A computation with the events it caused. *)
Abbreviation logged H A := (traced (net_event H) CoreError A).

(** ** Sockets *)

(** The socket of an endpoint. *)
Inductive endpoint_socket (A : Type) := PlainSocket (s : A) | ObfuscatedSocket (s : A) (obfuscator : SalamanderObfuscator).
Arguments PlainSocket {A} s.
Arguments ObfuscatedSocket {A} s obfuscator.

(** The socket API and the constructors of quinn. *)
Record SocketApi (S : Type) := mkSocketApi {
  sy_bind : SocketAddr → outcome io_error S;
  sy_set_nonblocking : S → outcome io_error unit;
  sy_wrap : S → outcome io_error unit;
  sy_endpoint : endpoint_socket S → outcome io_error unit
}.
Arguments sy_bind {S}.
Arguments sy_set_nonblocking {S}.
Arguments sy_wrap {S}.
Arguments sy_endpoint {S}.

Section endpoint.
Context {H S : Type} (api : SocketApi S).

Definition io {A} (m : outcome io_error A) : logged H A := try (map_err core_error_of_io m).
(** Both results are dropped. *)
Definition configure_udp_socket : logged H unit := tell (EvBuffers DEFAULT_UDP_SOCKET_BUFFER_SIZE).
(** The part both constructors share, from the socket on. *)
Definition wrap_endpoint (socket : S) (obfs : option ObfsConfig) : logged H (endpoint_socket S) :=
  match obfs with
  | Some obfs =>
      _ ← io (sy_wrap api socket);
      obfuscator ← try (build_obfuscator obfs);
      _ ← io (sy_endpoint api (ObfuscatedSocket socket obfuscator));
      mret (ObfuscatedSocket socket obfuscator)
  | None =>
      _ ← io (sy_endpoint api (PlainSocket socket));
      mret (PlainSocket socket)
  end.
(** [protector] is what [set_socket_protector] installed on Android, with the
    answer of the VPN service to it; elsewhere nothing is installed. The
    protector has no result: its answer is in the log only. *)
Definition maybe_protect_android_vpn_socket (protector : option (S → bool)) (socket : S) : logged H unit :=
  match protector with
  | Some protect => tell (EvProtect (protect socket))
  | None => mret ()
  end.
Definition make_client_endpoint (protector : option (S → bool)) (bind_addr : SocketAddr) (obfs : option ObfsConfig) : logged H (endpoint_socket S) :=
  _ ← tell (EvBind bind_addr);
  socket ← io (sy_bind api bind_addr);
  _ ← configure_udp_socket;
  _ ← maybe_protect_android_vpn_socket protector socket;
  _ ← tell EvNonblocking;
  _ ← io (sy_set_nonblocking api socket);
  wrap_endpoint socket obfs.
Definition make_endpoint (bind_addr : SocketAddr) (obfs : option ObfsConfig) : logged H (endpoint_socket S) :=
  _ ← tell (EvBind bind_addr);
  socket ← io (sy_bind api bind_addr);
  _ ← configure_udp_socket;
  _ ← tell EvNonblocking;
  _ ← io (sy_set_nonblocking api socket);
  wrap_endpoint socket obfs.
Definition make_server_endpoint : SocketAddr → option ObfsConfig → logged H (endpoint_socket S) := make_endpoint.
End endpoint.

(** ** TLS *)

Inductive ServerCertVerifier := SkipServerVerification | WebPkiServerVerifier (roots : list bytes).
(** The settings of a client connection, TLS 1.3 only. *)
Record TlsClient := mkTlsClient { tls_verifier : ServerCertVerifier; tls_early_data : bool; tls_alpn : list bytes }.

(** rustls: the protocol versions, parsing a root, building the verifier, and
    the conversion to quinn. *)
Record TlsApi := mkTlsApi {
  ty_versions : outcome bytes unit;
  ty_add_root : bytes → outcome bytes unit;
  ty_verifier : list bytes → outcome bytes unit;
  ty_client : TlsClient → outcome bytes unit;
  ty_single_cert : list bytes → PrivateKeyDer → outcome bytes unit;
  ty_server : outcome bytes unit;
  ty_webpki : list bytes → list bytes → bytes → bool
}.

Section tls.
Context (api : TlsApi) (env : bytes → option bytes) (checks : bool).

Fixpoint add_roots (certs : list bytes) : outcome CoreError unit :=
  match certs with
  | [] => Ret ()
  | cert :: certs => _ ← map_err Tls (ty_add_root api cert); add_roots certs
  end.
Definition build_client_config {T} (config : CoreClientConfig) (bandwidth_target : T) : outcome CoreError (TlsClient * TransportConfig T) :=
  _ ← map_err Tls (ty_versions api);
  verifier ←
    (if co_insecure config then Ret SkipServerVerification
     else
       _ ← add_roots (co_root_certificates config);
       _ ← map_err Tls (ty_verifier api (co_root_certificates config));
       Ret (WebPkiServerVerifier (co_root_certificates config)));
  let crypto := mkTlsClient verifier true [ALPN_H3] in
  _ ← map_err Tls (ty_client api crypto);
  transport ← build_transport_config env checks (co_quic config) bandwidth_target;
  Ret (crypto, transport).
(** [ServerCertVerifier::verify_server_cert]. *)
Definition verify_server_cert (verifier : ServerCertVerifier) (chain : list bytes) (server_name : bytes) : bool :=
  match verifier with
  | SkipServerVerification => true
  | WebPkiServerVerifier roots => ty_webpki api roots chain server_name
  end.
End tls.

(** ** The client *)

Record ClientHandle (S : Type) := mkClientHandle {
  cl_socket : endpoint_socket S;
  cl_transport : TransportConfig unit;
  cl_tx_target : Z;
  cl_tx_limiter : option BandwidthLimiter;
  cl_udp : bool
}.
Arguments mkClientHandle {S}.
Arguments cl_socket {S}.
Arguments cl_transport {S}.
Arguments cl_tx_target {S}.
Arguments cl_tx_limiter {S}.
Arguments cl_udp {S}.

(** quinn and h3: establishing a connection with the identity of the peer, the
    HTTP/3 connection on it, and an exchange. *)
Record QuicApi (H S : Type) := mkQuicApi {
  qa_connect : endpoint_socket S → TlsClient → SocketAddr → bytes → outcome foreign_error peer_identity;
  qa_h3 : outcome foreign_error unit;
  qa_exchange : Request H → outcome foreign_error (Response H)
}.
Arguments qa_connect {H S}.
Arguments qa_h3 {H S}.
Arguments qa_exchange {H S}.

Section connect.
Context {H V : Type} `{!HeaderMap H V} {S : Type}.
Context (sy : SocketApi S) (ty : TlsApi) (qa : QuicApi H S) (env : bytes → option bytes) (checks : bool) (sha256 : bytes → bytes).

Definition bind_addr_for (server_addr : SocketAddr) : SocketAddr :=
  match server_addr with
  | SocketV4 _ _ => SocketV4 (replicate 4 0) 0
  | SocketV6 _ _ => SocketV6 (replicate 16 0) 0
  end.
(** [verify_pinned_certificate] with what it does to the connection. *)
Definition check_pin (identity : peer_identity) (expected_hash : option bytes) : logged H unit :=
  match expected_hash with
  | None => mret ()
  | Some expected_hash =>
      identity ← try (ok_or identity (Tls (str "peer did not present a certificate")));
      certs ← try (downcast_certificates identity);
      certificate ← try (ok_or (head certs) (Tls (str "peer did not present an end-entity certificate")));
      if decide (sha256 certificate = expected_hash) then mret ()
      else
        _ ← tell (EvClose CLOSE_ERR_CODE_PROTOCOL_ERROR (str "tls pin mismatch"));
        try (Err (Tls (str "no certificate matches the pinned SHA-256 hash")))
  end.
(** The part of the configuration that the handshake reads. *)
Definition handshake_config (config : CoreClientConfig) : Client.ClientConfig :=
  mkClientConfig (co_server_name config) (co_auth config) (co_bandwidth_max_tx config) (co_bandwidth_max_rx config) (co_pinned_sha256 config).
(** [Client::connect] from the endpoint on; [now] is the instant the limiter
    starts at. *)
Definition connect_on (padding : bytes) (now : Z) (config : CoreClientConfig) (endpoint : endpoint_socket S)
    : logged H (ClientHandle S * HandshakeInfo) :=
  '(crypto, transport) ← try (build_client_config ty env checks config ());
  _ ← tell (EvDial (co_server_addr config) (co_server_name config));
  identity ← try (map_err core_error_of_foreign (qa_connect qa endpoint crypto (co_server_addr config) (co_server_name config)));
  _ ← check_pin identity (co_pinned_sha256 config);
  _ ← try (map_err core_error_of_foreign (qa_h3 qa));
  request ← try (auth_request padding (handshake_config config));
  _ ← tell (EvRequest request);
  response ← try (map_err core_error_of_foreign (qa_exchange qa request));
  if decide (rs_status response ≠ STATUS_AUTH_OK) then
    _ ← tell (EvClose CLOSE_ERR_CODE_PROTOCOL_ERROR (str "auth failed"));
    try (Err (Authentication (rs_status response)))
  else
    let auth_response := auth_response_from_headers (rs_headers response) in
    let tx := if as_rx_auto auth_response then 0 else negotiated_limit (co_bandwidth_max_tx config) (as_rx auth_response) in
    mret (mkClientHandle endpoint transport tx (limiter_optional now tx) (as_udp_enabled auth_response),
          mkHandshakeInfo (as_udp_enabled auth_response) tx).
Definition connect (protector : option (S → bool)) (padding : bytes) (now : Z) (config : CoreClientConfig) : logged H (ClientHandle S * HandshakeInfo) :=
  if decide (co_server_name config = []) then try (Err (Errors.Config (str "server_name must not be empty")))
  else
    endpoint ← make_client_endpoint sy protector (bind_addr_for (co_server_addr config)) (co_obfs config);
    connect_on padding now config endpoint.
(** [Client::close] and [Client::wait_closed]. *)
Definition close : logged H unit := tell (EvClose CLOSE_ERR_CODE_OK []).
Definition wait_closed (reason : bytes) : CoreError := Closed reason.
End connect.

(** [Client::udp_with_config]: [new_udp] is the first step of the manager's. *)
Definition udp_with_config {S A} (client : ClientHandle S) (new_udp : outcome CoreError A) : outcome CoreError A :=
  if cl_udp client then new_udp else Err (Dial (str "UDP not enabled")).

(** ** The server *)

Record ServerHandle (S : Type) := mkServerHandle {
  sh_socket : endpoint_socket S;
  sh_quic : QuicTransportConfig;
  sh_state : ServerState
}.
Arguments mkServerHandle {S}.
Arguments sh_socket {S}.
Arguments sh_quic {S}.
Arguments sh_state {S}.

Section serve.
Context {H S : Type} (sy : SocketApi S) (ty : TlsApi) (env : bytes → option bytes) (checks : bool).

(** [Server::bind]. *)
Definition bind (config : CoreServerConfig) : logged H (ServerHandle S) :=
  if decide (se_certificates config = []) then try (Err (Errors.Config (str "at least one certificate must be provided")))
  else
    _ ← try (map_err Tls (ty_versions ty));
    _ ← try (map_err Tls (ty_single_cert ty (se_certificates config) (se_private_key config)));
    _ ← try (map_err Tls (ty_server ty));
    _ ← try (build_transport_config env checks (se_quic config) ());
    socket ← make_server_endpoint sy (se_bind_addr config) (se_obfs config);
    mret (mkServerHandle socket (se_quic config)
      (mkServerState (password_authenticate (se_authenticator config)) (se_disable_udp config) (se_speed_test config)
        (if decide (se_udp_idle_timeout config = 0) then DEFAULT_UDP_IDLE_TIMEOUT else se_udp_idle_timeout config)
        (se_bandwidth_max_tx config) (se_bandwidth_max_rx config) (se_ignore_client_bandwidth config))).
(** The task [Server::serve] spawns for a connection: its transport with a
    target of its own, then [accept_with] and [handle]. *)
Definition serve_task {C} (server : ServerHandle S) (accept_with : TransportConfig Z → outcome foreign_error C)
    (handle : C → Z → outcome CoreError unit) : outcome CoreError unit :=
  let tx_target := 0 in
  transport ← build_transport_config env checks (sh_quic server) tx_target;
  connecting ← map_err core_error_of_foreign (accept_with transport);
  handle connecting tx_target.
(** [Server::serve]: a task per connection until the endpoint is closed; the
    results of the tasks are dropped. *)
Fixpoint serve {C} (server : ServerHandle S) (handle : C → Z → outcome CoreError unit)
    (incoming : list (TransportConfig Z → outcome foreign_error C)) : list (outcome CoreError unit) * outcome CoreError unit :=
  match incoming with
  | [] => ([], Ret ())
  | accept_with :: incoming =>
      let '(tasks, r) := serve server handle incoming in (serve_task server accept_with handle :: tasks, r)
  end.
Definition server_close : logged H unit := tell (EvClose CLOSE_ERR_CODE_OK []).
End serve.

(** ** Logs *)

(** The socket of a connection: its events, and what it is. *)
Definition protection {H S} (protector : option (S → bool)) (socket : S) : list (net_event H) :=
  match protector with Some protect => [EvProtect (protect socket)] | None => [] end.
Definition socket_events {H S} (protector : option (S → bool)) (addr : SocketAddr) (socket : S) : list (net_event H) :=
  [EvBind addr; EvBuffers DEFAULT_UDP_SOCKET_BUFFER_SIZE] ++ protection protector socket ++ [EvNonblocking].
Definition socket_of {S} (ep : endpoint_socket S) : S := match ep with PlainSocket s | ObfuscatedSocket s _ => s end.
Definition socket_for {S} (obfs : option ObfsConfig) (ep : endpoint_socket S) : Prop :=
  match obfs, ep with
  | None, PlainSocket _ => True
  | Some c, ObfuscatedSocket _ o => build_obfuscator c = Ret o
  | _, _ => False
  end.

Section sockets.
Context {H S : Type} (api : SocketApi S).
Lemma wrap_endpoint_log socket obfs : (wrap_endpoint (H:=H) api socket obfs).1 = [].
Proof.
  unfold wrap_endpoint, io, try. destruct obfs as [o|]; cbn.
  - destruct (sy_wrap api socket); cbn; try done. destruct (build_obfuscator o) as [ob|?|]; cbn; try done.
    by destruct (sy_endpoint api _).
  - by destruct (sy_endpoint api _).
Qed.
Lemma wrap_endpoint_Ret socket obfs ep : (wrap_endpoint (H:=H) api socket obfs).2 = Ret ep → socket_for obfs ep ∧ socket_of ep = socket.
Proof.
  unfold wrap_endpoint, io, try. destruct obfs as [o|]; cbn.
  - destruct (sy_wrap api socket); cbn; try done. destruct (build_obfuscator o) as [ob|?|] eqn:E; cbn; try done.
    destruct (sy_endpoint api _); cbn; try done. by intros [= <-].
  - destruct (sy_endpoint api _); cbn; try done. by intros [= <-].
Qed.
(** Whatever fails, nothing but the first events of a socket happens; an
    endpoint comes after all of them, on the socket that was bound. *)
Definition socket_event (e : net_event H) : Prop :=
  match e with EvBind _ | EvBuffers _ | EvProtect _ | EvNonblocking => True | _ => False end.
Lemma client_endpoint_log protector addr obfs :
  let '(evs, r) := make_client_endpoint (H:=H) api protector addr obfs in
  Forall socket_event evs ∧
  ∀ ep, r = Ret ep → sy_bind api addr = Ret (socket_of ep) ∧ evs = socket_events protector addr (socket_of ep) ∧ socket_for obfs ep.
Proof.
  unfold make_client_endpoint, socket_events, configure_udp_socket, maybe_protect_android_vpn_socket, io, try, tell, mbind, traced_bind. cbn.
  destruct (sy_bind api addr) as [socket|?|]; cbn; [|by repeat constructor..].
  pose proof (wrap_endpoint_log socket obfs) as Hl. pose proof (wrap_endpoint_Ret socket obfs) as Hr.
  destruct protector as [protect|]; cbn; destruct (sy_set_nonblocking api socket); cbn; destruct (wrap_endpoint api socket obfs) as [evs r]; cbn in *; subst;
    (split; [by repeat constructor|]); intros ep Hep; try done; destruct (Hr ep Hep) as [? <-]; done.
Qed.
End sockets.

Section guarded.
Context {H V : Type} `{!HeaderMap H V} {S : Type}.
Context (sy : SocketApi S) (ty : TlsApi) (qa : QuicApi H S) (env : bytes → option bytes) (checks : bool) (sha256 : bytes → bytes).

Lemma check_pin_result identity pin : (check_pin (H:=H) sha256 identity pin).2 = verify_pinned_certificate sha256 identity pin.
Proof.
  unfold check_pin, verify_pinned_certificate, try, downcast_certificates. destruct pin as [h|]; [|done]. destruct identity as [[chain|]|]; cbn; try done.
  destruct (head chain) as [leaf|]; cbn; [|done]. by case_decide.
Qed.
Lemma check_pin_log identity pin e : e ∈ (check_pin (H:=H) sha256 identity pin).1 → e = EvClose CLOSE_ERR_CODE_PROTOCOL_ERROR (str "tls pin mismatch").
Proof.
  unfold check_pin, try, downcast_certificates. destruct pin as [h|]; [|by intros ?%elem_of_nil]. destruct identity as [[chain|]|]; cbn; try (by intros ?%elem_of_nil).
  destruct (head chain) as [leaf|]; cbn; [|by intros ?%elem_of_nil]. case_decide; cbn; [by intros ?%elem_of_nil|]. by intros ?%list_elem_of_singleton.
Qed.
Lemma pin_holds identity pin h :
  verify_pinned_certificate sha256 identity pin = Ret () → pin = Some h →
  ∃ chain leaf, identity = Some (Some chain) ∧ head chain = Some leaf ∧ sha256 leaf = h.
Proof.
  intros Hv ->. unfold verify_pinned_certificate, downcast_certificates in Hv. destruct identity as [[chain|]|]; cbn in Hv; try done.
  destruct (head chain) as [leaf|] eqn:E; cbn in Hv; [|done]. case_decide; [|done]. eauto 6.
Qed.
Lemma build_client_config_Ret config crypto transport :
  build_client_config ty env checks config () = Ret (crypto, transport) →
  tls_verifier crypto = (if co_insecure config then SkipServerVerification else WebPkiServerVerifier (co_root_certificates config)) ∧
  tls_alpn crypto = [ALPN_H3] ∧ build_transport_config env checks (co_quic config) () = Ret transport.
Proof.
  unfold build_client_config. intros Hc. apply bind_Ret_inv in Hc as ([] & _ & Hc). apply bind_Ret_inv in Hc as (v & Hv & Hc).
  apply bind_Ret_inv in Hc as ([] & _ & Hc). apply bind_Ret_inv in Hc as (t & Ht & Hc). injection Hc as <- <-. cbn. split_and!; [|done|done].
  destruct (co_insecure config); [by injection Hv as <-|]. apply bind_Ret_inv in Hv as ([] & _ & Hv).
  apply bind_Ret_inv in Hv as ([] & _ & Hv). by injection Hv as <-.
Qed.

(** What [EvRequest] in a log says. *)
Definition peer_verified (config : CoreClientConfig) (chain : list bytes) : Prop :=
  (co_insecure config = false → ty_webpki ty (co_root_certificates config) chain (co_server_name config) = true) ∧
  ∀ h, co_pinned_sha256 config = Some h → ∃ leaf, head chain = Some leaf ∧ sha256 leaf = h.

Lemma connect_on_request padding now config ep request :
  EvRequest request ∈ (connect_on ty qa env checks sha256 padding now config ep).1 →
  auth_request padding (handshake_config config) = Ret request ∧
  ∃ crypto transport identity, build_client_config ty env checks config () = Ret (crypto, transport) ∧
    qa_connect qa ep crypto (co_server_addr config) (co_server_name config) = Ret identity ∧
    verify_pinned_certificate sha256 identity (co_pinned_sha256 config) = Ret ().
Proof.
  unfold connect_on. intros ([crypto transport] & Hc & He)%traced_try. apply traced_tell in He as [[=]|He].
  apply traced_try in He as (identity & Hi & He). apply traced_elem in He as [He|([] & Hpin & He)]; [by apply check_pin_log in He|].
  rewrite check_pin_result in Hpin. apply traced_try in He as ([] & _ & He). apply traced_try in He as (r & Hr & He).
  assert (request = r) as ->.
  { apply traced_tell in He as [[= ->]|He]; [done|]. apply traced_try in He as (response & _ & He). case_decide.
    - by apply traced_tell in He as [[=]|?%elem_of_nil].
    - by apply elem_of_nil in He. }
  split; [done|]. exists crypto, transport, identity. split_and!; [done| |done]. by destruct (qa_connect _ _ _ _ _); inversion Hi.
Qed.
Lemma connect_on_dial padding now config ep addr name :
  EvDial addr name ∈ (connect_on ty qa env checks sha256 padding now config ep).1 → addr = co_server_addr config ∧ name = co_server_name config.
Proof.
  unfold connect_on. intros ([crypto transport] & Hc & He)%traced_try. apply traced_tell in He as [[= -> ->]|He]; [done|].
  apply traced_try in He as (identity & Hi & He). apply traced_elem in He as [He|([] & Hpin & He)]; [by apply check_pin_log in He|].
  apply traced_try in He as ([] & _ & He). apply traced_try in He as (r & Hr & He). apply traced_tell in He as [[=]|He].
  apply traced_try in He as (response & _ & He). case_decide.
  - by apply traced_tell in He as [[=]|?%elem_of_nil].
  - by apply elem_of_nil in He.
Qed.
(** Every event after the socket has its socket before it. *)
Lemma connect_socket_first protector padding now config e :
  e ∈ (connect sy ty qa env checks sha256 protector padding now config).1 →
  socket_event e ∨
  ∃ ep, (make_client_endpoint (H:=H) sy protector (bind_addr_for (co_server_addr config)) (co_obfs config)).2 = Ret ep ∧
    socket_for (co_obfs config) ep ∧ e ∈ (connect_on ty qa env checks sha256 padding now config ep).1 ∧
    sy_bind sy (bind_addr_for (co_server_addr config)) = Ret (socket_of ep) ∧
    (connect sy ty qa env checks sha256 protector padding now config).1
      = socket_events protector (bind_addr_for (co_server_addr config)) (socket_of ep)
        ++ (connect_on ty qa env checks sha256 padding now config ep).1.
Proof.
  unfold connect. case_decide; [by intros ?%elem_of_nil|].
  pose proof (client_endpoint_log (H:=H) sy protector (bind_addr_for (co_server_addr config)) (co_obfs config)) as Hlog.
  destruct (make_client_endpoint sy protector _ _) as [evs r]. destruct Hlog as [Hpre Hret]. intros [He|(ep & Hr & He)]%traced_elem.
  - left. by eapply (proj1 (Forall_forall _ _)).
  - right. exists ep. destruct (Hret ep Hr) as (? & -> & Hs). split_and!; [done..|]. by apply traced_after.
Qed.
End guarded.

(** ** Properties *)

(** rustls asks the verifier of the connection before it is established. *)
Definition honours_verifier {H S} (ty : TlsApi) (qa : QuicApi H S) : Prop :=
  ∀ ep crypto addr name identity, qa_connect qa ep crypto addr name = Ret identity →
    ∃ chain, identity = Some (Some chain) ∧ verify_server_cert ty (tls_verifier crypto) chain name = true.

(** The connection whose log is [log]: its socket was bound, given its buffers,
    passed to the protector if one is installed, and made non-blocking before
    anything else. *)
Definition opened_first {H S} (sy : SocketApi S) (protector : option (S → bool)) (addr : SocketAddr) (log : list (net_event H)) : Prop :=
  ∃ socket rest, sy_bind sy addr = Ret socket ∧ log = socket_events protector addr socket ++ rest.

Lemma connect_request_verified {H V} `{!HeaderMap H V} {S} sy ty (qa : QuicApi H S) env checks sha256 protector padding now config request :
  honours_verifier ty qa → EvRequest request ∈ (connect sy ty qa env checks sha256 protector padding now config).1 →
  auth_request padding (handshake_config config) = Ret request ∧
  opened_first sy protector (bind_addr_for (co_server_addr config)) (connect sy ty qa env checks sha256 protector padding now config).1 ∧
  ∃ ep crypto transport chain,
    (make_client_endpoint (H:=H) sy protector (bind_addr_for (co_server_addr config)) (co_obfs config)).2 = Ret ep ∧
    build_client_config ty env checks config () = Ret (crypto, transport) ∧
    qa_connect qa ep crypto (co_server_addr config) (co_server_name config) = Ret (Some (Some chain)) ∧
    socket_for (co_obfs config) ep ∧ peer_verified ty sha256 config chain.
Proof.
  intros Hh [[]|(ep & Hep & Hs & He & Hb & Hlog)]%connect_socket_first.
  apply connect_on_request in He as (Hr & crypto & transport & identity & Hc & Hq & Hpin). split_and!; [done|by do 2 eexists|].
  destruct (Hh _ _ _ _ _ Hq) as (chain & -> & Hv). exists ep, crypto, transport, chain. split_and!; [done..|].
  destruct (build_client_config_Ret _ _ _ _ _ _ Hc) as (Hver & _). split.
  - intros Hi. rewrite Hver, Hi in Hv. exact Hv.
  - intros h Hh'. destruct (pin_holds sha256 _ _ h Hpin Hh') as (chain' & leaf & [= <-] & ? & ?). eauto.
Qed.

(** C7: the password goes only to a server that was verified. Whatever fails on
    the way, a connection attempt sends its authentication request only after
    the certificate chain the peer presented on this very connection was
    accepted against the configured roots for the configured name, unless
    verification is switched off, and only if its first certificate has the
    pinned hash when one is configured, also when verification is switched off;
    the request is sent through the obfuscated socket if obfuscation is
    configured; only the configured server is dialed, and only after the socket
    was bound, given its buffers, handed to the installed protector of the VPN
    service if there is one, and made non-blocking. What the service answered
    the protector does not matter to the code, so a dial does not show that the
    socket was exempted from the VPN. *)
Theorem connect_guarded {H V} `{!HeaderMap H V} {S} sy ty (qa : QuicApi H S) env checks sha256 protector padding now config :
  honours_verifier ty qa →
  let log := (connect sy ty qa env checks sha256 protector padding now config).1 in
  let bound := bind_addr_for (co_server_addr config) in
  (∀ addr name, EvDial addr name ∈ log → addr = co_server_addr config ∧ name = co_server_name config ∧ opened_first sy protector bound log) ∧
  ∀ request, EvRequest request ∈ log →
    auth_request padding (handshake_config config) = Ret request ∧ opened_first sy protector bound log ∧
    ∃ ep crypto transport chain,
      (make_client_endpoint (H:=H) sy protector bound (co_obfs config)).2 = Ret ep ∧
      build_client_config ty env checks config () = Ret (crypto, transport) ∧
      qa_connect qa ep crypto (co_server_addr config) (co_server_name config) = Ret (Some (Some chain)) ∧
      socket_for (co_obfs config) ep ∧ peer_verified ty sha256 config chain.
Proof.
  intros Hh log bound. split.
  - intros addr name [[]|(ep & _ & _ & He & Hb & Hlog)]%connect_socket_first.
    apply connect_on_dial in He as [-> ->]. split_and!; [done|done|]. do 2 eexists. split; [exact Hb|exact Hlog].
  - intros request Hin. exact (connect_request_verified sy ty qa env checks sha256 protector padding now config request Hh Hin).
Qed.

(** A connection that succeeds is the handshake of the client, and what it
    leaves behind agrees with it. *)
Theorem connect_handshake {H V} `{!HeaderMap H V} {S} sy ty (qa : QuicApi H S) env checks sha256 protector padding now config client info :
  (connect sy ty qa env checks sha256 protector padding now config).2 = Ret (client, info) →
  (∃ identity, client_connect sha256 padding (Ret identity) (fun r => map_err core_error_of_foreign (qa_exchange qa r)) (handshake_config config)
     = Ret info) ∧
  cl_tx_target client = hi_tx info ∧ cl_tx_limiter client = limiter_optional now (hi_tx info) ∧ cl_udp client = hi_udp_enabled info ∧
  socket_for (co_obfs config) (cl_socket client).
Proof.
  unfold connect. case_decide as Hn; [done|]. intros (ep & Hep & Hon & _)%traced_Ret.
  pose proof (client_endpoint_log (H:=H) sy protector (bind_addr_for (co_server_addr config)) (co_obfs config)) as Hlog.
  destruct (make_client_endpoint sy protector _ _) as [evs r]. destruct Hlog as [_ Hret]. destruct (Hret ep Hep) as (_ & _ & Hs).
  unfold connect_on in Hon. apply traced_Ret in Hon as ([crypto transport] & _ & Hon & _). apply traced_Ret in Hon as ([] & _ & Hon & _).
  apply traced_Ret in Hon as (identity & _ & Hon & _). apply traced_Ret in Hon as ([] & Hpin & Hon & _). rewrite check_pin_result in Hpin.
  apply traced_Ret in Hon as ([] & _ & Hon & _). apply traced_Ret in Hon as (request & Hr & Hon & _).
  apply traced_Ret in Hon as ([] & _ & Hon & _). apply traced_Ret in Hon as (response & Hx & Hon & _).
  cbn in Hr, Hx. case_decide as Hst; [done|]. injection Hon as <- <-. cbn. split_and!; try done. exists identity.
  unfold client_connect. rewrite decide_False by done. cbn [mbind outcome_bind]. cbn in Hpin |- *. rewrite Hpin. cbn. rewrite Hr. cbn. rewrite Hx. cbn.
  unfold accept_response. rewrite decide_False by (intros Hne; by apply Hne). done.
Qed.

(** The target of the congestion controller does not decide whether the
    transport is accepted. *)
Lemma transport_retarget {T U} env checks config (a : T) (b : U) t :
  build_transport_config env checks config a = Ret t → ∃ t', build_transport_config env checks config b = Ret t'.
Proof.
  assert (∀ w, build_brutal_config env checks a = Ret w → ∃ w', build_brutal_config env checks b = Ret w') as Hb.
  { unfold build_brutal_config. intros w (i & Hi & _)%bind_Ret_inv. rewrite Hi. by eexists. }
  unfold build_transport_config. repeat case_decide; try done. intros Hret.
  apply bind_Ret_inv in Hret as (stream & Hs & Hret). apply bind_Ret_inv in Hret as (recv & Hr & Hret). apply bind_Ret_inv in Hret as (idle & Hi & Hret).
  apply bind_Ret_inv in Hret as (w & Hw & Hret). apply bind_Ret_inv in Hret as (bidi & Hd & _). destruct (Hb w Hw) as [w' Hw'].
  rewrite Hs. cbn [mbind outcome_bind]. rewrite Hr. cbn [mbind outcome_bind]. rewrite Hi. cbn [mbind outcome_bind].
  rewrite Hw'. cbn [mbind outcome_bind]. rewrite Hd. by eexists.
Qed.
Lemma make_endpoint_Ret {H S} (api : SocketApi S) addr obfs ep :
  (make_endpoint (H:=H) api addr obfs).2 = Ret ep → socket_for obfs ep.
Proof.
  unfold make_endpoint. intros ([] & _ & He & _)%traced_Ret. apply traced_Ret in He as (socket & _ & He & _).
  do 3 (apply traced_Ret in He as ([] & _ & He & _)). by eapply wrap_endpoint_Ret in He as [? _].
Qed.

(** A server that is bound serves. If [bind] returned, the state it serves
    with is that of its configuration, and no connection is ever lost to the
    transport settings: every connection that arrives is given to [accept_with]
    and, if quinn accepts it, is handled with a rate target of its own. *)
Theorem bind_serves {H S C} sy ty env checks config (server : ServerHandle S) (handle : C → Z → outcome CoreError unit) incoming :
  (bind (H:=H) sy ty env checks config).2 = Ret server →
  bind_state (se_certificates config)
    (mkServerState (password_authenticate (se_authenticator config)) (se_disable_udp config) (se_speed_test config)
       (se_udp_idle_timeout config) (se_bandwidth_max_tx config) (se_bandwidth_max_rx config) (se_ignore_client_bandwidth config))
    = Ret (sh_state server) ∧ socket_for (se_obfs config) (sh_socket server) ∧
  ∃ transport, build_transport_config env checks (se_quic config) 0 = Ret transport ∧
    serve env checks server handle incoming
    = (map (fun accept_with => connecting ← map_err core_error_of_foreign (accept_with transport); handle connecting 0) incoming, Ret ()).
Proof.
  unfold bind, bind_state. case_decide as Hc; [done|]. intros Hb. do 3 (apply traced_Ret in Hb as ([] & _ & Hb & _)).
  apply traced_Ret in Hb as (t & Ht & Hb & _). apply traced_Ret in Hb as (socket & Hs & Hb & _). injection Hb as <-. cbn in Ht |- *.
  split_and!; [done|by eapply make_endpoint_Ret|]. destruct (transport_retarget env checks (se_quic config) () 0 t Ht) as [t' Ht'].
  exists t'. split; [done|]. induction incoming as [|accept_with incoming IH]; cbn; [done|]. rewrite IH. unfold serve_task. cbn. by rewrite Ht'.
Qed.

(** A client with a pinned certificate and obfuscation on Android, where the VPN
    service refuses to exempt the socket, and a server that refuses its password. *)
Definition example_sockets : SocketApi unit := mkSocketApi _ (fun _ => Ret ()) (fun _ => Ret ()) (fun _ => Ret ()) (fun _ => Ret ()).
Definition example_tls : TlsApi :=
  mkTlsApi (Ret ()) (fun _ => Ret ()) (fun roots => if decide (roots = []) then Err (str "no root trust anchors were provided") else Ret ())
    (fun _ => Ret ()) (fun _ _ => Ret ()) (Ret ()) (fun roots chain _ => bool_decide (last chain = head roots)).
Definition example_quic : QuicApi (gmap bytes bytes) unit :=
  mkQuicApi _ _ (fun _ crypto _ name =>
      let chain := [str "leaf"; str "root"] in
      if verify_server_cert example_tls (tls_verifier crypto) chain name then Ret (Some (Some chain)) else Err (ConnectionError (str "bad certificate")))
    (Ret ()) (fun _ => Ret (mkResponse 404 ∅)).
Definition example_core_client : CoreClientConfig :=
  mkCoreClient (SocketV4 [127; 0; 0; 1] 443) (str "h.example") (str "secret") 0 0 (Some (Salamander (str "66ccff"))) false [str "root"]
    (Some (str "leaf")) client_default.
Definition example_log : list (net_event (gmap bytes bytes)) :=
  (connect example_sockets example_tls example_quic (fun _ => None) false (fun x => x) (Some (fun _ => false)) (replicate 256 97) 0 example_core_client).1.
Lemma example_honours : honours_verifier example_tls example_quic.
Proof.
  intros ep crypto addr name identity. cbn. destruct (verify_server_cert _ _ _ _) eqn:E; [|done]. intros [= <-]. eauto.
Qed.
Fixpoint first_request {H} (log : list (net_event H)) : option (Request H) :=
  match log with
  | EvRequest request :: _ => Some request
  | _ :: log => first_request log
  | [] => None
  end.
Lemma first_request_elem {H} (log : list (net_event H)) request : first_request log = Some request → EvRequest request ∈ log.
Proof. induction log as [|[] log IH]; cbn; try (intros; apply elem_of_cons; by auto); [done|]. intros [= ->]. apply list_elem_of_here. Qed.
Lemma example_sends : is_Some (first_request example_log).
Proof.
  assert (bool_decide (is_Some (first_request example_log)) = true) as H by (vm_compute; reflexivity). by apply bool_decide_eq_true in H.
Qed.
Lemma connect_guarded_witness :
  ∃ request, EvRequest request ∈ example_log ∧
    ∃ rest, example_log = [EvBind (SocketV4 [0; 0; 0; 0] 0); EvBuffers DEFAULT_UDP_SOCKET_BUFFER_SIZE; EvProtect false; EvNonblocking] ++ rest.
Proof.
  destruct (connect_guarded example_sockets example_tls example_quic (fun _ => None) false (fun x => x) (Some (fun _ => false)) (replicate 256 97) 0
    example_core_client example_honours) as [_ H].
  destruct example_sends as [request E]. apply first_request_elem in E.
  exists request. split; [exact E|]. destruct (proj1 (proj2 (H request E))) as ([] & rest & _ & Hlog). exists rest. exact Hlog.
Defined.
Lemma bind_serves_witness :
  ∃ server : ServerHandle unit,
    (bind (H:=gmap bytes bytes) example_sockets example_tls (fun _ => None) false
      (mkCoreServer (SocketV4 [0; 0; 0; 0] 443) [str "cert"] (Pkcs8 [1]) (password_new (str "pw")) None false false 0 0 0 false server_default)).2
      = Ret server ∧
    (serve (fun _ => None) false server (fun _ _ => Ret ()) [fun _ => Ret (E:=foreign_error) (); fun _ => Err (ConnectionError (str "gone"))]).1
      = [Ret (); Err (Transport (str "gone"))].
Proof.
  eexists. split; [vm_compute; reflexivity|]. edestruct (bind_serves (H:=gmap bytes bytes) (C:=unit) example_sockets example_tls (fun _ => None) false
    (mkCoreServer (SocketV4 [0; 0; 0; 0] 443) [str "cert"] (Pkcs8 [1]) (password_new (str "pw")) None false false 0 0 0 false server_default))
    as (_ & _ & t & _ & Hs).
  - vm_compute. reflexivity.
  - rewrite Hs. reflexivity.
Defined.
