(* ===== verification/Anyhow.v ===== *)
(** * Error chains ([anyhow]) and the texts of errors ([core/src/errors.rs])

    The applications report errors as [anyhow] chains: contexts around a cause.
    A cause is a text or an error of the core, which handlers find again by
    walking the chain. *)
From S2P Require Import Prelude Errors RustStr Net.
Local Open Scope Z_scope.

(** The [Display] texts that [thiserror] derives from the attributes. *)
Definition protocol_error_text (e : ProtocolError) : bytes :=
  match e with
  | InvalidAddressLength => str "invalid address length"
  | InvalidMessageLength => str "invalid message length"
  | InvalidPaddingLength => str "invalid padding length"
  | VarintOverflow => str "varint value exceeds 62 bits"
  | UnexpectedEof => str "unexpected eof"
  | InvalidHeaderValue => str "invalid http header value"
  | Io msg => str "io error: " ++ msg
  end.

(** The hexadecimal digits of a [u64], without leading zeros. *)
Fixpoint hex_digits (fuel : nat) (n : Z) : bytes :=
  match fuel with
  | O => []
  | S fuel => (if decide (n < 16) then [] else hex_digits fuel (n / 16)) ++ [hex_digit (n mod 16)]
  end.

Definition core_error_text (e : CoreError) : bytes :=
  match e with
  | Protocol e => protocol_error_text e
  | Config msg => str "configuration error: " ++ msg
  | Closed msg => str "closed: " ++ msg
  | Connect msg => str "connect error: " ++ msg
  | Transport msg => str "transport error: " ++ msg
  | Authentication status => str "authentication failed with status " ++ to_string status
  | Dial msg => str "dial error: " ++ msg
  | UnexpectedFrameType frame => str "unexpected frame type 0x" ++ hex_digits 16 frame
  | Tls msg => str "tls error: " ++ msg
  end.

(** A chain, the outermost context first. *)
Inductive cause := CauseText (text : bytes) | CauseCore (e : CoreError).
Abbreviation anyhow := (list cause).
#[global] Instance cause_eq_dec : EqDecision cause.
Proof. solve_decision. Defined.

(** [anyhow!(..)], the [?] of a core error, and the [?] of an io error. *)
Definition anyhow_msg (text : bytes) : anyhow := [CauseText text].
Definition anyhow_core (e : CoreError) : anyhow := [CauseCore e].
Definition anyhow_io (e : io_error) : anyhow := [CauseText (io_error_text e)].

(** [.context(..)] and [.with_context(..)]. *)
Definition add_context (text : bytes) (e : anyhow) : anyhow := CauseText text :: e.
Definition context {A} (text : bytes) (m : outcome anyhow A) : outcome anyhow A := map_err (add_context text) m.

Definition cause_text (c : cause) : bytes :=
  match c with CauseText t => t | CauseCore e => core_error_text e end.
(** [err.to_string()] and [format!("{err:#}")]. *)
Definition err_text (e : anyhow) : bytes := match e with c :: _ => cause_text c | [] => [] end.
Definition err_chain (e : anyhow) : bytes := join (str ": ") (map cause_text e).

Example err_chain_example :
  err_chain (add_context (str "failed to connect hysteria client") (anyhow_core (Authentication 404)))
  = str "failed to connect hysteria client: authentication failed with status 404".
Proof. vm_compute. reflexivity. Qed.
Example frame_text_example : core_error_text (UnexpectedFrameType 1025) = str "unexpected frame type 0x401".
Proof. vm_compute. reflexivity. Qed.

Lemma anyhow_context_Ret {A} text (m : outcome anyhow A) a : context text m = Ret a ↔ m = Ret a.
Proof. by destruct m. Qed.
Lemma context_Err {A} text (m : outcome anyhow A) e :
  context text m = Err e ↔ ∃ e', m = Err e' ∧ e = add_context text e'.
Proof. destruct m; cbn; split; try done; try naive_solver. Qed.
Lemma context_Panic {A} text (m : outcome anyhow A) : context text m = Panic ↔ m = Panic.
Proof. by destruct m. Qed.
Lemma no_panic_context {A} text (m : outcome anyhow A) : no_panic m → no_panic (context text m).
Proof. apply no_panic_map_err. Qed.
#[export] Hint Resolve no_panic_context : rust.
