(* ===== verification/Dns.v ===== *)
(** * The DNS proxy of the mobile client ([mobile/src/dns_proxy.rs])

    Queries for the advertised resolver are answered locally (IPv6 lookups get
    an empty answer) or sent over TLS through the tunnel to the first upstream
    that responds. The tunnel and TLS are the class [DotNet]: each operation
    may change the state of the network, fail, or exceed its timeout. *)
From S2P Require Import Prelude Errors RustStr Net Anyhow.
Local Open Scope Z_scope.

Definition DNS_HEADER_LEN : Z := 12.
Definition DNS_TYPE_AAAA : Z := 28.
Definition DNS_RCODE_NOERROR : Z := 0.
Definition DNS_RCODE_SERVFAIL : Z := 2.
Definition DNS_PLAIN_PORT : Z := 53.
Definition DNS_DOT_PORT : Z := 853.

Inductive DnsProxyTransport := Plain | Dot.
Inductive DnsQueryKind := Aaaa | Other (qtype : Z).
#[global] Instance DnsProxyTransport_eq_dec : EqDecision DnsProxyTransport.
Proof. solve_decision. Defined.
Record DotUpstream := mkDotUpstream { dot_address : bytes; dot_server_name : bytes }.

(** ** Packets *)

Record DnsQuestion := mkDnsQuestion { dq_qtype : Z; dq_end_offset : Z }.

(** The loop over the labels of the first question's name: the offset after
    its final zero. Every turn moves past a byte at least. *)
Fixpoint skip_name (fuel : nat) (packet : bytes) (offset : Z) : outcome anyhow Z :=
  match fuel with
  | O => Panic
  | S fuel =>
      match get packet offset with
      | None => Err (anyhow_msg (str "DNS question name is truncated"))
      | Some label_len =>
          if decide (Z.land label_len 192 ≠ 0)
          then Err (anyhow_msg (str "compressed DNS question names are not supported"))
          else
            let offset := offset + 1 in
            if decide (label_len = 0) then Ret offset
            else
              let offset := sat_add offset label_len in
              if decide (len packet < offset)
              then Err (anyhow_msg (str "DNS question name exceeds packet length"))
              else skip_name fuel packet offset
      end
  end.

Definition first_question (packet : bytes) : outcome anyhow DnsQuestion :=
  if decide (len packet < DNS_HEADER_LEN) then Err (anyhow_msg (str "DNS packet is truncated"))
  else
    b4 ← index packet 4; b5 ← index packet 5;
    if decide (of_be [b4; b5] = 0) then Err (anyhow_msg (str "DNS packet does not contain a question"))
    else
      offset ← skip_name (S (length packet)) packet DNS_HEADER_LEN;
      if decide (len packet < offset + 4)
      then Err (anyhow_msg (str "DNS question is missing qtype/qclass"))
      else
        t0 ← index packet offset; t1 ← index packet (offset + 1);
        Ret (mkDnsQuestion (of_be [t0; t1]) (offset + 4)).

Definition classify_dns_query (packet : bytes) : outcome anyhow DnsQueryKind :=
  question ← first_question packet;
  Ret (if decide (dq_qtype question = DNS_TYPE_AAAA) then Aaaa else Other (dq_qtype question)).

Definition response_flags (request_flags rcode : Z) : Z :=
  Z.lor (Z.lor (Z.lor (Z.lor 0x8000 0x0080) (Z.land request_flags 0x7900)) (Z.land request_flags 0x0130)) rcode.

Definition build_dns_response_with_rcode (query : bytes) (rcode : Z) : outcome anyhow bytes :=
  question ← first_question query;
  response ← slice query 0 (dq_end_offset question);
  b2 ← index query 2; b3 ← index query 3;
  response ← copy_from_slice response 2 4 (be_bytes 2 (response_flags (of_be [b2; b3]) rcode));
  response ← copy_from_slice response 6 8 (be_bytes 2 0);
  response ← copy_from_slice response 8 10 (be_bytes 2 0);
  copy_from_slice response 10 12 (be_bytes 2 0).

Definition build_empty_dns_success_response (query : bytes) : outcome anyhow bytes :=
  build_dns_response_with_rcode query DNS_RCODE_NOERROR.

Definition split_host_port (destination : bytes) : option (bytes * Z) :=
  '(host, port) ← rsplit_once COLON destination;
  port ← parse_u16 port;
  Some (host, port).

Definition match_dns_proxy_destination (local_server_ip destination : bytes) : option DnsProxyTransport :=
  match split_host_port destination with
  | Some (host, port) =>
      if decide (port = DNS_PLAIN_PORT ∧ host = local_server_ip) then Some Plain
      else if decide (port = DNS_DOT_PORT ∧ host = local_server_ip) then Some Dot
      else None
  | None => None
  end.

(** ** Upstreams *)

(** An operation under [tokio::time::timeout]: [None] when it elapsed. *)
Definition timed (E A : Type) : Type := option (outcome E A).

(** The tunnel's streams [S], TLS sessions [T] on them, and the state [W] of
    the network. *)
Class DotNet (W S T : Type) := {
  dn_tcp : W → bytes → W * timed CoreError S;
  dn_server_name : bytes → bool;
  dn_tls : W → bytes → S → W * timed io_error T;
  dn_write_all : W → T → bytes → W * outcome io_error T;
  dn_flush : W → T → W * outcome io_error T;
  dn_read_exact : W → T → Z → W * timed io_error (bytes * T)
}.

Record DnsProxy := mkDnsProxy {
  dp_local_server_ip : bytes;
  dp_upstreams : list DotUpstream;
  dp_timeout : Z;
  dp_failure_notifier : bool
}.

(** [DnsProxy::new]; [add_root] is [RootCertStore::add], the error its text. *)
Definition dns_proxy_new (add_root : bytes → outcome bytes unit) (local_server_ip : bytes)
    (root_certificates : list bytes) (upstreams : list DotUpstream) (timeout : Z) (failure_notifier : bool)
    : outcome anyhow DnsProxy :=
  if decide (upstreams = []) then Err (anyhow_msg (str "at least one DoT upstream must be configured"))
  else
    _ ← foldr (fun cert rest =>
          _ ← map_err (fun err => anyhow_msg (str "invalid DoT root certificate: " ++ err)) (add_root cert); rest)
        (Ret ()) root_certificates;
    Ret (mkDnsProxy local_server_ip upstreams timeout failure_notifier).

Definition match_destination (proxy : DnsProxy) (destination : bytes) : option DnsProxyTransport :=
  match_dns_proxy_destination (dp_local_server_ip proxy) destination.

(** The network, and the failures reported to the notifier so far. *)
Record dns_state (W : Type) := mkDnsState { ds_net : W; ds_reports : list bytes }.
Arguments mkDnsState {W}.
Arguments ds_net {W}.
Arguments ds_reports {W}.

Definition dns (W A : Type) : Type := dns_state W → dns_state W * outcome anyhow A.
#[global] Instance dns_ret {W} : MRet (dns W) := fun A a s => (s, Ret a).
#[global] Instance dns_bind {W} : MBind (dns W) := fun A B f m s =>
  match m s with
  | (s, Ret a) => f a s
  | (s, Err e) => (s, Err e)
  | (s, Panic) => (s, Panic)
  end.
Definition dns_lift {W A} (m : outcome anyhow A) : dns W A := fun s => (s, m).
(** A network operation, its error converted by [?]; and one under a timeout,
    with the contexts of its two failures. *)
Definition on_net {W E A} (f : W → W * outcome E A) (conv : E → anyhow) : dns W A := fun s =>
  let '(w, r) := f (ds_net s) in (mkDnsState w (ds_reports s), map_err conv r).
Definition timed_result {E A} (r : timed E A) (elapsed : bytes) (conv : E → anyhow) : outcome anyhow A :=
  match r with
  | None => Err (add_context elapsed (anyhow_msg (str "deadline has elapsed")))
  | Some r => map_err conv r
  end.
Definition on_net_timed {W E A} (f : W → W * timed E A) (elapsed : bytes) (conv : E → anyhow) : dns W A := fun s =>
  let '(w, r) := f (ds_net s) in (mkDnsState w (ds_reports s), timed_result r elapsed conv).

Section upstreams.
Context {W S T : Type} `{!DotNet W S T}.

Definition query_upstream (upstream : DotUpstream) (request : bytes) : dns W bytes :=
  stream ← on_net_timed (fun w => dn_tcp w (dot_address upstream)) (str "DoT TCP connect timed out")
             (fun e => add_context (str "failed to open DoT TCP stream to " ++ dot_address upstream) (anyhow_core e));
  _ ← dns_lift (if dn_server_name (dot_server_name upstream) then Ret ()
                else Err (anyhow_msg (str "invalid DoT server name " ++ dot_server_name upstream)));
  tls ← on_net_timed (fun w => dn_tls w (dot_server_name upstream) stream) (str "DoT TLS handshake timed out")
          (fun e => add_context (str "DoT TLS handshake failed") (anyhow_io e));
  request_len ← dns_lift (if decide (len request ≤ u16_max) then Ret (len request)
                          else Err (anyhow_msg (str "DNS query exceeds DoT frame size")));
  tls ← on_net (fun w => dn_write_all w tls (be_bytes 2 request_len)) anyhow_io;
  tls ← on_net (fun w => dn_write_all w tls request) anyhow_io;
  tls ← on_net (fun w => dn_flush w tls) anyhow_io;
  '(len_buf, tls) ← on_net_timed (fun w => dn_read_exact w tls 2) (str "DoT response length timed out")
                      (fun e => add_context (str "failed to read DoT response length") (anyhow_io e));
  '(response, _) ← on_net_timed (fun w => dn_read_exact w tls (of_be len_buf)) (str "DoT response body timed out")
                     (fun e => add_context (str "failed to read DoT response body") (anyhow_io e));
  mret response.

Definition failed_via (upstream : DotUpstream) (err : anyhow) : bytes :=
  dot_server_name upstream ++ str " via " ++ dot_address upstream ++ str " failed: " ++ err_chain err.

(** The loop over the upstreams: a response, or the text of the last error. *)
Fixpoint try_upstreams (upstreams : list DotUpstream) (request : bytes) (last_error : option bytes)
    : dns W (bytes + option bytes) := fun s =>
  match upstreams with
  | [] => (s, Ret (inr last_error))
  | upstream :: upstreams =>
      match query_upstream upstream request s with
      | (s, Ret response) => (s, Ret (inl response))
      | (s, Err err) => try_upstreams upstreams request (Some (failed_via upstream err)) s
      | (s, Panic) => (s, Panic)
      end
  end.

Definition report_failure (proxy : DnsProxy) (reason : bytes) : dns W unit := fun s =>
  (if dp_failure_notifier proxy then mkDnsState (ds_net s) (ds_reports s ++ [reason]) else s, Ret ()).

Definition resolve_raw (proxy : DnsProxy) (request : bytes) : dns W bytes :=
  kind ← dns_lift (classify_dns_query request);
  match kind with
  | Aaaa => dns_lift (build_empty_dns_success_response request)
  | Other _ =>
      r ← try_upstreams (dp_upstreams proxy) request None;
      match r with
      | inl response => mret response
      | inr last_error =>
          _ ← report_failure proxy (default (str "no DoT upstreams attempted") last_error);
          dns_lift (build_dns_response_with_rcode request DNS_RCODE_SERVFAIL)
      end
  end.

(** [open_dot_upstream]: a stream to the first upstream that can be dialed. *)
Fixpoint dial_upstreams (upstreams : list DotUpstream) (last_error : option bytes) : dns W (S + option bytes) := fun s =>
  match upstreams with
  | [] => (s, Ret (inr last_error))
  | upstream :: upstreams =>
      let '(w, r) := dn_tcp (ds_net s) (dot_address upstream) in
      let s := mkDnsState w (ds_reports s) in
      match r with
      | Some (Ret stream) => (s, Ret (inl stream))
      | Some (Err err) => dial_upstreams upstreams (Some (failed_via upstream (anyhow_core err))) s
      | Some Panic => (s, Panic)
      | None =>
          dial_upstreams upstreams
            (Some (dot_server_name upstream ++ str " via " ++ dot_address upstream ++ str " timed out opening TCP tunnel")) s
      end
  end.

Definition open_dot_upstream (proxy : DnsProxy) : dns W S :=
  r ← dial_upstreams (dp_upstreams proxy) None;
  match r with
  | inl stream => mret stream
  | inr last_error =>
      let reason := default (str "no DoT upstreams attempted") last_error in
      _ ← report_failure proxy reason;
      dns_lift (Err (anyhow_msg (str "failed to open DoT upstream tunnel: " ++ reason)))
  end.
End upstreams.

(** ** The grammar of a question *)

(** A name is a sequence of labels of 1 to 63 bytes and a final zero. *)
Definition label_ok (l : bytes) : Prop := 1 ≤ len l ≤ 63.
Definition name_wire (labels : list bytes) : bytes := concat (map (fun l => len l :: l) labels) ++ [0].
(** A packet: the header, the first question and whatever follows it. *)
Definition query_wire (header : bytes) (labels : list bytes) (qtype : Z) (qclass rest : bytes) : bytes :=
  header ++ name_wire labels ++ be_bytes 2 qtype ++ qclass ++ rest.
Definition header_ok (header : bytes) : Prop := len header = DNS_HEADER_LEN ∧ of_be (take 2 (drop 4 header)) ≠ 0.

Lemma label_byte b : is_u8 b → Z.land b 192 ≠ 0 ↔ 64 ≤ b.
Proof.
  intros Hb. pose proof (u8_forall (fun b => Bool.eqb (negb (Z.land b 192 =? 0)) (64 <=? b)) ltac:(vm_compute; reflexivity) b Hb) as H.
  cbn beta in H. apply eqb_prop in H. rewrite <- Z.leb_le, <- H, negb_true_iff, Z.eqb_neq. done.
Qed.

Lemma get_app_r {A} (p q : list A) x i : i = len p → get (p ++ x :: q) i = Some x.
Proof.
  intros ->. unfold get. rewrite decide_True by apply len_nonneg. unfold len. rewrite Nat2Z.id. by rewrite list_lookup_middle.
Qed.
Lemma get_end {A} (p : list A) i : i = len p → get p i = None.
Proof.
  intros ->. unfold get. rewrite decide_True by apply len_nonneg. unfold len. rewrite Nat2Z.id. by apply lookup_ge_None_2.
Qed.

Lemma name_wire_cons l labels : name_wire (l :: labels) = len l :: l ++ name_wire labels.
Proof. unfold name_wire. cbn. by rewrite <- app_assoc. Qed.

(** What the loop does at the end of [pre]: it finds a name, or it fails. *)
Lemma skip_name_complete fuel pre labels rest :
  Forall label_ok labels → len (pre ++ name_wire labels ++ rest) ≤ u32_max → (length labels < fuel)%nat →
  skip_name fuel (pre ++ name_wire labels ++ rest) (len pre) = Ret (len pre + len (name_wire labels)).
Proof.
  intros Hok. revert fuel pre. induction Hok as [|l labels Hl Hok IH]; intros fuel pre Hlen Hf;
    (destruct fuel as [|fuel]; [cbn in Hf; lia|]).
  - cbn [skip_name]. change (name_wire [] ++ rest) with (0 :: rest). rewrite get_app_r by done.
    rewrite decide_False by (intros H; by apply H). by rewrite decide_True.
  - rewrite name_wire_cons in *. cbn [skip_name app] in *. rewrite get_app_r by done. unfold label_ok in Hl.
    rewrite decide_False by (rewrite label_byte; unfold is_u8; lia). rewrite decide_False by lia.
    pose proof (len_nonneg pre). pose proof (len_nonneg (name_wire labels)). pose proof (len_nonneg rest).
    replace (pre ++ len l :: (l ++ name_wire labels) ++ rest) with ((pre ++ len l :: l) ++ name_wire labels ++ rest)
      in * by (rewrite <- !app_assoc; done).
    assert (sat_add (len pre + 1) (len l) = len (pre ++ len l :: l)) as ->.
    { unfold sat_add. rewrite Z.min_r; autorewrite with len in *; unfold u32_max, u64_max in *; lia. }
    rewrite decide_False by (autorewrite with len; lia). rewrite IH; [|done|cbn in Hf; lia]. f_equal. autorewrite with len. lia.
Qed.

Lemma skip_name_sound fuel pre suf o :
  bytes_ok suf → len (pre ++ suf) ≤ u32_max → skip_name fuel (pre ++ suf) (len pre) = Ret o →
  ∃ labels rest, suf = name_wire labels ++ rest ∧ Forall label_ok labels ∧ o = len pre + len (name_wire labels).
Proof.
  revert pre suf. induction fuel as [|fuel IH]; intros pre suf Hok Hlen; [done|]. cbn [skip_name].
  destruct suf as [|b suf]; [rewrite app_nil_r, get_end by done; done|]. rewrite get_app_r by done.
  apply Forall_cons in Hok as [Hb Hok]. case_decide as Hc; [done|].
  assert (b < 64) by (destruct (decide (64 ≤ b)) as [H64|]; [apply label_byte in H64; done|lia]). unfold is_u8 in Hb.
  case_decide as H0.
  { intros [= <-]. subst b. exists [], suf. split_and!; [done|constructor|done]. }
  pose proof (len_nonneg pre). pose proof (len_nonneg suf).
  assert (sat_add (len pre + 1) b = len pre + 1 + b) as ->
    by (unfold sat_add; rewrite Z.min_r; autorewrite with len in *; unfold u32_max, u64_max in *; lia).
  case_decide as Hx; [done|]. destruct (split_at suf b) as (l & q & -> & Hl); [autorewrite with len in *; lia|lia|].
  replace (len pre + 1 + b) with (len (pre ++ b :: l)) by (autorewrite with len; lia).
  replace (pre ++ b :: l ++ q) with ((pre ++ b :: l) ++ q) in * by (rewrite <- app_assoc; done).
  intros Hs. apply bytes_ok_app in Hok as [_ Hok].
  apply IH in Hs as (labels & rest & -> & Hlab & ->); [|done|done].
  exists (l :: labels), rest. split_and!.
  - rewrite name_wire_cons, <- Hl. cbn. by rewrite <- app_assoc.
  - constructor; [unfold label_ok; lia|done].
  - rewrite name_wire_cons. autorewrite with len. lia.
Qed.

(** The loop never runs out of its fuel. *)
Lemma skip_name_total fuel pre suf :
  bytes_ok suf → len (pre ++ suf) ≤ u32_max → (length suf < fuel)%nat → no_panic (skip_name fuel (pre ++ suf) (len pre)).
Proof.
  revert pre suf. induction fuel as [|fuel IH]; intros pre suf Hok Hlen Hf; [lia|]. cbn [skip_name].
  destruct suf as [|b suf]; [rewrite app_nil_r, get_end by done; done|]. rewrite get_app_r by done.
  apply Forall_cons in Hok as [Hb Hok]. case_decide; [done|]. case_decide; [done|].
  pose proof (len_nonneg pre). pose proof (len_nonneg suf). unfold is_u8 in Hb.
  assert (sat_add (len pre + 1) b = len pre + 1 + b) as ->
    by (unfold sat_add; rewrite Z.min_r; autorewrite with len in *; unfold u32_max, u64_max in *; lia).
  case_decide as Hx; [done|]. destruct (split_at suf b) as (l & q & -> & Hl); [autorewrite with len in *; lia|lia|].
  replace (len pre + 1 + b) with (len (pre ++ b :: l)) by (autorewrite with len; lia).
  replace (pre ++ b :: l ++ q) with ((pre ++ b :: l) ++ q) in * by (rewrite <- app_assoc; done).
  apply bytes_ok_app in Hok as [_ Hok]. apply IH; [done|done|]. cbn in Hf. rewrite length_app in Hf. lia.
Qed.

Lemma header_bytes (h : bytes) : len h = DNS_HEADER_LEN →
  ∃ h0 h1 h2 h3 h4 h5 h6 h7 h8 h9 h10 h11, h = [h0; h1; h2; h3; h4; h5; h6; h7; h8; h9; h10; h11].
Proof.
  unfold len, DNS_HEADER_LEN. intros Hl. do 12 (destruct h as [|? h]; [done|]). destruct h; [|cbn in Hl; lia]. by do 12 eexists.
Qed.

Lemma be_bytes_pair a b : is_u8 a → is_u8 b → be_bytes 2 (of_be [a; b]) = [a; b].
Proof. intros. apply (be_bytes_of_be [a; b]). by repeat apply Forall_cons_2. Qed.
Lemma be_bytes_2 v : is_u16 v → ∃ a b, be_bytes 2 v = [a; b] ∧ of_be [a; b] = v.
Proof.
  intros Hv. pose proof (length_be_bytes 2 v) as Hl. pose proof (of_be_be_bytes_id 2 v ltac:(unfold is_u16 in Hv; cbn; lia)) as Hv'.
  destruct (be_bytes 2 v) as [|a [|b [|]]]; try done. eauto.
Qed.

Lemma length_concat_labels labels : Forall label_ok labels → (length labels ≤ length (concat (map (fun l => len l :: l) labels)))%nat.
Proof. induction 1 as [|l labels Hl _ IH]; [done|]. cbn. rewrite length_app. lia. Qed.

(** What the first question of a well-formed packet is. *)
Lemma first_question_wire header labels qtype qclass rest :
  header_ok header → Forall label_ok labels → is_u16 qtype → len qclass = 2 →
  len (query_wire header labels qtype qclass rest) ≤ u32_max →
  first_question (query_wire header labels qtype qclass rest)
  = Ret (mkDnsQuestion qtype (DNS_HEADER_LEN + len (name_wire labels) + 4)).
Proof.
  intros [Hh Hn] Hlab Hq Hc Hlen. unfold first_question. pose proof (len_nonneg (name_wire labels)). pose proof (len_nonneg rest).
  assert (len (query_wire header labels qtype qclass rest) = 12 + len (name_wire labels) + 4 + len rest) as Hl.
  { unfold query_wire, DNS_HEADER_LEN in *. autorewrite with len. lia. }
  rewrite decide_False by (unfold DNS_HEADER_LEN; lia).
  assert (∀ suf, of_be (take 2 (drop 4 header)) ≠ 0 → (b4 ← index (E:=anyhow) (header ++ suf) 4; b5 ← index (header ++ suf) 5; Ret (of_be [b4; b5]))
     = Ret (of_be (take 2 (drop 4 header)))) as Hcount.
  { intros suf _. destruct (header_bytes header Hh) as (?&?&?&?&?&?&?&?&?&?&?&?&->). done. }
  specialize (Hcount (name_wire labels ++ be_bytes 2 qtype ++ qclass ++ rest) Hn).
  fold (query_wire header labels qtype qclass rest) in Hcount.
  apply bind_Ret_inv in Hcount as (b4 & -> & Hcount). apply bind_Ret_inv in Hcount as (b5 & -> & Hcount). injection Hcount as Hcount.
  cbn [mbind outcome_bind]. rewrite decide_False by congruence.
  assert (skip_name (S (length (query_wire header labels qtype qclass rest))) (query_wire header labels qtype qclass rest) DNS_HEADER_LEN
    = Ret (DNS_HEADER_LEN + len (name_wire labels))) as ->.
  { rewrite <- Hh. apply skip_name_complete; [done|done|]. unfold query_wire, name_wire. rewrite !length_app.
    pose proof (length_concat_labels labels Hlab). lia. }
  cbn [mbind outcome_bind]. rewrite decide_False by (unfold DNS_HEADER_LEN in *; lia).
  destruct (be_bytes_2 qtype Hq) as (t0 & t1 & Ht & Hv). unfold query_wire. rewrite Ht. cbn [app].
  rewrite (app_assoc header). rewrite (index_app_r _ _ _ (DNS_HEADER_LEN + len (name_wire labels))) by (unfold DNS_HEADER_LEN in *; autorewrite with len; lia). cbn [mbind outcome_bind app].
  replace ((header ++ name_wire labels) ++ t0 :: t1 :: qclass ++ rest) with (((header ++ name_wire labels) ++ [t0]) ++ t1 :: qclass ++ rest)
    by (rewrite <- app_assoc; done).
  rewrite index_app_r by (unfold DNS_HEADER_LEN in *; autorewrite with len; lia). cbn [mbind outcome_bind]. rewrite Hv. done.
Qed.

Lemma first_question_inv p q :
  bytes_ok p → len p ≤ u32_max → first_question p = Ret q →
  ∃ header labels qclass rest, p = query_wire header labels (dq_qtype q) qclass rest ∧ header_ok header ∧
    Forall label_ok labels ∧ is_u16 (dq_qtype q) ∧ len qclass = 2 ∧ dq_end_offset q = DNS_HEADER_LEN + len (name_wire labels) + 4.
Proof.
  intros Hok Hlen. unfold first_question. case_decide as H12; [done|].
  destruct (split_at p DNS_HEADER_LEN) as (header & suf & -> & Hh); [lia|done|].
  intros H. apply bind_Ret_inv in H as (b4 & E4 & H). apply bind_Ret_inv in H as (b5 & E5 & H).
  case_decide as Hz; [done|]. apply bind_Ret_inv in H as (o & Ho & H). apply bytes_ok_app in Hok as [Hokh Hoks].
  rewrite <- Hh in Ho. apply skip_name_sound in Ho as (labels & rest & -> & Hlab & ->); [|done|done].
  case_decide as H4; [done|]. apply bytes_ok_app in Hoks as [_ Hokr]. autorewrite with len in H4.
  destruct rest as [|t0 [|t1 [|c0 [|c1 rest]]]]; try (exfalso; unfold DNS_HEADER_LEN in *; autorewrite with len in H4; lia).
  apply Forall_cons in Hokr as [Ht0 Hokr]. apply Forall_cons in Hokr as [Ht1 _].
  rewrite (app_assoc header) in H. rewrite (index_app_r _ _ _ (len header + len (name_wire labels))) in H by (autorewrite with len; lia). cbn [mbind outcome_bind] in H.
  replace ((header ++ name_wire labels) ++ t0 :: t1 :: c0 :: c1 :: rest) with (((header ++ name_wire labels) ++ [t0]) ++ t1 :: c0 :: c1 :: rest)
    in H by (rewrite <- app_assoc; done).
  rewrite index_app_r in H by (autorewrite with len; lia). cbn [mbind outcome_bind] in H. injection H as <-.
  exists header, labels, [c0; c1], rest. cbn [dq_qtype dq_end_offset]. split_and!; try done.
  - unfold query_wire. rewrite be_bytes_pair by done. done.
  - split; [done|]. destruct (header_bytes header Hh) as (?&?&?&?&?&?&?&?&?&?&?&?&->). injection E4 as <-. injection E5 as <-. done.
  - pose proof (of_be_bound [t0; t1] ltac:(by repeat apply Forall_cons_2)) as Hb. exact Hb.
  - rewrite <- Hh. lia.
Qed.

Lemma first_question_total p : bytes_ok p → len p ≤ u32_max → no_panic (first_question p).
Proof.
  intros Hok Hlen. unfold first_question. case_decide as H12; [done|]. unfold DNS_HEADER_LEN in *.
  apply no_panic_bind; [apply no_panic_index; lia|]. intros b4 _. apply no_panic_bind; [apply no_panic_index; lia|]. intros b5 _.
  case_decide; [done|]. destruct (split_at p 12) as (header & suf & -> & Hh); [lia|lia|].
  apply bytes_ok_app in Hok as [_ Hok]. rewrite <- Hh. apply no_panic_bind.
  { apply skip_name_total; [done|done|]. rewrite length_app. lia. }
  intros o Ho. apply skip_name_sound in Ho as (labels & rest & -> & _ & ->); [|done|done].
  pose proof (len_nonneg header). pose proof (len_nonneg (name_wire labels)).
  case_decide; [done|]. apply no_panic_bind; [apply no_panic_index; autorewrite with len in *; lia|].
  intros t0 _. apply no_panic_bind; [apply no_panic_index; autorewrite with len in *; lia|]. done.
Qed.

(** ** Responses *)

(** The header of a response: the id and the question count of the request,
    the new flags, and no records. *)
Definition response_header (header : bytes) (rcode : Z) : bytes :=
  take 2 header ++ be_bytes 2 (response_flags (of_be (take 2 (drop 2 header))) rcode) ++ take 2 (drop 4 header) ++ replicate 6 0.

Lemma build_response_wire header labels qtype qclass rest rcode :
  header_ok header → Forall label_ok labels → is_u16 qtype → len qclass = 2 →
  len (query_wire header labels qtype qclass rest) ≤ u32_max →
  build_dns_response_with_rcode (query_wire header labels qtype qclass rest) rcode
  = Ret (query_wire (response_header header rcode) labels qtype qclass []).
Proof.
  intros Hh Hlab Hq Hc Hlen. unfold build_dns_response_with_rcode. rewrite first_question_wire by done. cbn [mbind outcome_bind dq_end_offset].
  replace (query_wire header labels qtype qclass rest) with (query_wire header labels qtype qclass [] ++ rest) at 1
    by (unfold query_wire; rewrite <- !app_assoc; done).
  destruct Hh as [Hh _]. rewrite slice_prefix by (unfold query_wire, DNS_HEADER_LEN in *; autorewrite with len; lia).
  destruct (header_bytes header Hh) as (h0&h1&h2&h3&h4&h5&h6&h7&h8&h9&h10&h11&->). cbn [mbind outcome_bind].
  unfold query_wire. set (tl := name_wire labels ++ _ ++ _ ++ []). set (tl' := name_wire labels ++ _ ++ _ ++ rest).
  change (index ([h0; h1; h2; h3; h4; h5; h6; h7; h8; h9; h10; h11] ++ tl') 2) with (Ret (E:=anyhow) h2).
  change (index ([h0; h1; h2; h3; h4; h5; h6; h7; h8; h9; h10; h11] ++ tl') 3) with (Ret (E:=anyhow) h3). cbn [mbind outcome_bind].
  set (f := be_bytes 2 (response_flags _ _)).
  change ([h0; h1; h2; h3; h4; h5; h6; h7; h8; h9; h10; h11] ++ tl) with ([h0; h1] ++ [h2; h3] ++ ([h4; h5; h6; h7; h8; h9; h10; h11] ++ tl)).
  rewrite copy_from_slice_ok by (unfold f; autorewrite with len; done). cbn [mbind outcome_bind].
  replace ([h0; h1] ++ f ++ [h4; h5; h6; h7; h8; h9; h10; h11] ++ tl)
    with (([h0; h1] ++ f ++ [h4; h5]) ++ [h6; h7] ++ ([h8; h9; h10; h11] ++ tl)) by (rewrite <- !app_assoc; done).
  rewrite copy_from_slice_ok by (unfold f; autorewrite with len; done). cbn [mbind outcome_bind].
  replace (([h0; h1] ++ f ++ [h4; h5]) ++ be_bytes 2 0 ++ [h8; h9; h10; h11] ++ tl)
    with (([h0; h1] ++ f ++ [h4; h5] ++ be_bytes 2 0) ++ [h8; h9] ++ ([h10; h11] ++ tl)) by (rewrite <- !app_assoc; done).
  rewrite copy_from_slice_ok by (unfold f; autorewrite with len; done). cbn [mbind outcome_bind].
  replace (([h0; h1] ++ f ++ [h4; h5] ++ be_bytes 2 0) ++ be_bytes 2 0 ++ [h10; h11] ++ tl)
    with (([h0; h1] ++ f ++ [h4; h5] ++ be_bytes 2 0 ++ be_bytes 2 0) ++ [h10; h11] ++ tl) by (rewrite <- !app_assoc; done).
  rewrite copy_from_slice_ok by (unfold f; autorewrite with len; done). unfold response_header. cbn [take drop]. fold f.
  rewrite <- !app_assoc. done.
Qed.

Lemma response_header_ok header rcode : header_ok header → header_ok (response_header header rcode).
Proof.
  intros [Hh Hn]. destruct (header_bytes header Hh) as (h0&h1&h2&h3&h4&h5&h6&h7&h8&h9&h10&h11&->). unfold header_ok, response_header.
  cbn [take drop] in *. split; [autorewrite with len; done|].
  set (f := be_bytes 2 _). assert (length f = 2%nat) as Hf by apply length_be_bytes.
  destruct f as [|f0 [|f1 [|]]]; try done.
Qed.

(** The flags: a response that offers recursion, with the code asked for; the
    opcode and the RD, AD and CD bits of the request; not authoritative and not
    truncated. *)
Lemma response_flags_spec request_flags rcode :
  0 ≤ rcode < 16 →
  let f := response_flags request_flags rcode in
  Z.land f 0x8080 = 0x8080 ∧ Z.land f 0x000f = rcode ∧ Z.land f 0x7800 = Z.land request_flags 0x7800 ∧
  Z.land f 0x0130 = Z.land request_flags 0x0130 ∧ Z.land f 0x0640 = 0.
Proof.
  intros Hr f. unfold f, response_flags.
  assert (Z.land rcode 0x8080 = 0 ∧ Z.land rcode 0xf = rcode ∧ Z.land rcode 0x7800 = 0 ∧ Z.land rcode 0x130 = 0 ∧ Z.land rcode 0x640 = 0)
    as (E1 & E2 & E3 & E4 & E5).
  { pose proof (u8_forall (fun r => negb (r <? 16) || ((Z.land r 0x8080 =? 0) && (Z.land r 0xf =? r) && (Z.land r 0x7800 =? 0)
      && (Z.land r 0x130 =? 0) && (Z.land r 0x640 =? 0))) ltac:(vm_compute; reflexivity) rcode ltac:(unfold is_u8; lia)) as H.
    cbn beta in H. rewrite orb_true_iff, negb_true_iff, Z.ltb_ge, !andb_true_iff, !Z.eqb_eq in H. destruct H as [?|H]; [lia|tauto]. }
  rewrite !Z.land_lor_distr_l, <- !Z.land_assoc, E1, E2, E3, E4, E5. cbn [Z.land Z.lor Pos.land Pos.lor Z.of_N Pos.Nsucc_double Pos.Ndouble].
  rewrite !Z.land_0_r, ?Z.lor_0_l, ?Z.lor_0_r. split_and!; try done.
  rewrite <- Z.land_lor_distr_r. done.
Qed.

(** ** Properties *)

(** C27: DNS questions. On any packet the parser agrees with the grammar: it
    finds a question exactly if the packet is a header with a question count
    that is not zero, a sequence of labels of 1 to 63 bytes with its final
    zero, a type and a class; it returns that type and the offset after the
    class; and it never panics or runs on. *)
Theorem dns_question_grammar p q :
  bytes_ok p → len p ≤ u32_max →
  (first_question p = Ret q ↔
   ∃ header labels qclass rest, p = query_wire header labels (dq_qtype q) qclass rest ∧ header_ok header ∧
     Forall label_ok labels ∧ is_u16 (dq_qtype q) ∧ len qclass = 2 ∧ dq_end_offset q = DNS_HEADER_LEN + len (name_wire labels) + 4) ∧
  first_question p ≠ Panic.
Proof.
  intros Hok Hlen. split; [|by apply first_question_total]. split; [by apply first_question_inv|].
  intros (header & labels & qclass & rest & -> & Hh & Hlab & Ht & Hc & He). rewrite first_question_wire by done.
  destruct q as [t e]. cbn in *. by subst.
Qed.

Definition example_header : bytes := [18; 52; 1; 32; 0; 1; 0; 0; 0; 0; 0; 1].
Definition example_query (qtype : Z) : bytes := query_wire example_header [str "example"; str "com"] qtype [0; 1] [9].

Lemma dns_question_grammar_witness : first_question (example_query 1) = Ret (mkDnsQuestion 1 29).
Proof.
  apply (dns_question_grammar (example_query 1) (mkDnsQuestion 1 29)).
  - by_decide.
  - vm_compute. discriminate.
  - exists example_header, [str "example"; str "com"], [0; 1], [9]. split_and!; try reflexivity.
    + split; [reflexivity|]. vm_compute. discriminate.
    + repeat apply Forall_cons_2; try apply Forall_nil_2; unfold label_ok; vm_compute; split; discriminate.
    + by_decide.
Defined.

(** DNS responses made here. For every packet with a well-formed first
    question, the answer has the packet's id, its first question byte for byte
    and nothing after it, no records, the flags of a response with the code
    asked for that keeps the opcode and the RD, AD and CD bits, and parses to
    the same question. *)
Theorem dns_local_response header labels qtype qclass rest rcode :
  header_ok header → bytes_ok header → Forall label_ok labels → is_u16 qtype → len qclass = 2 → 0 ≤ rcode < 16 →
  len (query_wire header labels qtype qclass rest) ≤ u32_max →
  ∃ flags r, build_dns_response_with_rcode (query_wire header labels qtype qclass rest) rcode = Ret r ∧
    r = query_wire (take 2 header ++ be_bytes 2 flags ++ take 2 (drop 4 header) ++ replicate 6 0) labels qtype qclass [] ∧
    first_question r = first_question (query_wire header labels qtype qclass rest) ∧
    let request := of_be (take 2 (drop 2 header)) in
    Z.land flags 0x8080 = 0x8080 ∧ Z.land flags 0x000f = rcode ∧ Z.land flags 0x7800 = Z.land request 0x7800 ∧
    Z.land flags 0x0130 = Z.land request 0x0130 ∧ Z.land flags 0x0640 = 0.
Proof.
  intros Hh Hok Hlab Hq Hc Hr Hlen. exists (response_flags (of_be (take 2 (drop 2 header))) rcode).
  eexists. split; [by apply build_response_wire|]. split; [done|]. split; [|by apply response_flags_spec].
  rewrite !first_question_wire; try done; [by apply response_header_ok|].
  pose proof (response_header_ok header rcode Hh) as [Hl _]. destruct Hh as [Hh _]. pose proof (len_nonneg rest).
  unfold query_wire in *. autorewrite with len in *. lia.
Qed.

Lemma dns_local_response_witness : ∃ r, build_dns_response_with_rcode (example_query 28) 0 = Ret r ∧
  first_question r = first_question (example_query 28).
Proof.
  destruct (dns_local_response example_header [str "example"; str "com"] 28 [0; 1] [9] 0) as (f & r & H & _ & Hq & _).
  - split; [reflexivity|]. vm_compute. discriminate.
  - by_decide.
  - repeat apply Forall_cons_2; try apply Forall_nil_2; unfold label_ok; vm_compute; split; discriminate.
  - by_decide.
  - reflexivity.
  - lia.
  - vm_compute. discriminate.
  - exists r. split; [exact H|exact Hq].
Defined.

(** Upstreams that fail one after the other, with the text of the last
    failure. *)
Inductive all_fail {W S T} `{!DotNet W S T} (request : bytes)
  : list DotUpstream → option bytes → dns_state W → dns_state W → option bytes → Prop :=
| all_fail_nil last s : all_fail request [] last s s last
| all_fail_cons u us last s s1 e s2 last' :
    query_upstream u request s = (s1, Err e) → all_fail request us (Some (failed_via u e)) s1 s2 last' →
    all_fail request (u :: us) last s s2 last'.

Lemma try_upstreams_fail {W S T} `{!DotNet W S T} request us us' last s s' last' :
  all_fail request us last s s' last' → try_upstreams (us ++ us') request last s = try_upstreams us' request last' s'.
Proof. induction 1 as [|? ? ? ? ? ? ? ? H _ IH]; [done|]. cbn. by rewrite H. Qed.

(** Reports are only made by [resolve_raw] and [open_dot_upstream]. *)
Lemma query_upstream_reports {W S T} `{!DotNet W S T} u request s : ds_reports (fst (query_upstream u request s)) = ds_reports s.
Proof.
  unfold query_upstream, on_net_timed, on_net, dns_lift, mbind, dns_bind, mret, dns_ret, timed_result.
  repeat (cbn [ds_reports ds_net fst]; case_match; simplify_eq; try done).
Qed.

Lemma all_fail_reports {W S T} `{!DotNet W S T} request us last s s' last' :
  all_fail request us last s s' last' → ds_reports s' = ds_reports s.
Proof.
  induction 1 as [|u ? ? s ? ? ? ? H _ IH]; [done|]. rewrite IH. pose proof (query_upstream_reports u request s) as Hr. by rewrite H in Hr.
Qed.

(** Resolving. For a packet with a well-formed first question: a query
    for IPv6 addresses is answered here with the empty success and the network
    is not used; any other gets the response of the first upstream that gives
    one, after those before it failed in turn; and if all of them fail, it gets
    a server failure and the notifier is told once, of the last error. *)
Theorem dns_resolve {W S T} `{!DotNet W S T} proxy header labels qtype qclass rest (s : dns_state W) :
  let request := query_wire header labels qtype qclass rest in
  header_ok header → Forall label_ok labels → is_u16 qtype → len qclass = 2 → len request ≤ u32_max →
  let answer rcode := query_wire (response_header header rcode) labels qtype qclass [] in
  (qtype = DNS_TYPE_AAAA → resolve_raw proxy request s = (s, Ret (answer DNS_RCODE_NOERROR))) ∧
  (qtype ≠ DNS_TYPE_AAAA →
     (∀ before u after s1 last s2 response, dp_upstreams proxy = before ++ u :: after →
        all_fail request before None s s1 last → query_upstream u request s1 = (s2, Ret response) →
        resolve_raw proxy request s = (s2, Ret response)) ∧
     (∀ s1 last, all_fail request (dp_upstreams proxy) None s s1 last →
        resolve_raw proxy request s =
          (mkDnsState (ds_net s1) (ds_reports s ++ (if dp_failure_notifier proxy
             then [default (str "no DoT upstreams attempted") last] else [])), Ret (answer DNS_RCODE_SERVFAIL)))).
Proof.
  intros request Hh Hlab Hq Hc Hlen answer.
  assert (classify_dns_query request = Ret (if decide (qtype = DNS_TYPE_AAAA) then Aaaa else Other qtype)) as Hclass.
  { unfold classify_dns_query, request. by rewrite first_question_wire. }
  assert (∀ rcode, build_dns_response_with_rcode request rcode = Ret (answer rcode)) as Hbuild by (intros; by apply build_response_wire).
  unfold resolve_raw, dns_lift, mbind, dns_bind. rewrite Hclass. split.
  - intros Ht. rewrite decide_True by done. unfold build_empty_dns_success_response. by rewrite Hbuild.
  - intros Ht. rewrite decide_False by done. split.
    + intros before u after s1 last s2 response -> Hf Hu. rewrite (try_upstreams_fail _ _ _ _ _ _ _ Hf). cbn. by rewrite Hu.
    + intros s1 last Hf. rewrite <- (app_nil_r (dp_upstreams proxy)), (try_upstreams_fail _ _ _ _ _ _ _ Hf).
      cbn. unfold report_failure. rewrite Hbuild. rewrite <- (all_fail_reports _ _ _ _ _ _ Hf).
      destruct (dp_failure_notifier proxy); [done|]. rewrite app_nil_r. by destruct s1.
Qed.

(** A network where only the second resolver can be dialed; a session echoes
    what is written to it. *)
#[local] Instance example_net : DotNet nat bytes bytes := {
  dn_tcp := fun w a => (S w, Some (if decide (a = str "8.8.8.8:853") then Ret [] else Err (Transport (str "refused"))));
  dn_server_name := fun _ => true;
  dn_tls := fun w _ s => (w, Some (Ret s));
  dn_write_all := fun w t b => (w, Ret (t ++ b));
  dn_flush := fun w t => (w, Ret t);
  dn_read_exact := fun w t n => (w, Some (Ret (take (Z.to_nat n) t, drop (Z.to_nat n) t)))
}.
Definition example_proxy : DnsProxy :=
  mkDnsProxy (str "1.1.1.1") [mkDotUpstream (str "1.1.1.1:853") (str "cloudflare-dns.com"); mkDotUpstream (str "8.8.8.8:853") (str "dns.google")]
    10 true.

Lemma dns_resolve_witness :
  resolve_raw example_proxy (example_query 1) (mkDnsState 0%nat []) = (mkDnsState 2%nat [], Ret (example_query 1)).
Proof.
  refine (proj1 (proj2 (dns_resolve example_proxy example_header [str "example"; str "com"] 1 [0; 1] [9] (mkDnsState 0%nat [])
    _ _ _ _ _) _) [mkDotUpstream (str "1.1.1.1:853") (str "cloudflare-dns.com")] (mkDotUpstream (str "8.8.8.8:853") (str "dns.google")) []
    (mkDnsState 1%nat []) _ (mkDnsState 2%nat []) (example_query 1) _ _ _).
  - split; [reflexivity|]. vm_compute. discriminate.
  - repeat apply Forall_cons_2; try apply Forall_nil_2; unfold label_ok; vm_compute; split; discriminate.
  - by_decide.
  - reflexivity.
  - vm_compute. discriminate.
  - discriminate.
  - reflexivity.
  - eapply all_fail_cons; [reflexivity|apply all_fail_nil].
  - vm_compute. reflexivity.
Defined.
