(* ===== verification/LocalSocks.v ===== *)
(** * The SOCKS5 front end of the mobile client ([mobile/src/local_socks.rs])

    Negotiation, addresses and datagrams are the same functions as in the
    desktop program and are shared with [Socks5]; what differs is that requests
    for the advertised resolver go to the DNS proxy, that UDP may be limited to
    DNS, and that an error that means the tunnel is gone is reported so that the
    application reconnects. Errors are [anyhow] chains; those of the shared
    functions keep their outermost text. The tunnel is a class. The tasks of a
    UDP association are in [Association] and the handler of a whole connection in
    [LocalClient]. *)
From S2P Require Import Prelude Errors RustStr Proxy Net Socks5 Anyhow Dns.
Local Open Scope Z_scope.

Record LocalSocksConfig := mkLocalSocks {
  lo_listen : bytes;
  lo_username : bytes;
  lo_password : bytes;
  lo_disable_udp : bool;
  lo_dns_proxy : option DnsProxy
}.

(** The credentials [serve_socks5] asks for. *)
Definition local_auth (config : LocalSocksConfig) : option (bytes * bytes) :=
  configured_auth (lo_username config) (lo_password config).

(** ** Which errors mean that the tunnel is gone *)

Definition connection_recovery_reason_from_core (core : CoreError) : option bytes :=
  match core with
  | Closed reason => Some (str "connection closed: " ++ reason)
  | Transport reason => Some (str "connection transport failed: " ++ reason)
  | Connect reason => Some (str "connection connect failed: " ++ reason)
  | Dial _ | Authentication _ | Config _ | Protocol _ | UnexpectedFrameType _ | Tls _ => None
  end.

Fixpoint connection_recovery_reason (err : anyhow) : option bytes :=
  match err with
  | [] => None
  | CauseCore core :: rest =>
      match connection_recovery_reason_from_core core with
      | Some reason => Some reason
      | None => connection_recovery_reason rest
      end
  | CauseText _ :: rest => connection_recovery_reason rest
  end.

Definition relay_failure (error : io_error) (close_reason : option bytes) (ctx : bytes) : anyhow :=
  match close_reason with
  | Some reason => add_context ctx (anyhow_core (Closed reason))
  | None => add_context ctx (anyhow_io error)
  end.

(** ** The functions shared with the desktop program *)

Definition local_negotiate : option (bytes * bytes) → handler unit := negotiate.
Definition local_read_request : handler SocksRequest := read_request.
Definition local_read_address : Z → handler bytes := read_address.
Definition local_write_reply : Z → option SocketAddr → handler unit := write_reply.
Definition local_build_udp_datagram : bytes → bytes → outcome bytes bytes := build_udp_datagram.
Definition local_encode_socket_addr : SocketAddr → bytes := encode_socket_addr.
Definition local_encode_address : bytes → outcome bytes bytes := encode_address.
Definition local_parse_address_from_bytes : bytes → Z → outcome bytes (bytes * Z) := parse_address_from_bytes.
Definition local_split_host_port : bytes → outcome bytes (bytes * Z) := Socks5.split_host_port.

Definition local_parse_udp_datagram (buf : bytes) : outcome bytes (option (bytes * bytes)) :=
  if decide (len buf < 4) then Ret None
  else
    b0 ← index buf 0; b1 ← index buf 1; b2 ← index buf 2;
    if decide (b0 ≠ 0 ∨ b1 ≠ 0 ∨ b2 ≠ 0) then Ret None
    else
      atyp ← index buf 3;
      rest ← slice_from buf 4;
      '(address, payload_offset) ← local_parse_address_from_bytes rest atyp;
      payload ← slice_from buf (4 + payload_offset);
      Ret (Some (address, payload)).

(** ** Handlers *)

(** The tunnel as the front end uses it: streams [S], the DNS proxy's TLS
    sessions [T], the state of the network [W]. *)
Class LocalNet (W S T : Type) := {
  ln_dot :: DotNet W S T;
  ln_tcp : W → bytes → W * outcome CoreError S;
  ln_close_reason : W → option bytes;
  ln_relay : W → conn → S → W * outcome io_error unit;
  ln_flush : W → outcome io_error unit;
  ln_udp : W → W * outcome CoreError unit;
  ln_control_addr : W → outcome io_error SocketAddr;
  ln_bind_udp : W → SocketAddr → W * outcome io_error unit;
  ln_listen_addr : W → outcome io_error SocketAddr;
  ln_tunnel_send : W → bytes → bytes → W * outcome CoreError unit;
  ln_send_to : W → bytes → SocketAddr → W * outcome io_error unit
}.

Record lstate (W : Type) := mkLstate { ls_conn : conn; ls_dns : dns_state W }.
Arguments mkLstate {W}.
Arguments ls_conn {W}.
Arguments ls_dns {W}.

Definition lhandler (W A : Type) : Type := lstate W → lstate W * outcome anyhow A.
#[global] Instance lhandler_ret {W} : MRet (lhandler W) := fun A a s => (s, Ret a).
#[global] Instance lhandler_bind {W} : MBind (lhandler W) := fun A B f m s =>
  match m s with
  | (s, Ret a) => f a s
  | (s, Err e) => (s, Err e)
  | (s, Panic) => (s, Panic)
  end.
Definition l_fail {W A} (e : anyhow) : lhandler W A := fun s => (s, Err e).
Definition l_lift {W A} (m : outcome anyhow A) : lhandler W A := fun s => (s, m).
(** A step on the connection, one of the DNS proxy, and one of the network. *)
Definition on_conn {W A} (h : handler A) : lhandler W A := fun s =>
  let '(c, r) := h (ls_conn s) in (mkLstate c (ls_dns s), map_err anyhow_msg r).
Definition on_dns {W A} (h : dns W A) : lhandler W A := fun s =>
  let '(d, r) := h (ls_dns s) in (mkLstate (ls_conn s) d, r).
Definition on_tunnel {W A} (f : W → W * A) : lhandler W A := fun s =>
  let '(w, a) := f (ds_net (ls_dns s)) in (mkLstate (ls_conn s) (mkDnsState w (ds_reports (ls_dns s))), Ret a).
Definition with_conn {W A} (f : conn → lhandler W A) : lhandler W A := fun s => f (ls_conn s) s.

(** [stream.read(&mut len_buf[..1])]: a byte, or none at the end. *)
Definition recv_first : handler (option Z) := fun c =>
  match rd_data (cn_in c) with
  | b :: rest => (mkConn (Reader rest (rd_end (cn_in c))) (cn_out c), Ret (Some b))
  | [] =>
      match rd_end (cn_in c) with
      | IoUnexpectedEof _ => (c, Ret None)
      | IoOther msg => (c, Err msg)
      end
  end.

Section handlers.
Context {W S T : Type} `{!LocalNet W S T}.

(** The loop of [handle_dns_over_tcp]; each turn but the last reads two bytes
    at least. *)
Fixpoint dns_tcp_loop (fuel : nat) (proxy : DnsProxy) : lhandler W unit :=
  match fuel with
  | O => l_lift Panic
  | Datatypes.S fuel =>
      first ← on_conn recv_first;
      match first with
      | None => mret ()
      | Some b0 =>
          b1 ← on_conn (recv_exact 1);
          query ← on_conn (recv_exact (of_be (b0 :: b1)));
          response ← on_dns (resolve_raw proxy query);
          response_len ← l_lift (if decide (len response ≤ u16_max) then Ret (len response)
                                 else Err (anyhow_msg (str "DNS-over-TCP response exceeds frame size")));
          _ ← on_conn (send_all (be_bytes 2 response_len));
          _ ← on_conn (send_all response);
          close_reason ← on_tunnel (fun w => (w, ln_close_reason w));
          flushed ← on_tunnel (fun w => (w, ln_flush w));
          _ ← l_lift (map_err (fun err => relay_failure err close_reason (str "DNS-over-TCP flush failed")) flushed);
          dns_tcp_loop fuel proxy
      end
  end.
Definition handle_dns_over_tcp (proxy : DnsProxy) : lhandler W unit :=
  with_conn (fun c => dns_tcp_loop (Datatypes.S (length (rd_data (cn_in c)))) proxy).

(** A relay that failed, with the close reason read after it. *)
Definition relayed (r : outcome io_error unit) (ctx : bytes) : lhandler W unit :=
  match r with
  | Ret _ => mret ()
  | Err err => close_reason ← on_tunnel (fun w => (w, ln_close_reason w)); l_fail (relay_failure err close_reason ctx)
  | Panic => l_lift Panic
  end.

Definition handle_dns_over_tls (proxy : DnsProxy) : lhandler W unit :=
  remote ← on_dns (open_dot_upstream proxy);
  r ← with_conn (fun c => on_tunnel (fun w => ln_relay w c remote));
  relayed r (str "DNS-over-TLS relay failed").

Definition local_handle_connect (address : bytes) (dns_proxy : option DnsProxy) : lhandler W unit :=
  match (proxy ← dns_proxy; transport ← match_destination proxy address; Some (proxy, transport)) with
  | Some (proxy, Plain) => _ ← on_conn (local_write_reply SOCKS5_REP_SUCCESS None); handle_dns_over_tcp proxy
  | Some (proxy, Dot) => _ ← on_conn (local_write_reply SOCKS5_REP_SUCCESS None); handle_dns_over_tls proxy
  | None =>
      r ← on_tunnel (fun w => ln_tcp w address);
      match r with
      | Ret remote =>
          _ ← on_conn (local_write_reply SOCKS5_REP_SUCCESS None);
          r ← with_conn (fun c => on_tunnel (fun w => ln_relay w c remote));
          relayed r (str "SOCKS5 CONNECT relay failed for " ++ address)
      | Err err => _ ← on_conn (local_write_reply SOCKS5_REP_HOST_UNREACHABLE None); l_fail (anyhow_core err)
      | Panic => l_lift Panic
      end
  end.

Definition should_accept_udp_associate (disable_udp has_dns_proxy : bool) : bool := negb disable_udp || has_dns_proxy.

(** What [serve_socks5] tells its notifier of a connection's result. *)
Definition notified {A} (r : outcome anyhow A) : option bytes :=
  match r with Err err => connection_recovery_reason err | _ => None end.

(** ** The association *)

(** What a turn sends: a DNS answer to a peer, or a payload into the tunnel. *)
Inductive udp_out := ToPeer (packet : bytes) (peer : SocketAddr) | ToTunnel (payload destination : bytes).

(** The part of [udp_local_to_remote] after the sender was accepted, up to the
    session: a query is answered, anything else is left to the session ([None]) or
    dropped. *)
Definition forward_local (dns_proxy : option DnsProxy) (hy_udp : bool) (peer : SocketAddr) (destination payload : bytes)
    (s : dns_state W) : dns_state W * list udp_out * option (outcome anyhow unit) :=
  match (proxy ← dns_proxy; if decide (match_destination proxy destination = Some Plain) then Some proxy else None) with
  | Some proxy =>
      match resolve_raw proxy payload s with
      | (s, Err e) => (s, [], Some (Err e))
      | (s, Panic) => (s, [], Some Panic)
      | (s, Ret response) =>
          match local_build_udp_datagram destination response with
          | Err e => (s, [], Some (Err (anyhow_msg e)))
          | Panic => (s, [], Some Panic)
          | Ret packet =>
              let '(w, r) := ln_send_to (ds_net s) packet peer in
              (mkDnsState w (ds_reports s), [ToPeer packet peer], Some (map_err anyhow_io r))
          end
      end
  | None => (s, [], if hy_udp then None else Some (Ret ()))
  end.
End handlers.

(** ** Errors that do not ask for a reconnect *)

Definition quiet {A} (r : outcome anyhow A) : Prop := notified r = None.
Lemma quiet_Ret {A} (a : A) : quiet (Ret a).
Proof. done. Qed.
Lemma quiet_msg {A} text : quiet (A:=A) (Err (anyhow_msg text)).
Proof. done. Qed.
Lemma quiet_Panic {A} : quiet (A:=A) Panic.
Proof. done. Qed.
Lemma quiet_map_msg {E A} (f : E → bytes) (m : outcome E A) : quiet (map_err (fun e => anyhow_msg (f e)) m).
Proof. by destruct m. Qed.
Lemma calm_bind {A B} (m : outcome anyhow A) (f : A → outcome anyhow B) :
  quiet m → (∀ a, quiet (f a)) → quiet (m ≫= f).
Proof. unfold quiet. destruct m; cbn; auto. Qed.
Create HintDb quiet.
#[export] Hint Resolve quiet_Ret quiet_msg quiet_Panic quiet_map_msg calm_bind : quiet.

Lemma quiet_index {A} (l : list A) i : quiet (index l i).
Proof. destruct (index_cases l i) as [(x & _ & ->)| ->]; done. Qed.
Lemma quiet_slice {A} (l : list A) a b : quiet (slice l a b).
Proof. unfold slice. by case_decide. Qed.
Lemma quiet_copy {A} (l : list A) a b s : quiet (copy_from_slice l a b s).
Proof. unfold copy_from_slice. by case_decide. Qed.
#[export] Hint Resolve quiet_index quiet_slice quiet_copy : quiet.

Lemma quiet_skip_name fuel packet offset : quiet (skip_name fuel packet offset).
Proof.
  revert offset. induction fuel as [|fuel IH]; intros offset; cbn [skip_name]; [done|].
  destruct (get packet offset); [|done]. repeat case_decide; done || apply IH.
Qed.
#[export] Hint Resolve quiet_skip_name : quiet.
Lemma quiet_first_question p : quiet (first_question p).
Proof. unfold first_question. repeat (case_decide || apply calm_bind || intros; auto with quiet). Qed.
#[export] Hint Resolve quiet_first_question : quiet.
Lemma quiet_build_response q rcode : quiet (build_dns_response_with_rcode q rcode).
Proof. unfold build_dns_response_with_rcode. repeat (apply calm_bind || intros; auto with quiet). Qed.
#[export] Hint Resolve quiet_build_response : quiet.

(** The same for steps of the DNS proxy and for handlers, from any state. *)
Definition quiet_dns {W A} (h : dns W A) : Prop := ∀ s, quiet (snd (h s)).
Definition quiet_handler {W A} (h : lhandler W A) : Prop := ∀ s, quiet (snd (h s)).

Lemma quiet_dns_bind {W A B} (m : dns W A) (f : A → dns W B) :
  quiet_dns m → (∀ a, quiet_dns (f a)) → quiet_dns (m ≫= f).
Proof.
  intros Hm Hf s. unfold mbind, dns_bind. specialize (Hm s). destruct (m s) as [s1 [a|e|]]; cbn in *; [apply Hf|done|done].
Qed.
Lemma quiet_handler_bind {W A B} (m : lhandler W A) (f : A → lhandler W B) :
  quiet_handler m → (∀ a, quiet_handler (f a)) → quiet_handler (m ≫= f).
Proof.
  intros Hm Hf s. unfold mbind, lhandler_bind. specialize (Hm s). destruct (m s) as [s1 [a|e|]]; cbn in *; [apply Hf|done|done].
Qed.
Lemma quiet_handler_ret {W A} (a : A) : quiet_handler (W:=W) (mret a).
Proof. done. Qed.
Lemma quiet_on_conn {W A} (h : handler A) : quiet_handler (W:=W) (on_conn h).
Proof. intros s. unfold on_conn. destruct (h (ls_conn s)) as [c [a|e|]]; done. Qed.
Lemma quiet_on_dns {W A} (h : dns W A) : quiet_dns h → quiet_handler (on_dns h).
Proof. intros Hh s. unfold on_dns. specialize (Hh (ls_dns s)). by destruct (h (ls_dns s)). Qed.
Lemma quiet_on_tunnel {W A} (f : W → W * A) : quiet_handler (on_tunnel f).
Proof. intros s. unfold on_tunnel. by destruct (f _). Qed.
Lemma quiet_l_lift {W A} (m : outcome anyhow A) : quiet m → quiet_handler (W:=W) (l_lift m).
Proof. by intros Hm s. Qed.
Lemma quiet_dns_lift {W A} (m : outcome anyhow A) : quiet m → quiet_dns (W:=W) (dns_lift m).
Proof. by intros Hm s. Qed.
Lemma quiet_with_conn {W A} (f : conn → lhandler W A) : (∀ c, quiet_handler (f c)) → quiet_handler (with_conn f).
Proof. intros Hf s. apply Hf. Qed.
#[export] Hint Resolve quiet_dns_bind quiet_handler_bind quiet_handler_ret quiet_on_conn quiet_on_dns quiet_on_tunnel
  quiet_l_lift quiet_dns_lift quiet_with_conn : quiet.

(** The DNS proxy never fails because of its upstreams. *)
Lemma quiet_try_upstreams {W S T} `{!DotNet W S T} us request last : quiet_dns (try_upstreams us request last).
Proof.
  revert last. induction us as [|u us IH]; intros last s; cbn [try_upstreams]; [done|].
  destruct (query_upstream u request s) as [s1 [r|e|]]; [done|apply IH|done].
Qed.
Lemma quiet_dial_upstreams {W S T} `{!DotNet W S T} us last : quiet_dns (dial_upstreams us last).
Proof.
  revert last. induction us as [|u us IH]; intros last s; cbn [dial_upstreams]; [done|].
  destruct (dn_tcp _ _) as [w [[r|e|]|]]; [done|apply IH|done|apply IH].
Qed.
#[export] Hint Resolve quiet_try_upstreams quiet_dial_upstreams : quiet.
Lemma quiet_resolve_raw {W S T} `{!DotNet W S T} proxy request : quiet_dns (resolve_raw proxy request).
Proof.
  unfold resolve_raw. apply quiet_dns_bind; [apply quiet_dns_lift; unfold classify_dns_query; auto with quiet|].
  intros [|q]; [apply quiet_dns_lift; unfold build_empty_dns_success_response; auto with quiet|].
  apply quiet_dns_bind; [auto with quiet|]. intros [r|last]; [done|]. apply quiet_dns_bind; [by intros s|auto with quiet].
Qed.
Lemma quiet_open_dot_upstream {W S T} `{!DotNet W S T} proxy : quiet_dns (open_dot_upstream proxy).
Proof.
  unfold open_dot_upstream. apply quiet_dns_bind; [auto with quiet|]. intros [r|last]; [done|].
  apply quiet_dns_bind; [by intros s|auto with quiet].
Qed.
#[export] Hint Resolve quiet_resolve_raw quiet_open_dot_upstream : quiet.

(** The errors of a tunnel that is gone, with the reason to report. *)
Inductive gone : CoreError → bytes → Prop :=
| gone_closed reason : gone (Closed reason) (str "connection closed: " ++ reason)
| gone_transport reason : gone (Transport reason) (str "connection transport failed: " ++ reason)
| gone_connect reason : gone (Connect reason) (str "connection connect failed: " ++ reason).
Lemma recovery_gone e reason : connection_recovery_reason_from_core e = Some reason ↔ gone e reason.
Proof. split; [destruct e; cbn; try done; intros [= <-]; constructor|by intros []]. Qed.
(** ** DNS over TCP *)

Definition said (c : conn) (b : bytes) : conn := mkConn (cn_in c) (Writer (wr_out (cn_out c) ++ b) None).
Lemma send_all_open b c : wr_fail (cn_out c) = None → send_all b c = (said c b, Ret ()).
Proof. intros Hf. unfold send_all, write_all. by rewrite Hf. Qed.
Lemma lbind_Ret {W A B} (m : lhandler W A) (f : A → lhandler W B) s s1 a : m s = (s1, Ret a) → (m ≫= f) s = f a s1.
Proof. unfold mbind, lhandler_bind. by intros ->. Qed.
Lemma on_conn_Ret {W A} (h : handler A) (s : lstate W) c a : h (ls_conn s) = (c, Ret a) → on_conn h s = (mkLstate c (ls_dns s), Ret a).
Proof. unfold on_conn. by intros ->. Qed.
Lemma on_tunnel_Ret {W A} (f : W → W * A) (s : lstate W) w a :
  f (ds_net (ls_dns s)) = (w, a) → on_tunnel f s = (mkLstate (ls_conn s) (mkDnsState w (ds_reports (ls_dns s))), Ret a).
Proof. unfold on_tunnel. by intros ->. Qed.

(** Messages in DNS-over-TCP frames. *)
Definition framed (b : bytes) : bytes := be_bytes 2 (len b) ++ b.

(** The queries of a connection answered in turn. *)
Inductive resolves {W S T} `{!DotNet W S T} (proxy : DnsProxy)
  : list bytes → dns_state W → dns_state W → list bytes → Prop :=
| resolves_nil d : resolves proxy [] d d []
| resolves_cons q qs d d1 r d2 rs :
    resolve_raw proxy q d = (d1, Ret r) → len r ≤ u16_max → resolves proxy qs d1 d2 rs →
    resolves proxy (q :: qs) d d2 (r :: rs).

Lemma dns_tcp_loop_serves {W S T} `{L : !LocalNet W S T} proxy qs (d d' : dns_state W) rs e out fuel :
  resolves proxy qs d d' rs → (∀ w, ln_flush (W:=W) w = Ret ()) → Forall (fun q => len q ≤ u16_max) qs → (length qs < fuel)%nat →
  dns_tcp_loop fuel proxy (mkLstate (mkConn (Reader (concat (map framed qs)) (IoUnexpectedEof e)) (Writer out None)) d)
  = (mkLstate (mkConn (Reader [] (IoUnexpectedEof e)) (Writer (out ++ concat (map framed rs)) None)) d', Ret ()).
Proof.
  intros Hr Hflush Hq. revert out fuel. induction Hr as [d|q qs d d1 r d2 rs Hres Hlen Hr IH]; intros out fuel Hf;
    (destruct fuel as [|fuel]; [cbn in Hf; lia|]).
  - cbn. by rewrite app_nil_r.
  - apply Forall_cons in Hq as [Hq Hqs]. cbn [dns_tcp_loop map concat]. unfold framed at 1. pose proof (len_nonneg q).
    destruct (be_bytes_2 (len q)) as (b0 & b1 & Hb & Hv); [unfold is_u16, u16_max in *; lia|]. rewrite Hb. cbn [app].
    erewrite lbind_Ret by (by apply on_conn_Ret). cbn [ls_dns].
    erewrite lbind_Ret by (apply on_conn_Ret; by apply (recv_exact_app [b1])).
    erewrite lbind_Ret by (apply on_conn_Ret; apply recv_exact_app; exact Hv).
    erewrite lbind_Ret by (unfold on_dns; cbn; rewrite Hres; done). rewrite decide_True by done.
    erewrite lbind_Ret by done. erewrite lbind_Ret by (by apply on_conn_Ret, send_all_open).
    erewrite lbind_Ret by (by apply on_conn_Ret, send_all_open). erewrite lbind_Ret by (by apply on_tunnel_Ret).
    erewrite lbind_Ret by (apply on_tunnel_Ret; by rewrite Hflush). erewrite lbind_Ret by done.
    unfold said. cbn [ls_conn ls_dns cn_in cn_out wr_out ds_net ds_reports]. destruct d1 as [w1 rep1].
    rewrite IH; [|done|cbn in Hf; lia]. unfold framed. cbn. by rewrite <- !app_assoc.
Qed.

(** DNS over TCP. On a connection that carries any number of queries in
    frames and then ends, every query is resolved, in order, and answered in a
    frame of its own, in order, and the handler returns; there is no limit on
    how many. *)
Theorem dns_over_tcp_serves {W S T} `{L : !LocalNet W S T} proxy qs (d d' : dns_state W) rs e out :
  resolves proxy qs d d' rs → (∀ w, ln_flush (W:=W) w = Ret ()) → Forall (fun q => len q ≤ u16_max) qs →
  handle_dns_over_tcp proxy (mkLstate (mkConn (Reader (concat (map framed qs)) (IoUnexpectedEof e)) (Writer out None)) d)
  = (mkLstate (mkConn (Reader [] (IoUnexpectedEof e)) (Writer (out ++ concat (map framed rs)) None)) d', Ret ()).
Proof.
  intros Hr Hflush Hq. unfold handle_dns_over_tcp, with_conn. cbn [ls_conn cn_in rd_data]. apply dns_tcp_loop_serves; [done..|].
  assert (length qs ≤ length (concat (map framed qs)))%nat; [|lia]. clear. induction qs as [|q qs IH]; [done|].
  cbn. unfold framed at 1. rewrite !length_app, length_be_bytes. lia.
Qed.

Lemma local_parse_same buf : local_parse_udp_datagram buf = parse_udp_datagram buf.
Proof.
  unfold local_parse_udp_datagram, parse_udp_datagram, local_parse_address_from_bytes. case_decide; [done|].
  destruct (index_ok (E:=bytes) buf 0) as (b0 & _ & ->); [lia|]. destruct (index_ok (E:=bytes) buf 1) as (b1 & _ & ->); [lia|].
  destruct (index_ok (E:=bytes) buf 2) as (b2 & _ & ->); [lia|]. cbn. repeat case_decide; tauto || done.
Qed.

(** A network that dials everything, unless its connection is lost. *)
Definition example_net (lost : bool) : LocalNet nat bytes bytes := {|
  ln_dot := {|
    dn_tcp := fun w _ => (S w, Some (Ret []));
    dn_server_name := fun _ => true;
    dn_tls := fun w _ s => (w, Some (Ret s));
    dn_write_all := fun w t b => (w, Ret (t ++ b));
    dn_flush := fun w t => (w, Ret t);
    dn_read_exact := fun w t n => (w, Some (Ret (take (Z.to_nat n) t, drop (Z.to_nat n) t))) |};
  ln_tcp := fun w a => if lost then (w, Err (Closed (str "timed out"))) else (w, Ret a);
  ln_close_reason := fun _ => None;
  ln_relay := fun w _ _ => (w, Ret ());
  ln_flush := fun _ => Ret ();
  ln_udp := fun w => (w, Ret ());
  ln_control_addr := fun _ => Ret (SocketV4 [127; 0; 0; 1] 1080);
  ln_bind_udp := fun w _ => (w, Ret ());
  ln_listen_addr := fun _ => Ret (SocketV4 [127; 0; 0; 1] 4000);
  ln_tunnel_send := fun w _ _ => (S w, Ret ());
  ln_send_to := fun w _ _ => (w, Ret ())
|}.
#[local] Instance example_local : LocalNet nat bytes bytes := example_net false.
Definition example_dns : DnsProxy :=
  mkDnsProxy (str "1.1.1.1") [mkDotUpstream (str "9.9.9.9:853") (str "dns.quad9.net")] 10 true.

Definition example_lstate : lstate nat :=
  mkLstate (mkConn (Reader [] (IoUnexpectedEof [])) (Writer [] None)) (mkDnsState 0%nat []).
Lemma dns_over_tcp_serves_witness : ∃ d',
  handle_dns_over_tcp example_dns (mkLstate (mkConn (Reader (framed (example_query 28) ++ framed (example_query 1)) (IoUnexpectedEof []))
    (Writer [] None)) (mkDnsState 0%nat []))
  = (mkLstate (mkConn (Reader [] (IoUnexpectedEof [])) (Writer
      (framed (query_wire (response_header example_header 0) [str "example"; str "com"] 28 [0; 1] []) ++ framed (example_query 1)) None)) d', Ret ()).
Proof.
  eexists. refine (dns_over_tcp_serves (L:=example_local) example_dns [example_query 28; example_query 1] _ _
    [query_wire (response_header example_header 0) [str "example"; str "com"] 28 [0; 1] []; example_query 1] [] [] _ _ _).
  - eapply resolves_cons; [vm_compute; reflexivity|vm_compute; discriminate|].
    eapply resolves_cons; [vm_compute; reflexivity|vm_compute; discriminate|apply resolves_nil].
  - intros w. reflexivity.
  - repeat apply Forall_cons_2; try apply Forall_nil_2; vm_compute; discriminate.
Defined.
