(* ===== verification/Association.v ===== *)
(** * UDP associations ([app/src/socks5.rs], [mobile/src/local_socks.rs])

    A SOCKS5 UDP association is three tasks and a future that waits for the
    first to end: one reads datagrams of the client, one those of the session,
    one the control connection. They share the address of the client. The future
    and the first two tasks hold clones of the session, and dropping any clone
    closes it ([impl Drop for UdpSession], [core/src/udp.rs]): a task that ends or
    panics closes the session under the other. A run is a sequence of what happens
    at their awaits, in any order. Both front ends have the same tasks around
    different ways to forward a datagram, so the machine is parametric in these. *)
From S2P Require Import Prelude Errors RustStr Net Socks5 Anyhow Dns LocalSocks.
Local Open Scope Z_scope.

(** ** The association *)

(** A task runs at one of its awaits or has ended; a panic is an end. *)
Inductive running (P : Type) := Run (phase : P) | Ended (r : outcome anyhow unit).
Arguments Run {P} phase.
Arguments Ended {P} r.
Definition is_running {P} (t : running P) : bool := match t with Run _ => true | Ended _ => false end.
(** [udp_local_to_remote]: it receives, forwards what it received, or is in the
    session's send, past its test of [closed]. *)
Inductive local_phase := LReceive | LForward (peer : SocketAddr) (destination payload : bytes) | LSend (payload destination : bytes).
(** [udp_remote_to_local]: it receives, or sends to the client. *)
Inductive remote_phase := RReceive | RSendTo (packet : bytes) (target : SocketAddr).

Record association (W : Type) := mkAssoc {
  as_net : W;
  as_client : option SocketAddr;
  as_local : running local_phase;
  as_remote : option (running remote_phase);
  as_control : running unit;
  as_sent : list udp_out;
  as_session : bool;                          (* the session is open *)
  as_lost : bool;                             (* the session manager closed all sessions *)
  as_result : option (outcome anyhow unit);   (* what [handle_udp_associate] returned *)
  as_aborted : bool                           (* its tasks were aborted *)
}.
Arguments mkAssoc {W}.
Arguments as_net {W}. Arguments as_client {W}. Arguments as_local {W}. Arguments as_remote {W}. Arguments as_control {W}.
Arguments as_sent {W}. Arguments as_session {W}. Arguments as_lost {W}. Arguments as_result {W}. Arguments as_aborted {W}.

Inductive assoc_task := LocalTask | RemoteTask | ControlTask.
(** What a task's await gave, the connection's reader closing all sessions, and
    the [select!] taking a task that ended. A receive of the session gives a
    message, or finds its channel closed. *)
Inductive assoc_event :=
| LocalRecv (r : outcome bytes (bytes * SocketAddr))
| LocalForward
| LocalSend
| RemoteRecv (r : outcome unit (bytes * bytes))
| RemoteSendTo
| ControlRead (r : outcome bytes Z)
| ManagerLost
| Select (task : assoc_task).

(** The error of a session that was closed. *)
Definition session_closed : CoreError := Closed (str "udp session closed").

Section association.
Context {W : Type}.
(** How a datagram is read, written and forwarded, the connection's part of a
    send, the errors of a send and of a receive, and whether there is a session. *)
Context (parse : bytes → outcome bytes (option (bytes * bytes))) (build : bytes → bytes → outcome bytes bytes).
Context (forward : SocketAddr → bytes → bytes → W → W * list udp_out * option (outcome anyhow unit)).
Context (send : W → bytes → bytes → W * outcome CoreError unit) (send_to : W → bytes → SocketAddr → W * outcome io_error unit).
Context (upload_error download_error : CoreError → anyhow) (has_session : bool).

Definition association_new (w : W) : association W :=
  mkAssoc w None (Run LReceive) (if has_session then Some (Run RReceive) else None) (Run ()) [] has_session false None false.

Definition set_local (l : running local_phase) (a : association W) : association W :=
  mkAssoc (as_net a) (as_client a) l (as_remote a) (as_control a) (as_sent a) (as_session a) (as_lost a) (as_result a) (as_aborted a).
Definition set_client (c : option SocketAddr) (a : association W) : association W :=
  mkAssoc (as_net a) c (as_local a) (as_remote a) (as_control a) (as_sent a) (as_session a) (as_lost a) (as_result a) (as_aborted a).
Definition set_remote (r : running remote_phase) (a : association W) : association W :=
  mkAssoc (as_net a) (as_client a) (as_local a) (Some r) (as_control a) (as_sent a) (as_session a) (as_lost a) (as_result a) (as_aborted a).
Definition set_control (c : running unit) (a : association W) : association W :=
  mkAssoc (as_net a) (as_client a) (as_local a) (as_remote a) c (as_sent a) (as_session a) (as_lost a) (as_result a) (as_aborted a).
Definition put_out (w : W) (outs : list udp_out) (a : association W) : association W :=
  mkAssoc w (as_client a) (as_local a) (as_remote a) (as_control a) (as_sent a ++ outs) (as_session a) (as_lost a) (as_result a) (as_aborted a).
Definition lose_manager (a : association W) : association W :=
  mkAssoc (as_net a) (as_client a) (as_local a) (as_remote a) (as_control a) (as_sent a) (as_session a) true (as_result a) (as_aborted a).
(** [UdpSession::close], also run by [drop]. *)
Definition drop_session (a : association W) : association W :=
  mkAssoc (as_net a) (as_client a) (as_local a) (as_remote a) (as_control a) (as_sent a) false (as_lost a) (as_result a) (as_aborted a).

(** A task with a clone of the session ends and drops it. *)
Definition end_local (r : outcome anyhow unit) (a : association W) : association W := drop_session (set_local (Ended r) a).
Definition end_remote (r : outcome anyhow unit) (a : association W) : association W := drop_session (set_remote (Ended r) a).
(** The next turn of a loop, unless the last one failed. *)
Definition turn_local (r : outcome anyhow unit) (a : association W) : association W :=
  match r with Ret _ => set_local (Run LReceive) a | r => end_local r a end.
Definition turn_remote (r : outcome anyhow unit) (a : association W) : association W :=
  match r with Ret _ => set_remote (Run RReceive) a | r => end_remote r a end.

(** [udp_local_to_remote] from its receive to its next await. *)
Definition local_recv (r : outcome bytes (bytes * SocketAddr)) (a : association W) : association W :=
  match r with
  | Err text => end_local (Err (anyhow_msg text)) a
  | Panic => end_local Panic a
  | Ret (datagram, peer) =>
      match parse (take 4096 datagram) with
      | Err e => end_local (Err (anyhow_msg e)) a
      | Panic => end_local Panic a
      | Ret None => a
      | Ret (Some (destination, payload)) =>
          match as_client a with
          | None => set_local (Run (LForward peer destination payload)) (set_client (Some peer) a)
          | Some existing => if decide (existing ≠ peer) then a else set_local (Run (LForward peer destination payload)) a
          end
      end
  end.
(** Forwarding, up to the test of [closed] in [UdpSession::send]. *)
Definition local_forward (peer : SocketAddr) (destination payload : bytes) (a : association W) : association W :=
  let '(w, outs, r) := forward peer destination payload (as_net a) in
  let a := put_out w outs a in
  match r with
  | Some r => turn_local r a
  | None =>
      if as_session a then set_local (Run (LSend payload destination)) a
      else end_local (Err (upload_error session_closed)) a
  end.
(** The rest of the send, which may wait for the bandwidth limiter. *)
Definition local_send (payload destination : bytes) (a : association W) : association W :=
  let '(w, r) := send (as_net a) payload destination in
  turn_local (map_err upload_error r) (put_out w [ToTunnel payload destination] a).
(** [udp_remote_to_local]: the session's channel is closed once the session or
    the manager is; until then a receive waits. *)
Definition remote_recv (r : outcome unit (bytes * bytes)) (a : association W) : association W :=
  match r with
  | Err _ => if as_session a && negb (as_lost a) then a else end_remote (Err (download_error session_closed)) a
  | Panic => end_remote Panic a
  | Ret (payload, from_addr) =>
      match build from_addr payload with
      | Err e => end_remote (Err (anyhow_msg e)) a
      | Panic => end_remote Panic a
      | Ret packet => match as_client a with Some target => set_remote (Run (RSendTo packet target)) a | None => a end
      end
  end.
Definition remote_send_to (packet : bytes) (target : SocketAddr) (a : association W) : association W :=
  let '(w, r) := send_to (as_net a) packet target in turn_remote (map_err anyhow_io r) (put_out w [ToPeer packet target] a).
(** The control task: the connection was read. *)
Definition control_read (r : outcome bytes Z) (a : association W) : association W :=
  match r with
  | Ret size => if decide (size = 0) then set_control (Ended (Ret ())) a else a
  | Err text => set_control (Ended (Err (anyhow_msg text))) a
  | Panic => set_control (Ended Panic) a
  end.

Definition task_end (a : association W) (task : assoc_task) : option (outcome anyhow unit) :=
  match task with
  | LocalTask => match as_local a with Ended r => Some r | _ => None end
  | RemoteTask => match as_remote a with Some (Ended r) => Some r | _ => None end
  | ControlTask => match as_control a with Ended r => Some r | _ => None end
  end.
Definition panic_text (task : assoc_task) : bytes :=
  match task with
  | LocalTask => if has_session then str "SOCKS5 UDP upload task panicked" else str "SOCKS5 DNS-only UDP task panicked"
  | RemoteTask => str "SOCKS5 UDP download task panicked"
  | ControlTask => str "SOCKS5 control task panicked"
  end.
(** [joined.context(..)?] and then the task's own result. *)
Definition joined (task : assoc_task) (r : outcome anyhow unit) : outcome anyhow unit :=
  match r with Panic => Err (add_context (panic_text task) (anyhow_msg (str "task panicked"))) | r => r end.
Definition panicked (r : outcome anyhow unit) : bool := match r with Panic => true | _ => false end.
(** The [select!] and what follows. The others are aborted and the session is
    closed; after a panic [handle_udp_associate] returns at once, which closes the
    session too, as its clone is dropped, and leaves the others running. *)
Definition select_task (task : assoc_task) (r : outcome anyhow unit) (a : association W) : association W :=
  mkAssoc (as_net a) (as_client a) (as_local a) (as_remote a) (as_control a) (as_sent a) false (as_lost a)
    (Some (joined task r)) (negb (panicked r)).

(** What happens at an await; a task that is not there, or was aborted, does
    nothing. *)
Definition assoc_step (a : association W) (e : assoc_event) : association W :=
  match e with
  | Select task =>
      match as_result a, task_end a task with
      | None, Some r => select_task task r a
      | _, _ => a
      end
  | _ =>
      if as_aborted a then a
      else
        match e with
        | LocalRecv r => match as_local a with Run LReceive => local_recv r a | _ => a end
        | LocalForward => match as_local a with Run (LForward peer destination payload) => local_forward peer destination payload a | _ => a end
        | LocalSend => match as_local a with Run (LSend payload destination) => local_send payload destination a | _ => a end
        | RemoteRecv r => match as_remote a with Some (Run RReceive) => remote_recv r a | _ => a end
        | RemoteSendTo => match as_remote a with Some (Run (RSendTo packet target)) => remote_send_to packet target a | _ => a end
        | ControlRead r => match as_control a with Run _ => control_read r a | _ => a end
        | ManagerLost => lose_manager a
        | Select _ => a
        end
  end.
Definition assoc_run (w : W) (events : list assoc_event) : association W := fold_left assoc_step events (association_new w).
End association.

(** ** The two front ends *)

Section instances.
Context {W S T : Type} `{!LocalNet W S T}.

(** The desktop's [udp_local_to_remote] leaves everything to the session. *)
Definition socks5_forward (peer : SocketAddr) (destination payload : bytes) (s : dns_state W)
    : dns_state W * list udp_out * option (outcome anyhow unit) := (s, [], None).
Definition state_send (s : dns_state W) (payload destination : bytes) : dns_state W * outcome CoreError unit :=
  let '(w, r) := ln_tunnel_send (ds_net s) payload destination in (mkDnsState w (ds_reports s), r).
Definition state_send_to (s : dns_state W) (packet : bytes) (target : SocketAddr) : dns_state W * outcome io_error unit :=
  let '(w, r) := ln_send_to (ds_net s) packet target in (mkDnsState w (ds_reports s), r).
Definition socks5_association : dns_state W → list assoc_event → association (dns_state W) :=
  assoc_run parse_udp_datagram build_udp_datagram socks5_forward state_send state_send_to anyhow_core anyhow_core true.
(** The application's answers DNS itself, and has a session only if UDP is on. *)
Definition upload_failed (e : CoreError) : anyhow := add_context (str "SOCKS5 UDP upload failed") (anyhow_core e).
Definition download_failed (e : CoreError) : anyhow := add_context (str "SOCKS5 UDP download failed") (anyhow_core e).
Definition local_association (dns_proxy : option DnsProxy) (allow_non_dns_udp : bool) : dns_state W → list assoc_event → association (dns_state W) :=
  assoc_run local_parse_udp_datagram local_build_udp_datagram (forward_local dns_proxy allow_non_dns_udp) state_send state_send_to
    upload_failed download_failed allow_non_dns_udp.
End instances.

(** ** What an association does *)

Section confined.
Context {W : Type}.
Context (parse : bytes → outcome bytes (option (bytes * bytes))) (build : bytes → bytes → outcome bytes bytes).
Context (forward : SocketAddr → bytes → bytes → W → W * list udp_out * option (outcome anyhow unit)).
Context (send : W → bytes → bytes → W * outcome CoreError unit) (send_to : W → bytes → SocketAddr → W * outcome io_error unit).
Context (upload_error download_error : CoreError → anyhow) (has_session : bool).
(** The packets that answer a datagram without the session. *)
Context (answers : bytes → bytes → bytes → Prop).
Implicit Types (a : association W) (past : list assoc_event).
Local Abbreviation step := (assoc_step parse build forward send send_to upload_error download_error has_session).
Local Abbreviation runs := (assoc_run parse build forward send send_to upload_error download_error has_session).

(** A datagram of the peer with this destination and payload was received. *)
Definition received past (peer : SocketAddr) (destination payload : bytes) : Prop :=
  ∃ datagram, LocalRecv (Ret (datagram, peer)) ∈ past ∧ parse (take 4096 datagram) = Ret (Some (destination, payload)).
(** The packet carries a message the session received. *)
Definition downloaded past (packet : bytes) : Prop :=
  ∃ payload from_addr, RemoteRecv (Ret (payload, from_addr)) ∈ past ∧ build from_addr payload = Ret packet.
(** What was sent concerns the client alone: payloads are those of its
    datagrams, packets go to it, and carry a message of the session or an answer
    to a datagram of it. *)
Definition sent_ok past (client : option SocketAddr) (o : udp_out) : Prop :=
  match o with
  | ToPeer packet peer =>
      client = Some peer ∧ (downloaded past packet ∨ ∃ destination payload, received past peer destination payload ∧ answers destination payload packet)
  | ToTunnel payload destination => has_session = true ∧ ∃ peer, client = Some peer ∧ received past peer destination payload
  end.
Record confined past a : Prop := mkConfined {
  cf_client : ∀ peer, as_client a = Some peer → ∃ destination payload, received past peer destination payload;
  cf_sent : Forall (sent_ok past (as_client a)) (as_sent a);
  cf_local : ∀ peer destination payload, as_local a = Run (LForward peer destination payload) →
    as_client a = Some peer ∧ received past peer destination payload;
  cf_sending : ∀ payload destination, as_local a = Run (LSend payload destination) → sent_ok past (as_client a) (ToTunnel payload destination);
  cf_remote : ∀ packet target, as_remote a = Some (Run (RSendTo packet target)) → as_client a = Some target ∧ downloaded past packet;
  (* the session is open exactly while the tasks that hold it and the association run *)
  cf_session : as_session a = true ↔
    has_session = true ∧ is_running (as_local a) = true ∧ (∃ t, as_remote a = Some t ∧ is_running t = true) ∧ as_result a = None;
  cf_download : is_Some (as_remote a) ↔ has_session = true;
  cf_lost : as_lost a = true → ManagerLost ∈ past;
  cf_open : as_result a = None → as_aborted a = false;
  (* the result is the one of a task that ended *)
  cf_ended : ∀ r, as_result a = Some r →
    ∃ task r', task_end a task = Some r' ∧ r = joined has_session task r' ∧ as_aborted a = negb (panicked r')
}.

Lemma received_more past e peer destination payload : received past peer destination payload → received (past ++ [e]) peer destination payload.
Proof. intros (d & Hin & Hp). exists d. split; [|done]. apply elem_of_app. by left. Qed.
Lemma downloaded_more past e packet : downloaded past packet → downloaded (past ++ [e]) packet.
Proof. intros (p & f & Hin & Hb). exists p, f. split; [|done]. apply elem_of_app. by left. Qed.
Lemma sent_ok_more past e client o : sent_ok past client o → sent_ok (past ++ [e]) client o.
Proof.
  destruct o; cbn.
  - intros (? & [?|(d & p & ? & ?)]); (split; [done|]); [left; by apply downloaded_more|right]. exists d, p. split; [by apply received_more|done].
  - intros (? & p & ? & ?). split; [done|]. exists p. split; [done|]. by apply received_more.
Qed.
Lemma sent_ok_bound past peer o : sent_ok past None o → sent_ok past (Some peer) o.
Proof. destruct o; cbn; [by intros []|]. by intros (_ & p & ? & _). Qed.
Lemma confined_more past e a : confined past a → confined (past ++ [e]) a.
Proof.
  intros []. constructor; try done.
  - intros peer Hp. destruct (cf_client0 peer Hp) as (d & pl & ?). exists d, pl. by apply received_more.
  - eapply Forall_impl; [done|]. intros o. apply sent_ok_more.
  - intros peer d pl Hl. destruct (cf_local0 _ _ _ Hl). split; [done|]. by apply received_more.
  - intros pl d Hl. apply sent_ok_more. by apply cf_sending0.
  - intros pk t Hr. destruct (cf_remote0 _ _ Hr). split; [done|]. by apply downloaded_more.
  - intros Hl. apply elem_of_app. left. by apply cf_lost0.
Qed.

(** A task that runs moves on. *)
Lemma confined_local past a phase phase' :
  as_local a = Run phase →
  (∀ peer destination payload, phase' = LForward peer destination payload → as_client a = Some peer ∧ received past peer destination payload) →
  (∀ payload destination, phase' = LSend payload destination → sent_ok past (as_client a) (ToTunnel payload destination)) →
  confined past a → confined past (set_local (Run phase') a).
Proof.
  intros Hrun Hf Hs []. constructor; try done.
  - intros ? ? ? [= ->]. by apply Hf.
  - intros ? ? [= ->]. by apply Hs.
  - rewrite Hrun in cf_session0. exact cf_session0.
  - intros r Hr. destruct (cf_ended0 r Hr) as (task & r' & Ht & ?). exists task, r'. split; [|done].
    destruct task; cbn in *; [by rewrite Hrun in Ht|done..].
Qed.
Lemma confined_remote past a phase phase' :
  as_remote a = Some (Run phase) →
  (∀ packet target, phase' = RSendTo packet target → as_client a = Some target ∧ downloaded past packet) →
  confined past a → confined past (set_remote (Run phase') a).
Proof.
  intros Hrun Hr' []. constructor; try done.
  - intros ? ? [= ->]. by apply Hr'.
  - rewrite cf_session0, Hrun. cbn. split; intros (? & ? & (t & [= <-] & ?) & ?); split_and!; eauto.
  - rewrite <- cf_download0, Hrun. cbn. split; by eexists.
  - intros r Hr. destruct (cf_ended0 r Hr) as (task & r' & Ht & ?). exists task, r'. split; [|done].
    destruct task; cbn in *; [done|by rewrite Hrun in Ht|done].
Qed.
Lemma confined_end_local past a phase r : as_local a = Run phase → confined past a → confined past (end_local r a).
Proof.
  intros Hrun []. constructor; try done.
  - cbn. split; [done|]. by intros (_ & ? & _).
  - intros r' Hr. destruct (cf_ended0 r' Hr) as (task & r'' & Ht & ?). exists task, r''. split; [|done].
    destruct task; cbn in *; [by rewrite Hrun in Ht|done..].
Qed.
Lemma confined_end_remote past a phase r : as_remote a = Some (Run phase) → confined past a → confined past (end_remote r a).
Proof.
  intros Hrun []. constructor; try done.
  - cbn. split; [done|]. by intros (_ & _ & (t & [= <-] & ?) & _).
  - rewrite <- cf_download0, Hrun. cbn. split; by eexists.
  - intros r' Hr. destruct (cf_ended0 r' Hr) as (task & r'' & Ht & ?). exists task, r''. split; [|done].
    destruct task; cbn in *; [done|by rewrite Hrun in Ht|done].
Qed.
Lemma confined_turn_local past a phase r : as_local a = Run phase → confined past a → confined past (turn_local r a).
Proof. intros Hrun Hc. destruct r; cbn; [by eapply confined_local|by eapply confined_end_local..]. Qed.
Lemma confined_turn_remote past a phase r : as_remote a = Some (Run phase) → confined past a → confined past (turn_remote r a).
Proof. intros Hrun Hc. destruct r; cbn; [by eapply confined_remote|by eapply confined_end_remote..]. Qed.
Lemma confined_control past a c : as_control a = Run () → confined past a → confined past (set_control c a).
Proof.
  intros Hrun []. constructor; try done. intros r Hr. destruct (cf_ended0 r Hr) as (task & r' & Ht & ?). exists task, r'. split; [|done].
  destruct task; cbn in *; [done|done|by rewrite Hrun in Ht].
Qed.
Lemma confined_client past a peer destination payload :
  as_client a = None → received past peer destination payload → confined past a → confined past (set_client (Some peer) a).
Proof.
  intros Hnone Hrec []. rewrite Hnone in *. constructor; try done.
  - intros p [= <-]. eauto.
  - eapply Forall_impl; [done|]. intros o. apply sent_ok_bound.
  - intros p d pl Hl. by destruct (cf_local0 _ _ _ Hl).
  - intros pl d Hl. by apply sent_ok_bound, cf_sending0.
  - intros packet target Hr. by destruct (cf_remote0 _ _ Hr).
Qed.
Lemma confined_put past a w outs : Forall (sent_ok past (as_client a)) outs → confined past a → confined past (put_out w outs a).
Proof. intros Ho []. constructor; try done. cbn. by apply Forall_app. Qed.

Context (forwards : ∀ peer destination payload w,
  Forall (fun o => ∃ packet, o = ToPeer packet peer ∧ answers destination payload packet) (forward peer destination payload w).1.2 ∧
  ((forward peer destination payload w).2 = None → has_session = true)).

Lemma confined_step past a e : confined past a → confined (past ++ [e]) (step a e).
Proof.
  intros Hc. pose proof (confined_more past e a Hc) as Hm. destruct e as [r| | |r| |r| |task]; cbn [assoc_step].
  1-7: destruct (as_aborted a) eqn:Eab; [done|].
  - destruct (as_local a) as [[| |]|] eqn:El; try done. unfold local_recv. destruct r as [[datagram peer]|text|]; [|by eapply confined_end_local..].
    destruct (parse _) as [[[destination payload]|]|e|] eqn:Ep; [|done|by eapply confined_end_local..].
    assert (received (past ++ [LocalRecv (Ret (datagram, peer))]) peer destination payload) as Hrec.
    { exists datagram. split; [|done]. apply elem_of_app. right. left. }
    destruct (as_client a) as [existing|] eqn:Ec.
    + case_decide as Hd; [done|]. subst existing. eapply confined_local; [done| |done|done]. by intros ? ? ? [= <- <- <-].
    + eapply confined_local; [done|by intros ? ? ? [= <- <- <-]|done|]. by eapply confined_client.
  - destruct (as_local a) as [[|peer destination payload|]|] eqn:El; try done. destruct (cf_local _ _ Hm _ _ _ El) as [Hclient Hrec].
    unfold local_forward. pose proof (forwards peer destination payload (as_net a)) as Hf. destruct (forward _ _ _ _) as [[w outs] r]. cbn in Hf.
    destruct Hf as [Hf Hn]. assert (confined (past ++ [LocalForward]) (put_out w outs a)) as Hp.
    { apply confined_put; [|done]. eapply Forall_impl; [exact Hf|]. rewrite Hclient. intros o (packet & -> & ?). cbn. eauto 6. }
    destruct r as [r|]; [by eapply confined_turn_local|]. destruct (as_session _); [|by eapply confined_end_local].
    eapply confined_local; [done|done| |done]. intros ? ? [= <- <-]. cbn. rewrite Hclient. eauto.
  - destruct (as_local a) as [[| |payload destination]|] eqn:El; try done. unfold local_send. destruct (send _ _ _) as [w r].
    eapply confined_turn_local; [done|]. apply confined_put; [|done]. constructor; [|done]. by apply (cf_sending _ _ Hm).
  - destruct (as_remote a) as [[[|]|]|] eqn:Er; try done. unfold remote_recv. destruct r as [[payload from_addr]|[]|]; [| |by eapply confined_end_remote].
    + destruct (build _ _) as [packet|err|] eqn:Eb; [|by eapply confined_end_remote..]. destruct (as_client a) as [target|] eqn:Ec; [|done].
      eapply confined_remote; [done| |done]. intros ? ? [= <- <-]. split; [done|]. exists payload, from_addr. split; [|done].
      apply elem_of_app. right. left.
    + destruct (_ && _); [done|by eapply confined_end_remote].
  - destruct (as_remote a) as [[[|packet target]|]|] eqn:Er; try done. destruct (cf_remote _ _ Hm _ _ Er) as [Hclient Hdown].
    unfold remote_send_to. destruct (send_to _ _ _) as [w r]. eapply confined_turn_remote; [done|]. apply confined_put; [|done].
    constructor; [|done]. cbn. auto.
  - destruct (as_control a) as [[]|] eqn:Ec; [|done]. unfold control_read. destruct r as [size| |]; [case_decide; [|done]|..]; by apply confined_control.
  - destruct Hm. constructor; try done. intros _. apply elem_of_app. right. left.
  - destruct (as_result a) eqn:Er; [done|]. destruct (task_end a task) as [r|] eqn:Et; [|done].
    destruct Hm. constructor; try done; [cbn; split; [done|by intros (_ & _ & _ & ?)]|]. intros r' [= <-]. by exists task, r.
Qed.
Lemma confined_run w events : confined events (runs w events).
Proof.
  unfold assoc_run. induction events as [|e events IH] using rev_ind.
  - constructor; cbn; try done; [by destruct has_session| |destruct has_session; [by split|split; [by intros []|done]]].
    destruct has_session; [|by split; [|intros []]]. split; [|done]. intros _. split_and!; [done..| |done]. by exists (Run RReceive).
  - rewrite fold_left_app. by apply confined_step.
Qed.

(** After it ended without a panic, an association does nothing. *)
Lemma aborted_still a e : as_aborted a = true → as_result a ≠ None → step a e = a.
Proof. intros Ha Hr. destruct e; cbn [assoc_step]; rewrite ?Ha; try done. by destruct (as_result a). Qed.
Lemma aborted_frozen a events : as_aborted a = true → as_result a ≠ None → fold_left step events a = a.
Proof. intros Ha Hr. induction events as [|e events IH]; [done|]. cbn. by rewrite aborted_still. Qed.
Lemma run_frozen w events later : as_aborted (runs w events) = true → runs w (events ++ later) = runs w events.
Proof.
  intros Ha. unfold assoc_run. rewrite fold_left_app. apply aborted_frozen; [exact Ha|]. intros Hr.
  pose proof (cf_open _ _ (confined_run w events) Hr) as Hf. by rewrite Ha in Hf.
Qed.
(** The end of the control connection ends it. *)
Lemma control_ends w events :
  let a := runs w events in
  as_result a = None → as_control a = Run () →
  let a' := runs w (events ++ [ControlRead (Ret 0); Select ControlTask]) in
  as_result a' = Some (Ret ()) ∧ as_session a' = false ∧ as_aborted a' = true ∧ as_sent a' = as_sent a.
Proof.
  intros a. pose proof (cf_open _ _ (confined_run w events)) as Hopen. subst a. unfold assoc_run in *. rewrite fold_left_app. cbn [fold_left].
  set (a := fold_left _ events _) in *. clearbody a. intros Hr Hc. cbn [assoc_step].
  rewrite (Hopen Hr), Hc. unfold control_read. rewrite decide_True by done. cbn. by rewrite Hr.
Qed.

(** ** Who ended it *)

Ltac step_cases a e :=
  destruct e; cbn [assoc_step]; try (destruct (as_aborted a) eqn:?; [done|]);
  unfold local_recv, local_forward, local_send, remote_recv, remote_send_to, control_read, turn_local, turn_remote;
  repeat (case_match; try done).

(** A task that ended stays so, and so does the result. *)
Lemma local_stays a e r : as_local a = Ended r → as_local (step a e) = Ended r.
Proof. intros H. step_cases a e; by simplify_eq. Qed.
Lemma remote_stays a e r : as_remote a = Some (Ended r) → as_remote (step a e) = Some (Ended r).
Proof. intros H. step_cases a e; by simplify_eq. Qed.
Lemma control_stays a e r : as_control a = Ended r → as_control (step a e) = Ended r.
Proof. intros H. step_cases a e; by simplify_eq. Qed.
Lemma result_stays a e r : as_result a = Some r → as_result (step a e) = Some r.
Proof. intros H. step_cases a e; by simplify_eq. Qed.
Lemma run_snoc w events e : runs w (events ++ [e]) = step (runs w events) e.
Proof. unfold assoc_run. by rewrite fold_left_app. Qed.
Lemma result_run w events later r : as_result (runs w events) = Some r → as_result (runs w (events ++ later)) = Some r.
Proof.
  intros H. induction later as [|e later IH] using rev_ind; [by rewrite app_nil_r|]. rewrite app_assoc, run_snoc. by apply result_stays.
Qed.
Lemma result_before w events later : as_result (runs w (events ++ later)) = None → as_result (runs w events) = None.
Proof. intros H. destruct (as_result (runs w events)) as [r|] eqn:E; [|done]. by rewrite (result_run _ _ later _ E) in H. Qed.

(** A [select!] that takes a task which ended decides, for good. *)
Lemma select_decides w events task r later :
  as_result (runs w events) = None → task_end (runs w events) task = Some r →
  as_result (runs w (events ++ Select task :: later)) = Some (joined has_session task r).
Proof.
  intros Hn Ht. replace (events ++ Select task :: later) with ((events ++ [Select task]) ++ later) by (by rewrite <- app_assoc).
  apply result_run. rewrite run_snoc. cbn [assoc_step]. by rewrite Hn, Ht.
Qed.
Lemma decided_by w events r :
  as_result (runs w events) = Some r →
  ∃ before task r' after, events = before ++ Select task :: after ∧ as_result (runs w before) = None ∧
    task_end (runs w before) task = Some r' ∧ r = joined has_session task r'.
Proof.
  induction events as [|e events IH] using rev_ind; [done|]. rewrite run_snoc. destruct (as_result (runs w events)) as [r0|] eqn:E.
  - rewrite (result_stays _ _ r0) by done. intros [= ->]. destruct (IH eq_refl) as (before & task & r' & after & -> & H).
    exists before, task, r', (after ++ [e]). by rewrite <- app_assoc.
  - intros H. assert (∃ task r', e = Select task ∧ task_end (runs w events) task = Some r' ∧ r = joined has_session task r') as (task & r' & -> & ? & ?).
    { revert H E. set (a := runs w events). clearbody a. intros H E. revert H. step_cases a e; cbn; try congruence; intros [= <-]; eauto. }
    exists events, task, r', []. by split_and!.
Qed.

(** The event at which a task ended. *)
Lemma local_ended_by w events r :
  as_local (runs w events) = Ended r →
  ∃ before e after phase, events = before ++ e :: after ∧ as_local (runs w before) = Run phase ∧ as_local (step (runs w before) e) = Ended r.
Proof.
  induction events as [|e events IH] using rev_ind; [done|]. rewrite run_snoc. destruct (as_local (runs w events)) as [phase|r0] eqn:E.
  - intros H. by exists events, e, [], phase.
  - rewrite (local_stays _ _ r0) by done. intros [= ->]. destruct (IH eq_refl) as (before & e' & after & phase & -> & H).
    exists before, e', (after ++ [e]), phase. by rewrite <- app_assoc.
Qed.
Lemma remote_ended_by w events r :
  as_remote (runs w events) = Some (Ended r) →
  ∃ before e after phase, events = before ++ e :: after ∧ as_remote (runs w before) = Some (Run phase) ∧
    as_remote (step (runs w before) e) = Some (Ended r).
Proof.
  clear forwards. induction events as [|e events IH] using rev_ind; [by destruct has_session|]. rewrite run_snoc.
  destruct (as_remote (runs w events)) as [[phase|r0]|] eqn:E.
  - intros H. by exists events, e, [], phase.
  - rewrite (remote_stays _ _ r0) by done. intros [= ->]. destruct (IH eq_refl) as (before & e' & after & phase & -> & H).
    exists before, e', (after ++ [e]), phase. by rewrite <- app_assoc.
  - set (a := runs w events) in *. clearbody a. intros H. exfalso. revert H. step_cases a e; cbn; congruence.
Qed.

(** Errors that are texts: they are not the tunnel's. *)
Definition textual (r : outcome anyhow unit) : Prop := r = Ret () ∨ r = Panic ∨ ∃ text, r = Err (anyhow_msg text).
Lemma local_end_cases a e phase r :
  as_local a = Run phase → as_local (step a e) = Ended r →
  textual r ∨
  (e = LocalForward ∧ has_session = true ∧ as_session a = false ∧ r = Err (upload_error session_closed)) ∨
  (e = LocalForward ∧ ∃ peer destination payload, (forward peer destination payload (as_net a)).2 = Some r) ∨
  (e = LocalSend ∧ ∃ payload destination err, phase = LSend payload destination ∧
     (send (as_net a) payload destination).2 = Err err ∧ r = Err (upload_error err)).
Proof.
  unfold textual. intros Hl. destruct e; cbn [assoc_step]; try (destruct (as_aborted a); [congruence|]); rewrite ?Hl.
  - destruct phase; try congruence. unfold local_recv. repeat case_match; cbn; rewrite ?Hl; intros [=]; subst; eauto 6.
  - destruct phase as [|peer destination payload|]; try congruence. unfold local_forward.
    destruct (forward _ _ _ _) as [[w outs] [r'|]] eqn:Ef.
    + intros H. right. right. left. split; [done|]. exists peer, destination, payload. rewrite Ef. destruct r'; cbn in *; congruence.
    + cbn [put_out as_session]. destruct (as_session a) eqn:Es; [done|]. intros [= <-]. right. left. split_and!; try done.
      apply (forwards peer destination payload (as_net a)). by rewrite Ef.
  - destruct phase as [| |payload destination]; try congruence. unfold local_send. destruct (send _ _ _) as [w [|err|]] eqn:Es; cbn; [done| |].
    + intros [= <-]. do 3 right. split; [done|]. exists payload, destination, err. by rewrite Es.
    + intros [= <-]. auto.
  - unfold remote_recv, end_remote. repeat case_match; cbn; congruence.
  - unfold remote_send_to, turn_remote, end_remote. repeat case_match; cbn; congruence.
  - unfold control_read. repeat case_match; cbn; congruence.
  - cbn. congruence.
  - repeat case_match; cbn; congruence.
Qed.
Lemma remote_end_cases a e phase r :
  as_remote a = Some (Run phase) → as_remote (step a e) = Some (Ended r) →
  textual r ∨ (e = RemoteRecv (Err ()) ∧ (as_session a = false ∨ as_lost a = true) ∧ r = Err (download_error session_closed)).
Proof.
  unfold textual. intros Hl. destruct e as [| | |r0| | | |]; cbn [assoc_step]; try (destruct (as_aborted a); [congruence|]); rewrite ?Hl.
  - unfold local_recv, end_local. repeat case_match; cbn; congruence.
  - unfold local_forward, turn_local, end_local. repeat case_match; cbn; congruence.
  - unfold local_send, turn_local, end_local. repeat case_match; cbn; congruence.
  - destruct phase; try congruence. unfold remote_recv. destruct r0 as [[]|[]|].
    + repeat case_match; cbn; rewrite ?Hl; intros [=]; subst; eauto 6.
    + destruct (as_session a) eqn:Es, (as_lost a) eqn:Elo; cbn; rewrite ?Hl; intros [=]; subst; auto.
    + intros [= <-]. auto.
  - destruct phase as [|packet target]; try congruence. unfold remote_send_to. destruct (send_to _ _ _) as [w [| |]]; cbn; intros [=]; subst; eauto 6.
  - unfold control_read. repeat case_match; cbn; congruence.
  - cbn. congruence.
  - repeat case_match; cbn; congruence.
Qed.
Lemma control_end_textual w events r : as_control (runs w events) = Ended r → textual r.
Proof.
  unfold textual. revert r. induction events as [|e events IH] using rev_ind; intros r; [done|]. rewrite run_snoc. set (a := runs w events) in *.
  clearbody a. destruct (as_control a) as [[]|r0] eqn:E.
  - step_cases a e; cbn; try congruence; intros [= <-]; eauto.
  - rewrite (control_stays _ _ r0) by done. intros [= <-]. by apply IH.
Qed.

(** ** The tunnel after the session was closed *)

Definition tunnelled (outs : list udp_out) : list (bytes * bytes) :=
  omap (fun o => match o with ToTunnel payload destination => Some (payload, destination) | ToPeer _ _ => None end) outs.
(** What the upload task has in the session's send, past its test. *)
Definition in_flight a : list (bytes * bytes) := match as_local a with Run (LSend payload destination) => [(payload, destination)] | _ => [] end.
Lemma tunnelled_app o1 o2 : tunnelled (o1 ++ o2) = tunnelled o1 ++ tunnelled o2.
Proof. apply omap_app. Qed.
Lemma forward_tunnels_nothing peer destination payload w : tunnelled (forward peer destination payload w).1.2 = [].
Proof. destruct (forwards peer destination payload w) as [H _]. induction H as [|o os (packet & -> & _) _ IH]; [done|exact IH]. Qed.
Lemma closed_same a a' :
  as_session a' = false → as_sent a' = as_sent a → as_local a' = as_local a →
  as_session a' = false ∧
  ((tunnelled (as_sent a') = tunnelled (as_sent a) ∧ in_flight a' = in_flight a) ∨
   (tunnelled (as_sent a') = tunnelled (as_sent a) ++ in_flight a ∧ in_flight a' = [])).
Proof. unfold in_flight. intros -> -> ->. auto. Qed.
Lemma closed_step a e :
  as_session a = false →
  as_session (step a e) = false ∧
  ((tunnelled (as_sent (step a e)) = tunnelled (as_sent a) ∧ in_flight (step a e) = in_flight a) ∨
   (tunnelled (as_sent (step a e)) = tunnelled (as_sent a) ++ in_flight a ∧ in_flight (step a e) = [])).
Proof.
  intros Hs. destruct e; cbn [assoc_step]; try (destruct (as_aborted a); [by apply closed_same|]).
  - destruct (as_local a) as [[| |]|] eqn:El; [|by apply closed_same..]. unfold local_recv, end_local.
    repeat (case_match; try by apply closed_same). all: unfold in_flight; cbn -[tunnelled]; rewrite ?El; auto.
  - destruct (as_local a) as [[|peer destination payload|]|] eqn:El; [by apply closed_same| |by apply closed_same..]. unfold local_forward.
    pose proof (forward_tunnels_nothing peer destination payload (as_net a)) as Ht. destruct (forward _ _ _ _) as [[w outs] r]. cbn -[tunnelled] in Ht.
    cbn [put_out as_session]. rewrite Hs. unfold turn_local, end_local, in_flight. rewrite El.
    destruct r as [[| |]|]; cbn -[tunnelled]; rewrite tunnelled_app, Ht, app_nil_r; auto.
  - destruct (as_local a) as [[| |payload destination]|] eqn:El; [by apply closed_same..| |by apply closed_same].
    unfold local_send, turn_local, end_local, in_flight. rewrite El. destruct (send _ _ _) as [w [| |]]; cbn -[tunnelled]; rewrite tunnelled_app; auto.
  - destruct (as_remote a) as [[[|]|]|]; [|by apply closed_same..]. unfold remote_recv, end_remote.
    repeat (case_match; try by apply closed_same).
  - destruct (as_remote a) as [[[|packet target]|]|]; [by apply closed_same| |by apply closed_same..]. unfold remote_send_to, turn_remote, end_remote, in_flight.
    destruct (send_to _ _ _) as [w [| |]]; cbn -[tunnelled]; rewrite tunnelled_app; (split; [done|left; split; [apply app_nil_r|done]]).
  - destruct (as_control a); [|by apply closed_same]. unfold control_read. repeat (case_match; try by apply closed_same).
  - by apply closed_same.
  - destruct (as_result a); [by apply closed_same|]. destruct (task_end a task); by apply closed_same.
Qed.
Lemma closed_tunnel w events later :
  as_session (runs w events) = false →
  ∃ l, tunnelled (as_sent (runs w (events ++ later))) = tunnelled (as_sent (runs w events)) ++ l ∧ (l = [] ∨ l = in_flight (runs w events)).
Proof.
  unfold assoc_run. rewrite fold_left_app. generalize (fold_left step events (association_new has_session w)). clear events.
  induction later as [|e later IH]; intros a Hs; [exists []; rewrite app_nil_r; auto|]. cbn [fold_left].
  destruct (closed_step a e Hs) as [Hs' [[H1 H2]|[H1 H2]]]; destruct (IH (step a e) Hs') as (l & -> & Hl); rewrite H1.
  - exists l. split; [done|]. by rewrite <- H2.
  - exists (in_flight a ++ l). rewrite app_assoc. split; [done|]. right. rewrite H2 in Hl. destruct Hl as [-> | ->]; by rewrite app_nil_r.
Qed.
End confined.

Section front_ends.
Context {W S T : Type} `{!LocalNet W S T}.

Lemma socks5_forwards peer destination payload (s : dns_state W) :
  Forall (fun o => ∃ packet, o = ToPeer packet peer ∧ False) (socks5_forward peer destination payload s).1.2 ∧
  ((socks5_forward peer destination payload s).2 = None → true = true).
Proof. split; [constructor|done]. Qed.
(** An answer of the DNS proxy to a query for the advertised resolver. *)
Definition dns_answer (dns_proxy : option DnsProxy) (destination payload packet : bytes) : Prop :=
  ∃ proxy (s s' : dns_state W) response, dns_proxy = Some proxy ∧ match_destination proxy destination = Some Plain ∧
    resolve_raw proxy payload s = (s', Ret response) ∧ local_build_udp_datagram destination response = Ret packet.
Lemma local_forwards dns_proxy allow peer destination payload (s : dns_state W) :
  Forall (fun o => ∃ packet, o = ToPeer packet peer ∧ dns_answer dns_proxy destination payload packet)
    (forward_local dns_proxy allow peer destination payload s).1.2 ∧
  ((forward_local dns_proxy allow peer destination payload s).2 = None → allow = true).
Proof.
  unfold forward_local. destruct (dns_proxy ≫= _) as [proxy|] eqn:Ep; [|split; [constructor|by destruct allow]].
  destruct dns_proxy as [proxy'|]; [|done]. cbn in Ep. case_decide as Hm; [|done]. injection Ep as ->.
  destruct (resolve_raw _ _ _) as [s' [response|e|]] eqn:Er; [|by split; [constructor|]..].
  destruct (local_build_udp_datagram _ _) as [packet|e|] eqn:Eb; [|by split; [constructor|]..].
  destruct (ln_send_to _ _ _). split; [|done]. constructor; [|constructor]. exists packet. split; [done|]. by exists proxy, s, s', response.
Qed.

(** C31: the UDP associations of both front ends, in any order of what happens to
    their three tasks. An association is bound to the sender of a well-formed
    datagram; the packets it sends go to that client alone and carry messages of
    the session or answers of the DNS proxy to that client, and only payloads of
    the client's datagrams, with their destinations, go into the tunnel, and none
    if the application has UDP off. The session is open exactly while both tasks
    that hold it and the association run: the end of either, or a panic, closes it,
    and after that at most the one payload whose send had passed its test goes
    into the tunnel. The first task taken by the [select!] after it ended decides
    the result, for good, a panic being an error with its context; the other tasks
    are stopped, so that nothing more happens, unless it panicked. Closing the
    control connection ends an association with success. *)
Theorem associations_confined dns_proxy allow (s : dns_state W) events :
  let ends has_session run :=
    let a := run events in
    (as_aborted a = true → ∀ later, run (events ++ later) = a) ∧
    (as_result a = None → ∀ task r later, task_end a task = Some r →
       as_result (run (events ++ Select task :: later)) = Some (joined has_session task r)) ∧
    (as_session a = false → ∀ later, ∃ l,
       tunnelled (as_sent (run (events ++ later))) = tunnelled (as_sent a) ++ l ∧ (l = [] ∨ l = in_flight a)) ∧
    (as_result a = None → as_control a = Run () →
       let a' := run (events ++ [ControlRead (Ret 0); Select ControlTask]) in
       as_result a' = Some (Ret ()) ∧ as_session a' = false ∧ as_aborted a' = true ∧ as_sent a' = as_sent a) in
  confined parse_udp_datagram build_udp_datagram true (fun _ _ _ => False) events (socks5_association s events) ∧
  ends true (socks5_association s) ∧
  confined local_parse_udp_datagram local_build_udp_datagram allow (dns_answer dns_proxy) events (local_association dns_proxy allow s events) ∧
  ends allow (local_association dns_proxy allow s).
Proof.
  intros ends. split_and!.
  - apply confined_run, socks5_forwards.
  - split_and!; [intros Ha later; by eapply run_frozen; [apply socks5_forwards|]|intros; by apply select_decides| |].
    + intros Hs later. by eapply closed_tunnel; [apply socks5_forwards|].
    + eapply control_ends, socks5_forwards.
  - apply confined_run, local_forwards.
  - split_and!; [intros Ha later; by eapply run_frozen; [apply local_forwards|]|intros; by apply select_decides| |].
    + intros Hs later. by eapply closed_tunnel; [apply local_forwards|].
    + eapply control_ends, local_forwards.
Qed.
End front_ends.

(** The client asks, another host joins in, the target answers, a packet that
    cannot be parsed ends the upload task under a send of the session, and the
    download task finds its session closed. *)
Definition client_a : SocketAddr := SocketV4 [10; 0; 0; 1] 5000.
Definition client_b : SocketAddr := SocketV4 [10; 0; 0; 2] 5000.
Definition example_datagram (x : Z) : bytes := [0; 0; 0; 1; 9; 9; 9; 9; 1; 187; x].
Definition example_association : list assoc_event :=
  [LocalRecv (Ret (example_datagram 7, client_a)); LocalForward; LocalSend; LocalRecv (Ret (example_datagram 8, client_b)); LocalForward; LocalSend;
   RemoteRecv (Ret ([6], str "9.9.9.9:443")); RemoteSendTo; RemoteRecv (Err ()); LocalRecv (Ret ([0; 0; 0; 9], client_b))].
Lemma associations_confined_witness :
  let run := socks5_association (LocalNet0:=example_net false) (mkDnsState 0%nat []) in
  let a := run example_association in
  as_sent a = [ToTunnel [7] (str "9.9.9.9:443"); ToPeer ([0; 0; 0; 1; 9; 9; 9; 9; 1; 187; 6]) client_a] ∧ as_session a = false
  ∧ (∃ destination payload, received parse_udp_datagram example_association client_a destination payload)
  ∧ as_result (run (example_association ++ [RemoteRecv (Err ()); Select RemoteTask; Select LocalTask])) = Some (Err (anyhow_core session_closed)).
Proof.
  pose (H := associations_confined (LocalNet0:=example_net false) None true (mkDnsState 0%nat [])).
  split_and!; [vm_compute; reflexivity..| |].
  - apply (cf_client _ _ _ _ _ _ (proj1 (H example_association)) client_a). vm_compute. reflexivity.
  - apply (proj1 (proj2 (proj1 (proj2 (H (example_association ++ [RemoteRecv (Err ())]))))) ltac:(vm_compute; reflexivity) RemoteTask
      (Err (anyhow_core session_closed)) [Select LocalTask]). vm_compute. reflexivity.
Defined.
