(* ===== verification/LocalClient.v ===== *)
(** * A connection of the mobile SOCKS5 front end ([mobile/src/local_socks.rs])

    [handle_client] as a whole, with the UDP association it may run, and when its
    result makes [serve_socks5] ask the application to reconnect. *)
From S2P Require Import Prelude Errors RustStr Proxy Net Socks5 Anyhow Dns LocalSocks Association.
Local Open Scope Z_scope.

Section handlers.
Context {W S T : Type} `{!LocalNet W S T}.

(** [SocketAddr::new(addr.ip(), 0)]. *)
Definition any_port (a : SocketAddr) : SocketAddr := match a with SocketV4 o _ => SocketV4 o 0 | SocketV6 o _ => SocketV6 o 0 end.

(** The association's tasks up to the result of the [select!]; [None] while they
    run. *)
Definition run_association (dns_proxy : option DnsProxy) (allow_non_dns_udp : bool) (events : list assoc_event) : lhandler W (option unit) := fun s =>
  let a := local_association dns_proxy allow_non_dns_udp (ls_dns s) events in
  (mkLstate (ls_conn s) (as_net a), match as_result a with None => Ret None | Some r => _ ← r; Ret (Some ()) end).

(** [handle_udp_associate], given what happens to the association's tasks;
    [None] while the association runs. *)
Definition local_handle_udp_associate (dns_proxy : option DnsProxy) (allow_non_dns_udp : bool) (events : list assoc_event)
    : lhandler W (option unit) :=
  control_addr ← on_tunnel (fun w => (w, ln_control_addr w));
  bind_ip ← l_lift (context (str "failed to read SOCKS5 local address") (map_err anyhow_io control_addr));
  bound ← on_tunnel (fun w => ln_bind_udp w (any_port bind_ip));
  _ ← l_lift (context (str "failed to bind SOCKS5 UDP socket") (map_err anyhow_io bound));
  _ ← (if allow_non_dns_udp then
         r ← on_tunnel ln_udp;
         l_lift (context (str "failed to open proxied UDP session") (map_err anyhow_core r))
       else mret ());
  listen_addr ← on_tunnel (fun w => (w, ln_listen_addr w));
  relay_addr ← l_lift (context (str "failed to read SOCKS5 UDP listen address") (map_err anyhow_io listen_addr));
  _ ← on_conn (local_write_reply SOCKS5_REP_SUCCESS (Some relay_addr));
  run_association dns_proxy allow_non_dns_udp events.

(** [handle_client]. *)
Definition local_handle_client (auth : option (bytes * bytes)) (disable_udp : bool) (dns_proxy : option DnsProxy) (events : list assoc_event)
    : lhandler W (option unit) :=
  _ ← on_conn (local_negotiate auth);
  request ← on_conn local_read_request;
  if decide (command request = SOCKS5_CMD_CONNECT) then
    _ ← local_handle_connect (address request) dns_proxy; mret (Some ())
  else if decide (command request = SOCKS5_CMD_UDP_ASSOCIATE
                  ∧ should_accept_udp_associate disable_udp (bool_decide (is_Some dns_proxy)) = true) then
    local_handle_udp_associate dns_proxy (negb disable_udp) events
  else _ ← on_conn (local_write_reply SOCKS5_REP_COMMAND_NOT_SUPPORTED None); mret (Some ()).
End handlers.

(** ** What a reconnect is asked for *)

Section causes.
Context {W S T : Type} `{L : !LocalNet W S T}.
Implicit Types (w : W).

(** Of a CONNECT: the stream could not be opened because of an error that means
    the tunnel is gone, or the relay failed and the connection was closed. *)
Inductive connect_cause (address : bytes) (c : conn) w (reason : bytes) : Prop :=
| cause_open w' e : ln_tcp w address = (w', Err e) → gone e reason → connect_cause address c w reason
| cause_relay w' remote w'' err text :
    ln_tcp w address = (w', Ret remote) →
    ln_relay w' (said c ([SOCKS5_VERSION; SOCKS5_REP_SUCCESS; 0] ++ encode_socket_addr (SocketV4 [0; 0; 0; 0] 0))) remote = (w'', Err err) →
    ln_close_reason w'' = Some text → reason = str "connection closed: " ++ text → connect_cause address c w reason.
(** Of a connection to the advertised resolver: a flush or a relay failed and the
    connection was closed. *)
Inductive resolver_cause (reason : bytes) : Prop :=
| cause_flush w err text : ln_flush w = Err err → ln_close_reason w = Some text → reason = str "connection closed: " ++ text → resolver_cause reason
| cause_dot w c remote w' err text :
    ln_relay w c remote = (w', Err err) → ln_close_reason w' = Some text → reason = str "connection closed: " ++ text → resolver_cause reason.
(** Of an association: a send of the session failed with such an error; or a task
    found the session closed, because the manager had closed all sessions or
    because the other task had ended. *)
Inductive association_cause (dns_proxy : option DnsProxy) (s : dns_state W) (events : list assoc_event) (reason : bytes) : Prop :=
| cause_send before after payload destination e :
    events = before ++ LocalSend :: after →
    as_local (local_association dns_proxy true s before) = Run (LSend payload destination) →
    (ln_tunnel_send (ds_net (as_net (local_association dns_proxy true s before))) payload destination).2 = Err e →
    gone e reason → association_cause dns_proxy s events reason
| cause_closed before e after :
    events = before ++ e :: after → e = LocalForward ∨ e = RemoteRecv (Err ()) →
    ManagerLost ∈ before ∨ (∃ task r, task ≠ ControlTask ∧ task_end (local_association dns_proxy true s before) task = Some r) →
    reason = str "connection closed: udp session closed" → association_cause dns_proxy s events reason.

Lemma noisy_bind {A B} (m : lhandler W A) (f : A → lhandler W B) s reason :
  quiet_handler m → notified (snd ((m ≫= f) s)) = Some reason →
  ∃ s' a, m s = (s', Ret a) ∧ notified (snd (f a s')) = Some reason.
Proof.
  intros Hq. unfold mbind, lhandler_bind. specialize (Hq s). destruct (m s) as [s' [a|e|]]; cbn; [eauto| |done].
  unfold quiet in Hq. cbn in Hq. by rewrite Hq.
Qed.
Lemma noisy_tunnel {A B} (f : W → W * A) (k : A → lhandler W B) (s : lstate W) w a :
  f (ds_net (ls_dns s)) = (w, a) → (on_tunnel f ≫= k) s = k a (mkLstate (ls_conn s) (mkDnsState w (ds_reports (ls_dns s)))).
Proof. intros H. by rewrite (lbind_Ret _ _ _ _ _ (on_tunnel_Ret _ _ _ _ H)). Qed.
Lemma relayed_noisy r ctx (s : lstate W) reason :
  notified (snd (relayed r ctx s)) = Some reason →
  ∃ err text, r = Err err ∧ ln_close_reason (ds_net (ls_dns s)) = Some text ∧ reason = str "connection closed: " ++ text.
Proof.
  destruct r as [[]|err|]; [done| |done]. unfold relayed, on_tunnel, mbind, lhandler_bind, l_fail. cbn.
  destruct (ln_close_reason _) as [text|]; [|done]. intros [= <-]. eauto.
Qed.
Lemma relay_noisy remote ctx (s : lstate W) reason :
  notified (snd ((r ← with_conn (fun c => on_tunnel (fun w => ln_relay w c remote)); relayed r ctx) s)) = Some reason →
  ∃ w' err text, ln_relay (ds_net (ls_dns s)) (ls_conn s) remote = (w', Err err) ∧ ln_close_reason w' = Some text ∧
    reason = str "connection closed: " ++ text.
Proof.
  destruct (ln_relay (ds_net (ls_dns s)) (ls_conn s) remote) as [w' r] eqn:Er.
  erewrite lbind_Ret by (unfold with_conn; apply on_tunnel_Ret; exact Er). intros (err & text & -> & Hc & ->)%relayed_noisy. by exists w', err, text.
Qed.
Lemma write_reply_Ret code addr c c' u : local_write_reply code addr c = (c', Ret u) →
  c' = said c ([SOCKS5_VERSION; code; 0] ++ encode_socket_addr (default (SocketV4 [0; 0; 0; 0] 0) addr)).
Proof.
  unfold local_write_reply, write_reply, send_all, write_all, said. destruct (wr_fail (cn_out c)) as [[]|]; [done..|]. by intros [= <- _].
Qed.

Lemma dns_tcp_noisy fuel proxy (s : lstate W) reason : notified (snd (dns_tcp_loop fuel proxy s)) = Some reason → resolver_cause reason.
Proof.
  revert s. induction fuel as [|fuel IH]; intros s; [done|]. cbn [dns_tcp_loop].
  intros (s1 & [b0|] & _ & H)%noisy_bind; [|done|auto with quiet].
  do 3 (apply noisy_bind in H as (? & ? & _ & H); [|auto with quiet]).
  apply noisy_bind in H as (? & ? & _ & H); [|apply quiet_l_lift; by case_decide].
  do 2 (apply noisy_bind in H as (? & ? & _ & H); [|auto with quiet]).
  erewrite noisy_tunnel in H by done. erewrite noisy_tunnel in H by done. cbn [ls_dns ds_net] in H.
  set (w := ds_net _) in H. destruct (ln_flush w) as [u|err|] eqn:Ef; cbn in H; [by apply IH in H| |done].
  destruct (ln_close_reason w) as [text|] eqn:Ec; [|done]. injection H as <-. by eapply cause_flush.
Qed.
Lemma dns_tls_noisy proxy (s : lstate W) reason : notified (snd (handle_dns_over_tls proxy s)) = Some reason → resolver_cause reason.
Proof.
  intros (s1 & remote & _ & H)%noisy_bind; [|auto with quiet].
  apply relay_noisy in H as (w' & err & text & Hr & Hc & ->). by eapply cause_dot.
Qed.

(** A CONNECT of an address that is not the resolver's. *)
Lemma connect_noisy address dns_proxy (s : lstate W) reason :
  (∀ proxy, dns_proxy = Some proxy → match_destination proxy address = None) →
  notified (snd (local_handle_connect address dns_proxy s)) = Some reason → connect_cause address (ls_conn s) (ds_net (ls_dns s)) reason.
Proof.
  intros Hdns. unfold local_handle_connect. replace (dns_proxy ≫= _) with (@None (DnsProxy * DnsProxyTransport))
    by (destruct dns_proxy as [proxy|]; [cbn; by rewrite (Hdns proxy)|done]).
  destruct (ln_tcp (ds_net (ls_dns s)) address) as [w r] eqn:Et. rewrite (noisy_tunnel _ _ _ _ _ Et). destruct r as [remote|e|]; [| |done].
  - intros (s1 & u & Hw & H)%noisy_bind; [|auto with quiet]. unfold on_conn in Hw. cbn in Hw.
    destruct (local_write_reply _ _ (ls_conn s)) as [c' r'] eqn:Ew. destruct r'; [|done..]. injection Hw as <- _. apply write_reply_Ret in Ew as ->.
    apply relay_noisy in H as (w'' & err & text & Hr & Hc & ->). by eapply cause_relay.
  - intros (s1 & u & Hw & H)%noisy_bind; [|auto with quiet]. cbn in H. destruct (connection_recovery_reason_from_core e) eqn:Ee; [|done].
    injection H as <-. eapply cause_open; [done|]. by apply recovery_gone.
Qed.
Lemma connect_notified address dns_proxy (s : lstate W) reason :
  (∀ proxy, dns_proxy = Some proxy → match_destination proxy address = None) → wr_fail (cn_out (ls_conn s)) = None →
  connect_cause address (ls_conn s) (ds_net (ls_dns s)) reason → notified (snd (local_handle_connect address dns_proxy s)) = Some reason.
Proof.
  intros Hdns Hw Hc. unfold local_handle_connect. replace (dns_proxy ≫= _) with (@None (DnsProxy * DnsProxyTransport))
    by (destruct dns_proxy as [proxy|]; [cbn; by rewrite (Hdns proxy)|done]).
  destruct Hc as [w' e Et Hg|w' remote w'' err text Et Er Hc ->]; rewrite (noisy_tunnel _ _ _ _ _ Et).
  - unfold local_write_reply, write_reply. erewrite lbind_Ret by (apply on_conn_Ret, send_all_open; exact Hw). cbn. apply recovery_gone in Hg. by rewrite Hg.
  - unfold local_write_reply, write_reply. erewrite lbind_Ret by (apply on_conn_Ret, send_all_open; exact Hw). unfold with_conn.
    erewrite lbind_Ret by (apply on_tunnel_Ret; cbn; exact Er). unfold relayed, on_tunnel, mbind, lhandler_bind, l_fail. cbn. by rewrite Hc.
Qed.

Lemma textual_quiet has_session task r : textual r → notified (joined has_session task r) = None.
Proof. by intros [-> |[-> |(text & ->)]]. Qed.
Lemma forward_quiet dns_proxy allow peer destination payload (s : dns_state W) r :
  (forward_local dns_proxy allow peer destination payload s).2 = Some r → notified r = None.
Proof.
  unfold forward_local. destruct (dns_proxy ≫= _) as [proxy|]; [|by destruct allow; intros [= <-]].
  pose proof (quiet_resolve_raw proxy payload s) as Hq. destruct (resolve_raw _ _ _) as [s' [response|e|]]; [|by intros [= <-]..].
  destruct (local_build_udp_datagram _ _); [|by intros [= <-]..]. destruct (ln_send_to _ _ _) as [w [| |]]; by intros [= <-].
Qed.
Lemma state_send_Err (s : dns_state W) payload destination e :
  (state_send s payload destination).2 = Err e → (ln_tunnel_send (ds_net s) payload destination).2 = Err e.
Proof. unfold state_send. by destruct (ln_tunnel_send _ _ _). Qed.

Lemma local_confined dns_proxy allow (s : dns_state W) events :
  confined local_parse_udp_datagram local_build_udp_datagram allow (dns_answer dns_proxy) events (local_association dns_proxy allow s events).
Proof. apply confined_run, local_forwards. Qed.

(** Why an association's result asks for a reconnect. *)
Lemma upload_noisy dns_proxy allow (s : dns_state W) events r reason :
  as_result (local_association dns_proxy allow s events) = None → task_end (local_association dns_proxy allow s events) LocalTask = Some r →
  notified (joined allow LocalTask r) = Some reason → allow = true ∧ association_cause dns_proxy s events reason.
Proof.
  intros Hn Ht Hr. cbn in Ht. destruct (as_local _) as [|r0] eqn:El in Ht; [done|]. injection Ht as ->.
  unfold local_association in Hn, El. apply local_ended_by in El as (before & e & after & phase & -> & Hphase & Hend).
  apply result_before in Hn.
  pose proof (local_confined dns_proxy allow s before) as Hc.
  fold (local_association dns_proxy allow s before) in *. set (a := local_association dns_proxy allow s before) in *.
  apply (local_end_cases _ _ _ _ _ _ _ _ _ (local_forwards dns_proxy allow) _ _ _ _ Hphase) in Hend
    as [Htext|[(-> & Hs & Hopen & ->)|[(-> & peer & d & p & Hf)|(-> & payload & destination & err & -> & Hsend & ->)]]].
  - by rewrite textual_quiet in Hr.
  - cbn in Hr. injection Hr as <-. split; [done|]. subst allow. eapply cause_closed; [done|by left| |done]. right. exists RemoteTask.
    destruct (cf_download _ _ _ _ _ _ Hc) as [_ Hd]. destruct (Hd eq_refl) as [t Hrem].
    destruct t as [ph|r0] eqn:E; [|exists r0; split; [done|]; cbn; fold a; by rewrite Hrem].
    exfalso. assert (as_session a = true) as Hopen'; [|by rewrite Hopen in Hopen']. apply (cf_session _ _ _ _ _ _ Hc).
    rewrite Hphase. split_and!; eauto.
  - apply forward_quiet in Hf. destruct r; cbn in *; congruence.
  - cbn in Hr. destruct (cf_sending _ _ _ _ _ _ Hc _ _ Hphase) as [Hs _]. subst allow. split; [done|]. eapply cause_send; [done|exact Hphase| |].
    + apply state_send_Err. exact Hsend.
    + apply recovery_gone. destruct (connection_recovery_reason_from_core err); [exact Hr|done].
Qed.
Lemma download_noisy dns_proxy allow (s : dns_state W) events r reason :
  as_result (local_association dns_proxy allow s events) = None → task_end (local_association dns_proxy allow s events) RemoteTask = Some r →
  notified (joined allow RemoteTask r) = Some reason → allow = true ∧ association_cause dns_proxy s events reason.
Proof.
  intros Hn Ht Hr. cbn in Ht. destruct (as_remote _) as [[|r0]|] eqn:El in Ht; [done| |done]. injection Ht as ->.
  unfold local_association in Hn, El. apply remote_ended_by in El as (before & e & after & phase & -> & Hphase & Hend).
  apply result_before in Hn.
  pose proof (local_confined dns_proxy allow s before) as Hc.
  fold (local_association dns_proxy allow s before) in *. set (a := local_association dns_proxy allow s before) in *.
  assert (allow = true) as Hallow by (apply (cf_download _ _ _ _ _ _ Hc); by eexists).
  apply remote_end_cases with (phase := phase) in Hend as [Htext|(-> & Hclosed & ->)]; [by rewrite textual_quiet in Hr| |done].
  cbn in Hr. injection Hr as <-. split; [done|]. subst allow. eapply cause_closed; [done|by right| |done].
  destruct (as_session a) eqn:Es; [left; apply (cf_lost _ _ _ _ _ _ Hc); by destruct Hclosed|].
  right. exists LocalTask. cbn. fold a. destruct (as_local a) as [ph|r0] eqn:E; [|by exists r0].
  exfalso. assert (as_session a = true) as Hopen'; [|by rewrite Es in Hopen']. apply (cf_session _ _ _ _ _ _ Hc).
  rewrite E. split_and!; eauto.
Qed.
Lemma association_noisy dns_proxy allow (s : lstate W) events reason :
  notified (snd (run_association dns_proxy allow events s)) = Some reason → allow = true ∧ association_cause dns_proxy (ls_dns s) events reason.
Proof.
  unfold run_association. destruct (as_result _) as [r|] eqn:Er; [|done]. cbn. intros H.
  assert (notified r = Some reason) as Hr by (destruct r; done).
  unfold local_association in Er. apply decided_by in Er as (before & task & r' & after & -> & Hn & Ht & ->).
  assert (allow = true ∧ association_cause dns_proxy (ls_dns s) before reason) as [-> Hcause].
  { destruct task; [by eapply upload_noisy|by eapply download_noisy|]. exfalso. cbn in Ht. destruct (as_control _) as [|r0] eqn:Ec in Ht; [done|].
    injection Ht as ->. apply control_end_textual in Ec. by rewrite textual_quiet in Hr. }
  split; [done|]. destruct Hcause as [b aft payload destination e -> ? ? ?|b e aft -> ? ? ?].
  - eapply cause_send; [|done..]. by rewrite <- app_assoc.
  - eapply cause_closed; [|done..]. by rewrite <- app_assoc.
Qed.

(** Of a connection, from its request on. *)
Inductive handler_cause (disable_udp : bool) (dns_proxy : option DnsProxy) (events : list assoc_event) (request : SocksRequest) (s : lstate W)
    (reason : bytes) : Prop :=
| cause_connect :
    command request = SOCKS5_CMD_CONNECT →
    (∀ proxy, dns_proxy = Some proxy → match_destination proxy (address request) = None) →
    connect_cause (address request) (ls_conn s) (ds_net (ls_dns s)) reason → handler_cause disable_udp dns_proxy events request s reason
| cause_resolver proxy transport :
    command request = SOCKS5_CMD_CONNECT → dns_proxy = Some proxy → match_destination proxy (address request) = Some transport →
    resolver_cause reason → handler_cause disable_udp dns_proxy events request s reason
| cause_udp addr w w' r :
    command request = SOCKS5_CMD_UDP_ASSOCIATE → disable_udp = false →
    ln_control_addr (ds_net (ls_dns s)) = Ret addr → ln_bind_udp (ds_net (ls_dns s)) (any_port addr) = (w, Ret ()) → ln_udp w = (w', r) →
    (∃ e, r = Err e ∧ gone e reason) ∨ (r = Ret () ∧ association_cause dns_proxy (mkDnsState w' (ds_reports (ls_dns s))) events reason) →
    handler_cause disable_udp dns_proxy events request s reason.

Lemma connect_cases address dns_proxy (s : lstate W) reason :
  notified (snd (local_handle_connect address dns_proxy s)) = Some reason →
  (∃ proxy transport, dns_proxy = Some proxy ∧ match_destination proxy address = Some transport ∧ resolver_cause reason) ∨
  ((∀ proxy, dns_proxy = Some proxy → match_destination proxy address = None) ∧ connect_cause address (ls_conn s) (ds_net (ls_dns s)) reason).
Proof.
  destruct (proxy ← dns_proxy; transport ← match_destination proxy address; Some (proxy, transport)) as [[proxy transport]|] eqn:Em.
  - destruct dns_proxy as [p|]; [|done]. cbn in Em. destruct (match_destination p address) as [t|] eqn:Et; [|done]. injection Em as -> ->.
    intros H. left. exists proxy, transport. split_and!; [done..|]. revert H. unfold local_handle_connect. cbn [mbind option_bind]. rewrite Et.
    destruct transport; intros (s1 & u & _ & H)%noisy_bind; auto with quiet; [by eapply dns_tcp_noisy|by eapply dns_tls_noisy].
  - intros H. right. assert (∀ proxy, dns_proxy = Some proxy → match_destination proxy address = None) as Hno.
    { intros proxy ->. cbn in Em. by destruct (match_destination proxy address). }
    split; [done|]. by apply connect_noisy in H.
Qed.
Lemma context_quiet {A} text (r : outcome io_error A) : quiet_handler (W:=W) (l_lift (context text (map_err anyhow_io r))).
Proof. intros s. by destruct r. Qed.
Lemma reply_dns code addr (s s' : lstate W) u : on_conn (local_write_reply code addr) s = (s', Ret u) → ls_dns s' = ls_dns s.
Proof. unfold on_conn. destruct (local_write_reply _ _ _). by intros [= <- _]. Qed.
Lemma associate_noisy dns_proxy allow events (s : lstate W) reason :
  notified (snd (local_handle_udp_associate dns_proxy allow events s)) = Some reason →
  allow = true ∧ ∃ addr w w' r,
    ln_control_addr (ds_net (ls_dns s)) = Ret addr ∧ ln_bind_udp (ds_net (ls_dns s)) (any_port addr) = (w, Ret ()) ∧ ln_udp w = (w', r) ∧
    ((∃ e, r = Err e ∧ gone e reason) ∨ (r = Ret () ∧ association_cause dns_proxy (mkDnsState w' (ds_reports (ls_dns s))) events reason)).
Proof.
  unfold local_handle_udp_associate. erewrite noisy_tunnel by done. intros (s1 & addr & H1 & H)%noisy_bind; [|apply context_quiet].
  injection H1 as <- H1%anyhow_context_Ret. destruct (ln_control_addr _) as [a| |]; [|done..]. injection H1 as ->.
  cbn [ls_conn ls_dns ds_net ds_reports] in H. destruct (ln_bind_udp (ds_net (ls_dns s)) (any_port addr)) as [w b] eqn:Eb.
  erewrite noisy_tunnel in H by exact Eb. apply noisy_bind in H as (s2 & u & H2 & H); [|apply context_quiet].
  injection H2 as <- H2%anyhow_context_Ret. destruct b as [[]| |]; [|done..]. cbn [ls_conn ls_dns ds_net ds_reports] in H.
  assert (∀ s' : lstate W, notified (snd ((listen_addr ← on_tunnel (fun w => (w, ln_listen_addr w));
      relay_addr ← l_lift (context (str "failed to read SOCKS5 UDP listen address") (map_err anyhow_io listen_addr));
      _ ← on_conn (local_write_reply SOCKS5_REP_SUCCESS (Some relay_addr)); run_association dns_proxy allow events) s')) = Some reason →
    allow = true ∧ association_cause dns_proxy (ls_dns s') events reason) as Hrun.
  { intros s'. erewrite noisy_tunnel by done. intros (s3 & relay_addr & H3 & H')%noisy_bind; [|apply context_quiet].
    injection H3 as <- _. apply noisy_bind in H' as (s4 & u' & H4%reply_dns & H'); [|auto with quiet].
    apply association_noisy in H'. rewrite H4 in H'. cbn in H'. by destruct (ls_dns s'). }
  destruct allow.
  - split; [done|]. destruct (ln_udp w) as [w' r] eqn:Eu. exists addr, w, w', r. split_and!; try done.
    unfold mbind at 1, lhandler_bind at 1 in H. erewrite noisy_tunnel in H by exact Eu. cbn [ls_conn ls_dns ds_net ds_reports] in H.
    destruct r as [[]|e|]; cbn in H; [|left; exists e; split; [done|]; apply recovery_gone; by destruct (connection_recovery_reason_from_core e)|done].
    right. split; [done|]. by apply Hrun in H as [_ H].
  - exfalso. by apply Hrun in H as [? _].
Qed.

(** The socket and the session of an association are opened. *)
Definition associates (s : lstate W) w' : Prop :=
  ∃ addr w listen, ln_control_addr (ds_net (ls_dns s)) = Ret addr ∧ ln_bind_udp (ds_net (ls_dns s)) (any_port addr) = (w, Ret ()) ∧
    ln_udp w = (w', Ret ()) ∧ ln_listen_addr w' = Ret listen ∧ wr_fail (cn_out (ls_conn s)) = None.
Lemma associate_runs dns_proxy events (s : lstate W) w' :
  associates s w' →
  ∃ c, snd (local_handle_udp_associate dns_proxy true events s)
    = snd (run_association dns_proxy true events (mkLstate c (mkDnsState w' (ds_reports (ls_dns s))))).
Proof.
  intros (addr & w & listen & Ha & Hb & Hu & Hl & Hw). unfold local_handle_udp_associate. erewrite noisy_tunnel by done. rewrite Ha.
  erewrite lbind_Ret by done. erewrite noisy_tunnel by (cbn; exact Hb). erewrite lbind_Ret by done.
  erewrite lbind_Ret by (erewrite noisy_tunnel by (cbn; exact Hu); done). erewrite noisy_tunnel by done. cbn [ls_dns ds_net]. rewrite Hl.
  erewrite lbind_Ret by done. eexists. unfold local_write_reply, write_reply.
  erewrite lbind_Ret by (apply on_conn_Ret, send_all_open; exact Hw). reflexivity.
Qed.
(** The download task of a running association finds its session closed and is
    the one the [select!] takes. *)
Lemma download_closed dns_proxy events (s : lstate W) w' :
  let a := local_association dns_proxy true (mkDnsState w' (ds_reports (ls_dns s))) events in
  associates s w' → as_result a = None → as_remote a = Some (Run RReceive) → as_session a = false ∨ as_lost a = true →
  notified (snd (local_handle_udp_associate dns_proxy true (events ++ [RemoteRecv (Err ()); Select RemoteTask]) s))
  = Some (str "connection closed: udp session closed").
Proof.
  intros a Hs Hr Hrem Hclosed. destruct (associate_runs dns_proxy (events ++ [RemoteRecv (Err ()); Select RemoteTask]) s w' Hs) as [c ->].
  pose proof (cf_open _ _ _ _ _ _ (local_confined dns_proxy true (mkDnsState w' (ds_reports (ls_dns s))) events) Hr) as Hopen.
  unfold run_association. cbn [ls_dns]. unfold local_association, assoc_run in *. rewrite fold_left_app. fold a in Hopen. fold a. clearbody a. cbn [fold_left].
  cbn [assoc_step]. rewrite Hopen, Hrem. unfold remote_recv. replace (as_session a && negb (as_lost a)) with false
    by (destruct Hclosed as [-> | ->]; [done|by rewrite andb_false_r]).
  cbn. rewrite Hr. reflexivity.
Qed.
End causes.

(** ** Properties *)

(** C28: When the application is asked to reconnect. A connection of a local
    client, whatever it sends and whatever happens to an association it opens, asks
    for it only for a reason among these: a stream could not be opened, or a
    session, or a datagram of the association sent, with an error that
    [connection_recovery_reason_from_core] takes for a lost tunnel; a relay or a
    flush failed while the connection has a close reason; or a task of the
    association found its session closed, because the connection's reader had
    ended or because the association's other task had. A stream that cannot be
    opened or relayed for such a reason does ask for it, with that reason; so does
    an association that is still receiving when the connection's reader ends; and
    so may a datagram that does not parse, from any host, on a connection that is
    up: it ends the upload task, which closes the session under the download task. *)
Theorem reconnect_asked_on_tunnel_loss {W S T} `{L : !LocalNet W S T} dns_proxy (s : lstate W) reason :
  (∀ auth disable_udp events, notified (snd (local_handle_client auth disable_udp dns_proxy events s)) = Some reason →
     ∃ s1 s2 request, on_conn (local_negotiate auth) s = (s1, Ret ()) ∧ on_conn local_read_request s1 = (s2, Ret request) ∧
       handler_cause disable_udp dns_proxy events request s2 reason) ∧
  (∀ address, (∀ proxy, dns_proxy = Some proxy → match_destination proxy address = None) → wr_fail (cn_out (ls_conn s)) = None →
     notified (snd (local_handle_connect address dns_proxy s)) = Some reason ↔ connect_cause address (ls_conn s) (ds_net (ls_dns s)) reason) ∧
  (∀ w' events, associates s w' →
     let a := local_association dns_proxy true (mkDnsState w' (ds_reports (ls_dns s))) events in
     as_result a = None → as_remote a = Some (Run RReceive) →
     let reported later := notified (snd (local_handle_udp_associate dns_proxy true (events ++ later) s)) = Some (str "connection closed: udp session closed") in
     reported [ManagerLost; RemoteRecv (Err ()); Select RemoteTask] ∧
     (as_local a = Run LReceive → ∀ datagram peer text, local_parse_udp_datagram (take 4096 datagram) = Err text →
        reported [LocalRecv (Ret (datagram, peer)); RemoteRecv (Err ()); Select RemoteTask])).
Proof.
  split_and!.
  - intros auth disable_udp events (s1 & [] & H1 & H)%noisy_bind; [|auto with quiet]. apply noisy_bind in H as (s2 & request & H2 & H); [|auto with quiet].
    exists s1, s2, request. split_and!; [done..|]. case_decide as Hcmd.
    { assert (notified (snd (local_handle_connect (address request) dns_proxy s2)) = Some reason) as Hr.
      { revert H. unfold mbind, lhandler_bind. by destruct (local_handle_connect _ _ _) as [? [| |]]. }
      apply connect_cases in Hr as [(proxy & t & ? & ? & ?)|[? ?]]; [by eapply cause_resolver|by apply cause_connect]. }
    case_decide as Hudp; [|by apply noisy_bind in H as (? & ? & _ & H); [|auto with quiet]]. destruct Hudp as [Hudp _].
    apply associate_noisy in H as (Hallow & addr & w & w' & r & ? & ? & ? & ?). eapply cause_udp; try done. by destruct disable_udp.
  - intros address Hdns Hw. split; [by apply connect_noisy|by apply connect_notified].
  - intros w' events Hs a Hr Hrem reported. subst reported. cbn beta.
    pose proof (cf_open _ _ _ _ _ _ (local_confined dns_proxy true (mkDnsState w' (ds_reports (ls_dns s))) events) Hr) as Hopen. fold a in Hopen. split.
    + replace (events ++ [ManagerLost; RemoteRecv (Err ()); Select RemoteTask]) with ((events ++ [ManagerLost]) ++ [RemoteRecv (Err ()); Select RemoteTask])
        by (by rewrite <- app_assoc).
      apply download_closed with (w' := w'); [done|..]; unfold local_association; rewrite run_snoc; fold (local_association dns_proxy true (mkDnsState w' (ds_reports (ls_dns s))) events);
        fold a; cbn [assoc_step]; rewrite Hopen; auto.
    + intros Hl datagram peer text Hp.
      replace (events ++ [LocalRecv (Ret (datagram, peer)); RemoteRecv (Err ()); Select RemoteTask])
        with ((events ++ [LocalRecv (Ret (datagram, peer))]) ++ [RemoteRecv (Err ()); Select RemoteTask]) by (by rewrite <- app_assoc).
      apply download_closed with (w' := w'); [done|..]; unfold local_association; rewrite run_snoc; fold (local_association dns_proxy true (mkDnsState w' (ds_reports (ls_dns s))) events);
        fold a; cbn [assoc_step]; rewrite Hopen, Hl; unfold local_recv; rewrite Hp; auto.
Qed.

(** A client that asks for a stream through a tunnel that is lost. *)
Definition asking_client : lstate nat :=
  mkLstate (mkConn (Reader ([5; 1; 0] ++ [5; 1; 0; 1; 9; 9; 9; 9; 1; 187]) (IoUnexpectedEof [])) (Writer [] None)) (mkDnsState 0%nat []).
Lemma reconnect_asked_on_tunnel_loss_witness :
  (∃ s1 s2 request, on_conn (local_negotiate None) asking_client = (s1, Ret ()) ∧ on_conn local_read_request s1 = (s2, Ret request) ∧
     handler_cause (L:=example_net true) false None [] request s2 (str "connection closed: timed out")) ∧
  notified (snd (local_handle_connect (LocalNet0:=example_net true) (str "a.example:1") (Some example_dns) example_lstate))
  = Some (str "connection closed: timed out") ∧
  notified (snd (local_handle_udp_associate (LocalNet0:=example_net false) None true
    [LocalRecv (Ret ([0; 0; 0; 9], client_b)); RemoteRecv (Err ()); Select RemoteTask] example_lstate)) = Some (str "connection closed: udp session closed").
Proof.
  split_and!.
  - apply (proj1 (reconnect_asked_on_tunnel_loss (L:=example_net true) None asking_client (str "connection closed: timed out")) None false []).
    vm_compute. reflexivity.
  - apply (proj1 (proj2 (reconnect_asked_on_tunnel_loss (L:=example_net true) (Some example_dns) example_lstate (str "connection closed: timed out")))
      (str "a.example:1")).
    + intros proxy [= <-]. vm_compute. reflexivity.
    + reflexivity.
    + eapply cause_open; [reflexivity|exact (gone_closed (str "timed out"))].
  - refine (proj2 (proj2 (proj2 (reconnect_asked_on_tunnel_loss (L:=example_net false) None example_lstate [])) 0%nat [] _ _ _) _
      [0; 0; 0; 9] client_b (str "unsupported SOCKS5 address type 9") _).
    + exists (SocketV4 [127; 0; 0; 1] 1080), 0%nat, (SocketV4 [127; 0; 0; 1] 4000). split_and!; reflexivity.
    + reflexivity.
    + reflexivity.
    + reflexivity.
    + vm_compute. reflexivity.
Defined.
