(* ===== verification/MobileForm.v ===== *)
(** * The settings of the mobile client ([mobile/src/main.rs], [mobile/src/android_bridge.rs])

    The form the user edits, how it is filled (from the saved profile, the
    launch intent, a share URI or an imported file), and how it becomes the
    configuration of the core client. URL, YAML and duration parsing, name
    resolution, certificate stores and the Android side are arguments; durations
    are nanoseconds. *)
From S2P Require Import Prelude Errors RustStr Limit Obfs ObfsSocket Server Client Net Quic Config Anyhow.
Local Open Scope Z_scope.

Definition LARGE_STREAM_WINDOW : Z := 268435456.
Definition LARGE_CONN_WINDOW : Z := 536870912.

Record FormState := mkForm {
  fm_import_uri : bytes;
  fm_server : bytes;
  fm_auth : bytes;
  fm_obfs_password : bytes;
  fm_sni : bytes;
  fm_ca_path : bytes;
  fm_pin_sha256 : bytes;
  fm_bandwidth_up : bytes;
  fm_bandwidth_down : bytes;
  fm_init_stream_window : bytes;
  fm_max_stream_window : bytes;
  fm_init_conn_window : bytes;
  fm_max_conn_window : bytes;
  fm_max_idle_timeout : bytes;
  fm_keep_alive_period : bytes;
  fm_local_udp_enabled : bool;
  fm_disable_path_mtu_discovery : bool;
  fm_insecure_tls : bool
}.
Definition form_default : FormState :=
  mkForm [] [] [] [] [] [] [] [] [] [] [] [] [] [] [] true false false.
#[global] Instance FormState_eq_dec : EqDecision FormState.
Proof. solve_decision. Defined.

(** The text fields in order, [import_uri] left out. *)
Definition form_texts (f : FormState) : list bytes :=
  [fm_server f; fm_auth f; fm_obfs_password f; fm_sni f; fm_ca_path f; fm_pin_sha256 f; fm_bandwidth_up f; fm_bandwidth_down f;
   fm_init_stream_window f; fm_max_stream_window f; fm_init_conn_window f; fm_max_conn_window f; fm_max_idle_timeout f;
   fm_keep_alive_period f].

(** ** Where a form comes from *)

Record LaunchConfig := mkLaunch {
  lc_server : option bytes;
  lc_auth : option bytes;
  lc_obfs_password : option bytes;
  lc_sni : option bytes;
  lc_ca_path : option bytes;
  lc_pin_sha256 : option bytes;
  lc_bandwidth_up : option bytes;
  lc_bandwidth_down : option bytes;
  lc_init_stream_window : option bytes;
  lc_max_stream_window : option bytes;
  lc_init_conn_window : option bytes;
  lc_max_conn_window : option bytes;
  lc_max_idle_timeout : option bytes;
  lc_keep_alive_period : option bytes;
  lc_local_udp_enabled : option bool;
  lc_disable_path_mtu_discovery : option bool;
  lc_insecure_tls : option bool;
  lc_auto_connect : option bool;
  lc_auto_request_vpn : option bool;
  lc_auto_start_vpn : option bool
}.

(** [query_launch_config]: [string_extra] and [bool_extra] are the activity's
    accessors of its intent. *)
Definition extra (name : string) : bytes := str "io.hysteria.mobile.extra." ++ str name.
Definition query_launch_config (string_extra : bytes → outcome anyhow (option bytes)) (bool_extra : bytes → outcome anyhow bool)
    : outcome anyhow LaunchConfig :=
  server ← string_extra (extra "SERVER");
  auth ← string_extra (extra "AUTH");
  obfs_password ← string_extra (extra "OBFS_PASSWORD");
  sni ← string_extra (extra "SNI");
  ca_path ← string_extra (extra "CA_PATH");
  pin_sha256 ← string_extra (extra "PIN_SHA256");
  bandwidth_up ← string_extra (extra "BANDWIDTH_UP");
  bandwidth_down ← string_extra (extra "BANDWIDTH_DOWN");
  init_stream ← string_extra (extra "QUIC_INIT_STREAM_RECEIVE_WINDOW");
  max_stream ← string_extra (extra "QUIC_MAX_STREAM_RECEIVE_WINDOW");
  init_conn ← string_extra (extra "QUIC_INIT_CONNECTION_RECEIVE_WINDOW");
  max_conn ← string_extra (extra "QUIC_MAX_CONNECTION_RECEIVE_WINDOW");
  idle ← string_extra (extra "QUIC_MAX_IDLE_TIMEOUT");
  keep_alive ← string_extra (extra "QUIC_KEEP_ALIVE_PERIOD");
  local_udp ← bool_extra (extra "LOCAL_UDP_ENABLED");
  pmtud ← bool_extra (extra "QUIC_DISABLE_PATH_MTU_DISCOVERY");
  insecure ← bool_extra (extra "INSECURE_TLS");
  auto_connect ← bool_extra (extra "AUTO_CONNECT");
  auto_request_vpn ← bool_extra (extra "AUTO_REQUEST_VPN");
  auto_start_vpn ← bool_extra (extra "AUTO_START_VPN");
  Ret (mkLaunch server auth obfs_password sni ca_path pin_sha256 bandwidth_up bandwidth_down init_stream max_stream init_conn max_conn
    idle keep_alive (Some local_udp) (Some pmtud) (Some insecure) (Some auto_connect) (Some auto_request_vpn) (Some auto_start_vpn)).

(** [query_saved_profile]: the stored strings and booleans, and no profile if
    everything has the value of an absent one. *)
Definition query_saved_profile (saved_string : bytes → outcome anyhow (option bytes)) (saved_bool : bytes → bool → outcome anyhow bool)
    : outcome anyhow (option FormState) :=
  let text key := v ← saved_string (str key); Ret (default [] v) in
  server ← text "profile.server";
  auth ← text "profile.auth";
  obfs_password ← text "profile.obfs";
  sni ← text "profile.sni";
  ca_path ← text "profile.ca_path";
  pin_sha256 ← text "profile.pin_sha256";
  bandwidth_up ← text "profile.bandwidth.up";
  bandwidth_down ← text "profile.bandwidth.down";
  init_stream ← text "profile.quic.init_stream_receive_window";
  max_stream ← text "profile.quic.max_stream_receive_window";
  init_conn ← text "profile.quic.init_connection_receive_window";
  max_conn ← text "profile.quic.max_connection_receive_window";
  idle ← text "profile.quic.max_idle_timeout";
  keep_alive ← text "profile.quic.keep_alive_period";
  local_udp ← saved_bool (str "profile.local_udp_enabled") true;
  pmtud ← saved_bool (str "profile.quic.disable_path_mtu_discovery") false;
  insecure ← saved_bool (str "profile.insecure_tls") true;
  let form := mkForm [] server auth obfs_password sni ca_path pin_sha256 bandwidth_up bandwidth_down init_stream max_stream init_conn
                max_conn idle keep_alive local_udp pmtud insecure in
  if forallb blank (form_texts form) && local_udp && negb pmtud && insecure then Ret None else Ret (Some form).

(** [launch.x.filter(|value| !value.trim().is_empty())] over a field. *)
Definition overlay (o : option bytes) (field : bytes) : bytes :=
  match o with Some value => if blank value then field else value | None => field end.

Definition apply_launch (form : FormState) (launch : LaunchConfig) : FormState :=
  mkForm (fm_import_uri form) (overlay (lc_server launch) (fm_server form)) (overlay (lc_auth launch) (fm_auth form))
    (overlay (lc_obfs_password launch) (fm_obfs_password form)) (overlay (lc_sni launch) (fm_sni form))
    (overlay (lc_ca_path launch) (fm_ca_path form)) (overlay (lc_pin_sha256 launch) (fm_pin_sha256 form))
    (overlay (lc_bandwidth_up launch) (fm_bandwidth_up form)) (overlay (lc_bandwidth_down launch) (fm_bandwidth_down form))
    (overlay (lc_init_stream_window launch) (fm_init_stream_window form)) (overlay (lc_max_stream_window launch) (fm_max_stream_window form))
    (overlay (lc_init_conn_window launch) (fm_init_conn_window form)) (overlay (lc_max_conn_window launch) (fm_max_conn_window form))
    (overlay (lc_max_idle_timeout launch) (fm_max_idle_timeout form)) (overlay (lc_keep_alive_period launch) (fm_keep_alive_period form))
    (default (fm_local_udp_enabled form) (lc_local_udp_enabled launch))
    (default (fm_disable_path_mtu_discovery form) (lc_disable_path_mtu_discovery launch))
    (default (fm_insecure_tls form) (lc_insecure_tls launch)).

Definition initial_form_state (saved : outcome anyhow (option FormState)) (launch : outcome anyhow LaunchConfig) : FormState :=
  let form := default form_default (match saved with Ret o => o | _ => None end) in
  match launch with Ret launch => apply_launch form launch | _ => form end.

Record LaunchAutomation := mkAutomation { la_auto_connect : bool; la_auto_request_vpn : bool; la_auto_start_vpn : bool }.
Definition initial_launch_automation (launch : outcome anyhow LaunchConfig) : LaunchAutomation :=
  match launch with
  | Ret launch =>
      mkAutomation (default false (lc_auto_connect launch)) (default false (lc_auto_request_vpn launch)) (default false (lc_auto_start_vpn launch))
  | _ => mkAutomation false false false
  end.

Definition has_meaningful_form_prefill (form : FormState) : bool :=
  negb (forallb blank (form_texts form)) || negb (fm_local_udp_enabled form) || fm_disable_path_mtu_discovery form || fm_insecure_tls form.
Definition has_launch_automation (automation : LaunchAutomation) : bool :=
  la_auto_connect automation || la_auto_request_vpn automation || la_auto_start_vpn automation.

(** ** Values *)

(** The text of the error of [s.parse::<u64>()]: the first thing wrong. *)
Fixpoint parse_int_error (max acc : Z) (s : bytes) : bytes :=
  match s with
  | b :: s =>
      if is_digit b then
        if decide (acc * 10 + (b - 48) ≤ max) then parse_int_error max (acc * 10 + (b - 48)) s
        else str "number too large to fit in target type"
      else str "invalid digit found in string"
  | [] => str "cannot parse integer from empty string"
  end.

Definition parse_optional_u64_field (field input : bytes) : outcome anyhow Z :=
  let trimmed := trim input in
  if decide (trimmed = []) then Ret 0
  else ok_or (parse_u64 trimmed) (add_context (str "invalid " ++ field) (anyhow_msg (parse_int_error u64_max 0 trimmed))).

Definition resolve_mobile_quic_window (init_window max_window default_window : Z) (init_field max_field : bytes) : outcome anyhow Z :=
  let value :=
    if decide (init_window = 0 ∧ max_window = 0) then default_window
    else if decide (init_window = 0) then max_window
    else if decide (max_window = 0) then init_window
    else Z.max init_window max_window in
  if decide (value < 16 * 1024) then Err (anyhow_msg (init_field ++ str " and " ++ max_field ++ str " must be at least 16384"))
  else Ret value.

Definition parse_bandwidth (input : bytes) : outcome anyhow Z :=
  let normalized := to_ascii_lowercase (trim input) in
  if decide (normalized = []) then Ret 0
  else
    let split := bandwidth_split normalized in
    if decide (split = O) then Err (anyhow_msg (str "invalid bandwidth format"))
    else
      value ← ok_or (parse_u64 (take split normalized))
                (add_context (str "invalid bandwidth value " ++ take split normalized)
                   (anyhow_msg (parse_int_error u64_max 0 (take split normalized))));
      mult ← ok_or (unit_bytes (trim (drop split normalized))) (anyhow_msg (str "unsupported bandwidth unit"));
      Ret (sat_mul value mult / 8).
Definition parse_bandwidth_field (field input : bytes) : outcome anyhow Z :=
  context (str "invalid " ++ field) (parse_bandwidth input).

Definition hex_nibble (value : Z) : outcome anyhow Z :=
  if in_range 48 57 value then Ret (value - 48)
  else if in_range 97 102 value then Ret (value - 97 + 10)
  else if in_range 65 70 value then Ret (value - 65 + 10)
  else Err (anyhow_msg (str "invalid hex digit")).

(** The loop of [decode_userinfo_component]. *)
Fixpoint percent_decode (s : bytes) : outcome anyhow bytes :=
  match s with
  | [] => Ret []
  | b :: r =>
      if decide (b = PERCENT) then
        match r with
        | h :: l :: r =>
            high ← hex_nibble h; low ← hex_nibble l; rest ← percent_decode r;
            Ret (Z.lor (as_u8 (Z.shiftl high 4)) low :: rest)
        | _ => Err (anyhow_msg (str "invalid percent-encoding in URI auth"))
        end
      else rest ← percent_decode r; Ret (b :: rest)
  end.
(** [utf8_error] is the text of the error of [String::from_utf8]. *)
Definition decode_userinfo_component (utf8_error : bytes → bytes) (input : bytes) : outcome anyhow bytes :=
  if decide (PERCENT ∉ input) then Ret input
  else
    decoded ← percent_decode input;
    ok_or (from_utf8 decoded) (add_context (str "URI auth is not valid UTF-8") (anyhow_msg (utf8_error decoded))).

Definition build_obfs_config (password : bytes) : outcome anyhow (option ObfsConfig) :=
  let password := trim password in
  if decide (password = []) then Ret None else Ret (Some (Salamander password)).

(** [server.find(']')] as the length of the text before it. *)
Definition find_byte (c : Z) (s : bytes) : option Z :=
  match split_once c s with Some (before, _) => Some (len before) | None => None end.
Definition infer_server_name (server sni : bytes) : outcome anyhow bytes :=
  let by_port :=
    match rsplit_once COLON server with
    | Some (host, port) =>
        match parse_u16 port with
        | Some _ => Ret host
        | None => Err (anyhow_msg (str "failed to infer server name; set TLS SNI explicitly"))
        end
    | None => Err (anyhow_msg (str "failed to infer server name; set TLS SNI explicitly"))
    end in
  if negb (blank sni) then Ret (trim sni)
  else
    match parse_socket_addr server with
    | Some addr => Ret (ip_text addr)
    | None =>
        if starts_with [91] server then
          match find_byte 93 server with
          | Some e => slice server 1 e
          | None => by_port
          end
        else by_port
    end.

(** [s.contains("]:")]. *)
Fixpoint contains_str (p s : bytes) : bool :=
  starts_with p s || match s with [] => false | _ :: s => contains_str p s end.
Definition normalize_server_addr (input : bytes) : outcome anyhow bytes :=
  let input := trim input in
  if decide (input = []) then Err (anyhow_msg (str "server must not be empty"))
  else if decide (is_Some (parse_socket_addr input)) then Ret input
  else if starts_with [91] input then
    if contains_str (str "]:") input then Ret input else Ret (input ++ str ":443")
  else
    match parse_ipv4 input, parse_ipv6 input with
    | Some _, _ => Ret (input ++ str ":443")
    | None, Some o => Ret (91 :: ipv6_text o ++ str "]:443")
    | None, None =>
        match (r ← rsplit_once COLON input; parse_u16 r.2) with
        | Some _ => Ret input
        | None =>
            if contains_byte COLON input && bool_decide (is_Some (parse_ipv6 input)) then Ret (91 :: input ++ str "]:443")
            else Ret (input ++ str ":443")
        end
    end.

Definition normalize_cert_hash (hash : bytes) : bytes := filter (fun b => b ≠ 58 ∧ b ≠ 45) (to_ascii_lowercase (trim hash)).
Fixpoint hex_pairs (s : bytes) : outcome anyhow bytes :=
  match s with
  | a :: b :: r =>
      high ← hex_nibble a; low ← hex_nibble b; rest ← hex_pairs r;
      Ret (Z.lor (as_u8 (Z.shiftl high 4)) low :: rest)
  | _ => Ret []
  end.
Definition parse_optional_pinned_sha256 (input : bytes) : outcome anyhow (option bytes) :=
  let normalized := normalize_cert_hash input in
  if decide (normalized = []) then Ret None
  else if decide (len normalized ≠ 64) then Err (anyhow_msg (str "pinSHA256 must be exactly 64 hex characters"))
  else output ← hex_pairs normalized; Ret (Some output).

Definition parse_bool_like (value : bytes) : option bool :=
  let v := to_ascii_lowercase (trim value) in
  if decide (v ∈ [str "1"; str "true"; str "t"; str "yes"; str "y"]) then Some true
  else if decide (v ∈ [str "0"; str "false"; str "f"; str "no"; str "n"]) then Some false
  else None.

Definition optional_u64_text (value : Z) : bytes := if decide (value = 0) then [] else to_string value.

(** ** Import and translation *)

Record ImportedObfsConfig := mkImportedObfs { io_type : bytes; io_salamander_password : bytes }.
Record ImportedTlsConfig := mkImportedTls { it_sni : bytes; it_insecure : bool; it_pin_sha256 : bytes; it_ca : bytes }.
Record ImportedQuicConfig := mkImportedQuic {
  iq_init_stream_receive_window : Z; iq_max_stream_receive_window : Z;
  iq_init_connection_receive_window : Z; iq_max_connection_receive_window : Z;
  iq_max_idle_timeout : Z; iq_keep_alive_period : Z; iq_disable_path_mtu_discovery : bool
}.
Record ImportedBandwidthConfig := mkImportedBandwidth { ib_up : bytes; ib_down : bytes }.
Record ImportedClientConfig := mkImported {
  im_server : bytes; im_auth : bytes; im_obfs : ImportedObfsConfig; im_tls : ImportedTlsConfig;
  im_quic : ImportedQuicConfig; im_bandwidth : ImportedBandwidthConfig
}.

Definition is_share_uri (s : bytes) : bool := starts_with (str "hy2://") s || starts_with (str "hysteria2://") s.

Section import.
Context (parse_url : bytes → outcome bytes Url).
Context (utf8_error : bytes → bytes).
Context (parse_yaml : bytes → outcome bytes ImportedClientConfig).
Context (path_exists : bytes → bool).
Context (parse_duration : bytes → outcome bytes Z) (format_duration : Z → bytes).

Definition import_share_uri (input : bytes) : outcome anyhow FormState :=
  uri ← context (str "failed to parse share URI") (map_err anyhow_msg (parse_url (trim input)));
  if decide (url_scheme uri ∉ [str "hy2"; str "hysteria2"]) then Err (anyhow_msg (str "unsupported URI scheme " ++ url_scheme uri))
  else
    host ← ok_or (url_host uri) (anyhow_msg (str "share URI is missing a host"));
    let port := default 443 (url_port uri) in
    let server :=
      if contains_byte COLON host then 91 :: host ++ 93 :: COLON :: to_string port else host ++ COLON :: to_string port in
    auth ← (match url_username uri, url_password uri with
            | [], None => Ret []
            | user, Some password =>
                u ← decode_userinfo_component utf8_error user; p ← decode_userinfo_component utf8_error password;
                Ret (u ++ COLON :: p)
            | user, None => decode_userinfo_component utf8_error user
            end);
    let query : gmap bytes bytes := list_to_map (reverse (url_query_pairs uri)) in
    let obfs_password := default [] (query !! str "obfs-password") in
    let obfs_type := to_ascii_lowercase (default [] (query !! str "obfs")) in
    if decide (obfs_type ≠ [] ∧ obfs_type ≠ str "plain" ∧ obfs_type ≠ str "salamander")
    then Err (anyhow_msg (str "unsupported obfs type " ++ obfs_type))
    else Ret (mkForm (trim input) server auth (if decide (obfs_type = str "salamander") then obfs_password else [])
      (default [] (query !! str "sni")) [] (default [] (query !! str "pinSHA256")) [] [] [] [] [] [] [] [] true false
      (default false (query !! str "insecure" ≫= parse_bool_like))).

Definition optional_duration_text (value : Z) : bytes := if decide (value = 0) then [] else format_duration value.

Definition parse_imported_client_document (input : bytes) : outcome anyhow (FormState * option bytes) :=
  let trimmed := trim input in
  if decide (trimmed = []) then Err (anyhow_msg (str "imported config is empty"))
  else if is_share_uri trimmed then f ← import_share_uri trimmed; Ret (f, None)
  else
    config ← context (str "failed to parse imported YAML config") (map_err anyhow_msg (parse_yaml trimmed));
    let ca := trim (it_ca (im_tls config)) in
    let '(ca_path, ca_warning) :=
      if decide (ca = []) then ([], None)
      else if path_exists ca then (ca, None)
      else ([], Some (str "imported tls.ca `" ++ ca ++ str "` is not available on Android; import the certificate separately")) in
    let quic := im_quic config in
    Ret (mkForm [] (trim (im_server config)) (trim (im_auth config))
      (if eq_ignore_ascii_case (io_type (im_obfs config)) (str "salamander") then io_salamander_password (im_obfs config) else [])
      (it_sni (im_tls config)) ca_path (it_pin_sha256 (im_tls config)) (ib_up (im_bandwidth config)) (ib_down (im_bandwidth config))
      (optional_u64_text (iq_init_stream_receive_window quic)) (optional_u64_text (iq_max_stream_receive_window quic))
      (optional_u64_text (iq_init_connection_receive_window quic)) (optional_u64_text (iq_max_connection_receive_window quic))
      (optional_duration_text (iq_max_idle_timeout quic)) (optional_duration_text (iq_keep_alive_period quic))
      true (iq_disable_path_mtu_discovery quic) (it_insecure (im_tls config)), ca_warning).

Definition with_ca_path (f : FormState) (ca_path : bytes) : FormState :=
  mkForm (fm_import_uri f) (fm_server f) (fm_auth f) (fm_obfs_password f) (fm_sni f) ca_path (fm_pin_sha256 f) (fm_bandwidth_up f)
    (fm_bandwidth_down f) (fm_init_stream_window f) (fm_max_stream_window f) (fm_init_conn_window f) (fm_max_conn_window f)
    (fm_max_idle_timeout f) (fm_keep_alive_period f) (fm_local_udp_enabled f) (fm_disable_path_mtu_discovery f) (fm_insecure_tls f).
Definition with_import_uri (f : FormState) (uri : bytes) : FormState :=
  mkForm uri (fm_server f) (fm_auth f) (fm_obfs_password f) (fm_sni f) (fm_ca_path f) (fm_pin_sha256 f) (fm_bandwidth_up f)
    (fm_bandwidth_down f) (fm_init_stream_window f) (fm_max_stream_window f) (fm_init_conn_window f) (fm_max_conn_window f)
    (fm_max_idle_timeout f) (fm_keep_alive_period f) (fm_local_udp_enabled f) (fm_disable_path_mtu_discovery f) (fm_insecure_tls f).

Definition apply_settings_import (current : FormState) (input : bytes) : outcome anyhow (FormState * option bytes) :=
  let trimmed := trim input in
  '(imported, warning) ← parse_imported_client_document trimmed;
  let imported := if blank (fm_ca_path imported) && negb (blank (fm_ca_path current)) then with_ca_path imported (fm_ca_path current) else imported in
  let imported := if is_share_uri trimmed then with_import_uri imported trimmed else imported in
  Ret (imported, warning).

Definition normalize_form (form : FormState) : outcome anyhow FormState :=
  form ← (if is_share_uri (trim (fm_server form)) then
            imported ← import_share_uri (fm_server form);
            let or_imported field value := if blank field then value else field in
            Ret (mkForm (fm_import_uri form) (fm_server imported) (or_imported (fm_auth form) (fm_auth imported))
              (or_imported (fm_obfs_password form) (fm_obfs_password imported)) (or_imported (fm_sni form) (fm_sni imported)) (fm_ca_path form)
              (or_imported (fm_pin_sha256 form) (fm_pin_sha256 imported)) (fm_bandwidth_up form) (fm_bandwidth_down form)
              (fm_init_stream_window form) (fm_max_stream_window form) (fm_init_conn_window form) (fm_max_conn_window form)
              (fm_max_idle_timeout form) (fm_keep_alive_period form) (fm_local_udp_enabled form) (fm_disable_path_mtu_discovery form)
              (fm_insecure_tls form || fm_insecure_tls imported))
          else Ret form);
  if blank (fm_server form) then Err (anyhow_msg (str "server must not be empty"))
  else if blank (fm_auth form) then Err (anyhow_msg (str "auth must not be empty"))
  else Ret form.
Definition has_required_connection_fields (form : FormState) : bool :=
  match normalize_form form with Ret _ => true | _ => false end.

Definition resolve_mobile_quic_idle_timeout (input : bytes) : outcome anyhow Z :=
  let trimmed := trim input in
  if decide (trimmed = []) then Ret DEFAULT_MAX_IDLE_TIMEOUT
  else
    value ← context (str "invalid quic.maxIdleTimeout") (map_err anyhow_msg (parse_duration trimmed));
    if decide (4 * NANOS_PER_SEC ≤ value ≤ 120 * NANOS_PER_SEC) then Ret value
    else Err (anyhow_msg (str "quic.maxIdleTimeout must be between 4s and 120s")).
Definition resolve_mobile_keep_alive_period (input : bytes) : outcome anyhow Z :=
  let trimmed := trim input in
  if decide (trimmed = []) then Ret DEFAULT_KEEP_ALIVE_PERIOD
  else
    value ← context (str "invalid quic.keepAlivePeriod") (map_err anyhow_msg (parse_duration trimmed));
    if decide (2 * NANOS_PER_SEC ≤ value ≤ 60 * NANOS_PER_SEC) then Ret value
    else Err (anyhow_msg (str "quic.keepAlivePeriod must be between 2s and 60s")).

Definition build_mobile_quic_transport (form : FormState) : outcome anyhow QuicTransportConfig :=
  init_stream ← parse_optional_u64_field (str "quic.initStreamReceiveWindow") (fm_init_stream_window form);
  max_stream ← parse_optional_u64_field (str "quic.maxStreamReceiveWindow") (fm_max_stream_window form);
  stream ← resolve_mobile_quic_window init_stream max_stream LARGE_STREAM_WINDOW (str "quic.initStreamReceiveWindow") (str "quic.maxStreamReceiveWindow");
  init_conn ← parse_optional_u64_field (str "quic.initConnReceiveWindow") (fm_init_conn_window form);
  max_conn ← parse_optional_u64_field (str "quic.maxConnReceiveWindow") (fm_max_conn_window form);
  conn ← resolve_mobile_quic_window init_conn max_conn LARGE_CONN_WINDOW (str "quic.initConnReceiveWindow") (str "quic.maxConnReceiveWindow");
  idle ← resolve_mobile_quic_idle_timeout (fm_max_idle_timeout form);
  keep_alive ← resolve_mobile_keep_alive_period (fm_keep_alive_period form);
  Ret (mkQuic stream conn idle (Some keep_alive) None (fm_disable_path_mtu_discovery form)).

(** Name resolution and certificate loading. *)
Context (to_socket_addrs : bytes → outcome bytes (list SocketAddr)).
Context (load_root_certificates : bytes → outcome anyhow (list bytes)).

Definition resolve_socket_addr (input : bytes) : outcome anyhow SocketAddr :=
  normalized ← normalize_server_addr input;
  addrs ← context (str "failed to resolve " ++ normalized) (map_err anyhow_msg (to_socket_addrs normalized));
  ok_or (head addrs) (anyhow_msg (str "no socket addresses resolved for " ++ normalized)).

(** The part of [connect_client] before the connection: the configuration of
    the core, and whether local UDP is enabled. *)
Definition client_config_of (form : FormState) : outcome anyhow (CoreClientConfig * bool) :=
  normalized ← normalize_form form;
  server_addr ← resolve_socket_addr (fm_server normalized);
  server_name ← infer_server_name (fm_server normalized) (fm_sni normalized);
  root_certificates ← load_root_certificates (fm_ca_path normalized);
  pinned ← parse_optional_pinned_sha256 (fm_pin_sha256 normalized);
  tx ← parse_bandwidth_field (str "bandwidth.up") (fm_bandwidth_up normalized);
  rx ← parse_bandwidth_field (str "bandwidth.down") (fm_bandwidth_down normalized);
  obfs ← build_obfs_config (fm_obfs_password normalized);
  quic ← build_mobile_quic_transport normalized;
  Ret (mkCoreClient server_addr server_name (fm_auth normalized) tx rx obfs (fm_insecure_tls normalized) root_certificates pinned quic,
       fm_local_udp_enabled normalized).
End import.
