(* ===== verification/MobileShare.v ===== *)
(** * The mobile settings agree with the desktop client

    The mobile application has its own readers of bandwidths, hashes, user
    information and share URIs. This file relates them to those of the command
    line client, and states what an accepted form and a launch give. *)
From S2P Require Import Prelude Errors RustStr Limit Obfs ObfsSocket Client Net Quic Config Share Anyhow MobileForm.
Local Open Scope Z_scope.

(** ** The readers of values *)

Lemma ok_bind {E F A B} (m : outcome E A) (m' : outcome F A) (f : A → outcome E B) (g : A → outcome F B) :
  ok m = ok m' → (∀ a, ok (f a) = ok (g a)) → ok (m ≫= f) = ok (m' ≫= g).
Proof. destruct m, m'; cbn; naive_solver. Qed.
Lemma ok_ok_or {E A} (o : option A) (e : E) : ok (ok_or o e) = o.
Proof. by destruct o. Qed.
Lemma ok_map_err {E F A} (f : E → F) (m : outcome E A) : ok (map_err f m) = ok m.
Proof. by destruct m. Qed.
Lemma ok_context_mobile {A} text (m : outcome anyhow A) : ok (Anyhow.context text m) = ok m.
Proof. apply ok_map_err. Qed.
Lemma ok_context_desktop {A} text (m : outcome bytes A) : ok (Config.context m text) = ok m.
Proof. by destruct m. Qed.
Lemma ok_Ret {E A} (m : outcome E A) a : ok m = Some a ↔ m = Ret a.
Proof. destruct m; cbn; naive_solver. Qed.

(** Two programs that take the same decisions in the same order. *)
Ltac same_ok :=
  repeat first
    [ done
    | case_decide; simplify_eq
    | apply ok_bind; [|intros ?]
    | rewrite !ok_ok_or
    | rewrite !ok_context_mobile
    | rewrite !ok_map_err ].

Lemma bandwidth_alike input : ok (MobileForm.parse_bandwidth input) = ok (Config.parse_bandwidth input).
Proof.
  unfold MobileForm.parse_bandwidth, Config.parse_bandwidth, keyword. same_ok.
Qed.

Lemma nibble_alike v : ok (MobileForm.hex_nibble v) = ok (Config.hex_nibble v).
Proof. unfold MobileForm.hex_nibble, Config.hex_nibble. by repeat case_match. Qed.
Lemma percent_nibble_alike v : ok (MobileForm.hex_nibble v) = ok (Config.percent_nibble v).
Proof. unfold MobileForm.hex_nibble, Config.percent_nibble. by repeat case_match. Qed.

Lemma hex_pairs_alike s : ok (MobileForm.hex_pairs s) = ok (Config.hex_pairs s).
Proof.
  remember (length s) as n eqn:Hn. revert s Hn. induction (lt_wf n) as [n _ IH]. intros [|a [|b s]] Hn; [done..|].
  cbn [MobileForm.hex_pairs Config.hex_pairs].
  do 2 (apply ok_bind; [apply nibble_alike|intros ?]). apply ok_bind; [|done].
  eapply IH; [|reflexivity]. subst n. cbn. lia.
Qed.
Lemma pin_alike input : ok (MobileForm.parse_optional_pinned_sha256 input) = ok (Config.parse_optional_pinned_sha256 input).
Proof.
  unfold MobileForm.parse_optional_pinned_sha256, Config.parse_optional_pinned_sha256. change (MobileForm.normalize_cert_hash input)
    with (Config.normalize_cert_hash input). repeat case_decide; try done. apply ok_bind; [apply hex_pairs_alike|done].
Qed.

Lemma percent_decode_alike s : ok (MobileForm.percent_decode s) = ok (Config.percent_decode s).
Proof.
  remember (length s) as n eqn:Hn. revert s Hn. induction (lt_wf n) as [n _ IH]. intros [|b s] Hn; [done|].
  cbn [MobileForm.percent_decode Config.percent_decode]. case_decide.
  - destruct s as [|h [|l s]]; [done..|]. do 2 (apply ok_bind; [apply percent_nibble_alike|intros ?]).
    apply ok_bind; [|done]. eapply IH; [|reflexivity]. subst n. cbn. lia.
  - apply ok_bind; [|done]. eapply IH; [|reflexivity]. subst n. cbn. lia.
Qed.
Lemma userinfo_alike utf8_error s :
  ok (MobileForm.decode_userinfo_component utf8_error s) = ok (Config.decode_userinfo_component s).
Proof.
  unfold MobileForm.decode_userinfo_component, Config.decode_userinfo_component. case_decide; [done|].
  apply ok_bind; [apply percent_decode_alike|]. intros d. by rewrite !ok_ok_or.
Qed.
Lemma bool_like_alike v : MobileForm.parse_bool_like v = Config.parse_bool_like v.
Proof. done. Qed.

(** ** Share URIs *)

Lemma no_panic_ok_or {E A} (o : option A) (e : E) : no_panic (ok_or o e).
Proof. by destruct o. Qed.
#[local] Hint Resolve no_panic_ok_or : rust.
Ltac decoding_steps decode nibble :=
  let n := fresh "n" in let Hn := fresh "Hn" in let IH := fresh "IH" in
  intros s; remember (length s) as n eqn:Hn; revert s Hn; induction (lt_wf n) as [n _ IH]; intros [|b s] Hn; [done|];
  cbn [decode]; case_decide;
  [ destruct s as [|h [|l s]]; [done..|]; do 2 (apply no_panic_bind; [unfold nibble; by repeat case_match|intros ? _]) | ];
  (apply no_panic_bind; [eapply IH; [|reflexivity]; subst n; cbn; lia|done]).
Lemma no_panic_percent_decode : ∀ s, no_panic (MobileForm.percent_decode s).
Proof. decoding_steps MobileForm.percent_decode MobileForm.hex_nibble. Qed.
Lemma no_panic_percent_decode_desktop : ∀ s, no_panic (Config.percent_decode s).
Proof. decoding_steps Config.percent_decode Config.percent_nibble. Qed.
Lemma no_panic_userinfo utf8_error s : no_panic (MobileForm.decode_userinfo_component utf8_error s).
Proof.
  unfold MobileForm.decode_userinfo_component. case_decide; [done|]. apply no_panic_bind; [apply no_panic_percent_decode|].
  intros. apply no_panic_ok_or.
Qed.
Lemma no_panic_url_auth u : no_panic (url_auth u).
Proof.
  assert (∀ s text, no_panic (Config.context (Config.decode_userinfo_component s) text)) as H.
  { intros s text. apply no_panic_map_err. unfold Config.decode_userinfo_component. case_decide; [done|].
    apply no_panic_bind; [apply no_panic_percent_decode_desktop|]. intros. apply no_panic_ok_or. }
  unfold url_auth. case_decide; [done|]. apply no_panic_bind; [done|]. intros. case_match; [|done]. by apply no_panic_bind.
Qed.

(** The user information of a URL. *)
Definition mobile_auth (utf8_error : bytes → bytes) (u : Url) : outcome anyhow bytes :=
  match url_username u, url_password u with
  | [], None => Ret []
  | user, Some password =>
      u ← MobileForm.decode_userinfo_component utf8_error user; p ← MobileForm.decode_userinfo_component utf8_error password;
      Ret (u ++ COLON :: p)
  | user, None => MobileForm.decode_userinfo_component utf8_error user
  end.
Lemma auth_alike utf8_error u : ok (mobile_auth utf8_error u) = default [] <$> ok (url_auth u).
Proof.
  unfold mobile_auth, url_auth. pose proof (userinfo_alike utf8_error) as H. destruct (url_password u) as [p|].
  - rewrite decide_False by naive_solver.
    transitivity (ok (user ← MobileForm.decode_userinfo_component utf8_error (url_username u);
      pass ← MobileForm.decode_userinfo_component utf8_error p; Ret (user ++ COLON :: pass))).
    { by destruct (url_username u). }
    specialize (H (url_username u)) as Hu. specialize (H p) as Hp. revert Hu Hp.
    destruct (Config.decode_userinfo_component (url_username u)), (Config.decode_userinfo_component p),
      (MobileForm.decode_userinfo_component utf8_error (url_username u)), (MobileForm.decode_userinfo_component utf8_error p);
      cbn; congruence.
  - specialize (H (url_username u)). destruct (url_username u) as [|b s]; [done|]. rewrite decide_False by naive_solver.
    rewrite H. by destruct (Config.decode_userinfo_component (b :: s)).
Qed.

Lemma no_panic_mobile_auth utf8_error u : no_panic (mobile_auth utf8_error u).
Proof.
  unfold mobile_auth. destruct (url_username u), (url_password u); try done; try apply no_panic_userinfo;
    repeat (apply no_panic_bind; [apply no_panic_userinfo|intros ? _]); done.
Qed.

(** The parts of an accepted import. *)
Lemma import_share_uri_parts parse_url utf8_error uri u :
  parse_url (trim uri) = Ret u → url_scheme u ∈ [str "hy2"; str "hysteria2"] →
  import_share_uri parse_url utf8_error uri =
    host ← ok_or (url_host u) (anyhow_msg (str "share URI is missing a host"));
    auth ← mobile_auth utf8_error u;
    let query : gmap bytes bytes := list_to_map (reverse (url_query_pairs u)) in
    let obfs_type := to_ascii_lowercase (default [] (query !! str "obfs")) in
    if decide (obfs_type ≠ [] ∧ obfs_type ≠ str "plain" ∧ obfs_type ≠ str "salamander")
    then Err (anyhow_msg (str "unsupported obfs type " ++ obfs_type))
    else Ret (mkForm (trim uri) (url_server host (Some (default 443 (url_port u)))) auth
      (if decide (obfs_type = str "salamander") then default [] (query !! str "obfs-password") else [])
      (default [] (query !! str "sni")) [] (default [] (query !! str "pinSHA256")) [] [] [] [] [] [] [] [] true false
      (default false (query !! str "insecure" ≫= Config.parse_bool_like))).
Proof.
  intros Hu Hscheme. unfold import_share_uri. rewrite Hu. cbn [map_err Anyhow.context mbind outcome_bind].
  rewrite decide_False by naive_solver. done.
Qed.

Lemma keyword_visible s : Forall visible (to_ascii_lowercase s) → keyword s = to_ascii_lowercase s.
Proof. intros H. unfold keyword. by rewrite trim_visible by by apply visible_of_lower. Qed.

(** The obfuscation a query asks for, read by both clients. *)
Lemma obfs_alike (obfs : option bytes) (password : bytes) (o : option ObfsConfig) :
  let t := to_ascii_lowercase (default [] obfs) in
  t = [] ∨ t = str "plain" ∨ t = str "salamander" →
  Config.build_obfs_config
    (match obfs with
     | Some obfs_type => mkObfs obfs_type (if eq_ignore_ascii_case obfs_type (str "salamander") then password else [])
     | None => obfs_default
     end) = Ret o →
  MobileForm.build_obfs_config (if decide (t = str "salamander") then password else []) = Ret o.
Proof.
  cbn zeta. destruct obfs as [t|]; cbn [default from_option id]; [|by intros _ [= <-]]. intros Ht.
  assert (Forall visible (to_ascii_lowercase t)) as Hv by (destruct Ht as [->|[->| ->]]; by_decide).
  unfold Config.build_obfs_config, MobileForm.build_obfs_config. cbn [ob_type ob_salamander_password].
  rewrite keyword_visible by done. destruct Ht as [Ht|[Ht|Ht]]; rewrite Ht.
  - rewrite decide_True by by_decide. rewrite (decide_False (P := [] = _)) by done. by intros [= <-].
  - rewrite decide_True by by_decide. rewrite (decide_False (P := str "plain" = _)) by done. by intros [= <-].
  - rewrite decide_False by by_decide. rewrite !(decide_True (P := str "salamander" = str "salamander")) by done.
    assert (eq_ignore_ascii_case t (str "salamander") = true) as -> by (apply bool_decide_eq_true; by rewrite Ht).
    case_decide; [done|]. by intros [= <-].
Qed.

(** C26: the command line client and the mobile client read a share URI the
    same way. For a URI of the share schemes the mobile import never panics.
    When it succeeds, the command line client reads the URI too: the
    authentication text, the server name, the verification setting and the
    certificate hash are equal, so is the server where the URI has a port (the
    mobile client adds port 443 where it has none), and an obfuscation the
    command line client accepts is the one the mobile client uses. When it
    fails, the command line client refuses the URI too, or the obfuscation
    type is unknown. *)
Theorem share_uri_read_alike parse_url utf8_error uri u :
  is_share_uri (trim uri) = true → parse_url (trim uri) = Ret u → url_scheme u ∈ [str "hy2"; str "hysteria2"] →
  let desktop := normalize_client_config (fun s => ok (parse_url s)) (client_config_for uri) in
  match import_share_uri parse_url utf8_error uri with
  | Ret f => ∃ c, desktop = Ret c ∧ fm_auth f = cf_auth c ∧ fm_sni f = tl_sni (cf_tls c) ∧
      fm_insecure_tls f = tl_insecure (cf_tls c) ∧ fm_pin_sha256 f = tl_pin_sha256 (cf_tls c) ∧
      (match url_port u with
       | Some _ => fm_server f = cf_server c
       | None => url_host u = Some (cf_server c) ∧ fm_server f = url_server (cf_server c) (Some 443)
       end) ∧
      (∀ o, Config.build_obfs_config (cf_obfs c) = Ret o → MobileForm.build_obfs_config (fm_obfs_password f) = Ret o)
  | Err _ => (∃ e, desktop = Err e) ∨
      ∃ t, (list_to_map (reverse (url_query_pairs u)) : gmap bytes bytes) !! str "obfs" = Some t ∧
        to_ascii_lowercase t ∉ [[]; str "plain"; str "salamander"]
  | Panic => False
  end.
Proof.
  intros Hshare Hu Hscheme desktop. rewrite (import_share_uri_parts _ _ _ _ Hu Hscheme). subst desktop.
  unfold normalize_client_config. cbn [client_config_for cf_server]. unfold is_share_uri in Hshare. rewrite Hshare, Hu.
  cbn [negb ok ok_or mbind outcome_bind]. rewrite (decide_False (P := url_scheme u ∉ _)) by naive_solver.
  destruct (url_host u) as [host|]; cbn [ok_or mbind outcome_bind]; [|left; eauto].
  pose proof (auth_alike utf8_error u) as Hauth. pose proof (no_panic_url_auth u) as Hd. pose proof (no_panic_mobile_auth utf8_error u) as Hm.
  destruct (url_auth u) as [auth|e|], (mobile_auth utf8_error u) as [auth'|e'|]; try done; cbn [mbind outcome_bind]; [|left; eauto].
  cbn in Hauth. injection Hauth as ->.
  set (query := (list_to_map (reverse (url_query_pairs u)) : gmap bytes bytes)). cbn zeta. case_decide as Ht.
  - right. destruct (query !! str "obfs") as [t|]; [|naive_solver]. exists t. split; [done|].
    rewrite !not_elem_of_cons. split_and!; try apply Ht. by apply not_elem_of_nil.
  - eexists. split; [done|]. cbn. split_and!; try done; [by destruct (url_port u)|]. intros o Ho. apply obfs_alike; [|done].
    destruct (decide (to_ascii_lowercase (default [] (query !! str "obfs")) = [])); [by left|right].
    destruct (decide (to_ascii_lowercase (default [] (query !! str "obfs")) = str "plain")); [by left|right]. by apply dec_stable; naive_solver.
Qed.

Definition example_mobile_parse (s : bytes) : outcome bytes Url := ok_or (example_parse s) (str "relative URL without a base").
Lemma share_uri_read_alike_witness :
  ∃ f c, import_share_uri example_mobile_parse (fun _ => []) example_uri = Ret f ∧
    normalize_client_config (fun s => ok (example_mobile_parse s)) (client_config_for example_uri) = Ret c ∧
    fm_auth f = str "john:p@ss/%" ∧ cf_auth c = fm_auth f.
Proof.
  pose proof (share_uri_read_alike example_mobile_parse (fun _ => []) example_uri
    (default (mkUrl [] [] None None None []) (example_parse example_uri))) as H.
  specialize (H ltac:(vm_compute; reflexivity)).
  specialize (H ltac:(vm_compute; reflexivity)).
  specialize (H ltac:(apply (bool_decide_unpack _); vm_compute; exact I)).
  cbn zeta in H. destruct (import_share_uri _ _ _) as [f| |] eqn:E; [|vm_compute in E; discriminate E..].
  destruct H as (c & Hc & Ha & _). exists f, c. split; [reflexivity|]. split; [exact Hc|]. split; [|symmetry; exact Ha].
  vm_compute in E. injection E as <-. reflexivity.
Defined.

(** The mobile readers of values accept what those of the command line
    client accept, with the same result: bandwidths, certificate hashes,
    percent-encoded user information and the words for true and false. *)
Theorem mobile_values_alike utf8_error input :
  ok (MobileForm.parse_bandwidth input) = ok (Config.parse_bandwidth input) ∧
  ok (MobileForm.parse_optional_pinned_sha256 input) = ok (Config.parse_optional_pinned_sha256 input) ∧
  ok (MobileForm.decode_userinfo_component utf8_error input) = ok (Config.decode_userinfo_component input) ∧
  MobileForm.parse_bool_like input = Config.parse_bool_like input.
Proof. split_and!; [apply bandwidth_alike|apply pin_alike|apply userinfo_alike|apply bool_like_alike]. Qed.

(** ** What an accepted form guarantees *)

Lemma hex_pairs_length s out : MobileForm.hex_pairs s = Ret out → length out = (length s / 2)%nat.
Proof.
  revert out. remember (length s) as n eqn:Hn. revert s Hn. induction (lt_wf n) as [n _ IH]. intros [|a [|b s]] Hn out.
  - intros [= <-]. by subst n.
  - intros [= <-]. by subst n.
  - intros H. cbn [MobileForm.hex_pairs] in H. returned H. injection H as <-. subst n. cbn [length].
    rewrite (IH (length s) ltac:(cbn; lia) s eq_refl _ E1). change (S (S (length s))) with (2 + length s)%nat.
    replace (2 + length s)%nat with (length s + 1 * 2)%nat by lia. rewrite Nat.div_add by lia. lia.
Qed.
Lemma pin_Ret input o : MobileForm.parse_optional_pinned_sha256 input = Ret o → ∀ pin, o = Some pin → length pin = 32%nat.
Proof.
  unfold MobileForm.parse_optional_pinned_sha256. case_decide; [by intros [= <-]|]. case_decide as Hlen; [done|].
  intros Hr pin ->. returned Hr. injection Hr as ->. apply hex_pairs_length in E. rewrite E. unfold len in Hlen.
  replace (length (MobileForm.normalize_cert_hash input)) with 64%nat by lia. done.
Qed.
Lemma mobile_window_Ret a b d f g v : resolve_mobile_quic_window a b d f g = Ret v → 16384 ≤ v.
Proof. unfold resolve_mobile_quic_window. case_decide; [done|]. intros [= <-]. lia. Qed.
Lemma mobile_idle_Ret pd input v :
  resolve_mobile_quic_idle_timeout pd input = Ret v → 4 * NANOS_PER_SEC ≤ v ≤ 120 * NANOS_PER_SEC.
Proof.
  unfold resolve_mobile_quic_idle_timeout. case_decide; [intros [= <-]; unfold DEFAULT_MAX_IDLE_TIMEOUT, NANOS_PER_SEC; lia|].
  intros Hr. returned Hr. case_decide; [by injection Hr as <-|done].
Qed.
Lemma mobile_keep_alive_Ret pd input v :
  resolve_mobile_keep_alive_period pd input = Ret v → 2 * NANOS_PER_SEC ≤ v ≤ 60 * NANOS_PER_SEC.
Proof.
  unfold resolve_mobile_keep_alive_period. case_decide; [intros [= <-]; unfold DEFAULT_KEEP_ALIVE_PERIOD, NANOS_PER_SEC; lia|].
  intros Hr. returned Hr. case_decide; [by injection Hr as <-|done].
Qed.
Lemma normalize_form_Ret parse_url utf8_error form f :
  normalize_form parse_url utf8_error form = Ret f →
  blank (fm_server f) = false ∧ blank (fm_auth f) = false ∧ fm_local_udp_enabled f = fm_local_udp_enabled form.
Proof.
  unfold normalize_form. intros H. apply bind_Ret_inv in H as (g & Hg & H).
  destruct (blank (fm_server g)) eqn:Hs; [done|]. destruct (blank (fm_auth g)) eqn:Ha; [done|]. injection H as <-.
  split_and!; [done..|]. destruct (is_share_uri _); [|by injection Hg as <-]. returned Hg. by injection Hg as <-.
Qed.
Lemma mobile_bandwidth_Ret input v : MobileForm.parse_bandwidth input = Ret v → 0 ≤ v ≤ u64_max / 8.
Proof.
  unfold MobileForm.parse_bandwidth. repeat case_decide; try done; [intros [= <-]; unfold u64_max; vm_compute; split; done|].
  intros Hr. returned Hr. injection Hr as <-.
  assert (0 ≤ x) by (destruct (parse_u64 _) as [y|] eqn:Ey; [injection E as <-; apply parse_uint_range in Ey; unfold u64_max in *; lia|done]).
  assert (0 ≤ x0).
  { unfold unit_bytes in E0. repeat case_decide; cbn in E0; simplify_eq; lia. }
  unfold sat_mul. split; [apply Z.div_pos; unfold u64_max; nia|apply Z.div_le_mono; lia].
Qed.

(** C32: a form the mobile client connects with. The authentication text is not
    blank; the address is the first one the server's name resolves to; limits
    are whole bytes per second of a 64-bit number of bits; a pinned hash has 32
    bytes; an obfuscation key is not empty; both windows are at least 16384
    bytes, the idle timeout is between 4 and 120 seconds and the keep-alive
    period between 2 and 60; and the core builds a transport from it exactly if
    both windows fit into 62 bits, which the form does not check. *)
Theorem mobile_form_sound {T} parse_url utf8_error parse_duration to_socket_addrs load_root_certificates form c udp env (target : T) :
  client_config_of parse_url utf8_error parse_duration to_socket_addrs load_root_certificates form = Ret (c, udp) →
  udp = fm_local_udp_enabled form ∧ blank (co_auth c) = false ∧
  (∃ f normalized addrs, normalize_form parse_url utf8_error form = Ret f ∧ co_auth c = fm_auth f ∧
     normalize_server_addr (fm_server f) = Ret normalized ∧ to_socket_addrs normalized = Ret (co_server_addr c :: addrs)) ∧
  0 ≤ co_bandwidth_max_tx c ≤ u64_max / 8 ∧ 0 ≤ co_bandwidth_max_rx c ≤ u64_max / 8 ∧
  (∀ pin, co_pinned_sha256 c = Some pin → length pin = 32%nat) ∧
  (∀ key, co_obfs c = Some (Salamander key) → key ≠ []) ∧
  16384 ≤ stream_receive_window (co_quic c) ∧ 16384 ≤ receive_window (co_quic c) ∧
  4 * NANOS_PER_SEC ≤ max_idle_timeout (co_quic c) ≤ 120 * NANOS_PER_SEC ∧
  (∃ k, keep_alive_interval (co_quic c) = Some k ∧ 2 * NANOS_PER_SEC ≤ k ≤ 60 * NANOS_PER_SEC) ∧
  ((∃ t, build_transport_config env false (co_quic c) target = Ret t) ↔
     stream_receive_window (co_quic c) ≤ Varint.MAX_VARINT ∧ receive_window (co_quic c) ≤ Varint.MAX_VARINT).
Proof.
  intros H. unfold client_config_of in H. returned H. injection H as <- <-. cbn.
  pose proof E as Hform. apply normalize_form_Ret in E as (Hserver & Hauth & ->). pose proof (pin_Ret _ _ E3) as Hpin.
  apply anyhow_context_Ret, mobile_bandwidth_Ret in E4, E5. unfold build_mobile_quic_transport in E7. returned E7. injection E7 as <-. cbn.
  apply mobile_window_Ret in E9, E12. apply mobile_idle_Ret in E13. apply mobile_keep_alive_Ret in E14.
  unfold resolve_socket_addr in E0. apply bind_Ret_inv in E0 as (normalized & Hn & E0). apply bind_Ret_inv in E0 as (addrs & Ha & E0).
  apply anyhow_context_Ret in Ha. destruct addrs as [|a addrs]; [done|]. injection E0 as ->.
  split_and!; try done; try lia.
  - exists x, normalized, addrs. split_and!; [done..|]. by destruct (to_socket_addrs normalized); cbn in Ha; simplify_eq.
  - intros key ->. unfold MobileForm.build_obfs_config in E6. case_decide; [done|]. by injection E6 as <-.
  - eexists. split; [done|lia].
  - rewrite build_transport_config_accepts. unfold transport_ok. cbn. split; [naive_solver|]. intros [? ?]. split_and!; try done; [..].
    unfold NANOS_PER_SEC, NANOS_PER_MILLI, Varint.MAX_VARINT in *. apply Z.div_le_upper_bound; lia.
Qed.

Definition example_form : FormState :=
  mkForm [] (str "h.example:443") (str "secret") (str "66ccff") [] [] [] (str "20 mbps") [] [] (str "65536") [] [] [] [] true false false.
Lemma mobile_form_sound_witness :
  ∃ c, client_config_of (fun _ => Err []) (fun _ => []) (fun _ => Err []) (fun _ => Ret [SocketV4 [127; 0; 0; 1] 443]) (fun _ => Ret [])
    example_form = Ret (c, true) ∧
    co_bandwidth_max_tx c = 2500000 ∧ 16384 ≤ stream_receive_window (co_quic c).
Proof.
  eexists. split; [vm_compute; reflexivity|]. split; [reflexivity|].
  eapply (mobile_form_sound (fun _ => Err []) (fun _ => []) (fun _ => Err []) (fun _ => Ret [SocketV4 [127; 0; 0; 1] 443]) (fun _ => Ret [])
    example_form _ true (fun _ => None) ()).
  vm_compute. reflexivity.
Defined.

(** ** Starting the application *)

Definition opt_texts (l : LaunchConfig) : list (option bytes) :=
  [lc_server l; lc_auth l; lc_obfs_password l; lc_sni l; lc_ca_path l; lc_pin_sha256 l; lc_bandwidth_up l; lc_bandwidth_down l;
   lc_init_stream_window l; lc_max_stream_window l; lc_init_conn_window l; lc_max_conn_window l; lc_max_idle_timeout l;
   lc_keep_alive_period l].

(** What the activity answers for a switch an intent does not have: local UDP
    is on, everything else is off ([MainActivity.kt], [cacheLaunchExtras]). *)
Definition no_bool_extra (key : bytes) : outcome anyhow bool := Ret (bool_decide (key = extra "LOCAL_UDP_ENABLED")).

(** The form the application starts with. A text of the launch intent that
    is not blank wins over the saved profile, any other field keeps the saved
    text. The three switches are always those of the intent: an intent without
    extras turns local UDP and the verification of certificates on and path MTU
    discovery on, whatever the saved profile says. *)
Theorem launch_overrides_profile string_extra bool_extra saved launch :
  query_launch_config string_extra bool_extra = Ret launch →
  let form := initial_form_state (Ret saved) (Ret launch) in
  let profile := default form_default saved in
  form_texts form = zip_with overlay (opt_texts launch) (form_texts profile) ∧
  bool_extra (extra "LOCAL_UDP_ENABLED") = Ret (fm_local_udp_enabled form) ∧
  bool_extra (extra "QUIC_DISABLE_PATH_MTU_DISCOVERY") = Ret (fm_disable_path_mtu_discovery form) ∧
  bool_extra (extra "INSECURE_TLS") = Ret (fm_insecure_tls form) ∧
  ((∀ k, string_extra k = Ret None) → form_texts form = form_texts profile) ∧
  ((∀ k, bool_extra k = no_bool_extra k) → fm_local_udp_enabled form = true ∧ fm_disable_path_mtu_discovery form = false ∧
     fm_insecure_tls form = false ∧ has_launch_automation (initial_launch_automation (Ret launch)) = false).
Proof.
  intros H. unfold query_launch_config in H. returned H. injection H as <-. cbn zeta. split_and!; try done.
  - intros Hn. rewrite !Hn in *. by simplify_eq.
  - intros Hf. rewrite !Hf in *. unfold no_bool_extra in *.
    repeat match goal with E : Ret _ = Ret ?x |- _ => is_var x; apply Ret_inj in E; subst x end. by vm_compute.
Qed.

Definition saved_form : FormState := mkForm [] (str "h.example:443") (str "secret") [] [] [] [] [] [] [] [] [] [] [] [] false true true.
Lemma launch_overrides_profile_witness :
  ∃ launch, query_launch_config (fun _ => Ret None) no_bool_extra = Ret launch ∧
    form_texts (initial_form_state (Ret (Some saved_form)) (Ret launch)) = form_texts saved_form ∧
    fm_local_udp_enabled saved_form = false ∧ fm_insecure_tls saved_form = true ∧
    fm_local_udp_enabled (initial_form_state (Ret (Some saved_form)) (Ret launch)) = true ∧
    fm_insecure_tls (initial_form_state (Ret (Some saved_form)) (Ret launch)) = false.
Proof.
  eexists. split; [vm_compute; reflexivity|].
  destruct (launch_overrides_profile (fun _ => Ret None) no_bool_extra (Some saved_form) _ ltac:(vm_compute; reflexivity)) as (_ & _ & _ & _ & Ht & Hb).
  split; [apply Ht; reflexivity|]. split; [reflexivity|]. split; [reflexivity|]. split; apply Hb; reflexivity.
Defined.
