(* ===== verification/MobileStatus.v ===== *)
(** * What the mobile controller handles ([mobile/src/main.rs], [mobile/src/vpn_tun2socks.rs])

    The status shown to the user, the commands and events of the controller,
    the traffic figures, and the settings of the local proxy and of the TUN
    device. Durations are nanoseconds. *)
From S2P Require Import Prelude Errors RustStr Float Limit Net Socks5 Config Anyhow Dns LocalSocks MobileForm.
Local Open Scope Z_scope.

Definition DEFAULT_TEST_DURATION : Z := 8 * NANOS_PER_SEC.
Definition MAX_LOG_LINES : Z := 200.
Definition LOCAL_SOCKS_HOST : bytes := str "127.0.0.1".
Definition LOCAL_SOCKS_PORT : Z := 1080.
Definition VPN_TUN_NAME : bytes := str "hy0".
Definition VPN_TUN_MTU : Z := 1500.
Definition VPN_TUN_IPV4_ADDR : bytes := str "10.8.0.2".
Definition VPN_TUN_CONNECT_TIMEOUT_MS : Z := 15000.
Definition VPN_DNS_SERVER_IP : bytes := str "1.1.1.1".
Definition VPN_DNS_DOT_PORT : Z := 853.
Definition VPN_DNS_PROXY_TIMEOUT : Z := 10 * NANOS_PER_SEC.
Definition MAX_RECONNECT_BACKOFF_SECS : Z := 15.
Definition HEALTH_PROBE_INTERVAL : Z := 15 * NANOS_PER_SEC.
Definition HEALTH_PROBE_FAILURE_THRESHOLD : Z := 2.

(** ** Traffic *)

Record TransportSample := mkSample { sp_rtt : Z; sp_tx_bytes : Z; sp_rx_bytes : Z }.
Record DashboardMetrics := mkMetrics {
  dm_latency : option Z; dm_tx_total_bytes : Z; dm_rx_total_bytes : Z; dm_tx_rate_bytes : Z; dm_rx_rate_bytes : Z
}.
#[global] Instance DashboardMetrics_eq_dec : EqDecision DashboardMetrics.
Proof. solve_decision. Defined.

(** [x.round() as u64] of a double that is not negative. *)
Definition f64_round_as_u64 (x : f64) : Z := Z.min u64_max (Qfloor (x + (1 # 2))).
(** [f64::EPSILON]. *)
Definition F64_EPSILON : f64 := (1 # 4503599627370496)%Q.

Definition derive_dashboard_metrics (previous : option TransportSample) (current : TransportSample) (interval : Z) : DashboardMetrics :=
  let seconds := as_secs_f64 interval in
  let rate now before := f64_round_as_u64 (f64_div (f64_of_u64 (sat_sub now before)) seconds) in
  let '(tx_rate_bytes, rx_rate_bytes) :=
    if Qle_bool seconds F64_EPSILON then (0, 0)
    else match previous with
         | Some previous => (rate (sp_tx_bytes current) (sp_tx_bytes previous), rate (sp_rx_bytes current) (sp_rx_bytes previous))
         | None => (0, 0)
         end in
  mkMetrics (Some (sp_rtt current)) (sp_tx_bytes current) (sp_rx_bytes current) tx_rate_bytes rx_rate_bytes.

(** ** The status *)

Record UiStatus := mkStatus {
  us_phase : bytes;
  us_remote : bytes;
  us_detail : bytes;
  us_server_udp_supported : bool;
  us_local_udp_enabled : bool;
  us_udp_enabled : bool;
  us_negotiated_tx : Z;
  us_latency : option Z;
  us_tx_total_bytes : Z;
  us_rx_total_bytes : Z;
  us_tx_rate_bytes : Z;
  us_rx_rate_bytes : Z;
  us_local_socks : bytes;
  us_vpn_available : bool;
  us_vpn_permission_granted : bool;
  us_vpn_active : bool
}.
#[global] Instance UiStatus_eq_dec : EqDecision UiStatus.
Proof. solve_decision. Defined.

Definition SOCKS_LISTEN : bytes := LOCAL_SOCKS_HOST ++ COLON :: to_string LOCAL_SOCKS_PORT.

(** [UiStatus { phase, detail, ..UiStatus::default() }]. *)
Definition status_of (phase detail : bytes) : UiStatus :=
  mkStatus phase [] detail false true false 0 None 0 0 0 0 SOCKS_LISTEN false false false.
Definition status_default : UiStatus :=
  status_of (str "Disconnected")
    (str "Import a Linux-compatible config or fill server/auth, then connect. Explicit CA is optional.").

(** [UiStatus { phase, detail, ..status.clone() }]. *)
Definition with_phase_detail (s : UiStatus) (phase detail : bytes) : UiStatus :=
  mkStatus phase (us_remote s) detail (us_server_udp_supported s) (us_local_udp_enabled s) (us_udp_enabled s) (us_negotiated_tx s)
    (us_latency s) (us_tx_total_bytes s) (us_rx_total_bytes s) (us_tx_rate_bytes s) (us_rx_rate_bytes s) (us_local_socks s)
    (us_vpn_available s) (us_vpn_permission_granted s) (us_vpn_active s).
Definition with_detail (s : UiStatus) (detail : bytes) : UiStatus := with_phase_detail s (us_phase s) detail.
Definition with_local_socks (s : UiStatus) (listen : bytes) : UiStatus :=
  mkStatus (us_phase s) (us_remote s) (us_detail s) (us_server_udp_supported s) (us_local_udp_enabled s) (us_udp_enabled s)
    (us_negotiated_tx s) (us_latency s) (us_tx_total_bytes s) (us_rx_total_bytes s) (us_tx_rate_bytes s) (us_rx_rate_bytes s) listen
    (us_vpn_available s) (us_vpn_permission_granted s) (us_vpn_active s).
(** The status of a lost connection: the old one with its rates reset. *)
Definition lost_status (s : UiStatus) (detail : bytes) : UiStatus :=
  mkStatus (str "Reconnecting") (us_remote s) detail (us_server_udp_supported s) (us_local_udp_enabled s) (us_udp_enabled s)
    (us_negotiated_tx s) (us_latency s) (us_tx_total_bytes s) (us_rx_total_bytes s) 0 0 (us_local_socks s) false false false.

Definition apply_dashboard_metrics (s : UiStatus) (m : DashboardMetrics) : UiStatus :=
  mkStatus (us_phase s) (us_remote s) (us_detail s) (us_server_udp_supported s) (us_local_udp_enabled s) (us_udp_enabled s)
    (us_negotiated_tx s) (dm_latency m) (dm_tx_total_bytes m) (dm_rx_total_bytes m) (dm_tx_rate_bytes m) (dm_rx_rate_bytes m)
    (us_local_socks s) (us_vpn_available s) (us_vpn_permission_granted s) (us_vpn_active s).

Record VpnState := mkVpn { vs_available : bool; vs_permission_granted : bool; vs_active : bool }.
Definition vpn_default : VpnState := mkVpn false false false.
(** [with_vpn_state], given what [query_state().unwrap_or_default()] returned. *)
Definition set_vpn_state (v : VpnState) (s : UiStatus) : UiStatus :=
  mkStatus (us_phase s) (us_remote s) (us_detail s) (us_server_udp_supported s) (us_local_udp_enabled s) (us_udp_enabled s)
    (us_negotiated_tx s) (us_latency s) (us_tx_total_bytes s) (us_rx_total_bytes s) (us_tx_rate_bytes s) (us_rx_rate_bytes s)
    (us_local_socks s) (vs_available v) (vs_permission_granted v) (vs_active v).

(** ** Commands and events *)

Inductive SpeedDirection := Download | Upload.
Definition direction_label (d : SpeedDirection) : bytes :=
  match d with Download => str "download" | Upload => str "upload" end.

Inductive AppCommand :=
| Connect (form : FormState)
| StartManagedVpn (form : FormState)
| ManagedConnect (form : FormState)
| Disconnect
| Speedtest (direction : SpeedDirection)
| RequestVpnPermission
| StopVpnShell
| ServiceStopped
| ConnectionClosed (generation : Z) (reason : bytes)
| Reconnect (generation attempt : Z)
| TransportPulse (generation : Z) (metrics : DashboardMetrics).

Inductive AppEvent :=
| Status (status : UiStatus)
| Transport (metrics : DashboardMetrics)
| Log (message : bytes)
| DnsFailure (reason : bytes).

(** ** The local proxy and the TUN device *)

Definition local_socks_udp_disabled (form : FormState) : bool := negb (fm_local_udp_enabled form).
Definition build_local_socks_config (listen : bytes) (dns_proxy : option DnsProxy) (form : FormState) : LocalSocksConfig :=
  mkLocalSocks listen [] [] (local_socks_udp_disabled form) dns_proxy.
Definition managed_vpn_dot_upstreams : list DotUpstream :=
  [mkDotUpstream (str "1.1.1.1" ++ COLON :: to_string VPN_DNS_DOT_PORT) (str "cloudflare-dns.com");
   mkDotUpstream (str "8.8.8.8" ++ COLON :: to_string VPN_DNS_DOT_PORT) (str "dns.google")].
(** [roots] is what [load_system_root_certificates] returned. *)
Definition build_managed_vpn_dns_proxy (add_root : bytes → outcome bytes unit) (roots : outcome anyhow (list bytes))
    (failure_notifier : bool) : outcome anyhow DnsProxy :=
  root_certificates ← roots;
  dns_proxy_new add_root VPN_DNS_SERVER_IP root_certificates managed_vpn_dot_upstreams VPN_DNS_PROXY_TIMEOUT failure_notifier.

Inductive Tun2SocksUdpMode := UdpDisabled | UdpOverTcp | UdpOverUdp.
Record Tun2SocksConfig := mkTun2Socks {
  t2_socks_host : bytes; t2_socks_port : Z; t2_udp_mode : Tun2SocksUdpMode; t2_tunnel_name : bytes; t2_mtu : Z; t2_ipv4_addr : bytes;
  t2_ipv6_addr : option bytes; t2_connect_timeout_ms : option Z
}.
Definition managed_vpn_tun_config (local_udp_enabled : bool) : Tun2SocksConfig :=
  mkTun2Socks LOCAL_SOCKS_HOST LOCAL_SOCKS_PORT (if local_udp_enabled then UdpOverUdp else UdpOverTcp) VPN_TUN_NAME VPN_TUN_MTU
    VPN_TUN_IPV4_ADDR None (Some VPN_TUN_CONNECT_TIMEOUT_MS).

Definition newline : bytes := [10].
Definition quoted (s : bytes) : bytes := 39 :: s ++ [39].
Definition render (c : Tun2SocksConfig) : bytes :=
  let udp_mode := match t2_udp_mode c with UdpDisabled => str "off" | UdpOverTcp => str "tcp" | UdpOverUdp => str "udp" end in
  let ipv6 := match t2_ipv6_addr c with Some addr => newline ++ str "  ipv6: " ++ quoted addr | None => [] end in
  let connect_timeout :=
    match t2_connect_timeout_ms c with Some value => str "  connect-timeout: " ++ to_string value ++ newline | None => [] end in
  str "tunnel:" ++ newline ++ str "  name: " ++ t2_tunnel_name c ++ newline ++ str "  mtu: " ++ to_string (t2_mtu c) ++ newline
  ++ str "  multi-queue: false" ++ newline ++ str "  ipv4: " ++ t2_ipv4_addr c ++ ipv6 ++ newline ++ newline
  ++ str "socks5:" ++ newline ++ str "  address: " ++ t2_socks_host c ++ newline ++ str "  port: " ++ to_string (t2_socks_port c) ++ newline
  ++ str "  udp: " ++ quoted udp_mode ++ newline ++ str "misc:" ++ newline ++ connect_timeout ++ str "  log-file: stderr" ++ newline
  ++ str "  log-level: info" ++ newline.

Definition should_run_health_probe (phase : bytes) : bool := bool_decide (phase = str "Connected").
Definition should_preserve_tun2socks_on_connection_loss (desired_vpn_active : bool) : bool := desired_vpn_active.
Definition should_restart_tun2socks_after_reconnect (desired_vpn_active tun2socks_running : bool) : bool :=
  desired_vpn_active && negb tun2socks_running.

(** [reconnect_delay], in seconds; shifting a [u64] by at most 4 is always
    possible. *)
Definition reconnect_delay (attempt : Z) : Z := Z.min (Z.shiftl 1 (Z.min attempt 4)) MAX_RECONNECT_BACKOFF_SECS.
