(* ===== verification/Controller.v ===== *)
(** * The controller of the mobile client ([mobile/src/main.rs], [controller_thread])

    One thread owns the connection and handles the commands of the user
    interface, of the Android service and of its own background tasks, which it
    receives over one queue. The tasks of the runtime are numbered; a task that
    was aborted may still finish the turn it is in. The Android side, the
    network and the operating system are the class [Platform] over a world
    [W]; [C] are connections and [H] threads. *)
From S2P Require Import Prelude Errors RustStr Float Limit Net Quic Client Config Io SpeedTest Anyhow Dns LocalSocks MobileForm MobileStatus.
Local Open Scope Z_scope.

Class Platform (W C H : Type) := {
  (** [android_bridge] *)
  pf_query_state : W → W * outcome anyhow VpnState;
  pf_request_permission : W → W * outcome anyhow unit;
  pf_start_managed_vpn : FormState → bytes → Z → W → W * outcome anyhow unit;
  pf_start_vpn_service : bytes → Z → W → W * outcome anyhow unit;
  pf_stop_vpn_service : W → W * outcome anyhow unit;
  pf_take_tun_fd : W → W * outcome anyhow Z;
  (** a thread that runs tun2socks on a file, and [quit] and [join], which tells
      whether it ended without a panic *)
  pf_spawn_thread : bytes → Z → W → W * outcome anyhow H;
  pf_quit_and_join : H → W → W * bool;
  (** what reading a form needs *)
  pf_parse_url : bytes → outcome bytes Url;
  pf_utf8_error : bytes → bytes;
  pf_parse_duration : bytes → outcome bytes Z;
  pf_format_duration : Z → bytes;
  pf_to_socket_addrs : W → bytes → outcome bytes (list SocketAddr);
  pf_load_root_certificates : W → bytes → outcome anyhow (list bytes);
  (** the core client *)
  pf_connect : CoreClientConfig → W → W * outcome CoreError (C * HandshakeInfo);
  pf_remote_addr : C → SocketAddr;
  pf_transport_snapshot : W → C → TransportSample;
  pf_close : C → W → W * outcome CoreError unit;
  pf_tcp : C → bytes → W → W * outcome CoreError st_conn;
  (** the reads and writes a timed transfer completes, and its duration *)
  pf_clock : W → nat * Z
}.

(** ** State *)

Inductive TaskKind := TLocalSocks | TCloseWatch | TTransportWatch | THealthProbe.
Record Task := mkTask { tk_kind : TaskKind; tk_generation : Z; tk_aborted : bool }.
Record Timer := mkTimer { tm_delay : Z; tm_generation : Z; tm_attempt : Z }.
#[global] Instance TaskKind_eq_dec : EqDecision TaskKind.
Proof. solve_decision. Defined.
#[global] Instance Timer_eq_dec : EqDecision Timer.
Proof. solve_decision. Defined.

Record Handles := mkHandles {
  h_local_socks : option nat; h_close_watch : option nat; h_transport_watch : option nat; h_health_probe : option nat
}.
Definition no_handles : Handles := mkHandles None None None None.

(** The variables of the controller, the timers it set and the tasks it
    started. *)
Record Core (C H : Type) := mkCore {
  k_client : option C;
  k_handles : Handles;
  k_tun : option H;
  k_status : UiStatus;
  k_generation : Z;
  k_form : option FormState;
  k_desired : bool;
  k_timers : list Timer;
  k_tasks : gmap nat Task;
  k_next : nat
}.
Arguments mkCore {C H}.
Arguments k_client {C H}.
Arguments k_handles {C H}.
Arguments k_tun {C H}.
Arguments k_status {C H}.
Arguments k_generation {C H}.
Arguments k_form {C H}.
Arguments k_desired {C H}.
Arguments k_timers {C H}.
Arguments k_tasks {C H}.
Arguments k_next {C H}.

Section core.
Context {C H : Type}.
Implicit Types k : Core C H.
Definition set_client (x : option C) k : Core C H :=
  mkCore x (k_handles k) (k_tun k) (k_status k) (k_generation k) (k_form k) (k_desired k) (k_timers k) (k_tasks k) (k_next k).
Definition set_handles (x : Handles) k : Core C H :=
  mkCore (k_client k) x (k_tun k) (k_status k) (k_generation k) (k_form k) (k_desired k) (k_timers k) (k_tasks k) (k_next k).
Definition set_tun (x : option H) k : Core C H :=
  mkCore (k_client k) (k_handles k) x (k_status k) (k_generation k) (k_form k) (k_desired k) (k_timers k) (k_tasks k) (k_next k).
Definition set_status (x : UiStatus) k : Core C H :=
  mkCore (k_client k) (k_handles k) (k_tun k) x (k_generation k) (k_form k) (k_desired k) (k_timers k) (k_tasks k) (k_next k).
Definition set_generation (x : Z) k : Core C H :=
  mkCore (k_client k) (k_handles k) (k_tun k) (k_status k) x (k_form k) (k_desired k) (k_timers k) (k_tasks k) (k_next k).
Definition set_form (x : option FormState) k : Core C H :=
  mkCore (k_client k) (k_handles k) (k_tun k) (k_status k) (k_generation k) x (k_desired k) (k_timers k) (k_tasks k) (k_next k).
Definition set_desired (x : bool) k : Core C H :=
  mkCore (k_client k) (k_handles k) (k_tun k) (k_status k) (k_generation k) (k_form k) x (k_timers k) (k_tasks k) (k_next k).
Definition set_timers (x : list Timer) k : Core C H :=
  mkCore (k_client k) (k_handles k) (k_tun k) (k_status k) (k_generation k) (k_form k) (k_desired k) x (k_tasks k) (k_next k).
Definition set_tasks (x : gmap nat Task) (n : nat) k : Core C H :=
  mkCore (k_client k) (k_handles k) (k_tun k) (k_status k) (k_generation k) (k_form k) (k_desired k) (k_timers k) x n.
End core.

Record St (W C H : Type) := mkSt { st_core : Core C H; st_world : W; st_events : list AppEvent }.
Arguments mkSt {W C H}.
Arguments st_core {W C H}.
Arguments st_world {W C H}.
Arguments st_events {W C H}.

(** ** Effects *)

(** A computation of the controller thread; [Err] is one that never
    returns. *)
Definition M (W C H A : Type) : Type := St W C H → outcome unit (A * St W C H).
#[global] Instance M_ret {W C H} : MRet (M W C H) := fun A a s => Ret (a, s).
#[global] Instance M_bind {W C H} : MBind (M W C H) := fun A B f m s =>
  match m s with
  | Ret (a, s) => f a s
  | Err e => Err e
  | Panic => Panic
  end.

Section effects.
Context {W C H : Type}.
Abbreviation M := (M W C H).

Definition core_of : M (Core C H) := fun s => Ret (st_core s, s).
Definition modify (f : Core C H → Core C H) : M unit := fun s => Ret ((), mkSt (f (st_core s)) (st_world s) (st_events s)).
Definition emit (e : AppEvent) : M unit := fun s => Ret ((), mkSt (st_core s) (st_world s) (st_events s ++ [e])).
Definition log (message : bytes) : M unit := emit (Log message).
Definition world_of : M W := fun s => Ret (st_world s, s).
Definition panics {A} : M A := fun _ => Panic.
(** A call to the platform, with its result as a value. *)
Definition call {A} (f : W → W * A) : M A := fun s => let '(w, a) := f (st_world s) in Ret (a, mkSt (st_core s) w (st_events s)).
Definition result {E A} (r : outcome E A) : M (A + E) :=
  match r with Ret a => mret (inl a) | Err e => mret (inr e) | Panic => panics end.
Definition try_call {E A} (f : W → W * outcome E A) : M (A + E) := r ← call f; result r.

(** [handle.spawn] and [task.abort()]. *)
Definition spawn (kind : TaskKind) (generation : Z) : M nat := fun s =>
  let k := st_core s in
  let id := k_next k in
  Ret (id, mkSt (set_tasks (<[id := mkTask kind generation false]> (k_tasks k)) (S id) k) (st_world s) (st_events s)).
Definition cancel (t : Task) : Task := mkTask (tk_kind t) (tk_generation t) true.
Definition abort (id : nat) : M unit := modify (fun k => set_tasks (alter cancel id (k_tasks k)) (k_next k) k).
End effects.

(** [attempt + 1] of a [u32]. *)
Definition u32_succ {W C H} (checks : bool) (a : Z) : M W C H Z :=
  if decide (a + 1 ≤ u32_max) then mret (a + 1) else if checks then panics else mret (as_u32 (a + 1)).

(** ** Operations *)

(** [{x:.2}] of a double that is not negative. *)
Definition fixed2 (x : f64) : bytes :=
  let n := round_half_even (Qnum x * 100) (Zpos (Qden x)) in
  dec_digits 40 (n / 100) ++ 46 :: [48 + n / 10 mod 10; 48 + n mod 10].
(** The loop of [format_speed] over the units. *)
Fixpoint speed_text (speed : f64) (unit : bytes) (units : list bytes) : bytes :=
  match units with
  | next :: units =>
      if negb (Qle_bool speed 1000) then speed_text (f64_div speed 1000) next units else fixed2 speed ++ 32 :: unit
  | [] => fixed2 speed ++ 32 :: unit
  end.
Definition format_speed (bytes duration : Z) : Prelude.bytes :=
  if decide (duration = 0) then str "0.00 bps"
  else speed_text (f64_mul (f64_div (f64_of_u64 bytes) (as_secs_f64 duration)) 8) (str "bps") [str "Kbps"; str "Mbps"; str "Gbps"].

Section controller.
Context {W C H : Type} `{!Platform W C H} (checks : bool).
Abbreviation M := (M W C H).

Definition query_vpn : M VpnState :=
  r ← try_call pf_query_state; mret (match r with inl v => v | inr _ => vpn_default end).
Definition with_vpn_state (status : UiStatus) : M UiStatus := v ← query_vpn; mret (set_vpn_state v status).
(** [tx_evt.send(AppEvent::Status(with_vpn_state(status)))]. *)
Definition emit_status (status : UiStatus) : M unit := status ← with_vpn_state status; emit (Status status).
(** [connected_status = with_vpn_state(status)], and that it is sent. *)
Definition assign_status (status : UiStatus) : M unit :=
  status ← with_vpn_state status; modify (set_status status);; emit (Status status).

(** [vpn_tun2socks::spawn] and [vpn_tun2socks::stop]. *)
Definition tun_spawn (config : Tun2SocksConfig) (tun_fd : Z) : M (H + anyhow) :=
  if decide (tun_fd < 0) then mret (inr (anyhow_msg (str "Android VpnService did not provide a valid TUN fd")))
  else
    r ← try_call (pf_spawn_thread (render config) tun_fd);
    mret (match r with inl h => inl h | inr e => inr (add_context (str "failed to spawn tun2socks thread") e) end).
Definition tun_stop (handle : H) : M (unit + anyhow) :=
  joined ← call (pf_quit_and_join handle);
  mret (if joined : bool then inl () else inr (anyhow_msg (str "tun2socks thread panicked"))).

Definition stop_vpn_runtime (stop_service : bool) : M unit :=
  k ← core_of;
  (match k_tun k with
   | Some handle =>
       modify (set_tun None);;
       r ← tun_stop handle;
       match r with
       | inl _ => log (str "tun2socks runtime stopped")
       | inr err => log (str "tun2socks runtime stop failed: " ++ err_chain err)
       end
   | None => mret ()
   end);;
  if stop_service then
    v ← query_vpn;
    if vs_available v then
      r ← try_call pf_stop_vpn_service;
      match r with
      | inl _ => log (str "requested Android VPN service stop")
      | inr err => log (str "stop Android VPN service failed: " ++ err_chain err)
      end
    else mret ()
  else mret ().

(** The loop of [start_vpn_runtime], with the attempts left. *)
Fixpoint attach_loop (attempts : nat) (request_service_start local_udp_enabled : bool) : M (H + anyhow) :=
  match attempts with
  | O => mret (inr (anyhow_msg (str "Android VpnService did not become active in time")))
  | S attempts =>
      state ← query_vpn;
      if vs_active state then
        fd ← try_call pf_take_tun_fd;
        match fd with
        | inr err => mret (inr (add_context (str "failed to fetch TUN fd") err))
        | inl tun_fd =>
            if decide (0 ≤ tun_fd) then
              r ← tun_spawn (managed_vpn_tun_config local_udp_enabled) tun_fd;
              match r with
              | inl handle =>
                  log (str "Android system VPN started: TUN -> tun2socks -> local SOCKS -> hysteria-core");; mret (inl handle)
              | inr err => mret (inr (add_context (str "failed to spawn tun2socks runtime") err))
              end
            else attach_loop attempts request_service_start local_udp_enabled
        end
      else if negb request_service_start then mret (inr (anyhow_msg (str "Android VpnService is not active")))
      else attach_loop attempts request_service_start local_udp_enabled
  end.
Definition start_vpn_runtime (request_service_start local_udp_enabled : bool) : M (H + anyhow) :=
  r ← (if request_service_start then
         r ← try_call (pf_start_vpn_service LOCAL_SOCKS_HOST LOCAL_SOCKS_PORT);
         match r with
         | inl _ => log (str "requested Android VPN service start -> " ++ SOCKS_LISTEN);; mret None
         | inr err => mret (Some (add_context (str "failed to request Android VPN service start") err))
         end
       else mret None);
  match r with
  | Some err => mret (inr err)
  | None => attach_loop 20 request_service_start local_udp_enabled
  end.

(** [if let Some(task) = handle.take() { task.abort() }]. *)
Definition take_abort (get : Handles → option nat) (clear : Handles → Handles) : M unit :=
  k ← core_of;
  match get (k_handles k) with
  | Some id => modify (fun k => set_handles (clear (k_handles k)) k);; abort id
  | None => mret ()
  end.
Definition clear_local_socks (h : Handles) : Handles := mkHandles None (h_close_watch h) (h_transport_watch h) (h_health_probe h).
Definition clear_close_watch (h : Handles) : Handles := mkHandles (h_local_socks h) None (h_transport_watch h) (h_health_probe h).
Definition clear_transport_watch (h : Handles) : Handles := mkHandles (h_local_socks h) (h_close_watch h) None (h_health_probe h).
Definition clear_health_probe (h : Handles) : Handles := mkHandles (h_local_socks h) (h_close_watch h) (h_transport_watch h) None.

Definition stop_active_session (stop_local_socks stop_tun2socks stop_service gracefully_close : bool) : M unit :=
  take_abort h_close_watch clear_close_watch;;
  take_abort h_transport_watch clear_transport_watch;;
  take_abort h_health_probe clear_health_probe;;
  (if stop_tun2socks then stop_vpn_runtime stop_service else mret ());;
  (if stop_local_socks then take_abort h_local_socks clear_local_socks else mret ());;
  k ← core_of;
  match k_client k with
  | Some client =>
      modify (set_client None);;
      if gracefully_close then
        r ← try_call (pf_close client);
        match r with
        | inl _ => log (str "connection closed")
        | inr err => log (str "disconnect error: " ++ core_error_text err)
        end
      else mret ()
  | None => mret ()
  end.

Definition connect_client (form : FormState) : M ((C * UiStatus) + anyhow) :=
  w ← world_of;
  config ← result (client_config_of pf_parse_url pf_utf8_error pf_parse_duration (pf_to_socket_addrs w) (pf_load_root_certificates w) form);
  match config with
  | inr err => mret (inr err)
  | inl (config, local_udp_enabled) =>
      r ← try_call (pf_connect config);
      match r with
      | inr err => mret (inr (add_context (str "failed to connect hysteria client") (anyhow_core err)))
      | inl (client, info) =>
          mret (inl (client,
            mkStatus (str "Connected") (socket_addr_text (pf_remote_addr client))
              (str "Client connected. Local SOCKS is ready and Android system VPN can be started.")
              (hi_udp_enabled info) local_udp_enabled (hi_udp_enabled info && local_udp_enabled) (hi_tx info) None 0 0 0 0 SOCKS_LISTEN
              false false false))
      end
  end.

Definition bool_text (b : bool) : bytes := if b then str "true" else str "false".
Definition activate_connection (generation : Z) (reconnect_snapshot : FormState) (client : C) (status : UiStatus) : M UiStatus :=
  socks ← spawn TLocalSocks generation;
  close_watch ← spawn TCloseWatch generation;
  transport_watch ← spawn TTransportWatch generation;
  health_probe ← (if should_run_health_probe (us_phase status) then id ← spawn THealthProbe generation; mret (Some id) else mret None);
  modify (set_handles (mkHandles (Some socks) (Some close_watch) (Some transport_watch) health_probe));;
  status ← with_vpn_state status;
  w ← world_of;
  let status := apply_dashboard_metrics (with_local_socks status SOCKS_LISTEN)
                  (derive_dashboard_metrics None (pf_transport_snapshot w client) NANOS_PER_SEC) in
  modify (set_form (Some reconnect_snapshot));;
  modify (set_client (Some client));;
  emit (Status status);;
  log (str "connected: remote=" ++ us_remote status ++ str " udp_enabled=" ++ bool_text (us_udp_enabled status)
       ++ str " negotiated_tx=" ++ to_string (us_negotiated_tx status) ++ str "B/s");;
  log (str "local SOCKS runtime started on " ++ SOCKS_LISTEN);;
  mret status.

Definition schedule_reconnect (generation attempt : Z) : M unit :=
  modify (fun k => set_timers (k_timers k ++ [mkTimer (reconnect_delay attempt) generation attempt]) k).

Definition run_speedtest (client : C) (direction : SpeedDirection) : M (bytes + anyhow) :=
  r ← try_call (pf_tcp client SPEEDTEST_ADDR);
  match r with
  | inr err => mret (inr (add_context (str "failed to connect speedtest stream") (anyhow_core err)))
  | inl stream =>
      w ← world_of;
      let '(n, elapsed) := pf_clock w in
      match (match direction with Download => download 0 elapsed (ByTime n) | Upload => upload 0 (ByTime n) end) stream with
      | (_, None) => fun _ => Err ()
      | (_, Some Panic) => panics
      | (_, Some (Err e)) => mret (inr (anyhow_msg (er_text e)))
      | (_, Some (Ret summary)) =>
          mret (inl (direction_label direction ++ str " speedtest complete: bytes=" ++ to_string (ts_bytes summary) ++ str " elapsed="
            ++ pf_format_duration (ts_elapsed summary) ++ str " average=" ++ format_speed (ts_bytes summary) (ts_elapsed summary)))
      end
  end.
(** ** The commands *)

Definition next_generation : M unit := modify (fun k => set_generation (as_u64 (k_generation k + 1)) k).

Definition handle_connect (form : FormState) : M unit :=
  next_generation;;
  modify (set_desired false);;
  modify (set_form None);;
  stop_active_session true true true true;;
  emit_status (status_of (str "Connecting") (str "Connecting to " ++ fm_server form ++ str "..."));;
  log (str "connecting to " ++ trim (fm_server form));;
  k ← core_of;
  r ← connect_client form;
  match r with
  | inl (client, status) =>
      status ← activate_connection (k_generation k) form client status;
      modify (set_status status)
  | inr err =>
      emit_status (status_of (str "Error") (err_text err));;
      log (str "connect failed: " ++ err_chain err)
  end.

Definition handle_start_managed_vpn (form : FormState) : M unit :=
  next_generation;;
  modify (set_desired true);;
  modify (set_form (Some form));;
  stop_active_session true true false true;;
  emit_status (status_of (str "Starting VPN")
    (str "Requesting Android system VPN and managed runtime for " ++ fm_server form ++ str "..."));;
  log (str "requesting Android system VPN start for " ++ trim (fm_server form));;
  r ← try_call (pf_start_managed_vpn form LOCAL_SOCKS_HOST LOCAL_SOCKS_PORT);
  match r with
  | inl _ =>
      assign_status (status_of (str "Starting VPN") (str "Android system VPN requested. The service will own connect/reconnect."))
  | inr err =>
      modify (set_desired false);;
      modify (set_form None);;
      assign_status (status_of (str "Error") (err_text err));;
      log (str "managed Android VPN start failed: " ++ err_chain err)
  end.

Definition handle_managed_connect (form : FormState) : M unit :=
  next_generation;;
  modify (set_desired true);;
  modify (set_form (Some form));;
  stop_active_session true true false true;;
  emit_status (status_of (str "Connecting") (str "Android VpnService is starting managed runtime for " ++ fm_server form ++ str "..."));;
  log (str "Android VpnService is starting managed runtime for " ++ trim (fm_server form));;
  k ← core_of;
  r ← connect_client form;
  match r with
  | inl (client, status) =>
      status ← activate_connection (k_generation k) form client status;
      stop_vpn_runtime false;;
      r ← start_vpn_runtime false (fm_local_udp_enabled form);
      match r with
      | inl handle =>
          modify (set_tun (Some handle));;
          assign_status (with_detail status
            (str "Android VpnService now owns the managed runtime: TUN -> tun2socks -> local SOCKS -> hysteria-core"))
      | inr err =>
          log (str "managed runtime connected but failed to attach Android VPN shell: " ++ err_chain err);;
          assign_status (with_detail status (str "Managed runtime connected, but Android VPN shell attach failed: " ++ err_text err))
      end
  | inr err =>
      assign_status (status_of (str "Error") (err_text err));;
      log (str "managed runtime connect failed: " ++ err_chain err)
  end.

Definition handle_disconnect : M unit :=
  next_generation;;
  modify (set_desired false);;
  modify (set_form None);;
  k ← core_of;
  (match k_client k with None => log (str "disconnect requested with no active connection") | Some _ => mret () end);;
  stop_active_session true true true true;;
  assign_status status_default.

Definition handle_speedtest (direction : SpeedDirection) : M unit :=
  k ← core_of;
  match k_client k with
  | None => log (str "speedtest requested with no active connection")
  | Some client =>
      emit (Status (with_phase_detail (k_status k) (str "Speedtest")
        (str "Running " ++ direction_label direction ++ str " speedtest...")));;
      log (str "running " ++ direction_label direction ++ str " speedtest");;
      r ← run_speedtest client direction;
      match r with
      | inl summary => log summary;; emit (Status (k_status k))
      | inr err =>
          log (direction_label direction ++ str " speedtest failed: " ++ err_chain err);;
          emit (Status (with_phase_detail (k_status k) (str "Error") (err_text err)))
      end
  end.

Definition handle_request_vpn_permission : M unit :=
  r ← try_call pf_request_permission;
  match r with
  | inl _ => log (str "requested Android VPN permission");; k ← core_of; assign_status (k_status k)
  | inr err => log (str "request VPN permission failed: " ++ err_chain err)
  end.

Definition handle_stop_vpn_shell : M unit :=
  modify (set_desired false);;
  stop_vpn_runtime true;;
  k ← core_of;
  assign_status (with_detail (k_status k) (str "Stopping Android system VPN...")).

Definition handle_service_stopped : M unit :=
  next_generation;;
  modify (set_desired false);;
  modify (set_form None);;
  stop_active_session true true false true;;
  assign_status status_default;;
  log (str "Android VpnService stopped; managed runtime shut down").

Definition handle_connection_closed (generation : Z) (reason : bytes) : M unit :=
  k ← core_of;
  if decide (generation ≠ k_generation k ∨ k_client k = None) then mret ()
  else
    let restart_vpn := k_desired k in
    let preserve_tun2socks := should_preserve_tun2socks_on_connection_loss restart_vpn in
    log (str "connection closed unexpectedly: " ++ reason);;
    stop_active_session true (negb preserve_tun2socks) false false;;
    assign_status (lost_status (k_status k)
      (str "Connection lost: " ++ reason
       ++ if restart_vpn then str ". Reconnecting soon while keeping Android VPN shell alive..." else str ". Reconnecting soon..."));;
    schedule_reconnect generation 0.

Definition handle_reconnect (generation attempt : Z) : M unit :=
  k ← core_of;
  if decide (generation ≠ k_generation k) then mret ()
  else
    match k_form k with
    | None => mret ()
    | Some form =>
        next ← u32_succ checks attempt;
        emit_status (lost_status (k_status k)
          (str "Reconnect attempt " ++ to_string next ++ str " to " ++ trim (fm_server form) ++ str "..."));;
        log (str "reconnect attempt " ++ to_string next ++ str " -> " ++ trim (fm_server form));;
        r ← connect_client form;
        match r with
        | inl (client, status) =>
            status ← activate_connection (k_generation k) form client status;
            modify (set_status status);;
            log (str "automatic reconnect succeeded");;
            if should_restart_tun2socks_after_reconnect (k_desired k) (bool_decide (is_Some (k_tun k))) then
              r ← start_vpn_runtime false (fm_local_udp_enabled form);
              match r with
              | inl handle =>
                  modify (set_tun (Some handle));;
                  modify (set_status (with_detail status
                    (str "Automatic reconnect restored Android system VPN: TUN -> tun2socks -> local SOCKS -> hysteria-core")))
              | inr err =>
                  log (str "automatic reconnect restored client but failed to restart Android VPN: " ++ err_chain err);;
                  modify (set_status (with_detail status (str "Reconnected, but Android system VPN restart failed: " ++ err_text err)))
              end
            else if k_desired k then
              log (str "automatic reconnect preserved Android VPN shell and local DNS path");;
              assign_status (with_detail status (str "Automatic reconnect preserved Android system VPN shell and local DNS path"))
            else mret ()
        | inr err =>
            let delay := reconnect_delay next in
            log (str "reconnect attempt " ++ to_string next ++ str " failed: " ++ err_chain err ++ str "; retrying in " ++ to_string delay ++ str "s");;
            assign_status (lost_status (k_status k)
              (str "Reconnect attempt " ++ to_string next ++ str " failed: " ++ err_text err ++ str ". Retrying in " ++ to_string delay ++ str "s."));;
            schedule_reconnect generation next
        end
    end.

Definition handle_transport_pulse (generation : Z) (metrics : DashboardMetrics) : M unit :=
  k ← core_of;
  if decide (generation ≠ k_generation k ∨ k_client k = None) then mret ()
  else modify (set_status (apply_dashboard_metrics (k_status k) metrics));; emit (Transport metrics).

Definition handle_command (command : AppCommand) : M unit :=
  match command with
  | Connect form => handle_connect form
  | StartManagedVpn form => handle_start_managed_vpn form
  | ManagedConnect form => handle_managed_connect form
  | Disconnect => handle_disconnect
  | Speedtest direction => handle_speedtest direction
  | RequestVpnPermission => handle_request_vpn_permission
  | StopVpnShell => handle_stop_vpn_shell
  | ServiceStopped => handle_service_stopped
  | ConnectionClosed generation reason => handle_connection_closed generation reason
  | Reconnect generation attempt => handle_reconnect generation attempt
  | TransportPulse generation metrics => handle_transport_pulse generation metrics
  end.
End controller.

(** ** Background tasks *)

(** The loop of [spawn_health_probe_watcher] on the results of its checks: the
    reason it reports once it ends. *)
Fixpoint health_probe_loop (failures : Z) (checks : list (outcome CoreError unit)) : option bytes :=
  match checks with
  | [] => None
  | Ret _ :: checks => health_probe_loop 0 checks
  | Err err :: checks =>
      let failures := Z.min u32_max (failures + 1) in
      if decide (HEALTH_PROBE_FAILURE_THRESHOLD ≤ failures) then Some (str "health probe failed: " ++ core_error_text err)
      else health_probe_loop failures checks
  | Panic :: _ => None
  end.

(** The loop of [spawn_transport_metrics_watcher] on the samples it takes. *)
Fixpoint transport_metrics_loop (previous : option TransportSample) (samples : list TransportSample) : list DashboardMetrics :=
  match samples with
  | [] => []
  | current :: samples => derive_dashboard_metrics previous current NANOS_PER_SEC :: transport_metrics_loop (Some current) samples
  end.

(** What [spawn_local_socks] does before it serves: the settings of the proxy
    and the events sent. *)
Definition local_socks_startup (add_root : bytes → outcome bytes unit) (roots : outcome anyhow (list bytes)) (listen : bytes)
    (local_udp_enabled : bool) : LocalSocksConfig * list AppEvent :=
  let '(dns_proxy, events) :=
    match build_managed_vpn_dns_proxy add_root roots true with
    | Ret proxy => (Some proxy, [])
    | Err err => (None, [Log (str "managed VPN DNS proxy init failed: " ++ err_chain err)])
    | Panic => (None, [])
    end in
  let form := mkForm [] [] [] [] [] [] [] [] [] [] [] [] [] [] [] local_udp_enabled false false in
  (build_local_socks_config listen dns_proxy form, events).

(** ** The system *)

(** The queue of commands, the SOCKS connections in progress by the generation
    of the proxy that accepted them, which survive it, and the number of
    commands handled. *)
Record System (W C H : Type) := mkSystem {
  sy_state : St W C H; sy_queue : list AppCommand; sy_connections : list Z; sy_handled : Z
}.
Arguments mkSystem {W C H}.
Arguments sy_state {W C H}.
Arguments sy_queue {W C H}.
Arguments sy_connections {W C H}.
Arguments sy_handled {W C H}.

Definition is_user_command (c : AppCommand) : bool :=
  match c with ConnectionClosed _ _ | Reconnect _ _ | TransportPulse _ _ => false | _ => true end.

Definition core_default {C H} (status : UiStatus) : Core C H :=
  mkCore None no_handles None status 0 None false [] ∅ 0.

Section system.
Context {W C H : Type} `{!Platform W C H} (checks : bool).
Implicit Types y : System W C H.

Definition update_core (f : Core C H → Core C H) (s : St W C H) : St W C H := mkSt (f (st_core s)) (st_world s) (st_events s).
Definition enqueue (c : AppCommand) (y : System W C H) : System W C H :=
  mkSystem (sy_state y) (sy_queue y ++ [c]) (sy_connections y) (sy_handled y).
(** A task ends. *)
Definition finish (id : nat) (y : System W C H) : System W C H :=
  mkSystem (update_core (fun k => set_tasks (delete id (k_tasks k)) (k_next k) k) (sy_state y)) (sy_queue y) (sy_connections y) (sy_handled y).
Definition task_of y (id : nat) : option Task := k_tasks (st_core (sy_state y)) !! id.

(** What one thread does between two suspensions. A command is handled in one
    step: what a task sends meanwhile is queued behind it in any case. *)
Inductive step : System W C H → System W C H → Prop :=
| step_user y c : is_user_command c = true → step y (enqueue c y)
| step_world y w : step y (mkSystem (mkSt (st_core (sy_state y)) w (st_events (sy_state y))) (sy_queue y) (sy_connections y) (sy_handled y))
| step_event y e : step y (mkSystem (mkSt (st_core (sy_state y)) (st_world (sy_state y)) (st_events (sy_state y) ++ [e]))
    (sy_queue y) (sy_connections y) (sy_handled y))
| step_close_watch y id g a reason : task_of y id = Some (mkTask TCloseWatch g a) → step y (finish id (enqueue (ConnectionClosed g reason) y))
| step_health_probe y id g a results reason :
    task_of y id = Some (mkTask THealthProbe g a) → health_probe_loop 0 results = Some reason →
    step y (finish id (enqueue (ConnectionClosed g reason) y))
| step_transport_watch y id g a metrics :
    task_of y id = Some (mkTask TTransportWatch g a) → step y (enqueue (TransportPulse g metrics) y)
| step_accept y id g a :
    task_of y id = Some (mkTask TLocalSocks g a) → step y (mkSystem (sy_state y) (sy_queue y) (g :: sy_connections y) (sy_handled y))
| step_notify y g reason : g ∈ sy_connections y → step y (enqueue (ConnectionClosed g reason) y)
| step_connection_end y l g r :
    sy_connections y = l ++ g :: r → step y (mkSystem (sy_state y) (sy_queue y) (l ++ r) (sy_handled y))
| step_task_end y id t : task_of y id = Some t → tk_aborted t = true ∨ tk_kind t = TLocalSocks → step y (finish id y)
| step_timer y l t r :
    k_timers (st_core (sy_state y)) = l ++ t :: r →
    step y (enqueue (Reconnect (tm_generation t) (tm_attempt t))
      (mkSystem (update_core (set_timers (l ++ r)) (sy_state y)) (sy_queue y) (sy_connections y) (sy_handled y)))
| step_handle y c q s :
    sy_queue y = c :: q → handle_command checks c (sy_state y) = Ret ((), s) →
    step y (mkSystem s q (sy_connections y) (sy_handled y + 1)).

Definition initial y : Prop :=
  ∃ w e v, y = mkSystem (mkSt (core_default (set_vpn_state v status_default)) w e) [] [] 0.
Definition reachable y : Prop := ∃ y0, initial y0 ∧ rtc step y0 y.
End system.
