(* ===== verification/ControllerSafety.v ===== *)
(** * What the controller guarantees

    The handlers of [Controller] implement an abstract controller on its
    variables, timers and tasks; on it rest the invariants of the system: what
    runs, what is pending, and what a disconnection means. *)
From S2P Require Import Prelude Errors RustStr Float Limit Net Quic Client Config Io SpeedTest Anyhow Dns LocalSocks MobileForm MobileStatus Controller.
Local Open Scope Z_scope.

(** ** Running a handler *)

Section exec.
Context {W C H : Type}.
Implicit Types s : St W C H.

Lemma M_bind_Ret {A B} (m : M W C H A) (f : A → M W C H B) s b s' :
  (m ≫= f) s = Ret (b, s') → ∃ a s1, m s = Ret (a, s1) ∧ f a s1 = Ret (b, s').
Proof. unfold mbind, M_bind. destruct (m s) as [[a s1]| |]; naive_solver. Qed.

(** A computation that leaves the variables alone. *)
Definition quiet {A} (m : M W C H A) : Prop := ∀ s a s', m s = Ret (a, s') → st_core s' = st_core s.
Lemma quiet_ret {A} (a : A) : quiet (mret a).
Proof. by intros s ? ? [= <- <-]. Qed.
Lemma quiet_bind {A B} (m : M W C H A) (f : A → M W C H B) : quiet m → (∀ a, quiet (f a)) → quiet (m ≫= f).
Proof. intros Hm Hf s b s' (a & s1 & H1 & H2)%M_bind_Ret. by rewrite (Hf _ _ _ _ H2), (Hm _ _ _ H1). Qed.
Lemma quiet_emit e : quiet (emit e).
Proof. by intros s ? ? [= <- <-]. Qed.
Lemma quiet_log t : quiet (log t).
Proof. apply quiet_emit. Qed.
Lemma quiet_core_of : quiet core_of.
Proof. by intros s ? ? [= <- <-]. Qed.
Lemma quiet_world_of : quiet world_of.
Proof. by intros s ? ? [= <- <-]. Qed.
Lemma quiet_panics {A} : quiet (A:=A) panics.
Proof. by intros s ? ?. Qed.
Lemma quiet_call {A} (f : W → W * A) : quiet (call f).
Proof. intros s a s'. unfold call. destruct (f (st_world s)). by intros [= <- <-]. Qed.
Lemma quiet_result {E A} (r : outcome E A) : quiet (result r).
Proof. destruct r; [apply quiet_ret..|apply quiet_panics]. Qed.
Lemma quiet_try_call {E A} (f : W → W * outcome E A) : quiet (try_call f).
Proof. apply quiet_bind; [apply quiet_call|]. intros. apply quiet_result. Qed.
Lemma quiet_u32_succ checks a : quiet (u32_succ checks a).
Proof. unfold u32_succ. repeat case_match; [apply quiet_ret|apply quiet_panics|apply quiet_ret]. Qed.

Lemma modify_Ret f s a s' : modify f s = Ret (a, s') → st_core s' = f (st_core s).
Proof. by intros [= <- <-]. Qed.
Lemma core_of_Ret s k s' : core_of s = Ret (k, s') → k = st_core s ∧ s' = s.
Proof. by intros [= <- <-]. Qed.
End exec.
#[export] Hint Resolve quiet_ret quiet_emit quiet_log quiet_core_of quiet_world_of quiet_panics quiet_call quiet_result
  quiet_try_call quiet_u32_succ : quiet.

Ltac quiet_step :=
  repeat first
    [ solve [auto with quiet]
    | simple apply quiet_bind; [solve [auto with quiet]|intros ?]
    | case_match ].

Section exec_platform.
Context {W C H : Type} `{!Platform W C H} (checks : bool).
Implicit Types s : St W C H.

Lemma quiet_query_vpn : quiet (query_vpn (W:=W) (C:=C) (H:=H)).
Proof. unfold query_vpn. quiet_step. Qed.
Hint Resolve quiet_query_vpn : quiet.
Lemma quiet_with_vpn_state status : quiet (with_vpn_state (W:=W) (C:=C) (H:=H) status).
Proof. unfold with_vpn_state. quiet_step. Qed.
Hint Resolve quiet_with_vpn_state : quiet.
Lemma quiet_emit_status status : quiet (emit_status (W:=W) (C:=C) (H:=H) status).
Proof. unfold emit_status. quiet_step. Qed.
Lemma quiet_tun_spawn config fd : quiet (tun_spawn (W:=W) (C:=C) (H:=H) config fd).
Proof. unfold tun_spawn. quiet_step. Qed.
Lemma quiet_tun_stop h : quiet (tun_stop (W:=W) (C:=C) (H:=H) h).
Proof. unfold tun_stop. quiet_step. Qed.
Hint Resolve quiet_emit_status quiet_tun_spawn quiet_tun_stop : quiet.
Lemma quiet_attach_loop n r u : quiet (attach_loop (W:=W) (C:=C) (H:=H) n r u).
Proof.
  induction n as [|n IH]; cbn [attach_loop]; [auto with quiet|]. apply quiet_bind; [auto with quiet|]. intros state.
  destruct (vs_active state); [|destruct r; cbn [negb]; auto with quiet]. apply quiet_bind; [auto with quiet|].
  intros [fd|]; [|auto with quiet]. case_decide; [|exact IH]. quiet_step.
Qed.
Hint Resolve quiet_attach_loop : quiet.
Lemma quiet_start_vpn_runtime r u : quiet (start_vpn_runtime (W:=W) (C:=C) (H:=H) r u).
Proof.
  unfold start_vpn_runtime. simple apply quiet_bind; [|intros; quiet_step]. quiet_step.
Qed.
Lemma quiet_connect_client form : quiet (connect_client (W:=W) (C:=C) (H:=H) form).
Proof. unfold connect_client. quiet_step. Qed.
Lemma quiet_run_speedtest c d : quiet (run_speedtest (W:=W) (C:=C) (H:=H) c d).
Proof.
  unfold run_speedtest. apply quiet_bind; [auto with quiet|]. intros [stream|]; [|auto with quiet].
  apply quiet_bind; [auto with quiet|]. intros w. destruct (pf_clock w) as [n elapsed].
  match goal with |- context [match ?t with (_, _) => _ end] => destruct t as [? [[| |]|]] end; auto with quiet. by intros ???.
Qed.
End exec_platform.
#[export] Hint Resolve quiet_query_vpn quiet_with_vpn_state quiet_emit_status quiet_tun_spawn quiet_tun_stop quiet_start_vpn_runtime
  quiet_connect_client quiet_run_speedtest : quiet.

(** ** The abstract controller *)

Definition abort_opt (o : option nat) (tasks : gmap nat Task) : gmap nat Task :=
  match o with Some id => alter cancel id tasks | None => tasks end.

Section abstract.
Context {C H : Type}.
Implicit Types k : Core C H.

(** The session is over: nothing is owned any more, and all its tasks are
    aborted. *)
Definition stopped (stop_tun : bool) k : Core C H :=
  let h := k_handles k in
  mkCore None no_handles (if stop_tun then None else k_tun k) (k_status k) (k_generation k) (k_form k) (k_desired k) (k_timers k)
    (abort_opt (h_local_socks h) (abort_opt (h_health_probe h) (abort_opt (h_transport_watch h) (abort_opt (h_close_watch h) (k_tasks k)))))
    (k_next k).

(** A session with its four tasks begins. *)
Definition activated (generation : Z) (form : FormState) (client : C) k : Core C H :=
  let n := k_next k in
  mkCore (Some client) (mkHandles (Some n) (Some (S n)) (Some (S (S n))) (Some (S (S (S n))))) (k_tun k) (k_status k) (k_generation k)
    (Some form) (k_desired k) (k_timers k)
    (<[S (S (S n)) := mkTask THealthProbe generation false]> (<[S (S n) := mkTask TTransportWatch generation false]>
       (<[S n := mkTask TCloseWatch generation false]> (<[n := mkTask TLocalSocks generation false]> (k_tasks k)))))
    (S (S (S (S n)))).

(** A command of the user or of the service: a new generation, with what is
    wanted from now on, and no session. *)
Definition renewed (desired : bool) (form : option FormState) k : Core C H :=
  stopped true (set_form form (set_desired desired (set_generation (as_u64 (k_generation k + 1)) k))).
Definition with_timer (generation attempt : Z) k : Core C H :=
  set_timers (k_timers k ++ [mkTimer (reconnect_delay attempt) generation attempt]) k.
(** [attempt + 1] where it does not panic. *)
Definition next_attempt (attempt : Z) : Z := if decide (attempt + 1 ≤ u32_max) then attempt + 1 else as_u32 (attempt + 1).

Definition CONNECTED : bytes := str "Connected".
Definition RECONNECTING : bytes := str "Reconnecting".

(** What handling a command may do to the variables. *)
Inductive effect : AppCommand → Core C H → Core C H → Prop :=
| eff_connected form client status k :
    us_phase status = CONNECTED →
    effect (Connect form) k
      (set_status status (activated (as_u64 (k_generation k + 1)) form client (renewed false None k)))
| eff_connect_failed form k : effect (Connect form) k (renewed false None k)
| eff_vpn_requested form status k :
    us_phase status = str "Starting VPN" → effect (StartManagedVpn form) k (set_status status (renewed true (Some form) k))
| eff_vpn_refused form status k :
    us_phase status = str "Error" →
    effect (StartManagedVpn form) k (set_status status (set_form None (set_desired false (renewed true (Some form) k))))
| eff_managed_connected form client status tun k :
    us_phase status = CONNECTED →
    effect (ManagedConnect form) k
      (set_status status (set_tun tun (activated (as_u64 (k_generation k + 1)) form client (renewed true (Some form) k))))
| eff_managed_failed form status k :
    us_phase status = str "Error" → effect (ManagedConnect form) k (set_status status (renewed true (Some form) k))
| eff_disconnected c status k :
    c = Disconnect ∨ c = ServiceStopped → us_phase status = str "Disconnected" → effect c k (set_status status (renewed false None k))
| eff_speedtest d k : effect (Speedtest d) k k
| eff_permission status k : us_phase status = us_phase (k_status k) → effect RequestVpnPermission k (set_status status k)
| eff_permission_failed k : effect RequestVpnPermission k k
| eff_shell_stopped status k :
    us_phase status = us_phase (k_status k) → effect StopVpnShell k (set_status status (set_tun None (set_desired false k)))
| eff_stale_closed g reason k : g ≠ k_generation k ∨ k_client k = None → effect (ConnectionClosed g reason) k k
| eff_lost g reason status k :
    g = k_generation k → k_client k ≠ None → us_phase status = RECONNECTING →
    effect (ConnectionClosed g reason) k (with_timer g 0 (set_status status (stopped (negb (k_desired k)) k)))
| eff_stale_reconnect g attempt k : g ≠ k_generation k ∨ k_form k = None → effect (Reconnect g attempt) k k
| eff_reconnected g attempt form client status tun k :
    g = k_generation k → k_form k = Some form → us_phase status = CONNECTED → (k_tun k ≠ None → tun = k_tun k) → (tun ≠ k_tun k → k_desired k = true) →
    effect (Reconnect g attempt) k (set_status status (set_tun tun (activated g form client k)))
| eff_reconnect_failed g attempt form status k :
    g = k_generation k → k_form k = Some form → us_phase status = RECONNECTING →
    effect (Reconnect g attempt) k (with_timer g (next_attempt attempt) (set_status status k))
| eff_stale_pulse g m k : g ≠ k_generation k ∨ k_client k = None → effect (TransportPulse g m) k k
| eff_pulse g m k :
    g = k_generation k → k_client k ≠ None → effect (TransportPulse g m) k (set_status (apply_dashboard_metrics (k_status k) m) k).
End abstract.

(** ** The handlers implement it *)

(** Splits the run [H] of a sequence of steps, and keeps what each does to the
    variables. *)
Ltac exec H :=
  let a := fresh "a" in let s1 := fresh "t" in let E := fresh "E" in
  apply M_bind_Ret in H as (a & s1 & E & H);
  first
    [ apply core_of_Ret in E as [-> ->]
    | apply modify_Ret in E
    | match type of E with
      | ?m _ = _ => let Q := fresh "Q" in assert (quiet m) as Q by auto with quiet; apply Q in E; clear Q
      end
    | idtac ].

Ltac by_quiet R :=
  match type of R with
  | ?m _ = _ => let Q := fresh "Q" in assert (quiet m) as Q by quiet_step; apply Q in R; clear Q
  end.

Section refine.
Context {W C H : Type} `{!Platform W C H} (checks : bool).
Implicit Types s : St W C H.

Lemma take_abort_Ret get clear s a s' :
  (∀ h, get h = None → clear h = h) →
  take_abort get clear s = Ret (a, s') →
  st_core s' = set_tasks (abort_opt (get (k_handles (st_core s))) (k_tasks (st_core s))) (k_next (st_core s))
                 (set_handles (clear (k_handles (st_core s))) (st_core s)).
Proof.
  intros Hclear R. unfold take_abort in R. exec R. destruct (get (k_handles (st_core s))) as [id|] eqn:Eg.
  - exec R. apply modify_Ret in R. by rewrite R, E.
  - injection R as _ <-. rewrite Hclear by done. by destruct (st_core s).
Qed.

Lemma stop_vpn_runtime_Ret sv s a s' : stop_vpn_runtime sv s = Ret (a, s') → st_core s' = set_tun None (st_core s).
Proof.
  intros R. unfold stop_vpn_runtime in R. exec R. apply M_bind_Ret in R as (? & s1 & R1 & R2).
  assert (st_core s1 = set_tun None (st_core s)) as <-.
  { destruct (k_tun (st_core s)) as [h|] eqn:Et.
    - exec R1. exec R1. by_quiet R1. by rewrite R1, E0, E.
    - injection R1 as _ <-. destruct (st_core s). cbn in *. by subst. }
  destruct sv; [|by injection R2 as _ <-]. exec R2. rewrite <- E. destruct (vs_available a0); [|by injection R2 as _ <-].
  exec R2. rewrite <- E0. by by_quiet R2.
Qed.

Lemma stop_active_session_Ret stop_tun sv graceful s a s' :
  stop_active_session true stop_tun sv graceful s = Ret (a, s') → st_core s' = stopped stop_tun (st_core s).
Proof.
  intros R. unfold stop_active_session in R.
  do 3 (apply M_bind_Ret in R as (? & ? & ?R & R)).
  apply take_abort_Ret in R0; [|by intros []; cbn; intros ->]. apply take_abort_Ret in R1; [|by intros []; cbn; intros ->]. apply take_abort_Ret in R2; [|by intros []; cbn; intros ->].
  apply M_bind_Ret in R as (? & s3 & R3 & R). apply M_bind_Ret in R as (? & s4 & R4 & R).
  apply take_abort_Ret in R4; [|by intros []; cbn; intros ->].
  assert (st_core s3 = (if stop_tun then set_tun None else id) (st_core x4)) as R3'.
  { destruct stop_tun; [by apply stop_vpn_runtime_Ret in R3|by injection R3 as _ <-]. }
  clear R3. exec R. assert (st_core s' = set_client None (st_core s4)) as ->.
  { destruct (k_client (st_core s4)) as [c|] eqn:Ec.
    - exec R. rewrite <- E. destruct graceful; [|by injection R as _ <-]. exec R. rewrite <- E0. by by_quiet R.
    - injection R as _ <-. destruct (st_core s4). cbn in *. by subst. }
  rewrite R4, R3', R2, R1, R0. destruct stop_tun; reflexivity.
Qed.

Lemma spawn_Ret kind g s id s' :
  spawn kind g s = Ret (id, s') →
  id = k_next (st_core s) ∧
  st_core s' = set_tasks (<[id := mkTask kind g false]> (k_tasks (st_core s))) (S (k_next (st_core s))) (st_core s).
Proof. by intros [= <- <-]. Qed.

Lemma with_vpn_state_Ret status s status' s' :
  with_vpn_state status s = Ret (status', s') → us_phase status' = us_phase status ∧ st_core s' = st_core s.
Proof.
  intros R. split; [|by apply quiet_with_vpn_state in R]. unfold with_vpn_state in R.
  apply M_bind_Ret in R as (v & s1 & _ & R). by injection R as <- _.
Qed.
Lemma assign_status_Ret status s a s' :
  assign_status status s = Ret (a, s') → ∃ status', us_phase status' = us_phase status ∧ st_core s' = set_status status' (st_core s).
Proof.
  intros R. unfold assign_status in R. apply M_bind_Ret in R as (status' & s1 & R1 & R). apply with_vpn_state_Ret in R1 as [Hp Hs].
  exec R. apply quiet_emit in R. exists status'. split; [done|]. by rewrite R, E, Hs.
Qed.
Lemma connect_client_Ret form s client status s' : connect_client form s = Ret (inl (client, status), s') → us_phase status = CONNECTED.
Proof.
  intros R. unfold connect_client in R. apply M_bind_Ret in R as (w & s1 & _ & R). apply M_bind_Ret in R as (config & s2 & _ & R).
  destruct config as [[config udp]|]; [|done]. apply M_bind_Ret in R as (r & s3 & _ & R). destruct r as [[c info]|]; [|done].
  by injection R as _ <-.
Qed.
Lemma activate_connection_Ret g form client status s status' s' :
  us_phase status = CONNECTED → activate_connection g form client status s = Ret (status', s') →
  us_phase status' = CONNECTED ∧ st_core s' = activated g form client (st_core s).
Proof.
  intros Hphase R. unfold activate_connection in R.
  do 3 (apply M_bind_Ret in R as (? & ? & ?R & R)). apply spawn_Ret in R0 as [-> R0], R1 as [-> R1], R2 as [-> R2].
  rewrite Hphase in R. change (should_run_health_probe CONNECTED) with true in R. cbn match in R.
  apply M_bind_Ret in R as (health & s4 & R3 & R). apply M_bind_Ret in R3 as (id & s3 & R3 & R3'). injection R3' as <- <-.
  apply spawn_Ret in R3 as [-> R3]. exec R. apply M_bind_Ret in R as (status1 & s5 & R4 & R). apply with_vpn_state_Ret in R4 as [Hp R4].
  exec R. cbn zeta in R. do 5 exec R. injection R as <- <-. split; [cbn; by rewrite Hp|].
  rewrite E5, E4, E3, E2, E1, E0, R4, E, R3, R2, R1, R0. done.
Qed.

(** The steps of the commands that start afresh. *)
Lemma renew_Ret {A} desired form sv graceful (m : M W C H A) s a s' :
  (next_generation;; modify (set_desired desired);; modify (set_form form);; stop_active_session true true sv graceful;; m) s = Ret (a, s') →
  ∃ s1, st_core s1 = renewed desired form (st_core s) ∧ m s1 = Ret (a, s').
Proof.
  intros R. unfold next_generation in R. do 3 exec R. apply M_bind_Ret in R as (? & s4 & R4 & R). apply stop_active_session_Ret in R4.
  exists s4. split; [|done]. by rewrite R4, E1, E0, E.
Qed.

Lemma handle_connect_refines form s a s' : handle_connect form s = Ret (a, s') → effect (Connect form) (st_core s) (st_core s').
Proof.
  intros R. apply renew_Ret in R as (s1 & E & R). exec R. exec R. exec R. apply M_bind_Ret in R as (r & s2 & R1 & R).
  pose proof (quiet_connect_client _ _ _ _ R1) as Q. destruct r as [[client status]|err].
  - apply connect_client_Ret in R1. apply M_bind_Ret in R as (status' & s3 & R2 & R). apply activate_connection_Ret in R2 as [Hp R2]; [|done].
    apply modify_Ret in R. rewrite R, R2, Q, E1, E0, E. by apply (eff_connected form client status').
  - by_quiet R. rewrite R, Q, E1, E0, E. apply eff_connect_failed.
Qed.

Lemma handle_start_managed_vpn_refines form s a s' :
  handle_start_managed_vpn form s = Ret (a, s') → effect (StartManagedVpn form) (st_core s) (st_core s').
Proof.
  intros R. apply renew_Ret in R as (s1 & E & R). exec R. exec R. exec R. rename a2 into r. destruct r.
  - apply assign_status_Ret in R as (status & Hp & ->). rewrite E2, E1, E0, E. by apply eff_vpn_requested.
  - exec R. exec R. apply M_bind_Ret in R as (? & s2 & R1 & R). apply assign_status_Ret in R1 as (status & Hp & R1).
    apply quiet_log in R. rewrite R, R1, E4, E3, E2, E1, E0, E. by apply eff_vpn_refused.
Qed.

Lemma handle_managed_connect_refines form s a s' :
  handle_managed_connect form s = Ret (a, s') → effect (ManagedConnect form) (st_core s) (st_core s').
Proof.
  intros R. apply renew_Ret in R as (s1 & E & R). exec R. exec R. exec R. apply M_bind_Ret in R as (r & s2 & R1 & R).
  pose proof (quiet_connect_client _ _ _ _ R1) as Q. destruct r as [[client status]|err].
  - apply connect_client_Ret in R1. apply M_bind_Ret in R as (status' & s3 & R2 & R). apply activate_connection_Ret in R2 as [Hp R2]; [|done].
    apply M_bind_Ret in R as (? & s4 & R3 & R). apply stop_vpn_runtime_Ret in R3. exec R. match goal with r : H + _ |- _ => destruct r as [h|err] end.
    + exec R. apply assign_status_Ret in R as (status2 & Hp2 & ->). rewrite E3, E2, R3, R2, Q, E1, E0, E.
      apply (eff_managed_connected form client status2 (Some h)). by rewrite Hp2.
    + exec R. apply assign_status_Ret in R as (status2 & Hp2 & ->). rewrite E3, E2, R3, R2, Q, E1, E0, E.
      apply (eff_managed_connected form client status2 None). by rewrite Hp2.
  - apply M_bind_Ret in R as (? & s3 & R2 & R). apply assign_status_Ret in R2 as (status & Hp & R2). apply quiet_log in R.
    rewrite R, R2, Q, E1, E0, E. by apply eff_managed_failed.
Qed.

Lemma handle_disconnect_refines s a s' : handle_disconnect s = Ret (a, s') → effect Disconnect (st_core s) (st_core s').
Proof.
  intros R. unfold handle_disconnect, next_generation in R. do 3 exec R. exec R. apply M_bind_Ret in R as (? & s1 & R0 & R). by_quiet R0.
  apply M_bind_Ret in R as (? & s2 & R1 & R). apply stop_active_session_Ret in R1.
  apply assign_status_Ret in R as (status & Hp & ->). rewrite R1, R0, E1, E0, E. apply eff_disconnected; [by left|done].
Qed.
Lemma handle_service_stopped_refines s a s' : handle_service_stopped s = Ret (a, s') → effect ServiceStopped (st_core s) (st_core s').
Proof.
  intros R. apply renew_Ret in R as (s1 & E & R). apply M_bind_Ret in R as (? & s2 & R1 & R).
  apply assign_status_Ret in R1 as (status & Hp & R1). apply quiet_log in R. rewrite R, R1, E. apply eff_disconnected; [by right|done].
Qed.
Lemma handle_speedtest_refines d s a s' : handle_speedtest d s = Ret (a, s') → effect (Speedtest d) (st_core s) (st_core s').
Proof.
  intros R. assert (quiet (handle_speedtest (W:=W) (C:=C) (H:=H) d)) as Q by (unfold handle_speedtest; quiet_step).
  apply Q in R. rewrite R. apply eff_speedtest.
Qed.
Lemma handle_request_vpn_permission_refines s a s' :
  handle_request_vpn_permission s = Ret (a, s') → effect RequestVpnPermission (st_core s) (st_core s').
Proof.
  intros R. unfold handle_request_vpn_permission in R. exec R. destruct a0.
  - exec R. exec R. apply assign_status_Ret in R as (status & Hp & ->). rewrite E0, E. apply eff_permission. by rewrite Hp, E0, E.
  - apply quiet_log in R. rewrite R, E. apply eff_permission_failed.
Qed.
Lemma handle_stop_vpn_shell_refines s a s' : handle_stop_vpn_shell s = Ret (a, s') → effect StopVpnShell (st_core s) (st_core s').
Proof.
  intros R. unfold handle_stop_vpn_shell in R. exec R. apply M_bind_Ret in R as (? & s1 & R1 & R). apply stop_vpn_runtime_Ret in R1.
  exec R. apply assign_status_Ret in R as (status & Hp & ->). rewrite R1, E. apply eff_shell_stopped. by rewrite Hp, R1, E.
Qed.
Lemma handle_connection_closed_refines g reason s a s' :
  handle_connection_closed g reason s = Ret (a, s') → effect (ConnectionClosed g reason) (st_core s) (st_core s').
Proof.
  intros R. unfold handle_connection_closed in R. exec R. case_decide as Hd; [injection R as _ <-; by apply eff_stale_closed|].
  apply Decidable.not_or in Hd as [Hg Hc]; apply dec_stable in Hg.
  exec R. apply M_bind_Ret in R as (? & s1 & R1 & R). apply stop_active_session_Ret in R1.
  apply M_bind_Ret in R as (? & s2 & R2 & R). apply assign_status_Ret in R2 as (status & Hp & R2). apply modify_Ret in R.
  rewrite R, R2, R1, E. by apply eff_lost.
Qed.
Lemma handle_transport_pulse_refines g m s a s' :
  handle_transport_pulse g m s = Ret (a, s') → effect (TransportPulse g m) (st_core s) (st_core s').
Proof.
  intros R. unfold handle_transport_pulse in R. exec R. case_decide as Hd; [injection R as _ <-; by apply eff_stale_pulse|].
  apply Decidable.not_or in Hd as [Hg Hc]; apply dec_stable in Hg. exec R. apply quiet_emit in R. rewrite R, E. by apply eff_pulse.
Qed.

Lemma u32_succ_Ret a s b s' : u32_succ checks a s = Ret (b, s') → b = next_attempt a.
Proof. unfold u32_succ, next_attempt. case_decide; [by intros [= <-]|]. destruct checks; [done|]. by intros [= <-]. Qed.

Lemma handle_reconnect_refines g attempt s a s' :
  handle_reconnect checks g attempt s = Ret (a, s') → effect (Reconnect g attempt) (st_core s) (st_core s').
Proof.
  intros R. unfold handle_reconnect in R. exec R. case_decide as Hd; [injection R as _ <-; apply eff_stale_reconnect; by left|].
  destruct (k_form (st_core s)) as [form|] eqn:Ef; [|injection R as _ <-; apply eff_stale_reconnect; by right].
  apply M_bind_Ret in R as (next & s0 & R0 & R). pose proof (quiet_u32_succ _ _ _ _ _ R0) as Q0. apply u32_succ_Ret in R0 as ->.
  exec R. exec R. apply M_bind_Ret in R as (r & s2 & R1 & R). pose proof (quiet_connect_client _ _ _ _ R1) as Q.
  destruct r as [[client status]|err].
  - apply connect_client_Ret in R1. apply M_bind_Ret in R as (status' & s3 & R2 & R).
    apply activate_connection_Ret in R2 as [Hp R2]; [|done]. exec R. exec R. rewrite Q, E0, E, Q0, <- Hd in R2.
    assert (st_core t2 = set_status status' (activated g form client (st_core s))) as Et by (by rewrite E2, E1, R2).
    destruct (should_restart_tun2socks_after_reconnect _ _) eqn:Er.
    + unfold should_restart_tun2socks_after_reconnect in Er. apply andb_true_iff in Er as [Hdes Hn]. apply negb_true_iff, bool_decide_eq_false in Hn.
      assert (k_tun (st_core s) = None) as Hnone by (destruct (k_tun (st_core s)); [exfalso; apply Hn; eauto|done]).
      exec R. match goal with r : H + _ |- _ => destruct r as [h|err] end.
      * exec R. apply modify_Ret in R. rewrite R, E4, E3, Et. refine (eff_reconnected _ _ _ _ (with_detail status' _) (Some h) _ _ _ _ _ _); done.
      * exec R. apply modify_Ret in R. rewrite R, E4, E3, Et.
        refine (eff_reconnected _ _ _ _ (with_detail status' _) (k_tun (st_core s)) _ _ _ _ _ _); done.
    + destruct (k_desired (st_core s)) eqn:Hdes.
      * exec R. apply assign_status_Ret in R as (status2 & Hp2 & ->). rewrite E3, Et.
        refine (eff_reconnected _ _ _ _ status2 (k_tun (st_core s)) _ _ _ _ _ _); try done. by rewrite Hp2.
      * injection R as _ <-. rewrite Et. refine (eff_reconnected _ _ _ _ status' (k_tun (st_core s)) _ _ _ _ _ _); done.
  - exec R. apply M_bind_Ret in R as (? & s3 & R2 & R). apply assign_status_Ret in R2 as (status & Hp & R2). apply modify_Ret in R.
    rewrite R, R2, E1, Q, E0, E, Q0. by apply (eff_reconnect_failed g attempt form status).
Qed.

(** The handlers implement the abstract controller. *)
Lemma handle_command_refines c s a s' : handle_command checks c s = Ret (a, s') → effect c (st_core s) (st_core s').
Proof.
  destruct c; cbn [handle_command]; intros R;
    eauto using handle_connect_refines, handle_start_managed_vpn_refines, handle_managed_connect_refines, handle_disconnect_refines,
      handle_speedtest_refines, handle_request_vpn_permission_refines, handle_stop_vpn_shell_refines, handle_service_stopped_refines,
      handle_connection_closed_refines, handle_reconnect_refines, handle_transport_pulse_refines.
Qed.
End refine.

(** ** The invariant *)

Definition handle_of (kind : TaskKind) (h : Handles) : option nat :=
  match kind with
  | TLocalSocks => h_local_socks h
  | TCloseWatch => h_close_watch h
  | TTransportWatch => h_transport_watch h
  | THealthProbe => h_health_probe h
  end.
Definition count (g : Z) (p : list Z) : nat := length (filter (fun x => x = g) p).
#[local] Arguments count : simpl never.

(** The invariant of the variables, where [p] are the generations of the
    reconnects that are pending. *)
Record ok {C H} (k : Core C H) (p : list Z) (handled : Z) : Prop := mkOk {
  ok_generation : 0 ≤ k_generation k ≤ handled;
  ok_old : Forall (fun g => g ≤ k_generation k) p;
  ok_one : (count (k_generation k) p ≤ 1)%nat;
  ok_lost : k_generation k ∈ p → k_client k = None;
  ok_session : match k_client k with
               | None => k_handles k = no_handles
               | Some _ => (∀ kind, is_Some (handle_of kind (k_handles k))) ∧ is_Some (k_form k)
               end;
  ok_tasks : ∀ id t, k_tasks k !! id = Some t → (id < k_next k)%nat ∧ tk_generation t ≤ k_generation k ∧
               (tk_aborted t = false → handle_of (tk_kind t) (k_handles k) = Some id ∧ tk_generation t = k_generation k);
  ok_tun : is_Some (k_tun k) → k_desired k = true;
  ok_retry : us_phase (k_status k) = RECONNECTING → is_Some (k_form k) → k_generation k ∈ p
}.

Section invariant.
Context {C H : Type}.
Implicit Types k : Core C H.

Lemma count_app g p q : count g (p ++ q) = (count g p + count g q)%nat.
Proof. unfold count. by rewrite filter_app, length_app. Qed.
Lemma count_cons g x p : count g (x :: p) = ((if decide (x = g) then 1 else 0) + count g p)%nat.
Proof. unfold count. rewrite filter_cons. by case_decide. Qed.
Lemma count_0 g p : g ∉ p ↔ count g p = 0%nat.
Proof.
  unfold count. induction p as [|x p IH]; [split; [done|intros _ []%not_elem_of_nil]|]. rewrite filter_cons, not_elem_of_cons.
  case_decide; cbn; [naive_solver|]. rewrite <- IH. naive_solver.
Qed.
Lemma count_perm g p q : p ≡ₚ q → count g p = count g q.
Proof. intros Hp. unfold count. by rewrite Hp. Qed.

Lemma ok_perm k p q h : p ≡ₚ q → ok k p h → ok k q h.
Proof.
  intros Hp []. constructor; try done.
  - by rewrite <- Hp.
  - by rewrite <- (count_perm _ p q).
  - rewrite <- Hp. done.
  - rewrite <- Hp. done.
Qed.

Lemma abort_opt_Some o tasks id t :
  abort_opt o tasks !! id = Some t → ∃ t0, tasks !! id = Some t0 ∧ tk_kind t = tk_kind t0 ∧ tk_generation t = tk_generation t0 ∧
    (tk_aborted t = false → tk_aborted t0 = false ∧ o ≠ Some id).
Proof.
  destruct o as [x|]; cbn [abort_opt]; [|intros E; by exists t].
  destruct (decide (x = id)) as [->|Hne].
  - rewrite lookup_alter_eq. intros (t0 & E & ->)%fmap_Some. exists t0. by split_and!.
  - rewrite lookup_alter_ne by done. intros E. exists t. split_and!; try done. intros. split; [done|congruence].
Qed.

(** After the end of a session every task is aborted. *)
Lemma stopped_tasks k p h stop_tun id t :
  ok k p h → k_tasks (stopped stop_tun k) !! id = Some t →
  (id < k_next k)%nat ∧ tk_generation t ≤ k_generation k ∧ tk_aborted t = true.
Proof.
  intros Hok Ht. cbn in Ht. apply abort_opt_Some in Ht as (t1 & Ht & K1 & G1 & A1). apply abort_opt_Some in Ht as (t2 & Ht & K2 & G2 & A2).
  apply abort_opt_Some in Ht as (t3 & Ht & K3 & G3 & A3). apply abort_opt_Some in Ht as (t4 & Ht & K4 & G4 & A4).
  pose proof (ok_tasks _ _ _ Hok _ _ Ht) as (Hid & Hgen & Hrun). split_and!; [done|congruence|].
  destruct (tk_aborted t); [done|]. destruct A1 as [E1 A1]; [done|]. destruct A2 as [E2 A2]; [done|]. destruct A3 as [E3 A3]; [done|].
  destruct A4 as [E4 A4]; [done|]. destruct Hrun as [Hh _]; [done|]. destruct (tk_kind t4); cbn in Hh; congruence.
Qed.

Lemma stopped_ok k p h stop_tun st :
  ok k p h → k_generation k ∉ p → (k_desired k = false → stop_tun = true ∨ k_tun k = None) → (us_phase st = RECONNECTING → k_form k = None) →
  ok (set_status st (stopped stop_tun k)) p h.
Proof.
  intros Hok Hp Htun Hst. pose proof Hok as []. constructor; cbn; try done.
  - intros id t Ht. destruct (stopped_tasks k p h stop_tun id t Hok Ht) as (? & ? & Ha). split_and!; [done..|]. by rewrite Ha.
  - destruct stop_tun; [by intros []|done].
  - intros Hph [f Hf]. rewrite (Hst Hph) in Hf. done.
Qed.

Lemma renewed_generation k p h : ok k p h → h + 1 < 2 ^ 64 → as_u64 (k_generation k + 1) = k_generation k + 1.
Proof. intros []. intros. unfold as_u64. rewrite Z.mod_small; lia. Qed.

Lemma renewed_ok k x p h desired form st :
  ok k (x ++ p) h → h + 1 < 2 ^ 64 → (us_phase st = RECONNECTING → form = None) →
  ok (set_status st (renewed desired form k)) p (h + 1) ∧ k_generation (renewed desired form k) ∉ p.
Proof.
  intros Hok Hh Hst. pose proof (renewed_generation _ _ _ Hok Hh) as Hg. pose proof Hok as [Hgen Hold _ _ _ _ _ _].
  apply Forall_app in Hold as [_ Hold]. assert (k_generation (renewed desired form k) ∉ p) as Hnew.
  { cbn. rewrite Hg. intros Hin. rewrite Forall_forall in Hold. apply Hold in Hin. lia. }
  split; [|done]. constructor; cbn in *; try done.
  - lia.
  - rewrite Hg. eapply Forall_impl; [exact Hold|]. cbn. lia.
  - rewrite (proj1 (count_0 _ p) Hnew). lia.
  - intros id t Ht. destruct (stopped_tasks k _ h true id t Hok Ht) as (? & ? & Ha). rewrite Hg. split_and!; [done|lia|]. by rewrite Ha.
  - intros Hph [f Hf]. rewrite (Hst Hph) in Hf. done.
Qed.

Lemma activated_ok k p h g form client tun st :
  ok k p h → k_client k = None → g = k_generation k → g ∉ p → (is_Some tun → k_desired k = true) → us_phase st = CONNECTED →
  ok (set_status st (set_tun tun (activated g form client k))) p h.
Proof.
  intros Hok Hc -> Hp Htun Hst. pose proof Hok as [? ? ? ? Hs Ht ? ?]. rewrite Hc in Hs. constructor; cbn; try done.
  - split; [|eauto]. intros []; cbn; eauto.
  - intros id t. rewrite !lookup_insert. repeat case_decide; subst; try (intros [= <-]; cbn; split_and!; [lia|done|done]).
    intros Hold. apply Ht in Hold as (? & ? & Hrun). split_and!; [lia|done|]. intros Ha. destruct (Hrun Ha) as [Hh _]. rewrite Hs in Hh.
    by destruct (tk_kind t).
  - rewrite Hst. done.
Qed.

(** What a command waiting to be handled counts for. *)
Definition reconnect_of (c : AppCommand) : list Z := match c with Reconnect g _ => [g] | _ => [] end.

(** A handled command that leaves the session and what is pending alone. *)
Lemma ok_handled k x p h :
  ok k (x ++ p) h → (∀ g, g ∈ x → g ≠ k_generation k ∨ k_form k = None) → ok k p (h + 1).
Proof.
  intros [Hgen Hold Hone Hlost Hs Ht Htun Hretry] Hx. rewrite count_app in Hone. apply Forall_app in Hold as [_ Hold].
  constructor; try done; [lia|lia|..].
  - intros Hin. apply Hlost, elem_of_app. by right.
  - intros Hph Hf. destruct (elem_of_app x p (k_generation k)) as [H1 _]. destruct (H1 (Hretry Hph Hf)) as [Hin|]; [|done].
    destruct (Hx _ Hin) as [|Hn]; [done|]. rewrite Hn in Hf. by destruct Hf.
Qed.
Lemma ok_same k p h : ok k p h → ok k p (h + 1).
Proof. intros Hok. apply (ok_handled k [] p h Hok). by intros g []%not_elem_of_nil. Qed.
Lemma set_status_ok k p h st :
  ok k p h → (us_phase st = RECONNECTING → is_Some (k_form k) → k_generation k ∈ p) → ok (set_status st k) p h.
Proof. intros [] Hst. by constructor. Qed.

Lemma with_timer_ok k p h g attempt st :
  ok k p h → g = k_generation k → g ∉ p → k_client k = None → ok (with_timer g attempt (set_status st k)) (g :: p) h.
Proof.
  intros [] -> Hp Hc. constructor; cbn; try done.
  - constructor; [lia|done].
  - rewrite count_cons, (proj1 (count_0 _ p) Hp), decide_True by done. done.
  - intros _ _. by left.
Qed.

(** The reconnect that is handled was the only one, and no session was
    active; it must be followed by one of the two. *)
Lemma ok_taken k p h :
  ok k (k_generation k :: p) h →
  k_generation k ∉ p ∧ k_client k = None ∧ ok (set_status (status_of [] []) k) p (h + 1).
Proof.
  intros [Hgen Hold Hone Hlost Hs Ht Htun Hretry]. rewrite count_cons, decide_True in Hone by done.
  assert (k_generation k ∉ p) by (apply count_0; lia). apply Forall_cons in Hold as [_ Hold].
  assert (k_client k = None) by (apply Hlost; by left). split_and!; [done..|]. constructor; cbn; try done; lia.
Qed.

(** Handling a command preserves the invariant. *)
Lemma effect_ok c k k' p h :
  ok k (reconnect_of c ++ p) h → effect c k k' → h + 1 < 2 ^ 64 →
  ∃ new, k_timers k' = k_timers k ++ new ∧ ok k' (map tm_generation new ++ p) (h + 1).
Proof.
  intros Hok Heff Hh. pose proof (renewed_generation _ _ _ Hok Hh) as Hg.
  destruct Heff; try (exists []; split; [by rewrite app_nil_r|]; cbn [map app reconnect_of] in *).
  - destruct (renewed_ok k [] p h false None (k_status k) Hok Hh) as [Hr Hn]; [done|].
    refine (activated_ok _ p (h + 1) _ form client None status Hr _ _ _ _ _); done.
  - by refine (proj1 (renewed_ok k [] p h false None (k_status k) Hok Hh _)).
  - refine (proj1 (renewed_ok k [] p h true (Some form) status Hok Hh _)). by rewrite H0.
  - by refine (proj1 (renewed_ok k [] p h false None status Hok Hh _)).
  - destruct (renewed_ok k [] p h true (Some form) (status_of [] []) Hok Hh) as [Hr Hn]; [done|].
    refine (activated_ok _ p (h + 1) _ form client tun status Hr _ _ _ _ _); done.
  - refine (proj1 (renewed_ok k [] p h true (Some form) status Hok Hh _)). by rewrite H0.
  - destruct H0 as [-> | ->]; by refine (proj1 (renewed_ok k [] p h false None status Hok Hh _)).
  - by apply ok_same.
  - apply set_status_ok; [by apply ok_same|]. rewrite H0. by apply (ok_same k p h Hok).
  - by apply ok_same.
  - assert (ok k p (h + 1)) as Hok' by (by apply ok_same). apply set_status_ok.
    + destruct Hok'. constructor; cbn; try done.
    + cbn. rewrite H0. by destruct Hok'.
  - by apply ok_same.
  - exists [mkTimer (reconnect_delay 0) g 0]. split; [done|]. cbn [map app]. subst g.
    assert (ok k p (h + 1)) as Hok' by (by apply ok_same).
    assert (k_generation k ∉ p) as Hp by (intros Hin; by apply (ok_lost _ _ _ Hok') in Hin).
    apply (with_timer_ok (set_status (status_of [] []) (stopped (negb (k_desired k)) k))); [|done..].
    apply stopped_ok; [done..| |done]. intros ->. by left.
  - apply (ok_handled k [g]); [done|]. intros g' ->%list_elem_of_singleton. done.
  - subst g. destruct (ok_taken _ _ _ Hok) as (Hp & Hc & Hok').
    refine (activated_ok (set_status (status_of [] []) k) p (h + 1) _ form client tun status Hok' _ _ _ _ _); try done. intros Ht.
    destruct (k_tun k) as [u|] eqn:Eu; [|apply H4; intros ->; by destruct Ht]. apply (ok_tun _ _ _ Hok'). cbn. rewrite Eu. eauto.
  - exists [mkTimer (reconnect_delay (next_attempt attempt)) g (next_attempt attempt)]. split; [done|]. cbn [map app]. subst g.
    destruct (ok_taken _ _ _ Hok) as (Hp & Hc & Hok').
    refine (with_timer_ok (set_status (status_of [] []) k) p (h + 1) _ _ status Hok' _ _ _); done.
  - by apply ok_same.
  - apply set_status_ok; [by apply ok_same|]. cbn. by apply (ok_same k p h Hok).
Qed.
End invariant.

(** Generations only grow. *)
Lemma effect_generation {C H} c (k k' : Core C H) p h :
  ok k p h → effect c k k' → h + 1 < 2 ^ 64 → k_generation k ≤ k_generation k'.
Proof. intros Hok Heff Hh. pose proof (renewed_generation _ _ _ Hok Hh). destruct Heff; cbn; lia. Qed.

(** ** Reachable systems *)

Section reachable.
Context {W C H : Type} `{!Platform W C H} (checks : bool).
Implicit Types y : System W C H.

Definition core y : Core C H := st_core (sy_state y).
(** The generations of the reconnects that wait for their time or in the
    queue. *)
Definition pending y : list Z := map tm_generation (k_timers (core y)) ++ concat (map reconnect_of (sy_queue y)).
Definition sy_ok y : Prop := ok (core y) (pending y) (sy_handled y) ∧ Forall (fun g => g ≤ k_generation (core y)) (sy_connections y).

Lemma pending_enqueue c y : pending (enqueue c y) = pending y ++ reconnect_of c.
Proof. unfold pending. cbn. rewrite map_app, concat_app. cbn. by rewrite app_nil_r, app_assoc. Qed.
Lemma ok_enqueue c y : reconnect_of c = [] → sy_ok y → sy_ok (enqueue c y).
Proof. intros Hc [Hok Hl]. split; [|done]. rewrite pending_enqueue, Hc, app_nil_r. done. Qed.
Lemma ok_finish id y : sy_ok y → sy_ok (finish id y).
Proof.
  intros [[] Hl]. split; [|done]. constructor; cbn; try done. intros i t. rewrite lookup_delete. case_decide; [done|]. apply ok_tasks0.
Qed.

Lemma step_ok y y' : step checks y y' → sy_handled y' < 2 ^ 64 → sy_ok y → sy_ok y'.
Proof.
  intros Hstep Hh Hok. destruct Hstep as [y c Hc|y w|y e|y id g a reason Ht|y id g a res reason Ht Hr|y id g a m Ht|y id g a Ht|y g reason Hg
    |y l g r Hl|y id t Ht Hend|y l t r Ht|y c q s Hq Hrun].
  - apply ok_enqueue; [|done]. by destruct c.
  - done.
  - done.
  - by apply ok_finish, ok_enqueue.
  - by apply ok_finish, ok_enqueue.
  - by apply ok_enqueue.
  - destruct Hok as [Hok Hl]. split; [done|]. constructor; [|done]. by apply (ok_tasks _ _ _ Hok) in Ht as (_ & Hg & _).
  - by apply ok_enqueue.
  - destruct Hok as [Hok Hlc]. split; [done|]. cbn. rewrite Hl in Hlc. apply Forall_app in Hlc as [? Hlc]. apply Forall_cons in Hlc as [_ ?].
    by apply Forall_app.
  - by apply ok_finish.
  - destruct Hok as [Hok Hlc]. split; [|done]. rewrite pending_enqueue.
    assert (ok (set_timers (l ++ r) (core y)) (pending y) (sy_handled y)) as Hok' by (by destruct Hok).
    eapply ok_perm; [|exact Hok']. unfold pending. cbn. unfold core. rewrite Ht, !map_app, !map_cons. cbn.
    solve_Permutation.
  - apply handle_command_refines in Hrun. destruct Hok as [Hok Hlc]. unfold pending in Hok. rewrite Hq in Hok. cbn in Hok, Hh.
    assert (map tm_generation (k_timers (core y)) ++ reconnect_of c ++ concat (map reconnect_of q)
      ≡ₚ reconnect_of c ++ map tm_generation (k_timers (core y)) ++ concat (map reconnect_of q)) as Hp by solve_Permutation.
    apply (ok_perm _ _ _ _ Hp) in Hok. destruct (effect_ok _ _ _ _ _ Hok Hrun Hh) as (new & Hnew & Hok').
    split.
    + eapply ok_perm; [|exact Hok']. unfold pending, core. cbn. rewrite Hnew, map_app. solve_Permutation.
    + cbn. eapply Forall_impl; [exact Hlc|]. cbn. intros g Hg. unfold core. cbn.
      assert (k_generation (core y) ≤ k_generation (st_core s)); [|lia].
      by eapply effect_generation.
Qed.

Lemma step_handled y y' : step checks y y' → sy_handled y ≤ sy_handled y'.
Proof. destruct 1; cbn; lia. Qed.
Lemma initial_ok y : initial y → sy_ok y.
Proof.
  intros (w & e & v & ->). split; [|by constructor]. constructor; cbn; try done; try lia; try by constructor.
Qed.
Lemma reachable_ok y : reachable checks y → sy_handled y < 2 ^ 64 → sy_ok y.
Proof.
  intros (y0 & H0 & Hsteps). revert y Hsteps. apply (rtc_ind_r (fun y => sy_handled y < 2 ^ 64 → sy_ok y)).
  - intros _. by apply initial_ok.
  - intros y1 y2 _ Hs IH Hh. apply (step_ok y1 y2 Hs Hh), IH. apply step_handled in Hs. lia.
Qed.

(** Every timer is due within the bound of the back-off. *)
Definition attempt_ok (c : AppCommand) : Prop := match c with Reconnect _ attempt => 0 ≤ attempt | _ => True end.
Definition timer_ok (t : Timer) : Prop := 0 ≤ tm_attempt t ∧ tm_delay t = reconnect_delay (tm_attempt t).
Definition timers_ok y : Prop := Forall timer_ok (k_timers (core y)) ∧ Forall attempt_ok (sy_queue y).

Lemma next_attempt_nonneg a : 0 ≤ a → 0 ≤ next_attempt a.
Proof. unfold next_attempt, as_u32. case_decide; [lia|]. intros. apply Z.mod_pos_bound. lia. Qed.
Lemma effect_timers c (k k' : Core C H) : attempt_ok c → Forall timer_ok (k_timers k) → effect c k k' → Forall timer_ok (k_timers k').
Proof.
  intros Hc Ht Heff. destruct Heff; cbn in *; try done; (apply Forall_app; split; [done|constructor; [|done]]; split; cbn; [|done]);
    [lia|by apply next_attempt_nonneg].
Qed.
Lemma reachable_timers y : reachable checks y → timers_ok y.
Proof.
  intros (y0 & (w & e & v & ->) & Hsteps). revert y Hsteps. apply (rtc_ind_r timers_ok); [by split; constructor|].
  intros y1 y2 _ Hs [Ht Hq]. destruct Hs as [y c Hc|y w'|y e'|y id g a reason Hk|y id g a res reason Hk Hr|y id g a m Hk|y id g a Hk|y g reason Hg
    |y l g r Hl|y id t Hk Hend|y l t r Hk|y c q s Hcq Hrun]; unfold timers_ok in *; cbn in *; try done;
    try (split; [done|]; apply Forall_app; split; [done|]; constructor; [|done]; try done; by destruct c).
  - unfold core in Ht. rewrite Hk in Ht. apply Forall_app in Ht as [Hl Htr]. apply Forall_cons in Htr as [[Ha _] Hr].
    split; [by apply Forall_app|]. apply Forall_app. split; [done|]. by constructor.
  - rewrite Hcq in Hq. apply Forall_cons in Hq as [Hc Hq]. split; [|done]. apply handle_command_refines in Hrun. by eapply effect_timers.
Qed.
End reachable.

Lemma reconnect_delay_bounds a : 0 ≤ a → 1 ≤ reconnect_delay a ≤ MAX_RECONNECT_BACKOFF_SECS.
Proof.
  intros Ha. unfold reconnect_delay, MAX_RECONNECT_BACKOFF_SECS. rewrite Z.shiftl_1_l.
  assert (2 ^ 0 ≤ 2 ^ Z.min a 4) by (apply Z.pow_le_mono_r; lia). lia.
Qed.

(** ** A platform on which connecting fails a number of times *)

Module Demo.
(** The connections opened so far, and the failures still to come. *)
Record world := mkWorld { opened : nat; failures : nat }.
#[global] Instance platform : Platform world nat nat := {
  pf_query_state w := (w, Ret (mkVpn true true true));
  pf_request_permission w := (w, Ret ());
  pf_start_managed_vpn _ _ _ w := (w, Ret ());
  pf_start_vpn_service _ _ w := (w, Ret ());
  pf_stop_vpn_service w := (w, Ret ());
  pf_take_tun_fd w := (w, Ret 7);
  pf_spawn_thread _ _ w := (w, Ret 1%nat);
  pf_quit_and_join _ w := (w, true);
  pf_parse_url _ := Err [];
  pf_utf8_error _ := [];
  pf_parse_duration _ := Err [];
  pf_format_duration _ := [];
  pf_to_socket_addrs _ _ := Ret [SocketV4 [127; 0; 0; 1] 443];
  pf_load_root_certificates _ _ := Ret [];
  pf_connect _ w :=
    match failures w with
    | O => (mkWorld (S (opened w)) 0, Ret (S (opened w), mkHandshakeInfo true 0))
    | S n => (mkWorld (opened w) n, Err (Errors.Connect (str "timed out")))
    end;
  pf_remote_addr _ := SocketV4 [127; 0; 0; 1] 443;
  pf_transport_snapshot _ _ := mkSample 0 0 0;
  pf_close _ w := (w, Ret ());
  pf_tcp _ _ w := (w, Err (Errors.Connect []));
  pf_clock _ := (O, 0)
}.
Definition form : FormState := mkForm [] (str "127.0.0.1:443") (str "secret") [] [] [] [] [] [] [] [] [] [] [] [] true false false.
Definition start (failures : nat) : System world nat nat :=
  mkSystem (mkSt (core_default (set_vpn_state (mkVpn true true true) status_default)) (mkWorld 0 failures) []) [] [] 0.
Lemma start_reachable n : reachable false (start n).
Proof. exists (start n). split; [|apply rtc_refl]. by exists (mkWorld 0 n), [], (mkVpn true true true). Qed.

(** The system after a command that arrives at an empty queue. *)
Definition handled (c : AppCommand) (y : System world nat nat) : System world nat nat :=
  match handle_command false c (sy_state y) with
  | Ret (_, s) => mkSystem s [] (sy_connections y) (sy_handled y + 1)
  | _ => mkSystem (sy_state y) [] (sy_connections y) (sy_handled y)
  end.
Definition handles (c : AppCommand) (y : System world nat nat) : bool :=
  match handle_command false c (sy_state y) with Ret _ => true | _ => false end.
(** The head of the queue is handled. *)
Lemma run_head c y : sy_queue y = [c] → handles c y = true → step false y (handled c y).
Proof.
  intros Hq Hh. unfold handled, handles in *. destruct (handle_command false c (sy_state y)) as [[[] s]| |] eqn:E; [|done..].
  by eapply step_handle.
Qed.
Lemma run_user c y :
  is_user_command c = true → sy_queue y = [] → handles c y = true → reachable false y → reachable false (handled c y).
Proof.
  intros Hu Hq Hh (y0 & H0 & Hy). exists y0. split; [done|]. eapply rtc_r; [eapply rtc_r; [exact Hy|by apply step_user]|].
  apply (run_head c (enqueue c y)); cbn; [by rewrite Hq|done].
Qed.
End Demo.

(** ** The theorems *)

Section theorems.
Context {W C H : Type} `{!Platform W C H} (checks : bool).
Implicit Types y : System W C H.

(** C16: the controller owns one session at most, and nothing else runs. In
    every reachable system (below 2^64 commands): a background task that is not
    aborted is the one the controller holds for its kind, belongs to the current
    generation, and there is a connection, so no two tasks of a kind run; a
    connection has all four tasks and the form to repeat it with, and no
    reconnect is pending for it; at most one reconnect of the current generation
    is pending; and the TUN device is served only while the VPN is wanted. *)
Theorem one_session y :
  reachable checks y → sy_handled y < 2 ^ 64 →
  let k := core y in
  (∀ id t, task_of y id = Some t → tk_aborted t = false →
     handle_of (tk_kind t) (k_handles k) = Some id ∧ tk_generation t = k_generation k ∧ k_client k ≠ None) ∧
  (∀ id id' t t', task_of y id = Some t → task_of y id' = Some t' → tk_aborted t = false → tk_aborted t' = false →
     tk_kind t = tk_kind t' → id = id') ∧
  (k_client k ≠ None → (∀ kind, is_Some (handle_of kind (k_handles k))) ∧ is_Some (k_form k) ∧ k_generation k ∉ pending y) ∧
  (count (k_generation k) (pending y) ≤ 1)%nat ∧
  (is_Some (k_tun k) → k_desired k = true).
Proof.
  intros Hr Hh k. destruct (reachable_ok checks y Hr Hh) as [[Hgen Hold Hone Hlost Hs Ht Htun Hretry] _].
  assert (∀ id t, task_of y id = Some t → tk_aborted t = false →
    handle_of (tk_kind t) (k_handles k) = Some id ∧ tk_generation t = k_generation k ∧ k_client k ≠ None) as Hrun.
  { intros id t Hid Ha. destruct (Ht _ _ Hid) as (_ & _ & [Hh' Hg]); [done|]. split_and!; try done. intros Hn. subst k. rewrite Hn in Hs.
    rewrite Hs in Hh'. by destruct (tk_kind t). }
  split_and!; [done| | |done|done].
  - intros id id' t t' H1 H2 A1 A2 E. apply Hrun in H1 as [H1 _]; [|done]. apply Hrun in H2 as [H2 _]; [|done]. congruence.
  - intros Hc. subst k. destruct (k_client (core y)) as [c|] eqn:Ec; [|done]. destruct Hs. split_and!; try done.
    intros Hin. by apply Hlost in Hin.
Qed.

End theorems.

Lemma one_session_witness :
  ∃ y : System Demo.world nat nat, reachable false y ∧ k_client (core y) = Some 1%nat ∧ is_Some (k_tun (core y)) ∧ k_desired (core y) = true ∧
    handle_of TCloseWatch (k_handles (core y)) = Some 1%nat.
Proof.
  exists (Demo.handled (ManagedConnect Demo.form) (Demo.start 0)).
  assert (reachable false (Demo.handled (ManagedConnect Demo.form) (Demo.start 0))) as Hr.
  { apply Demo.run_user; [reflexivity|reflexivity|vm_compute; reflexivity|apply Demo.start_reachable]. }
  destruct (one_session false _ Hr ltac:(vm_compute; reflexivity)) as (_ & _ & _ & _ & Hd).
  split; [exact Hr|]. split; [vm_compute; reflexivity|]. split; [vm_compute; eauto|]. split; [|vm_compute; reflexivity].
  apply Hd. vm_compute. eauto.
Defined.

(** A session that is lost: its close watcher reports, and the report is
    handled. *)
Definition lost : System Demo.world nat nat :=
  Demo.handled (ConnectionClosed 1 (str "timed out")) (finish 1 (enqueue (ConnectionClosed 1 (str "timed out"))
    (Demo.handled (MobileStatus.Connect Demo.form) (Demo.start 0)))).
Lemma lost_reachable : reachable false lost.
Proof.
  assert (reachable false (Demo.handled (MobileStatus.Connect Demo.form) (Demo.start 0))) as (y0 & H0 & Hy).
  { apply Demo.run_user; [reflexivity|reflexivity|vm_compute; reflexivity|apply Demo.start_reachable]. }
  exists y0. split; [done|]. eapply rtc_r; [eapply rtc_r; [exact Hy|]|].
  - apply (step_close_watch false _ 1 1 false (str "timed out")). vm_compute. reflexivity.
  - apply Demo.run_head; vm_compute; reflexivity.
Qed.
