(* ===== verification/ControllerRuns.v ===== *)
(** * Runs of the controller

    The refinement of the abstract controller, what a disconnection means for
    everything that happens afterwards, that the thread goes on, and two runs
    that show where it does not do what it means to. *)
From S2P Require Import Prelude Errors RustStr Float Limit Net Quic Client Config Io SpeedTest Anyhow Dns LocalSocks MobileForm MobileStatus.
From S2P Require Import MobileShare Controller ControllerSafety.
Local Open Scope Z_scope.

Section runs.
Context {W C H : Type} `{!Platform W C H} (checks : bool).
Implicit Types y : System W C H.

(** C17: the handlers implement the abstract controller [effect]. Whatever the
    platform answers, a command that is handled changes the variables, the
    timers and the tasks as one of its effects says: a command of the user
    begins a new generation and ends the session; a session begins only with a
    connection and with all its tasks; reports and retries of another generation
    have no effect; a lost session leaves one timer; and a VPN that is wanted
    survives the loss. *)
Theorem controller_refines c (s s' : St W C H) :
  handle_command checks c s = Ret ((), s') → effect c (st_core s) (st_core s').
Proof. apply handle_command_refines. Qed.

(** ** Disconnection *)

Definition starts (c : AppCommand) : bool :=
  match c with MobileStatus.Connect _ | StartManagedVpn _ | ManagedConnect _ => true | _ => false end.
(** Nothing is connected, wanted or running. *)
Definition off (k : Core C H) : Prop :=
  k_client k = None ∧ k_tun k = None ∧ k_form k = None ∧ k_desired k = false ∧ ∀ id t, k_tasks k !! id = Some t → tk_aborted t = true.
Definition idle_step y y' : Prop := step checks y y' ∧ Forall (fun c => starts c = false) (sy_queue y').

Lemma stopped_off k b id t :
  (∀ id t, k_tasks k !! id = Some t → tk_aborted t = true) → k_tasks (stopped (C:=C) (H:=H) b k) !! id = Some t → tk_aborted t = true.
Proof.
  intros Hall Ht. cbn in Ht. do 4 (apply abort_opt_Some in Ht as (? & Ht & _ & _ & ?A)). apply Hall in Ht.
  destruct (tk_aborted t); [done|]. destruct A as [A _]; [done|]. destruct A0 as [A0 _]; [done|]. destruct A1 as [A1 _]; [done|].
  destruct A2 as [A2 _]; [done|]. congruence.
Qed.
Lemma effect_off c (k k' : Core C H) : starts c = false → off k → effect c k k' → off k'.
Proof.
  intros Hs (Hc & Htun & Hf & Hd & Ht) Heff. destruct Heff; try done; try congruence.
  split_and!; try done. intros id t. apply (stopped_off _ true). done.
Qed.
Lemma idle_off y y' :
  Forall (fun c => starts c = false) (sy_queue y) → off (core y) → idle_step y y' → off (core y').
Proof.
  intros Hq Hoff [Hs _]. pose proof Hoff as (Hc & Htun & Hf & Hd & Ht). destruct Hs; try done.
  - split_and!; try done. intros i t. cbn. rewrite lookup_delete. case_decide; [done|]. apply Ht.
  - split_and!; try done. intros i t. cbn. rewrite lookup_delete. case_decide; [done|]. apply Ht.
  - split_and!; try done. intros i t0. cbn. rewrite lookup_delete. case_decide; [done|]. apply Ht.
  - match goal with Hr : handle_command _ _ _ = _ |- _ => apply handle_command_refines in Hr; eapply effect_off; [|exact Hoff|exact Hr] end.
    match goal with Hr : sy_queue _ = _ |- _ => rewrite Hr in Hq end. by apply Forall_cons in Hq as [? _].
Qed.

(** C19: disconnecting is final. After a [Disconnect], or after the service
    stopped, and as long as no command to connect arrives, nothing is connected
    again, nothing is wanted, the TUN device is not served and every background
    task is aborted, whatever reports, retries, pulses and other commands are
    still queued or arrive. *)
Theorem disconnect_final y c q s y' :
  reachable checks y → sy_handled y < 2 ^ 64 → sy_queue y = c :: q → c = Disconnect ∨ c = ServiceStopped →
  Forall (fun c => starts c = false) q → handle_command checks c (sy_state y) = Ret ((), s) →
  rtc idle_step (mkSystem s q (sy_connections y) (sy_handled y + 1)) y' → off (core y').
Proof.
  intros Hr Hh Hq Hc Hstarts Hrun Hsteps.
  assert (off (st_core s)) as Hoff.
  { apply handle_command_refines in Hrun. destruct (reachable_ok checks y Hr Hh) as [Hok _].
    inversion Hrun; subst; try (destruct Hc; congruence). split_and!; try done. intros id t Ht.
    eapply (stopped_tasks (core y) _ _ true id t Hok). exact Ht. }
  enough (Forall (fun c => starts c = false) (sy_queue y') ∧ off (core y')) by naive_solver. revert y' Hsteps.
  apply (rtc_ind_r (fun y' => Forall (fun c => starts c = false) (sy_queue y') ∧ off (core y'))); [done|].
  intros y1 y2 _ Hs [H1 H2]. split; [apply Hs|]. by eapply idle_off.
Qed.
End runs.

(** The retry of the only timer is put into the empty queue. *)
Definition fired (g attempt : Z) (y : System Demo.world nat nat) : System Demo.world nat nat :=
  enqueue (Reconnect g attempt) (mkSystem (update_core (set_timers []) (sy_state y)) [] (sy_connections y) (sy_handled y)).
Lemma run_timer d g attempt y : k_timers (core y) = [mkTimer d g attempt] → sy_queue y = [] → step false y (fired g attempt y).
Proof.
  intros Ht Hq. pose proof (step_timer false y [] (mkTimer d g attempt) [] Ht) as Hs. cbn [app] in Hs. unfold fired. rewrite <- Hq at 1. exact Hs.
Qed.

(** A lost session is disconnected; the retry that was set still arrives. *)
Definition disconnected : System Demo.world nat nat := Demo.handled Disconnect lost.
Lemma disconnect_final_witness : k_timers (core disconnected) ≠ [] ∧ off (core (Demo.handled (Reconnect 1 0) (fired 1 0 disconnected))).
Proof.
  split; [vm_compute; discriminate|].
  apply (disconnect_final false (enqueue Disconnect lost) Disconnect [] (sy_state disconnected)).
  - destruct lost_reachable as (y0 & H0 & Hy). exists y0. split; [exact H0|]. eapply rtc_r; [exact Hy|]. apply step_user. reflexivity.
  - vm_compute. reflexivity.
  - vm_compute. reflexivity.
  - left. reflexivity.
  - constructor.
  - vm_compute. reflexivity.
  - replace (mkSystem (sy_state disconnected) [] _ _) with disconnected by (vm_compute; reflexivity).
    apply (rtc_l _ _ (fired 1 0 disconnected)); [split|apply rtc_once; split].
    + apply (run_timer 1); vm_compute; reflexivity.
    + vm_compute. repeat constructor.
    + apply Demo.run_head; vm_compute; reflexivity.
    + vm_compute. constructor.
Defined.

(** ** Runs that go wrong *)

(** A connection is opened and the proxy accepts a SOCKS client. *)
Definition opened_1 : System Demo.world nat nat := Demo.handled (MobileStatus.Connect Demo.form) (Demo.start 0).
Definition serving : System Demo.world nat nat := mkSystem (sy_state opened_1) (sy_queue opened_1) (1 :: sy_connections opened_1) (sy_handled opened_1).
(** It is lost, and the retry opens another one. *)
Definition reported : System Demo.world nat nat := finish 1 (enqueue (ConnectionClosed 1 (str "timed out")) serving).
Definition closed_1 : System Demo.world nat nat := Demo.handled (ConnectionClosed 1 (str "timed out")) reported.
Lemma controller_refines_witness : k_client (core opened_1) = Some 1%nat ∧ k_client (core closed_1) = None ∧
  effect (ConnectionClosed 1 (str "timed out")) (core reported) (core closed_1).
Proof.
  split_and!; [vm_compute; reflexivity..|]. apply (controller_refines false _ (sy_state reported) (sy_state closed_1)). vm_compute. reflexivity.
Defined.
Definition opened_2 : System Demo.world nat nat := Demo.handled (Reconnect 1 0) (fired 1 0 closed_1).
(** The old SOCKS client reports that its connection is gone. *)
Definition notified_2 : System Demo.world nat nat := enqueue (ConnectionClosed 1 (str "connection lost")) opened_2.
Definition closed_2 : System Demo.world nat nat := Demo.handled (ConnectionClosed 1 (str "connection lost")) notified_2.

Lemma reachable_step (y y' : System Demo.world nat nat) : reachable false y → step false y y' → reachable false y'.
Proof. intros (y0 & H0 & Hy) Hs. exists y0. split; [done|]. by eapply rtc_r. Qed.
Lemma opened_1_reachable : reachable false opened_1.
Proof. apply Demo.run_user; [reflexivity|reflexivity|vm_compute; reflexivity|apply Demo.start_reachable]. Qed.

(** A report about the previous connection ends the next one. A retry
    keeps the generation, and the connections the local proxy accepted outlive
    the proxy. There is a reachable system that has reconnected, as its second
    connection, in which a SOCKS client of the first connection reports its
    failure, and handling the report closes the second connection. *)
Theorem stale_report_ends_new_session :
  ∃ y1 y2 y3 : System Demo.world nat nat,
    reachable false y1 ∧ k_client (core y1) = Some 1%nat ∧ sy_connections y1 = [1] ∧
    rtc (step false) y1 y2 ∧ k_client (core y2) = Some 2%nat ∧ sy_connections y2 = sy_connections y1 ∧
    rtc (step false) y2 y3 ∧ sy_queue y3 = [] ∧ k_client (core y3) = None ∧ us_phase (k_status (core y3)) = RECONNECTING.
Proof.
  exists serving, opened_2, closed_2. split_and!; try (vm_compute; reflexivity).
  - apply (reachable_step _ _ opened_1_reachable). apply (step_accept false opened_1 0 1 false). vm_compute. reflexivity.
  - apply (rtc_l _ _ reported); [apply (step_close_watch false serving 1 1 false); vm_compute; reflexivity|].
    apply (rtc_l _ _ closed_1); [apply Demo.run_head; vm_compute; reflexivity|].
    apply (rtc_l _ _ (fired 1 0 closed_1)); [apply (run_timer 1); vm_compute; reflexivity|].
    apply rtc_once, Demo.run_head; vm_compute; reflexivity.
  - apply (rtc_l _ _ notified_2); [apply (step_notify false opened_2 1); vm_compute; constructor|].
    apply rtc_once, Demo.run_head; vm_compute; reflexivity.
Qed.

(** The status the user interface was sent last. *)
Definition shown (y : System Demo.world nat nat) : option bytes :=
  head (omap (fun e => match e with Status st => Some (us_phase st) | _ => None end) (reverse (st_events (sy_state y)))).

(** The next connection will fail. *)
Definition failing : System Demo.world nat nat :=
  mkSystem (mkSt (st_core (sy_state opened_1)) (Demo.mkWorld 1 1) (st_events (sy_state opened_1))) (sy_queue opened_1) (sy_connections opened_1)
    (sy_handled opened_1).

(** A connection that could not be opened is shown as open. A failed
    [Connect] ends the session but keeps the status of the connection before
    it. There is a reachable system without a connection, after the failure was
    shown, in which asking for the VPN permission shows the phase
    [Connected]. *)
Theorem failed_connect_keeps_status :
  ∃ y : System Demo.world nat nat,
    reachable false y ∧ k_client (core y) = None ∧ shown y = Some (str "Error") ∧
    reachable false (Demo.handled RequestVpnPermission y) ∧
    k_client (core (Demo.handled RequestVpnPermission y)) = None ∧ shown (Demo.handled RequestVpnPermission y) = Some CONNECTED.
Proof.
  exists (Demo.handled (MobileStatus.Connect Demo.form) failing).
  assert (reachable false (Demo.handled (MobileStatus.Connect Demo.form) failing)) as Hr.
  { apply Demo.run_user; [reflexivity|vm_compute; reflexivity..|]. apply (reachable_step _ _ opened_1_reachable), step_world. }
  split_and!; try (vm_compute; reflexivity); [exact Hr|].
  apply Demo.run_user; [reflexivity|vm_compute; reflexivity..|exact Hr].
Qed.

(** ** The thread goes on *)

(** A platform whose calls return. *)
Class SafePlatform (W C H : Type) `{!Platform W C H} : Prop := {
  safe_query_state w : no_panic (pf_query_state (C:=C) (H:=H) w : W * _).2;
  safe_request_permission w : no_panic (pf_request_permission (C:=C) (H:=H) w : W * _).2;
  safe_start_managed_vpn f h p w : no_panic (pf_start_managed_vpn (C:=C) (H:=H) f h p w : W * _).2;
  safe_start_vpn_service h p w : no_panic (pf_start_vpn_service (C:=C) (H:=H) h p w : W * _).2;
  safe_stop_vpn_service w : no_panic (pf_stop_vpn_service (C:=C) (H:=H) w : W * _).2;
  safe_take_tun_fd w : no_panic (pf_take_tun_fd (C:=C) (H:=H) w : W * _).2;
  safe_spawn_thread y f w : no_panic (pf_spawn_thread (C:=C) (H:=H) y f w : W * _).2;
  safe_parse_url t : no_panic (pf_parse_url (W:=W) (C:=C) (H:=H) t);
  safe_parse_duration t : no_panic (pf_parse_duration (W:=W) (C:=C) (H:=H) t);
  safe_to_socket_addrs (w : W) t : no_panic (pf_to_socket_addrs (C:=C) (H:=H) w t);
  safe_load_root_certificates (w : W) t : no_panic (pf_load_root_certificates (C:=C) (H:=H) w t);
  safe_connect c w : no_panic (pf_connect (H:=H) c w : W * outcome CoreError (C * HandshakeInfo)).2;
  safe_close c w : no_panic (pf_close (H:=H) (c : C) w : W * _).2
}.

Lemma no_panic_bandwidth_field f s : no_panic (parse_bandwidth_field f s).
Proof.
  apply no_panic_context. unfold MobileForm.parse_bandwidth. repeat case_decide; try done.
  do 2 (apply no_panic_bind; [apply no_panic_ok_or|intros ? _]). done.
Qed.
Lemma no_panic_hex_pairs s : no_panic (MobileForm.hex_pairs s).
Proof.
  remember (length s) as n eqn:Hn. revert s Hn. induction (lt_wf n) as [n _ IH]. intros [|a [|b s]] Hn; [done..|].
  cbn [MobileForm.hex_pairs]. do 2 (apply no_panic_bind; [unfold MobileForm.hex_nibble; by repeat case_match|intros ? _]).
  apply no_panic_bind; [|done]. eapply IH; [|reflexivity]. subst n. cbn. lia.
Qed.
Lemma no_panic_pin s : no_panic (MobileForm.parse_optional_pinned_sha256 s).
Proof.
  unfold MobileForm.parse_optional_pinned_sha256. repeat case_decide; try done. apply no_panic_bind; [apply no_panic_hex_pairs|done].
Qed.
Lemma no_panic_server_name server sni : no_panic (MobileForm.infer_server_name server sni).
Proof.
  unfold MobileForm.infer_server_name. destruct (negb (blank sni)); [done|]. destruct (parse_socket_addr server); [done|].
  assert (no_panic (match rsplit_once COLON server with
    | Some (host, port) => match parse_u16 port with Some _ => Ret host
      | None => Err (anyhow_msg (str "failed to infer server name; set TLS SNI explicitly")) end
    | None => Err (anyhow_msg (str "failed to infer server name; set TLS SNI explicitly")) end)) as Hport
    by (destruct (rsplit_once COLON server) as [[? ?]|]; [destruct (parse_u16 _)|]; done).
  destruct (starts_with [91] server) eqn:Es; [|done]. unfold find_byte. destruct (split_once 93 server) as [[before after]|] eqn:Ef; [|done].
  apply split_once_Some in Ef as [-> _]. destruct before as [|b before]; [|apply no_panic_slice; len_lia].
  unfold starts_with in Es. apply bool_decide_eq_true in Es as [r Hr]. apply strip_prefix_Some in Hr. by cbn in Hr.
Qed.

Section survive.
Context {W C H : Type} `{!Platform W C H} `{!SafePlatform W C H} (checks : bool).

Lemma no_panic_import uri : no_panic (import_share_uri (pf_parse_url (W:=W) (C:=C) (H:=H)) (pf_utf8_error (W:=W) (C:=C) (H:=H)) uri).
Proof.
  unfold import_share_uri. apply no_panic_bind; [apply no_panic_context, no_panic_map_err, safe_parse_url|intros u _].
  case_decide; [done|]. apply no_panic_bind; [apply no_panic_ok_or|intros host _].
  apply no_panic_bind; [apply (no_panic_mobile_auth _ u)|intros auth _]. cbn zeta. by case_decide.
Qed.
Lemma no_panic_config w form :
  no_panic (client_config_of (pf_parse_url (W:=W) (C:=C) (H:=H)) (pf_utf8_error (W:=W) (C:=C) (H:=H))
    (pf_parse_duration (W:=W) (C:=C) (H:=H)) (pf_to_socket_addrs (C:=C) (H:=H) w) (pf_load_root_certificates (C:=C) (H:=H) w) form).
Proof.
  unfold client_config_of. apply no_panic_bind; [|intros f _].
  { unfold normalize_form. apply no_panic_bind; [|intros g _; by repeat case_match].
    case_match; [|done]. apply no_panic_bind; [apply no_panic_import|done]. }
  apply no_panic_bind; [|intros addr _].
  { unfold MobileForm.resolve_socket_addr. apply no_panic_bind; [unfold normalize_server_addr; by repeat case_match|intros n _].
    apply no_panic_bind; [apply no_panic_context, no_panic_map_err, safe_to_socket_addrs|intros; apply no_panic_ok_or]. }
  apply no_panic_bind; [apply no_panic_server_name|intros name _].
  apply no_panic_bind; [apply safe_load_root_certificates|intros roots _].
  apply no_panic_bind; [apply no_panic_pin|intros pin _].
  do 2 (apply no_panic_bind; [apply no_panic_bandwidth_field|intros ? _]).
  apply no_panic_bind; [unfold MobileForm.build_obfs_config; by case_decide|intros obfs _].
  apply no_panic_bind; [|done]. unfold build_mobile_quic_transport.
  assert (∀ f s, no_panic (parse_optional_u64_field f s)) as Hu
    by (intros; unfold parse_optional_u64_field; case_decide; [done|apply no_panic_ok_or]).
  assert (∀ a b d f g, no_panic (resolve_mobile_quic_window a b d f g)) as Hw
    by (intros; unfold resolve_mobile_quic_window; by case_decide).
  do 2 (apply no_panic_bind; [apply Hu|intros ? _]; apply no_panic_bind; [apply Hu|intros ? _]; apply no_panic_bind; [apply Hw|intros ? _]).
  apply no_panic_bind; [|intros ? _].
  { unfold resolve_mobile_quic_idle_timeout. case_decide; [done|].
    apply no_panic_bind; [apply no_panic_context, no_panic_map_err, safe_parse_duration|intros ? _; by case_decide]. }
  apply no_panic_bind; [|done]. unfold resolve_mobile_keep_alive_period. case_decide; [done|].
  apply no_panic_bind; [apply no_panic_context, no_panic_map_err, safe_parse_duration|intros ? _; by case_decide].
Qed.

(** A computation that always returns. *)
Definition total {A} (m : M W C H A) : Prop := ∀ s, ∃ a s', m s = Ret (a, s').
Lemma total_ret {A} (a : A) : total (mret a).
Proof. intros s. by eexists _, _. Qed.
Lemma total_bind {A B} (m : M W C H A) (f : A → M W C H B) : total m → (∀ a, total (f a)) → total (m ≫= f).
Proof. intros Hm Hf s. destruct (Hm s) as (a & s1 & E). destruct (Hf a s1) as (b & s2 & E2). exists b, s2. unfold mbind, M_bind. by rewrite E. Qed.
Lemma total_emit e : total (emit e).
Proof. intros s. by eexists _, _. Qed.
Lemma total_log t : total (log t).
Proof. apply total_emit. Qed.
Lemma total_core_of : total core_of.
Proof. intros s. by eexists _, _. Qed.
Lemma total_world_of : total world_of.
Proof. intros s. by eexists _, _. Qed.
Lemma total_modify f : total (modify f).
Proof. intros s. by eexists _, _. Qed.
Lemma total_spawn k g : total (spawn k g).
Proof. intros s. by eexists _, _. Qed.
Lemma total_call {A} (f : W → W * A) : total (call f).
Proof. intros s. unfold call. destruct (f (st_world s)). by eexists _, _. Qed.
Lemma total_result {E A} (r : outcome E A) : no_panic r → total (result r).
Proof. destruct r; try done; intros _ s; by eexists _, _. Qed.
Lemma total_try_call {E A} (f : W → W * outcome E A) : (∀ w, no_panic (f w).2) → total (try_call f).
Proof.
  intros Hf s. unfold try_call, call, mbind, M_bind. specialize (Hf (st_world s)). destruct (f (st_world s)) as [w r].
  by apply total_result.
Qed.

Hint Resolve total_ret total_emit total_log total_core_of total_world_of total_modify total_spawn total_call : total.
Ltac total_step :=
  repeat first
    [ solve [auto with total]
    | simple apply total_try_call; intros ?;
      first [apply safe_query_state|apply safe_request_permission|apply safe_start_managed_vpn|apply safe_start_vpn_service
            |apply safe_stop_vpn_service|apply safe_take_tun_fd|apply safe_spawn_thread|apply safe_connect|apply safe_close]
    | simple apply total_bind; [|intros ?]
    | case_match ].

Lemma total_query_vpn : total query_vpn.
Proof. unfold query_vpn. total_step. Qed.
Hint Resolve total_query_vpn : total.
Lemma total_with_vpn_state st : total (with_vpn_state st).
Proof. unfold with_vpn_state. total_step. Qed.
Hint Resolve total_with_vpn_state : total.
Lemma total_emit_status st : total (emit_status st).
Proof. unfold emit_status. total_step. Qed.
Lemma total_assign_status st : total (assign_status st).
Proof. unfold assign_status. total_step. Qed.
Lemma total_tun_spawn c fd : total (tun_spawn c fd).
Proof. unfold tun_spawn. total_step. Qed.
Lemma total_tun_stop h : total (tun_stop h).
Proof. unfold tun_stop. total_step. Qed.
Hint Resolve total_emit_status total_assign_status total_tun_spawn total_tun_stop : total.
Lemma total_stop_vpn_runtime b : total (stop_vpn_runtime b).
Proof. unfold stop_vpn_runtime. total_step. Qed.
Lemma total_attach_loop n r u : total (attach_loop n r u).
Proof. induction n as [|n IH]; cbn [attach_loop]; total_step. Qed.
Hint Resolve total_stop_vpn_runtime total_attach_loop : total.
Lemma total_start_vpn_runtime r u : total (start_vpn_runtime r u).
Proof. unfold start_vpn_runtime. total_step. Qed.
Lemma total_take_abort get clear : total (take_abort get clear).
Proof. unfold take_abort, abort. total_step. Qed.
Hint Resolve total_start_vpn_runtime total_take_abort : total.
Lemma total_stop_active_session a b c d : total (stop_active_session a b c d).
Proof. unfold stop_active_session. total_step. Qed.
Lemma total_connect_client form : total (connect_client form).
Proof.
  unfold connect_client. apply total_bind; [auto with total|intros w].
  apply total_bind; [apply total_result, no_panic_config|intros [[config udp]|]; [|auto with total]]. total_step.
Qed.
Lemma total_activate_connection g f c st : total (activate_connection g f c st).
Proof. unfold activate_connection. cbn zeta. total_step. Qed.
Hint Resolve total_stop_active_session total_connect_client total_activate_connection : total.

(** The commands after which the thread is certain to go on: a speed test
    waits for its peer, and in a checked build the attempts of a retry are
    counted up to the bound of a [u32]. *)
Definition returns (c : AppCommand) : Prop :=
  match c with
  | Speedtest _ => False
  | Reconnect _ attempt => checks = false ∨ attempt < u32_max
  | _ => True
  end.

(** C20: the controller survives. If the platform's calls return, every command
    but a speed test is handled without a panic, whatever the texts of the form
    and whatever the platform answers, so the thread is ready for the next. *)
Theorem controller_survives c (s : St W C H) : returns c → ∃ s', handle_command checks c s = Ret ((), s').
Proof.
  intros Hc. assert (total (handle_command checks c)) as Ht; [|destruct (Ht s) as ([] & s' & E); by exists s'].
  destruct c; try done; cbn [handle_command];
    unfold handle_connect, handle_start_managed_vpn, handle_managed_connect, handle_disconnect, handle_request_vpn_permission,
      handle_stop_vpn_shell, handle_service_stopped, handle_connection_closed, handle_reconnect, handle_transport_pulse, next_generation,
      schedule_reconnect; cbn zeta; try (by total_step).
  apply total_bind; [auto with total|intros k]. case_decide; [auto with total|]. destruct (k_form k); [|auto with total].
  apply total_bind; [|intros next; total_step]. unfold u32_succ. destruct (decide _); [auto with total|].
  unfold returns in Hc. destruct checks; [destruct Hc; [done|lia]|auto with total].
Qed.
End survive.

#[global] Instance Demo_safe : SafePlatform Demo.world nat nat.
Proof. constructor; try done. intros c w. cbn. by destruct (Demo.failures w). Qed.
Lemma controller_survives_witness : ∃ s', handle_command true (Reconnect 1 0) (sy_state lost) = Ret ((), s').
Proof. apply (controller_survives true (Reconnect 1 0) (sy_state lost)). right. reflexivity. Defined.

(** ** The health probe *)

(** Two checks in a row failed, the second with [err]. *)
Definition failed_twice (results : list (outcome CoreError unit)) (err : CoreError) : Prop :=
  ∃ before err1, ∃ rest, results = before ++ Err err1 :: Err err :: rest.
Definition failure_text (err : CoreError) : bytes := str "health probe failed: " ++ core_error_text err.

Lemma failed_twice_cons r results err :
  failed_twice (r :: results) err ↔ (∃ e rest, r = Err e ∧ results = Err err :: rest) ∨ failed_twice results err.
Proof.
  split.
  - intros (before & e & rest & E). destruct before as [|b before]; injection E as -> ->; [left|right]; unfold failed_twice; eauto.
  - intros [(e & rest & -> & ->)|(before & e & rest & ->)]; [by exists [], e, rest|by exists (r :: before), e, rest].
Qed.
Lemma failed_twice_nil err : ¬ failed_twice [] err.
Proof. by intros ([|] & ? & ? & ?). Qed.

(** The loop with the failure before it, if there was one. *)
Lemma health_probe_from (last : option CoreError) results :
  Forall no_panic results →
  let all := match last with Some e => Err e :: results | None => results end in
  match health_probe_loop (if last then 1 else 0) results with
  | Some reason => ∃ err, failed_twice all err ∧ reason = failure_text err
  | None => ∀ err, ¬ failed_twice all err
  end.
Proof.
  intros Hp. revert last. induction Hp as [|r results Hr Hp IH]; intros last.
  - destruct last; cbn; intros err; [|apply failed_twice_nil]. intros Hf. apply failed_twice_cons in Hf as [(e & rest & _ & ?)|Hf]; [done|].
    by apply failed_twice_nil in Hf.
  - destruct r as [u|e|]; [| |done]; cbn [health_probe_loop].
    + specialize (IH None). cbn in IH. destruct (health_probe_loop 0 results).
      * destruct IH as (err & Hf & ->). exists err. split; [|done]. destruct last; rewrite !failed_twice_cons; by repeat right.
      * intros err Hf. apply (IH err). destruct last; rewrite !failed_twice_cons in Hf; naive_solver.
    + destruct last as [e0|].
      * rewrite decide_True by (unfold HEALTH_PROBE_FAILURE_THRESHOLD, u32_max; lia). exists e. split; [|done]. by exists [], e0, results.
      * rewrite decide_False by (unfold HEALTH_PROBE_FAILURE_THRESHOLD, u32_max; lia). exact (IH (Some e)).
Qed.

(** The health probe reports a connection exactly when two checks in a row
    failed, with the text of the second failure; a check that succeeds in
    between starts the count again. *)
Theorem health_probe_threshold results :
  Forall no_panic results →
  match health_probe_loop 0 results with
  | Some reason => ∃ err, failed_twice results err ∧ reason = failure_text err
  | None => ∀ err, ¬ failed_twice results err
  end.
Proof. apply (health_probe_from None). Qed.
Lemma health_probe_threshold_witness :
  (∃ err, failed_twice [Err (Closed (str "a")); Ret (); Err (Closed (str "b")); Err (Closed (str "c"))] err) ∧
  health_probe_loop 0 [Err (Closed (str "a")); Ret (); Err (Closed (str "b"))] = None.
Proof.
  split; [|reflexivity].
  pose proof (health_probe_threshold [Err (Closed (str "a")); Ret (); Err (Closed (str "b")); Err (Closed (str "c"))]
    ltac:(repeat constructor; discriminate)) as Hh.
  change (health_probe_loop 0 _) with (Some (failure_text (Closed (str "c")))) in Hh. destruct Hh as (err & Hf & _). exists err. exact Hf.
Defined.
