(* ===== verification/UdpForward.v ===== *)
(** * UDP and WireGuard forwarding ([app/src/udp_forwarding.rs])

    The forwarder keeps a session in the tunnel for each peer that sends to its
    socket. The loop that reads the socket, a receive task for each session and
    the cleanup of idle sessions run concurrently and share the map of sessions
    by the peer's address. A turn is what one of them does between two
    suspensions; what the environment decides is part of the turn. Dropping the
    last reference to a session, or the end of its receive task, closes it in
    the tunnel. Times are nanoseconds. *)
From S2P Require Import Prelude Errors RustStr Limit Obfs ObfsSocket Net UdpClient Quic Config.
Local Open Scope Z_scope.

#[global] Instance SocketAddr_countable : Countable SocketAddr.
Proof.
  refine (inj_countable' (fun a => match a with SocketV4 o p => (true, o, p) | SocketV6 o p => (false, o, p) end)
    (fun x => match x with (true, o, p) => SocketV4 o p | (false, o, p) => SocketV6 o p end) _).
  by intros [].
Defined.

Definition FORWARD_DEFAULT_TIMEOUT : Z := 60 * NANOS_PER_SEC.
Definition IDLE_CLEANUP_INTERVAL : Z := NANOS_PER_SEC.
Definition UDP_BUFFER_SIZE : Z := 64 * 1024.

(** The settings [serve_udp_forwarder] works with. *)
Definition forward_timeout (config : UdpForwardingEntry) : Z :=
  if decide (uf_timeout config = 0) then FORWARD_DEFAULT_TIMEOUT else uf_timeout config.
Definition forward_channel_size (config : UdpForwardingEntry) : Z :=
  if decide (uf_channel_depth config = 0) then DEFAULT_CLIENT_UDP_MESSAGE_CHANNEL_SIZE else uf_channel_depth config.
(** [configure_socket_buffers]: the buffer sizes it sets. *)
Definition configure_socket_buffers (recv send : Z) : option Z * option Z :=
  (if decide (0 < recv) then Some recv else None, if decide (0 < send) then Some send else None).

(** ** State *)

(** A session; [fs_closed] is its tunnel's. *)
Record fsession := mkFsession { fs_peer : SocketAddr; fs_closed : bool; fs_last_activity : Z; fs_timed_out : bool }.

(** Where the loop over the socket, a receive task and the cleanup stand. *)
Inductive main_phase :=
| MReceive
| MInsert (peer : SocketAddr) (sid : nat) (data : bytes)
| MTouch (peer : SocketAddr) (sid : nat) (data : bytes)
| MSend (peer : SocketAddr) (sid : nat) (data : bytes)
| MClose (peer : SocketAddr) (sid : nat)
| MEnded.
#[global] Instance main_phase_eq_dec : EqDecision main_phase.
Proof. solve_decision. Defined.
Inductive receive_phase := RReceive | RTouch (payload : bytes) | RSend (payload : bytes) | REnd.
Inductive cleanup_phase :=
| CWait
| CCheck (snapshot expired : list (SocketAddr * nat))
| CMark (expired : list (SocketAddr * nat))
| CClose (peer : SocketAddr) (sid : nat) (expired : list (SocketAddr * nat)).

Record forwarder := mkForwarder {
  fw_sessions : gmap SocketAddr nat;
  fw_store : gmap nat fsession;
  fw_receivers : gmap nat receive_phase;
  fw_main : main_phase;
  fw_cleanup : cleanup_phase;
  fw_next : nat;
  fw_lost : bool;
  (** what was sent through a session, and to which peer, in order *)
  fw_uploads : list (nat * SocketAddr * bytes);
  fw_downloads : list (nat * SocketAddr * bytes)
}.
Definition forwarder_new : forwarder := mkForwarder ∅ ∅ ∅ MReceive CWait 0 false [] [].

Definition set_sessions (x : gmap SocketAddr nat) (f : forwarder) : forwarder :=
  mkForwarder x (fw_store f) (fw_receivers f) (fw_main f) (fw_cleanup f) (fw_next f) (fw_lost f) (fw_uploads f) (fw_downloads f).
Definition set_store (x : gmap nat fsession) (f : forwarder) : forwarder :=
  mkForwarder (fw_sessions f) x (fw_receivers f) (fw_main f) (fw_cleanup f) (fw_next f) (fw_lost f) (fw_uploads f) (fw_downloads f).
Definition set_receivers (x : gmap nat receive_phase) (f : forwarder) : forwarder :=
  mkForwarder (fw_sessions f) (fw_store f) x (fw_main f) (fw_cleanup f) (fw_next f) (fw_lost f) (fw_uploads f) (fw_downloads f).
Definition set_main (x : main_phase) (f : forwarder) : forwarder :=
  mkForwarder (fw_sessions f) (fw_store f) (fw_receivers f) x (fw_cleanup f) (fw_next f) (fw_lost f) (fw_uploads f) (fw_downloads f).
Definition set_cleanup (x : cleanup_phase) (f : forwarder) : forwarder :=
  mkForwarder (fw_sessions f) (fw_store f) (fw_receivers f) (fw_main f) x (fw_next f) (fw_lost f) (fw_uploads f) (fw_downloads f).

(** [session.tunnel.close()], [touch] and [mark_timed_out], which tells whether
    it was the first. *)
Definition close_tunnel (s : fsession) : fsession := mkFsession (fs_peer s) true (fs_last_activity s) (fs_timed_out s).
Definition touch (now : Z) (s : fsession) : fsession := mkFsession (fs_peer s) (fs_closed s) now (fs_timed_out s).
Definition mark_timed_out (s : fsession) : bool * fsession :=
  (negb (fs_timed_out s), mkFsession (fs_peer s) (fs_closed s) (fs_last_activity s) true).
Definition is_idle (now timeout : Z) (s : fsession) : bool := bool_decide (timeout < now - fs_last_activity s).
Definition close_sid (sid : nat) (f : forwarder) : forwarder := set_store (alter close_tunnel sid (fw_store f)) f.
Definition touch_sid (now : Z) (sid : nat) (f : forwarder) : forwarder := set_store (alter (touch now) sid (fw_store f)) f.

(** ** References *)

Definition main_holds (p : main_phase) (sid : nat) : bool :=
  match p with
  | MInsert _ s _ | MTouch _ s _ | MSend _ s _ | MClose _ s => bool_decide (s = sid)
  | MReceive | MEnded => false
  end.
Definition cleanup_entries (p : cleanup_phase) : list (SocketAddr * nat) :=
  match p with
  | CWait => []
  | CCheck snapshot expired => snapshot ++ expired
  | CMark expired => expired
  | CClose peer sid expired => (peer, sid) :: expired
  end.
Definition held (f : forwarder) (sid : nat) : bool :=
  bool_decide (sid ∈ (map_to_list (fw_sessions f)).*2) || main_holds (fw_main f) sid || bool_decide (sid ∈ (cleanup_entries (fw_cleanup f)).*2).
(** Sessions nobody refers to are dropped, which closes them. *)
Definition drop_unheld (f : forwarder) : forwarder :=
  set_store (map_imap (fun sid s => Some (if held f sid then s else close_tunnel s)) (fw_store f)) f.

(** ** Turns *)

Inductive turn :=
| TPacket (peer : SocketAddr) (data : bytes) (opened : bool) (now : Z)
| TSocketError
| TInsert
| TTouch (now : Z)
| TSend (sent : bool)
| TClose
| TReceived (sid : nat) (payload : bytes)
| TReceiveError (sid : nat)
| TTaskTouch (sid : nat) (now : Z)
| TTaskSend (sid : nat) (sent : bool)
| TTaskEnd (sid : nat)
| TTick (snapshot : list (SocketAddr * nat))
| TCheck (now : Z)
| TMark
| TExpire
| TLost.

Section forwarder.
Context (timeout : Z).

(** The end of [serve_udp_forwarder]: the cleanup is aborted and every session
    closed. *)
Definition end_forwarder (f : forwarder) : forwarder :=
  set_main MEnded (set_cleanup CWait (set_sessions ∅
    (foldr close_sid f (map_to_list (fw_sessions f)).*2))).

(** [get_or_create_session] up to the insertion of a new session. *)
Definition get_or_create_session (peer : SocketAddr) (data : bytes) (opened : bool) (now : Z) (f : forwarder) : forwarder :=
  match fw_sessions f !! peer with
  | Some sid => set_main (MTouch peer sid data) f
  | None =>
      if opened then
        let sid := fw_next f in
        mkForwarder (fw_sessions f) (<[sid := mkFsession peer false now false]> (fw_store f)) (<[sid := RReceive]> (fw_receivers f))
          (MInsert peer sid data) (fw_cleanup f) (S sid) (fw_lost f) (fw_uploads f) (fw_downloads f)
      else end_forwarder f
  end.

(** [close_session], once it has the lock. *)
Definition close_session (peer : SocketAddr) (sid : nat) (f : forwarder) : forwarder :=
  close_sid sid (set_sessions (delete peer (fw_sessions f)) f).

(** A turn of the loop over the socket. *)
Definition main_turn (t : turn) (f : forwarder) : option forwarder :=
  match t, fw_main f with
  | TPacket peer data opened now, MReceive => Some (get_or_create_session peer data opened now f)
  | TSocketError, MReceive => Some (end_forwarder f)
  | TInsert, MInsert peer sid data => Some (set_main (MTouch peer sid data) (set_sessions (<[peer := sid]> (fw_sessions f)) f))
  | TTouch now, MTouch peer sid data => Some (set_main (MSend peer sid data) (touch_sid now sid f))
  | TSend sent, MSend peer sid data =>
      s ← fw_store f !! sid;
      if fs_closed s || negb sent then Some (set_main (MClose peer sid) f)
      else Some (mkForwarder (fw_sessions f) (fw_store f) (fw_receivers f) MReceive (fw_cleanup f) (fw_next f) (fw_lost f)
             (fw_uploads f ++ [(sid, peer, data)]) (fw_downloads f))
  | TClose, MClose peer sid => Some (set_main MReceive (close_session peer sid f))
  | _, _ => None
  end.

(** A turn of the receive task of a session, which knows its peer. *)
Definition receive_turn (t : turn) (f : forwarder) : option forwarder :=
  match t with
  | TReceived sid payload =>
      match fw_receivers f !! sid with
      | Some RReceive => Some (set_receivers (<[sid := RTouch payload]> (fw_receivers f)) f)
      | _ => None
      end
  | TReceiveError sid =>
      s ← fw_store f !! sid;
      match fw_receivers f !! sid with
      | Some RReceive => if fs_closed s || fw_lost f then Some (set_receivers (<[sid := REnd]> (fw_receivers f)) f) else None
      | _ => None
      end
  | TTaskTouch sid now =>
      s ← fw_store f !! sid;
      match fw_receivers f !! sid with
      | Some (RTouch payload) =>
          let f := match fw_sessions f !! fs_peer s with Some other => touch_sid now other f | None => f end in
          Some (set_receivers (<[sid := RSend payload]> (fw_receivers f)) f)
      | _ => None
      end
  | TTaskSend sid sent =>
      s ← fw_store f !! sid;
      match fw_receivers f !! sid with
      | Some (RSend payload) =>
          if sent then
            Some (mkForwarder (fw_sessions f) (fw_store f) (<[sid := RReceive]> (fw_receivers f)) (fw_main f) (fw_cleanup f) (fw_next f)
              (fw_lost f) (fw_uploads f) (fw_downloads f ++ [(sid, fs_peer s, payload)]))
          else Some (set_receivers (<[sid := REnd]> (fw_receivers f)) f)
      | _ => None
      end
  | TTaskEnd sid =>
      s ← fw_store f !! sid;
      match fw_receivers f !! sid with
      | Some REnd =>
          let f := match fw_sessions f !! fs_peer s with
                   | Some other => close_sid other (set_sessions (delete (fs_peer s) (fw_sessions f)) f)
                   | None => f
                   end in
          Some (close_sid sid (set_receivers (delete sid (fw_receivers f)) f))
      | _ => None
      end
  | _ => None
  end.

(** A turn of [idle_cleanup_loop]. *)
Definition cleanup_turn (t : turn) (f : forwarder) : option forwarder :=
  match t, fw_cleanup f with
  | TTick snapshot, CWait =>
      if decide (fw_main f ≠ MEnded ∧ snapshot ≡ₚ map_to_list (fw_sessions f)) then Some (set_cleanup (CCheck snapshot []) f) else None
  | TCheck now, CCheck ((peer, sid) :: snapshot) expired =>
      s ← fw_store f !! sid;
      Some (set_cleanup (CCheck snapshot (if is_idle now timeout s then expired ++ [(peer, sid)] else expired)) f)
  | TMark, CCheck [] expired => Some (set_cleanup (CMark expired) f)
  | TMark, CMark ((peer, sid) :: expired) =>
      s ← fw_store f !! sid;
      let '(first, s) := mark_timed_out s in
      Some (set_cleanup (if first then CClose peer sid expired else CMark expired) (set_store (<[sid := s]> (fw_store f)) f))
  | TMark, CMark [] => Some (set_cleanup CWait f)
  | TExpire, CClose peer sid expired => Some (set_cleanup (CMark expired) (close_session peer sid f))
  | _, _ => None
  end.

(** The connection is lost: every receive ends. *)
Definition lose (f : forwarder) : forwarder :=
  mkForwarder (fw_sessions f) (fw_store f) (fw_receivers f) (fw_main f) (fw_cleanup f) (fw_next f) true (fw_uploads f) (fw_downloads f).

Definition take_turn (t : turn) (f : forwarder) : option forwarder :=
  drop_unheld <$>
    match t with
    | TPacket _ _ _ _ | TSocketError | TInsert | TTouch _ | TSend _ | TClose => main_turn t f
    | TReceived _ _ | TReceiveError _ | TTaskTouch _ _ | TTaskSend _ _ | TTaskEnd _ => receive_turn t f
    | TTick _ | TCheck _ | TMark | TExpire => cleanup_turn t f
    | TLost => Some (lose f)
    end.
Fixpoint run (ts : list turn) (f : forwarder) : option forwarder :=
  match ts with
  | [] => Some f
  | t :: ts => f ← take_turn t f; run ts f
  end.
End forwarder.

(** ** What is sent, received and delivered *)

Definition packets (ts : list turn) : list (SocketAddr * bytes) :=
  omap (fun t => match t with TPacket peer data _ _ => Some (peer, data) | _ => None end) ts.
Definition received (ts : list turn) (sid : nat) : list bytes :=
  omap (fun t => match t with TReceived s payload => if decide (s = sid) then Some payload else None | _ => None end) ts.
Definition delivered (f : forwarder) (sid : nat) : list bytes :=
  omap (fun d => if decide (d.1.1 = sid) then Some d.2 else None) (fw_downloads f).
Definition uploaded (f : forwarder) : list (SocketAddr * bytes) := map (fun u => (u.1.2, u.2)) (fw_uploads f).
(** The peer each session was made for. *)
Definition peers (f : forwarder) : gmap nat SocketAddr := fs_peer <$> fw_store f.
Definition is_open (f : forwarder) (sid : nat) : Prop := ∃ s, fw_store f !! sid = Some s ∧ fs_closed s = false.

(** What the loop over the socket has in its hands. *)
Definition main_entry (p : main_phase) : list (SocketAddr * nat) :=
  match p with
  | MInsert peer sid _ | MTouch peer sid _ | MSend peer sid _ | MClose peer sid => [(peer, sid)]
  | MReceive | MEnded => []
  end.
Definition main_data (p : main_phase) : list (SocketAddr * bytes) :=
  match p with
  | MInsert peer _ data | MTouch peer _ data | MSend peer _ data => [(peer, data)]
  | _ => []
  end.
Definition in_flight (p : option receive_phase) (got gave : list bytes) : Prop :=
  match p with
  | Some RReceive => got = gave
  | Some (RTouch payload) | Some (RSend payload) => got = gave ++ [payload]
  | Some REnd | None => gave `prefix_of` got
  end.

(** The invariant after the turns [ts], before unheld sessions are dropped. *)
Record inv (ts : list turn) (f : forwarder) : Prop := mkInv {
  inv_sessions : ∀ peer sid, fw_sessions f !! peer = Some sid → peers f !! sid = Some peer;
  inv_main : Forall (fun e => peers f !! e.2 = Some e.1) (main_entry (fw_main f));
  inv_cleanup : Forall (fun e => peers f !! e.2 = Some e.1) (cleanup_entries (fw_cleanup f));
  inv_next : ∀ sid, is_Some (peers f !! sid) → (sid < fw_next f)%nat;
  inv_receivers : ∀ sid, is_Some (fw_receivers f !! sid) → is_Some (peers f !! sid);
  inv_open : ∀ sid, is_open f sid → is_Some (fw_receivers f !! sid);
  inv_uploads : Forall (fun u => peers f !! u.1.1 = Some u.1.2) (fw_uploads f);
  inv_packets : uploaded f ++ main_data (fw_main f) `sublist_of` packets ts;
  inv_downloads : Forall (fun d => peers f !! d.1.1 = Some d.1.2) (fw_downloads f);
  inv_received : ∀ sid, in_flight (fw_receivers f !! sid) (received ts sid) (delivered f sid);
  inv_fresh : ∀ sid, (fw_next f ≤ sid)%nat → received ts sid = [] ∧ delivered f sid = []
}.

(** A field that an operation on a session, or dropping, leaves as it is. *)
Lemma field_alter {A} (p : fsession → A) g sid (m : gmap nat fsession) : (∀ s, p (g s) = p s) → p <$> alter g sid m = p <$> m.
Proof.
  intros Hg. apply map_eq. intros i. rewrite !lookup_fmap. destruct (decide (i = sid)) as [->|].
  - rewrite lookup_alter_eq. destruct (m !! sid); cbn; [by rewrite Hg|done].
  - by rewrite lookup_alter_ne.
Qed.
Lemma field_drop {A} (p : fsession → A) f : (∀ s, p (close_tunnel s) = p s) → p <$> fw_store (drop_unheld f) = p <$> fw_store f.
Proof.
  intros Hp. apply map_eq. intros i. cbn. rewrite !lookup_fmap, map_lookup_imap. destruct (fw_store f !! i); [|done].
  cbn. by destruct (held f i); [|rewrite Hp].
Qed.

Section invariant.
Context (timeout : Z).

Lemma peers_alter g sid f : (∀ s, fs_peer (g s) = fs_peer s) → peers (set_store (alter g sid (fw_store f)) f) = peers f.
Proof. apply field_alter. Qed.
Lemma inv_alter ts f g sid :
  (∀ s, fs_peer (g s) = fs_peer s) → (∀ s, fs_closed s = true → fs_closed (g s) = true) →
  inv ts f → inv ts (set_store (alter g sid (fw_store f)) f).
Proof.
  intros Hp Hc []. constructor; rewrite ?(peers_alter g sid f Hp); try done.
  intros i (s & Hs & Ho). apply inv_open0. cbn in Hs. destruct (decide (i = sid)) as [->|].
  - rewrite lookup_alter_eq in Hs. apply fmap_Some in Hs as (s0 & Hs & ->). exists s0. split; [done|].
    destruct (fs_closed s0) eqn:E; [|done]. by rewrite Hc in Ho.
  - rewrite lookup_alter_ne in Hs by done. by exists s.
Qed.
Lemma inv_close ts f sid : inv ts f → inv ts (close_sid sid f).
Proof. by apply inv_alter. Qed.
Lemma inv_touch ts f now sid : inv ts f → inv ts (touch_sid now sid f).
Proof. by apply inv_alter. Qed.
Lemma inv_delete ts f peer : inv ts f → inv ts (set_sessions (delete peer (fw_sessions f)) f).
Proof. intros []. constructor; try done. intros p s. cbn. rewrite lookup_delete. case_decide; [done|]. apply inv_sessions0. Qed.
Lemma inv_close_session ts f peer sid : inv ts f → inv ts (close_session peer sid f).
Proof. intros. by apply inv_close, inv_delete. Qed.

Lemma inv_set_main ts f m :
  inv ts f → Forall (fun e => peers f !! e.2 = Some e.1) (main_entry m) → uploaded f ++ main_data m `sublist_of` packets ts →
  inv ts (set_main m f).
Proof. intros [] Hm Hd. by constructor. Qed.
Lemma inv_set_main_done ts f m : inv ts f → main_entry m = [] → main_data m = [] → inv ts (set_main m f).
Proof.
  intros Hi Hm Hd. apply inv_set_main; [done|by rewrite Hm|]. rewrite Hd, app_nil_r. etrans; [|apply (inv_packets _ _ Hi)].
  by apply sublist_inserts_r.
Qed.
Lemma inv_set_cleanup ts f c : inv ts f → Forall (fun e => peers f !! e.2 = Some e.1) (cleanup_entries c) → inv ts (set_cleanup c f).
Proof. intros [] Hc. by constructor. Qed.

(** A receive task moves on. *)
Lemma inv_set_receiver ts f sid p :
  inv ts f → is_Some (peers f !! sid) → in_flight (Some p) (received ts sid) (delivered f sid) → inv ts (set_receivers (<[sid := p]> (fw_receivers f)) f).
Proof.
  intros [] Hs Hp. constructor; try done; cbn; intros i; rewrite lookup_insert; case_decide; subst; try done; eauto.
Qed.

Lemma omap_snoc {A B} (g : A → option B) l x : omap g (l ++ [x]) = omap g l ++ (match g x with Some y => [y] | None => [] end).
Proof. rewrite omap_app. cbn. by destruct (g x). Qed.
Lemma inv_snoc ts t f : (∀ sid payload, t ≠ TReceived sid payload) → inv ts f → inv (ts ++ [t]) f.
Proof.
  intros Ht []. assert (∀ sid, received (ts ++ [t]) sid = received ts sid) as Hr.
  { intros sid. unfold received. rewrite omap_snoc. destruct t; try apply app_nil_r. by edestruct Ht. }
  constructor; try done.
  - unfold packets. rewrite omap_snoc. etrans; [exact inv_packets0|]. by apply sublist_inserts_r.
  - intros sid. by rewrite Hr.
  - intros sid Hsid. rewrite Hr. by apply inv_fresh0.
Qed.

Lemma inv_end ts f : inv ts f → inv ts (end_forwarder f).
Proof.
  intros Hi. unfold end_forwarder. apply inv_set_main_done; [|done..].
  assert (∀ l, inv ts (foldr close_sid f l)) as H by (induction l; [done|by apply inv_close]).
  specialize (H (map_to_list (fw_sessions f)).*2). set (g := foldr close_sid f _) in *. clearbody g. destruct H. by constructor.
Qed.

Lemma inv_store ts f sid s : inv ts f → fw_store f !! sid = Some s → peers f !! sid = Some (fs_peer s).
Proof. intros _ Hs. unfold peers. by rewrite lookup_fmap, Hs. Qed.

Lemma inv_packet ts f peer data opened now :
  fw_main f = MReceive → inv ts f → inv (ts ++ [TPacket peer data opened now]) (get_or_create_session peer data opened now f).
Proof.
  intros Hm Hi. assert (inv (ts ++ [TPacket peer data opened now]) f) as Hi' by by apply inv_snoc.
  assert (uploaded f ++ [(peer, data)] `sublist_of` packets (ts ++ [TPacket peer data opened now])) as Hup.
  { unfold packets. rewrite omap_snoc. apply sublist_app; [|done]. pose proof (inv_packets _ _ Hi) as Hp. by rewrite Hm, app_nil_r in Hp. }
  unfold get_or_create_session. destruct (fw_sessions f !! peer) as [sid|] eqn:Es.
  - apply inv_set_main; [done| |done]. constructor; [|done]. by apply (inv_sessions _ _ Hi).
  - destruct opened; [|by apply inv_end]. set (sid := fw_next f).
    assert (peers f !! sid = None) as Hnone.
    { destruct (peers f !! sid) eqn:E; [|done]. assert (sid < fw_next f)%nat by (apply (inv_next _ _ Hi); eauto). lia. }
    assert (∀ i q, peers f !! i = Some q → <[sid:=peer]> (peers f) !! i = Some q) as Hmono.
    { intros i q Hq. rewrite lookup_insert_ne; [done|]. intros ->. congruence. }
    destruct Hi' as []. destruct (inv_fresh0 sid) as [Hr0 Hd0]; [done|].
    match goal with |- inv _ ?g => assert (peers g = <[sid := peer]> (peers f)) as Hpeers by (unfold peers; cbn; by rewrite fmap_insert) end.
    constructor; rewrite ?Hpeers; cbn.
    + intros p i Hp. apply Hmono. by apply inv_sessions0.
    + constructor; [|done]. cbn. by rewrite lookup_insert_eq.
    + eapply Forall_impl; [exact inv_cleanup0|]. cbn. auto.
    + intros i. rewrite lookup_insert. case_decide; [subst; lia|]. intros Hi2. apply inv_next0 in Hi2. lia.
    + intros i. rewrite !lookup_insert. case_decide; [eauto|]. apply inv_receivers0.
    + intros i (s & Hs & Ho). cbn [fw_store] in Hs. destruct (decide (sid = i)) as [->|Hne]; [rewrite lookup_insert_eq; eauto|].
      rewrite lookup_insert_ne in Hs by done. rewrite lookup_insert_ne by done. apply inv_open0. by exists s.
    + eapply Forall_impl; [exact inv_uploads0|]. cbn. auto.
    + exact Hup.
    + eapply Forall_impl; [exact inv_downloads0|]. cbn. auto.
    + intros i. rewrite lookup_insert. case_decide as E; [|apply inv_received0]. subst i. cbn. rewrite Hr0. exact (eq_sym Hd0).
    + intros i Hlt. apply inv_fresh0. lia.
Qed.

Lemma inv_main_turn ts t f f' : inv ts f → main_turn t f = Some f' → inv (ts ++ [t]) f'.
Proof.
  intros Hi Ht. pose proof (inv_snoc ts t f) as Hi'. pose proof (inv_main _ _ Hi) as Hm. pose proof (inv_packets _ _ Hi) as Hp.
  destruct t; cbn in Ht; destruct (fw_main f) as [|peer' sid' data'|peer' sid' data'|peer' sid' data'|peer' sid'|] eqn:E; try done;
    try (injection Ht as <-; by apply inv_packet);
    specialize (Hi' ltac:(intros ??; discriminate) Hi).
  - injection Ht as <-. by apply inv_end.
  - injection Ht as <-. apply inv_set_main; [|done|].
    + destruct Hi'. constructor; try done. intros p i. cbn. rewrite lookup_insert. case_decide; [|apply inv_sessions0].
      intros [= <-]. subst. by apply Forall_cons in Hm as [? _].
    + pose proof (inv_packets _ _ Hi') as Hp'. by rewrite E in Hp'.
  - injection Ht as <-. apply inv_set_main; [by apply inv_touch| |].
    + unfold touch_sid. by rewrite peers_alter.
    + pose proof (inv_packets _ _ Hi') as Hp'. by rewrite E in Hp'.
  - apply bind_Some in Ht as (s & Hs & Ht). destruct (fs_closed s || negb sent).
    + injection Ht as <-. apply inv_set_main; [done|done|]. pose proof (inv_packets _ _ Hi') as Hp'. rewrite E in Hp'.
      etrans; [|exact Hp']. cbn. rewrite app_nil_r. by apply sublist_inserts_r.
    + injection Ht as <-. pose proof (inv_packets _ _ Hi') as Hp'. rewrite E in Hp'. destruct Hi'. constructor; try done.
      * cbn. apply Forall_app. split; [done|]. constructor; [|done]. by apply Forall_cons in Hm as [? _].
      * unfold uploaded. cbn. rewrite map_app, app_nil_r. exact Hp'.
  - injection Ht as <-. apply inv_set_main_done; [|done..]. by apply inv_close_session.
Qed.
Lemma inv_received_turn ts f sid payload :
  fw_receivers f !! sid = Some RReceive → inv ts f →
  inv (ts ++ [TReceived sid payload]) (set_receivers (<[sid := RTouch payload]> (fw_receivers f)) f).
Proof.
  intros Hr Hi. assert (∀ i, received (ts ++ [TReceived sid payload]) i = received ts i ++ (if decide (sid = i) then [payload] else [])) as Hrec.
  { intros i. unfold received. rewrite omap_snoc. by case_decide. }
  assert (is_Some (peers f !! sid)) as Hs by (apply (inv_receivers _ _ Hi); rewrite Hr; eauto).
  destruct Hi. constructor; try done.
  - intros i. cbn. rewrite lookup_insert. case_decide; [by subst|]. apply inv_receivers0.
  - intros i Ho. cbn. rewrite lookup_insert. case_decide; [eauto|]. by apply inv_open0.
  - unfold packets. rewrite omap_snoc, app_nil_r. done.
  - intros i. cbn. rewrite lookup_insert, Hrec. case_decide.
    + subst i. specialize (inv_received0 sid). rewrite Hr in inv_received0. cbn in inv_received0 |- *. by rewrite inv_received0.
    + rewrite app_nil_r. apply inv_received0.
  - intros i Hlt. rewrite Hrec. assert (sid < fw_next f)%nat by by apply inv_next0. rewrite decide_False by (cbn in Hlt; lia).
    rewrite app_nil_r. by apply inv_fresh0.
Qed.

Lemma inv_receive_turn ts t f f' : inv ts f → receive_turn t f = Some f' → inv (ts ++ [t]) f'.
Proof.
  intros Hi Ht. pose proof (inv_snoc ts t f) as Hi'. destruct t; cbn in Ht; try done.
  - destruct (fw_receivers f !! sid) as [[]|] eqn:E; try done. injection Ht as <-. by apply inv_received_turn.
  - specialize (Hi' ltac:(intros ??; discriminate) Hi).
    apply bind_Some in Ht as (s & Hs & Ht). destruct (fw_receivers f !! sid) as [[]|] eqn:E; try done.
    destruct (fs_closed s || fw_lost f); [|done]. injection Ht as <-. apply inv_set_receiver; [done|rewrite (inv_store _ _ _ _ Hi Hs); eauto|].
    pose proof (inv_received _ _ Hi' sid) as Hr. rewrite E in Hr. cbn in Hr |- *. by rewrite Hr.
  - specialize (Hi' ltac:(intros ??; discriminate) Hi).
    apply bind_Some in Ht as (s & Hs & Ht). destruct (fw_receivers f !! sid) as [[]|] eqn:E; try done. injection Ht as <-.
    assert (∀ g, inv (ts ++ [TTaskTouch sid now]) g → peers g = peers f → fw_receivers g = fw_receivers f → delivered g sid = delivered f sid →
      inv (ts ++ [TTaskTouch sid now]) (set_receivers (<[sid := RSend payload]> (fw_receivers g)) g)) as Hgen.
    { intros g Hg Hp Hrec Hd. apply inv_set_receiver; [done|rewrite Hp, (inv_store _ _ _ _ Hi Hs); eauto|].
      pose proof (inv_received _ _ Hi' sid) as Hr. rewrite E in Hr. rewrite Hd. exact Hr. }
    destruct (fw_sessions f !! fs_peer s); [|by apply Hgen]. apply Hgen; [by apply inv_touch| |done|done]. unfold touch_sid. by rewrite peers_alter.
  - specialize (Hi' ltac:(intros ??; discriminate) Hi).
    apply bind_Some in Ht as (s & Hs & Ht). destruct (fw_receivers f !! sid) as [[]|] eqn:E; try done.
    pose proof (inv_received _ _ Hi' sid) as Hr. rewrite E in Hr. cbn in Hr. pose proof (inv_store _ _ _ _ Hi Hs) as Hpeer.
    destruct sent; injection Ht as <-.
    + assert (sid < fw_next f)%nat by (apply (inv_next _ _ Hi); rewrite Hpeer; eauto).
      destruct Hi'. constructor; try done.
      * intros i. cbn. rewrite lookup_insert. case_decide; [subst; intros _; exists (fs_peer s); exact Hpeer|]. apply inv_receivers0.
      * intros i Ho. cbn. rewrite lookup_insert. case_decide; [eauto|]. by apply inv_open0.
      * cbn. apply Forall_app. split; [done|]. by constructor.
      * intros i. cbn. unfold delivered. cbn. rewrite omap_snoc. rewrite lookup_insert. case_decide.
        -- subst i. cbn. rewrite decide_True by done. exact Hr.
        -- cbn. rewrite decide_False by done. rewrite app_nil_r. apply inv_received0.
      * intros i Hlt. destruct (inv_fresh0 i Hlt) as [? ?]. split; [done|]. unfold delivered. cbn. rewrite omap_snoc. cbn in *.
        rewrite decide_False by lia. by rewrite app_nil_r.
    + apply inv_set_receiver; [done|rewrite Hpeer; eauto|]. cbn. rewrite Hr. by eexists.
  - specialize (Hi' ltac:(intros ??; discriminate) Hi).
    apply bind_Some in Ht as (s & Hs & Ht). destruct (fw_receivers f !! sid) as [[]|] eqn:E; try done. injection Ht as <-.
    assert (∀ g, inv (ts ++ [TTaskEnd sid]) g → fw_receivers g !! sid = Some REnd →
      inv (ts ++ [TTaskEnd sid]) (close_sid sid (set_receivers (delete sid (fw_receivers g)) g))) as Hgen.
    { intros g Hg Hrec. pose proof (inv_close _ _ sid Hg) as Hc. destruct Hc. constructor; try done.
      - intros i. cbn. rewrite lookup_delete. case_decide; [by intros []|]. apply inv_receivers0.
      - intros i Ho. cbn. rewrite lookup_delete. case_decide; [|by apply inv_open0]. subst i. destruct Ho as (x & Hx & Ho). cbn in Hx.
        rewrite lookup_alter_eq in Hx. apply fmap_Some in Hx as (y & _ & ->). done.
      - intros i. cbn. rewrite lookup_delete. case_decide; [|apply inv_received0]. subst i. specialize (inv_received0 sid).
        cbn in inv_received0. rewrite Hrec in inv_received0. exact inv_received0. }
    destruct (fw_sessions f !! fs_peer s); apply Hgen; try done. apply inv_close, inv_delete. done.
Qed.

Lemma inv_cleanup_turn ts t f f' : inv ts f → cleanup_turn timeout t f = Some f' → inv (ts ++ [t]) f'.
Proof.
  intros Hi Ht. pose proof (inv_snoc ts t f) as Hi'. pose proof (inv_cleanup _ _ Hi) as Hc.
  destruct t; cbn in Ht; destruct (fw_cleanup f) as [|snap expired|expired|peer' sid' expired] eqn:E; try done;
    specialize (Hi' ltac:(intros ??; discriminate) Hi).
  - case_decide as Hd; [|done]. destruct Hd as [_ Hperm]. injection Ht as <-. apply inv_set_cleanup; [done|]. cbn. rewrite app_nil_r.
    apply Forall_forall. intros [peer sid] Hin. rewrite Hperm in Hin. apply elem_of_map_to_list in Hin. by apply (inv_sessions _ _ Hi).
  - destruct snap as [|[peer sid] snap]; [done|]. apply bind_Some in Ht as (s & Hs & Ht). injection Ht as <-. apply inv_set_cleanup; [done|].
    cbn in Hc |- *. apply Forall_cons in Hc as [He Hc]. apply Forall_app in Hc as [Hc1 Hc2]. apply Forall_app. split; [done|].
    destruct (is_idle now timeout s); [|done]. apply Forall_app. split; [done|]. by constructor.
  - destruct snap as [|[peer sid] snap]; [|done]. injection Ht as <-. by apply inv_set_cleanup.
  - destruct expired as [|[peer sid] expired]; [injection Ht as <-; by apply inv_set_cleanup|].
    apply bind_Some in Ht as (s & Hs & Ht). injection Ht as <-.
    replace (<[sid := (mark_timed_out s).2]> (fw_store f)) with (alter (fun s => (mark_timed_out s).2) sid (fw_store f)); last first.
    { apply map_eq. intros i. destruct (decide (i = sid)) as [->|]; [by rewrite lookup_alter_eq, lookup_insert_eq, Hs|].
      by rewrite lookup_alter_ne, lookup_insert_ne. }
    apply inv_set_cleanup; [by apply inv_alter|]. rewrite peers_alter by done. by destruct (negb (fs_timed_out s)); [|apply Forall_cons in Hc as [_ Hc]].
  - injection Ht as <-. apply inv_set_cleanup; [by apply inv_close_session|]. unfold close_session, close_sid. rewrite peers_alter by done.
    by apply Forall_cons in Hc as [_ Hc].
Qed.

Lemma peers_drop f : peers (drop_unheld f) = peers f.
Proof. by apply field_drop. Qed.
Lemma open_drop f sid : is_open (drop_unheld f) sid → is_open f sid ∧ held f sid = true.
Proof.
  intros (s & Hs & Ho). cbn in Hs. rewrite map_lookup_imap in Hs. destruct (fw_store f !! sid) as [x|] eqn:E; [|done]. cbn in Hs.
  injection Hs as <-. destruct (held f sid); [|done]. split; [by exists x|done].
Qed.
Lemma inv_drop ts f : inv ts f → inv ts (drop_unheld f).
Proof. intros []. constructor; rewrite ?peers_drop; try done. intros sid Ho. apply open_drop in Ho as [Ho _]. by apply inv_open0. Qed.

Definition all_held (f : forwarder) : Prop := ∀ sid, is_open f sid → held f sid = true.
Lemma inv_turn ts t f f' : inv ts f → take_turn timeout t f = Some f' → inv (ts ++ [t]) f' ∧ all_held f'.
Proof.
  intros Hi Ht. unfold take_turn in Ht. apply fmap_Some in Ht as (g & Hg & ->). split.
  - apply inv_drop. destruct t; (by eapply inv_main_turn) || (by eapply inv_receive_turn) || (by eapply inv_cleanup_turn) || idtac.
    injection Hg as <-. apply inv_snoc; [done|]. by destruct Hi.
  - intros sid Ho. by apply open_drop in Ho as [_ ?].
Qed.
Lemma inv_run ts0 ts f f' : inv ts0 f → all_held f → run timeout ts f = Some f' → inv (ts0 ++ ts) f' ∧ all_held f'.
Proof.
  revert ts0 f. induction ts as [|t ts IH]; intros ts0 f Hi Ha Hr; [injection Hr as <-; by rewrite app_nil_r|].
  cbn in Hr. apply bind_Some in Hr as (g & Hg & Hr). destruct (inv_turn _ _ _ _ Hi Hg) as [Hi' Ha'].
  change (t :: ts) with ([t] ++ ts). rewrite app_assoc. by eapply IH.
Qed.
Lemma inv_new : inv [] forwarder_new.
Proof.
  constructor; try done; try by constructor.
  all: intros sid; try (intros (x & Hx & _); done); try (intros [x Hx]; done); try (by exists []).
Qed.
End invariant.

(** ** The theorems *)

(** C25: peers are served apart and nothing leaks. After any turns of the loop
    over the socket, the receive tasks and the cleanup, in any order: what was
    sent into the tunnel are packets that arrived, in their order, each through
    a session made for its peer; what a session delivered went to the peer it
    was made for, and is what it received, in order; and a session that is still
    open has its receive task, and is known to the map, the loop or the cleanup.
    So while the loop waits for a packet and the cleanup for its next round,
    there is at most one open session for a peer. *)
Theorem forward_isolated timeout ts f :
  run timeout ts forwarder_new = Some f →
  uploaded f `sublist_of` packets ts ∧
  Forall (fun u => peers f !! u.1.1 = Some u.1.2) (fw_uploads f) ∧
  Forall (fun d => peers f !! d.1.1 = Some d.1.2) (fw_downloads f) ∧
  (∀ sid, delivered f sid `prefix_of` received ts sid) ∧
  (∀ sid, is_open f sid → is_Some (fw_receivers f !! sid) ∧ held f sid = true) ∧
  (fw_main f = MReceive → fw_cleanup f = CWait →
   ∀ sid sid' peer, is_open f sid → is_open f sid' → peers f !! sid = Some peer → peers f !! sid' = Some peer → sid = sid').
Proof.
  intros Hr. destruct (inv_run timeout [] ts forwarder_new f inv_new) as [Hi Ha]; [by intros sid (s & Hs & _)|done|]. cbn in Hi.
  split_and!; try apply Hi.
  - etrans; [|apply (inv_packets _ _ Hi)]. by apply sublist_inserts_r.
  - intros sid. pose proof (inv_received _ _ Hi sid) as H. destruct (fw_receivers f !! sid) as [[]|]; cbn in H; rewrite ?H; try done; by eexists.
  - intros sid Ho. split; [by apply Hi|by apply Ha].
  - intros Hm Hc sid sid' peer Ho Ho' Hp Hp'.
    assert (∀ i, is_open f i → peers f !! i = Some peer → fw_sessions f !! peer = Some i) as Hmap.
    { intros i Hoi Hpi. pose proof (Ha i Hoi) as Hh. unfold held in Hh. rewrite Hm, Hc in Hh. cbn in Hh.
      rewrite orb_false_r, orb_true_iff, !bool_decide_eq_true in Hh. destruct Hh as [Hin|Hin]; [|done].
      apply list_elem_of_fmap in Hin as ([q j] & -> & Hin). apply elem_of_map_to_list in Hin. cbn in *.
      pose proof (inv_sessions _ _ Hi _ _ Hin). congruence. }
    apply Hmap in Ho; [|done]. apply Hmap in Ho'; [|done]. congruence.
Qed.

Definition peer_a : SocketAddr := SocketV4 [10; 0; 0; 1] 5000.
Definition peer_b : SocketAddr := SocketV4 [10; 0; 0; 2] 5000.
(** Two peers send, and the second gets an answer. *)
Definition example_turns : list turn :=
  [TPacket peer_a (str "a") true 0; TInsert; TTouch 0; TSend true; TPacket peer_b (str "b") true 1; TInsert; TTouch 1; TSend true;
   TReceived 1 (str "re"); TTaskTouch 1 2; TTaskSend 1 true].
Lemma forward_isolated_witness :
  ∃ f, run FORWARD_DEFAULT_TIMEOUT example_turns forwarder_new = Some f ∧ fw_downloads f = [(1%nat, peer_b, str "re")] ∧
    uploaded f `sublist_of` [(peer_a, str "a"); (peer_b, str "b")].
Proof.
  destruct (run FORWARD_DEFAULT_TIMEOUT example_turns forwarder_new) as [f|] eqn:E; [|vm_compute in E; discriminate E].
  exists f. split; [reflexivity|]. split.
  - vm_compute in E. injection E as <-. reflexivity.
  - exact (proj1 (forward_isolated FORWARD_DEFAULT_TIMEOUT example_turns f E)).
Defined.

(** ** A round of the cleanup *)

Definition marks (f : forwarder) : gmap nat bool := fs_timed_out <$> fw_store f.
Definition last_activities (f : forwarder) : gmap nat Z := fs_last_activity <$> fw_store f.

(** A session in the map that is marked is being closed; one that is not yet in
    the map is neither marked nor known to the cleanup. *)
Record marked_inv (f : forwarder) : Prop := mkMarked {
  mi_map : ∀ peer sid, fw_sessions f !! peer = Some sid → marks f !! sid = Some true → ∃ rest, fw_cleanup f = CClose peer sid rest;
  mi_insert : ∀ peer sid data, fw_main f = MInsert peer sid data →
    marks f !! sid = Some false ∧ sid ∉ (cleanup_entries (fw_cleanup f)).*2 ∧ ∀ p, fw_sessions f !! p ≠ Some sid
}.
Lemma marked_shrink f g :
  marked_inv f → marks g = marks f → fw_cleanup g = fw_cleanup f →
  (∀ p s, fw_sessions g !! p = Some s → fw_sessions f !! p = Some s) →
  (∀ peer sid data, fw_main g = MInsert peer sid data → fw_main f = MInsert peer sid data) → marked_inv g.
Proof.
  intros [H1 H2] Hm Hc Hs Hi. constructor; rewrite ?Hm, ?Hc.
  - intros peer sid Hp. apply H1. by apply Hs.
  - intros peer sid data Hp. destruct (H2 _ _ _ (Hi _ _ _ Hp)) as (? & ? & Hno). split_and!; try done. intros p Hp'. by apply Hs, Hno in Hp'.
Qed.

Lemma marked_end f : marked_inv f → marked_inv (end_forwarder f).
Proof. intros _. by constructor. Qed.

Section marked.
Context (timeout : Z).

Lemma marked_main_turn ts t f f' : inv ts f → marked_inv f → main_turn t f = Some f' → marked_inv f'.
Proof.
  intros Hi Hm Ht. unfold main_turn in Ht. destruct t, (fw_main f) eqn:Em; try done.
  - injection Ht as <-. unfold get_or_create_session. destruct (fw_sessions f !! peer) as [sid|] eqn:Ep; [by apply (marked_shrink f)|].
    destruct opened; [|by apply marked_end].
    assert (∀ sid, is_Some (peers f !! sid) → sid ≠ fw_next f) as Hnew by (intros sid Hs; apply (inv_next _ _ Hi) in Hs; lia).
    constructor; cbn; unfold marks; cbn.
    + intros p sid Hp. rewrite fmap_insert, lookup_insert_ne; [by apply Hm|]. apply (inv_sessions _ _ Hi) in Hp. intros <-. by apply (Hnew (fw_next f)).
    + intros p sid d [= <- <- <-]. rewrite fmap_insert, lookup_insert_eq. split_and!; [done| |].
      * intros Hin. apply list_elem_of_fmap in Hin as (e & Heq & He). apply (Hnew e.2); [|done].
        pose proof (inv_cleanup _ _ Hi) as Hall. rewrite Forall_forall in Hall. rewrite (Hall _ He). by eexists.
      * intros q Hq. apply (inv_sessions _ _ Hi) in Hq. by apply (Hnew (fw_next f)).
  - injection Ht as <-. by apply marked_end.
  - injection Ht as <-. destruct (mi_insert _ Hm _ _ _ Em) as (Hf & _ & _). constructor; cbn; [|done].
    intros p s. rewrite lookup_insert. case_decide; [intros [= ->]; unfold marks in *; cbn; congruence|apply Hm].
  - injection Ht as <-. apply (marked_shrink f); try done. by apply field_alter.
  - apply bind_Some in Ht as (s & _ & Ht). destruct (fs_closed s || negb sent); injection Ht as <-; by apply (marked_shrink f).
  - injection Ht as <-. apply (marked_shrink f); try done; [by apply field_alter|]. intros p s. cbn. rewrite lookup_delete. by case_decide.
Qed.

Lemma marked_receive_turn t f f' : marked_inv f → receive_turn t f = Some f' → marked_inv f'.
Proof.
  intros Hm Ht. unfold receive_turn in Ht.
  assert (∀ sid other now, marks (touch_sid now sid f) = marks f ∧ marks (close_sid sid f) = marks f ∧ marks (close_sid other (close_sid sid f)) = marks f)
    as Hmarks by (intros; unfold marks; cbn; by rewrite !field_alter).
  destruct t; try done; [|apply bind_Some in Ht as (s & _ & Ht)..]; destruct (fw_receivers f !! sid) as [[]|]; try done.
  - injection Ht as <-. by apply (marked_shrink f).
  - destruct (fs_closed s || fw_lost f); [|done]. injection Ht as <-. by apply (marked_shrink f).
  - injection Ht as <-. destruct (fw_sessions f !! fs_peer s) as [other|]; apply (marked_shrink f); try done. by apply (Hmarks other other now).
  - destruct sent; injection Ht as <-; by apply (marked_shrink f).
  - injection Ht as <-. destruct (fw_sessions f !! fs_peer s) as [other|]; apply (marked_shrink f); try done.
    + by apply (Hmarks other sid 0).
    + intros p x. cbn. rewrite lookup_delete. by case_decide.
    + by apply (Hmarks sid sid 0).
Qed.

Lemma marked_cleanup_turn ts t f f' : inv ts f → marked_inv f → cleanup_turn timeout t f = Some f' → marked_inv f'.
Proof.
  intros Hi [H1 H2] Ht. pose proof (inv_cleanup _ _ Hi) as Hall. unfold cleanup_turn in Ht.
  destruct t; try done; destruct (fw_cleanup f) as [|snap expired|expired|peer sid expired] eqn:Ec; try done.
  - case_decide as Hd; [|done]. destruct Hd as [_ Hp]. injection Ht as <-. constructor; cbn.
    + intros p s Hp' Hs. by destruct (H1 _ _ Hp' Hs).
    + intros p s d Hmain. destruct (H2 _ _ _ Hmain) as (? & _ & Hno). split_and!; try done. rewrite app_nil_r, Hp.
      intros Hin. apply list_elem_of_fmap in Hin as ([q j] & -> & Hin). apply elem_of_map_to_list in Hin. by apply (Hno q).
  - destruct snap as [|[q j] snap]; [done|]. apply bind_Some in Ht as (s & _ & Ht). injection Ht as <-. constructor; cbn.
    + intros p s' Hp' Hs. by destruct (H1 _ _ Hp' Hs).
    + intros p s' d Hmain. destruct (H2 _ _ _ Hmain) as (? & Hn & ?). split_and!; try done. cbn in Hn.
      destruct (is_idle now timeout s); set_solver.
  - destruct snap as [|[q j] snap]; [|done]. injection Ht as <-. constructor; cbn; [|done]. intros p s Hp' Hs. by destruct (H1 _ _ Hp' Hs).
  - destruct expired as [|[q j] expired].
    { injection Ht as <-. constructor; cbn.
      - intros p s Hp' Hs. by destruct (H1 _ _ Hp' Hs).
      - intros p s d Hmain. destruct (H2 _ _ _ Hmain) as (? & _ & ?). split_and!; [done|apply not_elem_of_nil|done]. }
    apply bind_Some in Ht as (s & Hs & Ht). cbn in Ht. injection Ht as <-. apply Forall_cons in Hall as [Hj _]. cbn in Hj.
    constructor; cbn; unfold marks; cbn.
    + intros p s' Hp'. rewrite fmap_insert, lookup_insert. case_decide; subst.
      * intros _. pose proof (inv_sessions _ _ Hi _ _ Hp'). assert (p = q) as -> by congruence. destruct (fs_timed_out s) eqn:Eo; [|cbn; eauto].
        destruct (H1 _ _ Hp') as [rest Hr]; [|done]. unfold marks. rewrite lookup_fmap, Hs. cbn. by rewrite Eo.
      * intros Hs'. by destruct (H1 _ _ Hp' Hs').
    + intros p s' d Hmain. destruct (H2 _ _ _ Hmain) as (Hf & Hn & ?). cbn in Hn. rewrite fmap_insert, lookup_insert_ne by set_solver.
      split_and!; try done. destruct (negb (fs_timed_out s)); cbn; set_solver.
  - injection Ht as <-. constructor; cbn; unfold marks; cbn; rewrite field_alter by done.
    + intros p s. rewrite lookup_delete. case_decide; [done|]. intros Hp' Hs. destruct (H1 _ _ Hp' Hs) as [rest [= -> -> ->]]. done.
    + intros p s d Hmain. destruct (H2 _ _ _ Hmain) as (? & Hn & Hno). cbn in Hn. split_and!; [done|set_solver|].
      intros q. rewrite lookup_delete. case_decide; [done|apply Hno].
Qed.

Lemma marked_run ts0 ts f f' : inv ts0 f → marked_inv f → run timeout ts f = Some f' → marked_inv f'.
Proof.
  revert ts0 f. induction ts as [|t ts IH]; intros ts0 f Hi Hm Hr; [by injection Hr as <-|].
  cbn in Hr. apply bind_Some in Hr as (g & Hg & Hr). destruct (inv_turn timeout _ _ _ _ Hi Hg) as [Hi' _].
  apply (IH _ _ Hi'); [|done]. unfold take_turn in Hg. apply fmap_Some in Hg as (g0 & Hg & ->).
  apply (marked_shrink g0); try done; [|by apply field_drop].
  assert (main_turn t f = Some g0 ∨ receive_turn t f = Some g0 ∨ cleanup_turn timeout t f = Some g0 ∨ g0 = lose f) as [H|[H|[H| ->]]]
    by (destruct t; auto; injection Hg; auto).
  - by apply (marked_main_turn ts0 t f).
  - by apply (marked_receive_turn t f).
  - by apply (marked_cleanup_turn ts0 t f).
  - by destruct Hm.
Qed.
End marked.

(** The session of an entry was last active more than the timeout ago. *)
Definition idle_entry (now timeout : Z) (f : forwarder) (e : SocketAddr * nat) : bool :=
  match last_activities f !! e.2 with Some last => bool_decide (timeout < now - last) | None => false end.

Section round.
Context (timeout now : Z).

Lemma run_app ts ts' f : run timeout (ts ++ ts') f = run timeout ts f ≫= run timeout ts'.
Proof. revert f. induction ts as [|t ts IH]; intros f; [done|]. cbn. destruct (take_turn timeout t f); [apply IH|done]. Qed.

(** What a step of the round that only moves the cleanup on leaves. *)
Definition same (f g : forwarder) : Prop :=
  fw_sessions g = fw_sessions f ∧ fw_main g = fw_main f ∧ last_activities g = last_activities f ∧ marks g = marks f ∧
  (∀ sid, is_open g sid → is_open f sid) ∧ (∀ peer sid, fw_sessions f !! peer = Some sid → is_open f sid → is_open g sid).
Lemma same_trans f g h : same f g → same g h → same f h.
Proof. intros (H1 & H2 & H3 & H4 & H5 & H6) (G1 & G2 & G3 & G4 & G5 & G6). split_and!; try congruence; [auto|].
  intros p s Hp Ho. eapply G6; [by rewrite H1|eauto]. Qed.
Lemma open_keep f peer sid : fw_sessions f !! peer = Some sid → is_open f sid → is_open (drop_unheld f) sid.
Proof.
  intros Hp (s & Hs & Ho). exists s. split; [|done]. cbn. rewrite map_lookup_imap, Hs. cbn.
  replace (held f sid) with true; [done|]. unfold held. symmetry. rewrite !orb_true_iff. left. left. apply bool_decide_eq_true.
  apply list_elem_of_fmap. exists (peer, sid). split; [done|]. by apply elem_of_map_to_list.
Qed.
Lemma same_cleanup f c : same f (drop_unheld (set_cleanup c f)).
Proof. split_and!; try done; [by apply (field_drop _ (set_cleanup c f))..|by intros sid [? _]%open_drop|].
  intros peer sid. exact (open_keep (set_cleanup c f) peer sid). Qed.

Lemma check_round snapshot expired f :
  fw_cleanup f = CCheck snapshot expired → Forall (fun e => is_Some (last_activities f !! e.2)) snapshot →
  ∃ f', run timeout (replicate (length snapshot) (TCheck now) ++ [TMark]) f = Some f' ∧ same f f' ∧
    fw_cleanup f' = CMark (expired ++ filter (fun e => idle_entry now timeout f e = true) snapshot).
Proof.
  revert expired f. induction snapshot as [|[peer sid] snapshot IH]; intros expired f Hc Hs.
  - cbn. unfold take_turn, cleanup_turn. rewrite Hc. cbn. eexists. split; [done|]. split; [apply same_cleanup|]. cbn. by rewrite app_nil_r.
  - apply Forall_cons in Hs as [[last Hl] Hs]. cbn in Hl. pose proof Hl as Hst. unfold last_activities in Hst. rewrite lookup_fmap in Hst.
    apply fmap_Some in Hst as (s & Hst & ->). cbn [length replicate app run].
    set (expired' := if is_idle now timeout s then expired ++ [(peer, sid)] else expired).
    assert (take_turn timeout (TCheck now) f = Some (drop_unheld (set_cleanup (CCheck snapshot expired') f))) as ->
      by (unfold take_turn, cleanup_turn; rewrite Hc; cbn; by rewrite Hst).
    cbn [mbind option_bind]. pose proof (same_cleanup f (CCheck snapshot expired')) as Hsame. pose proof Hsame as (_ & _ & Hlast & _).
    destruct (IH expired' (drop_unheld (set_cleanup (CCheck snapshot expired') f)) eq_refl) as (f' & Hrun & Hsame' & Hcl); [by rewrite Hlast|].
    exists f'. split_and!; [done|by eapply same_trans|]. rewrite Hcl. f_equal.
    rewrite filter_cons. unfold idle_entry. rewrite Hlast. cbn [snd]. rewrite Hl. subst expired'. unfold is_idle.
    destruct (bool_decide _); [rewrite decide_True by done; by rewrite <- app_assoc|by rewrite decide_False].
Qed.

Lemma close_round expired f :
  fw_cleanup f = CMark expired → NoDup expired.*2 → Forall (fun e => marks f !! e.2 = Some false ∧ fw_sessions f !! e.1 = Some e.2) expired →
  ∃ f', run timeout (concat (replicate (length expired) [TMark; TExpire]) ++ [TMark]) f = Some f' ∧
    fw_cleanup f' = CWait ∧ fw_main f' = fw_main f ∧
    (∀ peer, fw_sessions f' !! peer = if decide (peer ∈ expired.*1) then None else fw_sessions f !! peer) ∧
    (∀ sid, is_open f' sid → sid ∉ expired.*2 ∧ is_open f sid) ∧
    (∀ peer sid, fw_sessions f !! peer = Some sid → peer ∉ expired.*1 → sid ∉ expired.*2 → is_open f sid → is_open f' sid).
Proof.
  revert f. induction expired as [|[peer sid] expired IH]; intros f Hc Hnd Hall.
  - cbn. unfold take_turn, cleanup_turn. rewrite Hc. cbn. eexists. split; [done|]. destruct (same_cleanup f CWait) as (Hs & Hm & _ & _ & Hb & Ho).
    split_and!; try done.
    + intros sid Hop. split; [apply not_elem_of_nil|by apply Hb].
    + intros peer sid Hp _ _. by apply (Ho peer).
  - apply Forall_cons in Hall as [[Hmark Hmap] Hall]. apply NoDup_cons in Hnd as [Hnew Hnd]. cbn in Hmark, Hmap, Hnew.
    unfold marks in Hmark. rewrite lookup_fmap in Hmark. apply fmap_Some in Hmark as (s & Hs & Hto).
    cbn [length replicate concat app run].
    set (f1 := drop_unheld (set_cleanup (CClose peer sid expired) (set_store (<[sid := (mark_timed_out s).2]> (fw_store f)) f))).
    assert (take_turn timeout TMark f = Some f1) as ->
      by (unfold take_turn, cleanup_turn; rewrite Hc; cbn; rewrite Hs; cbn; by rewrite <- Hto).
    cbn [mbind option_bind]. set (f2 := drop_unheld (set_cleanup (CMark expired) (close_session peer sid f1))).
    assert (take_turn timeout TExpire f1 = Some f2) as -> by done. cbn [mbind option_bind].
    assert (marks f2 = <[sid := true]> (marks f)) as Hm2.
    { unfold f2, marks. rewrite field_drop by done. unfold f1. cbn [close_session close_sid set_cleanup set_store set_sessions fw_store].
      rewrite field_alter, field_drop by done. cbn. by rewrite fmap_insert. }
    assert (fw_sessions f2 = delete peer (fw_sessions f)) as Hs2 by done.
    assert (∀ i, is_open f2 i → i ≠ sid ∧ is_open f i) as Hback.
    { intros i Ho. apply open_drop in Ho as [(x & Hx & Ho) _]. cbn in Hx. rewrite lookup_alter in Hx. case_decide; subst.
      { apply fmap_Some in Hx as (y & _ & ->). done. }
      destruct (open_drop (set_cleanup (CClose peer sid expired) (set_store (<[sid := (mark_timed_out s).2]> (fw_store f)) f)) i) as [(y & Hy & Hyo) _];
        [by exists x|]. cbn in Hy. rewrite lookup_insert_ne in Hy by done. split; [done|]. by exists y. }
    destruct (IH f2) as (f' & Hrun & Hcl & Hmain & Hses & Hclosed & Hopen); [done|done| |].
    { apply Forall_forall. intros e Hin. rewrite Forall_forall in Hall. destruct (Hall e Hin) as [Hf Hse].
      assert (e.2 ≠ sid) by (intros Heq; apply Hnew; rewrite <- Heq; by apply list_elem_of_fmap_2).
      rewrite Hm2, Hs2, lookup_insert_ne by done. split; [done|]. rewrite lookup_delete_ne; [done|]. congruence. }
    exists f'. split_and!; try done.
    + intros p. rewrite Hses, Hs2, lookup_delete. cbn [fmap list_fmap fst].
      destruct (decide (p ∈ expired.*1)), (decide (p ∈ peer :: expired.*1)), (decide (peer = p)); try done; set_solver.
    + intros i [Hni [Hne Ho]%Hback]%Hclosed. split; [cbn; set_solver|done].
    + intros p i Hp Hnp Hni Ho. cbn in Hnp, Hni. apply (Hopen p); [rewrite Hs2, lookup_delete_ne; set_solver|set_solver|set_solver|].
      destruct Ho as (x & Hx & Ho). apply (open_keep (set_cleanup (CMark expired) (close_session peer sid f1)) p).
      { cbn. rewrite lookup_delete_ne; set_solver. }
      destruct (open_keep (set_cleanup (CClose peer sid expired) (set_store (<[sid := (mark_timed_out s).2]> (fw_store f)) f)) p i) as (y & Hy & Hyo);
        [done|exists x; split; [|done]; cbn; rewrite lookup_insert_ne; set_solver|].
      exists y. split; [|done]. cbn. rewrite lookup_alter_ne by set_solver. exact Hy.
Qed.
End round.

Lemma map_entry ts f e :
  inv ts f → marked_inv f → fw_cleanup f = CWait → e ∈ map_to_list (fw_sessions f) →
  fw_sessions f !! e.1 = Some e.2 ∧ is_Some (fw_store f !! e.2) ∧ marks f !! e.2 = Some false.
Proof.
  intros Hi Hm Hc He. destruct e as [peer sid]. apply elem_of_map_to_list in He. pose proof (inv_sessions _ _ Hi _ _ He) as Hs. unfold peers in Hs.
  rewrite lookup_fmap in Hs. apply fmap_Some in Hs as (s & Hs & _). assert (marks f !! sid = Some (fs_timed_out s)) as Hmark
    by (unfold marks; by rewrite lookup_fmap, Hs).
  split_and!; [done|by exists s|]. cbn. rewrite Hmark. destruct (fs_timed_out s); [|done]. destruct (mi_map _ Hm _ _ He Hmark). congruence.
Qed.

(** A round over the map, of which [n] sessions are closed. *)
Definition cleanup_round (now : Z) (snapshot : list (SocketAddr * nat)) (n : nat) : list turn :=
  TTick snapshot :: (replicate (length snapshot) (TCheck now) ++ [TMark]) ++ concat (replicate n [TMark; TExpire]) ++ [TMark].

(** The cleanup expires exactly the idle sessions. Whatever the order in
    which it looks at the map, a round at time [now] that nothing interleaves
    completes; it removes from the map, and closes, the sessions whose last
    activity is more than the timeout ago, and leaves the others in the map, and
    open if they were. *)
Theorem forward_cleanup_idle timeout now ts f snapshot :
  run timeout ts forwarder_new = Some f → fw_main f ≠ MEnded → fw_cleanup f = CWait → snapshot ≡ₚ map_to_list (fw_sessions f) →
  ∃ n f', run timeout (cleanup_round now snapshot n) f = Some f' ∧ fw_cleanup f' = CWait ∧ fw_main f' = fw_main f ∧
    (∀ peer sid, fw_sessions f' !! peer = Some sid ↔ fw_sessions f !! peer = Some sid ∧ idle_entry now timeout f (peer, sid) = false) ∧
    (∀ peer sid, fw_sessions f !! peer = Some sid → is_open f' sid ↔ is_open f sid ∧ idle_entry now timeout f (peer, sid) = false).
Proof.
  intros Hr Hmain Hc Hp. destruct (inv_run timeout [] ts forwarder_new f inv_new) as [Hi _]; [by intros sid (s & Hs & _)|done|].
  assert (marked_inv f) as Hm by (eapply (marked_run timeout []); [apply inv_new|by constructor|exact Hr]).
  assert (∀ e, e ∈ snapshot → fw_sessions f !! e.1 = Some e.2 ∧ is_Some (fw_store f !! e.2) ∧ marks f !! e.2 = Some false) as Hin
    by (intros e He; rewrite Hp in He; by apply (map_entry ts)).
  set (idle := filter (fun e => idle_entry now timeout f e = true) snapshot).
  assert (∀ e, e ∈ idle ↔ idle_entry now timeout f e = true ∧ e ∈ snapshot) as Hidle by (intros; unfold idle; by rewrite list_elem_of_filter).
  assert (∀ e e', e ∈ snapshot → e' ∈ snapshot → e.1 = e'.1 ∨ e.2 = e'.2 → e = e') as Hinj.
  { intros [p s] [p' s'] H H' Heq. apply Hin in H as [H _], H' as [H' _]. cbn in *.
    pose proof (inv_sessions _ _ Hi _ _ H). pose proof (inv_sessions _ _ Hi _ _ H'). destruct Heq; subst; f_equal; congruence. }
  pose proof (same_cleanup f (CCheck snapshot [])) as Hsame.
  destruct (check_round timeout now snapshot [] (drop_unheld (set_cleanup (CCheck snapshot []) f)) eq_refl) as (f1 & Hrun1 & Hsame1 & Hc1).
  { apply Forall_forall. intros e He. destruct Hsame as (_ & _ & -> & _). unfold last_activities. rewrite lookup_fmap.
    apply Hin in He as (_ & [s ->] & _). by eexists. }
  pose proof (same_trans _ _ _ Hsame Hsame1) as (Hs1 & Hmain1 & _ & Hm1 & Hb1 & Ho1).
  assert (fw_cleanup f1 = CMark idle) as Hc1'.
  { rewrite Hc1. cbn. f_equal. apply list_filter_iff. intros e. unfold idle_entry. by destruct Hsame as (_ & _ & -> & _). }
  destruct (close_round timeout idle f1) as (f2 & Hrun2 & Hc2 & Hmain2 & Hs2 & Hclosed & Hopen); [done| | |].
  { apply NoDup_fmap_2_strong; [intros e e' [_ H]%Hidle [_ H']%Hidle ?; apply Hinj; auto|].
    apply NoDup_filter. rewrite Hp. apply NoDup_map_to_list. }
  { apply Forall_forall. intros e [_ He]%Hidle. rewrite Hm1, Hs1. by apply Hin in He as (? & _ & ?). }
  exists (length idle), f2. split_and!; [|done|congruence| |].
  - cbn [run cleanup_round]. unfold cleanup_round. cbn [run].
    assert (take_turn timeout (TTick snapshot) f = Some (drop_unheld (set_cleanup (CCheck snapshot []) f))) as ->
      by (unfold take_turn, cleanup_turn; rewrite Hc; by rewrite decide_True).
    cbn [mbind option_bind]. rewrite run_app, Hrun1. exact Hrun2.
  - intros peer sid. rewrite Hs2, Hs1. case_decide as Hd; split; try done.
    + intros [Hmap Hno]. exfalso. apply list_elem_of_fmap in Hd as (e & -> & He). apply Hidle in He as [Hi1 He]. apply Hin in He as [He _].
      destruct e as [p s]. cbn in *. congruence.
    + intros Hmap. split; [done|]. destruct (idle_entry now timeout f (peer, sid)) eqn:E; [|done]. exfalso. apply Hd.
      apply list_elem_of_fmap. exists (peer, sid). split; [done|]. apply Hidle. split; [done|]. rewrite Hp. by apply elem_of_map_to_list.
    + by intros [? _].
  - intros peer sid Hmap. assert ((peer, sid) ∈ snapshot) as Hsn by (rewrite Hp; by apply elem_of_map_to_list).
    assert (sid ∈ idle.*2 ∨ peer ∈ idle.*1 → idle_entry now timeout f (peer, sid) = true) as Hid.
    { intros [H|H]; apply list_elem_of_fmap in H as (e & He & [Hie Hse]%Hidle); rewrite <- Hie; f_equal; apply Hinj; cbn; auto. }
    split.
    + intros [Hni Ho%Hb1]%Hclosed. split; [done|]. apply not_true_iff_false. intros E. apply Hni, list_elem_of_fmap.
      exists (peer, sid). split; [done|]. by apply Hidle.
    + intros [Ho E]. rewrite E in Hid. apply (Hopen peer); [by rewrite Hs1|by intros H; assert (false = true) by auto..|]. by apply (Ho1 peer).
Qed.

Lemma forward_cleanup_idle_witness :
  ∃ f n f', run FORWARD_DEFAULT_TIMEOUT example_turns forwarder_new = Some f ∧
    run FORWARD_DEFAULT_TIMEOUT (cleanup_round (60 * NANOS_PER_SEC + 1) (map_to_list (fw_sessions f)) n) f = Some f' ∧
    is_Some (fw_sessions f !! peer_a) ∧ fw_sessions f' !! peer_a = None ∧ fw_sessions f' !! peer_b = Some 1%nat.
Proof.
  destruct (run FORWARD_DEFAULT_TIMEOUT example_turns forwarder_new) as [f|] eqn:E; [|vm_compute in E; discriminate E].
  destruct (forward_cleanup_idle FORWARD_DEFAULT_TIMEOUT (60 * NANOS_PER_SEC + 1) example_turns f (map_to_list (fw_sessions f)) E)
    as (n & f' & Hrun & _ & _ & Hs & _).
  - vm_compute in E. injection E as <-. discriminate.
  - vm_compute in E. injection E as <-. reflexivity.
  - reflexivity.
  - exists f, n, f'. split; [reflexivity|]. split; [exact Hrun|]. vm_compute in E. injection E as <-. split; [eexists; vm_compute; reflexivity|]. split.
    + destruct (fw_sessions f' !! peer_a) as [sid|] eqn:Ea; [|reflexivity]. apply Hs in Ea as [Ea1 Ea2]. vm_compute in Ea1. injection Ea1 as <-.
      vm_compute in Ea2. discriminate Ea2.
    + apply Hs. split; vm_compute; reflexivity.
Defined.

(** The receive task of an expired session closes its successor. The task
    ends after its session was closed, and removes whatever session the peer
    has by then: there are turns in which a peer whose session was expired
    sends again, so a new session is made and its packet sent, and the end of
    the old task then removes and closes the new session. *)
Theorem forward_old_task_closes_new_session :
  ∃ ts f f', run FORWARD_DEFAULT_TIMEOUT ts forwarder_new = Some f ∧
    fw_main f = MReceive ∧ fw_sessions f !! peer_a = Some 1%nat ∧ is_open f 1 ∧ fw_uploads f = [(0%nat, peer_a, str "a"); (1%nat, peer_a, str "b")] ∧
    run FORWARD_DEFAULT_TIMEOUT [TReceiveError 0; TTaskEnd 0] f = Some f' ∧ fw_sessions f' !! peer_a = None ∧ ¬ is_open f' 1.
Proof.
  exists [TPacket peer_a (str "a") true 0; TInsert; TTouch 0; TSend true; TTick [(peer_a, 0%nat)]; TCheck (61 * NANOS_PER_SEC); TMark; TMark; TExpire;
    TPacket peer_a (str "b") true (61 * NANOS_PER_SEC); TInsert; TTouch (61 * NANOS_PER_SEC); TSend true].
  eexists _, _. split; [vm_compute; reflexivity|]. split; [reflexivity|]. split; [vm_compute; reflexivity|].
  split; [eexists; vm_compute; split; reflexivity|]. split; [vm_compute; reflexivity|]. split; [vm_compute; reflexivity|].
  split; [vm_compute; reflexivity|]. intros (s & Hs & Ho). vm_compute in Hs. injection Hs as <-. done.
Qed.
