(* ===== verification/Listeners.v ===== *)
(** * The listeners ([app/src/socks5.rs], [app/src/http_proxy.rs],
    [app/src/udp_forwarding.rs], [mobile/src/local_socks.rs])

    How the local listeners start, accept connections and hand them to their
    handlers, as computations that leave a trace. *)
From S2P Require Import Prelude Trace Errors RustStr Net Socks5 HttpProxy Config Anyhow Dns LocalSocks UdpForward.
Local Open Scope Z_scope.

(** A connection that was accepted, with what its task was given. *)
Inductive served :=
| ServedSocks (peer : SocketAddr) (auth : option (bytes * bytes)) (disable_udp : bool)
| ServedHttp (peer : SocketAddr) (auth : option HttpAuth)
| ServedLocal (peer : SocketAddr) (auth : option (bytes * bytes)) (disable_udp : bool) (dns_proxy : option DnsProxy).
Inductive front_action :=
| FBind (listen : bytes)
| FBuffer (send : bool) (size : Z)
| FPrint (line : bytes)
| FServe (c : served)
| FNotify (reason : bytes)
| FError (line : bytes).
Abbreviation front A := (traced front_action anyhow A).

(** The loop that accepts connections; it never returns but with the error of
    [accept], and [Ret ()] is the loop that still waits. *)
Definition accept_loop (serve : SocketAddr → served) (accepts : list (outcome bytes SocketAddr)) : front unit :=
  for_each (fun accept => peer ← try (map_err anyhow_msg accept); tell (FServe (serve peer))) accepts.
(** [TcpListener::bind] and [local_addr]. *)
Definition bind_listener (kind : bytes) (listen : bytes) (bind : outcome bytes unit) : front unit :=
  _ ← tell (FBind listen);
  try (Anyhow.context (str "failed to bind " ++ kind ++ str " listener " ++ listen) (map_err anyhow_msg bind)).
Definition serve_socks5 (config : Socks5Config) (bind : outcome bytes unit) (local_addr : outcome bytes SocketAddr)
    (accepts : list (outcome bytes SocketAddr)) : front unit :=
  _ ← bind_listener (str "SOCKS5") (s5_listen config) bind;
  addr ← try (Anyhow.context (str "failed to read SOCKS5 listen address") (map_err anyhow_msg local_addr));
  _ ← tell (FPrint (str "SOCKS5 server listening: " ++ socket_addr_text addr));
  let auth := configured_auth (s5_username config) (s5_password config) in
  accept_loop (fun peer => ServedSocks peer auth (s5_disable_udp config)) accepts.
Definition serve_http_proxy (config : HttpConfig) (bind : outcome bytes unit) (local_addr : outcome bytes SocketAddr)
    (accepts : list (outcome bytes SocketAddr)) : front unit :=
  _ ← bind_listener (str "HTTP proxy") (ht_listen config) bind;
  addr ← try (Anyhow.context (str "failed to read HTTP proxy listen address") (map_err anyhow_msg local_addr));
  _ ← tell (FPrint (str "HTTP proxy listening: " ++ socket_addr_text addr));
  let auth := configured_http_auth (ht_username config) (ht_password config) (ht_realm config) in
  accept_loop (fun peer => ServedHttp peer auth) accepts.
Definition local_serve_socks5 (config : LocalSocksConfig) (bind : outcome bytes unit) (accepts : list (outcome bytes SocketAddr)) : front unit :=
  _ ← bind_listener (str "SOCKS5") (lo_listen config) bind;
  let auth := configured_auth (lo_username config) (lo_password config) in
  accept_loop (fun peer => ServedLocal peer auth (lo_disable_udp config) (lo_dns_proxy config)) accepts.

(** The start of [serve_udp_forwarder]: the socket with its buffers, and the
    line it prints. *)
Definition bind_udp_forward_socket (config : UdpForwardingEntry) (bind nonblocking from_std : outcome bytes unit) : front unit :=
  _ ← bind_listener (str "UDP forwarding") (uf_listen config) bind;
  let '(recv, send) := configure_socket_buffers (uf_socket_receive_buffer config) (uf_socket_send_buffer config) in
  _ ← for_each (fun size => tell (FBuffer false size)) (option_list recv);
  _ ← for_each (fun size => tell (FBuffer true size)) (option_list send);
  _ ← try (Anyhow.context (str "failed to mark UDP forwarding socket nonblocking") (map_err anyhow_msg nonblocking));
  try (Anyhow.context (str "failed to create async UDP forwarding socket") (map_err anyhow_msg from_std)).
Definition start_udp_forwarder (format_duration : Z → bytes) (config : UdpForwardingEntry) (bind nonblocking from_std : outcome bytes unit)
    (local_addr : outcome bytes SocketAddr) : front unit :=
  _ ← bind_udp_forward_socket config bind nonblocking from_std;
  addr ← try (Anyhow.context (str "failed to read UDP forwarding listen address") (map_err anyhow_msg local_addr));
  let route := socket_addr_text addr ++ str " -> " ++ uf_remote config in
  let rest := str " timeout=" ++ format_duration (forward_timeout config) ++ str " socket_recv_buffer=" ++ to_string (Z.max 0 (uf_socket_receive_buffer config))
    ++ str " socket_send_buffer=" ++ to_string (Z.max 0 (uf_socket_send_buffer config)) ++ str " channel_depth=" ++ to_string (forward_channel_size config) in
  tell (FPrint (match uf_wireguard_mtu config with
                | Some mtu => str "wireguard forwarding: " ++ route ++ str " mtu=" ++ to_string mtu ++ rest
                | None => str "udp forwarding: " ++ route ++ rest
                end)).

(** What the task of a connection does with its result. *)
Definition connection_line (kind : bytes) (peer : SocketAddr) (err : anyhow) : bytes :=
  kind ++ str " connection " ++ socket_addr_text peer ++ str " failed: " ++ err_chain err.
Definition socks5_ended (peer : SocketAddr) (r : outcome anyhow unit) : list front_action :=
  match r with Err err => [FError (connection_line (str "SOCKS5") peer err)] | _ => [] end.
Definition http_ended (peer : SocketAddr) (r : outcome anyhow unit) : list front_action :=
  match r with Err err => [FError (connection_line (str "HTTP proxy") peer err)] | _ => [] end.
Definition local_ended (has_notifier : bool) (peer : SocketAddr) (r : outcome anyhow unit) : list front_action :=
  (match notified r with Some reason => if has_notifier then [FNotify reason] else [] | None => [] end) ++ socks5_ended peer r.

Definition servings (t : list front_action) : list served := omap (fun a => match a with FServe c => Some c | _ => None end) t.
Lemma accept_loop_serves serve peers rest :
  servings (accept_loop serve (map Ret peers ++ rest)).1 = map serve peers ++ servings (accept_loop serve rest).1
  ∧ (accept_loop serve (map Ret peers ++ rest)).2 = (accept_loop serve rest).2.
Proof.
  induction peers as [|peer peers [IH1 IH2]]; [done|]. unfold accept_loop in *. cbn [map app for_each].
  rewrite (traced_bind_Ret _ _ ()) by done. cbn [fst snd]. rewrite IH2. split; [|done]. cbn. f_equal. exact IH1.
Qed.

(** A listener that is bound serves every connection it accepts, in order and
    with the credentials of its configuration, if both are set; and one [accept]
    that fails ends it, whatever the error. *)
Theorem listener_serves config addr peers error more :
  let auth := configured_auth (s5_username config) (s5_password config) in
  let m := serve_socks5 config (Ret ()) (Ret addr) (map Ret peers ++ Err error :: more) in
  servings m.1 = map (fun peer => ServedSocks peer auth (s5_disable_udp config)) peers ∧ m.2 = Err (anyhow_msg error).
Proof.
  intros auth m. subst m auth. unfold serve_socks5, bind_listener. cbn [map_err Anyhow.context].
  rewrite (traced_bind_Ret _ _ ()) by done. rewrite try_bind, !tell_bind. cbv beta zeta. cbn [fst snd].
  set (serve := fun peer => ServedSocks peer _ _). destruct (accept_loop_serves serve peers (Err error :: more)) as [H1 H2].
  rewrite H2. split; [|done]. cbn -[accept_loop]. etransitivity; [exact H1|]. cbn. by rewrite app_nil_r.
Qed.
