(* ===== verification/Bench.v ===== *)
(** * The UDP benchmark ([app/src/udp_bench.rs])

    The sender numbers its packets and notes when it sends each; the receive
    task matches replies by number. They share the vector of send times, so a
    run is the sequence of what happened to the receive task and to the vector.
    Times are nanoseconds since the start. *)
From S2P Require Import Prelude RustStr Float Limit Net Config Anyhow Controller.
Local Open Scope Z_scope.

Definition BENCH_HEADER_SIZE : Z := 8.
Definition WG_MTU_PACKET_SIZES : list Z := [1280; 1360; 1420].
Definition BENCH_SOCKET_BUFFER_SIZE : Z := 8 * 1024 * 1024.

Record UdpBenchRunArgs := mkBenchArgs {
  ba_target : bytes; ba_listen : option bytes; ba_packets : Z; ba_packet_size : Z; ba_wg_mtu_sweep : bool; ba_target_mbps : f64;
  ba_window : Z; ba_tail_timeout : Z
}.

(** The checks of [run_udp_bench], and the packet sizes of its runs. *)
Definition bench_plan (args : UdpBenchRunArgs) : outcome anyhow (SocketAddr * list Z) :=
  if decide (ba_packets args = 0) then Err (anyhow_msg (str "--packets must be greater than 0"))
  else if negb (ba_wg_mtu_sweep args) && bool_decide (ba_packet_size args < BENCH_HEADER_SIZE) then
    Err (anyhow_msg (str "--packet-size must be at least 8"))
  else if negb (Qle_bool 0 (ba_target_mbps args)) then Err (anyhow_msg (str "--target-mbps must not be negative"))
  else if decide (ba_window args = 0) then Err (anyhow_msg (str "--window must be greater than 0"))
  else if decide (ba_tail_timeout args = 0) then Err (anyhow_msg (str "--tail-timeout must be greater than 0"))
  else
    target ← ok_or (parse_socket_addr (ba_target args))
      (add_context (str "invalid UDP target " ++ ba_target args) (anyhow_msg (str "invalid socket address syntax")));
    Ret (target, if ba_wg_mtu_sweep args then WG_MTU_PACKET_SIZES else [ba_packet_size args]).

Definition default_bind_addr (target : SocketAddr) : SocketAddr :=
  match target with
  | SocketV4 _ _ => SocketV4 [0; 0; 0; 0] 0
  | SocketV6 _ _ => SocketV6 (replicate 16 0) 0
  end.

(** ** Sending *)

(** The packet of a sequence number. *)
Definition bench_packet (packet_size seq : Z) : bytes :=
  be_bytes 8 seq ++ replicate (Z.to_nat (packet_size - BENCH_HEADER_SIZE)) 120.
Definition target_elapsed_for_rate (packet_count packet_size : Z) (target_mbps : f64) : outcome anyhow Z :=
  if Qle_bool target_mbps 0 then Ret 0
  else
    let bits := f64_mul (f64_mul (f64_of_u64 packet_count) (f64_of_u64 packet_size)) 8 in
    from_secs_f64 (f64_div bits (f64_mul target_mbps 1000000)).
(** What the sender waits after packet [next_seq]. *)
Definition pacing (args : UdpBenchRunArgs) (packet_size next_seq elapsed : Z) : outcome anyhow Z :=
  if Qle_bool (ba_target_mbps args) 0 then Ret 0
  else
    target_elapsed ← target_elapsed_for_rate (next_seq + 1) packet_size (ba_target_mbps args);
    Ret (Z.max 0 (target_elapsed - elapsed)).

(** ** Receiving *)

(** [br_counted] are the numbers of the packets counted, with the round trip
    times. *)
Record bench := mkBench { br_send_times : list Z; br_counted : list (Z * Z); br_last_progress : Z }.
Definition br_received (b : bench) : Z := len (br_counted b).
Definition bench_new (packets now : Z) : bench := mkBench (replicate (Z.to_nat packets) 0) [] now.

(** A packet is sent; a reply arrives; nothing arrives for 50 milliseconds; the
    receive fails. *)
Inductive bench_event :=
| BSent (seq now : Z)
| BReply (data : bytes) (now : Z)
| BQuiet (sender_done : bool) (now : Z)
| BError (text : bytes).

Definition on_reply (data : bytes) (now : Z) (b : bench) : bench :=
  if decide (len data < BENCH_HEADER_SIZE) then b
  else
    let seq := of_be (take 8 data) in
    match get (br_send_times b) seq with
    | None => b
    | Some sent_ns =>
        let b := mkBench (<[Z.to_nat seq := 0]> (br_send_times b)) (br_counted b) (br_last_progress b) in
        if decide (sent_ns = 0) then b
        else mkBench (br_send_times b) (br_counted b ++ [(seq, sat_sub now sent_ns)]) now
    end.

(** The loop of [receive_udp_bench] on what happens: the counted packets, or
    [None] if it still waits. *)
Fixpoint receive_udp_bench (packets tail_timeout : Z) (b : bench) (events : list bench_event) : option (outcome anyhow (list (Z * Z))) :=
  if decide (br_received b = packets) then Some (Ret (br_counted b))
  else
    match events with
    | [] => None
    | BSent seq now :: events =>
        receive_udp_bench packets tail_timeout
          (mkBench (<[Z.to_nat seq := Z.max now 1]> (br_send_times b)) (br_counted b) (br_last_progress b)) events
    | BReply data now :: events => receive_udp_bench packets tail_timeout (on_reply data now b) events
    | BQuiet sender_done now :: events =>
        if sender_done && bool_decide (tail_timeout ≤ now - br_last_progress b) then Some (Ret (br_counted b))
        else receive_udp_bench packets tail_timeout b events
    | BError text :: _ => Some (Err (add_context (str "failed to receive UDP benchmark reply") (anyhow_msg text)))
    end.

(** ** The summary *)

Record UdpBenchSummary := mkBenchSummary {
  bs_packet_size : Z; bs_sent_packets : Z; bs_received_packets : Z; bs_payload_bytes : Z; bs_send_elapsed : Z; bs_elapsed : Z; bs_rtts : list Z
}.
Definition bench_lost (s : UdpBenchSummary) : Z := sat_sub (bs_sent_packets s) (bs_received_packets s).
Definition bench_loss_pct (s : UdpBenchSummary) : f64 :=
  f64_mul (f64_div (f64_of_u64 (bench_lost s)) (f64_of_u64 (Z.max (bs_sent_packets s) 1))) 100.
Definition format_throughput (bytes duration : Z) : Prelude.bytes :=
  if decide (duration = 0) then str "0.00 MB/s (0.00 Mbps)"
  else
    let bytes_per_sec := f64_div (f64_of_u64 bytes) (as_secs_f64 duration) in
    fixed2 (f64_div bytes_per_sec 1000000) ++ str " MB/s (" ++ fixed2 (f64_div (f64_mul bytes_per_sec 8) 1000000) ++ str " Mbps)".
(** [x.round() as usize]. *)
Definition round_usize (x : f64) : Z := Z.max 0 (Z.min u64_max (Qfloor (x + (1 # 2)))).
Definition quantile (samples : list Z) (q : f64) : outcome anyhow Z :=
  let last := sat_sub (len samples) 1 in
  let index := round_usize (f64_mul (f64_of_u64 last) q) in
  Prelude.index samples (Z.min index last).
Definition duration_ms (duration : Z) : f64 := f64_mul (as_secs_f64 duration) 1000.

Example quantile_example : quantile [1; 2; 3; 4; 5] (1 # 2) = Ret 3 ∧ quantile [1; 2; 3; 4; 5] (rnd (95 # 100)) = Ret 5.
Proof. split; vm_compute; reflexivity. Qed.
Example throughput_example : format_throughput 2000000 NANOS_PER_SEC = str "2.00 MB/s (16.00 Mbps)".
Proof. vm_compute. reflexivity. Qed.

(** ** Counting *)

Definition sents (events : list bench_event) : list Z := omap (fun e => match e with BSent seq _ => Some seq | _ => None end) events.
(** A reply to packet [seq] arrived after it was sent. *)
Definition is_reply (seq : Z) (e : bench_event) : Prop :=
  match e with BReply data _ => BENCH_HEADER_SIZE ≤ len data ∧ of_be (take 8 data) = seq | _ => False end.
Definition answered (events : list bench_event) (seq : Z) : Prop :=
  ∃ before e after, events = before ++ e :: after ∧ seq ∈ sents before ∧ is_reply seq e.

(** The packets awaiting their reply are those sent and not counted. *)
Record bench_ok (n : Z) (past : list bench_event) (b : bench) : Prop := mkBenchOk {
  bo_len : len (br_send_times b) = n;
  bo_wait : ∀ seq, 0 ≤ seq < n → (∃ t, br_send_times b !! Z.to_nat seq = Some t ∧ t ≠ 0) ↔ seq ∈ sents past ∧ seq ∉ (br_counted b).*1;
  bo_counted : ∀ seq, seq ∈ (br_counted b).*1 → seq ∈ sents past;
  bo_once : NoDup (br_counted b).*1;
  bo_all : ∀ seq, 0 ≤ seq < n → answered past seq → seq ∈ (br_counted b).*1
}.

Lemma sents_app l k : sents (l ++ k) = sents l ++ sents k.
Proof. apply omap_app. Qed.
Lemma exists_last' {A} (l : list A) : l = [] ∨ ∃ k x, l = k ++ [x].
Proof. destruct l as [|a l]; [by left|right]. destruct (exists_last (l:=a :: l)) as (k & x & ->); [done|eauto]. Qed.
Lemma answered_snoc past e seq : answered (past ++ [e]) seq → answered past seq ∨ (seq ∈ sents past ∧ is_reply seq e).
Proof.
  intros (before & x & after & E & Hs & Hr). destruct (exists_last' after) as [->|(after' & y & ->)].
  - right. apply app_inj_tail in E as [-> ->]. done.
  - left. rewrite app_comm_cons, app_assoc in E. apply app_inj_tail in E as [-> _]. by exists before, x, after'.
Qed.

Lemma ok_other n past b e : sents [e] = [] → (∀ seq, ¬ is_reply seq e) → bench_ok n past b → bench_ok n (past ++ [e]) b.
Proof.
  intros Hs Hr []. constructor; try done.
  - intros seq. rewrite sents_app, Hs, app_nil_r. apply bo_wait0.
  - intros seq. rewrite sents_app, Hs, app_nil_r. apply bo_counted0.
  - intros seq Hseq [Ha|[_ Hf]]%answered_snoc; [by apply bo_all0|by apply Hr in Hf].
Qed.

Lemma ok_sent n past b seq now :
  0 ≤ seq < n → seq ∉ sents past → bench_ok n past b →
  bench_ok n (past ++ [BSent seq now]) (mkBench (<[Z.to_nat seq := Z.max now 1]> (br_send_times b)) (br_counted b) (br_last_progress b)).
Proof.
  intros Hseq Hnew []. constructor; cbn; try done.
  - unfold len in *. by rewrite length_insert.
  - intros i Hi. rewrite sents_app. cbn. rewrite elem_of_app, list_elem_of_singleton. destruct (decide (i = seq)) as [->|Hne].
    + rewrite list_lookup_insert_eq by (unfold len in *; lia). split.
      * intros _. split; [by right|]. intros Hc. by apply bo_counted0 in Hc.
      * intros _. eexists. split; [done|lia].
    + rewrite list_lookup_insert_ne by lia. rewrite bo_wait0 by done. naive_solver.
  - intros i Hc. rewrite sents_app. apply elem_of_app. left. by apply bo_counted0.
  - intros i Hi [Ha|[_ []]]%answered_snoc. by apply bo_all0.
Qed.

Lemma ok_reply n past b data now : n ≤ u32_max → bytes_ok data → bench_ok n past b → bench_ok n (past ++ [BReply data now]) (on_reply data now b).
Proof.
  intros Hn Hdata Hok. assert (∀ seq, 0 ≤ seq < n → ¬ is_reply seq (BReply data now) ∨ seq ∈ (br_counted b).*1 ∨ seq ∉ sents past →
    answered (past ++ [BReply data now]) seq → seq ∈ (br_counted b).*1) as Hold.
  { intros seq Hseq Hor [Ha|[Hs Hr]]%answered_snoc; [by apply (bo_all _ _ _ Hok)|]. naive_solver. }
  assert (sents (past ++ [BReply data now]) = sents past) as Hsents by (rewrite sents_app; apply app_nil_r).
  unfold on_reply. case_decide as Hlen.
  { destruct Hok. constructor; rewrite ?Hsents; try done. intros seq Hseq. apply Hold; [done|]. left. cbn. unfold BENCH_HEADER_SIZE in *. lia. }
  set (seq := of_be (take 8 data)). assert (0 ≤ seq) as Hpos by (apply of_be_bound; auto with rust).
  assert (∀ i, is_reply i (BReply data now) → i = seq) as Hi by (intros i [_ <-]; done).
  unfold get. rewrite decide_True by done. destruct (br_send_times b !! Z.to_nat seq) as [t|] eqn:Et; last first.
  { apply lookup_ge_None in Et. destruct Hok. constructor; rewrite ?Hsents; try done. intros i Hi'. apply Hold; [done|]. left. intros ->%Hi.
    unfold len in *. lia. }
  assert (seq < n) as Hlt by (apply lookup_lt_Some in Et; destruct Hok; unfold len in *; lia).
  case_decide as Ht.
  - subst t. rewrite list_insert_id by done. destruct Hok. constructor; cbn; rewrite ?Hsents; try done. intros i Hi'. apply Hold; [done|].
    destruct (decide (i = seq)) as [->|Hne]; [|left; by intros ?%Hi]. right. destruct (decide (seq ∈ (br_counted b).*1)); [by left|right].
    intros Hs. destruct (proj2 (bo_wait0 seq ltac:(done)) ltac:(done)) as (t & Et' & Hne). congruence.
  - destruct (proj1 (bo_wait _ _ _ Hok seq ltac:(done)) ltac:(eauto)) as [Hs Hc]. destruct Hok. constructor; cbn; rewrite ?Hsents; try done.
    + unfold len in *. by rewrite length_insert.
    + intros i Hi'. rewrite fmap_app, not_elem_of_app. cbn. rewrite list_elem_of_singleton. destruct (decide (i = seq)) as [->|Hne].
      * rewrite list_lookup_insert_eq by (apply lookup_lt_Some in Et; lia). split; [by intros (? & [= <-] & ?)|naive_solver].
      * rewrite list_lookup_insert_ne by lia. rewrite bo_wait0 by done. naive_solver.
    + intros i. rewrite fmap_app, elem_of_app. cbn. rewrite list_elem_of_singleton. intros [?| ->]; [by apply bo_counted0|done].
    + rewrite fmap_app. apply NoDup_app. split_and!; [done| |apply NoDup_singleton]. intros i Hin. cbn. rewrite list_elem_of_singleton.
      by intros ->.
    + intros i Hi' Ha. rewrite fmap_app, elem_of_app. destruct (decide (i = seq)) as [->|Hne]; [right; by left|left].
      apply Hold; [done| |done]. left. by intros ?%Hi.
Qed.

Lemma ok_bounded n past b : 0 ≤ n → Forall (fun seq => 0 ≤ seq < n) (sents past) → bench_ok n past b → br_received b ≤ n.
Proof.
  intros Hn Hs []. unfold br_received, len. rewrite <- (length_fmap fst). set (l := (br_counted b).*1) in *.
  assert (l ⊆+ map Z.of_nat (seq 0 (Z.to_nat n))) as Hsub.
  { apply NoDup_submseteq; [done|]. intros x Hx. apply bo_counted0 in Hx. rewrite Forall_forall in Hs. apply Hs in Hx.
    apply list_elem_of_In, in_map_iff. exists (Z.to_nat x). rewrite in_seq. lia. }
  apply submseteq_length in Hsub. rewrite length_map, length_seq in Hsub. lia.
Qed.
Lemma ok_complete n past b :
  0 ≤ n → bench_ok n past b → (∀ seq, 0 ≤ seq < n → answered past seq) → n ≤ br_received b.
Proof.
  intros Hn [] Hall. unfold br_received, len. rewrite <- (length_fmap fst). set (l := (br_counted b).*1) in *.
  assert (map Z.of_nat (seq 0 (Z.to_nat n)) ⊆+ l) as Hsub.
  { apply NoDup_submseteq; [apply NoDup_fmap; [apply _|apply NoDup_seq]|]. intros x Hx%list_elem_of_In. apply in_map_iff in Hx as (k & <- & Hk).
    apply in_seq in Hk. apply bo_all0; [lia|]. apply Hall. lia. }
  apply submseteq_length in Hsub. rewrite length_map, length_seq in Hsub. lia.
Qed.

Definition event_ok (n : Z) (e : bench_event) : Prop :=
  match e with BSent seq _ => 0 ≤ seq < n | BReply data _ => bytes_ok data | _ => True end.

Lemma receive_from n tail past b events :
  0 ≤ n ≤ u32_max → NoDup (sents (past ++ events)) → Forall (event_ok n) (past ++ events) → bench_ok n past b →
  match receive_udp_bench n tail b events with
  | Some (Ret counted) => NoDup counted.*1 ∧ (∀ seq, seq ∈ counted.*1 → seq ∈ sents (past ++ events)) ∧ len counted ≤ n
  | Some (Err _) => ∃ text, BError text ∈ events
  | Some Panic => False
  | None => ¬ ∀ seq, 0 ≤ seq < n → answered (past ++ events) seq
  end.
Proof.
  intros Hn. revert past b. induction events as [|e events IH]; intros past b Hdup Hev Hok.
  all: assert (Forall (fun seq => 0 ≤ seq < n) (sents past)) as Hpast
    by (apply Forall_app in Hev as [Hev _]; clear -Hev; induction Hev as [|x l Hx Hl IHl]; [constructor|]; destruct x; cbn; [by constructor|done..]).
  all: assert (NoDup (br_counted b).*1 ∧ (∀ rest seq, seq ∈ (br_counted b).*1 → seq ∈ sents (past ++ rest)) ∧ len (br_counted b) ≤ n) as Hdone
    by (split_and!; [apply Hok|intros rest seq Hs; rewrite sents_app; apply elem_of_app; left; by apply (bo_counted _ _ _ Hok)|apply (ok_bounded n past b); [lia|done|done]]).
  - cbn. case_decide; [naive_solver|]. rewrite app_nil_r in *. intros Hall. pose proof (ok_complete n past b ltac:(lia) Hok Hall).
    pose proof (ok_bounded n past b ltac:(lia) Hpast Hok). lia.
  - assert (∀ b', bench_ok n (past ++ [e]) b' → match receive_udp_bench n tail b' events with
      | Some (Ret counted) => NoDup counted.*1 ∧ (∀ seq, seq ∈ counted.*1 → seq ∈ sents (past ++ e :: events)) ∧ len counted ≤ n
      | Some (Err _) => ∃ text, BError text ∈ e :: events
      | Some Panic => False
      | None => ¬ ∀ seq, 0 ≤ seq < n → answered (past ++ e :: events) seq
      end) as Hnext.
    { intros b' Hb'. change (e :: events) with ([e] ++ events) in Hdup, Hev |- *. rewrite app_assoc in Hdup, Hev |- *.
      specialize (IH _ _ Hdup Hev Hb'). destruct (receive_udp_bench n tail b' events) as [[| |]|]; try done.
      destruct IH as [text Ht]. exists text. by apply list_elem_of_further. }
    assert (event_ok n e) as He by (apply Forall_app in Hev as [_ Hev]; by apply Forall_cons in Hev as [? _]).
    cbn [receive_udp_bench]. case_decide; [naive_solver|]. destruct e as [seq now|data now|sender_done now|text].
    + apply Hnext, ok_sent; [done| |done]. intros Hin. rewrite sents_app in Hdup. cbn in Hdup. apply NoDup_app in Hdup as (_ & Hd & _).
      apply (Hd _ Hin). by left.
    + apply Hnext, ok_reply; [lia|done|done].
    + destruct (sender_done && _); [naive_solver|]. apply Hnext, ok_other; [done| |done]. by intros ? [].
    + exists text. by left.
Qed.

Lemma bench_new_ok n now : 0 ≤ n → bench_ok n [] (bench_new n now).
Proof.
  intros Hn. constructor; cbn; try done.
  - rewrite len_replicate. lia.
  - intros seq Hseq. rewrite lookup_replicate_2 by lia. split; [by intros (? & [= <-] & ?)|]. by intros [?%not_elem_of_nil _].
  - constructor.
  - intros seq _ (before & e & after & E & _). by destruct before.
Qed.

(** The benchmark counts each packet once. For packets sent at most once
    each, in whatever way sends, replies, duplicates, foreign datagrams and
    silence are interleaved: the receive task never panics and fails only if the
    socket does; the packets it counts are distinct, were sent, and are at most
    the number of packets, so none is lost to the saturating difference of the
    summary; and it only keeps waiting if some packet was not answered after it
    was sent. *)
Theorem bench_counts_once n tail now events :
  0 ≤ n ≤ u32_max → NoDup (sents events) → Forall (event_ok n) events →
  match receive_udp_bench n tail (bench_new n now) events with
  | Some (Ret counted) => NoDup counted.*1 ∧ (∀ seq, seq ∈ counted.*1 → seq ∈ sents events) ∧ len counted ≤ n
  | Some (Err _) => ∃ text, BError text ∈ events
  | Some Panic => False
  | None => ¬ ∀ seq, 0 ≤ seq < n → answered events seq
  end.
Proof.
  intros Hn Hdup Hev. apply (receive_from n tail []); try done. apply bench_new_ok. lia.
Qed.
Lemma bench_counts_once_witness :
  receive_udp_bench 2 NANOS_PER_SEC (bench_new 2 0)
    [BSent 0 10; BReply (bench_packet 64 0) 30; BReply (bench_packet 64 0) 31; BSent 1 40; BReply [1; 2] 41; BQuiet false 42;
     BReply (bench_packet 64 1) 50] = Some (Ret [(0, 20); (1, 10)]) ∧ NoDup [0; 1].
Proof.
  split; [vm_compute; reflexivity|].
  pose proof (bench_counts_once 2 NANOS_PER_SEC 0 [BSent 0 10; BReply (bench_packet 64 0) 30; BReply (bench_packet 64 0) 31; BSent 1 40;
    BReply [1; 2] 41; BQuiet false 42; BReply (bench_packet 64 1) 50]) as Hb.
  specialize (Hb ltac:(unfold u32_max; lia) ltac:(by_decide)).
  assert (Forall (event_ok 2) [BSent 0 10; BReply (bench_packet 64 0) 30; BReply (bench_packet 64 0) 31; BSent 1 40;
    BReply [1; 2] 41; BQuiet false 42; BReply (bench_packet 64 1) 50]) as He.
  { repeat (apply Forall_cons; split; [first [exact I|unfold event_ok; lia|unfold event_ok; by_decide]|]). constructor. }
  specialize (Hb He). change (receive_udp_bench _ _ _ _) with (Some (Ret (E:=anyhow) [(0, 20); (1, 10)])) in Hb. exact (proj1 Hb).
Defined.
