(* ===== verification/Cli.v ===== *)
(** * The command line ([app/src/main.rs], [app/src/speedtest.rs])

    What the commands run and print on top of the components: the tasks of the
    client and their supervision, the health probe, pings, shared
    configurations and speed tests. Standard output is the text returned.
    Durations are nanoseconds. *)
From S2P Require Import Prelude Errors RustStr Float Limit Net Quic Config Share Anyhow MobileStatus Controller.
Local Open Scope Z_scope.

Definition CLIENT_HEALTH_PROBE_INTERVAL : Z := 15 * NANOS_PER_SEC.
Definition CLIENT_HEALTH_PROBE_FAILURE_THRESHOLD : Z := 2.
Definition should_run_client_health_probe (has_listener_runtime : bool) : bool := has_listener_runtime.

Definition client_access_hints (socks5_enabled http_enabled server_udp_enabled : bool) : list bytes :=
  (if socks5_enabled then
     [if server_udp_enabled then str "access hint: use SOCKS5 for HTTP/3/QUIC sites; UDP relay is ready"
      else str "access hint: SOCKS5 is available, but server UDP is disabled; HTTP/3/QUIC sites may fall back or fail"]
   else [])
  ++ (if http_enabled then [str "access hint: the built-in HTTP proxy is TCP-only; it does not carry native HTTP/3/QUIC"] else []).

(** ** The client *)

(** The tasks [run_client] starts, in order. *)
Inductive listener :=
| LSocks5 (config : Socks5Config)
| LHttp (config : HttpConfig)
| LTcpForward (entry : TcpForwardingEntry)
| LUdpForward (entry : UdpForwardingEntry)
| LHealthProbe.
Definition client_listeners (runtime : RunnableClientConfig) : list listener :=
  let listeners :=
    (match rc_socks5 runtime with Some c => [LSocks5 c] | None => [] end)
    ++ (match rc_http runtime with Some c => [LHttp c] | None => [] end)
    ++ map LTcpForward (rc_tcp_forwarding runtime) ++ map LUdpForward (rc_udp_forwarding runtime) in
  listeners ++ if should_run_client_health_probe (bool_decide (listeners ≠ [])) then [LHealthProbe] else [].

(** The health probe of the client on the results of its checks: the lines it
    prints, and the error it ends with. *)
Fixpoint client_health_probe (failures : Z) (checks : list (outcome CoreError unit)) : list bytes * option anyhow :=
  match checks with
  | [] => ([], None)
  | Ret _ :: checks => client_health_probe 0 checks
  | Err err :: checks =>
      let failures := Z.min u32_max (failures + 1) in
      let line := str "client health probe failed (" ++ to_string failures ++ 47 :: to_string CLIENT_HEALTH_PROBE_FAILURE_THRESHOLD
                    ++ str "): " ++ core_error_text err in
      if decide (CLIENT_HEALTH_PROBE_FAILURE_THRESHOLD ≤ failures) then ([line], Some (anyhow_core err))
      else let '(lines, e) := client_health_probe failures checks in (line :: lines, e)
  | Panic :: _ => ([], None)
  end.

(** The end of [run_client]: the first task that ends, by itself or by a
    panic, or the signal, decides the result. *)
Inductive client_end := EndTask (result : outcome anyhow unit) | EndPanic (text : bytes) | EndSignal (result : outcome bytes unit).
Definition client_result (e : client_end) : outcome anyhow unit :=
  match e with
  | EndTask result => result
  | EndPanic text => Err (add_context (str "client runtime task panicked") (anyhow_msg text))
  | EndSignal result => Anyhow.context (str "failed to listen for Ctrl-C") (map_err anyhow_msg result)
  end.

(** What [serve_tcp_forwarder] prints for a connection: [tcp] is the result of
    opening the stream, [relay] that of the relay. *)
Definition forward_tcp (peer_addr remote : bytes) (tcp : outcome CoreError unit) (relay : outcome io_error unit) : list bytes :=
  match tcp with
  | Ret _ =>
      match relay with
      | Err err => [str "tcp forwarding relay error " ++ peer_addr ++ str " -> " ++ remote ++ str ": " ++ io_error_text err]
      | _ => []
      end
  | Err err => [str "failed to open proxied stream " ++ peer_addr ++ str " -> " ++ remote ++ str ": " ++ core_error_text err]
  | Panic => []
  end.

(** ** Ping *)

(** [{x:.3}] of a double that is not negative. *)
Definition fixed3 (x : f64) : bytes :=
  let n := round_half_even (Qnum x * 1000) (Zpos (Qden x)) in
  dec_digits 40 (n / 1000) ++ 46 :: [48 + n / 100 mod 10; 48 + n / 10 mod 10; 48 + n mod 10].
Definition millis (d : Z) : f64 := f64_mul (as_secs_f64 d) 1000.

(** The loop of [run_ping] over the results of its probes: the samples, the
    failures and the lines. *)
Fixpoint ping_loop (address : bytes) (seq : Z) (probes : list (outcome CoreError Z)) : list Z * Z * list bytes :=
  match probes with
  | [] => ([], 0, [])
  | probe :: probes =>
      let '(samples, failures, lines) := ping_loop address (seq + 1) probes in
      let head := str "reply from " ++ address ++ str ": seq=" ++ to_string seq in
      match probe with
      | Ret elapsed => (elapsed :: samples, failures, (head ++ str " time=" ++ fixed3 (millis elapsed) ++ str " ms") :: lines)
      | Err err => (samples, failures + 1, (head ++ str " error=" ++ core_error_text err) :: lines)
      | Panic => ([], 0, [])
      end
  end.
Definition f64_abs (x : f64) : f64 := if Qle_bool 0 x then x else Qopp x.
Definition f64_sum (l : list f64) : f64 := fold_left f64_add l 0%Q.
Fixpoint jumps (l : list f64) : list f64 :=
  match l with a :: (b :: _) as r => f64_abs (f64_sub b a) :: jumps r | _ => [] end.
(** The statistics; [sqrt] is [f64::sqrt]. *)
Definition ping_statistics (sqrt : f64 → f64) (address : bytes) (count : Z) (samples : list Z) (failures : Z) : list bytes :=
  let loss := f64_mul (f64_div (f64_of_u64 failures) (f64_of_u64 count)) 100 in
  [[]; str "--- " ++ address ++ str " ping statistics ---";
   to_string count ++ str " probes sent, " ++ to_string (len samples) ++ str " successful, " ++ fixed2 loss ++ str "% packet loss"]
  ++ match samples with
     | [] => []
     | s :: rest =>
         let min := fold_left Z.min rest s in
         let max := fold_left Z.max rest s in
         let total := fold_left Z.add samples 0 in
         let values := map millis samples in
         let n := f64_of_u64 (len values) in
         let avg := f64_div (f64_mul (as_secs_f64 total) 1000) n in
         let variance := f64_div (f64_sum (map (fun v => let delta := f64_sub v avg in f64_mul delta delta) values)) n in
         let jitter := f64_div (f64_sum (jumps values)) (f64_of_u64 (Z.max (sat_sub (len values) 1) 1)) in
         [str "round-trip min/avg/max/stddev = " ++ fixed3 (millis min) ++ 47 :: fixed3 avg ++ 47 :: fixed3 (millis max) ++ 47 :: fixed3 (sqrt variance)
            ++ str " ms";
          str "jitter = " ++ fixed3 jitter ++ str " ms"]
     end.

(** ** Share *)

Record ShareArgs := mkShareArgs { sg_no_text : bool; sg_qr : bool; sg_yaml : bool; sg_yaml_only : bool }.

Section share_output.
Context (parse_url : bytes → option Url) (serialize_query : list (bytes * bytes) → bytes).
Context (to_yaml : ShareConfigExport → outcome bytes bytes) (render_qr : bytes → outcome bytes bytes).

Definition build_share_config_yaml (config : ClientConfig) : outcome bytes bytes :=
  config ← normalize_client_config parse_url config;
  to_yaml (from_config config).

Definition build_share_output (config : ClientConfig) (args : ShareArgs) : outcome anyhow bytes :=
  let optional (wanted : bool) (m : outcome anyhow bytes) := if wanted then v ← m; Ret [v] else Ret [] in
  uri ← Anyhow.context (str "failed to build share URI") (map_err anyhow_msg (build_share_uri parse_url serialize_query config));
  yaml ← optional (sg_yaml args || sg_yaml_only args)
           (Anyhow.context (str "failed to build share YAML") (map_err anyhow_msg (build_share_config_yaml config)));
  qr ← optional (negb (sg_yaml_only args) && sg_qr args)
         (Anyhow.context (str "failed to render QR code") (map_err anyhow_msg (render_qr uri)));
  let sections := (if negb (sg_yaml_only args) && negb (sg_no_text args) then [uri] else []) ++ qr ++ map trim_end yaml in
  if decide (sections = []) then Ret [] else Ret (join [10; 10] sections ++ [10]).
End share_output.

(** ** Speed tests *)

Record SpeedtestArgs := mkSpeedArgs {
  sd_skip_download : bool; sd_skip_upload : bool; sd_duration : Z; sd_data_size : option Z; sd_use_bytes : bool
}.
(** The tests [run_speedtest_command] runs, with their size and duration. *)
Definition speed_plan (args : SpeedtestArgs) : list (SpeedDirection * Z * Z) :=
  let size_based := bool_decide (is_Some (sd_data_size args)) in
  let data_size := default 0 (sd_data_size args) in
  let duration := if size_based then 0 else sd_duration args in
  (if sd_skip_download args then [] else [(Download, data_size, duration)])
  ++ (if sd_skip_upload args then [] else [(Upload, data_size, duration)]).
Definition cli_format_speed (bytes duration : Z) (use_bytes : bool) : Prelude.bytes :=
  if decide (duration = 0) then if use_bytes then str "0.00 B/s" else str "0.00 bps"
  else
    let speed := f64_div (f64_of_u64 bytes) (as_secs_f64 duration) in
    if use_bytes then speed_text speed (str "B/s") [str "KB/s"; str "MB/s"; str "GB/s"]
    else speed_text (f64_mul speed 8) (str "bps") [str "Kbps"; str "Mbps"; str "Gbps"].
(** The progress a report shows, before it is bounded by 100. *)
Definition progress (size_based : bool) (data_size duration total total_elapsed : Z) : f64 :=
  if size_based then if decide (data_size = 0) then 100%Q else f64_mul (f64_div (f64_of_u64 total) (f64_of_u64 data_size)) 100
  else if decide (duration = 0) then 100%Q else f64_mul (f64_div (as_secs_f64 total_elapsed) (as_secs_f64 duration)) 100.

Example format_speed_bits : cli_format_speed 125000 NANOS_PER_SEC false = str "1000.00 Kbps".
Proof. vm_compute. reflexivity. Qed.
Example format_speed_bytes : cli_format_speed 125000 NANOS_PER_SEC true = str "125.00 KB/s".
Proof. vm_compute. reflexivity. Qed.

(** The two clients show a rate in bits alike. *)
Lemma format_speed_alike bytes duration : cli_format_speed bytes duration false = format_speed bytes duration.
Proof. done. Qed.

(** Every probe is a sample or a failure. *)
Lemma ping_accounts address seq probes :
  Forall no_panic probes →
  let '(samples, failures, lines) := ping_loop address seq probes in len samples + failures = len probes ∧ length lines = length probes.
Proof.
  intros Hp. revert seq. induction Hp as [|probe probes Hprobe Hp IH]; intros seq; [done|]. cbn. specialize (IH (seq + 1)).
  destruct (ping_loop address (seq + 1) probes) as [[samples failures] lines]. destruct IH as [IH1 IH2].
  destruct probe; [| |done]; rewrite !len_cons; cbn; lia.
Qed.

(** The probe of the command line ends with the failure the mobile client
    reports. *)
Lemma health_probes_alike failures checks :
  health_probe_loop failures checks = (fun e => str "health probe failed: " ++ err_text e) <$> (client_health_probe failures checks).2.
Proof.
  revert failures. induction checks as [|[|err|] checks IH]; intros failures; cbn [health_probe_loop client_health_probe]; try done.
  unfold HEALTH_PROBE_FAILURE_THRESHOLD, CLIENT_HEALTH_PROBE_FAILURE_THRESHOLD. case_decide; [done|]. rewrite IH.
  by destruct (client_health_probe _ checks).
Qed.
