(* ===== verification/Serde.v ===== *)
(** * Deserialisation of the configuration files (the derives of [app/src/config.rs] and [app/src/share.rs])

    The attributes of the configuration structs determine a reader and a
    writer over trees. This file has the trees, the combinators that the
    attributes stand for ([default], [rename], [skip_serializing_if],
    [with = "humantime_serde"]) and what holds for every struct built from
    them; ConfigFile.v applies them field by field. The text of the trees, the
    reading of a scalar at a type and the format of durations are the libraries'
    ([serde_yaml], [humantime]): operations of the class [YamlLib]. *)
From S2P Require Import Prelude RustStr Limit.
Local Open Scope Z_scope.

(** ** The libraries *)

(** A scalar of a file has no type of its own: it is read at the type of the
    field it is for. [as_int lo hi] reads an integer type with these bounds;
    [is_null] holds of the scalars that an [Option] reads as [None],
    [is_empty_section] of those that stand for an empty mapping. *)
Class YamlLib := {
  scalar : Type;
  put_str : bytes → scalar;
  put_bool : bool → scalar;
  put_uint : Z → scalar;
  as_str : scalar → outcome bytes bytes;
  as_bool : scalar → outcome bytes bool;
  as_int : Z → Z → scalar → outcome bytes Z;
  is_null : scalar → bool;
  is_empty_section : scalar → bool;
  format_duration : Z → bytes;
  parse_duration : bytes → outcome bytes Z
}.
(** A [Duration] in nanoseconds. *)
Definition is_duration (d : Z) : Prop := 0 ≤ d < 18446744073709551616 * NANOS_PER_SEC.
(** What the code relies on: a scalar that was written is read back at its
    type, an integer is read within the bounds of its type, and the text of a
    duration is read back. *)
Class YamlLaws `{YamlLib} : Prop := {
  as_str_put s : as_str (put_str s) = Ret s;
  as_bool_put b : as_bool (put_bool b) = Ret b;
  as_int_put lo hi n : lo ≤ n ≤ hi → 0 ≤ n → as_int lo hi (put_uint n) = Ret n;
  as_int_bounds lo hi s n : as_int lo hi s = Ret n → lo ≤ n ≤ hi;
  parse_format_duration d : is_duration d → parse_duration (format_duration d) = Ret d;
  parse_duration_bounds t d : parse_duration t = Ret d → is_duration d
}.

Section serde.
Context `{YamlLib}.

#[warnings="-register-all"]
Inductive yaml := YScalar (s : scalar) | YSeq (l : list yaml) | YMap (l : list (bytes * yaml)).
Inductive de_error :=
  | InvalidScalar (text : bytes) | InvalidType (expected : bytes) | MissingField (field : bytes) | DuplicateField (field : bytes).
Notation de A := (yaml → outcome de_error A).

(** ** Values *)

Definition de_scalar {A} (read : scalar → outcome bytes A) (expected : bytes) : de A := fun v =>
  match v with YScalar s => map_err InvalidScalar (read s) | _ => Err (InvalidType expected) end.
(** [String], [bool], [u32], [u64], [usize] (64 bits), [i32], [i64]. *)
Definition de_str : de bytes := de_scalar as_str (str "a string").
Definition de_bool : de bool := de_scalar as_bool (str "a boolean").
Definition de_u32 : de Z := de_scalar (as_int 0 u32_max) (str "u32").
Definition de_u64 : de Z := de_scalar (as_int 0 u64_max) (str "u64").
Definition de_usize : de Z := de_scalar (as_int 0 u64_max) (str "usize").
Definition de_i32 : de Z := de_scalar (as_int (-2147483648) 2147483647) (str "i32").
Definition de_i64 : de Z := de_scalar (as_int (-9223372036854775808) 9223372036854775807) (str "i64").
(** [humantime_serde]. *)
Definition de_duration : de Z := fun v => text ← de_str v; map_err InvalidScalar (parse_duration text).
Definition de_option {A} (read : de A) : de (option A) := fun v =>
  match v with
  | YScalar s => if is_null s then Ret None else Some <$> read v
  | _ => Some <$> read v
  end.
Fixpoint read_all {A} (read : de A) (l : list yaml) : outcome de_error (list A) :=
  match l with
  | [] => Ret []
  | v :: l => a ← read v; r ← read_all read l; Ret (a :: r)
  end.
Definition de_vec {A} (read : de A) : de (list A) := fun v =>
  match v with YSeq l => read_all read l | _ => Err (InvalidType (str "a sequence")) end.

(** The entries of a mapping. *)
Definition entries_of (expected : bytes) (v : yaml) : outcome de_error (list (bytes * yaml)) :=
  match v with
  | YMap l => Ret l
  | YScalar s => if is_empty_section s then Ret [] else Err (InvalidType expected)
  | YSeq _ => Err (InvalidType expected)
  end.

(** [BTreeMap<String, String>]: in the order of the keys, a later entry replaces
    an earlier one. *)
Fixpoint bytes_lt (a b : bytes) : bool :=
  match a, b with
  | _, [] => false
  | [], _ :: _ => true
  | x :: a, y :: b => (x <? y) || ((x =? y) && bytes_lt a b)
  end.
Fixpoint btree_insert (k v : bytes) (l : list (bytes * bytes)) : list (bytes * bytes) :=
  match l with
  | [] => [(k, v)]
  | (k', v') :: r =>
      if decide (k = k') then (k, v) :: r else if bytes_lt k k' then (k, v) :: l else (k', v') :: btree_insert k v r
  end.
Fixpoint read_btree (acc : list (bytes * bytes)) (l : list (bytes * yaml)) : outcome de_error (list (bytes * bytes)) :=
  match l with
  | [] => Ret acc
  | (k, v) :: l => s ← de_str v; read_btree (btree_insert k s acc) l
  end.
Definition de_btree : de (list (bytes * bytes)) := fun v =>
  l ← entries_of (str "a map") v; read_btree [] l.

(** ** Structs *)

Fixpoint assoc {V} (k : bytes) (l : list (bytes * V)) : option V :=
  match l with
  | [] => None
  | (k', v) :: l => if decide (k' = k) then Some v else assoc k l
  end.

(** The fields of a struct: the keys it knows, each with the reader of its
    value, and the struct made from the entries of a mapping. *)
Record fields (A : Type) := mkFields {
  fs_known : list (bytes * de unit);
  fs_build : list (bytes * yaml) → outcome de_error A
}.
Arguments mkFields {A}.
Arguments fs_known {A}.
Arguments fs_build {A}.

Definition field {A} (missing : outcome de_error A) (key : bytes) (read : de A) : fields A :=
  mkFields [(key, fun v => _ ← read v; Ret ())]
    (fun m => match assoc key m with Some v => read v | None => missing end).
(** [#[serde(default)]], [#[serde(default = "..")]] and a field without either. *)
Definition field_or {A} (d : A) (key : string) (read : de A) : fields A := field (Ret d) (str key) read.
Definition required {A} (key : string) (read : de A) : fields A := field (Err (MissingField (str key))) (str key) read.
Definition struct {A} (a : A) : fields A := mkFields [] (fun _ => Ret a).
Definition ap {A B} (f : fields (A → B)) (x : fields A) : fields B :=
  mkFields (fs_known f ++ fs_known x) (fun m => g ← fs_build f m; a ← fs_build x m; Ret (g a)).

(** The visitor of a struct: the entries in their order, unknown keys skipped, a
    key that occurs a second time refused. *)
Fixpoint visit (known : list (bytes * de unit)) (seen : list bytes) (l : list (bytes * yaml)) : outcome de_error unit :=
  match l with
  | [] => Ret ()
  | (k, v) :: l =>
      match assoc k known with
      | None => visit known seen l
      | Some read =>
          if decide (k ∈ seen) then Err (DuplicateField k)
          else _ ← read v; visit known (k :: seen) l
      end
  end.
Definition de_struct {A} (name : string) (f : fields A) : de A := fun v =>
  l ← entries_of (str name) v;
  _ ← visit (fs_known f) [] l;
  fs_build f l.

(** ** Writing *)

Definition ser_str (s : bytes) : yaml := YScalar (put_str s).
Definition ser_bool (b : bool) : yaml := YScalar (put_bool b).
Definition ser_uint (n : Z) : yaml := YScalar (put_uint n).
(** [humantime_serde]. *)
Definition ser_duration (d : Z) : yaml := ser_str (format_duration d).
Definition ser_vec {A} (write : A → yaml) (l : list A) : yaml := YSeq (map write l).

(** A field that is written, one with [skip_serializing_if], and an [Option] that is skipped
    when it is [None]. *)
Notation slot := (bytes * option yaml)%type.
Definition entry (key : string) (v : yaml) : slot := (str key, Some v).
Definition entry_unless (skip : bool) (key : string) (v : yaml) : slot := (str key, if skip then None else Some v).
Definition entry_some {A} (key : string) (write : A → yaml) (o : option A) : slot := (str key, write <$> o).
Fixpoint emit (l : list slot) : list (bytes * yaml) :=
  match l with
  | [] => []
  | (k, Some v) :: l => (k, v) :: emit l
  | (_, None) :: l => emit l
  end.
Definition ser_struct (l : list slot) : yaml := YMap (emit l).

(** ** A struct that was written is read back *)

Lemma assoc_app {V} k (l l' : list (bytes * V)) :
  assoc k (l ++ l') = match assoc k l with Some v => Some v | None => assoc k l' end.
Proof. induction l as [|[k' v] l IH]; cbn; [done|]. by case_decide. Qed.
Lemma assoc_elem {V} k (l : list (bytes * V)) v : assoc k l = Some v → (k, v) ∈ l.
Proof.
  induction l as [|[k' v'] l IH]; cbn; [done|]. case_decide as E; [|intros ?%IH; by right].
  intros [= ->]. subst. left.
Qed.
Lemma assoc_None {V} k (l : list (bytes * V)) : k ∉ l.*1 → assoc k l = None.
Proof. induction l as [|[k' v] l IH]; cbn; [done|]. intros [? ?]%not_elem_of_cons. rewrite decide_False by done. by apply IH. Qed.
Lemma emit_elem (l : list slot) k v : (k, v) ∈ emit l → (k, Some v) ∈ l.
Proof.
  induction l as [|[k' [v'|]] l IH]; cbn; [by intros ?%not_elem_of_nil| |intros ?%IH; by right].
  intros [E|?%IH]%elem_of_cons; [injection E as -> ->; left|by right].
Qed.
Lemma emit_keys (l : list slot) k : k ∈ (emit l).*1 → k ∈ l.*1.
Proof. intros ([k' v] & -> & Hin%emit_elem)%list_elem_of_fmap. by eapply (list_elem_of_fmap_2' fst). Qed.
Lemma emit_NoDup (l : list slot) : NoDup l.*1 → NoDup (emit l).*1.
Proof.
  induction l as [|[k [v|]] l IH]; cbn; intros Hn; [done| |]; apply NoDup_cons in Hn as [Hk Hn]; [|by apply IH].
  apply NoDup_cons. split; [|by apply IH]. intros Hin. by apply Hk, emit_keys.
Qed.
Lemma assoc_emit k (l : list slot) : NoDup l.*1 → assoc k (emit l) = mjoin (assoc k l).
Proof.
  induction l as [|[k' [v|]] l IH]; cbn; intros Hn; [done| |]; apply NoDup_cons in Hn as [Hk Hn];
    destruct (decide (k' = k)) as [E|]; [done|by apply IH| |by apply IH].
  subst. apply assoc_None. intros Hin. by apply Hk, emit_keys.
Qed.

Lemma visit_ok known seen l :
  NoDup l.*1 → (∀ k, k ∈ seen → k ∉ l.*1) →
  (∀ k v read, (k, v) ∈ l → assoc k known = Some read → read v = Ret ()) → visit known seen l = Ret ().
Proof.
  revert seen. induction l as [|[k v] l IH]; intros seen Hn Hs Hr; cbn in *; [done|]. apply NoDup_cons in Hn as [Hk Hn].
  assert (∀ seen', (∀ k, k ∈ seen' → k ∉ l.*1) → visit known seen' l = Ret ()) as Hrest.
  { intros seen' Hs'. apply IH; [done..|]. intros k' v' read Hin. apply Hr. by right. }
  destruct (assoc k known) as [read|] eqn:E.
  - rewrite decide_False by (intros Hin; apply (Hs k Hin); left). rewrite (Hr k v read); [|left|done]. cbn. apply Hrest.
    intros k' [->|Hin]%elem_of_cons; [done|]. intros Hk'. apply (Hs k' Hin). by right.
  - apply Hrest. intros k' Hin Hk'. apply (Hs k' Hin). by right.
Qed.

(** The fields [f] read the slots [l] as [a]. *)
Definition accepts {A} (f : fields A) (l : list slot) (a : A) : Prop :=
  (∀ k v read, (k, v) ∈ emit l → assoc k (fs_known f) = Some read → read v = Ret ()) ∧ fs_build f (emit l) = Ret a.

Lemma accepts_struct {A} (a : A) l : accepts (struct a) l a.
Proof. split; [done|done]. Qed.
Lemma accepts_ap {A B} (f : fields (A → B)) x l g a : accepts f l g → accepts x l a → accepts (ap f x) l (g a).
Proof.
  intros [Hf Ef] [Hx Ex]. split; [|cbn; by rewrite Ef, Ex]. intros k v read Hin. cbn. rewrite assoc_app.
  destruct (assoc k (fs_known f)) eqn:E; [intros [= <-]; by eapply Hf|by apply Hx].
Qed.
Lemma accepts_field {A} (missing : outcome de_error A) key read l a :
  NoDup l.*1 → match assoc key l with Some (Some v) => read v = Ret a | _ => missing = Ret a end →
  accepts (field missing key read) l a.
Proof.
  intros Hn E. split.
  - intros k v read' Hin. cbn. case_decide as Ek; [|done]. intros [= <-]. subst k.
    assert (assoc key l = Some (Some v)) as Hv.
    { apply emit_elem in Hin. clear E. induction l as [|[k o] l IH]; [by apply not_elem_of_nil in Hin|]. cbn in *.
      apply NoDup_cons in Hn as [Hk Hn]. apply elem_of_cons in Hin as [E|Hin].
      - injection E as <- <-. by rewrite decide_True.
      - rewrite decide_False; [by apply IH|]. intros ->. apply Hk. by eapply (list_elem_of_fmap_2' fst). }
    rewrite Hv in E. by rewrite E.
  - cbn. rewrite assoc_emit by done. by destruct (assoc key l) as [[v|]|].
Qed.
Lemma de_struct_ok {A} name (f : fields A) l a : NoDup l.*1 → accepts f l a → de_struct name f (ser_struct l) = Ret a.
Proof.
  intros Hn [Hv Hb]. unfold de_struct, ser_struct. cbn. rewrite visit_ok; [done|by apply emit_NoDup| |done].
  intros k Hk. by apply not_elem_of_nil in Hk.
Qed.

Lemma read_all_map {A B} (read : de A) (write : B → yaml) (f : B → A) l :
  Forall (fun b => read (write b) = Ret (f b)) l → read_all read (map write l) = Ret (map f l).
Proof. induction 1 as [|b l E _ IH]; cbn; [done|]. by rewrite E, IH. Qed.

Section laws.
Context `{!YamlLaws}.
Lemma de_ser_str s : de_str (ser_str s) = Ret s.
Proof. unfold de_str, de_scalar, ser_str. by rewrite as_str_put. Qed.
Lemma de_ser_bool b : de_bool (ser_bool b) = Ret b.
Proof. unfold de_bool, de_scalar, ser_bool. by rewrite as_bool_put. Qed.
Lemma de_ser_u32 n : is_u32 n → de_u32 (ser_uint n) = Ret n.
Proof. unfold is_u32, de_u32, de_scalar, ser_uint, u32_max. intros. by rewrite as_int_put by lia. Qed.
Lemma de_ser_usize n : is_u64 n → de_usize (ser_uint n) = Ret n.
Proof. unfold is_u64, de_usize, de_scalar, ser_uint, u64_max. intros. by rewrite as_int_put by lia. Qed.
Lemma de_ser_duration d : is_duration d → de_duration (ser_duration d) = Ret d.
Proof. intros. unfold de_duration, ser_duration. rewrite de_ser_str. cbn. by rewrite parse_format_duration. Qed.
End laws.
Lemma de_option_map {A} (read : de A) l : de_option read (YMap l) = Some <$> read (YMap l).
Proof. done. Qed.

(** ** What a reader returns *)

Definition returns {A} (read : de A) (P : A → Prop) : Prop := ∀ v a, read v = Ret a → P a.
Definition builds {A} (f : fields A) (P : A → Prop) : Prop := ∀ m a, fs_build f m = Ret a → P a.

Lemma builds_struct {A} (a : A) (P : A → Prop) : P a → builds (struct a) P.
Proof. by intros Ha m b [= <-]. Qed.
Lemma builds_ap {A B} (f : fields (A → B)) x (P : B → Prop) (Q : A → Prop) :
  builds f (fun g => ∀ a, Q a → P (g a)) → builds x Q → builds (ap f x) P.
Proof.
  intros Hf Hx m b (g & Eg & (a & Ea & E%Ret_inj)%bind_Ret_inv)%bind_Ret_inv. subst b. exact (Hf m g Eg a (Hx m a Ea)).
Qed.
Lemma builds_field {A} missing key (read : de A) (P : A → Prop) :
  returns read P → (∀ a, missing = Ret a → P a) → builds (field missing key read) P.
Proof. intros Hr Hm m a. cbn. destruct (assoc key m); [by apply Hr|by apply Hm]. Qed.
Lemma builds_field_or {A} (d : A) key (read : de A) (P : A → Prop) : returns read P → P d → builds (field_or d key read) P.
Proof. intros Hr Hd. apply builds_field; [done|]. by intros a [= <-]. Qed.
Lemma returns_struct {A} name (f : fields A) (P : A → Prop) : builds f P → returns (de_struct name f) P.
Proof. intros Hf v a (l & _ & ([] & _ & E)%bind_Ret_inv)%bind_Ret_inv. exact (Hf l a E). Qed.
Lemma returns_any {A} (read : de A) : returns read (fun _ => True).
Proof. done. Qed.
Lemma returns_vec {A} (read : de A) (P : A → Prop) : returns read P → returns (de_vec read) (Forall P).
Proof.
  intros Hr [|l|] a; [done| |done]. cbn. revert a. induction l as [|v l IH]; intros a; cbn; [by intros [= <-]|].
  intros (x & Ex & (r & Er & E%Ret_inj)%bind_Ret_inv)%bind_Ret_inv. subst a. constructor; [exact (Hr v x Ex)|by apply IH].
Qed.
Lemma returns_option {A} (read : de A) (P : A → Prop) : returns read P → returns (de_option read) (from_option P True).
Proof.
  assert (∀ v o, returns read P → Some <$> read v = Ret o → from_option P True o) as Hsome.
  { intros v o Hr. destruct (read v) as [x| |] eqn:E; cbn; [|done..]. intros [= <-]. exact (Hr v _ E). }
  intros Hr v o. destruct v as [s| |]; cbn; [destruct (is_null s); [by intros [= <-]|]|..]; by apply Hsome.
Qed.
Lemma returns_scalar {A} (read : scalar → outcome bytes A) expected (P : A → Prop) :
  (∀ s a, read s = Ret a → P a) → returns (de_scalar read expected) P.
Proof. intros Hr [s| |] a; cbn; [|done..]. destruct (read s) as [x| |] eqn:E; cbn; [|done..]. intros [= <-]. by eapply Hr. Qed.

Section bounds.
Context `{!YamlLaws}.
Lemma returns_u32 : returns de_u32 is_u32.
Proof. apply returns_scalar. intros s a Ha%as_int_bounds. unfold u32_max, is_u32 in *. lia. Qed.
Lemma returns_u64 : returns de_u64 is_u64.
Proof. apply returns_scalar. intros s a Ha%as_int_bounds. unfold u64_max, is_u64 in *. lia. Qed.
Lemma returns_usize : returns de_usize is_u64.
Proof. apply returns_scalar. intros s a Ha%as_int_bounds. unfold u64_max, is_u64 in *. lia. Qed.
Lemma returns_i32 : returns de_i32 (fun n => -2147483648 ≤ n ≤ 2147483647).
Proof. apply returns_scalar. by intros s a Ha%as_int_bounds. Qed.
Lemma returns_i64 : returns de_i64 (fun n => -9223372036854775808 ≤ n ≤ 9223372036854775807).
Proof. apply returns_scalar. by intros s a Ha%as_int_bounds. Qed.
Lemma returns_duration : returns de_duration is_duration.
Proof.
  intros v a (t & _ & Ht)%bind_Ret_inv. destruct (parse_duration t) eqn:E; [|done..]. injection Ht as <-.
  by apply parse_duration_bounds in E.
Qed.
End bounds.

(** ** What is refused *)

(** A known key that occurs a second time is refused whatever its value is, if
    all before it was read. *)
Lemma visit_duplicate known pre k v post read :
  assoc k known = Some read → (∃ w, (k, w) ∈ pre) → visit known [] pre = Ret () →
  visit known [] (pre ++ (k, v) :: post) = Err (DuplicateField k).
Proof.
  intros Hk Hin. assert (k ∈ pre.*1) as Hkey by (destruct Hin as [w Hw]; by eapply (list_elem_of_fmap_2' fst)).
  clear Hin. assert (k ∈ ([] : list bytes) ∨ k ∈ pre.*1) as Hs by by right. clear Hkey.
  revert Hs. generalize (@nil bytes) as seen. induction pre as [|[k' w] pre IH]; intros seen Hs Hv; cbn in *.
  - rewrite Hk. rewrite decide_True; [done|]. destruct Hs as [?|Hs]; [done|by apply not_elem_of_nil in Hs].
  - destruct (assoc k' known) eqn:E.
    + case_decide; [done|]. apply bind_Ret_inv in Hv as ([] & -> & Hv). cbn. apply IH; [|done].
      destruct Hs as [Hs|[->|Hs]%elem_of_cons]; [left; by right|left; left|by right].
    + apply IH; [|done]. destruct Hs as [Hs|[->|Hs]%elem_of_cons]; [by left|congruence|by right].
Qed.
End serde.
Arguments fields {_} A.
Arguments mkFields {_} {A}.
Arguments fs_known {_} {A}.
Arguments fs_build {_} {A}.
Notation de A := (yaml → outcome de_error A).
Infix "⊛" := ap (at level 61, left associativity).
