(* ===== verification/ConfigFile.v ===== *)
(** * The configuration files as data ([app/src/config.rs], [app/src/share.rs])

    The reader that the [Deserialize] derives of the configuration structs give,
    field by field with the name, the default and the type of each, and the
    writer that the [Serialize] derives of the shared configuration give. The
    main theorem joins both ends of a share: the file that [share --yaml] prints
    is read back and starts a client with the same endpoints and forwardings. *)
From S2P Require Import Prelude RustStr Limit Obfs ObfsSocket Net Quic Config Share Anyhow Cli Serde.
Local Open Scope Z_scope.
Create HintDb serde.

Section files.
Context `{YamlLib}.

(** ** The client *)

Definition de_ClientTransportUdpConfig : de ClientTransportUdpConfig :=
  de_struct "struct ClientTransportUdpConfig" (struct mkTransportUdp ⊛ field_or 0 "hop_interval" de_duration).
Definition de_ClientTransportConfig : de ClientTransportConfig :=
  de_struct "struct ClientTransportConfig"
    (struct mkClientTransport
     ⊛ field_or [] "type" de_str
     ⊛ field_or (tp_udp transport_default) "udp" de_ClientTransportUdpConfig).
Definition de_SalamanderConfig : de bytes :=
  de_struct "struct SalamanderConfig" (struct id ⊛ field_or [] "password" de_str).
(** [ClientObfsConfig] and [ServerObfsConfig] have the same fields. *)
Definition de_ObfsConfig (name : string) : de ObfsSection :=
  de_struct name (struct mkObfs ⊛ field_or [] "type" de_str ⊛ field_or [] "salamander" de_SalamanderConfig).
Definition de_ClientTlsConfig : de ClientTlsConfig :=
  de_struct "struct ClientTlsConfig"
    (struct mkClientTls
     ⊛ field_or [] "sni" de_str
     ⊛ field_or false "insecure" de_bool
     ⊛ field_or [] "pinSHA256" de_str
     ⊛ field_or [] "ca" de_str
     ⊛ field_or [] "clientCertificate" de_str
     ⊛ field_or [] "clientKey" de_str).
Definition de_ClientQuicSockoptsConfig : de ClientQuicSockoptsConfig :=
  de_struct "struct ClientQuicSockoptsConfig"
    (struct mkSockopts
     ⊛ field_or None "bindInterface" (de_option de_str)
     ⊛ field_or None "fwmark" (de_option de_u32)
     ⊛ field_or None "fdControlUnixSocket" (de_option de_str)).
Definition de_ClientQuicConfig : de ClientQuicConfig :=
  de_struct "struct ClientQuicConfig"
    (struct mkClientQuic
     ⊛ field_or 0 "initStreamReceiveWindow" de_u64
     ⊛ field_or 0 "maxStreamReceiveWindow" de_u64
     ⊛ field_or 0 "initConnReceiveWindow" de_u64
     ⊛ field_or 0 "maxConnReceiveWindow" de_u64
     ⊛ field_or 0 "max_idle_timeout" de_duration
     ⊛ field_or 0 "keep_alive_period" de_duration
     ⊛ field_or false "disablePathMTUDiscovery" de_bool
     ⊛ field_or (cq_sockopts client_quic_default) "sockopts" de_ClientQuicSockoptsConfig).
Definition de_BandwidthConfig : de BandwidthConfig :=
  de_struct "struct BandwidthConfig" (struct mkBandwidth ⊛ field_or [] "up" de_str ⊛ field_or [] "down" de_str).
Definition de_Socks5Config : de Socks5Config :=
  de_struct "struct Socks5Config"
    (struct mkSocks5Config
     ⊛ field_or [] "listen" de_str
     ⊛ field_or [] "username" de_str
     ⊛ field_or [] "password" de_str
     ⊛ field_or false "disableUDP" de_bool).
Definition de_HttpConfig : de HttpConfig :=
  de_struct "struct HttpConfig"
    (struct mkHttpConfig
     ⊛ field_or [] "listen" de_str
     ⊛ field_or [] "username" de_str
     ⊛ field_or [] "password" de_str
     ⊛ field_or [] "realm" de_str).
Definition de_TcpForwardingEntry : de TcpForwardingEntry :=
  de_struct "struct TcpForwardingEntry" (struct mkTcpForwarding ⊛ field_or [] "listen" de_str ⊛ field_or [] "remote" de_str).
(** [wireguard_mtu] is never read. *)
Definition udp_entry (listen remote : bytes) (timeout receive send depth : Z) : UdpForwardingEntry :=
  mkUdpForwarding listen remote timeout receive send depth None.
Definition de_UdpForwardingEntry : de UdpForwardingEntry :=
  de_struct "struct UdpForwardingEntry"
    (struct udp_entry
     ⊛ field_or [] "listen" de_str
     ⊛ field_or [] "remote" de_str
     ⊛ field_or 0 "timeout" de_duration
     ⊛ field_or 0 "socketReceiveBuffer" de_usize
     ⊛ field_or 0 "socketSendBuffer" de_usize
     ⊛ field_or 0 "channelDepth" de_usize).
Definition default_wireguard_forward_mtu : Z := WIREGUARD_FORWARD_DEFAULT_MTU.
Definition de_WireGuardForwardingEntry : de WireGuardForwardingEntry :=
  de_struct "struct WireGuardForwardingEntry"
    (struct mkWireGuard
     ⊛ field_or [] "listen" de_str
     ⊛ field_or [] "remote" de_str
     ⊛ field_or default_wireguard_forward_mtu "mtu" de_u32
     ⊛ field_or 0 "timeout" de_duration
     ⊛ field_or 0 "socketReceiveBuffer" de_usize
     ⊛ field_or 0 "socketSendBuffer" de_usize
     ⊛ field_or 0 "channelDepth" de_usize).
Definition de_TcpTProxyConfig : de TcpTProxyConfig :=
  de_struct "struct TcpTProxyConfig" (struct mkTcpTProxy ⊛ field_or [] "listen" de_str).
Definition de_UdpTProxyConfig : de UdpTProxyConfig :=
  de_struct "struct UdpTProxyConfig" (struct mkUdpTProxy ⊛ field_or [] "listen" de_str ⊛ field_or 0 "timeout" de_duration).
Definition de_TcpRedirectConfig : de TcpRedirectConfig :=
  de_struct "struct TcpRedirectConfig" (struct mkTcpRedirect ⊛ field_or [] "listen" de_str).
Definition de_TunAddressConfig : de TunAddressConfig :=
  de_struct "struct TunAddressConfig" (struct mkTunAddress ⊛ field_or [] "ipv4" de_str ⊛ field_or [] "ipv6" de_str).
Definition de_TunRouteConfig : de TunRouteConfig :=
  de_struct "struct TunRouteConfig"
    (struct mkTunRoute
     ⊛ field_or false "strict" de_bool
     ⊛ field_or [] "ipv4" (de_vec de_str)
     ⊛ field_or [] "ipv6" (de_vec de_str)
     ⊛ field_or [] "ipv4Exclude" (de_vec de_str)
     ⊛ field_or [] "ipv6Exclude" (de_vec de_str)).
Definition de_TunConfig : de TunConfig :=
  de_struct "struct TunConfig"
    (struct mkTun
     ⊛ field_or [] "name" de_str
     ⊛ field_or 0 "mtu" de_u32
     ⊛ field_or 0 "timeout" de_duration
     ⊛ field_or (mkTunAddress [] []) "address" de_TunAddressConfig
     ⊛ field_or None "route" (de_option de_TunRouteConfig)).
Definition de_ClientConfig : de ClientConfig :=
  de_struct "struct ClientConfig"
    (struct mkClient
     ⊛ required "server" de_str
     ⊛ field_or [] "auth" de_str
     ⊛ field_or transport_default "transport" de_ClientTransportConfig
     ⊛ field_or obfs_default "obfs" (de_ObfsConfig "struct ClientObfsConfig")
     ⊛ field_or client_tls_default "tls" de_ClientTlsConfig
     ⊛ field_or client_quic_default "quic" de_ClientQuicConfig
     ⊛ field_or bandwidth_default "bandwidth" de_BandwidthConfig
     ⊛ field_or false "fastOpen" de_bool
     ⊛ field_or false "lazy" de_bool
     ⊛ field_or None "socks5" (de_option de_Socks5Config)
     ⊛ field_or None "http" (de_option de_HttpConfig)
     ⊛ field_or [] "tcpForwarding" (de_vec de_TcpForwardingEntry)
     ⊛ field_or [] "udpForwarding" (de_vec de_UdpForwardingEntry)
     ⊛ field_or [] "wireguardForwarding" (de_vec de_WireGuardForwardingEntry)
     ⊛ field_or None "tcpTProxy" (de_option de_TcpTProxyConfig)
     ⊛ field_or None "udpTProxy" (de_option de_UdpTProxyConfig)
     ⊛ field_or None "tcpRedirect" (de_option de_TcpRedirectConfig)
     ⊛ field_or None "tun" (de_option de_TunConfig)).

(** ** The server *)

Definition de_ServerTlsConfig : de ServerTlsConfig :=
  de_struct "struct ServerTlsConfig"
    (struct mkServerTls
     ⊛ field_or [] "cert" de_str
     ⊛ field_or [] "key" de_str
     ⊛ field_or [] "sniGuard" de_str
     ⊛ field_or [] "clientCA" de_str).
Definition de_ServerAcmeHttpConfig : de ServerAcmeHttpConfig :=
  de_struct "struct ServerAcmeHttpConfig" (struct mkAcmeHttp ⊛ field_or 0 "altPort" de_i32).
Definition de_ServerAcmeTlsConfig : de ServerAcmeTlsConfig :=
  de_struct "struct ServerAcmeTlsConfig" (struct mkAcmeTls ⊛ field_or 0 "altPort" de_i32).
Definition de_ServerAcmeDnsConfig : de ServerAcmeDnsConfig :=
  de_struct "struct ServerAcmeDnsConfig" (struct mkAcmeDns ⊛ field_or [] "name" de_str ⊛ field_or [] "config" de_btree).
Definition de_ServerAcmeConfig : de ServerAcmeConfig :=
  de_struct "struct ServerAcmeConfig"
    (struct mkAcme
     ⊛ field_or [] "domains" (de_vec de_str)
     ⊛ field_or [] "email" de_str
     ⊛ field_or [] "ca" de_str
     ⊛ field_or [] "listenHost" de_str
     ⊛ field_or [] "dir" de_str
     ⊛ field_or [] "type" de_str
     ⊛ field_or (mkAcmeHttp 0) "http" de_ServerAcmeHttpConfig
     ⊛ field_or (mkAcmeTls 0) "tls" de_ServerAcmeTlsConfig
     ⊛ field_or (mkAcmeDns [] []) "dns" de_ServerAcmeDnsConfig
     ⊛ field_or false "disableHTTP" de_bool
     ⊛ field_or false "disableTLSALPN" de_bool
     ⊛ field_or 0 "altHTTPPort" de_i32
     ⊛ field_or 0 "altTLSALPNPort" de_i32).
Definition de_ServerQuicConfig : de ServerQuicConfig :=
  de_struct "struct ServerQuicConfig"
    (struct mkServerQuic
     ⊛ field_or 0 "initStreamReceiveWindow" de_u64
     ⊛ field_or 0 "maxStreamReceiveWindow" de_u64
     ⊛ field_or 0 "initConnReceiveWindow" de_u64
     ⊛ field_or 0 "maxConnReceiveWindow" de_u64
     ⊛ field_or 0 "max_idle_timeout" de_duration
     ⊛ field_or 0 "maxIncomingStreams" de_i64
     ⊛ field_or false "disablePathMTUDiscovery" de_bool).
Definition de_ServerAuthHttpConfig : de ServerAuthHttpConfig :=
  de_struct "struct ServerAuthHttpConfig" (struct mkAuthHttp ⊛ field_or [] "url" de_str ⊛ field_or false "insecure" de_bool).
Definition de_ServerAuthConfig : de ServerAuthConfig :=
  de_struct "struct ServerAuthConfig"
    (struct mkServerAuth
     ⊛ field_or [] "type" de_str
     ⊛ field_or [] "password" de_str
     ⊛ field_or [] "userpass" de_btree
     ⊛ field_or (sa_http server_auth_default) "http" de_ServerAuthHttpConfig
     ⊛ field_or [] "command" de_str).
Definition de_ResolverEndpointConfig : de ResolverEndpointConfig :=
  de_struct "struct ResolverEndpointConfig"
    (struct mkResolverEndpoint ⊛ field_or [] "addr" de_str ⊛ field_or 0 "timeout" de_duration).
Definition de_ResolverTlsEndpointConfig : de ResolverTlsEndpointConfig :=
  de_struct "struct ResolverTlsEndpointConfig"
    (struct mkResolverTls
     ⊛ field_or [] "addr" de_str
     ⊛ field_or 0 "timeout" de_duration
     ⊛ field_or [] "sni" de_str
     ⊛ field_or false "insecure" de_bool).
Definition de_ServerResolverConfig : de ServerResolverConfig :=
  de_struct "struct ServerResolverConfig"
    (struct mkResolver
     ⊛ field_or [] "type" de_str
     ⊛ field_or (rv_tcp resolver_default) "tcp" de_ResolverEndpointConfig
     ⊛ field_or (rv_udp resolver_default) "udp" de_ResolverEndpointConfig
     ⊛ field_or (rv_tls resolver_default) "tls" de_ResolverTlsEndpointConfig
     ⊛ field_or (rv_https resolver_default) "https" de_ResolverTlsEndpointConfig).
Definition de_ServerSniffConfig : de ServerSniffConfig :=
  de_struct "struct ServerSniffConfig"
    (struct mkSniff
     ⊛ field_or false "enable" de_bool
     ⊛ field_or 0 "timeout" de_duration
     ⊛ field_or false "rewriteDomain" de_bool
     ⊛ field_or [] "tcpPorts" de_str
     ⊛ field_or [] "udpPorts" de_str).
Definition de_ServerAclConfig : de ServerAclConfig :=
  de_struct "struct ServerAclConfig"
    (struct mkAcl
     ⊛ field_or [] "file" de_str
     ⊛ field_or [] "inline" (de_vec de_str)
     ⊛ field_or [] "geoip" de_str
     ⊛ field_or [] "geosite" de_str
     ⊛ field_or 0 "geoUpdateInterval" de_duration).
Definition de_ServerOutboundDirectConfig : de ServerOutboundDirectConfig :=
  de_struct "struct ServerOutboundDirectConfig"
    (struct mkOutDirect
     ⊛ field_or [] "mode" de_str
     ⊛ field_or [] "bindIPv4" de_str
     ⊛ field_or [] "bindIPv6" de_str
     ⊛ field_or [] "bindDevice" de_str
     ⊛ field_or false "fastOpen" de_bool).
Definition de_ServerOutboundSocks5Config : de ServerOutboundSocks5Config :=
  de_struct "struct ServerOutboundSocks5Config"
    (struct mkOutSocks5 ⊛ field_or [] "addr" de_str ⊛ field_or [] "username" de_str ⊛ field_or [] "password" de_str).
Definition de_ServerOutboundHttpConfig : de ServerOutboundHttpConfig :=
  de_struct "struct ServerOutboundHttpConfig" (struct mkOutHttp ⊛ field_or [] "url" de_str ⊛ field_or false "insecure" de_bool).
Definition de_ServerOutboundEntry : de ServerOutboundEntry :=
  de_struct "struct ServerOutboundEntry"
    (struct mkOutbound
     ⊛ field_or [] "name" de_str
     ⊛ field_or [] "type" de_str
     ⊛ field_or (mkOutDirect [] [] [] [] false) "direct" de_ServerOutboundDirectConfig
     ⊛ field_or (mkOutSocks5 [] [] []) "socks5" de_ServerOutboundSocks5Config
     ⊛ field_or (mkOutHttp [] false) "http" de_ServerOutboundHttpConfig).
Definition de_ServerTrafficStatsConfig : de ServerTrafficStatsConfig :=
  de_struct "struct ServerTrafficStatsConfig" (struct mkTrafficStats ⊛ field_or [] "listen" de_str ⊛ field_or [] "secret" de_str).
Definition de_ServerMasqueradeFileConfig : de ServerMasqueradeFileConfig :=
  de_struct "struct ServerMasqueradeFileConfig" (struct mkMasqFile ⊛ field_or [] "dir" de_str).
Definition de_ServerMasqueradeProxyConfig : de ServerMasqueradeProxyConfig :=
  de_struct "struct ServerMasqueradeProxyConfig"
    (struct mkMasqProxy ⊛ field_or [] "url" de_str ⊛ field_or false "rewriteHost" de_bool ⊛ field_or false "insecure" de_bool).
Definition de_ServerMasqueradeStringConfig : de ServerMasqueradeStringConfig :=
  de_struct "struct ServerMasqueradeStringConfig"
    (struct mkMasqString ⊛ field_or [] "content" de_str ⊛ field_or [] "headers" de_btree ⊛ field_or 0 "statusCode" de_i32).
Definition de_ServerMasqueradeConfig : de ServerMasqueradeConfig :=
  de_struct "struct ServerMasqueradeConfig"
    (struct mkMasquerade
     ⊛ field_or [] "type" de_str
     ⊛ field_or (mq_file masquerade_default) "file" de_ServerMasqueradeFileConfig
     ⊛ field_or (mq_proxy masquerade_default) "proxy" de_ServerMasqueradeProxyConfig
     ⊛ field_or (mq_string masquerade_default) "string" de_ServerMasqueradeStringConfig
     ⊛ field_or [] "listenHTTP" de_str
     ⊛ field_or [] "listenHTTPS" de_str
     ⊛ field_or false "forceHTTPS" de_bool).
Definition de_ServerConfig : de ServerConfig :=
  de_struct "struct ServerConfig"
    (struct mkServer
     ⊛ field_or [] "listen" de_str
     ⊛ field_or obfs_default "obfs" (de_ObfsConfig "struct ServerObfsConfig")
     ⊛ field_or None "tls" (de_option de_ServerTlsConfig)
     ⊛ field_or None "acme" (de_option de_ServerAcmeConfig)
     ⊛ field_or (sf_quic server_config_default) "quic" de_ServerQuicConfig
     ⊛ field_or bandwidth_default "bandwidth" de_BandwidthConfig
     ⊛ field_or false "ignoreClientBandwidth" de_bool
     ⊛ field_or false "speedTest" de_bool
     ⊛ field_or false "disableUDP" de_bool
     ⊛ field_or 0 "udpIdleTimeout" de_duration
     ⊛ field_or server_auth_default "auth" de_ServerAuthConfig
     ⊛ field_or resolver_default "resolver" de_ServerResolverConfig
     ⊛ field_or sniff_default "sniff" de_ServerSniffConfig
     ⊛ field_or acl_default "acl" de_ServerAclConfig
     ⊛ field_or [] "outbounds" (de_vec de_ServerOutboundEntry)
     ⊛ field_or (sf_traffic_stats server_config_default) "trafficStats" de_ServerTrafficStatsConfig
     ⊛ field_or masquerade_default "masquerade" de_ServerMasqueradeConfig).

(** ** The shared configuration *)

Definition is_false (value : bool) : bool := negb value.
Definition is_zero_duration (value : Z) : bool := value =? 0.
Definition is_zero_usize (value : Z) : bool := value =? 0.

Definition ser_BandwidthConfig (b : BandwidthConfig) : yaml :=
  ser_struct [entry "up" (ser_str (bw_up b)); entry "down" (ser_str (bw_down b))].
Definition ser_Socks5Config (s : Socks5Config) : yaml :=
  ser_struct [entry "listen" (ser_str (s5_listen s)); entry "username" (ser_str (s5_username s));
    entry "password" (ser_str (s5_password s)); entry "disableUDP" (ser_bool (s5_disable_udp s))].
Definition ser_HttpConfig (h : HttpConfig) : yaml :=
  ser_struct [entry "listen" (ser_str (ht_listen h)); entry "username" (ser_str (ht_username h));
    entry "password" (ser_str (ht_password h)); entry "realm" (ser_str (ht_realm h))].
Definition ser_TcpForwardingEntry (e : TcpForwardingEntry) : yaml :=
  ser_struct [entry "listen" (ser_str (tf_listen e)); entry "remote" (ser_str (tf_remote e))].
Definition ser_ShareTlsExport (t : ShareTlsExport) : yaml :=
  ser_struct [
    entry_unless (is_empty (xt_sni t)) "sni" (ser_str (xt_sni t));
    entry_unless (is_false (xt_insecure t)) "insecure" (ser_bool (xt_insecure t));
    entry_unless (is_empty (xt_pin_sha256 t)) "pinSHA256" (ser_str (xt_pin_sha256 t));
    entry_unless (is_empty (xt_ca t)) "ca" (ser_str (xt_ca t))].
Definition ser_ShareSalamanderExport (password : bytes) : yaml := ser_struct [entry "password" (ser_str password)].
Definition ser_ShareObfsExport (o : ShareObfsExport) : yaml :=
  ser_struct [entry "type" (ser_str (xo_kind o)); entry "salamander" (ser_ShareSalamanderExport (xo_password o))].
Definition ser_ShareUdpForwardingExport (e : ShareUdpForwardingExport) : yaml :=
  ser_struct [
    entry "listen" (ser_str (xu_listen e));
    entry "remote" (ser_str (xu_remote e));
    entry_unless (is_zero_duration (xu_timeout e)) "timeout" (ser_duration (xu_timeout e));
    entry_unless (is_zero_usize (xu_socket_receive_buffer e)) "socketReceiveBuffer" (ser_uint (xu_socket_receive_buffer e));
    entry_unless (is_zero_usize (xu_socket_send_buffer e)) "socketSendBuffer" (ser_uint (xu_socket_send_buffer e));
    entry_unless (is_zero_usize (xu_channel_depth e)) "channelDepth" (ser_uint (xu_channel_depth e))].
Definition ser_ShareWireGuardForwardingExport (e : ShareWireGuardForwardingExport) : yaml :=
  ser_struct [
    entry "listen" (ser_str (xw_listen e));
    entry "remote" (ser_str (xw_remote e));
    entry "mtu" (ser_uint (xw_mtu e));
    entry "timeout" (ser_duration (xw_timeout e));
    entry "socketReceiveBuffer" (ser_uint (xw_socket_receive_buffer e));
    entry "socketSendBuffer" (ser_uint (xw_socket_send_buffer e));
    entry "channelDepth" (ser_uint (xw_channel_depth e))].
Definition ser_ShareConfigExport (c : ShareConfigExport) : yaml :=
  ser_struct [
    entry "server" (ser_str (xc_server c));
    entry_unless (is_empty (xc_auth c)) "auth" (ser_str (xc_auth c));
    entry_some "tls" ser_ShareTlsExport (xc_tls c);
    entry_some "obfs" ser_ShareObfsExport (xc_obfs c);
    entry_some "bandwidth" ser_BandwidthConfig (xc_bandwidth c);
    entry_some "socks5" ser_Socks5Config (xc_socks5 c);
    entry_some "http" ser_HttpConfig (xc_http c);
    entry_unless (is_empty (xc_tcp_forwarding c)) "tcpForwarding" (ser_vec ser_TcpForwardingEntry (xc_tcp_forwarding c));
    entry_unless (is_empty (xc_udp_forwarding c)) "udpForwarding" (ser_vec ser_ShareUdpForwardingExport (xc_udp_forwarding c));
    entry_unless (is_empty (xc_wireguard_forwarding c)) "wireguardForwarding"
      (ser_vec ser_ShareWireGuardForwardingExport (xc_wireguard_forwarding c))].

(** ** The text *)

(** [serde_yaml::from_str] and [serde_yaml::to_string]; [describe] is the text of
    an error. *)
Section text.
Context (parse_yaml : bytes → outcome bytes yaml) (print_yaml : yaml → outcome bytes bytes).
Context (describe : de_error → bytes).
Definition client_from_str (text : bytes) : outcome bytes ClientConfig :=
  v ← parse_yaml text; map_err describe (de_ClientConfig v).
Definition server_from_str (text : bytes) : outcome bytes ServerConfig :=
  v ← parse_yaml text; map_err describe (de_ServerConfig v).
Definition export_to_string (export : ShareConfigExport) : outcome bytes bytes := print_yaml (ser_ShareConfigExport export).
End text.

(** ** Each struct that is written is read back *)

(** What [skip_serializing_if] leaves out has to be the default. *)
Lemma read_unless {A} (skip : bool) v (read : de A) (a d : A) :
  (skip = true → a = d) → read v = Ret a →
  match (if skip then None else Some v) with Some v => read v = Ret a | None => Ret (E:=de_error) d = Ret a end.
Proof. destruct skip; [|done]. by intros ->. Qed.
Lemma is_empty_nil {A} (l : list A) : is_empty l = true → l = [].
Proof. by destruct l. Qed.
Lemma is_false_false b : is_false b = true → b = false.
Proof. by destruct b. Qed.
Lemma is_zero_0 n : (n =? 0) = true → n = 0.
Proof. apply Z.eqb_eq. Qed.
Hint Resolve is_empty_nil is_false_false is_zero_0 : serde.

Ltac lookup_key :=
  cbn [assoc entry entry_unless entry_some]; repeat first [rewrite decide_True by done | rewrite decide_False by by_decide].
(** Reads a struct field by field; what is left are the fields that the library
    does not settle. *)
Ltac read_fields :=
  apply de_struct_ok; [by_decide|]; repeat eapply accepts_ap; try apply accepts_struct;
  (apply accepts_field; [by_decide|lookup_key]); try apply read_unless; auto with serde.

Context `{!YamlLaws}.
Hint Resolve de_ser_str de_ser_bool de_ser_u32 de_ser_usize de_ser_duration : serde.
Lemma read_bandwidth b : de_BandwidthConfig (ser_BandwidthConfig b) = Ret b.
Proof. destruct b. read_fields. Qed.
Lemma read_socks5 s : de_Socks5Config (ser_Socks5Config s) = Ret s.
Proof. destruct s. read_fields. Qed.
Lemma read_http h : de_HttpConfig (ser_HttpConfig h) = Ret h.
Proof. destruct h. read_fields. Qed.
Lemma read_tcp e : de_TcpForwardingEntry (ser_TcpForwardingEntry e) = Ret e.
Proof. destruct e. read_fields. Qed.
Lemma read_tls t :
  de_ClientTlsConfig (ser_ShareTlsExport t) = Ret (mkClientTls (xt_sni t) (xt_insecure t) (xt_pin_sha256 t) (xt_ca t) [] []).
Proof. read_fields. Qed.
Lemma read_salamander p : de_SalamanderConfig (ser_ShareSalamanderExport p) = Ret p.
Proof. change p with (id p) at 2. read_fields. Qed.
Hint Resolve read_salamander : serde.
Lemma read_obfs name o : de_ObfsConfig name (ser_ShareObfsExport o) = Ret (mkObfs (xo_kind o) (xo_password o)).
Proof. read_fields. Qed.

(** The integers and durations of an entry have the width of their types, and
    an entry of a file has no MTU of its own. *)
Record udp_typed (e : UdpForwardingEntry) : Prop := {
  ut_timeout_ok : is_duration (uf_timeout e);
  ut_receive_ok : is_u64 (uf_socket_receive_buffer e);
  ut_send_ok : is_u64 (uf_socket_send_buffer e);
  ut_depth_ok : is_u64 (uf_channel_depth e);
  ut_mtu_ok : uf_wireguard_mtu e = None
}.
Record wireguard_typed (e : WireGuardForwardingEntry) : Prop := {
  wt_mtu_ok : is_u32 (wg_mtu e);
  wt_timeout_ok : is_duration (wg_timeout e);
  wt_receive_ok : is_u64 (wg_socket_receive_buffer e);
  wt_send_ok : is_u64 (wg_socket_send_buffer e);
  wt_depth_ok : is_u64 (wg_channel_depth e)
}.
Lemma with_defaults_typed e : wireguard_typed e → wireguard_typed (with_defaults e).
Proof. intros []. split; cbn; case_decide; (done || by_decide). Qed.
Lemma with_defaults_idem e : with_defaults (with_defaults e) = with_defaults e.
Proof. unfold with_defaults. cbn. by repeat (case_decide; try done). Qed.

Lemma read_udp e : udp_typed e → de_UdpForwardingEntry (ser_ShareUdpForwardingExport (share_udp e)) = Ret e.
Proof.
  destruct e as [l r t rb sb d m]. intros [? ? ? ? Hm]. cbn in Hm. subst m.
  change (mkUdpForwarding l r t rb sb d None) with (udp_entry l r t rb sb d). read_fields.
Qed.
Lemma read_wireguard e :
  wireguard_typed e → de_WireGuardForwardingEntry (ser_ShareWireGuardForwardingExport (share_wireguard e)) = Ret e.
Proof. destruct e. intros []. read_fields. Qed.

(** What a shared configuration keeps. *)
Definition exported (c : ClientConfig) : ClientConfig :=
  let tls := cf_tls c in
  mkClient (cf_server c) (cf_auth c) transport_default
    (if decide (keyword (ob_type (cf_obfs c)) = str "salamander")
     then mkObfs (str "salamander") (ob_salamander_password (cf_obfs c)) else obfs_default)
    (mkClientTls (tl_sni tls) (tl_insecure tls) (tl_pin_sha256 tls) (tl_ca tls) [] [])
    client_quic_default (cf_bandwidth c) false false (cf_socks5 c) (cf_http c) (cf_tcp_forwarding c) (cf_udp_forwarding c)
    (map with_defaults (cf_wireguard_forwarding c)) None None None None.

Lemma read_shared_obfs c :
  match ser_ShareObfsExport <$> xc_obfs (from_config c) with
  | Some v => de_ObfsConfig "struct ClientObfsConfig" v = Ret (cf_obfs (exported c))
  | None => Ret (E:=de_error) obfs_default = Ret (cf_obfs (exported c))
  end.
Proof. cbn [from_config exported xc_obfs cf_obfs]. case_decide; [apply read_obfs|done]. Qed.
Lemma read_shared_tls c :
  match ser_ShareTlsExport <$> xc_tls (from_config c) with
  | Some v => de_ClientTlsConfig v = Ret (cf_tls (exported c))
  | None => Ret (E:=de_error) client_tls_default = Ret (cf_tls (exported c))
  end.
Proof.
  cbn [from_config exported xc_tls cf_tls]. case_decide as E; [apply read_tls|]. unfold client_tls_default. destruct (cf_tls c) as [sni [] pin ca cc ck]; cbn in *.
  - destruct E. tauto.
  - destruct sni; [|destruct E; by left]. destruct pin; [|destruct E; by right; right; left].
    by destruct ca; [|destruct E; by right; right; right].
Qed.
Lemma read_shared_bandwidth c :
  match ser_BandwidthConfig <$> xc_bandwidth (from_config c) with
  | Some v => de_BandwidthConfig v = Ret (cf_bandwidth c)
  | None => Ret (E:=de_error) bandwidth_default = Ret (cf_bandwidth c)
  end.
Proof.
  cbn [from_config xc_bandwidth]. case_decide as E; [apply read_bandwidth|]. unfold bandwidth_default. destruct (cf_bandwidth c) as [up down]; cbn in *.
  destruct up; [|destruct E; by left]. by destruct down; [|destruct E; by right].
Qed.
(** An optional section of the file. *)
Lemma read_optional {A} (read : de A) (write : A → yaml) (o : option A) :
  (∀ a, ∃ l, write a = YMap l) → (∀ a, read (write a) = Ret a) →
  match write <$> o with Some v => de_option read v = Ret o | None => Ret (E:=de_error) None = Ret o end.
Proof. intros Hm Hr. destruct o as [a|]; cbn; [|done]. destruct (Hm a) as [l E]. specialize (Hr a). rewrite E in *. cbn. by rewrite Hr. Qed.
Lemma read_vec {A B} (read : de A) (write : B → yaml) (l : list A) (share : A → B) :
  Forall (fun a => read (write (share a)) = Ret a) l → de_vec read (ser_vec write (map share l)) = Ret l.
Proof.
  intros Hl. unfold ser_vec. cbn. rewrite map_map, (read_all_map read (fun a => write (share a)) id); [by rewrite map_id|done].
Qed.

Lemma read_export c :
  Forall udp_typed (cf_udp_forwarding c) → Forall wireguard_typed (cf_wireguard_forwarding c) →
  de_ClientConfig (ser_ShareConfigExport (from_config c)) = Ret (exported c).
Proof.
  intros Hu Hw. unfold exported. read_fields.
  - apply read_shared_obfs.
  - apply read_shared_tls.
  - apply read_shared_bandwidth.
  - apply read_optional; [by eexists|apply read_socks5].
  - apply read_optional; [by eexists|apply read_http].
  - cbn [from_config xc_tcp_forwarding]. rewrite <- (map_id (cf_tcp_forwarding c)) at 1.
    apply (read_vec _ _ _ id), Forall_true, read_tcp.
  - cbn. by destruct (cf_udp_forwarding c).
  - apply read_vec. eapply Forall_impl; [exact Hu|]. apply read_udp.
  - cbn. by destruct (cf_wireguard_forwarding c).
  - cbn [from_config xc_wireguard_forwarding]. rewrite <- (map_map with_defaults share_wireguard). apply read_vec, Forall_fmap.
    eapply Forall_impl; [exact Hw|]. intros e He. by apply read_wireguard, with_defaults_typed.
Qed.

(** ** What is read has the widths of its types *)

Record client_quic_typed (q : ClientQuicConfig) : Prop := {
  qt_init_stream : is_u64 (cq_init_stream_receive_window q);
  qt_max_stream : is_u64 (cq_max_stream_receive_window q);
  qt_init_connection : is_u64 (cq_init_connection_receive_window q);
  qt_max_connection : is_u64 (cq_max_connection_receive_window q);
  qt_idle : is_duration (cq_max_idle_timeout q);
  qt_keep_alive : is_duration (cq_keep_alive_period q);
  qt_mark : from_option is_u32 True (so_firewall_mark (cq_sockopts q))
}.
Record client_typed (c : ClientConfig) : Prop := {
  ct_hop : is_duration (tp_hop_interval (tp_udp (cf_transport c)));
  ct_quic : client_quic_typed (cf_quic c);
  ct_udp : Forall udp_typed (cf_udp_forwarding c);
  ct_wireguard : Forall wireguard_typed (cf_wireguard_forwarding c);
  ct_tproxy : from_option (fun t => is_duration (ut_timeout t)) True (cf_udp_tproxy c);
  ct_tun : from_option (fun t => is_u32 (tu_mtu t) ∧ is_duration (tu_timeout t)) True (cf_tun c)
}.
Lemma is_duration_0 : is_duration 0.
Proof. unfold is_duration, NANOS_PER_SEC. lia. Qed.
Lemma is_u64_0 : is_u64 0.
Proof. unfold is_u64. lia. Qed.
Lemma is_u32_0 : is_u32 0.
Proof. unfold is_u32. lia. Qed.
Create HintDb serde_width.
Hint Resolve is_duration_0 is_u64_0 is_u32_0 Forall_nil_2 I : serde_width.
Hint Resolve returns_u32 returns_u64 returns_usize returns_i32 returns_i64 returns_duration returns_vec returns_option : serde_width.
(** What holds of a struct from what holds of its fields. *)
Ltac build_fields :=
  apply returns_struct;
  repeat (eapply builds_ap;
    [|first [apply builds_field_or | apply builds_field];
      [first [solve [eauto 3 with serde_width] | apply returns_any]|first [solve [auto 3 with serde_width]|cbn; solve [auto 3 with serde_width]|idtac]]]);
  [apply builds_struct|..].

Lemma read_udp_typed : returns de_UdpForwardingEntry udp_typed.
Proof. build_fields. by constructor. Qed.
Lemma read_wireguard_typed : returns de_WireGuardForwardingEntry wireguard_typed.
Proof. build_fields; [by constructor|by_decide]. Qed.
Lemma read_sockopts_typed : returns de_ClientQuicSockoptsConfig (fun o => from_option is_u32 True (so_firewall_mark o)).
Proof. build_fields. done. Qed.
Hint Resolve read_udp_typed read_wireguard_typed read_sockopts_typed : serde_width.
Lemma read_quic_typed : returns de_ClientQuicConfig client_quic_typed.
Proof. build_fields. by constructor. Qed.
Lemma read_tun_typed : returns de_TunConfig (fun t => is_u32 (tu_mtu t) ∧ is_duration (tu_timeout t)).
Proof. build_fields. done. Qed.
Lemma read_tproxy_typed : returns de_UdpTProxyConfig (fun t => is_duration (ut_timeout t)).
Proof. build_fields. done. Qed.
Lemma read_transport_udp_typed : returns de_ClientTransportUdpConfig (fun t => is_duration (tp_hop_interval t)).
Proof. build_fields. done. Qed.
Hint Resolve read_quic_typed read_tun_typed read_tproxy_typed read_transport_udp_typed : serde_width.
Lemma read_transport_typed : returns de_ClientTransportConfig (fun t => is_duration (tp_hop_interval (tp_udp t))).
Proof. build_fields. done. Qed.
Hint Resolve read_transport_typed : serde_width.
Lemma client_quic_default_typed : client_quic_typed client_quic_default.
Proof. constructor; cbn; auto with serde_width. Qed.
Hint Resolve client_quic_default_typed : serde_width.
Lemma read_client_typed : returns de_ClientConfig client_typed.
Proof. build_fields. by constructor. Qed.
Record server_typed (c : ServerConfig) : Prop := {
  sv_init_stream : is_u64 (sq_init_stream_receive_window (sf_quic c));
  sv_max_stream : is_u64 (sq_max_stream_receive_window (sf_quic c));
  sv_init_connection : is_u64 (sq_init_connection_receive_window (sf_quic c));
  sv_max_connection : is_u64 (sq_max_connection_receive_window (sf_quic c));
  sv_idle : is_duration (sq_max_idle_timeout (sf_quic c));
  sv_streams : -9223372036854775808 ≤ sq_max_incoming_streams (sf_quic c) ≤ 9223372036854775807;
  sv_udp_idle : is_duration (sf_udp_idle_timeout c)
}.
Lemma read_server_quic_typed :
  returns de_ServerQuicConfig (fun q =>
    is_u64 (sq_init_stream_receive_window q) ∧ is_u64 (sq_max_stream_receive_window q) ∧
    is_u64 (sq_init_connection_receive_window q) ∧ is_u64 (sq_max_connection_receive_window q) ∧
    is_duration (sq_max_idle_timeout q) ∧ -9223372036854775808 ≤ sq_max_incoming_streams q ≤ 9223372036854775807).
Proof. build_fields; [cbn; intros; tauto|cbn beta; lia]. Qed.
Hint Resolve read_server_quic_typed : serde_width.
Lemma read_server_typed : returns de_ServerConfig server_typed.
Proof.
  build_fields; [intros; split; cbn; tauto|]. split_and!; auto with serde_width; cbn; lia.
Qed.
End files.

(** ** A shared configuration runs the same client *)

(** What the [url] crate promises of a URL it has parsed. *)
Definition url_sound (parse_url : bytes → option Url) : Prop :=
  ∀ s u, parse_url s = Some u →
    (∀ host, url_host u = Some host → 47 ∉ host) ∧ (∀ port, url_port u = Some port → is_u16 port).

Lemma trim_ws_subseteq wl fuel s : trim_ws wl fuel s ⊆ s.
Proof.
  revert s. induction fuel as [|fuel IH]; intros s; cbn; [done|]. destruct (wl s) as [|n]; [done|].
  intros b Hb%IH. by apply (subseteq_drop (S n) s).
Qed.
Lemma trim_subseteq s : trim s ⊆ s.
Proof.
  unfold trim, trim_end, trim_start. intros b Hb%elem_of_reverse%trim_ws_subseteq%elem_of_reverse%trim_ws_subseteq.
  done.
Qed.
Lemma starts_with_elem p s b : starts_with p s = true → b ∈ p → b ∈ s.
Proof.
  unfold starts_with. intros H%bool_decide_eq_true. revert s H. induction p as [|a p IH]; intros s H Hb; [by apply not_elem_of_nil in Hb|].
  destruct s as [|c s]; cbn in H; [by destruct H|]. case_decide; [subst c|by destruct H].
  apply elem_of_cons in Hb as [->|Hb]; [left|right; by apply IH].
Qed.
Lemma not_uri s : 47 ∉ s → starts_with (str "hy2://") (trim s) || starts_with (str "hysteria2://") (trim s) = false.
Proof.
  intros Hs. apply orb_false_iff. split; apply not_true_iff_false; intros H; apply Hs, trim_subseteq; eapply starts_with_elem;
    (done || (by_decide)).
Qed.
Lemma url_server_plain host port : 47 ∉ host → (∀ p, port = Some p → is_u16 p) → 47 ∉ url_server host port.
Proof.
  intros Hh Hp. destruct port as [p|]; cbn; [|done]. specialize (Hp p eq_refl).
  assert (47 ∉ to_string p) as Hd.
  { intros Hin. eapply Forall_forall in Hin; [|apply to_string_digits; unfold is_u16 in Hp; lia]. done. }
  destruct (contains_byte COLON host); rewrite ?not_elem_of_cons, ?not_elem_of_app, ?not_elem_of_cons; unfold COLON;
    split_and!; done || lia.
Qed.

(** What normalisation changes is the address, the secrets and the settings of a URI. *)
Record same_modes (c n : ClientConfig) : Prop := {
  sm_transport : cf_transport n = cf_transport c;
  sm_quic : cf_quic n = cf_quic c;
  sm_bandwidth : cf_bandwidth n = cf_bandwidth c;
  sm_socks5 : cf_socks5 n = cf_socks5 c;
  sm_http : cf_http n = cf_http c;
  sm_tcp : cf_tcp_forwarding n = cf_tcp_forwarding c;
  sm_udp : cf_udp_forwarding n = cf_udp_forwarding c;
  sm_wireguard : cf_wireguard_forwarding n = cf_wireguard_forwarding c
}.
Lemma normalize_modes parse_url c n : normalize_client_config parse_url c = Ret n → same_modes c n.
Proof.
  unfold normalize_client_config. destruct (negb _); [intros [= <-]; by split|]. intros Hn. apply bind_Ret_inv in Hn as (u & _ & Hn).
  case_decide; [injection Hn as <-; by split|]. returned Hn. injection Hn as <-. by split.
Qed.
(** The exported form of a normalised configuration is normalised. *)
Lemma normalize_exported parse_url c n :
  url_sound parse_url → normalize_client_config parse_url c = Ret n →
  normalize_client_config parse_url (exported n) = Ret (exported n).
Proof.
  intros Hurl. unfold normalize_client_config at 1.
  destruct (negb (starts_with (str "hy2://") (trim (cf_server c)) || starts_with (str "hysteria2://") (trim (cf_server c)))) eqn:E.
  - intros [= <-]. unfold normalize_client_config. cbn [exported cf_server]. by rewrite E.
  - intros Hn. apply bind_Ret_inv in Hn as (u & Hu & Hn). destruct (parse_url (trim (cf_server c))) as [u'|] eqn:Hp; [|done].
    injection Hu as ->. case_decide as Hs.
    + injection Hn as <-. unfold normalize_client_config. cbn [exported cf_server]. rewrite E, Hp. cbn. by rewrite decide_True.
    + apply bind_Ret_inv in Hn as (host & Hhost & Hn). apply bind_Ret_inv in Hn as (auth & _ & [= <-]).
      unfold normalize_client_config. cbn [exported cf_server]. destruct (Hurl _ _ Hp) as [Hh Hport].
      destruct (url_host u) as [h|] eqn:Eh; [|done]. injection Hhost as ->.
      by rewrite not_uri by (apply url_server_plain; [by apply Hh|done]).
Qed.

Lemma build_obfs_exported n :
  keyword (ob_type (cf_obfs n)) ∈ [[]; str "plain"; str "salamander"] →
  build_obfs_config (cf_obfs (exported n)) = build_obfs_config (cf_obfs n).
Proof.
  intros Hk. unfold build_obfs_config at 2. cbn [exported cf_obfs].
  destruct (decide (keyword (ob_type (cf_obfs n)) = str "salamander")) as [->|Hne]; [done|].
  rewrite decide_True; [done|]. rewrite !elem_of_cons in *. tauto.
Qed.
Lemma merged_exported n : merged_udp_forwarding_entries (exported n) = merged_udp_forwarding_entries n.
Proof.
  unfold merged_udp_forwarding_entries. cbn [exported cf_udp_forwarding cf_wireguard_forwarding]. f_equal. rewrite map_map.
  apply map_ext. intros e. unfold into_udp_forwarding_entry. by rewrite with_defaults_idem.
Qed.

Lemma reject_false text : reject false text = Ret ().
Proof. done. Qed.
Lemma ensure_exported n u : ensure_client_core_supported n = Ret u → ensure_client_core_supported (exported n) = Ret ().
Proof.
  unfold ensure_client_core_supported. intros H. repeat (apply bind_Ret_inv in H as ([] & ?%reject_Ret & H) || fail). destruct u.
  cbn [exported cf_server cf_transport cf_obfs cf_tls cf_fast_open cf_lazy cf_tcp_tproxy cf_udp_tproxy cf_tcp_redirect cf_tun cf_socks5 cf_http
    tl_client_certificate tl_client_key].
  rewrite H0.
  destruct (decide _); exact H.
Qed.
Lemma supported_obfs n u :
  ensure_client_core_supported n = Ret u → keyword (ob_type (cf_obfs n)) ∈ [[]; str "plain"; str "salamander"].
Proof.
  unfold ensure_client_core_supported. intros H. apply bind_Ret_inv in H as (_ & _ & H). apply bind_Ret_inv in H as (_ & _ & H).
  apply bind_Ret_inv in H as (_ & E%reject_Ret%bool_decide_eq_false & _). by apply dec_stable.
Qed.
Lemma merged_same c n : same_modes c n → merged_udp_forwarding_entries n = merged_udp_forwarding_entries c.
Proof. intros []. unfold merged_udp_forwarding_entries. congruence. Qed.
Lemma runtime_exported c n u u' :
  ensure_client_runtime_mode_supported c = Ret u → same_modes c n → ensure_client_core_supported n = Ret u' →
  ensure_client_runtime_mode_supported (exported n) = Ret ().
Proof.
  intros H [? ? ? E1 E2 E3 ? ?] Hn. unfold ensure_client_runtime_mode_supported in *. rewrite (ensure_exported n u' Hn).
  apply bind_Ret_inv in H as (_ & _ & H). destruct u. etransitivity; [|exact H]. rewrite merged_exported.
  rewrite (merged_same c n) by by split. cbn [exported cf_socks5 cf_http cf_tcp_forwarding]. by rewrite E1, E2, E3.
Qed.

(** The core configuration with other QUIC settings. *)
Definition with_quic (q : QuicTransportConfig) (c : CoreClientConfig) : CoreClientConfig :=
  mkCoreClient (co_server_addr c) (co_server_name c) (co_auth c) (co_bandwidth_max_tx c) (co_bandwidth_max_rx c) (co_obfs c)
    (co_insecure c) (co_root_certificates c) (co_pinned_sha256 c) q.

Lemma exported_runs parse_url to_socket_addrs load_certificates system_loader c n rc q :
  url_sound parse_url → normalize_client_config parse_url c = Ret n →
  build_runnable_client_config parse_url to_socket_addrs load_certificates system_loader c = Ret rc →
  build_client_quic_transport client_quic_default = Ret q →
  build_runnable_client_config parse_url to_socket_addrs load_certificates system_loader (exported n)
    = Ret (mkRunnableClient (with_quic q (rc_core rc)) (rc_socks5 rc) (rc_http rc) (rc_tcp_forwarding rc) (rc_udp_forwarding rc)).
Proof.
  intros Hurl Hn H Hq. pose proof (normalize_modes _ _ _ Hn) as Hm. unfold build_runnable_client_config in *.
  apply bind_Ret_inv in H as (u & Hmode & H). apply bind_Ret_inv in H as (core & Hcore & [= <-]).
  unfold build_client_core_config_with in *. rewrite Hn in Hcore. cbn [mbind outcome_bind] in Hcore.
  apply bind_Ret_inv in Hcore as (u' & Hsupported & Hcore). rewrite (runtime_exported c n u u') by done.
  rewrite (normalize_exported parse_url c n) by done. cbn [mbind outcome_bind]. rewrite (ensure_exported n u') by done.
  cbn [mbind outcome_bind]. returned Hcore.
  injection Hcore as <-. rewrite build_obfs_exported by by eapply supported_obfs. rewrite merged_exported, (merged_same c n) by done.
  change (infer_server_name (exported n)) with (infer_server_name n).
  cbn [exported cf_server cf_bandwidth cf_quic cf_tls tl_ca tl_pin_sha256 tl_insecure cf_auth cf_socks5 cf_http cf_tcp_forwarding].
  rewrite E, E0, E1, E2, E3, Hq, E5, E6. destruct Hm as [? ? ? E7 E8 E9 ? ?]. cbn. by rewrite E7, E8, E9.
Qed.

(** C35: the file that the share command prints is read back. For every client
    file that can be read, the YAML it is shared as is read as the same
    normalised configuration with the defaults of its WireGuard entries filled
    in, less what is not shared (transport, QUIC and client certificates,
    transparent modes). A client that can run from the first file can run from
    the second one with the same server, secrets, certificates, bandwidths,
    obfuscation, listeners and forwardings; only its QUIC settings are the
    defaults. *)
Theorem share_file_roundtrip `{YamlLaws} parse_yaml print_yaml describe parse_url to_socket_addrs load_certificates system_loader text config out :
  (∀ v t, print_yaml v = Ret t → parse_yaml t = Ret v) → url_sound parse_url →
  client_from_str parse_yaml describe text = Ret config →
  build_share_config_yaml parse_url (export_to_string print_yaml) config = Ret out →
  ∃ n q, normalize_client_config parse_url config = Ret n
    ∧ build_client_quic_transport client_quic_default = Ret q
    ∧ client_from_str parse_yaml describe out = Ret (exported n)
    ∧ ∀ rc, build_runnable_client_config parse_url to_socket_addrs load_certificates system_loader config = Ret rc →
        build_runnable_client_config parse_url to_socket_addrs load_certificates system_loader (exported n)
        = Ret (mkRunnableClient (with_quic q (rc_core rc)) (rc_socks5 rc) (rc_http rc) (rc_tcp_forwarding rc) (rc_udp_forwarding rc)).
Proof.
  intros Hprint Hurl Hread Hout. apply bind_Ret_inv in Hout as (n & Hn & Hout). eexists n, _.
  split; [done|]. split; [reflexivity|]. split.
  - unfold client_from_str in *. apply bind_Ret_inv in Hread as (v & _ & Hv). rewrite (Hprint _ _ Hout). cbn [mbind outcome_bind].
    destruct (de_ClientConfig v) eqn:E; [|done..]. injection Hv as ->. destruct (read_client_typed _ _ E) as [_ _ Hu Hw _ _].
    destruct (normalize_modes _ _ _ Hn) as [_ _ _ _ _ _ Eu Ew]. rewrite <- Eu in Hu. rewrite <- Ew in Hw.
    by rewrite (read_export n Hu Hw).
  - intros rc Hrc. by apply exported_runs with (c := config).
Qed.

(** ** A concrete library *)

(** Scalars with their type, durations as the bytes of their nanoseconds. *)
Inductive typed_scalar := XStr (s : bytes) | XBool (b : bool) | XUint (n : Z).
#[global] Instance typed_scalar_eq_dec : EqDecision typed_scalar.
Proof. solve_decision. Defined.
#[global] Instance is_duration_dec d : Decision (is_duration d).
Proof. unfold is_duration. apply _. Defined.
Definition invalid_scalar {A} : outcome bytes A := Err (str "invalid type").
#[local] Instance example_lib : YamlLib := {
  scalar := typed_scalar;
  put_str := XStr;
  put_bool := XBool;
  put_uint := XUint;
  as_str s := match s with XStr s => Ret s | XUint n => Ret (to_string n) | XBool _ => invalid_scalar end;
  as_bool s := match s with XBool b => Ret b | _ => invalid_scalar end;
  as_int lo hi s := match s with XUint n => if decide (lo ≤ n ≤ hi) then Ret n else invalid_scalar | _ => invalid_scalar end;
  is_null s := match s with XStr [] => true | _ => false end;
  is_empty_section s := match s with XStr [] => true | _ => false end;
  format_duration d := be_bytes 12 d;
  parse_duration t := let d := of_be t in if decide (is_duration d) then Ret d else invalid_scalar
}.
#[local] Instance example_laws : YamlLaws.
Proof.
  split; cbn [as_str as_bool as_int put_str put_bool put_uint format_duration parse_duration scalar example_lib]; try done.
  - intros lo hi n Hn _. by rewrite decide_True.
  - intros lo hi [|?|n] m; cbn; [done..|]. case_decide; [|done]. by intros [= <-].
  - intros d Hd. rewrite of_be_be_bytes_id; [by rewrite decide_True|]. unfold is_duration, NANOS_PER_SEC in Hd. eval_pow. lia.
  - intros t d. case_decide; [|done]. by intros [= <-].
Qed.

Section yaml_eqb.
Context (eqb : yaml → yaml → bool).
Fixpoint seq_eqb (l k : list yaml) : bool :=
  match l, k with
  | [], [] => true
  | x :: l, y :: k => eqb x y && seq_eqb l k
  | _, _ => false
  end.
Fixpoint map_eqb (l k : list (bytes * yaml)) : bool :=
  match l, k with
  | [], [] => true
  | (a, x) :: l, (b, y) :: k => bool_decide (a = b) && eqb x y && map_eqb l k
  | _, _ => false
  end.
End yaml_eqb.
Fixpoint yaml_eqb (a b : yaml) : bool :=
  match a, b with
  | YScalar s, YScalar t => bool_decide (s = t)
  | YSeq l, YSeq k => seq_eqb yaml_eqb l k
  | YMap l, YMap k => map_eqb yaml_eqb l k
  | _, _ => false
  end.
Lemma yaml_eqb_eq : ∀ a b, yaml_eqb a b = true → a = b.
Proof.
  fix IH 1. intros [s|l|l] [t|k|k]; cbn [yaml_eqb]; try done; [intros ->%bool_decide_eq_true; done|..].
  - intros H. f_equal. revert k H. induction l as [|x l IHl]; intros [|y k]; cbn [seq_eqb]; try done.
    intros [Hx%IH Hl%IHl]%andb_true_iff. by subst.
  - intros H. f_equal. revert k H. induction l as [|[a x] l IHl]; intros [|[b y] k]; cbn [map_eqb]; try done.
    intros [[->%bool_decide_eq_true Hx%IH]%andb_true_iff Hl%IHl]%andb_true_iff. by subst.
Qed.

Definition example_file : yaml :=
  YMap [
    (str "server", ser_str (str "203.0.113.1:443"));
    (str "auth", ser_str (str "hunter2"));
    (str "comment", ser_str (str "unknown keys are skipped"));
    (str "obfs", YMap [(str "type", ser_str (str "Salamander")); (str "salamander", YMap [(str "password", ser_str (str "66ccff"))])]);
    (str "quic", YMap [(str "max_idle_timeout", ser_duration (60 * NANOS_PER_SEC))]);
    (str "wireguardForwarding", YSeq [YMap [(str "listen", ser_str (str "127.0.0.1:51820")); (str "remote", ser_str (str "198.51.100.10:51820"))]])].
Definition example_config : ClientConfig :=
  mkClient (str "203.0.113.1:443") (str "hunter2") transport_default (mkObfs (str "Salamander") (str "66ccff")) client_tls_default
    (mkClientQuic 0 0 0 0 (60 * NANOS_PER_SEC) 0 false (mkSockopts None None None)) bandwidth_default false false None None [] []
    [mkWireGuard (str "127.0.0.1:51820") (str "198.51.100.10:51820") 1280 0 0 0 0] None None None None.
Definition shared_file : yaml := ser_ShareConfigExport (from_config example_config).
Definition parse_example (t : bytes) : outcome bytes yaml :=
  if decide (t = str "file") then Ret example_file else if decide (t = str "shared") then Ret shared_file else invalid_scalar.
Definition print_example (v : yaml) : outcome bytes bytes := if yaml_eqb v shared_file then Ret (str "shared") else invalid_scalar.

Example read_example_file : de_ClientConfig example_file = Ret example_config.
Proof. vm_compute. reflexivity. Qed.
Example shared_wireguard :
  option_map (yaml_eqb (YSeq [YMap [(str "listen", ser_str (str "127.0.0.1:51820")); (str "remote", ser_str (str "198.51.100.10:51820"));
      (str "mtu", ser_uint 1280); (str "timeout", ser_duration (300 * NANOS_PER_SEC)); (str "socketReceiveBuffer", ser_uint 8388608);
      (str "socketSendBuffer", ser_uint 8388608); (str "channelDepth", ser_uint 4096)]]))
    (assoc (str "wireguardForwarding") (match shared_file with YMap l => l | _ => [] end)) = Some true.
Proof. vm_compute. reflexivity. Qed.
Example client_without_server : de_ClientConfig (YMap [(str "auth", ser_str (str "x"))]) = Err (MissingField (str "server")).
Proof. vm_compute. reflexivity. Qed.
Example client_twice_auth :
  de_ClientConfig (YMap [(str "server", ser_str (str "h:1")); (str "auth", ser_str []); (str "auth", ser_str [])]) = Err (DuplicateField (str "auth")).
Proof. vm_compute. reflexivity. Qed.
Example server_empty_file : de_ServerConfig (YMap []) = Ret server_config_default.
Proof. vm_compute. reflexivity. Qed.
(** The names of the QUIC timeouts in the error messages are not the keys that are read. *)
Example quic_camel_case_ignored :
  de_ClientQuicConfig (YMap [(str "maxIdleTimeout", ser_str (str "60s")); (str "keepAlivePeriod", ser_str (str "10s"))]) = Ret client_quic_default.
Proof. vm_compute. reflexivity. Qed.
(** An obfuscation of another type is left out of the shared file, which then
    describes a client without obfuscation; the share URI is refused. *)
Example unknown_obfs_dropped (c : ClientConfig) :
  cf_obfs c = mkObfs (str "salamandr") (str "66ccff") →
  xc_obfs (from_config c) = None ∧ share_pairs c = Err (str "unsupported obfs.type salamandr").
Proof. intros E. unfold share_pairs. cbn [from_config xc_obfs]. rewrite E. by split. Qed.

Definition example_resolve (s : bytes) : option (list SocketAddr) := (fun a => [a]) <$> parse_socket_addr s.
Lemma share_file_roundtrip_witness :
  ∃ n rc, normalize_client_config (fun _ => None) example_config = Ret n ∧
    client_from_str parse_example (fun _ => []) (str "shared") = Ret (exported n) ∧
    build_runnable_client_config (fun _ => None) example_resolve (fun _ => Err []) (Ret [str "root"]) (exported n) = Ret rc.
Proof.
  destruct (share_file_roundtrip parse_example print_example (fun _ => []) (fun _ => None) example_resolve (fun _ => Err []) (Ret [str "root"])
    (str "file") example_config (str "shared")) as (n & q & Hn & _ & Hr & Hrun).
  - intros v t. unfold print_example. destruct (yaml_eqb v shared_file) eqn:E; [|discriminate].
    apply yaml_eqb_eq in E as ->. intros [= <-]. reflexivity.
  - intros s u. discriminate.
  - vm_compute. reflexivity.
  - vm_compute. reflexivity.
  - exists n. eexists. split; [exact Hn|]. split; [exact Hr|]. eapply Hrun. vm_compute. reflexivity.
Defined.
