(* ===== verification/MobileView.v ===== *)
(** * What the mobile application shows ([mobile/src/main.rs])

    The labels, figures and cards of the user interface, and the counters it
    keeps, as functions of the form, the status and the time. Instants and
    durations are nanoseconds. *)
From S2P Require Import Prelude RustStr Float Limit Net HttpProxy Config Anyhow MobileForm MobileStatus Controller.
Local Open Scope Z_scope.

(** ** Strings *)

(** [s.chars()] of a valid string, each character with its bytes. *)
Fixpoint chars_from (fuel : nat) (s : bytes) : list bytes :=
  match fuel, s with
  | S fuel, _ :: _ => let n := snd (utf8_step s) in take n s :: chars_from fuel (drop n s)
  | _, _ => []
  end.
Definition chars (s : bytes) : list bytes := chars_from (length s) s.

(** [s.split_once(pat)] of a text. *)
Fixpoint split_once_str (p s : bytes) : option (bytes * bytes) :=
  match strip_prefix p s with
  | Some rest => Some ([], rest)
  | None => match s with [] => None | b :: s => '(l, r) ← split_once_str p s; Some (b :: l, r) end
  end.
(** [s.split(pat).nth(1)]. *)
Definition split_nth_1 (p s : bytes) : option bytes :=
  '(_, rest) ← split_once_str p s; Some (match split_once_str p rest with Some (l, _) => l | None => rest end).

(** [Path::new(s).file_name()]: the last component, unless it is [..]. *)
Definition file_name (s : bytes) : option bytes :=
  c ← last (filter (fun c => c ≠ [] ∧ c ≠ str ".") (split_char 47 s)); if decide (c = str "..") then None else Some c.

(** [{x:.1}] of a double that is not negative, and [{n:02}]. *)
Definition fixed1 (x : f64) : bytes :=
  let n := round_half_even (Qnum x * 10) (Zpos (Qden x)) in dec_digits 40 (n / 10) ++ [46; 48 + n mod 10].
Definition pad2 (n : Z) : bytes := if decide (n < 10) then 48 :: to_string n else to_string n.

(** ** Types *)

Inductive AppTab := Home | Nodes | Stats | Settings.
#[global] Instance AppTab_eq_dec : EqDecision AppTab.
Proof. solve_decision. Defined.
Definition tab_label (t : AppTab) : bytes :=
  match t with Home => str "Home" | Nodes => str "Nodes" | Stats => str "Stats" | Settings => str "Settings" end.
Inductive NodeFilter := FilterAll | FilterActive | FilterSaved | FilterImported.
#[global] Instance NodeFilter_eq_dec : EqDecision NodeFilter.
Proof. solve_decision. Defined.
Definition filter_label (f : NodeFilter) : bytes :=
  match f with FilterAll => str "All" | FilterActive => str "Active" | FilterSaved => str "Saved" | FilterImported => str "Imported" end.
Inductive AccentTone := Neutral | Accent | Positive | Warning | Danger.
#[global] Instance AccentTone_eq_dec : EqDecision AccentTone.
Proof. solve_decision. Defined.
Inductive NodeCardKind := ActiveDraft | SavedProfile | ImportedShare | LiveSession.
#[global] Instance NodeCardKind_eq_dec : EqDecision NodeCardKind.
Proof. solve_decision. Defined.
Record UiPrefs := mkPrefs { up_compact_layout : bool; up_motion_enabled : bool; up_show_advanced_fields : bool }.
Definition prefs_default : UiPrefs := mkPrefs false true false.
Definition content_gap (p : UiPrefs) : Z := if up_compact_layout p then 14 else 18.
Definition section_gap (p : UiPrefs) : Z := if up_compact_layout p then 18 else 24.
Definition card_padding (p : UiPrefs) : Z := if up_compact_layout p then 16 else 20.
Record LogEntry := mkLogEntry { le_message : bytes; le_recorded_at : Z }.
Record UiMetrics := mkUiMetrics {
  um_connected_since : option Z;
  um_last_connected_at : option Z;
  um_successful_connections : Z;
  um_reconnect_count : Z;
  um_error_count : Z;
  um_dns_failure_count : Z;
  um_import_count : Z;
  um_latest_download : option bytes;
  um_latest_upload : option bytes
}.
Definition metrics_default : UiMetrics := mkUiMetrics None None 0 0 0 0 0 None None.
Record NodeCardData := mkCard {
  nc_kind : NodeCardKind;
  nc_title : bytes;
  nc_subtitle : bytes;
  nc_meta : bytes;
  nc_tags : list bytes;
  nc_selected : bool;
  nc_tone : AccentTone;
  nc_form : option FormState;
  nc_action_label : bytes
}.
Record CaFile := mkCaFile { cafile_name : bytes; cafile_path : bytes }.
Record CaCatalog := mkCaCatalog { cc_directory : bytes; cc_files : list CaFile }.
Definition catalog_default : CaCatalog := mkCaCatalog [] [].

(** ** Phases *)

Definition SPEEDTEST : bytes := str "Speedtest".
Definition is_active_phase (phase : bytes) : bool := bool_decide (phase = str "Connected" ∨ phase = SPEEDTEST).
Definition should_offer_disconnect (phase : bytes) : bool :=
  bool_decide (phase ∈ [str "Connected"; str "Connecting"; str "Reconnecting"; SPEEDTEST; str "Starting VPN"]).
Definition phase_tone (phase : bytes) : AccentTone :=
  if decide (phase = str "Connected") then Positive
  else if decide (phase = SPEEDTEST) then Accent
  else if decide (phase ∈ [str "Connecting"; str "Reconnecting"; str "Starting VPN"]) then Warning
  else if decide (phase = str "Error") then Danger
  else Neutral.

(** ** Counters *)

Definition u32_sat_succ (x : Z) : Z := Z.min u32_max (x + 1).
Definition set_since (since : option Z) (m : UiMetrics) : UiMetrics :=
  mkUiMetrics since (um_last_connected_at m) (um_successful_connections m) (um_reconnect_count m) (um_error_count m)
    (um_dns_failure_count m) (um_import_count m) (um_latest_download m) (um_latest_upload m).

Definition record_status_transition (now : Z) (previous next : UiStatus) (m : UiMetrics) : UiMetrics :=
  let was_active := is_active_phase (us_phase previous) in
  let is_active := is_active_phase (us_phase next) in
  let m :=
    if decide (us_phase next = str "Connected" ∧ us_phase previous ≠ str "Connected" ∧ us_phase previous ≠ SPEEDTEST) then
      mkUiMetrics (Some now) (Some now) (u32_sat_succ (um_successful_connections m)) (um_reconnect_count m) (um_error_count m)
        (um_dns_failure_count m) (um_import_count m) (um_latest_download m) (um_latest_upload m)
    else if negb was_active && is_active && bool_decide (um_connected_since m = None) then set_since (Some now) m
    else m in
  let m :=
    if decide (us_phase previous ≠ str "Reconnecting" ∧ us_phase next = str "Reconnecting") then
      mkUiMetrics None (um_last_connected_at m) (um_successful_connections m) (u32_sat_succ (um_reconnect_count m)) (um_error_count m)
        (um_dns_failure_count m) (um_import_count m) (um_latest_download m) (um_latest_upload m)
    else m in
  let m :=
    if decide (us_phase previous ≠ str "Error" ∧ us_phase next = str "Error") then
      mkUiMetrics (um_connected_since m) (um_last_connected_at m) (um_successful_connections m) (um_reconnect_count m)
        (u32_sat_succ (um_error_count m)) (um_dns_failure_count m) (um_import_count m) (um_latest_download m) (um_latest_upload m)
    else m in
  if negb is_active then set_since None m else m.

Definition parse_speedtest_average (message direction : bytes) : option bytes :=
  let prefix := direction ++ str " speedtest complete:" in
  if starts_with prefix message then trim <$> split_nth_1 (str "average=") message else None.
Definition record_log_metrics (message : bytes) (m : UiMetrics) : UiMetrics :=
  let import_count := if contains_str (str "share URI imported") message then u32_sat_succ (um_import_count m) else um_import_count m in
  let keep (o : option bytes) (field : option bytes) := match o with Some v => Some v | None => field end in
  mkUiMetrics (um_connected_since m) (um_last_connected_at m) (um_successful_connections m) (um_reconnect_count m) (um_error_count m)
    (um_dns_failure_count m) import_count
    (keep (parse_speedtest_average message (str "download")) (um_latest_download m))
    (keep (parse_speedtest_average message (str "upload")) (um_latest_upload m)).
Definition note_dns_failure (m : UiMetrics) : UiMetrics :=
  mkUiMetrics (um_connected_since m) (um_last_connected_at m) (um_successful_connections m) (um_reconnect_count m) (um_error_count m)
    (u32_sat_succ (um_dns_failure_count m)) (um_import_count m) (um_latest_download m) (um_latest_upload m).

(** A log keeps its newest lines first. *)
Definition append_log (now : Z) (message : bytes) (logs : list LogEntry) : list LogEntry :=
  take (Z.to_nat MAX_LOG_LINES) (mkLogEntry message now :: logs).

(** ** Labels *)

Definition EMPTY : bytes := str "<empty>".
Definition config_value_or_empty (value : bytes) : bytes := if blank value then EMPTY else trim value.
Definition config_presence (value : bytes) : bytes := if blank value then EMPTY else str "<set>".
Definition display_or_dash (value : bytes) : bytes := if blank value then str "--" else trim value.
Definition bool_word (value : bool) : bytes := if value then str "Yes" else str "No".

(** Two windows, as [describe_prefill] shows them. *)
Definition describe_windows (init max : bytes) : bytes :=
  let part v := if blank v then str "-" else trim v in
  if blank init && blank max then EMPTY else part init ++ 47 :: part max.
Definition describe_prefill (form : FormState) : bytes :=
  str "launch prefill: server=" ++ config_value_or_empty (fm_server form) ++ str " auth=" ++ config_presence (fm_auth form)
  ++ str " obfs=" ++ config_presence (fm_obfs_password form) ++ str " sni=" ++ config_value_or_empty (fm_sni form)
  ++ str " ca=" ++ config_value_or_empty (fm_ca_path form) ++ str " pin=" ++ config_presence (fm_pin_sha256 form)
  ++ str " bandwidth.up=" ++ config_value_or_empty (fm_bandwidth_up form)
  ++ str " bandwidth.down=" ++ config_value_or_empty (fm_bandwidth_down form)
  ++ str " quic.stream=" ++ describe_windows (fm_init_stream_window form) (fm_max_stream_window form)
  ++ str " quic.conn=" ++ describe_windows (fm_init_conn_window form) (fm_max_conn_window form)
  ++ str " idle=" ++ config_value_or_empty (fm_max_idle_timeout form)
  ++ str " keepAlive=" ++ config_value_or_empty (fm_keep_alive_period form)
  ++ str " udpLocal=" ++ bool_text (fm_local_udp_enabled form) ++ str " pmtudOff=" ++ bool_text (fm_disable_path_mtu_discovery form)
  ++ str " insecure_tls=" ++ bool_text (fm_insecure_tls form).
Definition describe_launch_automation (a : LaunchAutomation) : bytes :=
  str "launch automation: auto_connect=" ++ bool_text (la_auto_connect a) ++ str " auto_request_vpn=" ++ bool_text (la_auto_request_vpn a)
  ++ str " auto_start_vpn=" ++ bool_text (la_auto_start_vpn a).

Definition current_trust_label (form : FormState) (catalog : CaCatalog) (imported_cert_name : bytes) : bytes :=
  let trust :=
    if negb (blank (fm_ca_path form)) then
      if negb (blank imported_cert_name) then trim imported_cert_name
      else
        match List.find (fun file => bool_decide (cafile_path file = fm_ca_path form)) (cc_files catalog) with
        | Some file => cafile_name file
        | None => default (trim (fm_ca_path form)) (file_name (trim (fm_ca_path form)))
        end
    else if fm_insecure_tls form then str "TLS insecure"
    else str "System trust store" in
  join (str " + ") (trust :: if blank (fm_pin_sha256 form) then [] else [str "pinSHA256"]).

Definition vpn_action_label (s : UiStatus) : bytes :=
  if negb (us_vpn_permission_granted s) then str "Request Permission"
  else if us_vpn_active s then str "Stop System VPN" else str "Start System VPN".
Definition vpn_badge_label (s : UiStatus) : bytes :=
  if us_vpn_active s then str "Active"
  else if us_vpn_permission_granted s then str "Ready"
  else if us_vpn_available s then str "Needs permission" else str "Unavailable".
Definition udp_status_label (s : UiStatus) : bytes :=
  if us_udp_enabled s then str "UDP relay ready"
  else if negb (us_local_udp_enabled s) then str "UDP disabled locally"
  else if negb (us_server_udp_supported s) then str "Server UDP unavailable" else str "UDP unavailable".
Definition udp_status_short_tag (s : UiStatus) : bytes :=
  if us_udp_enabled s then str "UDP"
  else if negb (us_local_udp_enabled s) then str "UDP off"
  else if negb (us_server_udp_supported s) then str "Server TCP only" else str "TCP only".
Definition udp_status_tone (s : UiStatus) : AccentTone :=
  if us_udp_enabled s then Accent
  else if negb (us_local_udp_enabled s) || negb (us_server_udp_supported s) then Neutral else Warning.
Definition summarize_protocol (s : UiStatus) : bytes :=
  (if blank (us_remote s) then str "QUIC client idle / " else str "QUIC active / ") ++ udp_status_label s.

Definition summarize_endpoint (server : bytes) : bytes :=
  let server := trim server in
  if decide (server = []) then str "Draft profile"
  else
    let by_port := match rsplit_once COLON server with
                   | Some (host, port) => if bool_decide (is_Some (parse_u16 port)) then host else server
                   | None => server
                   end in
    match strip_prefix [91] server with
    | Some stripped => match split_once_str (str "]:") stripped with Some (host, _) => host | None => by_port end
    | None => by_port
    end.
Definition profile_title (form : FormState) : bytes :=
  let server := trim (fm_server form) in if decide (server = []) then str "Draft profile" else summarize_endpoint server.

Definition trim_middle (value : bytes) (max : Z) : bytes :=
  let cs := chars value in
  if decide (len cs ≤ max) then value
  else
    let keep := Z.to_nat (sat_sub max 3 / 2) in
    concat (take keep cs) ++ str "..." ++ concat (reverse (take keep (reverse cs))).

(** ** Figures *)

(** The loops over the units; a step divides by 1024. *)
Fixpoint scale_1024 (value : f64) (unit : bytes) (units : list bytes) : f64 * bytes :=
  match units with
  | next :: units => if f64_ge value 1024 then scale_1024 (f64_div value 1024) next units else (value, unit)
  | [] => (value, unit)
  end.
Definition format_bytes_per_second (bytes_per_second : Z) : bytes :=
  if decide (bytes_per_second = 0) then str "0 B/s"
  else let '(value, unit) := scale_1024 (f64_of_u64 bytes_per_second) (str "B/s") [str "KB/s"; str "MB/s"; str "GB/s"] in
       fixed1 value ++ 32 :: unit.
Definition format_negotiated_rate (bytes_per_second : Z) : bytes :=
  if decide (bytes_per_second = 0) then str "Adaptive" else format_bytes_per_second bytes_per_second.
Definition format_total_bytes (bytes : Z) : Prelude.bytes :=
  if negb (f64_ge (f64_of_u64 bytes) 1024) then to_string bytes ++ str " B"
  else let '(value, unit) := scale_1024 (f64_of_u64 bytes) (str "B") [str "KB"; str "MB"; str "GB"; str "TB"] in fixed1 value ++ 32 :: unit.
Definition format_latency (latency : option Z) : bytes :=
  match latency with Some value => to_string (value / 1000000) ++ str " ms" | None => str "--" end.
(** [now.duration_since(started).as_secs()], which is zero if the time went
    back. *)
Definition seconds_since (started now : Z) : Z := sat_sub now started / NANOS_PER_SEC.
Definition format_elapsed (started now : Z) : bytes :=
  let seconds := seconds_since started now in
  let hours := seconds / 3600 in
  let minutes := seconds mod 3600 / 60 in
  let seconds := seconds mod 60 in
  (if decide (0 < hours) then pad2 hours ++ [58] else []) ++ pad2 minutes ++ 58 :: pad2 seconds.
Definition format_relative_time (instant now : Z) : bytes :=
  let elapsed := seconds_since instant now in
  if decide (elapsed ≤ 4) then str "just now"
  else if decide (elapsed ≤ 59) then to_string elapsed ++ str "s ago"
  else if decide (elapsed ≤ 3599) then to_string (elapsed / 60) ++ str "m ago"
  else to_string (elapsed / 3600) ++ str "h ago".

(** A product of two [u32]. *)
Definition u32_mul {E} (checks : bool) (a b : Z) : outcome E Z :=
  if decide (a * b ≤ u32_max) then Ret (a * b) else if checks then Panic else Ret (as_u32 (a * b)).
Definition connection_health_score (checks : bool) (m : UiMetrics) (s : UiStatus) : outcome anyhow Z :=
  let score := if decide (um_successful_connections m = 0) then 28 else 88 in
  reconnects ← u32_mul checks (um_reconnect_count m) 8;
  let score := sat_sub score (Z.min reconnects 24) in
  errors ← u32_mul checks (um_error_count m) 15;
  let score := sat_sub score (Z.min errors 45) in
  Ret (as_u8 (if is_active_phase (us_phase s) then Z.min (score + 8) 100 else score)).
Definition vpn_health_score (s : UiStatus) : Z :=
  if us_vpn_active s then 100 else if us_vpn_permission_granted s then 76 else if us_vpn_available s then 42 else 0.
Definition transport_health_score (s : UiStatus) : Z := if blank (us_remote s) then 24 else if us_udp_enabled s then 92 else 64.

(** ** Cards *)

Definition tls_tag (form : FormState) : bytes := if fm_insecure_tls form then str "TLS insecure" else str "TLS verified".
Definition card_subtitle (form : FormState) : bytes :=
  config_value_or_empty (fm_server form) ++ str " / auth " ++ config_presence (fm_auth form).
Definition build_node_cards (form : FormState) (saved_profile : option FormState) (status : UiStatus) : list NodeCardData :=
  [mkCard ActiveDraft (profile_title form) (card_subtitle form)
     (if blank (fm_sni form) then str "Working draft currently shown in the editor."
      else str "Working draft with TLS SNI " ++ trim (fm_sni form))
     [str "Draft"; tls_tag form; if blank (fm_obfs_password form) then str "Plain" else str "Salamander"]
     true (phase_tone (us_phase status)) (Some form) (str "Use draft")]
  ++ (match saved_profile with
      | Some saved =>
          [mkCard SavedProfile (profile_title saved) (card_subtitle saved) (str "Stored locally in Android SharedPreferences.")
             [str "Saved"; tls_tag saved] (bool_decide (saved = form)) Positive (Some saved) (str "Load saved")]
      | None => []
      end)
  ++ (if blank (fm_import_uri form) then []
      else [mkCard ImportedShare (str "Imported share") (trim_middle (trim (fm_import_uri form)) 42)
              (str "Share URI parsed and applied into the active draft.")
              [str "Imported"; if blank (fm_pin_sha256 form) then str "No pin" else str "Pinned"] false Warning (Some form) (str "Apply import")])
  ++ (if blank (us_remote status) then []
      else [mkCard LiveSession (str "Live session") (us_remote status) (us_detail status) [str "Connected"; udp_status_short_tag status]
              (is_active_phase (us_phase status)) Accent None (str "Live only")]).

Definition node_filter_matches (f : NodeFilter) (kind : NodeCardKind) : bool :=
  match f with
  | FilterAll => true
  | FilterActive => bool_decide (kind = ActiveDraft ∨ kind = LiveSession)
  | FilterSaved => bool_decide (kind = SavedProfile)
  | FilterImported => bool_decide (kind = ImportedShare)
  end.
Definition node_search_matches (search : bytes) (card : NodeCardData) : bool :=
  let search := to_ascii_lowercase (trim search) in
  if decide (search = []) then true
  else contains_str search (to_ascii_lowercase (nc_title card ++ 32 :: nc_subtitle card ++ 32 :: nc_meta card)
         ++ concat (map (fun tag => 32 :: to_ascii_lowercase tag) (nc_tags card))).

(** ** Examples of the source *)

Example dashboard_example :
  let m := derive_dashboard_metrics (Some (mkSample 84000000 2048 4096)) (mkSample 96000000 5120 10240) (2 * NANOS_PER_SEC) in
  (format_latency (dm_latency m), format_bytes_per_second (dm_tx_rate_bytes m), format_bytes_per_second (dm_rx_rate_bytes m),
   format_total_bytes (dm_tx_total_bytes m), format_total_bytes (dm_rx_total_bytes m))
  = (str "96 ms", str "1.5 KB/s", str "3.0 KB/s", str "5.0 KB", str "10.0 KB").
Proof. vm_compute. reflexivity. Qed.
Example trust_example :
  current_trust_label (with_ca_path form_default (str "/tmp/certs/custom.pem")) catalog_default [] = str "custom.pem" ∧
  current_trust_label form_default catalog_default [] = str "System trust store".
Proof. vm_compute. split; reflexivity. Qed.
Example elapsed_example :
  format_elapsed 0 (3661 * NANOS_PER_SEC) = str "01:01:01" ∧ format_elapsed 0 (61 * NANOS_PER_SEC) = str "01:01" ∧
  format_relative_time 0 (125 * NANOS_PER_SEC) = str "2m ago".
Proof. vm_compute. split_and!; reflexivity. Qed.
Example average_example :
  parse_speedtest_average (str "download speedtest complete: bytes=1 average=12.00 Mbps") (str "download") = Some (str "12.00 Mbps").
Proof. vm_compute. reflexivity. Qed.
Example endpoint_example :
  summarize_endpoint (str "[::1]:443") = str "::1" ∧ summarize_endpoint (str " h.example:443") = str "h.example" ∧
  summarize_endpoint (str "h.example") = str "h.example".
Proof. vm_compute. split_and!; reflexivity. Qed.

(** ** The clock of a session *)

Lemma since_set_since s m : um_connected_since (set_since s m) = s.
Proof. done. Qed.

(** The session has a start exactly while the phase is active. *)
Definition clock_ok (phase : bytes) (m : UiMetrics) : Prop := is_Some (um_connected_since m) ↔ is_active_phase phase = true.
Lemma record_status_clock now previous next m :
  clock_ok (us_phase previous) m → clock_ok (us_phase next) (record_status_transition now previous next m).
Proof.
  unfold clock_ok, record_status_transition. destruct (is_active_phase (us_phase next)) eqn:En; cbn zeta; cbn [negb].
  2:{ intros _. rewrite since_set_since. split; [by intros []|done]. }
  intros Hp. split; [done|]. intros _.
  assert (us_phase next ≠ str "Reconnecting") as Hnr by (intros Hr; rewrite Hr in En; discriminate En).
  rewrite (decide_False (P:=_ ∧ us_phase next = str "Reconnecting")) by tauto.
  match goal with |- is_Some (um_connected_since (if ?d then mkUiMetrics (um_connected_since ?m) _ _ _ _ _ _ _ _ else _)) =>
    assert (is_Some (um_connected_since m)) as Hm; [|destruct d; exact Hm] end.
  case_decide as Hd; [by eexists|]. destruct (is_active_phase (us_phase previous)); cbn; [by apply Hp|].
  destruct (um_connected_since m) eqn:E; cbn; [rewrite E|]; by eexists.
Qed.

(** ** The health score *)

Lemma u32_mul_cases {E} a b limit :
  0 ≤ a → 0 < b → limit * b ≤ u32_max < (limit + 1) * b →
  ∃ r, u32_mul (E:=E) false a b = Ret r ∧ 0 ≤ r ∧ u32_mul (E:=E) true a b = if decide (a ≤ limit) then Ret r else Panic.
Proof.
  intros Ha Hb Hl. unfold u32_mul. destruct (decide (a ≤ limit)).
  - rewrite !decide_True by nia. exists (a * b). split_and!; [done|nia|done].
  - rewrite !decide_False by nia. exists (as_u32 (a * b)). split_and!; [done| |done]. unfold as_u32. by apply Z.mod_pos_bound.
Qed.

(** The score of a connection. Without overflow checks it is at most 96 for
    every count of reconnects and errors. With them (a debug build) it panics
    exactly if there were more than 536870911 reconnects or 286331153 errors,
    and is the same number otherwise. *)
Theorem health_score_bounds m s :
  0 ≤ um_reconnect_count m ≤ u32_max → 0 ≤ um_error_count m ≤ u32_max →
  ∃ score, connection_health_score false m s = Ret score ∧ 0 ≤ score ≤ 96 ∧
    connection_health_score true m s =
      if decide (um_reconnect_count m ≤ 536870911 ∧ um_error_count m ≤ 286331153) then Ret score else Panic.
Proof.
  intros Hr He. unfold connection_health_score.
  destruct (u32_mul_cases (E:=anyhow) (um_reconnect_count m) 8 536870911) as (r & -> & Hr0 & ->); [lia|lia|unfold u32_max; lia|].
  destruct (u32_mul_cases (E:=anyhow) (um_error_count m) 15 286331153) as (e & -> & He0 & ->); [lia|lia|unfold u32_max; lia|].
  cbn [mbind outcome_bind]. eexists. split; [reflexivity|]. split.
  - unfold as_u8, sat_sub. repeat case_decide; destruct (is_active_phase (us_phase s)); rewrite Z.mod_small; lia.
  - destruct (decide (um_reconnect_count m ≤ 536870911)), (decide (um_error_count m ≤ 286331153)); cbn [mbind outcome_bind].
    1: by rewrite (decide_True (P:=_ ∧ _)). all: by rewrite (decide_False (P:=_ ∧ _)) by tauto.
Qed.
Lemma health_score_bounds_witness :
  (∃ score, connection_health_score false (mkUiMetrics None None 1 u32_max u32_max 0 0 None None) status_default = Ret score ∧ 0 ≤ score ≤ 96) ∧
  connection_health_score true (mkUiMetrics None None 1 u32_max u32_max 0 0 None None) status_default = Panic.
Proof.
  destruct (health_score_bounds (mkUiMetrics None None 1 u32_max u32_max 0 0 None None) status_default) as (score & H1 & H2 & H3);
    [split; discriminate|split; discriminate|]. split; [exists score; split; [exact H1|exact H2]|exact H3].
Defined.

(** ** Shortened texts *)

Definition is_char (c : bytes) : Prop := c ≠ [] ∧ utf8_step c = (true, length c).
Lemma chars_from_fuel n m s : (length s ≤ n)%nat → (length s ≤ m)%nat → chars_from n s = chars_from m s.
Proof.
  revert m s. induction n as [|n IH]; intros [|m] [|b s] Hn Hm; cbn [length] in Hn, Hm; try lia; try done.
  cbn [chars_from]. f_equal. pose proof (utf8_step_pos b s). apply IH; rewrite length_drop; cbn [length]; lia.
Qed.
Lemma chars_char_app c s : is_char c → chars (c ++ s) = c :: chars s.
Proof.
  intros [Hne Hc]. destruct (utf8_step_good c _ Hc) as [_ Hq]. specialize (Hq s). rewrite firstn_all in Hq.
  destruct c as [|b c]; [done|]. rewrite decide_False in Hq by done. unfold chars. cbn [length app chars_from].
  change (b :: c ++ s) with ((b :: c) ++ s). rewrite Hq. cbn [snd].
  rewrite take_app_length', drop_app_length' by done. f_equal. apply chars_from_fuel; rewrite ?length_app; lia.
Qed.
Lemma chars_concat cs : Forall is_char cs → chars (concat cs) = cs.
Proof. induction 1 as [|c cs Hc Hcs IH]; [done|]. cbn [concat]. by rewrite chars_char_app, IH. Qed.
Lemma chars_valid s : utf8_valid s = true → Forall is_char (chars s) ∧ concat (chars s) = s.
Proof.
  induction s as [|b s IH] using utf8_ind; intros Hv; [by split|].
  destruct (utf8_valid_step b s Hv) as (k & Hs & Hk & Hd). rewrite Hs in IH. cbn [snd] in IH. destruct (IH Hd) as [H1 H2].
  assert (is_char (take k (b :: s))) as Hc.
  { split; [destruct k; [lia|done]|]. destruct (utf8_step_good _ _ Hs) as [_ Hq]. specialize (Hq []).
    rewrite app_nil_r, decide_False in Hq by lia. rewrite Hq. by rewrite length_take_le by lia. }
  pose proof (take_drop k (b :: s)) as Htd. remember (take k (b :: s)) as c. remember (drop k (b :: s)) as r. rewrite <- Htd.
  rewrite chars_char_app by done. split; [by constructor|]. cbn. by rewrite H2.
Qed.

Lemma chars_utf8_valid cs : Forall is_char cs → utf8_valid (concat cs) = true.
Proof.
  induction 1 as [|c cs [Hne Hc] Hcs IH]; [done|]. cbn. rewrite <- (firstn_all c), (utf8_valid_char_app c (length c)); [done..|].
  destruct c; [done|cbn; lia].
Qed.

(** A shortened text fits. Of a valid string longer than [max] characters
    (at least three) the first and the last characters are kept, as many of
    each, with three dots between them, so at most [max] in all; a shorter one
    is kept whole; and the result is a valid string. *)
Theorem trim_middle_fits value max :
  utf8_valid value = true → 3 ≤ max →
  utf8_valid (trim_middle value max) = true ∧ len (chars (trim_middle value max)) ≤ max ∧
  (len (chars value) ≤ max → trim_middle value max = value) ∧
  (max < len (chars value) → ∃ first last middle, length first = length last ∧ chars value = first ++ middle ++ last ∧
     max ≤ len first + 4 + len last ∧ trim_middle value max = concat first ++ str "..." ++ concat last).
Proof.
  intros Hv Hm. destruct (chars_valid value Hv) as [Hc Hcat]. unfold trim_middle. case_decide as Hd; [split_and!; [done..|]; lia|].
  set (cs := chars value) in *. set (keep := Z.to_nat (sat_sub max 3 / 2)). unfold len in Hd.
  assert (2 * Z.of_nat keep ≤ max - 3 < 2 * Z.of_nat keep + 2) as Hk
    by (unfold keep, sat_sub; pose proof (Z.div_mod (Z.max 0 (max - 3)) 2); pose proof (Z.mod_pos_bound (Z.max 0 (max - 3)) 2); lia).
  set (tail := reverse (take keep (reverse cs))).
  assert (tail = drop (length cs - keep) cs) as Htail by (unfold tail; by rewrite take_reverse, reverse_involutive).
  assert (length (take keep cs) = keep ∧ length tail = keep) as [H1 H2] by (rewrite Htail, length_take, length_drop; lia).
  assert (Forall is_char (take keep cs ++ [str "."; str "."; str "."] ++ tail)) as Hall.
  { apply Forall_app. split; [by apply Forall_take|]. apply Forall_app. split; [by repeat constructor|]. rewrite Htail. by apply Forall_drop. }
  assert (concat (take keep cs) ++ str "..." ++ concat tail = concat (take keep cs ++ [str "."; str "."; str "."] ++ tail)) as Heq
    by (rewrite !concat_app; done).
  split_and!.
  - rewrite Heq. by apply chars_utf8_valid.
  - rewrite Heq, chars_concat by done. unfold len. rewrite !length_app. cbn [length]. lia.
  - intros. unfold len in *. lia.
  - intros _. exists (take keep cs), tail, (drop keep (take (length cs - keep) cs)). split_and!; [congruence| |unfold len; lia|done].
    rewrite Htail, app_assoc. rewrite <- (take_drop (length cs - keep) cs) at 1. f_equal.
    rewrite <- (take_drop keep (take (length cs - keep) cs)) at 1. rewrite take_take. do 2 f_equal. lia.
Qed.
Lemma trim_middle_fits_witness :
  trim_middle (str "hysteria2://secret@h.example:443/?sni=h.example") 42 = str "hysteria2://secret@...:443/?sni=h.example" ∧
  len (chars (trim_middle (str "hysteria2://secret@h.example:443/?sni=h.example") 42)) ≤ 42.
Proof.
  split; [vm_compute; reflexivity|].
  refine (proj1 (proj2 (trim_middle_fits (str "hysteria2://secret@h.example:443/?sni=h.example") 42 _ _))); [vm_compute; reflexivity|discriminate].
Defined.
