(* ===== verification/MobileApp.v ===== *)
(** * The user interface of the mobile application ([mobile/src/main.rs], [App])

    The signals of the component, the futures that run beside it and the
    handlers of its controls. Everything runs on the thread of the user
    interface, so a turn is what a future does between two waits, or a whole
    handler; what Android answers is part of the turn. A handler sees the values
    of the last rendering where it captured them. Commands to the controller are
    recorded in the order they are sent. *)
From S2P Require Import Prelude RustStr Limit Net HttpProxy Config Anyhow MobileForm MobileStatus Controller MobileView.
Local Open Scope Z_scope.

(** ** What Android returns ([mobile/src/android_bridge.rs]) *)

Record ImportedConfig := mkImportedConfig { ic_name : bytes; ic_content : bytes }.
Record ImportedCa := mkImportedCa { ia_name : bytes; ia_path : bytes }.
Definition UNIT_SEPARATOR : Z := 31.

(** [s.lines()]: the parts that end in a line feed, without it and a carriage
    return before it, and what follows the last line feed. *)
Definition lines (s : bytes) : list bytes :=
  let parts := split_char 10 s in
  map (fun l => match reverse l with 13 :: r => reverse r | _ => l end) (removelast parts)
  ++ match last parts with Some (b :: l) => [b :: l] | _ => [] end.
Definition parse_ca_listing (listing : bytes) : list CaFile :=
  omap (fun line =>
    '(name, path) ← split_once 9 line;
    let name := trim name in
    let path := trim path in
    if decide (name = [] ∨ path = []) then None else Some (mkCaFile name path)) (lines listing).

(** [s.splitn(3, c)]. *)
Definition splitn_3 (c : Z) (s : bytes) : list bytes :=
  match split_once c s with
  | None => [s]
  | Some (a, rest) => a :: match split_once c rest with None => [rest] | Some (b, rest) => [b; rest] end
  end.
(** What the import functions do with the parts of a payload. *)
Definition payload_parts (what : bytes) (payload : bytes) : outcome anyhow (option (bytes * bytes)) :=
  if blank payload then Ret None
  else
    match splitn_3 UNIT_SEPARATOR payload with
    | tag :: parts =>
        if decide (tag = str "ok") then Ret (Some (default [] (parts !! 0%nat), default [] (parts !! 1%nat)))
        else if decide (tag = str "err") then Err (anyhow_msg (default (str "Android " ++ what ++ str " import failed") (parts !! 0%nat)))
        else Err (anyhow_msg (str "invalid Android " ++ what ++ str " import payload"))
    | [] => Err (anyhow_msg (str "invalid Android " ++ what ++ str " import payload"))
    end.
Definition parse_imported_config_payload (payload : bytes) : outcome anyhow (option ImportedConfig) :=
  parts ← payload_parts (str "config") payload;
  Ret ('(name, content) ← parts;
       let name := trim name in
       if bool_decide (name = []) && blank content then None else Some (mkImportedConfig name content)).
Definition parse_imported_ca_payload (payload : bytes) : outcome anyhow (option ImportedCa) :=
  parts ← payload_parts (str "CA") payload;
  Ret ('(name, path) ← parts;
       let name := trim name in
       let path := trim path in
       if decide (name = [] ∨ path = []) then None else Some (mkImportedCa name path)).
Definition availability_message (state : VpnState) : outcome anyhow bytes :=
  if vs_available state then Ret (str "Android VPN shell available")
  else Err (anyhow_msg (str "Android VPN shell is only available on Android builds")).

(** ** State *)

Record Draft := mkDraft {
  dr_form : FormState;
  dr_saved : option FormState;
  dr_config_name : bytes;
  dr_cert_name : bytes;
  dr_catalog : CaCatalog
}.
Record Shown := mkShown { sh_status : UiStatus; sh_metrics : UiMetrics; sh_logs : list LogEntry; sh_last_vpn : VpnState }.
Record Nav := mkNav {
  nv_prefs : UiPrefs;
  nv_tab : AppTab;
  nv_return_tab : AppTab;
  nv_diagnostics : bool;
  nv_filter : NodeFilter;
  nv_search : bytes
}.
(** Where the futures that end stand: the tries or checks they have left. *)
Inductive prefill_phase := PStart | PLoop (rounds : nat) | PDone.
Inductive automation_phase := AStart | AWait (rounds : nat) | AConnecting (rounds : nat) | ADone.
Record Auto := mkAuto {
  au_prefill_applied : bool;
  au_prefill : prefill_phase;
  au_catalog_left : nat;
  au_automation : LaunchAutomation;
  au_started : bool;
  au_phase : automation_phase;
  au_pending : bool
}.
(** The values the last rendering captured. *)
Record View := mkView { vw_draft : Draft; vw_status : UiStatus; vw_nav : Nav }.
Record App := mkApp { ap_draft : Draft; ap_shown : Shown; ap_nav : Nav; ap_auto : Auto; ap_sent : list AppCommand; ap_view : View }.

Definition on_draft (f : Draft → Draft) (a : App) : App := mkApp (f (ap_draft a)) (ap_shown a) (ap_nav a) (ap_auto a) (ap_sent a) (ap_view a).
Definition on_shown (f : Shown → Shown) (a : App) : App := mkApp (ap_draft a) (f (ap_shown a)) (ap_nav a) (ap_auto a) (ap_sent a) (ap_view a).
Definition on_nav (f : Nav → Nav) (a : App) : App := mkApp (ap_draft a) (ap_shown a) (f (ap_nav a)) (ap_auto a) (ap_sent a) (ap_view a).
Definition on_auto (f : Auto → Auto) (a : App) : App := mkApp (ap_draft a) (ap_shown a) (ap_nav a) (f (ap_auto a)) (ap_sent a) (ap_view a).
Definition send (c : AppCommand) (a : App) : App :=
  mkApp (ap_draft a) (ap_shown a) (ap_nav a) (ap_auto a) (ap_sent a ++ [c]) (ap_view a).
Definition render_app (a : App) : App :=
  mkApp (ap_draft a) (ap_shown a) (ap_nav a) (ap_auto a) (ap_sent a) (mkView (ap_draft a) (sh_status (ap_shown a)) (ap_nav a)).

Definition set_form (form : FormState) (d : Draft) : Draft := mkDraft form (dr_saved d) (dr_config_name d) (dr_cert_name d) (dr_catalog d).
Definition set_saved (saved : option FormState) (d : Draft) : Draft :=
  mkDraft (dr_form d) saved (dr_config_name d) (dr_cert_name d) (dr_catalog d).
Definition set_config_name (name : bytes) (d : Draft) : Draft := mkDraft (dr_form d) (dr_saved d) name (dr_cert_name d) (dr_catalog d).
Definition set_cert_name (name : bytes) (d : Draft) : Draft := mkDraft (dr_form d) (dr_saved d) (dr_config_name d) name (dr_catalog d).
Definition set_catalog (catalog : CaCatalog) (d : Draft) : Draft := mkDraft (dr_form d) (dr_saved d) (dr_config_name d) (dr_cert_name d) catalog.
Definition set_shown_status (status : UiStatus) (s : Shown) : Shown := mkShown status (sh_metrics s) (sh_logs s) (sh_last_vpn s).
Definition set_metrics (metrics : UiMetrics) (s : Shown) : Shown := mkShown (sh_status s) metrics (sh_logs s) (sh_last_vpn s).
Definition set_tab (tab : AppTab) (n : Nav) : Nav := mkNav (nv_prefs n) tab (nv_return_tab n) (nv_diagnostics n) (nv_filter n) (nv_search n).
Definition set_phase (phase : automation_phase) (u : Auto) : Auto :=
  mkAuto (au_prefill_applied u) (au_prefill u) (au_catalog_left u) (au_automation u) (au_started u) phase (au_pending u).
Definition set_prefill (phase : prefill_phase) (u : Auto) : Auto :=
  mkAuto (au_prefill_applied u) phase (au_catalog_left u) (au_automation u) (au_started u) (au_phase u) (au_pending u).
Definition set_pending (pending : bool) (u : Auto) : Auto :=
  mkAuto (au_prefill_applied u) (au_prefill u) (au_catalog_left u) (au_automation u) (au_started u) (au_phase u) pending.
(** [append_log(&mut logs, message)]. *)
Definition note (now : Z) (message : bytes) : App → App :=
  on_shown (fun s => mkShown (sh_status s) (sh_metrics s) (append_log now message (sh_logs s)) (sh_last_vpn s)).

(** A call to Android: its value or its error. *)
Abbreviation result A := (A + anyhow)%type.
Definition unwrap_or_default (r : result VpnState) : VpnState := match r with inl v => v | inr _ => vpn_default end.

(** The signals a component starts with. *)
Definition app_new (saved : outcome anyhow (option FormState)) (launch : outcome anyhow LaunchConfig) (catalog : result CaCatalog)
    (vpn : result VpnState) (now : Z) : App :=
  let form := initial_form_state saved launch in
  let vpn_state := unwrap_or_default vpn in
  let vpn_note := match availability_message vpn_state with Ret m => m | _ => str "Android VPN shell unavailable in this build" end in
  let draft := mkDraft form (match saved with Ret o => o | _ => None end) [] [] (match catalog with inl c => c | inr _ => catalog_default end) in
  let nav := mkNav prefs_default Home Home false FilterAll [] in
  mkApp draft
    (mkShown status_default metrics_default
       [mkLogEntry (str "Minimal Android flow ready.") now;
        mkLogEntry (str "Import a config, optionally import a CA certificate, then connect.") now;
        mkLogEntry vpn_note now] vpn_state)
    nav
    (mkAuto (has_meaningful_form_prefill form) PStart 20 (initial_launch_automation launch) false AStart false)
    [] (mkView draft status_default nav).

(** ** Turns *)

(** The text fields a user edits. *)
Inductive field :=
| FServer | FAuth | FObfsPassword | FSni | FCaPath | FPin | FBandwidthUp | FBandwidthDown | FInitStream | FMaxStream | FInitConn | FMaxConn
| FIdleTimeout | FKeepAlive.
Definition set_field (k : field) (v : bytes) (f : FormState) : FormState :=
  let pick (k' : field) (old : bytes) := match k, k' with
    | FServer, FServer | FAuth, FAuth | FObfsPassword, FObfsPassword | FSni, FSni | FCaPath, FCaPath | FPin, FPin
    | FBandwidthUp, FBandwidthUp | FBandwidthDown, FBandwidthDown | FInitStream, FInitStream | FMaxStream, FMaxStream
    | FInitConn, FInitConn | FMaxConn, FMaxConn | FIdleTimeout, FIdleTimeout | FKeepAlive, FKeepAlive => v
    | _, _ => old
    end in
  mkForm (fm_import_uri f) (pick FServer (fm_server f)) (pick FAuth (fm_auth f)) (pick FObfsPassword (fm_obfs_password f))
    (pick FSni (fm_sni f)) (pick FCaPath (fm_ca_path f)) (pick FPin (fm_pin_sha256 f)) (pick FBandwidthUp (fm_bandwidth_up f))
    (pick FBandwidthDown (fm_bandwidth_down f)) (pick FInitStream (fm_init_stream_window f)) (pick FMaxStream (fm_max_stream_window f))
    (pick FInitConn (fm_init_conn_window f)) (pick FMaxConn (fm_max_conn_window f)) (pick FIdleTimeout (fm_max_idle_timeout f))
    (pick FKeepAlive (fm_keep_alive_period f)) (fm_local_udp_enabled f) (fm_disable_path_mtu_discovery f) (fm_insecure_tls f).
(** The fields shown without the expert mode. *)
Definition primary_field (k : field) : bool := match k with FServer | FAuth | FObfsPassword | FSni => true | _ => false end.
Inductive switch := SUdp | SInsecure | SPathMtu.
Definition flip (k : switch) (f : FormState) : FormState :=
  let pick (k' : switch) (old : bool) := match k, k' with SUdp, SUdp | SInsecure, SInsecure | SPathMtu, SPathMtu => negb old | _, _ => old end in
  mkForm (fm_import_uri f) (fm_server f) (fm_auth f) (fm_obfs_password f) (fm_sni f) (fm_ca_path f) (fm_pin_sha256 f) (fm_bandwidth_up f)
    (fm_bandwidth_down f) (fm_init_stream_window f) (fm_max_stream_window f) (fm_init_conn_window f) (fm_max_conn_window f)
    (fm_max_idle_timeout f) (fm_keep_alive_period f) (pick SUdp (fm_local_udp_enabled f))
    (pick SPathMtu (fm_disable_path_mtu_discovery f)) (pick SInsecure (fm_insecure_tls f)).
Definition show_udp_toggle_in_primary_controls : bool := true.
Definition show_expert_transport_toggles (show_advanced_fields : bool) : bool := show_advanced_fields.

Inductive ui_turn :=
(** rendering, and the futures *)
| URender
| UEvents (events : list (AppEvent * Z)) (vpn : result VpnState)
| UPrefill (launch_form : FormState) (now : Z)
| UCatalog (catalog : result CaCatalog)
| UImports (config : result (option ImportedConfig)) (saved : result unit) (ca : result (option ImportedCa)) (ca_saved : result unit)
    (catalog : result CaCatalog) (now : Z)
| UPermission (vpn : result VpnState)
| UAutomation (now : Z)
(** the controls *)
| UTopBar
| UPrimary (now : Z)
| USearch (text : bytes)
| UFilter (f : NodeFilter)
| UCard (index : nat)
| UEditImport (text : bytes)
| UImportUri (now : Z)
| UShowStats
| UField (k : field) (text : bytes)
| USwitch (k : switch)
| UExpert
| USelectCa (path : bytes) (now : Z)
| URefreshCa (catalog : result CaCatalog) (now : Z)
| USave (saved : result unit) (now : Z)
| ULoad (saved : result (option FormState)) (now : Z)
| UClear (cleared : result unit) (now : Z)
| USpeedtest (direction : SpeedDirection)
| UImportPaste (now : Z)
| UPickConfig (opened : result unit) (now : Z)
| UPickCa (opened : result unit) (now : Z)
| URequestPermission
| UVpnService
| UDiagnostics.

(** *** The futures *)

(** An event of the controller. *)
Definition on_event (e : AppEvent) (now : Z) (s : Shown) : Shown :=
  match e with
  | Status next => mkShown next (record_status_transition now (sh_status s) next (sh_metrics s)) (sh_logs s) (sh_last_vpn s)
  | Transport next => set_shown_status (apply_dashboard_metrics (sh_status s) next) s
  | Log message =>
      mkShown (sh_status s) (record_log_metrics message (sh_metrics s)) (append_log now message (sh_logs s)) (sh_last_vpn s)
  | DnsFailure reason =>
      mkShown (sh_status s) (note_dns_failure (sh_metrics s)) (append_log now (str "DNS failure: " ++ reason) (sh_logs s)) (sh_last_vpn s)
  end.
#[global] Instance VpnState_eq_dec : EqDecision VpnState.
Proof. solve_decision. Defined.
(** A round of the event pump. *)
Definition pump (events : list (AppEvent * Z)) (vpn : result VpnState) (s : Shown) : Shown :=
  let s := fold_left (fun s e => on_event e.1 e.2 s) events s in
  let vpn_state := unwrap_or_default vpn in
  if decide (vpn_state ≠ sh_last_vpn s) then mkShown (set_vpn_state vpn_state (sh_status s)) (sh_metrics s) (sh_logs s) vpn_state else s.

(** A round of the wait for a launch form, with the rounds left. *)
Definition prefill_round (rounds : nat) (launch_form : FormState) (now : Z) (a : App) : App :=
  match rounds with
  | O => on_auto (set_prefill PDone) (note now (describe_prefill launch_form ++ str " (none applied)") a)
  | S rounds =>
      if has_meaningful_form_prefill launch_form then
        on_auto (fun u => mkAuto true PDone (au_catalog_left u) (au_automation u) (au_started u) (au_phase u) (au_pending u))
          (on_draft (set_form launch_form) (note now (describe_prefill launch_form ++ str " (applied)") a))
      else on_auto (set_prefill (PLoop rounds)) a
  end.
Definition prefill_turn (launch_form : FormState) (now : Z) (a : App) : option App :=
  match au_prefill (ap_auto a) with
  | PStart =>
      if au_prefill_applied (ap_auto a) then Some (on_auto (set_prefill PDone) (note now (describe_prefill (dr_form (ap_draft a))) a))
      else Some (prefill_round 20 launch_form now a)
  | PLoop rounds => Some (prefill_round rounds launch_form now a)
  | PDone => None
  end.

Definition catalog_turn (catalog : result CaCatalog) (a : App) : option App :=
  let tries n := on_auto (fun u => mkAuto (au_prefill_applied u) (au_prefill u) n (au_automation u) (au_started u) (au_phase u) (au_pending u)) in
  match au_catalog_left (ap_auto a) with
  | O => None
  | S n => Some (match catalog with inl c => tries O (on_draft (set_catalog c) a) | inr _ => tries n a end)
  end.

Section turns.
Context (parse_url : bytes → outcome bytes Url) (utf8_error : bytes → bytes) (parse_yaml : bytes → outcome bytes ImportedClientConfig).
Context (path_exists : bytes → bool) (format_duration : Z → bytes).
Abbreviation required := (has_required_connection_fields parse_url utf8_error).
Abbreviation import_document := (parse_imported_client_document parse_url utf8_error parse_yaml path_exists format_duration).
Abbreviation import_settings := (apply_settings_import parse_url utf8_error parse_yaml path_exists format_duration).

(** The first half of the import poll: a configuration file. *)
Definition import_config (config : result (option ImportedConfig)) (saved : result unit) (now : Z) (a : App) : outcome unit App :=
  match config with
  | inl (Some imported) =>
      match import_document (ic_content imported) with
      | Ret (form, warning) =>
          let current := dr_form (ap_draft a) in
          let form := if blank (fm_ca_path form) && negb (blank (fm_ca_path current)) then with_ca_path form (fm_ca_path current) else form in
          let a := on_draft (fun d => set_saved (Some form) (set_form form (set_config_name (ic_name imported) d))) a in
          let a := note now (match saved with
            | inl _ => str "config imported from " ++ ic_name imported ++ str " -> " ++ config_value_or_empty (fm_server form)
            | inr err => str "imported config but failed to persist it: " ++ err_chain err
            end) a in
          Ret (match warning with Some warning => note now warning a | None => a end)
      | Err err => Ret (note now (str "failed to parse imported config: " ++ err_chain err) a)
      | Panic => Panic
      end
  | inl None => Ret a
  | inr err => Ret (note now (str "config import bridge failed: " ++ err_chain err) a)
  end.
(** The second half: a certificate. *)
Definition import_ca (ca : result (option ImportedCa)) (saved : result unit) (catalog : result CaCatalog) (now : Z) (a : App) : App :=
  match ca with
  | inl (Some imported) =>
      let form := with_ca_path (dr_form (ap_draft a)) (ia_path imported) in
      let a := on_draft (fun d => set_saved (Some form) (set_form form (set_cert_name (ia_name imported) d))) a in
      let a := note now (match saved with
        | inl _ => str "certificate imported: " ++ ia_name imported ++ str " -> " ++ ia_path imported
        | inr err => str "imported certificate but failed to persist it: " ++ err_chain err
        end) a in
      match catalog with
      | inl c => on_draft (set_catalog c) a
      | inr err => note now (str "certificate imported but CA refresh failed: " ++ err_chain err) a
      end
  | inl None => a
  | inr err => note now (str "certificate import bridge failed: " ++ err_chain err) a
  end.

(** The wait for the permission, once it was asked for. *)
Definition permission_turn (vpn : result VpnState) (a : App) : App :=
  if au_pending (ap_auto a) && vs_permission_granted (unwrap_or_default vpn) then
    let a := on_auto (set_pending false) a in
    let snapshot := dr_form (ap_draft a) in
    if required snapshot then send (StartManagedVpn snapshot) a else a
  else a.

(** The launch automation. *)
Definition automation_end (now : Z) (a : App) : App :=
  let a := on_auto (set_phase ADone) a in
  if decide (us_phase (sh_status (ap_shown a)) ≠ str "Connected")
  then note now (str "launch automation: connect did not reach Connected in time") a
  else send RequestVpnPermission (note now (str "launch automation: requesting Android VPN permission") a).
Definition automation_connecting (rounds : nat) (now : Z) (a : App) : App :=
  match rounds with
  | O => automation_end now a
  | S rounds =>
      if decide (us_phase (sh_status (ap_shown a)) = str "Connected") then automation_end now a else on_auto (set_phase (AConnecting rounds)) a
  end.
Definition automation_commands (now : Z) (a : App) : App :=
  let automation := au_automation (ap_auto a) in
  let snapshot := dr_form (ap_draft a) in
  if la_auto_start_vpn automation then
    let a := on_auto (set_phase ADone) a in
    if negb (required snapshot)
    then note now (str "launch automation skipped managed VPN start because required fields are empty") a
    else send (StartManagedVpn snapshot) (note now (str "launch automation: starting managed Android system VPN") a)
  else
    let request_vpn a := if la_auto_request_vpn automation then automation_connecting 120 now a else on_auto (set_phase ADone) a in
    if la_auto_connect automation || la_auto_request_vpn automation then
      if negb (required snapshot)
      then note now (str "launch automation skipped connect because required fields are empty") (on_auto (set_phase ADone) a)
      else request_vpn (send (Connect snapshot) (note now (str "launch automation: sending Connect") a))
    else request_vpn a.
Definition automation_wait (rounds : nat) (now : Z) (a : App) : App :=
  match rounds with
  | O => automation_commands now a
  | S rounds => if has_meaningful_form_prefill (dr_form (ap_draft a)) then automation_commands now a else on_auto (set_phase (AWait rounds)) a
  end.
Definition automation_turn (now : Z) (a : App) : option App :=
  match au_phase (ap_auto a) with
  | AStart =>
      if au_started (ap_auto a) || negb (has_launch_automation (au_automation (ap_auto a))) then Some (on_auto (set_phase ADone) a)
      else
        let a := on_auto (fun u => mkAuto (au_prefill_applied u) (au_prefill u) (au_catalog_left u) (au_automation u) true (au_phase u) (au_pending u)) a in
        Some (automation_wait 20 now (note now (describe_launch_automation (au_automation (ap_auto a))) a))
  | AWait rounds => Some (automation_wait rounds now a)
  | AConnecting rounds => Some (automation_connecting rounds now a)
  | ADone => None
  end.

(** *** What a rendering shows *)

Definition page_header (v : View) : bytes * bytes :=
  match nv_tab (vw_nav v) with
  | Home => (str "Hysteria", us_phase (vw_status v) ++ [32; 194; 183; 32] ++ config_value_or_empty (fm_server (dr_form (vw_draft v))))
  | Nodes => (str "Nodes", str "Profiles, imports, and the current working draft.")
  | Stats => (str "Statistics", str "Runtime health, tests, and recent diagnostics.")
  | Settings => (str "Settings", str "Import, configure, and inspect the mobile runtime.")
  end.
Definition topbar_action_label (v : View) : bytes := match nv_tab (vw_nav v) with Settings => str "Back" | _ => str "Settings" end.
Definition current_config_label (v : View) : bytes :=
  let d := vw_draft v in
  if negb (blank (dr_config_name d)) then dr_config_name d
  else match dr_saved d with
       | Some _ => str "Saved profile"
       | None => if has_meaningful_form_prefill (dr_form d) then str "Current draft" else str "No config imported"
       end.
Definition current_node_label (v : View) : bytes :=
  let d := vw_draft v in
  if negb (blank (dr_config_name d)) then dr_config_name d
  else if negb (blank (fm_server (dr_form d))) then summarize_endpoint (fm_server (dr_form d))
  else str "No node configured".
Definition online_duration (m : UiMetrics) (now : Z) : bytes :=
  match um_connected_since m with Some started => format_elapsed started now | None => str "--" end.
Definition last_connected (m : UiMetrics) (now : Z) : bytes :=
  match um_last_connected_at m with Some at_ => format_relative_time at_ now | None => str "No successful session yet" end.
Definition primary_action_label (v : View) : bytes :=
  if should_offer_disconnect (us_phase (vw_status v)) then str "Disconnect"
  else if negb (us_vpn_permission_granted (vw_status v)) then str "Grant VPN Permission"
  else str "Connect".

(** *** The controls *)

(** The controls a rendering shows, and enables. *)
Definition on_draft_pages (v : View) : bool := bool_decide (nv_tab (vw_nav v) = Nodes ∨ nv_tab (vw_nav v) = Settings).
Definition on_tab (tab : AppTab) (v : View) : bool := bool_decide (nv_tab (vw_nav v) = tab).
Definition expert (v : View) : bool := up_show_advanced_fields (nv_prefs (vw_nav v)).
Definition shown_cards (v : View) : list NodeCardData :=
  filter (fun card => node_search_matches (nv_search (vw_nav v)) card = true)
    (filter (fun card => node_filter_matches (nv_filter (vw_nav v)) (nc_kind card) = true)
      (build_node_cards (dr_form (vw_draft v)) (dr_saved (vw_draft v)) (vw_status v))).
(** The paths the selector of certificates offers: none, if one is selected, and
    those of the catalog. *)
Definition ca_choices (v : View) : list bytes :=
  (if blank (fm_ca_path (dr_form (vw_draft v))) then [] else [[]]) ++ map cafile_path (cc_files (dr_catalog (vw_draft v))).
Definition enabled (t : ui_turn) (v : View) : bool :=
  let form := dr_form (vw_draft v) in
  let phase := us_phase (vw_status v) in
  match t with
  | UPrimary _ => on_tab Home v && (required form || should_offer_disconnect phase)
  | USearch _ | UFilter _ | UShowStats => on_tab Nodes v
  | UCard index => on_tab Nodes v && bool_decide (is_Some (card ← shown_cards v !! index; nc_form card))
  | UEditImport _ | UExpert => on_draft_pages v
  | UImportUri _ => on_tab Nodes v && negb (blank (fm_import_uri form))
  | UField k _ => on_draft_pages v && (primary_field k || expert v)
  | USwitch SUdp => on_draft_pages v && show_udp_toggle_in_primary_controls
  | USwitch _ => on_draft_pages v && show_expert_transport_toggles (expert v)
  | URefreshCa _ _ => on_draft_pages v && expert v
  | USelectCa path _ => on_draft_pages v && expert v && bool_decide (path ∈ ca_choices v)
  | USave _ _ => on_draft_pages v && required form
  | ULoad _ _ | UClear _ _ => on_draft_pages v && bool_decide (is_Some (dr_saved (vw_draft v)))
  | USpeedtest _ => (on_tab Stats v || on_tab Settings v && nv_diagnostics (vw_nav v)) && bool_decide (phase = str "Connected")
  | UImportPaste _ => on_tab Settings v && negb (blank (fm_import_uri form))
  | UPickConfig _ _ | UPickCa _ _ | URequestPermission | UVpnService | UDiagnostics => on_tab Settings v
  | URender | UEvents _ _ | UPrefill _ _ | UCatalog _ | UImports _ _ _ _ _ _ | UPermission _ | UAutomation _ | UTopBar => true
  end.

(** The large button on the home page. *)
Definition primary_click (now : Z) (a : App) : App :=
  let snapshot := dr_form (vw_draft (ap_view a)) in
  let status := vw_status (ap_view a) in
  if should_offer_disconnect (us_phase status) then send Disconnect (on_auto (set_pending false) a)
  else if negb (required snapshot) then on_nav (set_tab Settings) (note now (str "import a valid config before connecting") a)
  else if negb (us_vpn_permission_granted status) then send RequestVpnPermission (on_auto (set_pending true) a)
  else send (StartManagedVpn snapshot) a.
(** The import of a share URI on the page of nodes. *)
Definition import_uri_click (now : Z) (a : App) : outcome unit App :=
  let uri := fm_import_uri (dr_form (ap_draft a)) in
  match import_share_uri parse_url utf8_error uri with
  | Ret imported => Ret (note now (str "share URI imported into the draft") (on_draft (set_form (with_import_uri imported uri)) a))
  | Err err => Ret (note now (str "share URI import failed: " ++ err_chain err) a)
  | Panic => Panic
  end.
(** The import of a pasted text on the page of settings. *)
Definition import_paste_click (now : Z) (a : App) : outcome unit App :=
  let current := dr_form (ap_draft a) in
  let raw_input := fm_import_uri current in
  match import_settings current raw_input with
  | Ret (imported, warning) =>
      let label := if is_share_uri (trim raw_input) then str "Direct · " ++ summarize_endpoint (fm_server imported) else str "Pasted config" in
      let a := on_draft (fun d => set_form imported (set_config_name label d)) a in
      let a := note now (str "settings import applied -> " ++ config_value_or_empty (fm_server imported)) a in
      Ret (match warning with Some warning => note now warning a | None => a end)
  | Err err => Ret (note now (str "settings import failed: " ++ err_chain err) a)
  | Panic => Panic
  end.
Definition refresh_ca_click (catalog : result CaCatalog) (now : Z) (a : App) : App :=
  match catalog with
  | inl c =>
      let count := len (cc_files c) in
      let refreshed := str "refreshed CA catalog: " ++ to_string count ++ str " file(s) in " ++ cc_directory c in
      note now (if on_tab Nodes (ap_view a) && bool_decide (count = 0) then str "no CA files found in " ++ config_value_or_empty (cc_directory c)
                else refreshed) (on_draft (set_catalog c) a)
  | inr err => note now (str "refresh CA catalog failed: " ++ err_chain err) a
  end.
Definition save_click (saved : result unit) (now : Z) (a : App) : App :=
  match saved with
  | inl _ => note now (str "saved current profile") (on_draft (set_saved (Some (dr_form (vw_draft (ap_view a))))) a)
  | inr err => note now (str "save profile failed: " ++ err_chain err) a
  end.
Definition load_click (saved : result (option FormState)) (now : Z) (a : App) : App :=
  match saved with
  | inl (Some form) => note now (str "loaded saved profile into the draft") (on_draft (fun d => set_saved (Some form) (set_form form d)) a)
  | inl None => note now (str "no saved profile found") (on_draft (set_saved None) a)
  | inr err => note now (str "load saved profile failed: " ++ err_chain err) a
  end.
Definition clear_click (cleared : result unit) (now : Z) (a : App) : App :=
  match cleared with
  | inl _ => note now (str "cleared saved profile") (on_draft (set_saved None) a)
  | inr err => note now (str "clear saved profile failed: " ++ err_chain err) a
  end.
Definition vpn_service_click (a : App) : App :=
  if us_vpn_active (vw_status (ap_view a)) then send StopVpnShell a else send (StartManagedVpn (dr_form (vw_draft (ap_view a)))) a.
Definition picker_click (what : bytes) (opened : result unit) (now : Z) : App → App :=
  note now (match opened with
    | inl _ => str "opened Android " ++ what ++ str " picker"
    | inr err => str "open " ++ what ++ str " picker failed: " ++ err_chain err
    end).

Definition of_option (o : option App) : outcome unit App := match o with Some a => Ret a | None => Err () end.
(** A turn; [Err] if it cannot happen. *)
Definition ui_step (t : ui_turn) (a : App) : outcome unit App :=
  if negb (enabled t (ap_view a)) then Err ()
  else
    match t with
    | URender => Ret (render_app a)
    | UEvents events vpn => Ret (on_shown (pump events vpn) a)
    | UPrefill launch_form now => of_option (prefill_turn launch_form now a)
    | UCatalog catalog => of_option (catalog_turn catalog a)
    | UImports config saved ca ca_saved catalog now => a ← import_config config saved now a; Ret (import_ca ca ca_saved catalog now a)
    | UPermission vpn => Ret (permission_turn vpn a)
    | UAutomation now => of_option (automation_turn now a)
    | UTopBar => Ret (on_nav (fun n => set_tab (if decide (nv_tab n = Settings) then Home else Settings) n) a)
    | UPrimary now => Ret (primary_click now a)
    | USearch text => Ret (on_nav (fun n => mkNav (nv_prefs n) (nv_tab n) (nv_return_tab n) (nv_diagnostics n) (nv_filter n) text) a)
    | UFilter f => Ret (on_nav (fun n => mkNav (nv_prefs n) (nv_tab n) (nv_return_tab n) (nv_diagnostics n) f (nv_search n)) a)
    | UCard index =>
        Ret (match (card ← shown_cards (ap_view a) !! index; nc_form card) with Some form => on_draft (set_form form) a | None => a end)
    | UEditImport text => Ret (on_draft (fun d => set_form (with_import_uri (dr_form d) text) d) a)
    | UImportUri now => import_uri_click now a
    | UShowStats => Ret (on_nav (fun n => mkNav (nv_prefs n) Stats Stats (nv_diagnostics n) (nv_filter n) (nv_search n)) a)
    | UField k text => Ret (on_draft (fun d => set_form (set_field k text (dr_form d)) d) a)
    | USwitch k => Ret (on_draft (fun d => set_form (flip k (dr_form d)) d) a)
    | UExpert =>
        Ret (on_nav (fun n => mkNav (mkPrefs (up_compact_layout (nv_prefs n)) (up_motion_enabled (nv_prefs n))
               (negb (up_show_advanced_fields (nv_prefs n)))) (nv_tab n) (nv_return_tab n) (nv_diagnostics n) (nv_filter n) (nv_search n)) a)
    | USelectCa path now =>
        Ret (note now (if blank path then str "cleared CA path selection" else str "selected CA path: " ++ path)
               (on_draft (fun d => set_form (with_ca_path (dr_form d) path) d) a))
    | URefreshCa catalog now => Ret (refresh_ca_click catalog now a)
    | USave saved now => Ret (save_click saved now a)
    | ULoad saved now => Ret (load_click saved now a)
    | UClear cleared now => Ret (clear_click cleared now a)
    | USpeedtest direction => Ret (send (Speedtest direction) a)
    | UImportPaste now => import_paste_click now a
    | UPickConfig opened now => Ret (picker_click (str "config") opened now a)
    | UPickCa opened now => Ret (picker_click (str "certificate") opened now a)
    | URequestPermission => Ret (send RequestVpnPermission a)
    | UVpnService => Ret (vpn_service_click a)
    | UDiagnostics =>
        Ret (on_nav (fun n => mkNav (nv_prefs n) (nv_tab n) (nv_return_tab n) (negb (nv_diagnostics n)) (nv_filter n) (nv_search n)) a)
    end.
Fixpoint ui_run (ts : list ui_turn) (a : App) : outcome unit App :=
  match ts with
  | [] => Ret a
  | t :: ts => a ← ui_step t a; ui_run ts a
  end.
End turns.

(** ** What a turn leaves *)

Lemma append_log_bound now m logs : len (append_log now m logs) ≤ MAX_LOG_LINES.
Proof. unfold append_log, len. rewrite length_take. unfold MAX_LOG_LINES. lia. Qed.

(** Of what is shown only the log changes, which keeps its bound, and the
    commands that are sent have the property [P]. *)
Record tame (P : AppCommand → Prop) (a a' : App) : Prop := mkTame {
  tame_status : sh_status (ap_shown a') = sh_status (ap_shown a);
  tame_metrics : sh_metrics (ap_shown a') = sh_metrics (ap_shown a);
  tame_logs : len (sh_logs (ap_shown a)) ≤ MAX_LOG_LINES → len (sh_logs (ap_shown a')) ≤ MAX_LOG_LINES;
  tame_sent : ∃ cs, ap_sent a' = ap_sent a ++ cs ∧ Forall P cs
}.
(** The page, its options and the rendering stay. *)
Definition stays (a a' : App) : Prop := ap_nav a' = ap_nav a ∧ ap_view a' = ap_view a.

Section tame.
Context (P : AppCommand → Prop).
Lemma tame_self a : tame P a a.
Proof. split; try done. exists []. split; [by rewrite app_nil_r|done]. Qed.
Lemma tame_note now m a a' : tame P a a' → tame P a (note now m a').
Proof. intros []. split; try done. intros _. apply append_log_bound. Qed.
Lemma tame_draft f a a' : tame P a a' → tame P a (on_draft f a').
Proof. by intros []. Qed.
Lemma tame_nav f a a' : tame P a a' → tame P a (on_nav f a').
Proof. by intros []. Qed.
Lemma tame_auto f a a' : tame P a a' → tame P a (on_auto f a').
Proof. by intros []. Qed.
Lemma tame_render a a' : tame P a a' → tame P a (render_app a').
Proof. by intros []. Qed.
Lemma tame_send c a a' : P c → tame P a a' → tame P a (send c a').
Proof.
  intros Hc [? ? ? (cs & Hcs & Hall)]. split; try done. exists (cs ++ [c]). cbn. rewrite Hcs, app_assoc. split; [done|].
  apply Forall_app. split; [done|by constructor].
Qed.
End tame.
Lemma stays_self a : stays a a.
Proof. done. Qed.
Lemma stays_note now m a a' : stays a a' → stays a (note now m a').
Proof. done. Qed.
Lemma stays_draft f a a' : stays a a' → stays a (on_draft f a').
Proof. done. Qed.
Lemma stays_auto f a a' : stays a a' → stays a (on_auto f a').
Proof. done. Qed.
Lemma stays_send c a a' : stays a a' → stays a (send c a').
Proof. done. Qed.
Create HintDb turns.
#[export] Hint Resolve tame_self tame_note tame_draft tame_nav tame_auto tame_render tame_send
  stays_self stays_note stays_draft stays_auto stays_send : turns.

Section facts.
Context (parse_url : bytes → outcome bytes Url) (utf8_error : bytes → bytes) (parse_yaml : bytes → outcome bytes ImportedClientConfig).
Context (path_exists : bytes → bool) (format_duration : Z → bytes).
Abbreviation step := (ui_step parse_url utf8_error parse_yaml path_exists format_duration).
Abbreviation run := (ui_run parse_url utf8_error parse_yaml path_exists format_duration).
Abbreviation required := (has_required_connection_fields parse_url utf8_error).

(** The commands of the user interface, where [unchecked] tells whether the
    start of the service was asked for on the page of settings. *)
Definition valid_command (unchecked : Prop) (c : AppCommand) : Prop :=
  match c with
  | Connect form => required form = true
  | StartManagedVpn form => required form = true ∨ unchecked
  | Disconnect | Speedtest _ | RequestVpnPermission | StopVpnShell => True
  | ManagedConnect _ | ServiceStopped | ConnectionClosed _ _ | Reconnect _ _ | TransportPulse _ _ => False
  end.
Hint Extern 1 (valid_command _ _) => cbn; (exact I || assumption || (left; assumption) || (right; reflexivity)) : turns.
Ltac branches :=
  repeat match goal with
    | |- context [if negb ?b then _ else _] => destruct b eqn:?; cbn [negb]
    | |- context [match ?x with _ => _ end] => destruct x eqn:?
    end.

Lemma automation_tame Q now a a' :
  automation_turn parse_url utf8_error now a = Some a' → tame (valid_command Q) a a' ∧ stays a a'.
Proof.
  unfold automation_turn, automation_wait, automation_commands, automation_connecting, automation_end. intros H.
  destruct (au_phase (ap_auto a)) as [|n|n|]; [destruct (_ || _)| | |done]; injection H as <-; split; branches; auto 15 with turns.
Qed.
Lemma prefill_tame Q form now a a' : prefill_turn form now a = Some a' → tame (valid_command Q) a a' ∧ stays a a'.
Proof.
  unfold prefill_turn, prefill_round. intros H. destruct (au_prefill (ap_auto a)); [| |done]; repeat case_match; injection H as <-;
    split; auto 10 with turns.
Qed.
Lemma catalog_tame Q catalog a a' : catalog_turn catalog a = Some a' → tame (valid_command Q) a a' ∧ stays a a'.
Proof. unfold catalog_turn. intros H. destruct (au_catalog_left _); [done|]. injection H as <-. split; case_match; auto with turns. Qed.
Lemma imports_tame Q config saved ca ca_saved catalog now a a1 :
  import_config parse_url utf8_error parse_yaml path_exists format_duration config saved now a = Ret a1 →
  tame (valid_command Q) a (import_ca ca ca_saved catalog now a1) ∧ stays a (import_ca ca ca_saved catalog now a1).
Proof.
  intros E. assert (tame (valid_command Q) a a1 ∧ stays a a1) as [H1 H2].
  { unfold import_config in E. repeat case_match; try discriminate E; injection E as <-; split; auto 10 with turns. }
  unfold import_ca. split; repeat case_match; auto 10 with turns.
Qed.
Lemma uri_tame Q now a a' : import_uri_click parse_url utf8_error now a = Ret a' → tame (valid_command Q) a a' ∧ stays a a'.
Proof. unfold import_uri_click. intros H. case_match; try discriminate H; injection H as <-; split; auto with turns. Qed.
Lemma paste_tame Q now a a' :
  import_paste_click parse_url utf8_error parse_yaml path_exists format_duration now a = Ret a' → tame (valid_command Q) a a' ∧ stays a a'.
Proof. unfold import_paste_click. intros H. repeat case_match; try discriminate H; injection H as <-; split; auto 10 with turns. Qed.

Lemma of_option_Ret o a : of_option o = Ret a → o = Some a.
Proof. destruct o; [by intros [= ->]|done]. Qed.
Lemma step_enabled t a a' : step t a = Ret a' → enabled parse_url utf8_error t (ap_view a) = true.
Proof. unfold ui_step. by destruct (enabled _ _ t (ap_view a)). Qed.

Lemma step_tame t a a' :
  (∀ events vpn, t ≠ UEvents events vpn) → step t a = Ret a' → tame (valid_command (t = UVpnService)) a a'.
Proof.
  intros Ht H. unfold ui_step in H. destruct (negb _); [done|]. destruct t; try (exfalso; by eapply Ht).
  all: try (injection H as <-; auto with turns; fail).
  all: try (injection H as <-; unfold permission_turn, primary_click, refresh_ca_click, save_click, load_click, clear_click, vpn_service_click,
    picker_click; branches; auto 10 with turns; fail).
  - apply of_option_Ret in H. by apply (prefill_tame (UPrefill launch_form now = UVpnService)) in H as [? _].
  - apply of_option_Ret in H. by eapply catalog_tame in H as [? _].
  - apply bind_Ret_inv in H as (a1 & E & H). injection H as <-. by eapply imports_tame in E as [? _].
  - apply of_option_Ret in H. by eapply automation_tame in H as [? _].
  - by eapply uri_tame in H as [? _].
  - by eapply paste_tame in H as [? _].
Qed.

(** The pages that are ever shown. *)
Definition tabs_ok (a : App) : Prop :=
  (nv_tab (ap_nav a) = Home ∨ nv_tab (ap_nav a) = Settings) ∧ (nv_tab (vw_nav (ap_view a)) = Home ∨ nv_tab (vw_nav (ap_view a)) = Settings).
Lemma tabs_stays a a' : stays a a' → tabs_ok a → tabs_ok a'.
Proof. intros [E1 E2]. unfold tabs_ok. by rewrite E1, E2. Qed.
Lemma step_tabs t a a' : step t a = Ret a' → tabs_ok a → tabs_ok a'.
Proof.
  intros H Hok. pose proof (step_enabled _ _ _ H) as He. unfold ui_step in H. rewrite He in H. cbn [negb] in H. destruct t.
  all: try (injection H as <-; apply (tabs_stays a); [auto with turns|exact Hok]; fail).
  all: try (injection H as <-; apply (tabs_stays a); [unfold permission_turn, refresh_ca_click, save_click, load_click, clear_click, vpn_service_click,
    picker_click; repeat case_match; auto 10 with turns|exact Hok]; fail).
  all: try (injection H as <-; exact Hok).
  all: destruct Hok as [H1 H2].
  - injection H as <-. by split.
  - apply of_option_Ret in H. eapply tabs_stays; [by eapply (prefill_tame True) in H as [_ ?]|by split].
  - apply of_option_Ret in H. eapply tabs_stays; [by eapply (catalog_tame True) in H as [_ ?]|by split].
  - apply bind_Ret_inv in H as (a1 & E & H). injection H as <-. eapply tabs_stays; [by eapply (imports_tame True) in E as [_ ?]|by split].
  - apply of_option_Ret in H. eapply tabs_stays; [by eapply (automation_tame True) in H as [_ ?]|by split].
  - injection H as <-. split; [|done]. cbn. case_decide; auto.
  - injection H as <-. unfold primary_click. branches; split; cbn; auto.
  - eapply tabs_stays; [by eapply (uri_tame True) in H as [_ ?]|by split].
  - exfalso. cbn in He. unfold on_tab in He. apply bool_decide_eq_true in He. destruct H2; congruence.
  - eapply tabs_stays; [by eapply (paste_tame True) in H as [_ ?]|by split].
Qed.
End facts.

(** ** What is shown *)

(** The events a run received, its statuses, and its log messages that count as
    imports. *)
Definition events_of (ts : list ui_turn) : list AppEvent :=
  concat (map (fun t => match t with UEvents events _ => map fst events | _ => [] end) ts).
Definition last_phase (evs : list AppEvent) : bytes :=
  match last (omap (fun e => match e with Status s => Some (us_phase s) | _ => None end) evs) with
  | Some phase => phase
  | None => str "Disconnected"
  end.
Definition counts_as_import (e : AppEvent) : bool := match e with Log m => contains_str (str "share URI imported") m | _ => false end.
Definition imports_in (evs : list AppEvent) : Z := len (filter (fun e => counts_as_import e = true) evs).

Record metrics_ok (m : UiMetrics) : Prop := mkMetricsOk {
  mo_successes : 0 ≤ um_successful_connections m ≤ u32_max;
  mo_reconnects : 0 ≤ um_reconnect_count m ≤ u32_max;
  mo_errors : 0 ≤ um_error_count m ≤ u32_max;
  mo_dns : 0 ≤ um_dns_failure_count m ≤ u32_max
}.
Record shown_inv (evs : list AppEvent) (s : Shown) : Prop := mkShownInv {
  si_phase : us_phase (sh_status s) = last_phase evs;
  si_clock : clock_ok (us_phase (sh_status s)) (sh_metrics s);
  si_logs : len (sh_logs s) ≤ MAX_LOG_LINES;
  si_metrics : metrics_ok (sh_metrics s);
  si_imports : um_import_count (sh_metrics s) = Z.min u32_max (imports_in evs)
}.

Lemma u32_sat_succ_bound x : 0 ≤ x ≤ u32_max → 0 ≤ u32_sat_succ x ≤ u32_max.
Proof. unfold u32_sat_succ, u32_max. lia. Qed.
(** The counters of [m'] are 32-bit numbers, and no import was counted. *)
Definition counts_from (m m' : UiMetrics) : Prop := metrics_ok m' ∧ um_import_count m' = um_import_count m.
Lemma record_status_metrics now previous next m : metrics_ok m → counts_from m (record_status_transition now previous next m).
Proof.
  intros Hm. unfold record_status_transition. cbn zeta.
  assert (∀ since m', counts_from m m' → counts_from m (set_since since m')) as Hsince by (intros since m' [[] ?]; by split).
  assert (∀ (P : Prop) (d : Decision P) x m', counts_from m m' → (counts_from m m' → counts_from m x) →
    counts_from m (if d then x else m')) as Hif by (intros ? [] **; auto).
  destruct (negb (is_active_phase (us_phase next))); [apply Hsince|].
  all: do 2 (apply Hif; [|intros [[] ?]; split; [split|]; cbn; auto using u32_sat_succ_bound]).
  all: case_decide; [destruct Hm; split; [split|]; cbn; auto using u32_sat_succ_bound|].
  all: by destruct (_ && _ && _); [apply Hsince|].
Qed.
Lemma last_phase_snoc evs e :
  last_phase (evs ++ [e]) = match e with Status s => us_phase s | _ => last_phase evs end.
Proof. unfold last_phase. rewrite omap_app. destruct e; cbn; [by rewrite last_snoc|by rewrite app_nil_r..]. Qed.
Lemma imports_in_snoc evs e : imports_in (evs ++ [e]) = imports_in evs + if counts_as_import e then 1 else 0.
Proof.
  unfold imports_in, len. rewrite filter_app, length_app. rewrite filter_cons, filter_nil.
  destruct (counts_as_import e); [rewrite decide_True by done|rewrite decide_False by done]; cbn; lia.
Qed.
Lemma imports_in_nonneg evs : 0 ≤ imports_in evs.
Proof. unfold imports_in. apply len_nonneg. Qed.

Lemma on_event_inv evs e now s : shown_inv evs s → shown_inv (evs ++ [e]) (on_event e now s).
Proof.
  intros [Hp Hc Hl Hm Hi]. pose proof (imports_in_nonneg evs).
  destruct e; cbn [on_event]; split; rewrite ?last_phase_snoc, ?imports_in_snoc; cbn; rewrite ?Z.add_0_r; try done;
    try (by apply append_log_bound); try (by apply record_status_metrics).
  - by apply record_status_clock.
  - rewrite <- Hi. by destruct (record_status_metrics now (sh_status s) status (sh_metrics s)).
  - by destruct Hm.
  - destruct (contains_str _ message); [|lia]. rewrite Hi. unfold u32_sat_succ, u32_max in *. lia.
  - destruct Hm. split; cbn; auto using u32_sat_succ_bound.
Qed.
Lemma pump_inv evs events vpn s : shown_inv evs s → shown_inv (evs ++ map fst events) (pump events vpn s).
Proof.
  intros H. unfold pump.
  assert (shown_inv (evs ++ map fst events) (fold_left (fun s e => on_event e.1 e.2 s) events s)) as [].
  { revert evs s H. induction events as [|[e now] events IH]; intros evs s H; [by rewrite app_nil_r|].
    cbn. change (e :: map fst events) with ([e] ++ map fst events). rewrite app_assoc. by apply IH, on_event_inv. }
  case_decide; by split.
Qed.
Lemma shown_inv_start saved launch catalog vpn now : shown_inv [] (ap_shown (app_new saved launch catalog vpn now)).
Proof.
  split; try done; cbn.
  unfold clock_ok. cbn. split; [by intros []|done].
Qed.

Lemma tame_shown P evs a a' : tame P a a' → shown_inv evs (ap_shown a) → shown_inv evs (ap_shown a').
Proof. intros [Hs Hm Hl _] []. split; rewrite ?Hs, ?Hm; auto. Qed.

Section runs.
Context (parse_url : bytes → outcome bytes Url) (utf8_error : bytes → bytes) (parse_yaml : bytes → outcome bytes ImportedClientConfig).
Context (path_exists : bytes → bool) (format_duration : Z → bytes).
Abbreviation step := (ui_step parse_url utf8_error parse_yaml path_exists format_duration).
Abbreviation run := (ui_run parse_url utf8_error parse_yaml path_exists format_duration).

Lemma step_shown evs t a a' : step t a = Ret a' → shown_inv evs (ap_shown a) → shown_inv (evs ++ events_of [t]) (ap_shown a').
Proof.
  intros H Hi. destruct t. 2:{ injection H as <-. unfold events_of. cbn. rewrite app_nil_r. by apply pump_inv. }
  all: unfold events_of; cbn [map concat app]; rewrite app_nil_r; eapply tame_shown; [eapply step_tame, H; done|done].
Qed.
Lemma run_cons t ts a a' : run (t :: ts) a = Ret a' → ∃ a1, step t a = Ret a1 ∧ run ts a1 = Ret a'.
Proof. apply bind_Ret_inv. Qed.
Lemma run_shown evs ts a a' :
  run ts a = Ret a' → shown_inv evs (ap_shown a) → tabs_ok a → shown_inv (evs ++ events_of ts) (ap_shown a') ∧ tabs_ok a'.
Proof.
  revert evs a. induction ts as [|t ts IH]; intros evs a H Hi Ht.
  { injection H as <-. by rewrite app_nil_r. }
  apply run_cons in H as (a1 & H1 & H). change (events_of (t :: ts)) with (events_of ([t] ++ ts)).
  unfold events_of. rewrite map_app, concat_app, app_assoc. apply (IH _ a1 H).
  - by apply (step_shown _ _ a).
  - by eapply step_tabs.
Qed.

(** C21: what the application shows, whatever happens to it and in whatever
    order (events of the controller, answers of Android, clicks and edits): the
    phase is that of the last status the controller reported; the clock of the
    session runs exactly while that phase is active; the log never exceeds 200
    lines and the counters are 32-bit numbers; the imports counted are the lines
    of the controller with the text looked for, whatever the user imported; and
    the page is the home page or the settings. *)
Theorem app_invariant saved launch catalog vpn now ts a :
  run ts (app_new saved launch catalog vpn now) = Ret a →
  let s := ap_shown a in
  us_phase (sh_status s) = last_phase (events_of ts) ∧
  (is_Some (um_connected_since (sh_metrics s)) ↔ is_active_phase (us_phase (sh_status s)) = true) ∧
  len (sh_logs s) ≤ MAX_LOG_LINES ∧ metrics_ok (sh_metrics s) ∧
  um_import_count (sh_metrics s) = Z.min u32_max (imports_in (events_of ts)) ∧
  (nv_tab (ap_nav a) = Home ∨ nv_tab (ap_nav a) = Settings).
Proof.
  intros H. destruct (run_shown [] _ _ _ H) as [[] [Ht _]]; [apply shown_inv_start|split; by left|]. by split_and!.
Qed.

Lemma step_sent (Q : Prop) t a a' :
  step t a = Ret a' → (t = UVpnService → Q) →
  ∃ cs, ap_sent a' = ap_sent a ++ cs ∧ Forall (valid_command parse_url utf8_error Q) cs.
Proof.
  intros H HQ. assert ((∃ events vpn, t = UEvents events vpn) ∨ ∀ events vpn, t ≠ UEvents events vpn) as [(events & vpn & ->)|Ht].
  { destruct t; try (by right). left. by do 2 eexists. }
  { injection H as <-. exists []. by rewrite app_nil_r. }
  eapply step_tame in H as [_ _ _ (cs & Hcs & Hall)]; [|done]. exists cs. split; [done|]. eapply Forall_impl; [done|].
  intros []; cbn; tauto.
Qed.
Lemma run_sent (Q : Prop) ts a a' :
  run ts a = Ret a' → (UVpnService ∈ ts → Q) → Forall (valid_command parse_url utf8_error Q) (ap_sent a) →
  Forall (valid_command parse_url utf8_error Q) (ap_sent a').
Proof.
  revert a. induction ts as [|t ts IH]; intros a H HQ Ha; [by injection H as <-|].
  apply run_cons in H as (a1 & H1 & H). apply (IH a1 H); [set_solver|].
  apply (step_sent Q) in H1 as (cs & -> & Hcs); [by apply Forall_app|]. intros ->. set_solver.
Qed.

(** The commands of the user interface. Whatever happens, it never sends the
    controller one of the commands the controller keeps for itself, a connect
    always has a form that passes the validation, and so has every start of the
    managed service unless the button of the settings page was clicked. That
    button does not check: with nothing configured, opening the settings and
    clicking it sends a start with a form that does not pass. *)
Theorem commands_valid :
  (∀ saved launch catalog vpn now ts a,
    run ts (app_new saved launch catalog vpn now) = Ret a →
    Forall (fun c => match c with
      | Connect form => has_required_connection_fields parse_url utf8_error form = true
      | StartManagedVpn form => has_required_connection_fields parse_url utf8_error form = true ∨ UVpnService ∈ ts
      | Disconnect | Speedtest _ | RequestVpnPermission | StopVpnShell => True
      | _ => False
      end) (ap_sent a)) ∧
  (∀ err vpn now, ∃ form a,
    run [UTopBar; URender; UVpnService] (app_new (Ret None) (Err err) (inr err) vpn now) = Ret a ∧
    ap_sent a = [StartManagedVpn form] ∧ has_required_connection_fields parse_url utf8_error form = false).
Proof.
  split; [|intros; do 2 eexists; split; [reflexivity|split; reflexivity]].
  intros saved launch catalog vpn now ts a H. by apply (run_sent (UVpnService ∈ ts)) in H; [|done|constructor].
Qed.

(** The large button of the home page does what its label says. A click on it
    sends exactly one command: a disconnection if it reads Disconnect, a request
    for the permission, which is then waited for, if it reads Grant VPN
    Permission, and a start of the service with the form shown, which passes the
    validation, if it reads Connect. *)
Theorem primary_button_label now a a' :
  step (UPrimary now) a = Ret a' →
  ∃ c, ap_sent a' = ap_sent a ++ [c] ∧
  match c with
  | Disconnect => primary_action_label (ap_view a) = str "Disconnect" ∧ au_pending (ap_auto a') = false
  | RequestVpnPermission => primary_action_label (ap_view a) = str "Grant VPN Permission" ∧ au_pending (ap_auto a') = true
  | StartManagedVpn form =>
      primary_action_label (ap_view a) = str "Connect" ∧ form = dr_form (vw_draft (ap_view a)) ∧
      has_required_connection_fields parse_url utf8_error form = true ∧ ap_auto a' = ap_auto a
  | _ => False
  end.
Proof.
  intros H. pose proof (step_enabled _ _ _ _ _ _ _ _ H) as He. unfold ui_step in H. rewrite He in H. injection H as <-.
  cbn in He. apply andb_true_iff in He as [_ He]. unfold primary_click, primary_action_label.
  destruct (should_offer_disconnect _); [by eexists|]. rewrite orb_false_r in He. rewrite He.
  destruct (us_vpn_permission_granted _); by eexists.
Qed.

(** *** The futures that end *)

(** The rounds left. *)
Definition prefill_left (p : prefill_phase) : nat := match p with PStart => 21 | PLoop n => S n | PDone => 0 end.
Definition automation_left (p : automation_phase) : nat :=
  match p with AStart => 141 | AWait n => 121 + n | AConnecting n => S n | ADone => 0 end.
Definition is_prefill (t : ui_turn) : bool := match t with UPrefill _ _ => true | _ => false end.
Definition is_catalog (t : ui_turn) : bool := match t with UCatalog _ => true | _ => false end.
Definition is_automation (t : ui_turn) : bool := match t with UAutomation _ => true | _ => false end.
Definition count_turns (p : ui_turn → bool) (ts : list ui_turn) : nat := length (filter (fun t => p t = true) ts).
Lemma count_turns_cons p t ts : count_turns p (t :: ts) = ((if p t then 1 else 0) + count_turns p ts)%nat.
Proof. unfold count_turns. rewrite filter_cons. destruct (p t); [by rewrite decide_True|by rewrite decide_False]. Qed.

(** The futures of two states have as many rounds left. *)
Record idle (a a' : App) : Prop := mkIdle {
  idle_prefill : au_prefill (ap_auto a') = au_prefill (ap_auto a);
  idle_catalog : au_catalog_left (ap_auto a') = au_catalog_left (ap_auto a);
  idle_phase : au_phase (ap_auto a') = au_phase (ap_auto a)
}.
Lemma auto_idle a a' : ap_auto a' = ap_auto a → idle a a'.
Proof. intros E. split; by rewrite E. Qed.
Definition left_of (a : App) : nat * nat * nat :=
  (prefill_left (au_prefill (ap_auto a)), au_catalog_left (ap_auto a), automation_left (au_phase (ap_auto a))).
Definition spent (t : ui_turn) (a a' : App) : Prop :=
  let '(p, c, u) := left_of a in
  let '(p', c', u') := left_of a' in
  (p' + (if is_prefill t then 1 else 0) ≤ p ∧ c' + (if is_catalog t then 1 else 0) ≤ c ∧ u' + (if is_automation t then 1 else 0) ≤ u)%nat.

Lemma prefill_spent form now a a' : prefill_turn form now a = Some a' → spent (UPrefill form now) a a'.
Proof.
  unfold prefill_turn, spent, left_of. destruct (au_prefill (ap_auto a)) as [|n|] eqn:E; [| |done].
  - destruct (au_prefill_applied _); intros [= <-]; cbn; [lia|]. destruct (has_meaningful_form_prefill form); cbn; lia.
  - intros [= <-]. destruct n as [|n]; cbn; [lia|]. destruct (has_meaningful_form_prefill form); cbn; lia.
Qed.
Lemma catalog_spent catalog a a' : catalog_turn catalog a = Some a' → spent (UCatalog catalog) a a'.
Proof.
  unfold catalog_turn, spent, left_of. destruct (au_catalog_left (ap_auto a)) as [|n] eqn:E; [done|]. intros [= <-]. destruct catalog; cbn; lia.
Qed.
Lemma connecting_left n now a : (automation_left (au_phase (ap_auto (automation_connecting n now a))) ≤ n)%nat.
Proof. unfold automation_connecting, automation_end. destruct n; repeat case_match; cbn; lia. Qed.
Lemma commands_left now a : (automation_left (au_phase (ap_auto (automation_commands parse_url utf8_error now a))) ≤ 120)%nat.
Proof.
  unfold automation_commands. cbv zeta. pose proof (connecting_left 120 now) as H. repeat case_match; cbn -[automation_connecting]; try lia; apply H.
Qed.
Lemma wait_left n now a : (automation_left (au_phase (ap_auto (automation_wait parse_url utf8_error n now a))) ≤ 120 + n)%nat.
Proof.
  pose proof (commands_left now a). unfold automation_wait. destruct n; [lia|]. case_match; [lia|]. cbn. lia.
Qed.
(** What the other futures have left. *)
Definition others (a : App) : prefill_phase * nat := (au_prefill (ap_auto a), au_catalog_left (ap_auto a)).
Lemma connecting_others n now a : others (automation_connecting n now a) = others a.
Proof. unfold automation_connecting, automation_end. destruct n; by repeat case_match. Qed.
Lemma commands_others now a : others (automation_commands parse_url utf8_error now a) = others a.
Proof.
  unfold automation_commands. cbv zeta. repeat case_match; try done; etrans; [apply connecting_others|done| |]; apply connecting_others || done.
Qed.
Lemma wait_others n now a : others (automation_wait parse_url utf8_error n now a) = others a.
Proof. unfold automation_wait. destruct n; [apply commands_others|]. case_match; [apply commands_others|done]. Qed.
Lemma automation_spent now a a' : automation_turn parse_url utf8_error now a = Some a' → spent (UAutomation now) a a'.
Proof.
  intros H. assert (others a' = others a ∧ automation_left (au_phase (ap_auto a')) < automation_left (au_phase (ap_auto a)))%nat as [[= E1 E2] E3].
  { unfold automation_turn in H. destruct (au_phase (ap_auto a)) as [|n|n|] eqn:E; [| | |done].
    - destruct (_ || _); apply (inj Some) in H; subst a'; [split; [done|cbn; lia]|]. split; [etrans; [apply wait_others|done]|]. eapply Nat.le_lt_trans; [apply wait_left|cbn; lia].
    - apply (inj Some) in H; subst a'. split; [etrans; [apply wait_others|done]|]. eapply Nat.le_lt_trans; [apply wait_left|cbn; lia].
    - apply (inj Some) in H; subst a'. split; [etrans; [apply connecting_others|done]|]. eapply Nat.le_lt_trans; [apply connecting_left|cbn; lia]. }
  unfold spent, left_of. rewrite E1, E2. cbn [is_prefill is_catalog is_automation]. lia.
Qed.
Lemma idle_spent t a a' : is_prefill t = false → is_catalog t = false → is_automation t = false → idle a a' → spent t a a'.
Proof. intros E1 E2 E3 [H1 H2 H3]. unfold spent, left_of. rewrite E1, E2, E3, H1, H2, H3. lia. Qed.
Lemma import_config_idle config saved now a a' :
  import_config parse_url utf8_error parse_yaml path_exists format_duration config saved now a = Ret a' → ap_auto a' = ap_auto a.
Proof. unfold import_config. intros H. repeat case_match; try discriminate H; by injection H as <-. Qed.
Lemma import_ca_idle ca saved catalog now a : ap_auto (import_ca ca saved catalog now a) = ap_auto a.
Proof. unfold import_ca. by repeat case_match. Qed.
Lemma step_spent t a a' : step t a = Ret a' → spent t a a'.
Proof.
  unfold ui_step. destruct (negb _); [done|]. intros H. destruct t.
  all: try (injection H as <-; by apply idle_spent; [..|apply auto_idle]).
  all: try (injection H as <-; apply idle_spent; [done..|];
    unfold permission_turn, primary_click, refresh_ca_click, save_click, load_click, clear_click, vpn_service_click;
    by repeat case_match; split).
  - by apply of_option_Ret, prefill_spent in H.
  - by apply of_option_Ret, catalog_spent in H.
  - apply bind_Ret_inv in H as (a1 & E & H). injection H as <-. apply idle_spent; [done..|]. apply auto_idle.
    by rewrite import_ca_idle, (import_config_idle _ _ _ _ _ E).
  - by apply of_option_Ret, automation_spent in H.
  - apply idle_spent; [done..|]. unfold import_uri_click in H. case_match; try discriminate H; by injection H as <-.
  - apply idle_spent; [done..|]. unfold import_paste_click in H. repeat case_match; try discriminate H; by injection H as <-.
Qed.
Lemma run_spent ts a a' :
  run ts a = Ret a' →
  let '(p, c, u) := left_of a in
  let '(p', c', u') := left_of a' in
  (count_turns is_prefill ts + p' ≤ p ∧ count_turns is_catalog ts + c' ≤ c ∧ count_turns is_automation ts + u' ≤ u)%nat.
Proof.
  revert a. induction ts as [|t ts IH]; intros a H; [injection H as <-; cbn; lia|].
  apply run_cons in H as (a1 & H1 & H). apply step_spent in H1. specialize (IH _ H). unfold spent, left_of in *.
  rewrite !count_turns_cons. lia.
Qed.

(** The futures of a launch end. Whatever else happens between their rounds,
    the wait for a launch form has at most 21 rounds, the search for
    certificates at most 20 and the launch automation at most 141; and until
    one of them has ended its next round is possible. *)
Theorem launch_futures_end saved launch catalog vpn now ts a :
  run ts (app_new saved launch catalog vpn now) = Ret a →
  (count_turns is_prefill ts ≤ 21 ∧ count_turns is_catalog ts ≤ 20 ∧ count_turns is_automation ts ≤ 141)%nat ∧
  (∀ form now, au_prefill (ap_auto a) = PDone ∨ ∃ a', step (UPrefill form now) a = Ret a') ∧
  (∀ catalog, au_catalog_left (ap_auto a) = O ∨ ∃ a', step (UCatalog catalog) a = Ret a') ∧
  (∀ now, au_phase (ap_auto a) = ADone ∨ ∃ a', step (UAutomation now) a = Ret a').
Proof.
  intros H. apply run_spent in H. unfold left_of in H. cbn [app_new ap_auto au_prefill au_catalog_left au_phase prefill_left automation_left] in H.
  split; [lia|]. unfold ui_step. cbn [enabled negb]. unfold prefill_turn, catalog_turn, automation_turn. split_and!; intros.
  - destruct (au_prefill (ap_auto a)); [right; case_match; by eexists|right; by eexists|by left].
  - destruct (au_catalog_left (ap_auto a)); [by left|right; by eexists].
  - destruct (au_phase (ap_auto a)); [right; case_match; by eexists|right; by eexists..|by left].
Qed.
End runs.

(** *** Witnesses *)

Definition no_url (_ : bytes) : outcome bytes Url := Err [].
Definition no_yaml (_ : bytes) : outcome bytes ImportedClientConfig := Err [].
Definition demo_status (phase : string) : UiStatus := status_of (str phase) [].
Abbreviation demo_run := (ui_run no_url (fun _ => []) no_yaml (fun _ => false) (fun _ => [])).
Abbreviation demo_start := (app_new (Ret None) (Err (anyhow_msg [])) (inl catalog_default) (inl vpn_default) 0).
Definition demo_turns : list ui_turn :=
  [UTopBar; URender; UPrefill form_default 1; UCatalog (inl catalog_default); UAutomation 1; UDiagnostics; URender; URequestPermission;
   UEvents [(Status (demo_status "Connecting"), 2); (Log (str "share URI imported"), 2); (Status (demo_status "Connected"), 3)] (inl vpn_default);
   URender; USpeedtest Download; UVpnService].
Definition demo_end : App := match demo_run demo_turns demo_start with Ret a => a | _ => demo_start end.

Lemma app_invariant_witness :
  demo_run demo_turns demo_start = Ret demo_end ∧
  us_phase (sh_status (ap_shown demo_end)) = str "Connected" ∧ is_Some (um_connected_since (sh_metrics (ap_shown demo_end))) ∧
  um_import_count (sh_metrics (ap_shown demo_end)) = 1.
Proof.
  assert (demo_run demo_turns demo_start = Ret demo_end) as H by (vm_compute; reflexivity).
  destruct (app_invariant _ _ _ _ _ _ _ _ _ _ _ _ H) as (H1 & H2 & _ & _ & H3 & _).
  split; [exact H|]. split; [rewrite H1; vm_compute; reflexivity|]. split; [apply H2; rewrite H1; vm_compute; reflexivity|].
  rewrite H3. vm_compute. reflexivity.
Defined.
Lemma commands_valid_witness :
  demo_run demo_turns demo_start = Ret demo_end ∧ length (ap_sent demo_end) = 3%nat ∧
  ManagedConnect form_default ∉ ap_sent demo_end.
Proof.
  assert (demo_run demo_turns demo_start = Ret demo_end) as H by (vm_compute; reflexivity).
  pose proof (proj1 (commands_valid no_url (fun _ => []) no_yaml (fun _ => false) (fun _ => [])) _ _ _ _ _ _ _ H) as Hall.
  split; [exact H|]. split; [vm_compute; reflexivity|]. intros Hin. rewrite Forall_forall in Hall. exact (Hall _ Hin).
Defined.
Lemma launch_futures_end_witness :
  demo_run demo_turns demo_start = Ret demo_end ∧ (count_turns is_automation demo_turns ≤ 141)%nat ∧
  au_phase (ap_auto demo_end) = ADone.
Proof.
  assert (demo_run demo_turns demo_start = Ret demo_end) as H by (vm_compute; reflexivity).
  destruct (launch_futures_end _ _ _ _ _ _ _ _ _ _ _ _ H) as ((_ & _ & H1) & _).
  split; [exact H|]. split; [exact H1|vm_compute; reflexivity].
Defined.
(** A saved profile, and the button. *)
Definition demo_form : FormState := set_field FAuth (str "secret") (set_field FServer (str "h.example:443") form_default).
Definition demo_home : App :=
  app_new (Ret (Some demo_form)) (Err (anyhow_msg [])) (inl catalog_default) (inl vpn_default) 0.
Lemma primary_button_label_witness :
  ∃ a, ui_step no_url (fun _ => []) no_yaml (fun _ => false) (fun _ => []) (UPrimary 1) demo_home = Ret a ∧ length (ap_sent a) = 1%nat ∧
  primary_action_label (ap_view demo_home) = str "Grant VPN Permission".
Proof.
  eexists. split; [vm_compute; reflexivity|]. split; [|vm_compute; reflexivity].
  match goal with |- length (ap_sent ?a) = _ =>
    destruct (primary_button_label no_url (fun _ => []) no_yaml (fun _ => false) (fun _ => []) 1 demo_home a) as (c & Hs & _);
    [vm_compute; reflexivity|] end.
  rewrite Hs. reflexivity.
Defined.
