(* ===== verification/Style.v ===== *)
(** * The styles of the mobile application ([mobile/src/main.rs])

    The style sheet and the inline styles of the elements, as the texts the
    source formats. *)
From S2P Require Import Prelude RustStr MobileView.
Local Open Scope Z_scope.

(** ** Tones *)

Definition tone_gradient (tone : AccentTone) : bytes :=
  match tone with
  | Positive => str "linear-gradient(180deg, rgba(129,201,149,0.16) 0%, var(--surface-container-high) 100%)"
  | Accent => str "linear-gradient(180deg, rgba(138,180,248,0.20) 0%, var(--surface-container-high) 100%)"
  | Warning => str "linear-gradient(180deg, rgba(251,203,101,0.18) 0%, var(--surface-container-high) 100%)"
  | Danger => str "linear-gradient(180deg, rgba(242,139,130,0.18) 0%, var(--surface-container-high) 100%)"
  | Neutral => str "linear-gradient(180deg, var(--surface-container) 0%, var(--surface-container-high) 100%)"
  end.
Definition tone_border (tone : AccentTone) : bytes :=
  match tone with
  | Positive => str "rgba(129,201,149,0.28)"
  | Accent => str "rgba(138,180,248,0.28)"
  | Warning => str "rgba(251,203,101,0.28)"
  | Danger => str "rgba(242,139,130,0.28)"
  | Neutral => str "rgba(255,255,255,0.10)"
  end.
Definition tone_fill (tone : AccentTone) : bytes :=
  match tone with
  | Positive => str "rgba(129,201,149,0.10)"
  | Accent => str "rgba(138,180,248,0.12)"
  | Warning => str "rgba(251,203,101,0.12)"
  | Danger => str "rgba(242,139,130,0.12)"
  | Neutral => str "rgba(255,255,255,0.04)"
  end.
Definition tone_solid (tone : AccentTone) : bytes :=
  match tone with
  | Positive => str "#81C995"
  | Accent => str "#8AB4F8"
  | Warning => str "#FBCB65"
  | Danger => str "#F28B82"
  | Neutral => str "#8893A5"
  end.
Definition tone_highlight (tone : AccentTone) : bytes :=
  match tone with
  | Positive => str "#A8DAB5"
  | Accent => str "#A8C7FA"
  | Warning => str "#FDD97D"
  | Danger => str "#F6AEA9"
  | Neutral => str "#BCC5D3"
  end.

(** ** Elements *)

Definition button_style_with_state (base : bytes) (secondary enabled : bool) : bytes :=
  if enabled then base
  else if secondary
  then base ++ str "background: rgba(255,255,255,0.05); border-color: rgba(255,255,255,0.12); color: rgba(243,246,251,0.72); box-shadow: none; cursor: default;"
  else base ++ str "background: rgba(138,180,248,0.38); border-color: rgba(168,199,250,0.18); color: rgba(11,18,32,0.78); box-shadow: none; cursor: default;".
Definition ui_stylesheet : bytes :=
  str ".col{display:flex;flex-direction:column}"
  ++ str ".row{display:flex;flex-direction:row}"
  ++ str ".wrap{flex-wrap:wrap}"
  ++ str ".center{align-items:center}"
  ++ str ".start{align-items:flex-start}"
  ++ str ".between{justify-content:space-between}"
  ++ str ".end-x{justify-content:flex-end}"
  ++ str ".w-full{width:100%;box-sizing:border-box}"
  ++ str ".min-w-0{min-width:0}"
  ++ str ".gap-4{gap:4px}"
  ++ str ".gap-6{gap:6px}"
  ++ str ".gap-8{gap:8px}"
  ++ str ".gap-10{gap:10px}"
  ++ str ".gap-12{gap:12px}"
  ++ str ".gap-14{gap:14px}"
  ++ str ".gap-16{gap:16px}"
  ++ str ".gap-18{gap:18px}"
  ++ str ".grid-2{display:grid;grid-template-columns:repeat(2,minmax(0,1fr))}"
  ++ str ".text-xs{font-size:12px;line-height:1.5}"
  ++ str ".text-sm{font-size:13px;line-height:1.5}"
  ++ str ".text-base{font-size:14px;line-height:1.5}"
  ++ str ".text-lg{font-size:16px;line-height:1.4}"
  ++ str ".text-xl{font-size:20px;line-height:1.3}"
  ++ str ".text-2xl{font-size:24px;line-height:1.15}"
  ++ str ".text-22{font-size:22px;line-height:1.2}"
  ++ str ".c-primary{color:var(--text-primary)}"
  ++ str ".c-secondary{color:var(--text-secondary)}"
  ++ str ".c-muted{color:var(--text-muted)}"
  ++ str ".fw-500{font-weight:500}"
  ++ str ".fw-600{font-weight:600}"
  ++ str ".m-0{margin:0}"
  ++ str ".mt-6{margin-top:6px}"
  ++ str ".mt-8{margin-top:8px}"
  ++ str ".mt-12{margin-top:12px}"
  ++ str ".mt-14{margin-top:14px}"
  ++ str ".nowrap{white-space:nowrap}"
  ++ str ".text-right{text-align:right}"
  ++ str ".text-left{text-align:left}"
  ++ str ".tracking-tight{letter-spacing:-0.02em}"
  ++ str ".tracking-tighter{letter-spacing:-0.03em}"
  ++ str ".tracking-title{letter-spacing:-0.01em}"
  ++ str ".uppercase{text-transform:uppercase;letter-spacing:0.1em}"
  ++ str ".section-header{display:flex;flex-direction:column;gap:6px;margin-bottom:14px}"
  ++ str ".field-label{display:flex;flex-direction:column;gap:8px;margin-top:12px}"
  ++ str ".status-line{display:flex;justify-content:space-between;gap:16px;padding:10px 0;border-bottom:1px solid rgba(255,255,255,0.06);align-items:flex-start}"
  ++ str ".status-line-label{flex:0 0 112px;min-width:112px}"
  ++ str ".status-line-value{flex:1;min-width:0;text-align:right;overflow-wrap:anywhere;word-break:break-word}"
  ++ str ".setting-row{display:flex;justify-content:space-between;gap:16px;padding:14px 0;border-bottom:1px solid rgba(255,255,255,0.06);align-items:center}"
  ++ str ".activity-row{display:flex;justify-content:space-between;gap:14px;padding:12px 14px;border-radius:16px;background:rgba(255,255,255,0.03);border:1px solid rgba(255,255,255,0.05)}"
  ++ str ".empty-state{display:flex;flex-direction:column;gap:6px;padding:18px;border-radius:18px;background:rgba(255,255,255,0.03);border:1px dashed rgba(255,255,255,0.08)}"
  ++ str ".info-box{border-radius:18px;background:rgba(255,255,255,0.03);border:1px solid rgba(255,255,255,0.06);padding:4px 16px}"
  ++ str ".tag-row{display:flex;gap:8px;flex-wrap:wrap}".
Definition app_shell_style (prefs : UiPrefs) : bytes :=
  str "--bg-main: #10131A;"
  ++ str "--surface: #171B22;"
  ++ str "--surface-container: #1D222B;"
  ++ str "--surface-container-high: #232A34;"
  ++ str "--bg-accent-a: rgba(255,111,145,0.24);"
  ++ str "--bg-accent-b: rgba(96,165,250,0.22);"
  ++ str "--bg-accent-c: rgba(251,191,36,0.18);"
  ++ str "--bg-accent-d: rgba(52,211,153,0.16);"
  ++ str "--text-primary: #F3F6FB;"
  ++ str "--text-secondary: #BCC5D3;"
  ++ str "--text-muted: #8893A5;"
  ++ str "--accent: #8AB4F8;"
  ++ str "--accent-strong: #A8C7FA;"
  ++ str "--success: #81C995;"
  ++ str "--warning: #FBCB65;"
  ++ str "--danger: #F28B82;"
  ++ str "--border: rgba(255,255,255,0.08);"
  ++ str "--motion: " ++ to_string (if up_motion_enabled prefs then 220 else 0) ++ str "ms;"
  ++ str "font-family: system-ui, -apple-system, BlinkMacSystemFont, " ++ [34] ++ str "Segoe UI" ++ [34] ++ str ", sans-serif;"
  ++ str "min-height: 100vh;"
  ++ str "padding: " ++ to_string (if up_compact_layout prefs then 16 else 20) ++ str "px 16px 112px;"
  ++ str "background:"
  ++ str "radial-gradient(circle at top left, var(--bg-accent-a) 0%, transparent 42%),"
  ++ str "radial-gradient(circle at top right, var(--bg-accent-b) 0%, transparent 36%),"
  ++ str "radial-gradient(circle at 18% 78%, var(--bg-accent-c) 0%, transparent 28%),"
  ++ str "radial-gradient(circle at 82% 72%, var(--bg-accent-d) 0%, transparent 30%),"
  ++ str "linear-gradient(180deg, #120F1E 0%, #0E1624 42%, #0A1118 100%);"
  ++ str "color: var(--text-primary);"
  ++ str "position: relative;"
  ++ str "overflow-x: hidden;".
Definition page_stack_style (prefs : UiPrefs) : bytes :=
  str "display: flex; flex-direction: column; gap: " ++ to_string (section_gap prefs) ++ str "px;".
Definition panel_style (prefs : UiPrefs) : bytes :=
  str "display: flex; flex-direction: column; gap: " ++ to_string (content_gap prefs) ++ str "px;"
  ++ str "padding: " ++ to_string (card_padding prefs) ++ str "px;"
  ++ str "border-radius: 24px;"
  ++ str "background: linear-gradient(180deg, rgba(255,255,255,0.045), rgba(255,255,255,0.018)), var(--surface-container);"
  ++ str "border: 1px solid var(--border);"
  ++ str "box-shadow: 0 8px 24px rgba(0,0,0,0.16);".
Definition status_card_style (tone : AccentTone) (prefs : UiPrefs) : bytes :=
  str "display: flex; flex-direction: column; gap: " ++ to_string (content_gap prefs) ++ str "px;"
  ++ str "padding: " ++ to_string (card_padding prefs) ++ str "px;"
  ++ str "border-radius: 24px;"
  ++ str "background: " ++ tone_gradient tone ++ str ";"
  ++ str "border: 1px solid var(--border);"
  ++ str "box-shadow: 0 10px 28px rgba(0,0,0,0.18);".
Definition input_style (multiline : bool) (prefs : UiPrefs) : bytes :=
  let extra := if multiline then str "min-height: 110px; resize: vertical;" else [] in
  str "width: 100%; box-sizing: border-box;"
  ++ str "padding: " ++ to_string (if up_compact_layout prefs then 11 else 13) ++ str "px 14px;"
  ++ str "border-radius: 14px;"
  ++ str "border: 1px solid rgba(255,255,255,0.08);"
  ++ str "background: rgba(18,26,43,0.92);"
  ++ str "color: #F3F7FF;"
  ++ str "font-size: 14px;"
  ++ str "line-height: 1.5;"
  ++ str "outline: none;"
  ++ str "transition: border-color var(--motion), background var(--motion);"
  ++ extra.
Definition topbar_icon_button_style : bytes :=
  str "padding: 10px 14px; border-radius: 20px; border: 1px solid var(--border); background: var(--surface-container-high); color: var(--text-primary); font-size: 13px; font-weight: 500; transition: background var(--motion), border-color var(--motion);".
Definition bottom_nav_style : bytes :=
  str "position: fixed; left: 0; right: 0; bottom: 0; width: 100%; box-sizing: border-box; display: grid; grid-template-columns: repeat(3, minmax(0, 1fr)); gap: 8px; padding: 10px 12px calc(env(safe-area-inset-bottom, 0px) + 10px); background: rgba(23,27,34,0.96); border-top: 1px solid var(--border); backdrop-filter: blur(12px);".
Definition bottom_nav_item_style (active : bool) : bytes :=
  if active
  then str "padding: 12px 10px; border-radius: 18px; border: 1px solid transparent; background: rgba(138,180,248,0.18); color: var(--text-primary); font-size: 13px; font-weight: 600;"
  else str "padding: 12px 10px; border-radius: 18px; border: 1px solid transparent; background: transparent; color: var(--text-secondary); font-size: 13px; font-weight: 500;".
Definition pill_style (tone : AccentTone) : bytes :=
  str "display: inline-flex; align-items: center; gap: 6px; padding: 8px 12px; border-radius: 999px; border: 1px solid " ++ tone_border tone ++ str "; background: " ++ tone_fill tone ++ str "; color: #F3F7FF; font-size: 12px; line-height: 1; letter-spacing: 0.04em;".
Definition metric_card_style (tone : AccentTone) : bytes :=
  str "display: flex; flex-direction: column; min-height: 136px;"
  ++ str "padding: 18px;"
  ++ str "border-radius: 20px;"
  ++ str "border: 1px solid " ++ tone_border tone ++ str ";"
  ++ str "background: linear-gradient(180deg, " ++ tone_fill tone ++ str ", var(--surface-container-high));"
  ++ str "box-shadow: inset 0 1px 0 rgba(255,255,255,0.02);".
Definition button_surface_style (secondary : bool) : bytes :=
  if secondary
  then str "padding: 14px 16px; border-radius: 20px; border: 1px solid rgba(168,199,250,0.18); background: linear-gradient(180deg, rgba(255,255,255,0.05), rgba(255,255,255,0.02)); color: #F3F6FB; font-size: 14px; font-weight: 600; box-shadow: inset 0 1px 0 rgba(255,255,255,0.03); appearance: none; -webkit-appearance: none; transition: background var(--motion), border-color var(--motion), color var(--motion);"
  else str "padding: 14px 16px; border-radius: 20px; border: 1px solid transparent; background: #8AB4F8; color: #0B1220; font-size: 14px; font-weight: 600; box-shadow: inset 0 1px 0 rgba(255,255,255,0.14); appearance: none; -webkit-appearance: none; transition: background var(--motion), border-color var(--motion), color var(--motion);".
Definition node_card_style (selected : bool) (tone : AccentTone) : bytes :=
  let border := if selected then str "rgba(138,180,248,0.42)" else tone_border tone in
  let background :=
    if selected then str "linear-gradient(180deg, rgba(138,180,248,0.14), var(--surface-container-high))"
    else str "linear-gradient(180deg, rgba(255,255,255,0.02), var(--surface-container-high))" in
  str "display: flex; flex-direction: column; gap: 14px; padding: 18px; border-radius: 20px; border: 1px solid " ++ border ++ str "; background: " ++ background ++ str ";".
Definition progress_track_style : bytes :=
  str "width: 100%; height: 10px; border-radius: 999px; background: rgba(255,255,255,0.06); overflow: hidden;".
Definition progress_fill_style (value : Z) (tone : AccentTone) : bytes :=
  str "width: " ++ to_string (Z.min value 100) ++ str "%; height: 100%; border-radius: 999px; background: linear-gradient(90deg, " ++ tone_solid tone ++ str ", " ++ tone_highlight tone ++ str ");".
Definition filter_chip_style (active : bool) : bytes :=
  if active
  then str "padding: 10px 12px; border-radius: 18px; border: 1px solid transparent; background: rgba(138,180,248,0.18); color: var(--text-primary); font-size: 13px; font-weight: 600;"
  else str "padding: 10px 12px; border-radius: 18px; border: 1px solid var(--border); background: var(--surface-container-high); color: var(--text-secondary); font-size: 13px; font-weight: 500;".
Definition selectable_item_style (active : bool) : bytes :=
  if active
  then str "display: flex; width: 100%; box-sizing: border-box; padding: 14px 16px; border-radius: 18px; border: 1px solid transparent; background: rgba(138,180,248,0.18); color: var(--text-primary); transition: background var(--motion), border-color var(--motion);"
  else str "display: flex; width: 100%; box-sizing: border-box; padding: 14px 16px; border-radius: 18px; border: 1px solid var(--border); background: var(--surface-container-high); color: var(--text-primary); transition: background var(--motion), border-color var(--motion);".
