(* ===== verification/Screen.v ===== *)
(** * The screen of the mobile application ([mobile/src/main.rs], [App] and its components)

    What the component renders: the elements with their attributes, texts and
    handlers, as a tree, for each page and each component. A handler is named by
    the control it belongs to; its effect is the turn of MobileApp.v for that
    control. The lemmas compute what each section and each page offers; the theorems
    about it are in ScreenSafety.v. *)
From S2P Require Import Prelude RustStr Limit Net HttpProxy Config Anyhow MobileForm MobileStatus Controller MobileView MobileApp Style.
Local Open Scope Z_scope.

(** ** Elements *)

(** The controls, with the text or the item they are used with. *)
Inductive control :=
| CTopBar | CPrimary | CSearch (text : bytes) | CFilter (f : NodeFilter) | CCard (index : nat) | CEditImport (text : bytes) | CImportUri
| CShowStats | CField (k : field) (text : bytes) | CSwitch (k : switch) | CExpert | CSelectCa (path : bytes) | CRefreshCa | CSave | CLoad
| CClear | CSpeedtest (direction : SpeedDirection) | CImportPaste | CPickConfig | CPickCa | CRequestPermission | CVpnService | CDiagnostics
| CNav (tab : AppTab).
(** The control of a turn; the futures have none. *)
Definition control_of (t : ui_turn) : option control :=
  match t with
  | URender | UEvents _ _ | UPrefill _ _ | UCatalog _ | UImports _ _ _ _ _ _ | UPermission _ | UAutomation _ => None
  | UTopBar => Some CTopBar
  | UPrimary _ => Some CPrimary
  | USearch text => Some (CSearch text)
  | UFilter f => Some (CFilter f)
  | UCard index => Some (CCard index)
  | UEditImport text => Some (CEditImport text)
  | UImportUri _ => Some CImportUri
  | UShowStats => Some CShowStats
  | UField k text => Some (CField k text)
  | USwitch k => Some (CSwitch k)
  | UExpert => Some CExpert
  | USelectCa path _ => Some (CSelectCa path)
  | URefreshCa _ _ => Some CRefreshCa
  | USave _ _ => Some CSave
  | ULoad _ _ => Some CLoad
  | UClear _ _ => Some CClear
  | USpeedtest direction => Some (CSpeedtest direction)
  | UImportPaste _ => Some CImportPaste
  | UPickConfig _ _ => Some CPickConfig
  | UPickCa _ _ => Some CPickCa
  | URequestPermission => Some CRequestPermission
  | UVpnService => Some CVpnService
  | UDiagnostics => Some CDiagnostics
  end.

#[warnings="-register-all"] Inductive html :=
| Text (s : bytes)
| El (tag : string) (attrs : list (string * bytes)) (children : list html)
| Button (attrs : list (string * bytes)) (disabled : bool) (onclick : control) (children : list html)
| Input (tag : string) (attrs : list (string * bytes)) (oninput : bytes → control).
Definition attr (name : string) (value : bytes) : string * bytes := (name, value).
Definition style (value : bytes) : string * bytes := ("style"%string, value).
Definition class (names : string) : string * bytes := ("class"%string, str names).

(** ** Components *)

Definition StatusPill (label : bytes) (tone : AccentTone) : html :=
  El "span" [style (pill_style tone)] [Text label].
Definition StatusLine (label : string) (value : bytes) : html :=
  El "div" [class "status-line"]
    [El "strong" [class "status-line-label c-primary text-base fw-500"] [Text (str label)];
     El "span" [class "status-line-value c-secondary text-base"] [Text value]].
Definition SectionHeader (title : string) (subtitle : bytes) : html :=
  El "div" [class "section-header"]
    [El "h2" [class "m-0 text-xl fw-600 tracking-tight"] [Text (str title)]; El "p" [class "m-0 text-sm c-secondary"] [Text subtitle]].
Definition FieldRow (label placeholder : string) (value : bytes) (oninput : bytes → control) : html :=
  El "label" [class "field-label"]
    [El "span" [class "text-sm c-secondary"] [Text (str label)];
     Input "input" [style (input_style false prefs_default); attr "value" value; attr "placeholder" (str placeholder)] oninput].
Definition CaSelector (directory : bytes) (files : list CaFile) (selected_path : bytes) (onselect : bytes → control) (onrefresh : control) : html :=
  let has_directory := negb (blank directory) in
  let has_selected_path := negb (blank selected_path) in
  El "div" [class "col gap-10 mt-12"]
    ([El "div" [class "row between gap-12 start wrap"]
       [El "div" [class "col gap-6"]
          [El "span" [class "text-sm c-secondary"] [Text (str "Installed CAs")];
           El "p" [class "m-0 text-xs c-muted"]
             (if has_directory then
                 [Text (str "ADB directory: " ++ directory)]
               else [Text (str "ADB directory will appear when the Android bridge is ready.")])];
        El "div" [class "row wrap gap-8"]
          ([Button [style (filter_chip_style false)] false onrefresh [Text (str "Refresh")]]
          ++ (if has_selected_path then [Button [style (filter_chip_style false)] false (onselect []) [Text (str "Clear Selection")]] else []))]]
    ++ (if is_empty files then
        [El "p" [class "m-0 text-xs c-muted"] [Text (str "No CA files found. Push a .crt or .pem file into the directory above, then refresh.")]]
      else
        [El "div" [class "col gap-10"]
           (map (fun file =>
               Button [style (selectable_item_style (bool_decide (selected_path = cafile_path file)))] false (onselect (cafile_path file))
                 [El "div" [class "col start gap-4 w-full"]
                    [El "strong" [class "text-base c-primary fw-600"]
                       (if bool_decide (selected_path = cafile_path file) then
                           [Text (str "Using " ++ cafile_name file)]
                         else [Text (str "Use " ++ cafile_name file)]);
                     El "span" [class "text-xs c-secondary text-left"] [Text (cafile_path file)]]]) files)])
    ++ (if has_selected_path then [El "p" [class "m-0 text-xs c-muted"] [Text (str "Selected path: " ++ selected_path)]] else [])).
Definition MetricCard (eyebrow : string) (value detail : bytes) (tone : AccentTone) : html :=
  El "div" [style (metric_card_style tone)]
    [El "span" [style (str "font-size: 12px; color: #a8b3c7; text-transform: uppercase; letter-spacing: 0.1em;")] [Text (str eyebrow)];
     El "strong" [style (str "font-size: 24px; line-height: 1.1; letter-spacing: -0.03em; color: #f3f7ff; margin-top: 6px;")] [Text value];
     El "p" [style (str "margin: 8px 0 0; color: #a8b3c7; font-size: 13px; line-height: 1.5;")] [Text detail]].
Definition PrimaryButton (label : string) (disabled secondary : bool) (onclick : control) : html :=
  Button [style (button_style_with_state (button_surface_style secondary) secondary (negb disabled))] disabled onclick [Text (str label)].
Definition NodeItemCard (title subtitle meta : bytes) (tags : list bytes) (selected : bool) (tone : AccentTone) (action_label : bytes)
    (disabled : bool) (onclick : control) : html :=
  El "div" [style (node_card_style selected tone)]
    [El "div" [class "row between gap-12 start"]
       [El "div" [class "col gap-6"]
          [El "strong" [class "text-lg c-primary fw-600"] [Text title]; El "span" [class "text-sm c-secondary"] [Text subtitle]];
        StatusPill (if selected then str "Selected" else str "Available") (if selected then Accent else tone)];
     El "p" [class "m-0 text-sm c-muted mt-12"] [Text meta];
     El "div" [class "tag-row mt-14"]
       (map (fun tag =>
           StatusPill tag tone) tags);
     Button [style (button_style_with_state (button_surface_style true) true (negb disabled))] disabled onclick [Text action_label]].
Definition ProgressMetric (label : string) (value : Z) (detail : bytes) (tone : AccentTone) : html :=
  El "div" [class "col gap-8 mt-14"]
    [El "div" [class "row between gap-12"]
       [El "strong" [class "text-base c-primary"] [Text (str label)]; El "span" [class "text-sm c-secondary"] [Text (to_string value ++ str "%")]];
     El "div" [style progress_track_style] [El "div" [style (progress_fill_style value tone)] []];
     El "p" [class "m-0 text-sm c-muted"] [Text detail]].
Definition ActivityRow (message age : bytes) : html :=
  El "div" [class "activity-row"] [El "span" [class "text-base c-primary"] [Text message]; El "span" [class "text-xs c-muted nowrap"] [Text age]].
Definition EmptyState (title detail : bytes) : html :=
  El "div" [class "empty-state"] [El "strong" [class "text-lg c-primary"] [Text title]; El "p" [class "m-0 text-sm c-secondary"] [Text detail]].
Definition SettingRow (label : string) (detail : bytes) (control : html) : html :=
  El "div" [class "setting-row"]
    [El "div" [class "col gap-6"]
       [El "strong" [class "text-base c-primary fw-500"] [Text (str label)]; El "p" [class "m-0 text-sm c-secondary"] [Text detail]];
     control].
Definition TopBar (title subtitle : bytes) (action_label : option bytes) (on_action : control) : html :=
  El "section"
    [style (str "position: sticky; top: 0; z-index: 3; padding: 10px 0 12px; background: linear-gradient(180deg, rgba(16,19,26,0.96) 0%, rgba(16,19,26,0.88) 70%, rgba(16,19,26,0) 100%); backdrop-filter: blur(12px);")]
    [El "div" [class "row between gap-12 center"]
       ([El "div" [class "col gap-4 min-w-0"]
          [El "span" [class "text-22 fw-600 tracking-title"] [Text title]; El "p" [class "m-0 text-base c-secondary"] [Text subtitle]]]
       ++ (match action_label with Some action_label =>
           [Button [style topbar_icon_button_style] false on_action [Text action_label]]
         | None => [] end))].
Definition BottomNav (active : AppTab) (onselect : AppTab → control) : html :=
  El "nav" [style bottom_nav_style]
    (map (fun tab =>
        Button [style (bottom_nav_item_style (bool_decide (active = tab)))] false (onselect tab) [Text (tab_label tab)]) [Home; Nodes; Stats]).
(** ** Pages *)

(** A rendering: the values the component read, the counters, the log, the launch
    automation, the time and the health score. *)
Section pages.
Context (parse_url : bytes → outcome bytes Url) (utf8_error : bytes → bytes) (CARGO_PKG_VERSION : bytes).
Context (v : View) (m : UiMetrics) (logs : list LogEntry) (automation : LaunchAutomation) (now score : Z).
Abbreviation required := (has_required_connection_fields parse_url utf8_error).
Abbreviation form := (dr_form (vw_draft v)).
Abbreviation status := (vw_status v).
Abbreviation prefs := (nv_prefs (vw_nav v)).

Definition home_status : html :=
  El "section" [style (status_card_style (phase_tone (us_phase status)) prefs)]
    ([El "div" [class "row between gap-16 start wrap"]
       [El "div" [class "col gap-6"]
          [El "h1" [class "m-0 text-2xl fw-600"; style (str "line-height: 1.15;")] [Text (us_phase status)];
           El "p" [class "m-0 text-base c-secondary"] [Text (us_detail status)]];
        El "div" [class "row wrap gap-8 end-x"]
          [StatusPill (str "VPN " ++ vpn_badge_label status) (if us_vpn_active status then Positive else Neutral);
           StatusPill (summarize_protocol status) (udp_status_tone status)]];
     El "div" [style (str "display: flex; justify-content: center; padding: 8px 0 2px;")]
       [Button
          [style (button_style_with_state (str "width: 196px; height: 196px; border: 1px solid rgba(255,255,255,0.08); border-radius: 999px; background: radial-gradient(circle at top, rgba(82,136,255,0.22), rgba(255,255,255,0.03)); color: #f3f7ff; font-size: 28px; font-weight: 700; letter-spacing: -0.03em; box-shadow: 0 18px 54px rgba(0,0,0,0.28);") false (required form || should_offer_disconnect (us_phase status)))]
          (negb (required form) && negb (should_offer_disconnect (us_phase status))) CPrimary
          [Text (primary_action_label v)]];
     El "div" [class "grid-2 gap-12"]
       [MetricCard "Upload" (format_bytes_per_second (us_tx_rate_bytes status)) (str "Real-time upstream traffic through the active tunnel.") Accent;
        MetricCard "Download" (format_bytes_per_second (us_rx_rate_bytes status)) (str "Real-time downstream traffic through the active tunnel.")
          Positive;
        MetricCard "Uploaded" (format_total_bytes (us_tx_total_bytes status)) (str "Cumulative bytes sent over the active QUIC connection.") Neutral;
        MetricCard "Downloaded" (format_total_bytes (us_rx_total_bytes status)) (str "Cumulative bytes received over the active QUIC connection.")
          Neutral];
     El "div" [class "info-box col"]
       [StatusLine "Node" (current_node_label v);
        StatusLine "Config" (current_config_label v);
        StatusLine "Endpoint" (config_value_or_empty (fm_server form));
        StatusLine "Remote" (display_or_dash (us_remote status));
        StatusLine "Latency" (format_latency (us_latency status));
        StatusLine "Session" (online_duration m now);
        StatusLine "Trust" (current_trust_label form (dr_catalog (vw_draft v)) (dr_cert_name (vw_draft v)))]]
    ++ (if negb (required form) && negb (should_offer_disconnect (us_phase status)) then
        [El "p" [style (str "margin: 14px 0 0; color: #fca5a5; font-size: 13px; line-height: 1.5;")]
           [Text (str "还没有可用配置。点右上角进入 Settings，粘贴 hysteria2:// 链接或手动填写服务器和认证信息。")]]
      else [])).
Definition home_summary : html :=
  El "section" [style (panel_style prefs)]
    [SectionHeader "Connection Summary"
       (str "Home keeps the main path minimal: connect, watch the link, and jump into settings when you need to change anything.");
     StatusLine "VPN" (vpn_badge_label status);
     StatusLine "Transport" (summarize_protocol status);
     StatusLine "Last connected" (last_connected m now);
     StatusLine "Local SOCKS" (us_local_socks status);
     El "p" [style (str "margin: 14px 0 0; color: #6e7b91; font-size: 12px; line-height: 1.5;")]
       [Text (str "Settings now owns direct import, manual editing, saved profiles, Android VPN controls, and diagnostics.")]].
Definition nodes_library : html :=
  El "section" [style (panel_style prefs)]
    [SectionHeader "Node Library" (str "Manage the working draft, saved profile, and imported share data.");
     Input "input"
       [style (input_style false prefs); attr "value" (nv_search (vw_nav v)); attr "placeholder" (str "Search by endpoint, SNI, or source")] CSearch;
     El "div" [style (str "display: flex; gap: 10px; flex-wrap: wrap; margin-top: 14px;")]
       (map (fun filter =>
           Button [style (filter_chip_style (bool_decide (nv_filter (vw_nav v) = filter)))] false (CFilter filter) [Text (filter_label filter)]) [FilterAll; FilterActive; FilterSaved; FilterImported]);
     El "div" [style (str "display: flex; flex-direction: column; gap: 12px; margin-top: 16px;")]
       (if is_empty (shown_cards v) then
           [EmptyState (str "No matching nodes") (str "Try a different filter, or import a share URI to add another endpoint source.")]
         else
           (imap (fun i card =>
               NodeItemCard (nc_title card) (nc_subtitle card) (nc_meta card) (nc_tags card) (nc_selected card) (nc_tone card) (nc_action_label card)
                 (negb (bool_decide (is_Some (nc_form card)))) (CCard i)) (shown_cards v)))].
Definition nodes_import : html :=
  El "section" [style (panel_style prefs)]
    [SectionHeader "Import Share URI" (str "Paste a hy2:// or hysteria2:// share link, then apply it into the draft.");
     Input "textarea"
       [style (input_style true prefs); attr "value" (fm_import_uri form); attr "placeholder" (str "Paste a hy2:// or hysteria2:// share URI here")]
       CEditImport;
     El "div" [style (str "display: flex; gap: 12px; margin-top: 14px; flex-wrap: wrap;")]
       [PrimaryButton "Import URI" (blank (fm_import_uri form)) false CImportUri; PrimaryButton "Show Stats" false true CShowStats]].
Definition nodes_draft : html :=
  El "section" [style (panel_style prefs)]
    ([SectionHeader "Active Draft"
       (str "Keep Android aligned with the Linux client: server, auth, optional obfs/SNI, then connect. If CA path is empty, the app falls back to the system trust store.");
     FieldRow "Server" "Host:port or hy2:// URI" (fm_server form) (CField FServer);
     FieldRow "Auth" "Password or auth token" (fm_auth form) (CField FAuth);
     FieldRow "Salamander" "Optional obfs password" (fm_obfs_password form) (CField FObfsPassword);
     FieldRow "TLS SNI" "Optional SNI override" (fm_sni form) (CField FSni)]
    ++ (if expert v then
        [El "div" [style (str "display: flex; flex-direction: column;")]
           [El "p" [style (str "margin: 12px 0 0; color: #6e7b91; font-size: 12px; line-height: 1.5;")]
              [Text (str "Expert controls are only for explicit trust overrides, TLS debugging, bandwidth caps, and QUIC tuning.")];
            FieldRow "CA path" "Optional PEM path inside app storage" (fm_ca_path form) (CField FCaPath);
            CaSelector (cc_directory (dr_catalog (vw_draft v))) (cc_files (dr_catalog (vw_draft v))) (fm_ca_path form) CSelectCa CRefreshCa;
            FieldRow "pinSHA256" "Optional certificate pin" (fm_pin_sha256 form) (CField FPin);
            FieldRow "Bandwidth up" "Optional, e.g. 100 Mbps" (fm_bandwidth_up form) (CField FBandwidthUp);
            FieldRow "Bandwidth down" "Optional, e.g. 500 Mbps" (fm_bandwidth_down form) (CField FBandwidthDown);
            FieldRow "QUIC init stream window" "Optional bytes, default 268435456" (fm_init_stream_window form) (CField FInitStream);
            FieldRow "QUIC max stream window" "Optional bytes, default 268435456" (fm_max_stream_window form) (CField FMaxStream);
            FieldRow "QUIC init conn window" "Optional bytes, default 536870912" (fm_init_conn_window form) (CField FInitConn);
            FieldRow "QUIC max conn window" "Optional bytes, default 536870912" (fm_max_conn_window form) (CField FMaxConn);
            FieldRow "QUIC idle timeout" "Optional duration, default 30s" (fm_max_idle_timeout form) (CField FIdleTimeout);
            FieldRow "QUIC keep alive" "Optional duration, default 10s" (fm_keep_alive_period form) (CField FKeepAlive)]]
      else [])
    ++ [El "div" [style (str "display: flex; gap: 12px; align-items: center; margin-top: 14px; flex-wrap: wrap;")]
       ([Button [style (filter_chip_style (expert v))] false CExpert
          (if expert v then [Text (str "Expert mode: On")] else [Text (str "Expert mode: Off")])]
       ++ (if show_udp_toggle_in_primary_controls then
           [Button [style (filter_chip_style (fm_local_udp_enabled form))] false (CSwitch SUdp)
              (if fm_local_udp_enabled form then [Text (str "UDP relay: ON")] else [Text (str "UDP relay: OFF")])]
         else [])
       ++ (if show_expert_transport_toggles (expert v) then
           [Button [style (filter_chip_style (fm_insecure_tls form))] false (CSwitch SInsecure)
              (if fm_insecure_tls form then [Text (str "TLS insecure: ON")] else [Text (str "TLS insecure: OFF")]);
            Button [style (filter_chip_style (fm_disable_path_mtu_discovery form))] false (CSwitch SPathMtu)
              (if fm_disable_path_mtu_discovery form then [Text (str "PMTUD disabled")] else [Text (str "PMTUD enabled")])]
         else []))]
    ++ (if negb (required form) then
        [El "p" [style (str "margin: 14px 0 0; color: #fca5a5; font-size: 13px;")]
           [Text (str "Server and Auth must be set before the Android connection flow can start.")]]
      else
        (if negb (expert v) then
            [El "p" [style (str "margin: 14px 0 0; color: #6e7b91; font-size: 12px; line-height: 1.5;")]
               [Text (str "Normal mobile flow is ready. UDP relay stays visible here; leave Expert mode off unless you need explicit CA files, TLS insecure, pinning, bandwidth caps, or QUIC tuning.")]]
          else []))).
Definition nodes_storage : html :=
  El "section" [style (panel_style prefs)]
    [SectionHeader "Profile Storage"
       (str "Persist the draft locally. Connect and disconnect stay on Home so the main Android path only has one place to start.");
     El "div" [style (str "display: flex; gap: 12px; flex-wrap: wrap;")]
       [PrimaryButton "Save Profile" (negb (required form)) true CSave;
        PrimaryButton "Load Saved" (negb (bool_decide (is_Some (dr_saved (vw_draft v))))) true CLoad;
        PrimaryButton "Clear Saved" (negb (bool_decide (is_Some (dr_saved (vw_draft v))))) true CClear]].
Definition stats_counters : html :=
  El "div" [style (str "display: grid; grid-template-columns: repeat(3, minmax(0, 1fr)); gap: 12px;")]
    [MetricCard "Successful connects" (to_string (um_successful_connections m)) (str "Cumulative successful sessions in this app run.") Positive;
     MetricCard "Reconnects" (to_string (um_reconnect_count m)) (str "Automatic recovery attempts after closure.") Warning;
     MetricCard "Errors" (to_string (um_error_count m)) (str "Transitions that ended in the Error phase.") Danger].
Definition stats_overview : html :=
  El "section" [style (panel_style prefs)]
    [SectionHeader "Runtime Overview" (str "Operational counters and the last observed transport state.");
     El "div" [class "grid-2 gap-12"]
       [MetricCard "Online time" (online_duration m now) (str "Only counts while the link remains active.") Accent;
        MetricCard "Current TX cap" (format_negotiated_rate (us_negotiated_tx status)) (str "Negotiated transmit allowance from the remote.") Neutral;
        MetricCard "Last download" (default (str "Run a download test") (um_latest_download m)) (str "Most recent built-in download probe.") Positive;
        MetricCard "Last upload" (default (str "Run an upload test") (um_latest_upload m)) (str "Most recent built-in upload probe.") Accent]].
Definition stats_health : html :=
  El "section" [style (panel_style prefs)]
    [SectionHeader "Connection Health" (str "Lightweight stability indicators derived from the live session.");
     MetricCard "DNS failures" (to_string (um_dns_failure_count m)) (str "Requests that ended in local DNS proxy failure or SERVFAIL.")
       (if um_dns_failure_count m =? 0 then Positive else Warning);
     ProgressMetric "Stability" score
       (to_string (um_successful_connections m) ++ str " successful connects, " ++ to_string (um_reconnect_count m) ++ str " reconnects, " ++ to_string (um_error_count m) ++ str " errors, " ++ to_string (um_dns_failure_count m) ++ str " DNS failures.")
       Positive;
     ProgressMetric "VPN readiness" (vpn_health_score status) (vpn_badge_label status) (if us_vpn_active status then Positive else Warning);
     ProgressMetric "Transport health" (transport_health_score status) (summarize_protocol status) (udp_status_tone status)].
Definition stats_session : html :=
  El "section" [style (panel_style prefs)]
    [SectionHeader "Session Details" (str "The latest runtime values exposed by hysteria-core and Android.");
     StatusLine "Phase" (us_phase status);
     StatusLine "Remote" (display_or_dash (us_remote status));
     StatusLine "UDP status" (udp_status_label status);
     StatusLine "VPN available" (bool_word (us_vpn_available status));
     StatusLine "VPN permission" (bool_word (us_vpn_permission_granted status));
     StatusLine "VPN active" (bool_word (us_vpn_active status));
     StatusLine "Local SOCKS" (us_local_socks status);
     StatusLine "Detail" (us_detail status)].
Definition stats_timeline : html :=
  El "section" [style (panel_style prefs)]
    [SectionHeader "Recent Timeline" (str "Newest diagnostic events first.");
     El "div" [style (str "display: flex; flex-direction: column; gap: 10px;")]
       (if is_empty (take 8 logs) then
           [EmptyState (str "No diagnostics yet") (str "The event timeline will populate once the runtime starts producing logs.")]
         else
           (map (fun entry =>
               ActivityRow (le_message entry) (format_relative_time (le_recorded_at entry) now)) (take 8 logs)));
     El "div" [style (str "display: flex; gap: 12px; margin-top: 14px; flex-wrap: wrap;")]
       [PrimaryButton "Download Test" (negb (bool_decide (us_phase status = str "Connected"))) false (CSpeedtest Download);
        PrimaryButton "Upload Test" (negb (bool_decide (us_phase status = str "Connected"))) true (CSpeedtest Upload)]].
Definition settings_import : html :=
  El "section" [style (panel_style prefs)]
    [SectionHeader "Direct Import" (str "Paste a hysteria2:// link or a compatible YAML client config. This updates the active draft below.");
     Input "textarea"
       [style (input_style true prefs); attr "value" (fm_import_uri form); attr "placeholder" (str "Paste hysteria2://... or YAML here")] CEditImport;
     El "div" [style (str "display: flex; gap: 12px; margin-top: 14px; flex-wrap: wrap;")]
       [PrimaryButton "Import Paste" (blank (fm_import_uri form)) false CImportPaste;
        PrimaryButton "Import File" false true CPickConfig;
        PrimaryButton "Import Cert" false true CPickCa];
     El "p" [style (str "margin: 14px 0 0; color: #6e7b91; font-size: 12px; line-height: 1.5;")]
       [Text (str "示例: hysteria2://token@hi.wedevs.org:12443/?obfs=salamander&obfs-password=...&sni=hi.wedevs.org")]].
Definition settings_draft : html :=
  El "section" [style (panel_style prefs)]
    ([SectionHeader "Connection Draft" (str "Everything needed to connect now lives here. Home only shows the live session.");
     FieldRow "Server" "Host:port or hy2:// URI" (fm_server form) (CField FServer);
     FieldRow "Auth" "Password or auth token" (fm_auth form) (CField FAuth);
     FieldRow "Salamander" "Optional obfs password" (fm_obfs_password form) (CField FObfsPassword);
     FieldRow "TLS SNI" "Optional SNI override" (fm_sni form) (CField FSni);
     El "div" [style (str "display: flex; gap: 12px; align-items: center; margin-top: 14px; flex-wrap: wrap;")]
       ([Button [style (filter_chip_style (expert v))] false CExpert
          (if expert v then [Text (str "Expert mode: On")] else [Text (str "Expert mode: Off")])]
       ++ (if show_udp_toggle_in_primary_controls then
           [Button [style (filter_chip_style (fm_local_udp_enabled form))] false (CSwitch SUdp)
              (if fm_local_udp_enabled form then [Text (str "UDP relay: ON")] else [Text (str "UDP relay: OFF")])]
         else [])
       ++ (if show_expert_transport_toggles (expert v) then
           [Button [style (filter_chip_style (fm_insecure_tls form))] false (CSwitch SInsecure)
              (if fm_insecure_tls form then [Text (str "TLS insecure: ON")] else [Text (str "TLS insecure: OFF")]);
            Button [style (filter_chip_style (fm_disable_path_mtu_discovery form))] false (CSwitch SPathMtu)
              (if fm_disable_path_mtu_discovery form then [Text (str "PMTUD disabled")] else [Text (str "PMTUD enabled")])]
         else []))]
    ++ (if expert v then
        [FieldRow "CA path" "Optional PEM path inside app storage" (fm_ca_path form) (CField FCaPath);
         CaSelector (cc_directory (dr_catalog (vw_draft v))) (cc_files (dr_catalog (vw_draft v))) (fm_ca_path form) CSelectCa CRefreshCa;
         FieldRow "pinSHA256" "Optional certificate pin" (fm_pin_sha256 form) (CField FPin);
         FieldRow "Bandwidth up" "Optional, e.g. 100 Mbps" (fm_bandwidth_up form) (CField FBandwidthUp);
         FieldRow "Bandwidth down" "Optional, e.g. 500 Mbps" (fm_bandwidth_down form) (CField FBandwidthDown);
         FieldRow "QUIC init stream window" "Optional bytes, default 268435456" (fm_init_stream_window form) (CField FInitStream);
         FieldRow "QUIC max stream window" "Optional bytes, default 268435456" (fm_max_stream_window form) (CField FMaxStream);
         FieldRow "QUIC init conn window" "Optional bytes, default 536870912" (fm_init_conn_window form) (CField FInitConn);
         FieldRow "QUIC max conn window" "Optional bytes, default 536870912" (fm_max_conn_window form) (CField FMaxConn);
         FieldRow "QUIC idle timeout" "Optional duration, default 30s" (fm_max_idle_timeout form) (CField FIdleTimeout);
         FieldRow "QUIC keep alive" "Optional duration, default 10s" (fm_keep_alive_period form) (CField FKeepAlive)]
      else
        [El "p" [style (str "margin: 14px 0 0; color: #6e7b91; font-size: 12px; line-height: 1.5;")]
           [Text (str "高级模式里可以管理显式 CA、TLS insecure、证书 pin、带宽和 QUIC 参数。")]])).
Definition settings_storage : html :=
  El "section" [style (panel_style prefs)]
    [SectionHeader "Profile Storage" (str "Persist the current draft locally, then return to Home to connect.");
     El "div" [style (str "display: flex; gap: 12px; flex-wrap: wrap;")]
       [PrimaryButton "Save Profile" (negb (required form)) true CSave;
        PrimaryButton "Load Saved" (negb (bool_decide (is_Some (dr_saved (vw_draft v))))) true CLoad;
        PrimaryButton "Clear Saved" (negb (bool_decide (is_Some (dr_saved (vw_draft v))))) true CClear]].
Definition settings_vpn : html :=
  El "section" [style (panel_style prefs)]
    [SectionHeader "Android VPN" (str "Permission and service controls for the system tunnel.");
     SettingRow "Permission"
       (if us_vpn_permission_granted status then str "Android has already granted VPN permission." else str "Permission is required before the app can own a system tunnel.")
       (Button [style (filter_chip_style (us_vpn_permission_granted status))] false CRequestPermission
          (if us_vpn_permission_granted status then [Text (str "Granted")] else [Text (str "Request")]));
     SettingRow "VPN service" (vpn_badge_label status)
       (Button [style (filter_chip_style (us_vpn_active status))] false CVpnService
          (if us_vpn_active status then [Text (str "Stop")] else [Text (str "Start")]));
     SettingRow "Launch automation" (describe_launch_automation automation)
       (StatusPill (str "Read only") Neutral)].
Definition settings_diagnostics : html :=
  El "section" [style (panel_style prefs)]
    ([SectionHeader "Diagnostics" (str "Collapsed by default. Expand for session details, logs, and built-in probes.");
     El "div" [style (str "display: flex; justify-content: space-between; gap: 12px; align-items: center; flex-wrap: wrap;")]
       [StatusPill (if nv_diagnostics (vw_nav v) then str "Expanded" else str "Collapsed") (if nv_diagnostics (vw_nav v) then Accent else Neutral);
        Button [style (filter_chip_style (nv_diagnostics (vw_nav v)))] false CDiagnostics
          (if nv_diagnostics (vw_nav v) then [Text (str "Hide Diagnostics")] else [Text (str "Show Diagnostics")])]]
    ++ (if nv_diagnostics (vw_nav v) then
        [El "div"
           [style (str "display: flex; flex-direction: column; gap: 0; margin-top: 14px; border-radius: 18px; background: rgba(255,255,255,0.03); border: 1px solid rgba(255,255,255,0.06); padding: 4px 16px;")]
           [StatusLine "Phase" (us_phase status);
            StatusLine "Remote" (display_or_dash (us_remote status));
            StatusLine "Latency" (format_latency (us_latency status));
            StatusLine "Upload total" (format_total_bytes (us_tx_total_bytes status));
            StatusLine "Download total" (format_total_bytes (us_rx_total_bytes status));
            StatusLine "Local SOCKS" (us_local_socks status);
            StatusLine "Detail" (us_detail status)];
         El "div" [style (str "display: flex; gap: 12px; margin-top: 14px; flex-wrap: wrap;")]
           [PrimaryButton "Download Test" (negb (bool_decide (us_phase status = str "Connected"))) false (CSpeedtest Download);
            PrimaryButton "Upload Test" (negb (bool_decide (us_phase status = str "Connected"))) true (CSpeedtest Upload)];
         El "div" [style (str "display: flex; flex-direction: column; gap: 10px; margin-top: 14px;")]
           (if is_empty (take 8 logs) then
               [EmptyState (str "No diagnostics yet") (str "Runtime events will appear here after import, connect, reconnect, and speedtest actions.")]
             else
               (map (fun entry =>
                   ActivityRow (le_message entry) (format_relative_time (le_recorded_at entry) now)) (take 8 logs)))]
      else [])).
Definition settings_about : html :=
  El "section" [style (panel_style prefs)]
    [SectionHeader "About" (str "Build metadata and the current mobile runtime footprint.");
     StatusLine "App version" CARGO_PKG_VERSION;
     StatusLine "UI runtime" (str "Dioxus 0.7 mobile");
     StatusLine "Core transport" (str "hysteria-core over QUIC");
     StatusLine "Current endpoint" (config_value_or_empty (fm_server form));
     StatusLine "Import count" (to_string (um_import_count m))].
Definition page (tab : AppTab) : html :=
  El "div" [style (page_stack_style prefs)]
    match tab with
    | Home => [home_status; home_summary]
    | Nodes => [nodes_library; nodes_import; nodes_draft; nodes_storage]
    | Stats => [stats_counters; stats_overview; stats_health; stats_session; stats_timeline]
    | Settings => [settings_import; settings_draft; settings_storage; settings_vpn; settings_diagnostics; settings_about]
    end.
Definition shell : html :=
  let '(page_title, page_subtitle) := page_header v in
  El "div" [style (app_shell_style prefs)]
    ([El "div" [attr "dangerous_inner_html" (str "<style>" ++ ui_stylesheet ++ str "</style>")] [];
      El "div"
        [style (str "position: relative; z-index: 1; width: min(100%, 560px); margin: 0 auto; display: flex; flex-direction: column; gap: 18px;")]
        [TopBar page_title page_subtitle (Some (topbar_action_label v)) CTopBar; page (nv_tab (vw_nav v))]]
    ++ (if false then [BottomNav (nv_tab (vw_nav v)) CNav] else [])).
End pages.

(** The rendering of the component; [checks] is whether the build checks for
    overflow. *)
Definition render_screen (parse_url : bytes → outcome bytes Url) (utf8_error : bytes → bytes) (CARGO_PKG_VERSION : bytes) (checks : bool) (v : View)
    (m : UiMetrics) (logs : list LogEntry) (automation : LaunchAutomation) (now : Z) : outcome anyhow html :=
  score ← connection_health_score checks m (vw_status v);
  Ret (shell parse_url utf8_error CARGO_PKG_VERSION v m logs automation now score).

(** ** What a tree offers and displays *)

(** The controls a user can click, and those a user can type into. *)
Fixpoint clicks (h : html) : list control :=
  match h with
  | Text _ | Input _ _ _ => []
  | El _ _ children => flat_map clicks children
  | Button _ disabled onclick children => (if disabled then [] else [onclick]) ++ flat_map clicks children
  end.
Fixpoint inputs (h : html) : list (bytes → control) :=
  match h with
  | Text _ => []
  | El _ _ children | Button _ _ _ children => flat_map inputs children
  | Input _ _ oninput => [oninput]
  end.
(** The input of a secret: its handler sets the authentication or the
    obfuscation password of the draft. *)
Definition secret_input (oninput : bytes → control) : bool :=
  match oninput [] with CField (FAuth | FObfsPassword) _ => true | _ => false end.
(** The values in the inputs of secrets that are shown as they are, that is,
    without the type of a password. *)
Fixpoint secrets_in_clear (h : html) : list bytes :=
  match h with
  | Text _ => []
  | El _ _ children | Button _ _ _ children => flat_map secrets_in_clear children
  | Input _ attrs oninput =>
      if secret_input oninput && negb (bool_decide (("type"%string, str "password") ∈ attrs))
      then omap (fun a => if decide (a.1 = "value"%string) then Some a.2 else None) attrs
      else []
  end.
(** The tree without the values of these inputs; everything else, with every
    text, attribute, handler and disabled flag, stays. *)
Fixpoint mask (h : html) : html :=
  match h with
  | Text s => Text s
  | El tag attrs children => El tag attrs (map mask children)
  | Button attrs disabled onclick children => Button attrs disabled onclick (map mask children)
  | Input tag attrs oninput =>
      Input tag (if secret_input oninput then filter (fun a => a.1 ≠ "value"%string) attrs else attrs) oninput
  end.
Definition offers (h : html) (c : control) : Prop := c ∈ clicks h ∨ Exists (fun oninput => ∃ text, c = oninput text) (inputs h).

Lemma flat_map_if {A B} (f : A → list B) (b : bool) l k : flat_map f (if b then l else k) = if b then flat_map f l else flat_map f k.
Proof. by destruct b. Qed.
Lemma flat_map_map {A B C} (f : B → list C) (g : A → B) l : flat_map f (map g l) = flat_map (fun a => f (g a)) l.
Proof. induction l as [|a l IH]; cbn; [done|]. by rewrite IH. Qed.
Lemma flat_map_nil {A B} (f : A → list B) l : (∀ a, f a = []) → flat_map f l = [].
Proof. intros H. induction l as [|a l IH]; cbn; [done|]. by rewrite H, IH. Qed.
Lemma flat_map_ret {A B} (f : A → list B) (g : A → B) l : (∀ a, f a = [g a]) → flat_map f l = map g l.
Proof. intros H. induction l as [|a l IH]; cbn; [done|]. by rewrite H, IH. Qed.
Lemma if_same {A} (b : bool) (a : A) : (if b then a else a) = a.
Proof. by destruct b. Qed.
Lemma if_negb {A} (b : bool) (x y : A) : (if negb b then x else y) = if b then y else x.
Proof. by destruct b. Qed.
(** Collects from the parts of a tree. *)
Ltac collect :=
  repeat first [progress cbn [clicks inputs flat_map app]
    | progress rewrite ?flat_map_app, ?flat_map_if, ?flat_map_map, ?if_same, ?if_negb, ?app_nil_r].

(** The components that only show. *)
Lemma clicks_NodeItemCard title subtitle meta tags selected tone label (disabled : bool) onclick :
  clicks (NodeItemCard title subtitle meta tags selected tone label disabled onclick) = if disabled then [] else [onclick].
Proof. unfold NodeItemCard, StatusPill. collect. rewrite flat_map_nil by done. by destruct disabled. Qed.
Lemma clicks_CaSelector directory files selected onselect onrefresh :
  clicks (CaSelector directory files selected onselect onrefresh)
  = onrefresh :: (if blank selected then [] else [onselect []]) ++ map (fun file => onselect (cafile_path file)) files.
Proof.
  unfold CaSelector. collect. f_equal. f_equal. destruct files as [|file files]; [done|]. cbn [is_empty].
  apply flat_map_ret. intros a. collect. done.
Qed.
Lemma inputs_CaSelector directory files selected onselect onrefresh : inputs (CaSelector directory files selected onselect onrefresh) = [].
Proof.
  unfold CaSelector. collect. destruct (is_empty files); [done|]. apply flat_map_nil. intros a. collect. done.
Qed.

#[global] Instance field_eq_dec : EqDecision field.
Proof. solve_decision. Defined.

Section offered.
Context (parse_url : bytes → outcome bytes Url) (utf8_error : bytes → bytes) (CARGO_PKG_VERSION : bytes).
Context (v : View) (m : UiMetrics) (logs : list LogEntry) (automation : LaunchAutomation) (now score : Z).
Abbreviation required := (has_required_connection_fields parse_url utf8_error).
Abbreviation form := (dr_form (vw_draft v)).
Abbreviation status := (vw_status v).

(** *** Clicks *)

Definition ca_clicks : list control := CRefreshCa :: map CSelectCa (ca_choices v).
Definition toggle_clicks : list control := [CExpert; CSwitch SUdp] ++ if expert v then [CSwitch SInsecure; CSwitch SPathMtu] else [].
Definition storage_clicks : list control :=
  (if required form then [CSave] else []) ++ if bool_decide (is_Some (dr_saved (vw_draft v))) then [CLoad; CClear] else [].
Definition speed_clicks : list control :=
  if bool_decide (us_phase status = str "Connected") then [CSpeedtest Download; CSpeedtest Upload] else [].

Lemma clicks_home_status :
  clicks (home_status parse_url utf8_error v m now) = if required form || should_offer_disconnect (us_phase status) then [CPrimary] else [].
Proof.
  unfold home_status, StatusPill, MetricCard, StatusLine. collect.
  by destruct (required form), (should_offer_disconnect (us_phase status)).
Qed.
Lemma clicks_nodes_library :
  clicks (nodes_library v)
  = map CFilter [FilterAll; FilterActive; FilterSaved; FilterImported]
    ++ concat (imap (fun i card => if bool_decide (is_Some (nc_form card)) then [CCard i] else []) (shown_cards v)).
Proof.
  unfold nodes_library, SectionHeader, EmptyState. collect. cbn [map app]. do 4 f_equal.
  destruct (shown_cards v) as [|card cards] eqn:E; [done|]. cbn [is_empty]. rewrite flat_map_concat_map. f_equal.
  change (map clicks) with (fmap (M:=list) clicks). rewrite fmap_imap. apply imap_ext. intros i c _. unfold compose.
  by rewrite clicks_NodeItemCard, if_negb.
Qed.
Lemma clicks_nodes_import : clicks (nodes_import v) = (if blank (fm_import_uri form) then [] else [CImportUri]) ++ [CShowStats].
Proof. unfold nodes_import, SectionHeader, PrimaryButton. collect. done. Qed.
Lemma clicks_ca directory : clicks (CaSelector directory (cc_files (dr_catalog (vw_draft v))) (fm_ca_path form) CSelectCa CRefreshCa) = ca_clicks.
Proof.
  rewrite clicks_CaSelector. unfold ca_clicks, ca_choices. rewrite map_app, map_map. by destruct (blank (fm_ca_path form)).
Qed.
Lemma clicks_nodes_draft : clicks (nodes_draft parse_url utf8_error v) = (if expert v then ca_clicks else []) ++ toggle_clicks.
Proof. unfold nodes_draft, SectionHeader, FieldRow. collect. by rewrite clicks_ca. Qed.
Lemma clicks_settings_draft : clicks (settings_draft v) = toggle_clicks ++ if expert v then ca_clicks else [].
Proof. unfold settings_draft, SectionHeader, FieldRow. collect. by rewrite clicks_ca. Qed.
Lemma clicks_nodes_storage : clicks (nodes_storage parse_url utf8_error v) = storage_clicks.
Proof.
  unfold nodes_storage, SectionHeader, PrimaryButton. collect. unfold storage_clicks. by destruct (bool_decide (is_Some _)).
Qed.
Lemma clicks_settings_storage : clicks (settings_storage parse_url utf8_error v) = storage_clicks.
Proof.
  unfold settings_storage, SectionHeader, PrimaryButton. collect. unfold storage_clicks. by destruct (bool_decide (is_Some _)).
Qed.
Lemma clicks_stats_timeline : clicks (stats_timeline v logs now) = speed_clicks.
Proof.
  unfold stats_timeline, SectionHeader, PrimaryButton, EmptyState, ActivityRow. collect. rewrite flat_map_nil, if_same by done.
  unfold speed_clicks. by destruct (bool_decide _).
Qed.
Lemma clicks_settings_diagnostics :
  clicks (settings_diagnostics v logs now) = CDiagnostics :: if nv_diagnostics (vw_nav v) then speed_clicks else [].
Proof.
  unfold settings_diagnostics, SectionHeader, PrimaryButton, EmptyState, ActivityRow, StatusLine, StatusPill. collect.
  rewrite flat_map_nil, if_same by done. unfold speed_clicks. collect. by destruct (bool_decide _).
Qed.
Lemma clicks_settings_import :
  clicks (settings_import v) = (if blank (fm_import_uri form) then [] else [CImportPaste]) ++ [CPickConfig; CPickCa].
Proof. unfold settings_import, SectionHeader, PrimaryButton. collect. done. Qed.
Lemma clicks_settings_vpn : clicks (settings_vpn v automation) = [CRequestPermission; CVpnService].
Proof. unfold settings_vpn, SectionHeader, SettingRow, StatusPill. collect. done. Qed.

Definition draft_fields : list field :=
  [FServer; FAuth; FObfsPassword; FSni]
  ++ if expert v then [FCaPath; FPin; FBandwidthUp; FBandwidthDown; FInitStream; FMaxStream; FInitConn; FMaxConn; FIdleTimeout; FKeepAlive] else [].
(** The clicks and inputs a page offers. *)
Definition page_clicks : list control :=
  match nv_tab (vw_nav v) with
  | Home => if required form || should_offer_disconnect (us_phase status) then [CPrimary] else []
  | Nodes =>
      map CFilter [FilterAll; FilterActive; FilterSaved; FilterImported]
      ++ concat (imap (fun i card => if bool_decide (is_Some (nc_form card)) then [CCard i] else []) (shown_cards v))
      ++ (if blank (fm_import_uri form) then [] else [CImportUri]) ++ [CShowStats]
      ++ (if expert v then ca_clicks else []) ++ toggle_clicks ++ storage_clicks
  | Stats => speed_clicks
  | Settings =>
      (if blank (fm_import_uri form) then [] else [CImportPaste]) ++ [CPickConfig; CPickCa]
      ++ toggle_clicks ++ (if expert v then ca_clicks else []) ++ storage_clicks ++ [CRequestPermission; CVpnService]
      ++ CDiagnostics :: if nv_diagnostics (vw_nav v) then speed_clicks else []
  end.
Definition page_inputs : list (bytes → control) :=
  match nv_tab (vw_nav v) with
  | Home | Stats => []
  | Nodes | Settings =>
      (if decide (nv_tab (vw_nav v) = Nodes) then [CSearch] else []) ++ [CEditImport]
      ++ map CField draft_fields
  end.
Abbreviation this := (shell parse_url utf8_error CARGO_PKG_VERSION v m logs automation now score).
Abbreviation this_page := (page parse_url utf8_error CARGO_PKG_VERSION v m logs automation now score (nv_tab (vw_nav v))).
Lemma clicks_page : clicks this_page = page_clicks.
Proof.
  unfold page, page_clicks. destruct (nv_tab (vw_nav v)); cbn [clicks flat_map].
  - rewrite clicks_home_status. unfold home_summary, SectionHeader, StatusLine. collect. done.
  - rewrite clicks_nodes_library, clicks_nodes_import, clicks_nodes_draft, clicks_nodes_storage. by rewrite app_nil_r, <- !app_assoc.
  - rewrite clicks_stats_timeline. unfold stats_counters, stats_overview, stats_health, stats_session, SectionHeader, StatusLine, MetricCard, ProgressMetric.
    collect. done.
  - rewrite clicks_settings_import, clicks_settings_draft, clicks_settings_storage, clicks_settings_vpn, clicks_settings_diagnostics.
    unfold settings_about, SectionHeader, StatusLine. collect. by rewrite <- !app_assoc.
Qed.
Lemma clicks_shell : clicks this = CTopBar :: page_clicks.
Proof. unfold shell. destruct (page_header v). unfold TopBar. collect. by rewrite clicks_page. Qed.
Lemma inputs_nodes_library : inputs (nodes_library v) = [CSearch].
Proof.
  unfold nodes_library, SectionHeader, EmptyState. collect. f_equal. destruct (is_empty (shown_cards v)); [done|].
  rewrite flat_map_concat_map. change (map inputs) with (fmap (M:=list) inputs). rewrite fmap_imap.
  apply concat_nil_Forall, Forall_lookup. intros i x Hx. rewrite list_lookup_imap in Hx.
  destruct (shown_cards v !! i); [|done]. injection Hx as <-. unfold compose, NodeItemCard, StatusPill. collect. by apply flat_map_nil.
Qed.
Lemma inputs_page : inputs this_page = page_inputs.
Proof.
  unfold page, page_inputs. destruct (nv_tab (vw_nav v)); cbn [inputs flat_map].
  - unfold home_status, home_summary, SectionHeader, StatusLine, StatusPill, MetricCard. collect. done.
  - rewrite inputs_nodes_library, decide_True by done. unfold nodes_import, nodes_draft, nodes_storage, SectionHeader, PrimaryButton, FieldRow.
    collect. rewrite inputs_CaSelector. unfold draft_fields. by destruct (expert v).
  - unfold stats_counters, stats_overview, stats_health, stats_session, stats_timeline, SectionHeader, StatusLine, MetricCard, ProgressMetric,
      PrimaryButton, EmptyState, ActivityRow. collect. by rewrite flat_map_nil, if_same.
  - rewrite decide_False by done. unfold settings_import, settings_draft, settings_storage, settings_vpn, settings_diagnostics, settings_about,
      SectionHeader, StatusLine, PrimaryButton, FieldRow, SettingRow, StatusPill, EmptyState, ActivityRow.
    collect. rewrite inputs_CaSelector, flat_map_nil, !if_same by done. collect. unfold draft_fields. by destruct (expert v).
Qed.
Lemma inputs_shell : inputs this = page_inputs.
Proof. unfold shell. destruct (page_header v). unfold TopBar. collect. by rewrite inputs_page. Qed.

(** *** What is offered *)

Lemma elem_of_if {A} (x : A) (b : bool) l : x ∈ (if b then l else []) ↔ b = true ∧ x ∈ l.
Proof. destruct b; [by split; [|intros [_ ?]]|]. split; [by intros ?%not_elem_of_nil|by intros [? _]]. Qed.
Lemma elem_of_unless {A} (x : A) (b : bool) l : x ∈ (if b then [] else l) ↔ b = false ∧ x ∈ l.
Proof. destruct b; [|by split; [|intros [_ ?]]]. split; [by intros ?%not_elem_of_nil|by intros [? _]]. Qed.
Lemma elem_of_cards c :
  c ∈ concat (imap (fun i card => if bool_decide (is_Some (nc_form card)) then [CCard i] else []) (shown_cards v))
  ↔ ∃ i, c = CCard i ∧ is_Some (card ← shown_cards v !! i; nc_form card).
Proof.
  rewrite list_elem_of_In, in_concat. split.
  - intros (l & Hl%list_elem_of_In & Hc%list_elem_of_In). apply list_elem_of_lookup in Hl as (i & Hi). rewrite list_lookup_imap in Hi.
    exists i. destruct (shown_cards v !! i) as [card|]; [|done]. injection Hi as <-. apply elem_of_if in Hc as [Hb Hc].
    apply bool_decide_eq_true in Hb. by apply list_elem_of_singleton in Hc.
  - intros (i & -> & Hc). destruct (shown_cards v !! i) as [card|] eqn:E; [|by destruct Hc].
    exists [CCard i]. split; [|by left]. apply list_elem_of_In, list_elem_of_lookup. exists i. rewrite list_lookup_imap, E. cbn.
    by rewrite bool_decide_eq_true_2.
Qed.
Lemma elem_of_ca c : c ∈ ca_clicks ↔ c = CRefreshCa ∨ ∃ path, c = CSelectCa path ∧ path ∈ ca_choices v.
Proof. unfold ca_clicks. rewrite elem_of_cons. change (map CSelectCa) with (fmap (M:=list) CSelectCa). by rewrite list_elem_of_fmap. Qed.
Lemma elem_of_fields k : k ∈ draft_fields ↔ primary_field k || expert v = true.
Proof. unfold draft_fields. by destruct (expert v), k; rewrite <- (bool_decide_spec (_ ∈ _)). Qed.
(** Everything the rendering offers. *)
Definition offered (c : control) : Prop :=
  c = CTopBar ∨ c ∈ page_clicks ∨ Exists (fun oninput => ∃ text, c = oninput text) page_inputs.
Lemma shell_offers c : offers this c ↔ offered c.
Proof. unfold offers, offered. rewrite clicks_shell, inputs_shell, elem_of_cons. tauto. Qed.
End offered.
Lemma offered_inputs v c :
  Exists (fun oninput => ∃ text, c = oninput text) (page_inputs v) ↔
  (on_tab Nodes v = true ∧ ∃ text, c = CSearch text)
  ∨ (on_draft_pages v = true ∧ ((∃ text, c = CEditImport text) ∨ ∃ k, primary_field k || expert v = true ∧ ∃ text, c = CField k text)).
Proof.
  assert (Exists (fun oninput => ∃ text, c = oninput text) ([CEditImport] ++ map CField (draft_fields v)) ↔
    (∃ text, c = CEditImport text) ∨ ∃ k, primary_field k || expert v = true ∧ ∃ text, c = CField k text) as Hd.
  { rewrite Exists_app, Exists_cons, Exists_nil, (Exists_fmap CField), Exists_exists. setoid_rewrite elem_of_fields. tauto. }
  unfold page_inputs, on_tab, on_draft_pages.
  destruct (nv_tab (vw_nav v)) eqn:E; rewrite ?Exists_nil, ?(Exists_app _ (if decide _ then _ else _)), ?Hd.
  - rewrite !bool_decide_eq_false_2 by naive_solver. naive_solver.
  - rewrite decide_True, !bool_decide_eq_true_2, Exists_cons, Exists_nil by tauto. tauto.
  - rewrite !bool_decide_eq_false_2 by naive_solver. naive_solver.
  - rewrite decide_False, (bool_decide_eq_false_2 (Settings = Nodes)), bool_decide_eq_true_2, Exists_nil by (done || tauto). naive_solver.
Qed.
