(* ===== verification/ScreenSafety.v ===== *)
(** * What the screen offers and displays

    The theorems about the rendering of the mobile application (Screen.v): the
    controls that a rendering offers are the turns a user can make in the model
    of the component's handlers (MobileApp.v), and what it displays does not
    depend on the secrets of the draft and of the saved profile, except for the
    two inputs in which those of the draft are edited. *)
From S2P Require Import Prelude RustStr Limit Net HttpProxy Config Anyhow MobileForm MobileStatus Controller MobileView MobileApp Style Screen.
Local Open Scope Z_scope.

(** *** The controls of each list *)

Section correct.
Context (parse_url : bytes → outcome bytes Url) (utf8_error : bytes → bytes) (v : View).
Abbreviation required := (has_required_connection_fields parse_url utf8_error).
Ltac members := rewrite ?elem_of_app, ?elem_of_if, ?elem_of_unless, ?elem_of_cons, ?elem_of_nil.
Ltac by_constructor := members; naive_solver.

Lemma shown_toggle c :
  c ∈ toggle_clicks v ↔ match c with CExpert | CSwitch SUdp => True | CSwitch _ => expert v = true | _ => False end.
Proof. unfold toggle_clicks. destruct c; try destruct k; by_constructor. Qed.
Lemma shown_storage c :
  c ∈ storage_clicks parse_url utf8_error v ↔
  match c with CSave => required (dr_form (vw_draft v)) = true | CLoad | CClear => is_Some (dr_saved (vw_draft v)) | _ => False end.
Proof. unfold storage_clicks. members. rewrite bool_decide_eq_true. destruct c; naive_solver. Qed.
Lemma shown_speed c :
  c ∈ speed_clicks v ↔ match c with CSpeedtest _ => us_phase (vw_status v) = str "Connected" | _ => False end.
Proof. unfold speed_clicks. members. rewrite bool_decide_eq_true. destruct c as [| | | | | | | | | | | | | | | |[]| | | | | | |]; naive_solver. Qed.
Lemma shown_ca c :
  c ∈ (if expert v then ca_clicks v else []) ↔
  match c with CRefreshCa => expert v = true | CSelectCa path => expert v = true ∧ path ∈ ca_choices v | _ => False end.
Proof. rewrite elem_of_if, elem_of_ca. destruct c; naive_solver. Qed.
Lemma shown_cards_clicks c :
  c ∈ concat (imap (fun i card => if bool_decide (is_Some (nc_form card)) then [CCard i] else []) (shown_cards v)) ↔
  match c with CCard i => is_Some (card ← shown_cards v !! i; nc_form card) | _ => False end.
Proof. rewrite elem_of_cards. destruct c; naive_solver. Qed.
Lemma shown_filters c : c ∈ map CFilter [FilterAll; FilterActive; FilterSaved; FilterImported] ↔ match c with CFilter _ => True | _ => False end.
Proof. cbn. members. destruct c as [| | |[]| | | | | | | | | | | | | | | | | | | |]; naive_solver. Qed.
Lemma shown_home c :
  c ∈ (if required (dr_form (vw_draft v)) || should_offer_disconnect (us_phase (vw_status v)) then [CPrimary] else []) ↔
  match c with CPrimary => required (dr_form (vw_draft v)) || should_offer_disconnect (us_phase (vw_status v)) = true | _ => False end.
Proof. members. destruct c; naive_solver. Qed.
Lemma shown_nodes_import c :
  c ∈ (if blank (fm_import_uri (dr_form (vw_draft v))) then [] else [CImportUri]) ++ [CShowStats] ↔
  match c with CImportUri => blank (fm_import_uri (dr_form (vw_draft v))) = false | CShowStats => True | _ => False end.
Proof. members. destruct c; naive_solver. Qed.
Lemma shown_settings_import c :
  c ∈ (if blank (fm_import_uri (dr_form (vw_draft v))) then [] else [CImportPaste]) ++ [CPickConfig; CPickCa] ↔
  match c with CImportPaste => blank (fm_import_uri (dr_form (vw_draft v))) = false | CPickConfig | CPickCa => True | _ => False end.
Proof. members. destruct c; naive_solver. Qed.
Lemma shown_vpn c : c ∈ [CRequestPermission; CVpnService] ↔ match c with CRequestPermission | CVpnService => True | _ => False end.
Proof. members. destruct c; naive_solver. Qed.
Lemma shown_diagnostics c :
  c ∈ (CDiagnostics :: if nv_diagnostics (vw_nav v) then speed_clicks v else []) ↔
  match c with
  | CDiagnostics => True
  | CSpeedtest _ => nv_diagnostics (vw_nav v) = true ∧ us_phase (vw_status v) = str "Connected"
  | _ => False
  end.
Proof. rewrite elem_of_cons, elem_of_if, shown_speed. destruct c; naive_solver. Qed.
Lemma shown_topbar c : c = CTopBar ↔ match c with CTopBar => True | _ => False end.
Proof. destruct c; naive_solver. Qed.
Lemma shown_inputs c :
  Exists (fun oninput => ∃ text, c = oninput text) (page_inputs v) ↔
  match c with
  | CSearch _ => on_tab Nodes v = true
  | CEditImport _ => on_draft_pages v = true
  | CField k _ => on_draft_pages v = true ∧ primary_field k || expert v = true
  | _ => False
  end.
Proof. rewrite offered_inputs. destruct c; naive_solver. Qed.

Definition tab_eqb (a b : AppTab) : bool :=
  match a, b with Home, Home | Nodes, Nodes | Stats, Stats | Settings, Settings => true | _, _ => false end.
Lemma on_tab_eqb tab : on_tab tab v = tab_eqb (nv_tab (vw_nav v)) tab.
Proof. unfold on_tab. by destruct (nv_tab (vw_nav v)), tab. Qed.
Lemma on_draft_pages_eqb : on_draft_pages v = tab_eqb (nv_tab (vw_nav v)) Nodes || tab_eqb (nv_tab (vw_nav v)) Settings.
Proof. unfold on_draft_pages. by destruct (nv_tab (vw_nav v)). Qed.
(** Both sides of one turn, once the page is known. *)
Ltac same_turn t Hc :=
  destruct t; try discriminate Hc; injection Hc as <-; cbn [enabled]; rewrite ?on_tab_eqb, ?on_draft_pages_eqb;
  try match goal with k : switch |- _ => destruct k end;
  match goal with E : nv_tab _ = _ |- _ => rewrite ?E end; cbn [tab_eqb andb orb show_udp_toggle_in_primary_controls show_expert_transport_toggles];
  rewrite ?andb_true_iff, ?bool_decide_eq_true, ?negb_true_iff; first [tauto | intuition discriminate].

(** The turns a user can make are those the rendering offers. *)
Lemma offered_enabled t c : control_of t = Some c → (enabled parse_url utf8_error t v = true ↔ offered parse_url utf8_error v c).
Proof.
  intros Hc. unfold offered, page_clicks. rewrite shown_topbar, shown_inputs. destruct (nv_tab (vw_nav v)) eqn:E.
  - rewrite shown_home. same_turn t Hc.
  - rewrite 2!elem_of_app, shown_filters, shown_cards_clicks.
    rewrite (app_assoc (if blank (fm_import_uri (dr_form (vw_draft v))) then [] else [CImportUri])), elem_of_app, shown_nodes_import.
    rewrite !elem_of_app, shown_ca, shown_toggle, shown_storage. same_turn t Hc.
  - rewrite shown_speed. same_turn t Hc.
  - rewrite (app_assoc (if blank (fm_import_uri (dr_form (vw_draft v))) then [] else [CImportPaste])), elem_of_app, shown_settings_import,
       !elem_of_app, shown_toggle, shown_ca, shown_storage, shown_vpn,
      shown_diagnostics. same_turn t Hc.
Qed.
(** The rendering offers nothing else. *)
Lemma offered_turn c : offered parse_url utf8_error v c → ∃ t, control_of t = Some c.
Proof.
  destruct c;
    [by exists UTopBar|by exists (UPrimary 0)|by exists (USearch text)|by exists (UFilter f)|by exists (UCard index)|by exists (UEditImport text)
    |by exists (UImportUri 0)|by exists UShowStats|by exists (UField k text)|by exists (USwitch k)|by exists UExpert|by exists (USelectCa path 0)
    |by exists (URefreshCa (inl catalog_default) 0)|by exists (USave (inl ()) 0)|by exists (ULoad (inl None) 0)|by exists (UClear (inl ()) 0)
    |by exists (USpeedtest direction)|by exists (UImportPaste 0)|by exists (UPickConfig (inl ()) 0)|by exists (UPickCa (inl ()) 0)
    |by exists URequestPermission|by exists UVpnService|by exists UDiagnostics|].
  intros H. exfalso. unfold offered, page_clicks in H. rewrite shown_topbar, shown_inputs in H. destruct (nv_tab (vw_nav v)).
  - rewrite shown_home in H. tauto.
  - rewrite !elem_of_app, shown_filters, shown_cards_clicks, elem_of_unless, shown_ca, shown_toggle, shown_storage, !list_elem_of_singleton in H.
    intuition discriminate.
  - rewrite shown_speed in H. tauto.
  - rewrite !elem_of_app, elem_of_unless, shown_ca, shown_toggle, shown_storage, shown_vpn, shown_diagnostics, !elem_of_cons, elem_of_nil in H.
    intuition discriminate.
Qed.
End correct.

(** C37: the screen offers exactly the turns of the model. Whatever a rendering
    of the component shows, a user can make a turn on that rendering, that is the
    step of the user interface for it is defined, exactly if the tree has an
    enabled button or an input for it; and every enabled button and input of the
    tree is a turn of the model. *)
Theorem screen_offers_turns parse_url utf8_error parse_yaml path_exists format_duration version checks m logs automation now a page :
  render_screen parse_url utf8_error version checks (ap_view a) m logs automation now = Ret page →
  (∀ t c, control_of t = Some c →
     (ui_step parse_url utf8_error parse_yaml path_exists format_duration t a ≠ Err () ↔ offers page c)) ∧
  (∀ c, offers page c → ∃ t, control_of t = Some c).
Proof.
  intros H. apply bind_Ret_inv in H as (score & _ & [= <-]). split.
  - intros t c Hc. rewrite shell_offers, <- (offered_enabled _ _ _ t c Hc). unfold ui_step.
    destruct (enabled parse_url utf8_error t (ap_view a)); cbn [negb]; [|done]. split; [done|]. intros _.
    destruct t; try done; [unfold import_uri_click; by destruct (import_share_uri _ _ _)|unfold import_paste_click].
    by destruct (apply_settings_import _ _ _ _ _ _ _) as [[? []]| |].
  - intros c Hc. rewrite shell_offers in Hc. by eapply offered_turn.
Qed.

(** ** What is displayed *)

(** A form with other secrets. *)
Definition with_secrets (auth obfs_password : bytes) (f : FormState) : FormState :=
  mkForm (fm_import_uri f) (fm_server f) auth obfs_password (fm_sni f) (fm_ca_path f) (fm_pin_sha256 f) (fm_bandwidth_up f)
    (fm_bandwidth_down f) (fm_init_stream_window f) (fm_max_stream_window f) (fm_init_conn_window f) (fm_max_conn_window f)
    (fm_max_idle_timeout f) (fm_keep_alive_period f) (fm_local_udp_enabled f) (fm_disable_path_mtu_discovery f) (fm_insecure_tls f).
(** The secrets are set, or not, as before. *)
Definition same_presence (auth obfs_password : bytes) (f : FormState) : Prop :=
  blank auth = blank (fm_auth f) ∧ blank obfs_password = blank (fm_obfs_password f).

Lemma required_secrets parse_url utf8_error auth obfs f :
  same_presence auth obfs f →
  has_required_connection_fields parse_url utf8_error (with_secrets auth obfs f) = has_required_connection_fields parse_url utf8_error f.
Proof.
  intros [Ha Ho]. unfold has_required_connection_fields, normalize_form. cbn [with_secrets fm_server fm_auth fm_obfs_password].
  destruct (is_share_uri (trim (fm_server f))); cbn [mbind outcome_bind with_secrets fm_server fm_auth].
  - destruct (import_share_uri parse_url utf8_error (fm_server f)) as [i| |]; cbn [mbind outcome_bind fm_server fm_auth]; [|done..].
    rewrite Ha. destruct (blank (fm_server i)); [done|]. destruct (blank (fm_auth f)) eqn:E; [by destruct (blank (fm_auth i))|]. by rewrite Ha, E.
  - destruct (blank (fm_server f)); [done|]. rewrite Ha. by destruct (blank (fm_auth f)).
Qed.
Lemma prefill_secrets auth obfs f :
  same_presence auth obfs f → has_meaningful_form_prefill (with_secrets auth obfs f) = has_meaningful_form_prefill f.
Proof.
  intros [Ha Ho]. unfold has_meaningful_form_prefill, form_texts, with_secrets.
  cbn [forallb fm_import_uri fm_server fm_auth fm_obfs_password fm_sni fm_ca_path fm_pin_sha256 fm_bandwidth_up fm_bandwidth_down
    fm_init_stream_window fm_max_stream_window fm_init_conn_window fm_max_conn_window fm_max_idle_timeout fm_keep_alive_period
    fm_local_udp_enabled fm_disable_path_mtu_discovery fm_insecure_tls]. by rewrite Ha, Ho.
Qed.

Lemma subtitle_secrets auth obfs f : same_presence auth obfs f → card_subtitle (with_secrets auth obfs f) = card_subtitle f.
Proof. intros [Ha _]. unfold card_subtitle, config_presence. cbn [with_secrets fm_server fm_auth]. by rewrite Ha. Qed.

(** The view of a draft with other secrets, in the form and in the saved profile. *)
Definition other_secrets (auth obfs saved_auth saved_obfs : bytes) (v : View) : View :=
  let d := vw_draft v in
  mkView (mkDraft (with_secrets auth obfs (dr_form d)) (with_secrets saved_auth saved_obfs <$> dr_saved d) (dr_config_name d) (dr_cert_name d)
    (dr_catalog d)) (vw_status v) (vw_nav v).
(** The card without the secrets of its form. *)
Definition card_public (c : NodeCardData) : NodeCardData :=
  mkCard (nc_kind c) (nc_title c) (nc_subtitle c) (nc_meta c) (nc_tags c) (nc_selected c) (nc_tone c) (with_secrets [] [] <$> nc_form c) (nc_action_label c).

Lemma map_filter_public (P : NodeCardData → Prop) `{∀ c, Decision (P c)} l :
  (∀ c, P c ↔ P (card_public c)) → map card_public (filter P l) = filter P (map card_public l).
Proof.
  intros HP. induction l as [|c l IH]; [done|]. cbn [map]. rewrite !filter_cons. destruct (decide (P c)), (decide (P (card_public c))); cbn [map].
  - by rewrite IH.
  - by rewrite HP in p.
  - by rewrite <- HP in p.
  - done.
Qed.

Section secrets.
Context (parse_url : bytes → outcome bytes Url) (utf8_error : bytes → bytes) (CARGO_PKG_VERSION : bytes).
Context (v : View) (m : UiMetrics) (logs : list LogEntry) (automation : LaunchAutomation) (now score : Z).
Context (auth obfs saved_auth saved_obfs : bytes).
Abbreviation form := (dr_form (vw_draft v)).
Abbreviation v' := (other_secrets auth obfs saved_auth saved_obfs v).
Hypothesis form_presence : same_presence auth obfs form.
Hypothesis saved_presence : ∀ saved, dr_saved (vw_draft v) = Some saved → same_presence saved_auth saved_obfs saved.
Hypothesis saved_same : ∀ saved, dr_saved (vw_draft v) = Some saved →
  (with_secrets saved_auth saved_obfs saved = with_secrets auth obfs form ↔ saved = form).

Lemma cards_secrets :
  map card_public (build_node_cards (dr_form (vw_draft v')) (dr_saved (vw_draft v')) (vw_status v'))
  = map card_public (build_node_cards form (dr_saved (vw_draft v)) (vw_status v)).
Proof.
  change (dr_form (vw_draft v')) with (with_secrets auth obfs form).
  change (dr_saved (vw_draft v')) with (with_secrets saved_auth saved_obfs <$> dr_saved (vw_draft v)).
  unfold build_node_cards. rewrite !map_app. f_equal; [|f_equal].
  - rewrite subtitle_secrets by done. destruct form_presence as [Ha Ho].
    change (fm_obfs_password (with_secrets auth obfs form)) with obfs. by rewrite Ho.
  - destruct (dr_saved (vw_draft v)) as [saved|] eqn:E; [|done]. cbn [fmap option_fmap option_map]. rewrite subtitle_secrets by by apply saved_presence.
    rewrite (bool_decide_ext (with_secrets saved_auth saved_obfs saved = with_secrets auth obfs form) (saved = form)) by by apply saved_same.
    done.
  - change (fm_import_uri (with_secrets auth obfs form)) with (fm_import_uri form). by destruct (blank (fm_import_uri form)).
Qed.
Lemma shown_secrets : map card_public (shown_cards v') = map card_public (shown_cards v).
Proof.
  unfold shown_cards. rewrite !map_filter_public by done. rewrite cards_secrets. done.
Qed.

Lemma config_label_secrets : current_config_label v' = current_config_label v.
Proof.
  unfold current_config_label. change (dr_saved (vw_draft v')) with (with_secrets saved_auth saved_obfs <$> dr_saved (vw_draft v)).
  change (dr_form (vw_draft v')) with (with_secrets auth obfs form). rewrite prefill_secrets by done. by destruct (dr_saved (vw_draft v)).
Qed.
(** The library is the same, and so is every page but for the inputs of the
    secrets. *)
Definition card_html (i : nat) (card : NodeCardData) : html :=
  NodeItemCard (nc_title card) (nc_subtitle card) (nc_meta card) (nc_tags card) (nc_selected card) (nc_tone card) (nc_action_label card)
    (negb (bool_decide (is_Some (nc_form card)))) (CCard i).
Lemma card_html_public i card : card_html i (card_public card) = card_html i card.
Proof. unfold card_html. cbn. by destruct (nc_form card). Qed.
Lemma cards_html_public cards : imap card_html cards = imap card_html (map card_public cards).
Proof.
  change (map card_public cards) with (card_public <$> cards). rewrite imap_fmap. apply imap_ext. intros i card _. symmetry. apply card_html_public.
Qed.
Lemma library_secrets : nodes_library v' = nodes_library v.
Proof.
  unfold nodes_library. fold card_html. rewrite (cards_html_public (shown_cards v')), (cards_html_public (shown_cards v)), shown_secrets.
  assert (is_empty (shown_cards v') = is_empty (shown_cards v)) as -> by
    (pose proof shown_secrets as E; by destruct (shown_cards v'), (shown_cards v)).
  done.
Qed.
Lemma home_secrets : home_status parse_url utf8_error v' = home_status parse_url utf8_error v.
Proof.
  unfold home_status. rewrite config_label_secrets. change (dr_form (vw_draft v')) with (with_secrets auth obfs form).
  rewrite required_secrets by done. reflexivity.
Qed.
Lemma page_masked :
  mask (page parse_url utf8_error CARGO_PKG_VERSION v' m logs automation now score (nv_tab (vw_nav v)))
  = mask (page parse_url utf8_error CARGO_PKG_VERSION v m logs automation now score (nv_tab (vw_nav v))).
Proof.
  unfold page. destruct (nv_tab (vw_nav v)); cbn [mask map].
  - rewrite home_secrets. reflexivity.
  - rewrite library_secrets. do 3 f_equal. unfold nodes_draft. change (dr_form (vw_draft v')) with (with_secrets auth obfs form).
    unfold nodes_storage. change (dr_form (vw_draft v')) with (with_secrets auth obfs form). change (dr_saved (vw_draft v')) with (with_secrets saved_auth saved_obfs <$> dr_saved (vw_draft v)).
    rewrite required_secrets by done. by destruct (dr_saved (vw_draft v)).
  - reflexivity.
  - unfold settings_storage. change (dr_form (vw_draft v')) with (with_secrets auth obfs form). change (dr_saved (vw_draft v')) with (with_secrets saved_auth saved_obfs <$> dr_saved (vw_draft v)).
    rewrite required_secrets by done. by destruct (dr_saved (vw_draft v)).
Qed.
Lemma page_same :
  on_draft_pages v = false →
  page parse_url utf8_error CARGO_PKG_VERSION v' m logs automation now score (nv_tab (vw_nav v))
  = page parse_url utf8_error CARGO_PKG_VERSION v m logs automation now score (nv_tab (vw_nav v)).
Proof.
  rewrite on_draft_pages_eqb. unfold page. destruct (nv_tab (vw_nav v)); try done; intros _.
  rewrite home_secrets. reflexivity.
Qed.
End secrets.

(** *** What is shown of them *)

(** A tree without an input of a secret shows none. *)
Lemma no_secret_inputs h : Forall (fun oninput => secret_input oninput = false) (inputs h) → secrets_in_clear h = [].
Proof.
  revert h. fix IH 1. intros [s|tag attrs children|attrs disabled onclick children|tag attrs oninput]; cbn [inputs secrets_in_clear]; [done| | |].
  3: { intros H. inversion H as [|? ? Hx _]. by rewrite Hx. }
  all: induction children as [|h children IHc]; cbn [flat_map]; [done|]; intros [Hh Hc]%Forall_app; rewrite (IH h Hh); by apply IHc.
Qed.
Lemma field_row_clear label placeholder value k :
  secrets_in_clear (FieldRow label placeholder value (CField k)) = match k with FAuth | FObfsPassword => [value] | _ => [] end.
Proof. by destruct k. Qed.
Lemma el_clear tag attrs children : secrets_in_clear (El tag attrs children) = flat_map secrets_in_clear children.
Proof. done. Qed.
Ltac clear_tree :=
  repeat first [progress cbn [secrets_in_clear flat_map app] | rewrite field_row_clear
    | progress rewrite ?flat_map_app, ?flat_map_if, ?flat_map_map, ?if_same, ?app_nil_r].
Section clear.
Context (parse_url : bytes → outcome bytes Url) (utf8_error : bytes → bytes) (version : bytes).
Context (v : View) (m : UiMetrics) (logs : list LogEntry) (automation : LaunchAutomation) (now score : Z).
Abbreviation form := (dr_form (vw_draft v)).

Lemma no_inputs_clear h : inputs h = [] → secrets_in_clear h = [].
Proof. intros Hh. apply no_secret_inputs. by rewrite Hh. Qed.
Lemma ca_selector_clear directory files selected onselect onrefresh : secrets_in_clear (CaSelector directory files selected onselect onrefresh) = [].
Proof. apply no_inputs_clear, inputs_CaSelector. Qed.
Lemma nodes_draft_clear : secrets_in_clear (nodes_draft parse_url utf8_error v) = [fm_auth form; fm_obfs_password form].
Proof. unfold nodes_draft, SectionHeader. clear_tree. rewrite ca_selector_clear. by clear_tree. Qed.
Lemma settings_draft_clear : secrets_in_clear (settings_draft v) = [fm_auth form; fm_obfs_password form].
Proof. unfold settings_draft, SectionHeader. clear_tree. rewrite ca_selector_clear. by clear_tree. Qed.
Lemma page_clear :
  secrets_in_clear (page parse_url utf8_error version v m logs automation now score (nv_tab (vw_nav v)))
  = if on_draft_pages v then [fm_auth form; fm_obfs_password form] else [].
Proof.
  rewrite on_draft_pages_eqb. pose proof (inputs_page parse_url utf8_error version v m logs automation now score) as Hin.
  unfold page_inputs in Hin. destruct (nv_tab (vw_nav v)) eqn:E; cbn [tab_eqb orb].
  1,3: by apply no_inputs_clear.
  - unfold page. rewrite el_clear. cbn [flat_map]. rewrite nodes_draft_clear, (no_secret_inputs (nodes_library v)), (no_secret_inputs (nodes_import v)).
    + done.
    + by repeat constructor.
    + rewrite inputs_nodes_library. by repeat constructor.
  - unfold page. rewrite el_clear. cbn [flat_map]. rewrite settings_draft_clear, (no_secret_inputs (settings_import v)) by by repeat constructor.
    cbn [app]. do 2 f_equal. rewrite !no_inputs_clear; try done.
    + unfold settings_diagnostics, SectionHeader, PrimaryButton, EmptyState, ActivityRow, StatusLine, StatusPill. collect.
      by rewrite flat_map_nil, !if_same.
    + unfold settings_vpn, SectionHeader, SettingRow, StatusPill. collect. done.
Qed.
Lemma shell_clear :
  secrets_in_clear (shell parse_url utf8_error version v m logs automation now score)
  = if on_draft_pages v then [fm_auth form; fm_obfs_password form] else [].
Proof.
  unfold shell. destruct (page_header v). unfold TopBar. cbn [secrets_in_clear flat_map app]. by rewrite page_clear, !app_nil_r.
Qed.
End clear.


(** ** Witnesses *)

(** The demonstration, with the library of nodes shown. *)
Definition demo_view : View :=
  mkView (vw_draft (ap_view demo_home)) (vw_status (ap_view demo_home)) (mkNav prefs_default Nodes Nodes false FilterAll []).
Definition demo_rendering (v : View) : outcome anyhow html :=
  render_screen no_url (fun _ => []) (str "0.1.0") true v metrics_default [] (mkAutomation false false false) 0.

Lemma screen_offers_turns_witness :
  ∃ page, demo_rendering (ap_view demo_home) = Ret page ∧ offers page CPrimary ∧ ¬ offers page CDiagnostics.
Proof.
  eexists. split; [reflexivity|].
  match goal with |- offers ?p _ ∧ _ => assert (demo_rendering (ap_view demo_home) = Ret p) as H by reflexivity end.
  destruct (screen_offers_turns no_url (fun _ => []) no_yaml (fun _ => false) (fun _ => []) _ _ _ _ _ _ demo_home _ H) as [Hall _].
  split; [apply (Hall (UPrimary 1)); [reflexivity|vm_compute; discriminate]|].
  intros Ho. apply (proj2 (Hall UDiagnostics CDiagnostics eq_refl)); [exact Ho|vm_compute; reflexivity].
Defined.
