(* ===== verification/Android.v ===== *)
(** * The Android side of the application ([mobile/android/MainActivity.kt])

    The activity and the VPN service: their preferences, the record of a managed
    VPN, launch extras, permissions and the service's life, as functions on the
    state of the process and of the phone. What the system decides (whether a VPN
    is allowed, whether an interface is established) is part of the state or an
    argument. Reads of the preferences can throw, as the platform does when a
    value has another type. A value an edit applies is read back at once; that
    it survives the process is a promise of the platform. *)
From S2P Require Import Prelude RustStr Limit.
Local Open Scope Z_scope.

(** ** Preferences *)

Inductive pref := PString (s : bytes) | PBool (b : bool) | PInt (n : Z).
Abbreviation Prefs := (gmap bytes pref).
(** What a read throws, as text. *)
Abbreviation exception := bytes.
Definition ClassCast : exception := str "java.lang.ClassCastException".

Definition getString (p : Prefs) (key : bytes) : outcome exception (option bytes) :=
  match p !! key with Some (PString s) => Ret (Some s) | None => Ret None | Some _ => Err ClassCast end.
Definition getBoolean (p : Prefs) (key : bytes) (default_value : bool) : outcome exception bool :=
  match p !! key with Some (PBool b) => Ret b | None => Ret default_value | Some _ => Err ClassCast end.
Definition getInt (p : Prefs) (key : bytes) (default_value : Z) : outcome exception Z :=
  match p !! key with Some (PInt n) => Ret n | None => Ret default_value | Some _ => Err ClassCast end.
(** A chain of puts, and of removes, that is applied. *)
Definition put_all (kvs : list (bytes * pref)) (p : Prefs) : Prefs := foldl (fun p kv => <[kv.1 := kv.2]> p) p kvs.
Definition remove_all (keys : list bytes) (p : Prefs) : Prefs := foldl (fun p k => delete k p) p keys.

(** ** Profiles *)

Record ManagedRuntimeProfile := mkProfile {
  mp_server : bytes;
  mp_auth : bytes;
  mp_obfsPassword : bytes;
  mp_sni : bytes;
  mp_caPath : bytes;
  mp_pinSha256 : bytes;
  mp_bandwidthUp : bytes;
  mp_bandwidthDown : bytes;
  mp_quicInitStreamReceiveWindow : bytes;
  mp_quicMaxStreamReceiveWindow : bytes;
  mp_quicInitConnectionReceiveWindow : bytes;
  mp_quicMaxConnectionReceiveWindow : bytes;
  mp_quicMaxIdleTimeout : bytes;
  mp_quicKeepAlivePeriod : bytes;
  mp_localUdpEnabled : bool;
  mp_quicDisablePathMtuDiscovery : bool;
  mp_insecureTls : bool
}.
Record ManagedRuntimeRecord := mkRecord { mr_profile : ManagedRuntimeProfile; mr_socksHost : bytes; mr_socksPort : Z }.

Definition KEY_PROFILE_SERVER : bytes := str "profile.server".
Definition KEY_PROFILE_AUTH : bytes := str "profile.auth".
Definition KEY_PROFILE_OBFS : bytes := str "profile.obfs".
Definition KEY_PROFILE_SNI : bytes := str "profile.sni".
Definition KEY_PROFILE_CA_PATH : bytes := str "profile.ca_path".
Definition KEY_PROFILE_PIN_SHA256 : bytes := str "profile.pin_sha256".
Definition KEY_PROFILE_BANDWIDTH_UP : bytes := str "profile.bandwidth.up".
Definition KEY_PROFILE_BANDWIDTH_DOWN : bytes := str "profile.bandwidth.down".
Definition KEY_PROFILE_QUIC_INIT_STREAM_RECEIVE_WINDOW : bytes := str "profile.quic.init_stream_receive_window".
Definition KEY_PROFILE_QUIC_MAX_STREAM_RECEIVE_WINDOW : bytes := str "profile.quic.max_stream_receive_window".
Definition KEY_PROFILE_QUIC_INIT_CONNECTION_RECEIVE_WINDOW : bytes := str "profile.quic.init_connection_receive_window".
Definition KEY_PROFILE_QUIC_MAX_CONNECTION_RECEIVE_WINDOW : bytes := str "profile.quic.max_connection_receive_window".
Definition KEY_PROFILE_QUIC_MAX_IDLE_TIMEOUT : bytes := str "profile.quic.max_idle_timeout".
Definition KEY_PROFILE_QUIC_KEEP_ALIVE_PERIOD : bytes := str "profile.quic.keep_alive_period".
Definition KEY_PROFILE_LOCAL_UDP_ENABLED : bytes := str "profile.local_udp_enabled".
Definition KEY_PROFILE_QUIC_DISABLE_PATH_MTU_DISCOVERY : bytes := str "profile.quic.disable_path_mtu_discovery".
Definition KEY_PROFILE_INSECURE_TLS : bytes := str "profile.insecure_tls".
Definition KEY_SERVER : bytes := str "managed.server".
Definition KEY_AUTH : bytes := str "managed.auth".
Definition KEY_OBFS : bytes := str "managed.obfs".
Definition KEY_SNI : bytes := str "managed.sni".
Definition KEY_CA_PATH : bytes := str "managed.ca_path".
Definition KEY_PIN_SHA256 : bytes := str "managed.pin_sha256".
Definition KEY_BANDWIDTH_UP : bytes := str "managed.bandwidth.up".
Definition KEY_BANDWIDTH_DOWN : bytes := str "managed.bandwidth.down".
Definition KEY_QUIC_INIT_STREAM_RECEIVE_WINDOW : bytes := str "managed.quic.init_stream_receive_window".
Definition KEY_QUIC_MAX_STREAM_RECEIVE_WINDOW : bytes := str "managed.quic.max_stream_receive_window".
Definition KEY_QUIC_INIT_CONNECTION_RECEIVE_WINDOW : bytes := str "managed.quic.init_connection_receive_window".
Definition KEY_QUIC_MAX_CONNECTION_RECEIVE_WINDOW : bytes := str "managed.quic.max_connection_receive_window".
Definition KEY_QUIC_MAX_IDLE_TIMEOUT : bytes := str "managed.quic.max_idle_timeout".
Definition KEY_QUIC_KEEP_ALIVE_PERIOD : bytes := str "managed.quic.keep_alive_period".
Definition KEY_LOCAL_UDP_ENABLED : bytes := str "managed.local_udp_enabled".
Definition KEY_QUIC_DISABLE_PATH_MTU_DISCOVERY : bytes := str "managed.quic.disable_path_mtu_discovery".
Definition KEY_INSECURE_TLS : bytes := str "managed.insecure_tls".
Definition KEY_SOCKS_HOST : bytes := str "managed.socks_host".
Definition KEY_SOCKS_PORT : bytes := str "managed.socks_port".

Definition profile_puts (profile : ManagedRuntimeProfile) : list (bytes * pref) :=
  [(KEY_PROFILE_SERVER, PString (mp_server profile)); (KEY_PROFILE_AUTH, PString (mp_auth profile));
   (KEY_PROFILE_OBFS, PString (mp_obfsPassword profile)); (KEY_PROFILE_SNI, PString (mp_sni profile));
   (KEY_PROFILE_CA_PATH, PString (mp_caPath profile)); (KEY_PROFILE_PIN_SHA256, PString (mp_pinSha256 profile));
   (KEY_PROFILE_BANDWIDTH_UP, PString (mp_bandwidthUp profile)); (KEY_PROFILE_BANDWIDTH_DOWN, PString (mp_bandwidthDown profile));
   (KEY_PROFILE_QUIC_INIT_STREAM_RECEIVE_WINDOW, PString (mp_quicInitStreamReceiveWindow profile));
   (KEY_PROFILE_QUIC_MAX_STREAM_RECEIVE_WINDOW, PString (mp_quicMaxStreamReceiveWindow profile));
   (KEY_PROFILE_QUIC_INIT_CONNECTION_RECEIVE_WINDOW, PString (mp_quicInitConnectionReceiveWindow profile));
   (KEY_PROFILE_QUIC_MAX_CONNECTION_RECEIVE_WINDOW, PString (mp_quicMaxConnectionReceiveWindow profile));
   (KEY_PROFILE_QUIC_MAX_IDLE_TIMEOUT, PString (mp_quicMaxIdleTimeout profile));
   (KEY_PROFILE_QUIC_KEEP_ALIVE_PERIOD, PString (mp_quicKeepAlivePeriod profile));
   (KEY_PROFILE_LOCAL_UDP_ENABLED, PBool (mp_localUdpEnabled profile));
   (KEY_PROFILE_QUIC_DISABLE_PATH_MTU_DISCOVERY, PBool (mp_quicDisablePathMtuDiscovery profile));
   (KEY_PROFILE_INSECURE_TLS, PBool (mp_insecureTls profile))].
Definition saveProfile (profile : ManagedRuntimeProfile) : Prefs → Prefs := put_all (profile_puts profile).
Definition PROFILE_KEYS : list bytes :=
  [KEY_PROFILE_SERVER; KEY_PROFILE_AUTH; KEY_PROFILE_OBFS; KEY_PROFILE_SNI; KEY_PROFILE_CA_PATH; KEY_PROFILE_PIN_SHA256;
   KEY_PROFILE_BANDWIDTH_UP; KEY_PROFILE_BANDWIDTH_DOWN; KEY_PROFILE_QUIC_INIT_STREAM_RECEIVE_WINDOW;
   KEY_PROFILE_QUIC_MAX_STREAM_RECEIVE_WINDOW; KEY_PROFILE_QUIC_INIT_CONNECTION_RECEIVE_WINDOW;
   KEY_PROFILE_QUIC_MAX_CONNECTION_RECEIVE_WINDOW; KEY_PROFILE_QUIC_MAX_IDLE_TIMEOUT; KEY_PROFILE_QUIC_KEEP_ALIVE_PERIOD;
   KEY_PROFILE_LOCAL_UDP_ENABLED; KEY_PROFILE_QUIC_DISABLE_PATH_MTU_DISCOVERY; KEY_PROFILE_INSECURE_TLS].
Definition clearSavedProfile : Prefs → Prefs := remove_all PROFILE_KEYS.

Definition record_puts (record : ManagedRuntimeRecord) : list (bytes * pref) :=
  let profile := mr_profile record in
  [(KEY_SERVER, PString (mp_server profile)); (KEY_AUTH, PString (mp_auth profile)); (KEY_OBFS, PString (mp_obfsPassword profile));
   (KEY_SNI, PString (mp_sni profile)); (KEY_CA_PATH, PString (mp_caPath profile)); (KEY_PIN_SHA256, PString (mp_pinSha256 profile));
   (KEY_BANDWIDTH_UP, PString (mp_bandwidthUp profile)); (KEY_BANDWIDTH_DOWN, PString (mp_bandwidthDown profile));
   (KEY_QUIC_INIT_STREAM_RECEIVE_WINDOW, PString (mp_quicInitStreamReceiveWindow profile));
   (KEY_QUIC_MAX_STREAM_RECEIVE_WINDOW, PString (mp_quicMaxStreamReceiveWindow profile));
   (KEY_QUIC_INIT_CONNECTION_RECEIVE_WINDOW, PString (mp_quicInitConnectionReceiveWindow profile));
   (KEY_QUIC_MAX_CONNECTION_RECEIVE_WINDOW, PString (mp_quicMaxConnectionReceiveWindow profile));
   (KEY_QUIC_MAX_IDLE_TIMEOUT, PString (mp_quicMaxIdleTimeout profile)); (KEY_QUIC_KEEP_ALIVE_PERIOD, PString (mp_quicKeepAlivePeriod profile));
   (KEY_LOCAL_UDP_ENABLED, PBool (mp_localUdpEnabled profile));
   (KEY_QUIC_DISABLE_PATH_MTU_DISCOVERY, PBool (mp_quicDisablePathMtuDiscovery profile));
   (KEY_INSECURE_TLS, PBool (mp_insecureTls profile)); (KEY_SOCKS_HOST, PString (mr_socksHost record));
   (KEY_SOCKS_PORT, PInt (mr_socksPort record))].
Definition saveManagedRecord (record : ManagedRuntimeRecord) : Prefs → Prefs := put_all (record_puts record).
Definition MANAGED_KEYS : list bytes :=
  [KEY_SERVER; KEY_AUTH; KEY_OBFS; KEY_SNI; KEY_CA_PATH; KEY_PIN_SHA256; KEY_BANDWIDTH_UP; KEY_BANDWIDTH_DOWN;
   KEY_QUIC_INIT_STREAM_RECEIVE_WINDOW; KEY_QUIC_MAX_STREAM_RECEIVE_WINDOW; KEY_QUIC_INIT_CONNECTION_RECEIVE_WINDOW;
   KEY_QUIC_MAX_CONNECTION_RECEIVE_WINDOW; KEY_QUIC_MAX_IDLE_TIMEOUT; KEY_QUIC_KEEP_ALIVE_PERIOD; KEY_LOCAL_UDP_ENABLED;
   KEY_QUIC_DISABLE_PATH_MTU_DISCOVERY; KEY_INSECURE_TLS; KEY_SOCKS_HOST; KEY_SOCKS_PORT].
Definition clearManagedRecord : Prefs → Prefs := remove_all MANAGED_KEYS.
Definition loadManagedRecord (p : Prefs) : outcome exception (option ManagedRuntimeRecord) :=
  let text key := o ← getString p key; Ret (default [] o) in
  o ← getString p KEY_SERVER;
  match o with
  | None => Ret None
  | Some server =>
    o ← getString p KEY_AUTH;
    match o with
    | None => Ret None
    | Some auth =>
      host ← getString p KEY_SOCKS_HOST;
      port ← getInt p KEY_SOCKS_PORT 1080;
      obfs ← text KEY_OBFS;
      sni ← text KEY_SNI;
      ca_path ← text KEY_CA_PATH;
      pin ← text KEY_PIN_SHA256;
      up ← text KEY_BANDWIDTH_UP;
      down ← text KEY_BANDWIDTH_DOWN;
      init_stream ← text KEY_QUIC_INIT_STREAM_RECEIVE_WINDOW;
      max_stream ← text KEY_QUIC_MAX_STREAM_RECEIVE_WINDOW;
      init_conn ← text KEY_QUIC_INIT_CONNECTION_RECEIVE_WINDOW;
      max_conn ← text KEY_QUIC_MAX_CONNECTION_RECEIVE_WINDOW;
      idle ← text KEY_QUIC_MAX_IDLE_TIMEOUT;
      keep_alive ← text KEY_QUIC_KEEP_ALIVE_PERIOD;
      local_udp ← getBoolean p KEY_LOCAL_UDP_ENABLED true;
      pmtud ← getBoolean p KEY_QUIC_DISABLE_PATH_MTU_DISCOVERY false;
      insecure ← getBoolean p KEY_INSECURE_TLS false;
      Ret (Some (mkRecord (mkProfile server auth obfs sni ca_path pin up down init_stream max_stream init_conn max_conn idle keep_alive
        local_udp pmtud insecure) (default (str "127.0.0.1") host) port))
    end
  end.

(** ** Lemmas on preferences *)

Lemma put_all_other kvs p k : k ∉ map fst kvs → put_all kvs p !! k = p !! k.
Proof.
  unfold put_all. revert p. induction kvs as [|[k' v] kvs IH]; intros p Hk; [done|]. cbn in *. rewrite IH by set_solver.
  apply lookup_insert_ne. set_solver.
Qed.
Lemma put_all_lookup kvs p i k v : NoDup (map fst kvs) → kvs !! i = Some (k, v) → put_all kvs p !! k = Some v.
Proof.
  revert p i. induction kvs as [|[k' v'] kvs IH]; intros p [|i] Hn Hi; cbn in *; simplify_eq;
    apply NoDup_cons in Hn as [Hk Hn]; [|by eapply IH].
  change (put_all kvs (<[k := v]> p) !! k = Some v). rewrite put_all_other by done. apply lookup_insert_eq.
Qed.
Lemma remove_all_lookup keys p k : remove_all keys p !! k = if decide (k ∈ keys) then None else p !! k.
Proof.
  unfold remove_all. revert p. induction keys as [|k' keys IH]; intros p; [done|]. cbn. rewrite IH.
  destruct (decide (k = k')) as [->|Hk].
  - rewrite lookup_delete_eq. rewrite (decide_True (P:=k' ∈ k' :: _)) by set_solver. by case_decide.
  - rewrite lookup_delete_ne by done. repeat case_decide; set_solver.
Qed.
(** Two edits that agree outside of their keys. *)
Lemma profile_puts_keys profile : map fst (profile_puts profile) = PROFILE_KEYS.
Proof. done. Qed.
Lemma record_puts_keys record : map fst (record_puts record) = MANAGED_KEYS.
Proof. done. Qed.
Lemma keys_NoDup : NoDup (PROFILE_KEYS ++ MANAGED_KEYS).
Proof. apply (bool_decide_eq_true_1 _). vm_compute. reflexivity. Qed.
