(* ===== verification/Bridge.v ===== *)
(** * Between Rust and Android ([mobile/src/android_bridge.rs], [mobile/android/MainActivity.kt])

    The calls of the application into the activity and the service, with the
    places where JNI can fail; the life of the activity and of the VPN service;
    and the entry points the service calls ([mobile/src/main.rs]). An event is a
    call of the application, a task of the user interface thread, or what the
    system does to the process. *)
From S2P Require Import Prelude Errors RustStr Limit Net HttpProxy Config Anyhow MobileForm MobileStatus Controller MobileView MobileApp Android.
Local Open Scope Z_scope.

(** ** State *)

Record Intent := mkIntent { in_strings : gmap bytes bytes; in_bools : gmap bytes bool }.
(** What waits for the user interface thread. *)
Inductive ui_task :=
| TRequestPermission
| TStartShell (socks_host : bytes) (socks_port : Z)
| TStartManaged (profile : ManagedRuntimeProfile) (socks_host : bytes) (socks_port : Z)
| TStop
| TPick (request_code : Z).
(** What the system was asked to do with the service. *)
Inductive request := RStart (socks_host : bytes) (socks_port : Z) | RStop.

(** The statics of the Kotlin classes, and the objects of the process: the intent
    of every activity and the interface of every service. *)
Record Kotlin := mkKotlin {
  kt_permissionGranted : bool;
  kt_launchStringExtras : gmap bytes bytes;
  kt_launchBooleanExtras : gmap bytes bool;
  kt_pendingConfig : bytes;
  kt_pendingCa : bytes;
  kt_activity : option nat;
  kt_intents : list (option Intent);
  kt_active : bool;
  kt_endpoint : option bytes;
  kt_service : option nat;
  kt_interfaces : list (option Z);
  kt_ui : list ui_task
}.
Definition kotlin_new : Kotlin := mkKotlin false ∅ ∅ [] [] None [] false None None [] [].
(** The statics of the Rust library. *)
Record Native := mkNative { nt_vm : bool; nt_activity : option nat; nt_service : option nat; nt_runtime : bool }.
Definition native_new : Native := mkNative false None None false.
Record Phone := mkPhone {
  ph_prefs : Prefs;
  ph_allowed : bool;
  ph_dialogs : nat;
  ph_requests : list request;
  ph_restart : bool;
  ph_kt : Kotlin;
  ph_nt : Native;
  ph_sent : list AppCommand
}.
(** A phone the application was just installed on. *)
Definition phone_new : Phone := mkPhone ∅ false 0 [] false kotlin_new native_new [].

Definition on_prefs (f : Prefs → Prefs) (ph : Phone) : Phone :=
  mkPhone (f (ph_prefs ph)) (ph_allowed ph) (ph_dialogs ph) (ph_requests ph) (ph_restart ph) (ph_kt ph) (ph_nt ph) (ph_sent ph).
Definition on_kt (f : Kotlin → Kotlin) (ph : Phone) : Phone :=
  mkPhone (ph_prefs ph) (ph_allowed ph) (ph_dialogs ph) (ph_requests ph) (ph_restart ph) (f (ph_kt ph)) (ph_nt ph) (ph_sent ph).
Definition on_nt (f : Native → Native) (ph : Phone) : Phone :=
  mkPhone (ph_prefs ph) (ph_allowed ph) (ph_dialogs ph) (ph_requests ph) (ph_restart ph) (ph_kt ph) (f (ph_nt ph)) (ph_sent ph).
Definition ask (r : request) (ph : Phone) : Phone :=
  mkPhone (ph_prefs ph) (ph_allowed ph) (ph_dialogs ph) (ph_requests ph ++ [r]) (ph_restart ph) (ph_kt ph) (ph_nt ph) (ph_sent ph).
Definition set_requests (rs : list request) (ph : Phone) : Phone :=
  mkPhone (ph_prefs ph) (ph_allowed ph) (ph_dialogs ph) rs (ph_restart ph) (ph_kt ph) (ph_nt ph) (ph_sent ph).
Definition set_restart (restart : bool) (ph : Phone) : Phone :=
  mkPhone (ph_prefs ph) (ph_allowed ph) (ph_dialogs ph) (ph_requests ph) restart (ph_kt ph) (ph_nt ph) (ph_sent ph).
Definition set_allowed (allowed : bool) (ph : Phone) : Phone :=
  mkPhone (ph_prefs ph) allowed (ph_dialogs ph) (ph_requests ph) (ph_restart ph) (ph_kt ph) (ph_nt ph) (ph_sent ph).
Definition set_dialogs (n : nat) (ph : Phone) : Phone :=
  mkPhone (ph_prefs ph) (ph_allowed ph) n (ph_requests ph) (ph_restart ph) (ph_kt ph) (ph_nt ph) (ph_sent ph).
(** [RuntimeController::shared().send(command)]. *)
Definition native_send (c : AppCommand) (ph : Phone) : Phone :=
  mkPhone (ph_prefs ph) (ph_allowed ph) (ph_dialogs ph) (ph_requests ph) (ph_restart ph) (ph_kt ph) (ph_nt ph) (ph_sent ph ++ [c]).

Definition set_granted (granted : bool) (k : Kotlin) : Kotlin :=
  mkKotlin granted (kt_launchStringExtras k) (kt_launchBooleanExtras k) (kt_pendingConfig k) (kt_pendingCa k) (kt_activity k) (kt_intents k)
    (kt_active k) (kt_endpoint k) (kt_service k) (kt_interfaces k) (kt_ui k).
Definition set_ui (ui : list ui_task) (k : Kotlin) : Kotlin :=
  mkKotlin (kt_permissionGranted k) (kt_launchStringExtras k) (kt_launchBooleanExtras k) (kt_pendingConfig k) (kt_pendingCa k) (kt_activity k)
    (kt_intents k) (kt_active k) (kt_endpoint k) (kt_service k) (kt_interfaces k) ui.
Definition set_pending_config (r : bytes) (k : Kotlin) : Kotlin :=
  mkKotlin (kt_permissionGranted k) (kt_launchStringExtras k) (kt_launchBooleanExtras k) r (kt_pendingCa k) (kt_activity k)
    (kt_intents k) (kt_active k) (kt_endpoint k) (kt_service k) (kt_interfaces k) (kt_ui k).
Definition set_pending_ca (r : bytes) (k : Kotlin) : Kotlin :=
  mkKotlin (kt_permissionGranted k) (kt_launchStringExtras k) (kt_launchBooleanExtras k) (kt_pendingConfig k) r (kt_activity k)
    (kt_intents k) (kt_active k) (kt_endpoint k) (kt_service k) (kt_interfaces k) (kt_ui k).
Definition set_activity (a : option nat) (intents : list (option Intent)) (k : Kotlin) : Kotlin :=
  mkKotlin (kt_permissionGranted k) (kt_launchStringExtras k) (kt_launchBooleanExtras k) (kt_pendingConfig k) (kt_pendingCa k) a
    intents (kt_active k) (kt_endpoint k) (kt_service k) (kt_interfaces k) (kt_ui k).
Definition set_extras (strings : gmap bytes bytes) (bools : gmap bytes bool) (k : Kotlin) : Kotlin :=
  mkKotlin (kt_permissionGranted k) strings bools (kt_pendingConfig k) (kt_pendingCa k) (kt_activity k)
    (kt_intents k) (kt_active k) (kt_endpoint k) (kt_service k) (kt_interfaces k) (kt_ui k).
(** The service, its interfaces and what the class says about it. *)
Definition set_service (active : bool) (endpoint : option bytes) (service : option nat) (interfaces : list (option Z)) (k : Kotlin) : Kotlin :=
  mkKotlin (kt_permissionGranted k) (kt_launchStringExtras k) (kt_launchBooleanExtras k) (kt_pendingConfig k) (kt_pendingCa k) (kt_activity k)
    (kt_intents k) active endpoint service interfaces (kt_ui k).
(** [runOnUiThread] from another thread. *)
Definition post (t : ui_task) : Phone → Phone := on_kt (fun k => set_ui (kt_ui k ++ [t]) k).

(** ** Entry points of the library ([mobile/src/main.rs]) *)

Definition ensure_android_runtime_initialized (n : Native) : Native := mkNative (nt_vm n) (nt_activity n) (nt_service n) true.
Definition cache_java_vm (n : Native) : Native := mkNative true (nt_activity n) (nt_service n) (nt_runtime n).
Definition cache_main_activity (activity : nat) (n : Native) : Native := mkNative true (Some activity) (nt_service n) (nt_runtime n).
Definition cache_vpn_service (service : nat) (n : Native) : Native := mkNative true (nt_activity n) (Some service) (nt_runtime n).
(** [ok] tells whether JNI answered; an error is printed. *)
Definition nativePrimeAndroidActivityBridge (ok : bool) (activity : nat) : Phone → Phone :=
  on_nt (fun n => if ok then ensure_android_runtime_initialized (cache_main_activity activity (cache_java_vm n)) else n).
Definition nativePrimeAndroidServiceBridge (ok : bool) (service : nat) : Phone → Phone :=
  on_nt (fun n => if ok then ensure_android_runtime_initialized (cache_vpn_service service (cache_java_vm n)) else n).
(** [readable] tells whether JNI could read every string; if not, nothing is
    sent and the error is printed. *)
Definition nativeStartManagedRuntime (server auth obfs_password sni ca_path pin_sha256 bandwidth_up bandwidth_down
    quic_init_stream_receive_window quic_max_stream_receive_window quic_init_connection_receive_window quic_max_connection_receive_window
    quic_max_idle_timeout quic_keep_alive_period : bytes) (local_udp_enabled quic_disable_path_mtu_discovery insecure_tls _restore_vpn : bool)
    (readable : bool) (ph : Phone) : Phone :=
  let ph := on_nt (fun n => ensure_android_runtime_initialized (cache_java_vm n)) ph in
  if negb readable then ph
  else native_send
    (ManagedConnect (mkForm [] server auth obfs_password sni ca_path pin_sha256 bandwidth_up bandwidth_down quic_init_stream_receive_window
      quic_max_stream_receive_window quic_init_connection_receive_window quic_max_connection_receive_window quic_max_idle_timeout
      quic_keep_alive_period local_udp_enabled quic_disable_path_mtu_discovery insecure_tls)) ph.
Definition nativeStopManagedRuntime (ph : Phone) : Phone :=
  native_send ServiceStopped (on_nt (fun n => ensure_android_runtime_initialized (cache_java_vm n)) ph).

(** ** The service *)

Definition startShellOnly (socks_host : bytes) (socks_port : Z) (ph : Phone) : Phone :=
  ask (RStart socks_host socks_port) (on_prefs clearManagedRecord ph).
Definition startManaged (profile : ManagedRuntimeProfile) (socks_host : bytes) (socks_port : Z) (ph : Phone) : Phone :=
  ask (RStart socks_host socks_port) (on_prefs (saveManagedRecord (mkRecord profile socks_host socks_port)) ph).
Definition stopManaged (ph : Phone) : Phone := ask RStop (on_prefs clearManagedRecord ph).

(** The system creates the service. *)
Definition service_onCreate (primed : bool) (ph : Phone) : Phone :=
  let id := length (kt_interfaces (ph_kt ph)) in
  nativePrimeAndroidServiceBridge primed id
    (on_kt (fun k => set_service (kt_active k) (kt_endpoint k) (Some id) (kt_interfaces k ++ [None]) k) ph).
(** [established] is the interface the system gives, if it does. *)
Definition startVpnShell (id : nat) (socks_host : bytes) (socks_port : Z) (established : option Z) : Phone → Phone :=
  on_kt (fun k =>
    let endpoint := Some (socks_host ++ COLON :: to_string socks_port) in
    match kt_interfaces k !! id with
    | Some (Some _) => set_service (kt_active k) endpoint (kt_service k) (kt_interfaces k) k
    | _ => set_service (bool_decide (is_Some established)) endpoint (kt_service k) (<[id := established]> (kt_interfaces k)) k
    end).
Definition shutdownVpn (id : nat) : Phone → Phone :=
  on_kt (fun k => set_service false None (kt_service k) (<[id := None]> (kt_interfaces k)) k).
Definition service_onDestroy (id : nat) (ph : Phone) : Phone :=
  on_kt (fun k => set_service (kt_active k) (kt_endpoint k) (if decide (kt_service k = Some id) then None else kt_service k) (kt_interfaces k) k)
    (shutdownVpn id (nativeStopManagedRuntime ph)).
(** A start without the action to stop, which nothing sends; the intent is absent
    when the system restarts the service. *)
Definition onStartCommand (id : nat) (intent : option (bytes * Z)) (established : option Z) (readable : bool) (ph : Phone)
    : outcome exception Phone :=
  record ← loadManagedRecord (ph_prefs ph);
  let socks_host := match intent with
    | Some (host, _) => host
    | None => match record with Some r => mr_socksHost r | None => str "127.0.0.1" end
    end in
  let socks_port := match intent with
    | Some (_, port) => if decide (0 < port) then port else match record with Some r => mr_socksPort r | None => 1080 end
    | None => match record with Some r => mr_socksPort r | None => 1080 end
    end in
  let ph := startVpnShell id socks_host socks_port established ph in
  Ret (match record with
    | Some r =>
        let p := mr_profile r in
        nativeStartManagedRuntime (mp_server p) (mp_auth p) (mp_obfsPassword p) (mp_sni p) (mp_caPath p) (mp_pinSha256 p) (mp_bandwidthUp p)
          (mp_bandwidthDown p) (mp_quicInitStreamReceiveWindow p) (mp_quicMaxStreamReceiveWindow p) (mp_quicInitConnectionReceiveWindow p)
          (mp_quicMaxConnectionReceiveWindow p) (mp_quicMaxIdleTimeout p) (mp_quicKeepAlivePeriod p) (mp_localUdpEnabled p)
          (mp_quicDisablePathMtuDiscovery p) (mp_insecureTls p) true readable ph
    | None => ph
    end).
(** A delivery of the system: the service is created if there is none. *)
Definition start_service (intent : option (bytes * Z)) (primed : bool) (established : option Z) (readable : bool) (ph : Phone)
    : outcome exception Phone :=
  match kt_service (ph_kt ph) with
  | Some id => onStartCommand id intent established readable ph
  | None => onStartCommand (length (kt_interfaces (ph_kt ph))) intent established readable (service_onCreate primed ph)
  end.

(** ** The activity *)

(** The extras of a launch. *)
Definition STRING_EXTRAS : list bytes :=
  map extra ["SERVER"; "AUTH"; "OBFS_PASSWORD"; "SNI"; "CA_PATH"; "PIN_SHA256"; "BANDWIDTH_UP"; "BANDWIDTH_DOWN";
    "QUIC_INIT_STREAM_RECEIVE_WINDOW"; "QUIC_MAX_STREAM_RECEIVE_WINDOW"; "QUIC_INIT_CONNECTION_RECEIVE_WINDOW";
    "QUIC_MAX_CONNECTION_RECEIVE_WINDOW"; "QUIC_MAX_IDLE_TIMEOUT"; "QUIC_KEEP_ALIVE_PERIOD"].
Definition BOOLEAN_EXTRAS : list (bytes * bool) :=
  [(extra "LOCAL_UDP_ENABLED", true); (extra "INSECURE_TLS", false); (extra "QUIC_DISABLE_PATH_MTU_DISCOVERY", false);
   (extra "AUTO_CONNECT", false); (extra "AUTO_REQUEST_VPN", false); (extra "AUTO_START_VPN", false)].
Definition cacheLaunchExtras (intent : option Intent) (k : Kotlin) : Kotlin :=
  match intent with
  | None => k
  | Some i =>
      set_extras (foldl (fun m key => <[key := default [] (in_strings i !! key)]> m) (kt_launchStringExtras k) STRING_EXTRAS)
        (foldl (fun m e => <[e.1 := default e.2 (in_bools i !! e.1)]> m) (kt_launchBooleanExtras k) BOOLEAN_EXTRAS) k
  end.
Definition current_intent (k : Kotlin) : option Intent := id ← kt_activity k; mjoin (kt_intents k !! id).
Definition currentIntentStringExtra (key : bytes) (k : Kotlin) : option bytes :=
  match kt_launchStringExtras k !! key with
  | Some (b :: cached) => Some (b :: cached)
  | _ => i ← current_intent k; in_strings i !! key
  end.
Definition currentIntentBooleanExtra (key : bytes) (k : Kotlin) : bool :=
  match kt_launchBooleanExtras k !! key with
  | Some cached => cached
  | None => default false (i ← current_intent k; in_bools i !! key)
  end.

Definition activity_onCreate (intent : option Intent) (primed : bool) (ph : Phone) : Phone :=
  let id := length (kt_intents (ph_kt ph)) in
  nativePrimeAndroidActivityBridge primed id
    (on_kt (fun k => cacheLaunchExtras intent (set_activity (Some id) (kt_intents k ++ [intent]) k)) ph).
Definition activity_onNewIntent (id : nat) (intent : option Intent) (primed : bool) (ph : Phone) : Phone :=
  nativePrimeAndroidActivityBridge primed id
    (on_kt (fun k => cacheLaunchExtras intent (set_activity (kt_activity k) (<[id := intent]> (kt_intents k)) k)) ph).
Definition activity_onDestroy (id : nat) : Phone → Phone :=
  on_kt (fun k => set_activity (if decide (kt_activity k = Some id) then None else kt_activity k) (kt_intents k) k).

(** The tasks of the user interface thread; the permission dialog is opened by
    the system. *)
Definition requestVpnPermission (ph : Phone) : Phone :=
  if ph_allowed ph then on_kt (set_granted true) ph else set_dialogs (S (ph_dialogs ph)) ph.
Definition run_ui_task (t : ui_task) (ph : Phone) : Phone :=
  match t with
  | TRequestPermission => requestVpnPermission ph
  | TStartShell host port =>
      if negb (ph_allowed ph) then requestVpnPermission ph else startShellOnly host port (on_kt (set_granted true) ph)
  | TStartManaged profile host port =>
      if negb (ph_allowed ph) then requestVpnPermission ph else startManaged profile host port (on_kt (set_granted true) ph)
  | TStop => stopManaged ph
  | TPick _ => ph
  end.
(** The answer to a permission dialog, [ok] if the user agreed; the system has
    then allowed the VPN. *)
Definition onPermissionResult (ok : bool) (ph : Phone) : Phone :=
  let ph := set_dialogs (pred (ph_dialogs ph)) (if ok then set_allowed true ph else ph) in
  on_kt (set_granted (ok || ph_allowed ph)) ph.

Definition CONFIG_IMPORT_REQUEST_CODE : Z := 9002.
Definition CA_IMPORT_REQUEST_CODE : Z := 9003.
Definition import_result (tag : bytes) (parts : list bytes) : bytes := tag ++ concat (map (cons UNIT_SEPARATOR) parts).
(** A chosen document: its name and content, or what went wrong. *)
Definition onConfigImportResult (document : (bytes * bytes) + exception) : Phone → Phone :=
  on_kt (set_pending_config (match document with
    | inl (name, content) => import_result (str "ok") [name; content]
    | inr message => import_result (str "err") [message]
    end)).
(** A certificate that was copied: the name and the path of the copy. *)
Definition onCaImportResult (copied : (bytes * bytes) + exception) : Phone → Phone :=
  on_kt (set_pending_ca (match copied with
    | inl (name, path) => import_result (str "ok") [name; path]
    | inr message => import_result (str "err") [message]
    end)).

(** ** The calls of the application ([mobile/src/android_bridge.rs]) *)

Inductive JValue := JString (s : bytes) | JBool (b : bool) | JInt (n : Z).

(** The Kotlin methods with many arguments, as JNI passes them. *)
Definition startManagedVpnFieldsFromRust (args : list JValue) : option ui_task :=
  match args with
  | [JString server; JString auth; JString obfsPassword; JString sni; JString caPath; JString pinSha256; JString bandwidthUp;
     JString bandwidthDown; JString quicInitStreamReceiveWindow; JString quicMaxStreamReceiveWindow; JString quicInitConnectionReceiveWindow;
     JString quicMaxConnectionReceiveWindow; JString quicMaxIdleTimeout; JString quicKeepAlivePeriod; JBool localUdpEnabled;
     JBool quicDisablePathMtuDiscovery; JBool insecureTls; JString socksHost; JInt socksPort] =>
      Some (TStartManaged (mkProfile server auth obfsPassword sni caPath pinSha256 bandwidthUp bandwidthDown quicInitStreamReceiveWindow
        quicMaxStreamReceiveWindow quicInitConnectionReceiveWindow quicMaxConnectionReceiveWindow quicMaxIdleTimeout quicKeepAlivePeriod
        localUdpEnabled quicDisablePathMtuDiscovery insecureTls) socksHost socksPort)
  | _ => None
  end.
Definition saveProfileFromRust (args : list JValue) : option ManagedRuntimeProfile :=
  match args with
  | [JString server; JString auth; JString obfsPassword; JString sni; JString caPath; JString pinSha256; JString bandwidthUp;
     JString bandwidthDown; JString quicInitStreamReceiveWindow; JString quicMaxStreamReceiveWindow; JString quicInitConnectionReceiveWindow;
     JString quicMaxConnectionReceiveWindow; JString quicMaxIdleTimeout; JString quicKeepAlivePeriod; JBool localUdpEnabled;
     JBool quicDisablePathMtuDiscovery; JBool insecureTls] =>
      Some (mkProfile server auth obfsPassword sni caPath pinSha256 bandwidthUp bandwidthDown quicInitStreamReceiveWindow
        quicMaxStreamReceiveWindow quicInitConnectionReceiveWindow quicMaxConnectionReceiveWindow quicMaxIdleTimeout quicKeepAlivePeriod
        localUdpEnabled quicDisablePathMtuDiscovery insecureTls)
  | _ => None
  end.

Section bridge.
(** The failures of JNI, by the place of the call; whether the toolkit has set
    up its context. *)
Context (fault : bytes → option anyhow) (ndk_ready : bool).
Abbreviation B A := (Phone → Phone * outcome anyhow A).

Definition jni {A} (label ctx : bytes) (a : A) : outcome anyhow A :=
  match fault label with Some e => Err (add_context ctx e) | None => Ret a end.
(** A method that changes the phone and does not throw. *)
Definition call_method {A} (label ctx : bytes) (method : Phone → Phone * A) : B A := fun ph =>
  match fault label with Some e => (ph, Err (add_context ctx e)) | None => let '(ph, a) := method ph in (ph, Ret a) end.
Definition new_string (ctx s : bytes) : outcome anyhow JValue := jni ctx ctx (JString s).
(** Arguments first, then a call with them. *)
Definition with_args {A R} (args : outcome anyhow A) (f : A → B R) : B R := fun ph =>
  match args with Ret a => f a ph | Err e => (ph, Err e) | Panic => (ph, Panic) end.

Definition with_env {A} (f : B A) : B A := fun ph =>
  let attach ctx ph :=
    match fault (str "attach") with
    | Some e => (ph, Err (add_context ctx e))
    | None => let '(ph, r) := f ph in (ph, context ctx r)
    end in
  if nt_vm (ph_nt ph) then attach (str "failed to attach current thread to cached JVM") ph
  else if negb ndk_ready then (ph, Panic)
  else attach (str "failed to attach current thread to fallback JVM") (on_nt cache_java_vm ph).
Definition with_main_activity {A} (f : nat → B A) : B A :=
  with_env (fun ph =>
    match nt_activity (ph_nt ph) with
    | Some activity => f activity ph
    | None => (ph, Err (anyhow_msg (str "MainActivity bridge is not ready yet")))
    end).
Definition with_vpn_service {A} (f : nat → B A) : B A :=
  with_env (fun ph =>
    match nt_service (ph_nt ph) with
    | Some service => f service ph
    | None => (ph, Err (anyhow_msg (str "HysteriaVpnService bridge is not ready yet")))
    end).

Definition request_permission : B unit :=
  with_main_activity (fun _ =>
    call_method (str "requestVpnPermissionFromRust") (str "failed to request Android VPN permission") (fun ph => (post TRequestPermission ph, ()))).
Definition start_vpn_service (socks_host : bytes) (socks_port : Z) : B unit :=
  with_main_activity (fun _ =>
    with_args (jni (str "failed to create VPN socks host string") (str "failed to create VPN socks host string") socks_host) (fun host =>
      call_method (str "startVpnServiceFromRust") (str "failed to start Android VPN service")
        (fun ph => (post (TStartShell host socks_port) ph, ())))).

(** The strings and switches of a form, in the order of the Kotlin methods. *)
Definition form_args (what : bytes) (form : FormState) : outcome anyhow (list JValue) :=
  let text name value := new_string (str "failed to create " ++ what ++ str name ++ str " string") value in
  server ← text " server" (fm_server form);
  auth ← text " auth" (fm_auth form);
  obfs_password ← text " obfs" (fm_obfs_password form);
  sni ← text " SNI" (fm_sni form);
  ca_path ← text " CA path" (fm_ca_path form);
  pin_sha256 ← text " pin" (fm_pin_sha256 form);
  bandwidth_up ← text " bandwidth up" (fm_bandwidth_up form);
  bandwidth_down ← text " bandwidth down" (fm_bandwidth_down form);
  init_stream ← text " QUIC init stream window" (fm_init_stream_window form);
  max_stream ← text " QUIC max stream window" (fm_max_stream_window form);
  init_conn ← text " QUIC init conn window" (fm_init_conn_window form);
  max_conn ← text " QUIC max conn window" (fm_max_conn_window form);
  idle ← text " QUIC idle timeout" (fm_max_idle_timeout form);
  keep_alive ← text " QUIC keepalive" (fm_keep_alive_period form);
  Ret [server; auth; obfs_password; sni; ca_path; pin_sha256; bandwidth_up; bandwidth_down; init_stream; max_stream; init_conn; max_conn;
       idle; keep_alive; JBool (fm_local_udp_enabled form); JBool (fm_disable_path_mtu_discovery form); JBool (fm_insecure_tls form)].
(** A call JNI refuses since the arguments do not have the types of the
    signature. *)
Definition invalid_args {A} (ctx : bytes) : outcome anyhow A := Err (add_context ctx (anyhow_msg (str "invalid arguments"))).
Definition start_managed_vpn (form : FormState) (socks_host : bytes) (socks_port : Z) : B unit :=
  with_main_activity (fun _ =>
    with_args (args ← form_args (str "managed VPN") form;
               host ← new_string (str "failed to create managed VPN socks host string") socks_host;
               Ret (args ++ [host; JInt socks_port])) (fun args ph =>
      match startManagedVpnFieldsFromRust args with
      | Some task => call_method (str "startManagedVpnFieldsFromRust") (str "failed to request managed Android VPN start")
                       (fun ph => (post task ph, ())) ph
      | None => (ph, invalid_args (str "failed to request managed Android VPN start"))
      end)).
Definition stop_by_service : B unit :=
  with_vpn_service (fun _ =>
    call_method (str "stopManagedFromRust") (str "failed to stop Android VPN service") (fun ph => (stopManaged ph, ()))).
Definition stop_vpn_service : B unit := fun ph =>
  let '(ph, r) := stop_by_service ph in
  match r with
  | Ret result => (ph, Ret result)
  | Panic => (ph, Panic)
  | Err _ =>
      with_main_activity (fun _ =>
        call_method (str "stopVpnServiceFromRust") (str "failed to stop Android VPN service via MainActivity")
          (fun ph => (post TStop ph, ()))) ph
  end.
(** [dup] is the descriptor a duplicate of the interface gets, if that works. *)
Definition take_tun_fd (dup : option Z) : B Z :=
  with_vpn_service (fun service ph =>
    call_method (str "takeTunFdFromRust") (str "failed to take Android VPN TUN fd") (fun ph =>
      (ph, match kt_interfaces (ph_kt ph) !! service with Some (Some _) => default (-1) dup | _ => -1 end)) ph).

Definition vpn_state_of (permission_granted active : outcome anyhow bool) : outcome anyhow VpnState :=
  permission_granted ← permission_granted; active ← active; Ret (mkVpn true permission_granted active).
Definition query_state : B VpnState := fun ph =>
  let '(ph, r) := with_vpn_service (fun _ ph =>
    (ph, vpn_state_of
      (jni (str "isPermissionGrantedFromRust") (str "failed to query Android VPN permission state") (kt_active (ph_kt ph) || ph_allowed ph))
      (jni (str "isActiveFromRust") (str "failed to query Android VPN active state") (kt_active (ph_kt ph))))) ph in
  match r with
  | Ret state => (ph, Ret state)
  | Panic => (ph, Panic)
  | Err _ =>
      with_main_activity (fun _ ph =>
        (ph, vpn_state_of
          (jni (str "isVpnPermissionGrantedFromRust") (str "failed to query Android VPN permission state from MainActivity")
             (kt_permissionGranted (ph_kt ph) || ph_allowed ph))
          (jni (str "isVpnActiveFromRust") (str "failed to query Android VPN active state from MainActivity") (kt_active (ph_kt ph))))) ph
  end.

(** Reads that take a key: the key is made first, then the method is called. *)
Definition keyed {A} (make ctx key : bytes) (a : outcome exception A) : outcome anyhow A :=
  _ ← jni (make ++ key) make ();
  _ ← jni (ctx ++ key) ctx ();
  context ctx (map_err anyhow_msg a).
Definition launch_string_extra (ph : Phone) (key : bytes) : outcome anyhow (option bytes) :=
  keyed (str "failed to create Android launch extra key") (str "failed to query Android string launch extra") key
    (Ret (currentIntentStringExtra key (ph_kt ph))).
Definition launch_bool_extra (ph : Phone) (key : bytes) : outcome anyhow bool :=
  keyed (str "failed to create Android launch bool key") (str "failed to query Android bool launch extra") key
    (Ret (currentIntentBooleanExtra key (ph_kt ph))).
Definition saved_profile_string (ph : Phone) (key : bytes) : outcome anyhow (option bytes) :=
  keyed (str "failed to create saved profile key") (str "failed to query saved profile string") key (getString (ph_prefs ph) key).
Definition saved_profile_bool (ph : Phone) (key : bytes) (default_value : bool) : outcome anyhow bool :=
  keyed (str "failed to create saved profile bool key") (str "failed to query saved profile bool") key
    (getBoolean (ph_prefs ph) key default_value).
Definition bridge_query_launch_config : B LaunchConfig :=
  with_main_activity (fun _ ph => (ph, query_launch_config (launch_string_extra ph) (launch_bool_extra ph))).
Definition bridge_query_saved_profile : B (option FormState) :=
  with_main_activity (fun _ ph => (ph, query_saved_profile (saved_profile_string ph) (saved_profile_bool ph))).
Definition save_profile (form : FormState) : B unit :=
  with_main_activity (fun _ =>
    with_args (form_args (str "saved profile") form) (fun args ph =>
      match saveProfileFromRust args with
      | Some profile => call_method (str "saveProfileFromRust") (str "failed to save Android profile")
                          (fun ph => (on_prefs (saveProfile profile) ph, ())) ph
      | None => (ph, invalid_args (str "failed to save Android profile"))
      end)).
Definition clear_saved_profile : B unit :=
  with_main_activity (fun _ =>
    call_method (str "clearSavedProfileFromRust") (str "failed to clear Android saved profile") (fun ph => (on_prefs clearSavedProfile ph, ()))).

(** The methods without arguments; [value] is what the method returns, and an
    absent one counts as the empty string. *)
Definition activity_string_method (method : bytes) (value : Phone → Phone * option bytes) : B bytes :=
  call_method method (str "failed to call Android bridge method " ++ method) (fun ph => let '(ph, v) := value ph in (ph, default [] v)).
Definition activity_void_method (method : bytes) (effect : Phone → Phone) : B unit :=
  call_method method (str "failed to call Android bridge method " ++ method) (fun ph => (effect ph, ())).
Definition and_then {A R} (m : B A) (f : A → B R) : B R := fun ph =>
  let '(ph, r) := m ph in with_args r f ph.
(** [directory] and [listing] are what the activity finds on the disk. *)
Definition query_ca_catalog (directory listing : bytes) : B CaCatalog :=
  with_main_activity (fun _ =>
    and_then (activity_string_method (str "caStorageDirFromRust") (fun ph => (ph, Some directory))) (fun directory =>
      and_then (activity_string_method (str "caFilesListingFromRust") (fun ph => (ph, Some listing))) (fun listing ph =>
        (ph, Ret (mkCaCatalog directory (parse_ca_listing listing)))))).
Definition system_ca_pem_bundle (bundle : bytes) : B bytes :=
  with_main_activity (fun _ => activity_string_method (str "systemCaPemBundleFromRust") (fun ph => (ph, Some bundle))).
Definition request_config_import : B unit :=
  with_main_activity (fun _ => activity_void_method (str "launchConfigImportFromRust") (post (TPick CONFIG_IMPORT_REQUEST_CODE))).
Definition request_ca_import : B unit :=
  with_main_activity (fun _ => activity_void_method (str "launchCaImportFromRust") (post (TPick CA_IMPORT_REQUEST_CODE))).
Definition take_config_import : B (option ImportedConfig) :=
  with_main_activity (fun _ =>
    and_then (activity_string_method (str "consumeImportedConfigResultFromRust")
                (fun ph => (on_kt (set_pending_config []) ph, Some (kt_pendingConfig (ph_kt ph))))) (fun payload ph =>
      (ph, parse_imported_config_payload payload))).
Definition take_ca_import : B (option ImportedCa) :=
  with_main_activity (fun _ =>
    and_then (activity_string_method (str "consumeImportedCaResultFromRust")
                (fun ph => (on_kt (set_pending_ca []) ph, Some (kt_pendingCa (ph_kt ph))))) (fun payload ph =>
      (ph, parse_imported_ca_payload payload))).
(** [protected] is the answer of the platform. *)
Definition protect_fd (protected : bool) : B bool :=
  with_vpn_service (fun _ => call_method (str "protectManagedFdFromRust") (str "failed to call protectManagedFdFromRust") (fun ph => (ph, protected))).
(** [core/src/android.rs]: the protector is installed with the runtime, and its
    result is dropped. *)
Definition maybe_protect_socket (protected : bool) (ph : Phone) : Phone :=
  if nt_runtime (ph_nt ph) then (protect_fd protected ph).1 else ph.
End bridge.

(** The same calls in a build for another platform. *)
Definition only_android {A} (what : string) : outcome anyhow A := Err (anyhow_msg (str what)).
Definition desktop_request_permission : outcome anyhow unit := only_android "Android VPN permission flow is only available on Android".
Definition desktop_start_vpn_service : outcome anyhow unit := only_android "Android VPN service is only available on Android".
Definition desktop_start_managed_vpn : outcome anyhow unit := only_android "Android VPN service is only available on Android".
Definition desktop_stop_vpn_service : outcome anyhow unit := only_android "Android VPN service is only available on Android".
Definition desktop_take_tun_fd : outcome anyhow Z := only_android "Android VPN service is only available on Android".
Definition desktop_query_state : outcome anyhow VpnState := Ret vpn_default.
Definition desktop_query_launch_config : outcome anyhow LaunchConfig :=
  Ret (mkLaunch None None None None None None None None None None None None None None None None None None None None).
Definition desktop_query_ca_catalog : outcome anyhow CaCatalog := Ret catalog_default.
Definition desktop_system_ca_pem_bundle : outcome anyhow bytes := only_android "Android system certificate store is only available on Android".
Definition desktop_request_config_import : outcome anyhow unit := only_android "Android document import is only available on Android".
Definition desktop_take_config_import : outcome anyhow (option ImportedConfig) := Ret None.
Definition desktop_request_ca_import : outcome anyhow unit := only_android "Android document import is only available on Android".
Definition desktop_take_ca_import : outcome anyhow (option ImportedCa) := Ret None.
Definition desktop_query_saved_profile : outcome anyhow (option FormState) := Ret None.
Definition desktop_save_profile : outcome anyhow unit := only_android "Android profile persistence is only available on Android".
Definition desktop_clear_saved_profile : outcome anyhow unit := only_android "Android profile persistence is only available on Android".
Definition desktop_protect_fd : outcome anyhow bool := Ret false.

(** ** Runs *)

Inductive call :=
| CRequestPermission
| CStartShell (socks_host : bytes) (socks_port : Z)
| CStartManaged (form : FormState) (socks_host : bytes) (socks_port : Z)
| CStop
| CSave (form : FormState)
| CClear
| CPickConfig
| CPickCa
| CTakeConfig
| CTakeCa
| CQueryState.
Definition run_call (fault : bytes → option anyhow) (ndk_ready : bool) (c : call) (ph : Phone) : Phone :=
  match c with
  | CRequestPermission => (request_permission fault ndk_ready ph).1
  | CStartShell host port => (start_vpn_service fault ndk_ready host port ph).1
  | CStartManaged form host port => (start_managed_vpn fault ndk_ready form host port ph).1
  | CStop => (stop_vpn_service fault ndk_ready ph).1
  | CSave form => (save_profile fault ndk_ready form ph).1
  | CClear => (clear_saved_profile fault ndk_ready ph).1
  | CPickConfig => (request_config_import fault ndk_ready ph).1
  | CPickCa => (request_ca_import fault ndk_ready ph).1
  | CTakeConfig => (take_config_import fault ndk_ready ph).1
  | CTakeCa => (take_ca_import fault ndk_ready ph).1
  | CQueryState => (query_state fault ndk_ready ph).1
  end.

Inductive event :=
(** the application calls *)
| ECall (fault : bytes → option anyhow) (ndk_ready : bool) (c : call)
(** the user interface thread runs its next task *)
| EUi
(** the system serves the next request about the service, or restarts it *)
| EDeliver (primed : bool) (established : option Z) (readable : bool)
| ERestart (primed : bool) (established : option Z) (readable : bool)
(** the system ends the process *)
| EKill
| EPermission (ok : bool)
(** the user or another application takes the VPN away *)
| ERevoke
| EActivity (intent : option Intent) (primed : bool)
| ENewIntent (intent : option Intent) (primed : bool)
| EDestroyActivity
| EConfigChosen (document : (bytes * bytes) + exception)
| ECaCopied (copied : (bytes * bytes) + exception).

(** An event, if it is possible. A sticky service is restarted after its process
    ended, unless it is started or stopped before. *)
Definition phone_step (e : event) (ph : Phone) : option (outcome exception Phone) :=
  match e with
  | ECall fault ndk_ready c => Some (Ret (run_call fault ndk_ready c ph))
  | EUi =>
      match kt_ui (ph_kt ph) with
      | t :: ui => Some (Ret (run_ui_task t (on_kt (set_ui ui) ph)))
      | [] => None
      end
  | EDeliver primed established readable =>
      match ph_requests ph with
      | RStart host port :: rs =>
          Some (start_service (Some (host, port)) primed established readable (set_restart false (set_requests rs ph)))
      | RStop :: rs =>
          let ph := set_restart false (set_requests rs ph) in
          Some (Ret (match kt_service (ph_kt ph) with Some id => service_onDestroy id ph | None => ph end))
      | [] => None
      end
  | ERestart primed established readable =>
      if ph_restart ph then Some (start_service None primed established readable (set_restart false ph)) else None
  | EKill =>
      let running := bool_decide (is_Some (kt_service (ph_kt ph))) in
      Some (Ret (mkPhone (ph_prefs ph) (ph_allowed ph) 0 (ph_requests ph) (running || ph_restart ph) kotlin_new native_new (ph_sent ph)))
  | EPermission ok => if decide (0 < ph_dialogs ph)%nat then Some (Ret (onPermissionResult ok ph)) else None
  | ERevoke =>
      let ph := set_allowed false ph in
      Some (Ret (match kt_service (ph_kt ph) with Some _ => ask RStop ph | None => ph end))
  | EActivity intent primed => Some (Ret (activity_onCreate intent primed ph))
  | ENewIntent intent primed => id ← kt_activity (ph_kt ph); Some (Ret (activity_onNewIntent id intent primed ph))
  | EDestroyActivity => id ← kt_activity (ph_kt ph); Some (Ret (activity_onDestroy id ph))
  | EConfigChosen document => Some (Ret (onConfigImportResult document ph))
  | ECaCopied copied => Some (Ret (onCaImportResult copied ph))
  end.
Fixpoint phone_run (es : list event) (ph : Phone) : option (outcome exception Phone) :=
  match es with
  | [] => Some (Ret ph)
  | e :: es =>
      match phone_step e ph with
      | Some (Ret ph) => phone_run es ph
      | r => r
      end
  end.

(** ** What the phone promises *)

(** A form as a profile, and back. *)
Definition profile_of (f : FormState) : ManagedRuntimeProfile :=
  mkProfile (fm_server f) (fm_auth f) (fm_obfs_password f) (fm_sni f) (fm_ca_path f) (fm_pin_sha256 f) (fm_bandwidth_up f)
    (fm_bandwidth_down f) (fm_init_stream_window f) (fm_max_stream_window f) (fm_init_conn_window f) (fm_max_conn_window f)
    (fm_max_idle_timeout f) (fm_keep_alive_period f) (fm_local_udp_enabled f) (fm_disable_path_mtu_discovery f) (fm_insecure_tls f).
Definition form_of (p : ManagedRuntimeProfile) : FormState :=
  mkForm [] (mp_server p) (mp_auth p) (mp_obfsPassword p) (mp_sni p) (mp_caPath p) (mp_pinSha256 p) (mp_bandwidthUp p) (mp_bandwidthDown p)
    (mp_quicInitStreamReceiveWindow p) (mp_quicMaxStreamReceiveWindow p) (mp_quicInitConnectionReceiveWindow p)
    (mp_quicMaxConnectionReceiveWindow p) (mp_quicMaxIdleTimeout p) (mp_quicKeepAlivePeriod p) (mp_localUdpEnabled p)
    (mp_quicDisablePathMtuDiscovery p) (mp_insecureTls p).

(** The abstract phone: a saved profile, the VPN that is managed, and what the
    controller was told. *)
Record Spec := mkSpec { sp_profile : option ManagedRuntimeProfile; sp_record : option ManagedRuntimeRecord; sp_sent : list AppCommand }.
Inductive op :=
| OSave (profile : ManagedRuntimeProfile)
| OClear
| OManage (record : ManagedRuntimeRecord)
| OUnmanage
| OServe (readable : bool)
| OStopped.
Definition spec_apply (s : Spec) (o : op) : Spec :=
  match o with
  | OSave profile => mkSpec (Some profile) (sp_record s) (sp_sent s)
  | OClear => mkSpec None (sp_record s) (sp_sent s)
  | OManage record => mkSpec (sp_profile s) (Some record) (sp_sent s)
  | OUnmanage => mkSpec (sp_profile s) None (sp_sent s)
  | OServe readable =>
      mkSpec (sp_profile s) (sp_record s)
        (sp_sent s ++ match sp_record s with Some r => if readable then [ManagedConnect (form_of (mr_profile r))] else [] | None => [] end)
  | OStopped => mkSpec (sp_profile s) (sp_record s) (sp_sent s ++ [ServiceStopped])
  end.
Definition is_Ret {E A} (m : outcome E A) : bool := match m with Ret _ => true | _ => false end.
(** What an event does to the abstract phone. *)
Definition ops (e : event) (ph : Phone) : list op :=
  match e with
  | ECall fault ndk_ready (CSave form) => if is_Ret (save_profile fault ndk_ready form ph).2 then [OSave (profile_of form)] else []
  | ECall fault ndk_ready CClear => if is_Ret (clear_saved_profile fault ndk_ready ph).2 then [OClear] else []
  | ECall fault ndk_ready CStop => if is_Ret (stop_by_service fault ndk_ready ph).2 then [OUnmanage] else []
  | ECall _ _ _ => []
  | EUi =>
      match kt_ui (ph_kt ph) with
      | TStartManaged profile host port :: _ => if ph_allowed ph then [OManage (mkRecord profile host port)] else []
      | TStartShell _ _ :: _ => if ph_allowed ph then [OUnmanage] else []
      | TStop :: _ => [OUnmanage]
      | _ => []
      end
  | EDeliver _ _ readable =>
      match ph_requests ph with
      | RStart _ _ :: _ => [OServe readable]
      | RStop :: _ => match kt_service (ph_kt ph) with Some _ => [OStopped] | None => [] end
      | [] => []
      end
  | ERestart _ _ readable => [OServe readable]
  | _ => []
  end.
Fixpoint run_ops (es : list event) (ph : Phone) : list op :=
  match es with
  | [] => []
  | e :: es => ops e ph ++ match phone_step e ph with Some (Ret ph) => run_ops es ph | _ => [] end
  end.

(** ** The preferences *)

Definition agree (keys : list bytes) (p q : Prefs) : Prop := ∀ k, k ∈ keys → p !! k = q !! k.
Definition profile_prefs (o : option ManagedRuntimeProfile) : Prefs := match o with Some profile => saveProfile profile ∅ | None => ∅ end.
Definition record_prefs (o : option ManagedRuntimeRecord) : Prefs := match o with Some r => saveManagedRecord r ∅ | None => ∅ end.
Definition stored (s : Spec) (p : Prefs) : Prop :=
  agree PROFILE_KEYS p (profile_prefs (sp_profile s)) ∧ agree MANAGED_KEYS p (record_prefs (sp_record s)).

Lemma put_all_agree kvs p q : agree (map fst kvs) (put_all kvs p) (put_all kvs q).
Proof.
  unfold agree, put_all. revert p q. induction kvs as [|[k' v] kvs IH]; intros p q k Hk; [set_solver|]. cbn in *.
  destruct (decide (k ∈ map fst kvs)) as [Hin|Hout]; [by apply IH|]. assert (k = k') as -> by set_solver.
  change (put_all kvs (<[k' := v]> p) !! k' = put_all kvs (<[k' := v]> q) !! k').
  rewrite !put_all_other by done. by rewrite !lookup_insert_eq.
Qed.
Lemma keys_disjoint k : k ∈ PROFILE_KEYS → k ∈ MANAGED_KEYS → False.
Proof. intros H1 H2. pose proof keys_NoDup as (_ & H & _)%NoDup_app. by apply (H k). Qed.
Lemma agree_put_other keys kvs p q : (∀ k, k ∈ keys → k ∉ map fst kvs) → agree keys p q → agree keys (put_all kvs p) q.
Proof. intros H Ha k Hk. rewrite put_all_other by auto. auto. Qed.
Lemma agree_remove keys p : agree keys (remove_all keys p) ∅.
Proof. intros k Hk. by rewrite remove_all_lookup, decide_True, lookup_empty. Qed.
Lemma agree_remove_other keys keys' p q : (∀ k, k ∈ keys → k ∉ keys') → agree keys p q → agree keys (remove_all keys' p) q.
Proof. intros H Ha k Hk. rewrite remove_all_lookup, decide_False by auto. auto. Qed.

Lemma stored_save s p profile : stored s p → stored (spec_apply s (OSave profile)) (saveProfile profile p).
Proof.
  intros [H1 H2]. split; cbn [spec_apply sp_profile sp_record]; [apply (put_all_agree (profile_puts profile))|].
  apply agree_put_other; [|done]. intros k Hk Hk'. rewrite profile_puts_keys in Hk'. by eapply keys_disjoint.
Qed.
Lemma stored_clear s p : stored s p → stored (spec_apply s OClear) (clearSavedProfile p).
Proof.
  intros [H1 H2]. split; cbn [spec_apply sp_profile sp_record]; [apply agree_remove|]. apply agree_remove_other; [|done]. intros k Hk Hk'. by eapply keys_disjoint.
Qed.
Lemma stored_manage s p r : stored s p → stored (spec_apply s (OManage r)) (saveManagedRecord r p).
Proof.
  intros [H1 H2]. split; cbn [spec_apply sp_profile sp_record]; [|apply (put_all_agree (record_puts r))].
  apply agree_put_other; [|done]. intros k Hk Hk'. rewrite record_puts_keys in Hk'. by eapply keys_disjoint.
Qed.
Lemma stored_unmanage s p : stored s p → stored (spec_apply s OUnmanage) (clearManagedRecord p).
Proof.
  intros [H1 H2]. split; cbn [spec_apply sp_profile sp_record]; [|apply agree_remove]. apply agree_remove_other; [|done]. intros k Hk Hk'. by eapply keys_disjoint.
Qed.

(** A record is read back as it was written. *)
Lemma getString_agree keys p q k : agree keys p q → k ∈ keys → getString p k = getString q k.
Proof. intros H Hk. unfold getString. by rewrite (H k Hk). Qed.
Lemma getBoolean_agree keys p q k d : agree keys p q → k ∈ keys → getBoolean p k d = getBoolean q k d.
Proof. intros H Hk. unfold getBoolean. by rewrite (H k Hk). Qed.
Lemma getInt_agree keys p q k d : agree keys p q → k ∈ keys → getInt p k d = getInt q k d.
Proof. intros H Hk. unfold getInt. by rewrite (H k Hk). Qed.
Ltac in_keys := first [apply (bool_decide_eq_true_1 _); vm_compute; reflexivity].
Lemma load_agree p q : agree MANAGED_KEYS p q → loadManagedRecord p = loadManagedRecord q.
Proof.
  intros H. unfold loadManagedRecord. cbv zeta.
  rewrite !(getString_agree _ p q _ H) by in_keys.
  rewrite (getInt_agree _ p q _ _ H), !(getBoolean_agree _ p q _ _ H) by in_keys. done.
Qed.
Lemma load_record o : loadManagedRecord (record_prefs o) = Ret o.
Proof. destruct o as [[[] ? ?]|]; vm_compute; reflexivity. Qed.
Lemma stored_load s p : stored s p → loadManagedRecord p = Ret (sp_record s).
Proof. intros [_ H]. by rewrite (load_agree _ _ H), load_record. Qed.

(** ** What a call does *)

(** Nothing but the queue of the user interface thread, pending results, requests
    and cached references differs. *)
Record frame (ph ph' : Phone) : Prop := mkFrame {
  fr_prefs : ph_prefs ph' = ph_prefs ph;
  fr_sent : ph_sent ph' = ph_sent ph;
  fr_active : kt_active (ph_kt ph') = kt_active (ph_kt ph);
  fr_endpoint : kt_endpoint (ph_kt ph') = kt_endpoint (ph_kt ph);
  fr_service : kt_service (ph_kt ph') = kt_service (ph_kt ph);
  fr_interfaces : kt_interfaces (ph_kt ph') = kt_interfaces (ph_kt ph)
}.
#[global] Instance frame_preorder : PreOrder frame.
Proof. split; [by split|]. intros ph1 ph2 ph3 [] []. split; congruence. Qed.
Create HintDb phone.
Lemma frame_refl ph : frame ph ph.
Proof. done. Qed.
Lemma frame_nt f ph ph' : frame ph ph' → frame ph (on_nt f ph').
Proof. by intros []. Qed.
Lemma frame_on_nt n ph : frame ph (on_nt n ph).
Proof. done. Qed.
Lemma frame_post t ph ph' : frame ph ph' → frame ph (post t ph').
Proof. by intros []. Qed.
Lemma frame_kt f ph ph' :
  (∀ k, kt_active (f k) = kt_active k ∧ kt_endpoint (f k) = kt_endpoint k ∧ kt_service (f k) = kt_service k ∧ kt_interfaces (f k) = kt_interfaces k) →
  frame ph ph' → frame ph (on_kt f ph').
Proof. intros Hf []. destruct (Hf (ph_kt ph')) as (? & ? & ? & ?). split; cbn; congruence. Qed.
#[export] Hint Resolve frame_refl frame_nt frame_post : phone.
#[export] Hint Extern 2 (frame _ (on_kt _ _)) => apply frame_kt; [done|] : phone.

Section calls.
Context (fault : bytes → option anyhow) (ndk_ready : bool).
Abbreviation B A := (Phone → Phone * outcome anyhow A).
(** The state a call leaves is that of its body, or the body did not run; a
    result means that it did. *)
Lemma with_env_cases {A} (f : B A) ph :
  ∃ n, let ph0 := on_nt n ph in
    (with_env fault ndk_ready f ph).1 = ph0 ∧ is_Ret (with_env fault ndk_ready f ph).2 = false ∨
    (with_env fault ndk_ready f ph).1 = (f ph0).1 ∧ is_Ret (with_env fault ndk_ready f ph).2 = is_Ret (f ph0).2.
Proof.
  assert (∀ ph, on_nt (fun n => n) ph = ph) as Hid by (by intros []).
  unfold with_env. destruct (nt_vm (ph_nt ph)); [exists (fun n => n); cbn zeta; rewrite Hid|
    destruct ndk_ready; [exists cache_java_vm|exists (fun n => n); cbn zeta; rewrite Hid; by left]]; cbn;
    (destruct (fault _); [by left|right]).
  - destruct (f ph) as [ph' []]; by split.
  - destruct (f _) as [ph' []]; by split.
Qed.
Lemma with_slot_cases {A} (slot : Native → option nat) (e : anyhow) (f : nat → B A) ph :
  let body ph := match slot (ph_nt ph) with Some x => f x ph | None => (ph, Err e) end in
  ∃ n x, let ph0 := on_nt n ph in
    (with_env fault ndk_ready body ph).1 = ph0 ∧ is_Ret (with_env fault ndk_ready body ph).2 = false ∨
    (with_env fault ndk_ready body ph).1 = (f x ph0).1 ∧ is_Ret (with_env fault ndk_ready body ph).2 = is_Ret (f x ph0).2.
Proof.
  cbn zeta. destruct (with_env_cases (fun ph => match slot (ph_nt ph) with Some x => f x ph | None => (ph, Err e) end) ph) as (n & [H|H]);
    exists n; [exists 0%nat; by left|]. destruct (slot (ph_nt (on_nt n ph))) as [x|]; [exists x; by right|exists 0%nat; by left].
Qed.

(** A relation that holds of every body, and of cached references, holds of a
    call. *)
Section relation.
Context (R : relation Phone) `{!PreOrder R} (HR : ∀ n ph, R ph (on_nt n ph)).
Lemma main_rel {A} (f : nat → B A) ph : (∀ a ph, R ph (f a ph).1) → R ph (with_main_activity fault ndk_ready f ph).1.
Proof.
  intros Hf. destruct (with_slot_cases nt_activity (anyhow_msg (str "MainActivity bridge is not ready yet")) f ph) as (n & x & [[H _]|[H _]]);
    unfold with_main_activity; rewrite H; [done|]. etrans; [apply (HR n)|apply Hf].
Qed.
Lemma service_rel {A} (f : nat → B A) ph : (∀ a ph, R ph (f a ph).1) → R ph (with_vpn_service fault ndk_ready f ph).1.
Proof.
  intros Hf. destruct (with_slot_cases nt_service (anyhow_msg (str "HysteriaVpnService bridge is not ready yet")) f ph) as (n & x & [[H _]|[H _]]);
    unfold with_vpn_service; rewrite H; [done|]. etrans; [apply (HR n)|apply Hf].
Qed.
Lemma call_method_rel {A} label ctx (method : Phone → Phone * A) ph :
  R ph (method ph).1 → R ph (call_method fault label ctx method ph).1.
Proof. unfold call_method. destruct (fault label); [done|]. by destruct (method ph). Qed.
Lemma with_args_rel {A T} (args : outcome anyhow A) (f : A → B T) ph : (∀ a, R ph (f a ph).1) → R ph (with_args args f ph).1.
Proof. unfold with_args. destruct args; [auto|done|done]. Qed.
Lemma and_then_rel {A T} (m : B A) (f : A → B T) ph :
  (∀ ph, R ph (m ph).1) → (∀ a ph, R ph (f a ph).1) → R ph (and_then m f ph).1.
Proof. intros H1 H2. unfold and_then. specialize (H1 ph). destruct (m ph) as [ph' r]. etrans; [apply H1|]. apply with_args_rel. auto. Qed.
End relation.
End calls.

(** Goes through the calls of a body. *)
Ltac call_rel R HR :=
  repeat (first [apply (main_rel _ _ R HR) | apply (service_rel _ _ R HR) | apply (call_method_rel _ R) | apply (and_then_rel R)
    | apply (with_args_rel R)]; intros).

(** The arguments of a form arrive as its profile. *)
Lemma form_args_cases fault what form :
  (∃ e, form_args fault what form = Err e) ∨
  ∃ args, form_args fault what form = Ret args ∧ saveProfileFromRust args = Some (profile_of form) ∧
    ∀ host port, startManagedVpnFieldsFromRust (args ++ [JString host; JInt port]) = Some (TStartManaged (profile_of form) host port).
Proof.
  unfold form_args, new_string, jni. cbv zeta.
  repeat (match goal with |- context [fault ?l] => destruct (fault l); [by left; eexists|cbn [mbind outcome_bind]] end).
  right. by eexists.
Qed.

Lemma save_effect fault ndk_ready form ph :
  frame (if is_Ret (save_profile fault ndk_ready form ph).2 then on_prefs (saveProfile (profile_of form)) ph else ph)
    (save_profile fault ndk_ready form ph).1.
Proof.
  unfold save_profile, with_main_activity.
  match goal with |- context [with_env _ _ (fun ph => match _ with Some a => @?f a ph | None => (_, Err ?e) end)] =>
    destruct (with_slot_cases fault ndk_ready nt_activity e f ph) as (n & x & [[-> ->]|[-> ->]]) end; [auto with phone|].
  unfold with_args. destruct (form_args_cases fault (str "saved profile") form) as [[e ->]|(args & -> & E & _)]; [cbn; auto with phone|rewrite E].
  unfold call_method. destruct (fault _); cbn; [auto with phone|]. by split.
Qed.
Lemma clear_effect fault ndk_ready ph :
  frame (if is_Ret (clear_saved_profile fault ndk_ready ph).2 then on_prefs clearSavedProfile ph else ph)
    (clear_saved_profile fault ndk_ready ph).1.
Proof.
  unfold clear_saved_profile, with_main_activity.
  match goal with |- context [with_env _ _ (fun ph => match _ with Some a => @?f a ph | None => (_, Err ?e) end)] =>
    destruct (with_slot_cases fault ndk_ready nt_activity e f ph) as (n & x & [[-> ->]|[-> ->]]) end; [auto with phone|].
  unfold call_method. destruct (fault _); cbn; [auto with phone|]. by split.
Qed.
Lemma stop_by_service_effect fault ndk_ready ph :
  frame (if is_Ret (stop_by_service fault ndk_ready ph).2 then on_prefs clearManagedRecord ph else ph)
    (stop_by_service fault ndk_ready ph).1.
Proof.
  unfold stop_by_service, with_vpn_service.
  match goal with |- context [with_env _ _ (fun ph => match _ with Some a => @?f a ph | None => (_, Err ?e) end)] =>
    destruct (with_slot_cases fault ndk_ready nt_service e f ph) as (n & x & [[-> ->]|[-> ->]]) end; [auto with phone|].
  unfold call_method. destruct (fault _); cbn; [auto with phone|]. by split.
Qed.
Lemma stop_effect fault ndk_ready ph :
  frame (if is_Ret (stop_by_service fault ndk_ready ph).2 then on_prefs clearManagedRecord ph else ph)
    (stop_vpn_service fault ndk_ready ph).1.
Proof.
  pose proof (stop_by_service_effect fault ndk_ready ph) as H. unfold stop_vpn_service.
  destruct (stop_by_service fault ndk_ready ph) as [ph1 []]; cbn in *; try done.
  etrans; [exact H|]. call_rel frame frame_on_nt. cbn. auto with phone.
Qed.
(** The part of an event on the preferences. *)
Definition edit (o : op) (p : Prefs) : Prefs :=
  match o with
  | OSave profile => saveProfile profile p
  | OClear => clearSavedProfile p
  | OManage r => saveManagedRecord r p
  | OUnmanage => clearManagedRecord p
  | OServe _ | OStopped => p
  end.
Definition edits (os : list op) (ph : Phone) : Phone := on_prefs (fun p => foldl (fun p o => edit o p) p os) ph.
Lemma edits_nil ph : edits [] ph = ph.
Proof. by destruct ph. Qed.
Lemma call_effect fault ndk_ready c ph : frame (edits (ops (ECall fault ndk_ready c) ph) ph) (run_call fault ndk_ready c ph).
Proof.
  assert (∀ (b : bool) o ph', frame (if b then on_prefs (edit o) ph else ph) ph' → frame (edits (if b then [o] else []) ph) ph') as Hif
    by (intros [] o ph'; [done|by rewrite edits_nil]).
  destruct c; cbn [run_call ops]; rewrite ?edits_nil.
  - call_rel frame frame_on_nt. cbn. auto with phone.
  - call_rel frame frame_on_nt. cbn. auto with phone.
  - call_rel frame frame_on_nt. destruct (startManagedVpnFieldsFromRust _); [|done]. call_rel frame frame_on_nt. cbn. auto with phone.
  - apply (Hif _ OUnmanage), stop_effect.
  - apply (Hif _ (OSave _)), save_effect.
  - apply (Hif _ OClear), clear_effect.
  - call_rel frame frame_on_nt. cbn. auto with phone.
  - call_rel frame frame_on_nt. cbn. auto with phone.
  - call_rel frame frame_on_nt; [|done]. cbn. auto with phone.
  - call_rel frame frame_on_nt; [|done]. cbn. auto with phone.
  - unfold query_state.
    match goal with |- context [with_vpn_service _ _ ?f ph] => pose proof (service_rel fault ndk_ready frame frame_on_nt f ph (fun _ _ => frame_refl _)) as H;
      destruct (with_vpn_service fault ndk_ready f ph) as [ph1 []] end; cbn in *; try done.
    etrans; [exact H|]. by call_rel frame frame_on_nt.
Qed.

(** ** The refinement *)

Definition sim (s : Spec) (ph : Phone) : Prop := stored s (ph_prefs ph) ∧ ph_sent ph = sp_sent s.
Lemma stored_edit o s p : stored s p → stored (spec_apply s o) (edit o p).
Proof. destruct o; [apply stored_save|apply stored_clear|apply stored_manage|apply stored_unmanage|done|done]. Qed.
Lemma sim_frame s ph ph' : frame ph ph' → sim s ph → sim s ph'.
Proof. intros [Hp Hs _ _ _ _] [H1 H2]. split; [by rewrite Hp|by rewrite Hs]. Qed.
Lemma sim_edit o s ph : sp_sent (spec_apply s o) = sp_sent s → sim s ph → sim (spec_apply s o) (on_prefs (edit o) ph).
Proof. intros E [H1 H2]. split; [by apply stored_edit|by rewrite E]. Qed.
Lemma sim_call fault ndk_ready c s ph :
  sim s ph → sim (foldl spec_apply s (ops (ECall fault ndk_ready c) ph)) (run_call fault ndk_ready c ph).
Proof.
  intros H. eapply sim_frame; [apply call_effect|]. destruct c; cbn [ops]; try (by rewrite edits_nil);
    destruct (is_Ret _); try (by rewrite edits_nil); by apply (sim_edit _ s ph).
Qed.
Lemma sim_start s intent primed established readable ph :
  sim s ph → ∃ ph', start_service intent primed established readable ph = Ret ph' ∧ sim (spec_apply s (OServe readable)) ph'.
Proof.
  intros Hs. assert (∀ id ph, sim s ph → ∃ ph', onStartCommand id intent established readable ph = Ret ph' ∧
    sim (spec_apply s (OServe readable)) ph') as Hcmd.
  { clear. intros id ph [H1 H2]. unfold onStartCommand. rewrite (stored_load _ _ H1). cbn [mbind outcome_bind]. eexists. split; [done|].
    destruct s as [profile [r|] sent]; cbn in H2 |- *; [|split; [done|cbn; by rewrite app_nil_r]].
    unfold nativeStartManagedRuntime. cbv zeta. destruct readable; cbn [negb]; (split; [done|cbn]).
    - by rewrite H2.
    - by rewrite app_nil_r. }
  unfold start_service. destruct (kt_service (ph_kt ph)); by apply Hcmd.
Qed.
Lemma step_refines e s ph r :
  sim s ph → phone_step e ph = Some r → ∃ ph', r = Ret ph' ∧ sim (foldl spec_apply s (ops e ph)) ph'.
Proof.
  intros Hs H. destruct e; cbn [phone_step ops] in *.
  - injection H as <-. eexists. split; [done|]. by apply sim_call.
  - destruct (kt_ui (ph_kt ph)) as [|t ui]; [done|]. injection H as <-. eexists. split; [done|].
    destruct t; cbn [run_ui_task ph_allowed on_kt]; unfold requestVpnPermission; cbn [ph_allowed on_kt]; destruct (ph_allowed ph) eqn:E;
      cbn [negb]; rewrite ?E.
    all: first [exact (sim_edit OUnmanage s ph eq_refl Hs)|exact (sim_edit (OManage (mkRecord profile socks_host socks_port)) s ph eq_refl Hs)|done].
  - destruct (ph_requests ph) as [|[host port|] rs]; [done| |]; injection H as <-.
    + by apply sim_start.
    + eexists. split; [done|]. destruct (kt_service (ph_kt (set_restart false (set_requests rs ph)))) as [id|] eqn:E; cbn in E; rewrite E; [|done].
      destruct Hs as [H1 H2]. split; [done|]. cbn. by rewrite H2.
  - destruct (ph_restart ph); [|done]. injection H as <-. by apply sim_start.
  - injection H as <-. by eexists.
  - case_decide; [|done]. injection H as <-. eexists. split; [done|]. unfold onPermissionResult. by destruct ok.
  - injection H as <-. eexists. split; [done|]. by case_match.
  - injection H as <-. by eexists.
  - destruct (kt_activity _); [|done]. injection H as <-. by eexists.
  - destruct (kt_activity _); [|done]. injection H as <-. by eexists.
  - injection H as <-. by eexists.
  - injection H as <-. by eexists.
Qed.
Lemma phone_run_cons e es ph ph' : phone_step e ph = Some (Ret ph') → phone_run (e :: es) ph = phone_run es ph'.
Proof. intros E. cbn. by rewrite E. Qed.
Lemma run_refines es s ph r :
  sim s ph → phone_run es ph = Some r → ∃ ph', r = Ret ph' ∧ sim (foldl spec_apply s (run_ops es ph)) ph'.
Proof.
  revert s ph. induction es as [|e es IH]; intros s ph Hs H; [injection H as <-; by eexists|]. cbn in H |- *.
  destruct (phone_step e ph) as [r'|] eqn:E; [|done]. destruct (step_refines e s ph r' Hs E) as (ph' & -> & Hs').
  rewrite foldl_app. by apply IH.
Qed.

(** What a query shows of a saved profile: nothing if every text is blank and
    the switches are those of an absent one. *)
Definition shown_profile (o : option ManagedRuntimeProfile) : option FormState :=
  match o with
  | Some p =>
      if forallb blank (form_texts (form_of p)) && mp_localUdpEnabled p && negb (mp_quicDisablePathMtuDiscovery p) && mp_insecureTls p
      then None else Some (form_of p)
  | None => None
  end.
Lemma query_saved_mono f g f' g' o :
  (∀ k v, k ∈ PROFILE_KEYS → f k = Ret v → f' k = Ret v) → (∀ k d v, k ∈ PROFILE_KEYS → g k d = Ret v → g' k d = Ret v) →
  query_saved_profile f g = Ret o → query_saved_profile f' g' = Ret o.
Proof.
  intros Hf Hg H. unfold query_saved_profile in *. cbv zeta in *. returned H.
  repeat match goal with E : mbind _ (f ?k) = Ret _ |- _ =>
    let v := fresh "v" in apply bind_Ret_inv in E as (v & E & [= <-]); apply (Hf k v) in E; [|in_keys]; rewrite E; cbn [mbind outcome_bind] end.
  repeat match goal with E : g ?k ?d = Ret ?v |- _ => apply (Hg k d v) in E; [|in_keys]; rewrite E; cbn [mbind outcome_bind] end.
  exact H.
Qed.

(** The same reads without JNI. *)
Definition read_string (p : Prefs) (key : bytes) : outcome anyhow (option bytes) := map_err anyhow_msg (getString p key).
Definition read_bool (p : Prefs) (key : bytes) (d : bool) : outcome anyhow bool := map_err anyhow_msg (getBoolean p key d).
Lemma read_profile o : query_saved_profile (read_string (profile_prefs o)) (read_bool (profile_prefs o)) = Ret (shown_profile o).
Proof.
  destruct o as [[]|]; [|vm_compute; reflexivity]. unfold query_saved_profile, read_string, read_bool. cbv zeta.
  repeat match goal with |- context [getString ?q ?k] =>
    let v := eval vm_compute in (getString q k) in change (getString q k) with v; cbn [map_err mbind outcome_bind default] end.
  repeat match goal with |- context [getBoolean ?q ?k ?d] =>
    let v := eval vm_compute in (getBoolean q k d) in change (getBoolean q k d) with v; cbn [map_err mbind outcome_bind] end.
  unfold shown_profile. match goal with |- (if ?a then _ else _) = Ret (if ?b then _ else _) => change b with a; by destruct a end.
Qed.
Lemma keyed_Ret {A} fault make ctx key (a : outcome exception A) v : keyed fault make ctx key a = Ret v → a = Ret v.
Proof.
  unfold keyed, jni. destruct (fault (make ++ key)); [done|]. destruct (fault (ctx ++ key)); [done|].
  destruct a; [|done|done]. by intros [= ->].
Qed.
Lemma keyed_no_fault {A} make ctx key (a : outcome exception A) v : a = Ret v → keyed (fun _ => None) make ctx key a = Ret v.
Proof. by intros ->. Qed.
Lemma query_shown s ph fault ndk_ready o :
  stored s (ph_prefs ph) → (bridge_query_saved_profile fault ndk_ready ph).2 = Ret o → o = shown_profile (sp_profile s).
Proof.
  intros [Hp _] H. unfold bridge_query_saved_profile, with_main_activity, with_env in H.
  assert (∀ ctx (m : outcome anyhow (option FormState)) v, context ctx m = Ret v → m = Ret v) as Hctx by (by intros ctx []).
  assert (query_saved_profile (saved_profile_string fault ph) (saved_profile_bool fault ph) = Ret o) as Hq.
  { destruct (nt_vm (ph_nt ph)); [|destruct ndk_ready; [|done]]; cbn in H; (destruct (fault _); [done|]);
      (destruct (nt_activity (ph_nt ph)); [|done]); by apply Hctx in H. }
  enough (query_saved_profile (read_string (profile_prefs (sp_profile s))) (read_bool (profile_prefs (sp_profile s))) = Ret o) as E
    by (rewrite read_profile in E; by injection E).
  eapply query_saved_mono, Hq; intros *; intros Hk E; apply keyed_Ret in E; unfold read_string, read_bool.
  - by rewrite <- (getString_agree _ _ _ _ Hp Hk), E.
  - by rewrite <- (getBoolean_agree _ _ _ _ _ Hp Hk), E.
Qed.
Lemma query_answers s ph activity ndk_ready :
  stored s (ph_prefs ph) → nt_vm (ph_nt ph) = true → nt_activity (ph_nt ph) = Some activity →
  (bridge_query_saved_profile (fun _ => None) ndk_ready ph).2 = Ret (shown_profile (sp_profile s)).
Proof.
  intros [Hp _] Hv Ha.
  assert (query_saved_profile (saved_profile_string (fun _ => None) ph) (saved_profile_bool (fun _ => None) ph) =
    Ret (shown_profile (sp_profile s))) as E.
  { eapply query_saved_mono, read_profile; intros *; intros Hk E.
    - unfold read_string in E. rewrite <- (getString_agree _ _ _ _ Hp Hk) in E. apply keyed_no_fault.
      destruct (getString _ _); [|done|done]. by injection E as ->.
    - unfold read_bool in E. rewrite <- (getBoolean_agree _ _ _ _ _ Hp Hk) in E. apply keyed_no_fault.
      destruct (getBoolean _ _ _); [|done|done]. by injection E as ->. }
  unfold bridge_query_saved_profile, with_main_activity, with_env. rewrite Hv, Ha, E. reflexivity.
Qed.

(** C22: what Android keeps and what it tells the controller. Whatever the order of
    calls, tasks, deliveries, dialogs and ends of the process, and wherever JNI
    fails: the service never throws; the controller was told exactly what the
    abstract phone says, that is, every start of the service connects with the
    last managed form that was neither stopped nor replaced, also after the
    system restarted it; and a query of the saved profile that succeeds shows
    the last one that was saved and not cleared, and it succeeds when JNI
    answers. *)
Theorem phone_refines es r :
  phone_run es phone_new = Some r →
  let s := foldl spec_apply (mkSpec None None []) (run_ops es phone_new) in
  ∃ ph, r = Ret ph ∧ ph_sent ph = sp_sent s ∧ loadManagedRecord (ph_prefs ph) = Ret (sp_record s) ∧
    (∀ fault ndk_ready o, (bridge_query_saved_profile fault ndk_ready ph).2 = Ret o → o = shown_profile (sp_profile s)) ∧
    (∀ activity, nt_vm (ph_nt ph) = true → nt_activity (ph_nt ph) = Some activity →
       (bridge_query_saved_profile (fun _ => None) false ph).2 = Ret (shown_profile (sp_profile s))).
Proof.
  intros H s. destruct (run_refines es (mkSpec None None []) phone_new r) as (ph & -> & Hst & Hsent); [by split|done|].
  exists ph. split_and!; [done|done|by apply stored_load| |].
  - intros fault ndk_ready o. by apply query_shown.
  - intros activity. by apply query_answers.
Qed.

(** ** The service *)

(** Only the service that runs has an interface, and the class says so. *)
Record service_ok (ph : Phone) : Prop := mkServiceOk {
  so_open : ∀ id fd, kt_interfaces (ph_kt ph) !! id = Some (Some fd) → kt_service (ph_kt ph) = Some id ∧ kt_active (ph_kt ph) = true;
  so_active : kt_active (ph_kt ph) = true → ∃ id fd, kt_service (ph_kt ph) = Some id ∧ kt_interfaces (ph_kt ph) !! id = Some (Some fd);
  so_id : ∀ id, kt_service (ph_kt ph) = Some id → (id < length (kt_interfaces (ph_kt ph)))%nat;
  so_endpoint : is_Some (kt_endpoint (ph_kt ph)) → is_Some (kt_service (ph_kt ph))
}.
Lemma service_ok_frame ph ph' : frame ph ph' → service_ok ph → service_ok ph'.
Proof. intros [_ _ E1 E2 E3 E4] []. split; rewrite ?E1, ?E2, ?E3, ?E4; done. Qed.
Lemma service_ok_create primed ph : kt_service (ph_kt ph) = None → service_ok ph → service_ok (service_onCreate primed ph).
Proof.
  intros Hn [H1 H2 H3 H4]. split; cbn.
  - intros id fd [H|[_ [_ [=]]%list_lookup_singleton_Some]]%lookup_app_Some. destruct (H1 id fd H). congruence.
  - intros Ha. destruct (H2 Ha) as (id & fd & E & _). congruence.
  - intros id [= <-]. rewrite length_app. cbn. lia.
  - by eexists.
Qed.
Lemma service_ok_shell id host port established ph :
  kt_service (ph_kt ph) = Some id → service_ok ph → service_ok (startVpnShell id host port established ph).
Proof.
  intros Hid [H1 H2 H3 H4]. pose proof (H3 id Hid) as Hlt. unfold startVpnShell.
  destruct (kt_interfaces (ph_kt ph) !! id) as [[fd|]|] eqn:E.
  - split; cbn; rewrite E; cbn; done.
  - assert (∀ id' fd, kt_interfaces (ph_kt ph) !! id' = Some (Some fd) → False) as Hnone.
    { intros id' fd H. destruct (H1 id' fd H) as [H' _]. assert (id' = id) as -> by congruence. congruence. }
    split; cbn; rewrite E; cbn.
    + intros id' fd [(-> & -> & _)|(_ & H)]%list_lookup_insert_Some; [|by exfalso; eapply Hnone]. split; [done|]. by apply bool_decide_eq_true_2.
    + intros Ha%bool_decide_eq_true_1. destruct Ha as [fd ->]. exists id, fd. split; [done|]. by apply list_lookup_insert_eq.
    + intros id'. rewrite length_insert. apply H3.
    + by eexists.
  - apply lookup_ge_None_1 in E. lia.
Qed.
Lemma service_ok_destroy id ph : kt_service (ph_kt ph) = Some id → service_ok ph → service_ok (service_onDestroy id ph).
Proof.
  intros Hid [H1 H2 H3 H4]. split; cbn; rewrite ?Hid, ?decide_True by done; try done.
  intros id' fd [(_ & [=] & _)|(Hne & H)]%list_lookup_insert_Some. destruct (H1 id' fd H). congruence.
Qed.
Lemma service_ok_command id intent established readable ph ph' :
  kt_service (ph_kt ph) = Some id → service_ok ph → onStartCommand id intent established readable ph = Ret ph' → service_ok ph'.
Proof.
  intros Hid Hok H. unfold onStartCommand in H. apply bind_Ret_inv in H as (record & _ & [= <-]).
  match goal with |- context [startVpnShell id ?h ?p established ph] => pose proof (service_ok_shell id h p established ph Hid Hok) as Hs end.
  destruct record; [|done]. unfold nativeStartManagedRuntime. cbv zeta. destruct readable; by destruct Hs.
Qed.
Lemma service_ok_start intent primed established readable ph ph' :
  service_ok ph → start_service intent primed established readable ph = Ret ph' → service_ok ph'.
Proof.
  intros Hok H. unfold start_service in H. destruct (kt_service (ph_kt ph)) as [id|] eqn:E.
  - by eapply service_ok_command.
  - eapply service_ok_command, H; [done|]. by apply service_ok_create.
Qed.
Lemma requestVpnPermission_frame ph : frame ph (requestVpnPermission ph).
Proof. unfold requestVpnPermission. by case_match. Qed.
Lemma service_ok_step e ph ph' : service_ok ph → phone_step e ph = Some (Ret ph') → service_ok ph'.
Proof.
  intros Hok H. assert (∀ os, service_ok (edits os ph)) as Hed by (intros os; by destruct Hok).
  destruct e; cbn [phone_step] in H.
  - injection H as <-. eapply service_ok_frame; [apply call_effect|apply Hed].
  - destruct (kt_ui (ph_kt ph)) as [|t ui]; [done|]. injection H as <-.
    assert (service_ok (on_kt (set_ui ui) ph)) as Hok' by (by destruct Hok). clear Hok.
    assert (service_ok (requestVpnPermission (on_kt (set_ui ui) ph))) as Hreq
      by (eapply service_ok_frame; [apply requestVpnPermission_frame|done]).
    destruct t; cbn [run_ui_task]; try destruct (negb _); try exact Hreq; (destruct Hok'; by split).
  - destruct (ph_requests ph) as [|[host port|] rs]; [done| |]; injection H as H.
    + eapply service_ok_start, H. by destruct Hok.
    + subst ph'. case_match; [apply service_ok_destroy; [done|]|]; destruct Hok; by split.
  - destruct (ph_restart ph); [|done]. injection H as H. eapply service_ok_start, H. by destruct Hok.
  - injection H as <-. split; cbn; done.
  - case_decide; [|done]. injection H as <-. unfold onPermissionResult. destruct ok; by destruct Hok.
  - injection H as <-. case_match; by destruct Hok.
  - injection H as <-. destruct intent; by destruct Hok.
  - destruct (kt_activity _); [|done]. injection H as <-. destruct intent; by destruct Hok.
  - destruct (kt_activity _); [|done]. injection H as <-. by destruct Hok.
  - injection H as <-. by destruct Hok.
  - injection H as <-. by destruct Hok.
Qed.
Lemma run_invariant (P : Phone → Prop) es ph ph' :
  (∀ e ph ph', e ∈ es → P ph → phone_step e ph = Some (Ret ph') → P ph') → P ph → phone_run es ph = Some (Ret ph') → P ph'.
Proof.
  revert ph. induction es as [|e es IH]; intros ph Hstep HP H; [by injection H as <-|]. cbn in H.
  destruct (phone_step e ph) as [[ph1| |]|] eqn:E; try done.
  apply (IH ph1); [|by apply (Hstep e ph ph1); [left| |]|done]. intros e' ph2 ph3 He. apply Hstep. by right.
Qed.

(** What [query_state] says. *)
Lemma query_state_says fault ndk_ready ph st :
  (query_state fault ndk_ready ph).2 = Ret st →
  vs_available st = true ∧ vs_active st = kt_active (ph_kt ph) ∧
  (vs_permission_granted st = kt_active (ph_kt ph) || ph_allowed ph ∨ vs_permission_granted st = kt_permissionGranted (ph_kt ph) || ph_allowed ph).
Proof.
  assert (∀ p1 c1 p2 c2 ctx (a b : bool), context ctx (vpn_state_of (jni fault p1 c1 a) (jni fault p2 c2 b)) = Ret st → st = mkVpn true a b) as Hst.
  { intros *. unfold vpn_state_of, jni. destruct (fault p1); [done|]. cbn. destruct (fault p2); [done|]. by intros [= <-]. }
  unfold query_state, with_vpn_service, with_main_activity, with_env. intros H.
  destruct (nt_vm (ph_nt ph)) eqn:Ev; [|destruct ndk_ready; [|done]]; cbn [negb] in H.
  all: destruct (fault (str "attach")); cbn in H; rewrite ?Ev in H; [done|].
  all: destruct (nt_service (ph_nt ph)); cbn in H; rewrite ?Ev in H.
  all: try (destruct (context _ (vpn_state_of _ _)) eqn:E; cbn in H; rewrite ?Ev in H; [|..|done];
    [injection H as ->; apply Hst in E as ->; by split_and!; [..|left]|]).
  all: destruct (nt_activity (ph_nt ph)); cbn in H; [apply Hst in H as ->; by split_and!; [..|right]|done].
Qed.

(** C23: the interface of the VPN. In every run, an interface is open only if its
    service is the one that runs, so a service that was destroyed left none
    behind; and a query of the state that succeeds says active exactly if the
    running service has an interface, and never denies a permission that the
    system gave. *)
Theorem vpn_interface_owned es ph :
  phone_run es phone_new = Some (Ret ph) →
  (∀ id fd, kt_interfaces (ph_kt ph) !! id = Some (Some fd) → kt_service (ph_kt ph) = Some id) ∧
  (is_Some (kt_endpoint (ph_kt ph)) → is_Some (kt_service (ph_kt ph))) ∧
  ∀ fault ndk_ready st, (query_state fault ndk_ready ph).2 = Ret st →
    (vs_active st = true ↔ ∃ id fd, kt_service (ph_kt ph) = Some id ∧ kt_interfaces (ph_kt ph) !! id = Some (Some fd)) ∧
    (ph_allowed ph = true → vs_permission_granted st = true).
Proof.
  intros H. assert (service_ok ph) as [H1 H2 H3 H4].
  { eapply (run_invariant service_ok), H; [intros e ph1 ph2 _; apply service_ok_step|]. split; cbn; done. }
  split_and!; [intros id fd Hi; by apply (H1 id fd)|done|]. intros fault ndk_ready st Hq.
  destruct (query_state_says _ _ _ _ Hq) as (_ & -> & Hp). split.
  - split; [apply H2|]. intros (id & fd & Hs & Hi). by apply (H1 id fd).
  - intros Ha. destruct Hp as [->| ->]; rewrite Ha; apply orb_true_r.
Qed.

(** ** Managed starts *)

Definition posts (P : ui_task → Prop) (ph ph' : Phone) : Prop := ∃ ts, kt_ui (ph_kt ph') = kt_ui (ph_kt ph) ++ ts ∧ Forall P ts.
#[global] Instance posts_preorder P : PreOrder (posts P).
Proof.
  split; [intros ph; exists []; by rewrite app_nil_r|]. intros ph1 ph2 ph3 (ts & E1 & H1) (ts' & E2 & H2). exists (ts ++ ts').
  rewrite E2, E1, app_assoc. split; [done|]. by apply Forall_app.
Qed.
Lemma posts_on_nt P n ph : posts P ph (on_nt n ph).
Proof. exists []. by rewrite app_nil_r. Qed.
Lemma posts_one (P : ui_task → Prop) t ph : P t → posts P ph (post t ph).
Proof. intros Ht. exists [t]. split; [done|by constructor]. Qed.
Lemma posts_none P ph ph' : kt_ui (ph_kt ph') = kt_ui (ph_kt ph) → posts P ph ph'.
Proof. intros E. exists []. by rewrite E, app_nil_r. Qed.

(** A task that starts a profile with the property. *)
Definition starts_from (Q : ManagedRuntimeProfile → Prop) (t : ui_task) : Prop :=
  match t with TStartManaged profile _ _ => Q profile | _ => True end.
Lemma call_posts Q fault ndk_ready c ph :
  (∀ form host port, c = CStartManaged form host port → Q (profile_of form)) → posts (starts_from Q) ph (run_call fault ndk_ready c ph).
Proof.
  intros HQ. pose proof (posts_on_nt (starts_from Q)) as Hnt. destruct c; cbn [run_call].
  all: try (call_rel (posts (starts_from Q)) Hnt; first [by apply posts_one|by apply posts_none]).
  - unfold start_managed_vpn. apply (main_rel _ _ (posts (starts_from Q)) Hnt). intros activity ph'. unfold with_args.
    destruct (form_args_cases fault (str "managed VPN") form) as [[e ->]|(args & -> & _ & E)]; cbn; [done|].
    unfold new_string, jni. destruct (fault _); cbn; [done|]. rewrite E. apply (call_method_rel _ (posts (starts_from Q))).
    apply posts_one. by eapply HQ.
  - unfold stop_vpn_service.
    assert (posts (starts_from Q) ph (stop_by_service fault ndk_ready ph).1) as H
      by (call_rel (posts (starts_from Q)) Hnt; by apply posts_none).
    destruct (stop_by_service fault ndk_ready ph) as [ph1 []]; cbn in *; try done. etrans; [exact H|].
    call_rel (posts (starts_from Q)) Hnt. by apply posts_one.
  - call_rel (posts (starts_from Q)) Hnt. destruct (saveProfileFromRust _); [|done]. call_rel (posts (starts_from Q)) Hnt. by apply posts_none.
  - unfold query_state.
    match goal with |- context [with_vpn_service _ _ ?f ph] => assert (posts (starts_from Q) ph (with_vpn_service fault ndk_ready f ph).1) as H
      by (by call_rel (posts (starts_from Q)) Hnt); destruct (with_vpn_service fault ndk_ready f ph) as [ph1 []] end; cbn in *; try done.
    etrans; [exact H|]. by call_rel (posts (starts_from Q)) Hnt.
Qed.
Definition tasks_from (Q : ManagedRuntimeProfile → Prop) (ph : Phone) : Prop := Forall (starts_from Q) (kt_ui (ph_kt ph)).
Definition calls_from (Q : ManagedRuntimeProfile → Prop) (e : event) : Prop :=
  match e with ECall _ _ (CStartManaged form _ _) => Q (profile_of form) | _ => True end.
Lemma start_service_ui intent primed established readable ph ph' :
  start_service intent primed established readable ph = Ret ph' → kt_ui (ph_kt ph') = kt_ui (ph_kt ph).
Proof.
  assert (∀ id ph, onStartCommand id intent established readable ph = Ret ph' → kt_ui (ph_kt ph') = kt_ui (ph_kt ph)) as Hcmd.
  { clear. intros id ph H. unfold onStartCommand in H. apply bind_Ret_inv in H as (record & _ & [= <-]).
    assert (∀ host port, kt_ui (ph_kt (startVpnShell id host port established ph)) = kt_ui (ph_kt ph)) as Hs
      by (intros; unfold startVpnShell; cbn; by repeat case_match).
    destruct record; [|by rewrite Hs]. unfold nativeStartManagedRuntime. cbv zeta. destruct readable; exact (Hs _ _). }
  intros H. unfold start_service in H. destruct (kt_service (ph_kt ph)); by apply Hcmd in H.
Qed.
Lemma tasks_from_step Q e ph ph' : calls_from Q e → tasks_from Q ph → phone_step e ph = Some (Ret ph') → tasks_from Q ph'.
Proof.
  unfold tasks_from. intros Hc Ht H. destruct e; cbn [phone_step] in H.
  - injection H as <-. destruct (call_posts Q fault ndk_ready c ph) as (ts & -> & Hts); [by intros form host port ->|]. by apply Forall_app.
  - destruct (kt_ui (ph_kt ph)) as [|t ui]; [done|]. injection H as <-. apply Forall_cons in Ht as [_ Ht].
    destruct t; cbn [run_ui_task]; unfold requestVpnPermission; repeat case_match; done.
  - destruct (ph_requests ph) as [|[host port|] rs]; [done| |]; injection H as H.
    + by rewrite (start_service_ui _ _ _ _ _ _ H).
    + subst ph'. by case_match.
  - destruct (ph_restart ph); [|done]. injection H as H. by rewrite (start_service_ui _ _ _ _ _ _ H).
  - injection H as <-. constructor.
  - case_decide; [|done]. injection H as <-. unfold onPermissionResult. by destruct ok.
  - injection H as <-. by case_match.
  - injection H as <-. by destruct intent.
  - destruct (kt_activity _); [|done]. injection H as <-. by destruct intent.
  - destruct (kt_activity _); [|done]. by injection H as <-.
  - by injection H as <-.
  - by injection H as <-.
Qed.

Definition spec_from (Q : ManagedRuntimeProfile → Prop) (s : Spec) : Prop :=
  (∀ r, sp_record s = Some r → Q (mr_profile r)) ∧ ∀ g, ManagedConnect g ∈ sp_sent s → ∃ profile, Q profile ∧ g = form_of profile.
Lemma spec_from_apply Q s o :
  match o with OManage r => Q (mr_profile r) | _ => True end → spec_from Q s → spec_from Q (spec_apply s o).
Proof.
  intros Ho [H1 H2]. destruct o; try by split.
  - split; [|done]. by intros r' [= <-].
  - split; [done|]. cbn. intros g [Hg|Hg]%elem_of_app; [by apply H2|]. destruct (sp_record s) as [r|]; [|set_solver].
    destruct readable; [|set_solver]. apply list_elem_of_singleton in Hg as [= ->]. exists (mr_profile r). split; [by apply H1|done].
  - split; [done|]. cbn. intros g [Hg|Hg]%elem_of_app; [by apply H2|]. by apply list_elem_of_singleton in Hg.
Qed.
Lemma spec_from_ops Q e s ph : tasks_from Q ph → spec_from Q s → spec_from Q (foldl spec_apply s (ops e ph)).
Proof.
  intros Ht Hs. assert (Forall (fun o => match o with OManage r => Q (mr_profile r) | _ => True end) (ops e ph)) as Ho.
  { unfold tasks_from in Ht. destruct e; cbn [ops]; try by repeat constructor.
    - destruct c; try case_match; by repeat constructor.
    - destruct (kt_ui (ph_kt ph)) as [|t ui]; [constructor|]. apply Forall_cons in Ht as [Ht _].
      destruct t; try case_match; by repeat constructor.
    - repeat case_match; by repeat constructor. }
  revert s Hs. induction Ho as [|o os Ho Hos IH]; intros s Hs; [done|]. cbn. by apply IH, spec_from_apply.
Qed.
Lemma run_from Q es s ph ph' :
  Forall (calls_from Q) es → tasks_from Q ph → spec_from Q s → phone_run es ph = Some (Ret ph') →
  spec_from Q (foldl spec_apply s (run_ops es ph)).
Proof.
  intros Hes. revert s ph. induction Hes as [|e es He Hes IH]; intros s ph Ht Hs H; [done|]. cbn in H |- *.
  destruct (phone_step e ph) as [[ph1| |]|] eqn:E; try done. rewrite foldl_app. apply IH; [by eapply tasks_from_step|by apply spec_from_ops|done].
Qed.

Lemma load_saved r p : loadManagedRecord (saveManagedRecord r p) = Ret (Some r).
Proof. rewrite (load_agree _ (record_prefs (Some r))); [apply load_record|]. apply (put_all_agree (record_puts r)). Qed.
Lemma start_call_posts form host port activity ph :
  nt_vm (ph_nt ph) = true → nt_activity (ph_nt ph) = Some activity →
  run_call (fun _ => None) false (CStartManaged form host port) ph = post (TStartManaged (profile_of form) host port) ph.
Proof. intros Hv Ha. cbn [run_call]. unfold start_managed_vpn, with_main_activity, with_env. rewrite Hv, Ha. reflexivity. Qed.
Lemma shell_active id host port established ph :
  (∀ id fd, kt_interfaces (ph_kt ph) !! id = Some (Some fd) → kt_active (ph_kt ph) = true) → is_Some established →
  kt_active (ph_kt (startVpnShell id host port established ph)) = true.
Proof.
  intros Hopen He. unfold startVpnShell. cbn. destruct (kt_interfaces (ph_kt ph) !! id) as [[fd|]|] eqn:E; cbn;
    [by eapply Hopen|by apply bool_decide_eq_true_2..].
Qed.
Lemma serve_managed r host port primed established ph :
  (∀ id fd, kt_interfaces (ph_kt ph) !! id = Some (Some fd) → kt_active (ph_kt ph) = true) → loadManagedRecord (ph_prefs ph) = Ret (Some r) →
  ∃ ph', start_service (Some (host, port)) primed established true ph = Ret ph' ∧
    ph_sent ph' = ph_sent ph ++ [ManagedConnect (form_of (mr_profile r))] ∧ (is_Some established → kt_active (ph_kt ph') = true).
Proof.
  intros Hopen Hl.
  assert (∀ id ph, (∀ id fd, kt_interfaces (ph_kt ph) !! id = Some (Some fd) → kt_active (ph_kt ph) = true) →
    loadManagedRecord (ph_prefs ph) = Ret (Some r) → ∃ ph', onStartCommand id (Some (host, port)) established true ph = Ret ph' ∧
    ph_sent ph' = ph_sent ph ++ [ManagedConnect (form_of (mr_profile r))] ∧ (is_Some established → kt_active (ph_kt ph') = true)) as Hcmd.
  { clear. intros id ph Hopen Hl. unfold onStartCommand. rewrite Hl. cbn [mbind outcome_bind]. eexists. split_and!; [done|done|].
    intros He. exact (shell_active id _ _ established ph Hopen He). }
  unfold start_service. destruct (kt_service (ph_kt ph)); [by apply Hcmd|]. apply (Hcmd _ (service_onCreate primed ph)); [|done].
  cbn. intros id fd [Hi|[_ [_ [=]]%list_lookup_singleton_Some]]%lookup_app_Some. by eapply Hopen.
Qed.

(** A managed start reaches the controller. From any state a run reaches in
    which the system allows the VPN, the activity is known and nothing is waiting,
    a call to start the managed VPN, its task and the delivery of the service
    tell the controller to connect with the form of the call, field by field,
    without its import text. And in any run, whatever the controller is told to
    connect with is the form of such a call. *)
Theorem managed_start_delivered es ph :
  phone_run es phone_new = Some (Ret ph) →
  (∀ g, ManagedConnect g ∈ ph_sent ph →
     ∃ fault ndk_ready form host port, ECall fault ndk_ready (CStartManaged form host port) ∈ es ∧ g = with_import_uri form []) ∧
  (∀ activity form host port primed established,
     ph_allowed ph = true → nt_vm (ph_nt ph) = true → nt_activity (ph_nt ph) = Some activity → kt_ui (ph_kt ph) = [] → ph_requests ph = [] →
     ∃ ph', phone_run [ECall (fun _ => None) false (CStartManaged form host port); EUi; EDeliver primed established true] ph = Some (Ret ph') ∧
       ph_sent ph' = ph_sent ph ++ [ManagedConnect (with_import_uri form [])] ∧
       (is_Some established → kt_active (ph_kt ph') = true)).
Proof.
  intros H. destruct (run_refines es (mkSpec None None []) phone_new (Ret ph)) as (ph0 & [= <-] & Hsim); [by split|done|]. split.
  - set (Q profile := ∃ fault ndk_ready form host port, ECall fault ndk_ready (CStartManaged form host port) ∈ es ∧ profile = profile_of form).
    assert (spec_from Q (foldl spec_apply (mkSpec None None []) (run_ops es phone_new))) as [_ Hq].
    { eapply run_from, H; [|constructor|split; [done|intros g Hg; set_solver]].
      apply Forall_forall. intros [fault ndk_ready []| | | | | | | | | | |] He; try done. cbn. unfold Q. by do 5 eexists. }
    intros g Hg. destruct Hsim as [_ Hsent]. rewrite Hsent in Hg.
    destruct (Hq g Hg) as (profile & (fault & ndk_ready & form & host & port & He & ->) & ->). by do 5 eexists.
  - intros activity form host port primed established Hal Hvm Hact Hui Hreq.
    assert (service_ok ph) as [Hopen _ _ _]
      by (eapply (run_invariant service_ok), H; [intros e ph1 ph2 _; apply service_ok_step|split; cbn; done]).
    set (task := TStartManaged (profile_of form) host port). set (record := mkRecord (profile_of form) host port).
    set (asked := startManaged (profile_of form) host port (on_kt (set_granted true) (on_kt (set_ui []) (post task ph)))).
    assert (phone_step EUi (post task ph) = Some (Ret asked)) as E1
      by (unfold phone_step; cbn [post ph_kt on_kt kt_ui set_ui]; rewrite Hui; cbn -[startManaged]; by rewrite Hal).
    assert (ph_requests asked = [RStart host port]) as E2 by (cbn; by rewrite Hreq).
    destruct (serve_managed record host port primed established (set_restart false (set_requests [] asked))) as (ph' & Hp & Hs & Ha);
      [intros id fd Hi; by eapply Hopen|apply load_saved|].
    exists ph'. split_and!; [|exact Hs|done]. rewrite (phone_run_cons _ _ _ (run_call (fun _ => None) false (CStartManaged form host port) ph)) by done.
    rewrite (start_call_posts _ _ _ _ _ Hvm Hact), (phone_run_cons _ _ _ _ E1). rewrite (phone_run_cons _ _ _ ph'); [done|].
    unfold phone_step. by rewrite E2, Hp.
Qed.

(** *** Witnesses *)

Definition no_fault (_ : bytes) : option anyhow := None.
Definition phone_form : FormState := set_field FAuth (str "secret") (set_field FServer (str "h.example:443") form_default).
Definition phone_events : list event :=
  [EActivity None true; ECall no_fault false CRequestPermission; EUi; EPermission true; ECall no_fault false (CSave phone_form);
   ECall no_fault false (CStartManaged phone_form (str "127.0.0.1") 1080); EUi; EDeliver true (Some 42) true; EKill;
   ERestart true (Some 43) true; EActivity None true].
Definition phone_end : Phone := match phone_run phone_events phone_new with Some (Ret ph) => ph | _ => phone_new end.
Lemma phone_events_run : phone_run phone_events phone_new = Some (Ret phone_end).
Proof.
  assert (match phone_run phone_events phone_new with Some (Ret _) => true | _ => false end = true) as H by (vm_compute; reflexivity).
  unfold phone_end. destruct (phone_run phone_events phone_new) as [[]|]; [reflexivity|discriminate H..].
Qed.
Lemma phone_refines_witness :
  phone_run phone_events phone_new = Some (Ret phone_end) ∧ ph_sent phone_end = [ManagedConnect phone_form; ManagedConnect phone_form] ∧
  (bridge_query_saved_profile no_fault false phone_end).2 = Ret (Some phone_form).
Proof.
  pose proof phone_events_run as H.
  destruct (phone_refines _ _ H) as (ph & E & Hs & _ & _ & Hq). apply Ret_inj in E. subst ph.
  split; [exact H|]. split; [rewrite Hs; vm_compute; reflexivity|].
  change (bridge_query_saved_profile no_fault false phone_end) with (bridge_query_saved_profile (fun _ => None) false phone_end).
  rewrite (Hq 0%nat); vm_compute; reflexivity.
Defined.
Lemma vpn_interface_owned_witness :
  phone_run phone_events phone_new = Some (Ret phone_end) ∧
  (query_state no_fault false phone_end).2 = Ret (mkVpn true true true) ∧
  ∃ id fd, kt_service (ph_kt phone_end) = Some id ∧ kt_interfaces (ph_kt phone_end) !! id = Some (Some fd).
Proof.
  pose proof phone_events_run as H.
  destruct (vpn_interface_owned _ _ H) as (_ & _ & Hq).
  assert ((query_state no_fault false phone_end).2 = Ret (mkVpn true true true)) as E by (vm_compute; reflexivity).
  split; [exact H|]. split; [exact E|]. apply (Hq no_fault false (mkVpn true true true) E). reflexivity.
Defined.
Lemma managed_start_delivered_witness :
  phone_run phone_events phone_new = Some (Ret phone_end) ∧
  ∃ ph', phone_run [ECall (fun _ => None) false (CStartManaged phone_form (str "127.0.0.1") 1080); EUi; EDeliver true (Some 44) true] phone_end
    = Some (Ret ph') ∧ length (ph_sent ph') = 3%nat.
Proof.
  pose proof phone_events_run as H.
  split; [exact H|].
  destruct (proj2 (managed_start_delivered _ _ H) 0%nat phone_form (str "127.0.0.1") 1080 true (Some 44)) as (ph' & Hr & Hs & _);
    [vm_compute; reflexivity..|].
  exists ph'. split; [exact Hr|]. rewrite Hs. vm_compute. reflexivity.
Defined.
