(* ===== verification/Imports.v ===== *)
(** * What the user imports ([mobile/src/android_bridge.rs], [mobile/android/MainActivity.kt])

    A document or a certificate the user picks goes from the activity to the
    application as one string, and so does the list of certificates: what the
    application reads is what the activity wrote. *)
From S2P Require Import Prelude Errors RustStr Limit Net HttpProxy Config Anyhow MobileForm MobileStatus Controller MobileView MobileApp Android Bridge.
Local Open Scope Z_scope.

Lemma blank_visible b s : visible b → blank (b :: s) = false.
Proof.
  intros Hb. unfold blank, trim, trim_start. rewrite trim_ws_0 by (by apply ws_len_visible_head). unfold trim_end. rewrite reverse_cons.
  destruct (trim_ws_last (length (b :: s)) (reverse s) b Hb) as [l' ->]. apply bool_decide_eq_false_2.
  rewrite reverse_snoc. done.
Qed.

Lemma payload_parts_result what tag name rest :
  tag = str "ok" ∨ tag = str "err" → UNIT_SEPARATOR ∉ name →
  payload_parts what (import_result tag [name; rest]) =
    if decide (tag = str "ok") then Ret (Some (name, rest)) else Err (anyhow_msg name).
Proof.
  intros Htag Hn. unfold payload_parts. assert (import_result tag [name; rest] = tag ++ UNIT_SEPARATOR :: name ++ UNIT_SEPARATOR :: rest) as ->
    by (unfold import_result; cbn; by rewrite app_nil_r).
  assert (blank (tag ++ UNIT_SEPARATOR :: name ++ UNIT_SEPARATOR :: rest) = false) as ->
    by (destruct Htag as [-> | ->]; [apply (blank_visible 111)|apply (blank_visible 101)]; unfold visible; lia).
  unfold splitn_3. rewrite split_once_app by (destruct Htag as [-> | ->]; vm_compute; set_solver). rewrite split_once_app by done.
  cbn [lookup list_lookup default from_option id]. destruct Htag as [-> | ->]; reflexivity.
Qed.
Lemma payload_error what message :
  UNIT_SEPARATOR ∉ message → payload_parts what (import_result (str "err") [message]) = Err (anyhow_msg message).
Proof.
  intros Hn. unfold payload_parts. assert (import_result (str "err") [message] = str "err" ++ UNIT_SEPARATOR :: message) as ->
    by (unfold import_result; cbn; by rewrite app_nil_r).
  assert (blank (str "err" ++ UNIT_SEPARATOR :: message) = false) as -> by (apply (blank_visible 101); unfold visible; lia).
  unfold splitn_3. rewrite split_once_app by (vm_compute; set_solver).
  assert (split_once UNIT_SEPARATOR message = None) as -> by (by apply split_once_None). reflexivity.
Qed.

(** *** The list of certificates *)

Definition listing_of (files : list CaFile) : bytes := join newline (map (fun f => cafile_name f ++ 9 :: cafile_path f) files).
(** A text that [trim] leaves alone. *)
Definition trimmed (s : bytes) : Prop := s ≠ [] ∧ trim s = s.
Definition plain_file (f : CaFile) : Prop :=
  trimmed (cafile_name f) ∧ trimmed (cafile_path f) ∧ 9 ∉ cafile_name f ∧ 10 ∉ cafile_name f ∧ 10 ∉ cafile_path f.

Lemma split_char_app c l s : c ∉ l → split_char c (l ++ c :: s) = l :: split_char c s.
Proof.
  induction l as [|b l IH]; intros Hc; [cbn; by rewrite decide_True|]. cbn. rewrite decide_False by set_solver. by rewrite IH by set_solver.
Qed.
Lemma split_char_none c l : c ∉ l → split_char c l = [l].
Proof. induction l as [|b l IH]; intros Hc; [done|]. cbn. rewrite decide_False by set_solver. by rewrite IH by set_solver. Qed.
Lemma split_char_join c ls : ls ≠ [] → Forall (fun l => c ∉ l) ls → split_char c (join [c] ls) = ls.
Proof.
  induction ls as [|l ls IH]; intros Hne Hall; [done|]. apply Forall_cons in Hall as [Hl Hall]. destruct ls as [|l' ls].
  - by apply split_char_none.
  - change (join [c] (l :: l' :: ls)) with (l ++ c :: join [c] (l' :: ls)). by rewrite split_char_app, IH.
Qed.
Lemma trim_ws_length wl fuel s : (length (trim_ws wl fuel s) ≤ length s)%nat.
Proof.
  revert s. induction fuel as [|fuel IH]; intros s; [done|]. cbn. destruct (wl s); [done|]. etrans; [apply IH|]. rewrite length_drop. lia.
Qed.
Lemma trimmed_no_cr s : trim s = s → ∀ r, reverse s ≠ 13 :: r.
Proof.
  intros Ht r Hr. assert (length (trim s) = length s) as Hl by (by rewrite Ht). unfold trim, trim_end in Hl. rewrite length_reverse in Hl.
  pose proof (trim_ws_length ws_len (length s) s) as H1. fold (trim_start s) in H1.
  pose proof (trim_ws_length ws_len_rev (length (trim_start s)) (reverse (trim_start s))) as H2. rewrite length_reverse in H2.
  assert (trim_start s = s) as Hs.
  { assert (∀ fuel q, ∃ n, trim_ws ws_len fuel q = drop n q) as Hd.
    { induction fuel as [|fuel IH]; intros q; [by exists O|]. cbn. destruct (ws_len q) as [|k]; [by exists O|].
      destruct (IH (drop (S k) q)) as [n ->]. exists (S k + n)%nat. apply drop_drop. }
    destruct (Hd (length s) s) as [n Hn]. unfold trim_start in *. rewrite Hn in *. rewrite length_drop in *.
    destruct (decide (s = [])) as [->|Hne]; [by rewrite drop_nil|]. assert (length s ≠ O) by (by destruct s). by assert (n = O) as -> by lia. }
  rewrite Hs, Hr in Hl. assert (length s = S (length r)) as Hlen by (by rewrite <- length_reverse, Hr). rewrite Hlen in Hl.
  change (trim_ws ws_len_rev (S (length r)) (13 :: r)) with (trim_ws ws_len_rev (length r) r) in Hl.
  pose proof (trim_ws_length ws_len_rev (length r) r). lia.
Qed.
Lemma lines_join ls : Forall (fun l => l ≠ [] ∧ 10 ∉ l ∧ ∀ r, reverse l ≠ 13 :: r) ls → lines (join newline ls) = ls.
Proof.
  intros H. destruct (decide (ls = [])) as [->|Hne]; [done|]. unfold lines, newline. rewrite split_char_join;
    [|done|by eapply Forall_impl; [exact H|naive_solver]].
  destruct (exists_last Hne) as (init & l & ->). rewrite removelast_last, last_snoc. apply Forall_app in H as [Hi [Hl _]%Forall_cons].
  f_equal; [|by destruct Hl as [? _], l]. rewrite <- (map_id init) at 2. apply map_ext_Forall.
  eapply Forall_impl; [exact Hi|]. intros x (_ & _ & Hx). specialize (Hx). destruct (reverse x) as [|c r] eqn:E; [done|].
  destruct (decide (c = 13)) as [->|Hc]; [by exfalso; eapply Hx|]. by repeat case_match.
Qed.
Lemma parse_listing files : Forall plain_file files → parse_ca_listing (listing_of files) = files.
Proof.
  intros H. unfold parse_ca_listing, listing_of. rewrite lines_join.
  - induction H as [|f files Hf H IH]; [done|]. cbn [map omap list_omap]. destruct Hf as ([Hn1 Hn2] & [Hp1 Hp2] & Htab & _).
    rewrite split_once_app by done. cbn [mbind option_bind]. rewrite Hn2, Hp2, decide_False by tauto. destruct f. cbn. by f_equal.
  - apply Forall_map. eapply Forall_impl; [exact H|]. intros f ([Hn1 Hn2] & [Hp1 Hp2] & Htab & Hnl & Hpl). cbn. split_and!.
    + by destruct (cafile_name f).
    + set_solver.
    + intros r. rewrite reverse_app, reverse_cons. intros Hr. destruct (reverse (cafile_path f)) as [|c q] eqn:E.
      { apply (f_equal reverse) in E. by rewrite reverse_involutive in E. }
      cbn in Hr. injection Hr as -> _. by eapply (trimmed_no_cr _ Hp2).
Qed.

Lemma take_config_answers ph activity :
  nt_vm (ph_nt ph) = true → nt_activity (ph_nt ph) = Some activity →
  take_config_import no_fault false ph =
    (on_kt (set_pending_config []) ph,
     context (str "failed to attach current thread to cached JVM") (parse_imported_config_payload (kt_pendingConfig (ph_kt ph)))).
Proof. intros Hv Ha. unfold take_config_import, with_main_activity, with_env. by rewrite Hv, Ha. Qed.
Lemma take_ca_answers ph activity :
  nt_vm (ph_nt ph) = true → nt_activity (ph_nt ph) = Some activity →
  take_ca_import no_fault false ph =
    (on_kt (set_pending_ca []) ph,
     context (str "failed to attach current thread to cached JVM") (parse_imported_ca_payload (kt_pendingCa (ph_kt ph)))).
Proof. intros Hv Ha. unfold take_ca_import, with_main_activity, with_env. by rewrite Hv, Ha. Qed.

(** C24: what is picked arrives. Whatever the name of a document, unless it has the
    separator in it, its text is read byte for byte, separators in it included,
    and only once; so are the name and the path of a certificate, and the
    message of a failure; and the list of the certificates on the disk is read
    back as it was written. *)
Theorem imports_arrive ph activity :
  nt_vm (ph_nt ph) = true → nt_activity (ph_nt ph) = Some activity →
  (∀ name content, UNIT_SEPARATOR ∉ name → ¬ (trim name = [] ∧ blank content = true) →
     let '(ph', r) := take_config_import no_fault false (onConfigImportResult (inl (name, content)) ph) in
     r = Ret (Some (mkImportedConfig (trim name) content)) ∧ (take_config_import no_fault false ph').2 = Ret None) ∧
  (∀ name path, UNIT_SEPARATOR ∉ name → trimmed name → trimmed path →
     let '(ph', r) := take_ca_import no_fault false (onCaImportResult (inl (name, path)) ph) in
     r = Ret (Some (mkImportedCa name path)) ∧ (take_ca_import no_fault false ph').2 = Ret None) ∧
  (∀ message, UNIT_SEPARATOR ∉ message →
     (take_config_import no_fault false (onConfigImportResult (inr message) ph)).2 =
       context (str "failed to attach current thread to cached JVM") (Err (anyhow_msg message))) ∧
  (∀ directory files, Forall plain_file files →
     query_ca_catalog no_fault false directory (listing_of files) ph = (ph, Ret (mkCaCatalog directory files))).
Proof.
  intros Hv Ha. split_and!.
  - intros name content Hn Hb. rewrite (take_config_answers _ activity) by done. cbv beta iota.
    rewrite (take_config_answers _ activity) by done. split; [|done]. cbn [kt_pendingConfig ph_kt onConfigImportResult on_kt set_pending_config]. unfold parse_imported_config_payload.
    rewrite payload_parts_result, decide_True by auto. cbn [mbind outcome_bind option_bind]. destruct (bool_decide (trim name = [])) eqn:E1, (blank content) eqn:E2; try done.
    apply bool_decide_eq_true in E1. by exfalso; apply Hb.
  - intros name path Hn [Hn1 Hn2] [Hp1 Hp2]. rewrite (take_ca_answers _ activity) by done. cbv beta iota.
    rewrite (take_ca_answers _ activity) by done. split; [|done]. cbn [kt_pendingCa ph_kt onCaImportResult on_kt set_pending_ca]. unfold parse_imported_ca_payload.
    rewrite payload_parts_result, decide_True by auto. cbn [mbind outcome_bind option_bind]. by rewrite Hn2, Hp2, decide_False by tauto.
  - intros message Hm. rewrite (take_config_answers _ activity) by done. cbn [kt_pendingConfig ph_kt onConfigImportResult on_kt set_pending_config].
    unfold parse_imported_config_payload. by rewrite payload_error.
  - intros directory files Hf. unfold query_ca_catalog, with_main_activity, with_env. rewrite Hv, Ha.
    transitivity (ph, Ret (E:=anyhow) (mkCaCatalog directory (parse_ca_listing (listing_of files)))); [reflexivity|by rewrite parse_listing].
Qed.

Lemma imports_arrive_witness :
  nt_vm (ph_nt phone_end) = true ∧ nt_activity (ph_nt phone_end) = Some 0%nat ∧
  (take_config_import no_fault false (onConfigImportResult (inl (str " my.yaml", str "server: h")) phone_end)).2
    = Ret (Some (mkImportedConfig (str "my.yaml") (str "server: h"))) ∧
  (query_ca_catalog no_fault false (str "/certs") (listing_of [mkCaFile (str "a.crt") (str "/certs/a.crt")]) phone_end).2
    = Ret (mkCaCatalog (str "/certs") [mkCaFile (str "a.crt") (str "/certs/a.crt")]).
Proof.
  assert (nt_vm (ph_nt phone_end) = true) as Hv by (vm_compute; reflexivity).
  assert (nt_activity (ph_nt phone_end) = Some 0%nat) as Ha by (vm_compute; reflexivity).
  destruct (imports_arrive phone_end 0 Hv Ha) as (H1 & _ & _ & H2). split; [exact Hv|]. split; [exact Ha|]. split.
  - specialize (H1 (str " my.yaml") (str "server: h")). destruct (take_config_import _ _ _) as [ph' r].
    destruct H1 as [-> _]; [apply (bool_decide_eq_true_1 _); vm_compute; reflexivity|apply (bool_decide_eq_true_1 _); vm_compute; reflexivity|reflexivity].
  - rewrite H2; [reflexivity|]. constructor; [|constructor]. unfold plain_file, trimmed. apply (bool_decide_eq_true_1 _). vm_compute. reflexivity.
Defined.
