(* ===== verification/Files.v ===== *)
(** * Files and trust anchors ([app/src/config.rs], [mobile/src/main.rs])

    Where the configuration is read from, the certificates and keys its files
    hold, and the roots both clients trust. The disk, the PEM and YAML parsers,
    the home directory and the certificate store of the system are arguments. *)
From S2P Require Import Prelude Trace Errors RustStr Net Limit Obfs ObfsSocket Server Quic Auth Client Config Endpoint Anyhow MobileForm MobileStatus Controller MobileView MobileApp Android Bridge.
Local Open Scope Z_scope.

(** The disk: whether a path exists, and what opening and reading it gives. *)
Record Disk := mkDisk { dk_exists : bytes → bool; dk_read : bytes → outcome bytes bytes }.
(** [rustls_pemfile]: the items of each kind, in the order of the file. *)
Record Pem := mkPem {
  pem_certs : bytes → outcome bytes (list bytes);
  pem_pkcs8 : bytes → outcome bytes (list bytes);
  pem_rsa : bytes → outcome bytes (list bytes);
  pem_ec : bytes → outcome bytes (list bytes)
}.
(** [rustls_native_certs::load_native_certs()]. *)
Record NativeCerts := mkNativeCerts { nc_certs : list bytes; nc_errors : list bytes }.

Record LoadedConfig (T : Type) := mkLoaded { ld_path : bytes; ld_value : T }.
Arguments mkLoaded {T}.
Arguments ld_path {T}.
Arguments ld_value {T}.

(** [Path::join] with a relative path. *)
Definition SLASH : Z := 47.
Definition path_join (base rest : bytes) : bytes :=
  match last base with
  | None => rest
  | Some b => if decide (b = SLASH) then base ++ rest else base ++ SLASH :: rest
  end.

(** ** The command line client and the server *)

Section app.
Context (disk : Disk) (pem : Pem) (native : NativeCerts) (home : option bytes).

Definition config_candidates : list bytes :=
  [str "config.yaml"; str "config.yml"]
  ++ match home with
     | Some home => [path_join home (str ".hysteria/config.yaml"); path_join home (str ".hysteria/config.yml")]
     | None => []
     end
  ++ [str "/etc/hysteria/config.yaml"; str "/etc/hysteria/config.yml"].
Definition resolve_config_path (config_path : option bytes) : outcome bytes bytes :=
  match config_path with
  | Some path => Ret path
  | None =>
      ok_or (snd <$> list_find (fun path => dk_exists disk path = true) config_candidates)
        (str "no config file found; checked ./config.yaml, ./config.yml, $HOME/.hysteria/config.yaml, $HOME/.hysteria/config.yml, /etc/hysteria/config.yaml, /etc/hysteria/config.yml")
  end.
(** [fs::read_to_string]. *)
Definition read_to_string (path : bytes) : outcome bytes bytes :=
  raw ← dk_read disk path;
  if utf8_valid raw then Ret raw else Err (str "stream did not contain valid UTF-8").
Definition load_yaml {T} (from_str : bytes → outcome bytes T) (config_path : option bytes) : outcome bytes (LoadedConfig T) :=
  path ← resolve_config_path config_path;
  raw ← Config.context (read_to_string path) (str "failed to read config file " ++ path);
  value ← Config.context (from_str raw) (str "failed to parse YAML config " ++ path);
  Ret (mkLoaded path value).
Definition load_client_config (from_str : bytes → outcome bytes ClientConfig) : option bytes → outcome bytes (LoadedConfig ClientConfig) :=
  load_yaml from_str.
Definition load_server_config (from_str : bytes → outcome bytes ServerConfig) : option bytes → outcome bytes (LoadedConfig ServerConfig) :=
  load_yaml from_str.

Definition load_certificates (path : bytes) : outcome bytes (list bytes) :=
  file ← Config.context (dk_read disk path) (str "failed to open certificate file " ++ path);
  certs ← Config.context (pem_certs pem file) (str "failed to parse PEM certificates from " ++ path);
  if decide (certs = []) then Err (str "no certificates found in " ++ path) else Ret certs.
Definition load_optional_certificates (path : bytes) : outcome bytes (list bytes) :=
  if Config.blank path then Ret [] else load_certificates path.
Definition load_system_root_certificates : outcome bytes (list bytes) :=
  if decide (nc_certs native ≠ []) then Ret (nc_certs native)
  else if decide (nc_errors native = []) then
    Err (str "no system root certificates found; set tls.ca explicitly or use tls.insecure=true")
  else Err (str "failed to load system root certificates: " ++ join (str "; ") (nc_errors native)).
Definition load_root_certificates (path : bytes) : outcome bytes (list bytes) :=
  load_root_certificates_with load_certificates load_system_root_certificates path.

(** One of the three passes over the key file. *)
Definition first_key (parse : bytes → outcome bytes (list bytes)) (kind path : bytes) : outcome bytes (option bytes) :=
  file ← Config.context (dk_read disk path) (str "failed to open private key file " ++ path);
  keys ← Config.context (parse file) (str "failed to parse " ++ kind ++ str " private keys from " ++ path);
  Ret (head keys).
Definition load_private_key (path : bytes) : outcome bytes PrivateKeyDer :=
  pkcs8 ← first_key (pem_pkcs8 pem) (str "PKCS#8") path;
  match pkcs8 with
  | Some key => Ret (Pkcs8 key)
  | None =>
      rsa ← first_key (pem_rsa pem) (str "PKCS#1") path;
      match rsa with
      | Some key => Ret (Pkcs1 key)
      | None =>
          sec1 ← first_key (pem_ec pem) (str "SEC1") path;
          match sec1 with
          | Some key => Ret (Sec1 key)
          | None => Err (str "no supported private key found in " ++ path)
          end
      end
  end.

Context (parse_url : bytes → option Url) (to_socket_addrs : bytes → option (list SocketAddr)).
Definition build_client_core_config : ClientConfig → outcome bytes CoreClientConfig :=
  build_client_core_config_with parse_url to_socket_addrs load_certificates load_system_root_certificates.
Definition runnable_server : ServerConfig → outcome bytes CoreServerConfig :=
  build_runnable_server_config to_socket_addrs load_certificates load_private_key.
End app.

(** ** The mobile client *)

Section mobile.
Context (disk : Disk) (pem : Pem) (native : NativeCerts).

Definition parse_pem_certificates (content source : bytes) : outcome anyhow (list bytes) :=
  certs ← context (str "failed to parse PEM certificates from " ++ source) (map_err anyhow_msg (pem_certs pem content));
  if decide (certs = []) then Err (anyhow_msg (str "no certificates found in " ++ source)) else Ret certs.
Definition mobile_load_root_certificates_with (path : bytes) (system_loader : outcome anyhow (list bytes)) : outcome anyhow (list bytes) :=
  if Config.blank path then system_loader
  else
    file ← context (str "failed to open certificate file " ++ path) (map_err anyhow_msg (dk_read disk path));
    parse_pem_certificates file path.
Definition mobile_load_system_root_certificates_with (platform_loader : option (outcome anyhow (list bytes)))
    (native_loader : outcome anyhow (list bytes)) : outcome anyhow (list bytes) :=
  match platform_loader with
  | Some certs => context (str "failed to load platform system root certificates") certs
  | None => native_loader
  end.
(** [bundle] is the result of the bridge. *)
Definition load_android_system_root_certificates (bundle : outcome anyhow bytes) : outcome anyhow (list bytes) :=
  bundle ← context (str "failed to read Android system CA store") bundle;
  parse_pem_certificates bundle (str "Android system trust store").
Definition load_native_system_root_certificates : outcome anyhow (list bytes) :=
  if decide (nc_certs native ≠ []) then Ret (nc_certs native)
  else if decide (nc_errors native = []) then
    Err (anyhow_msg (str "no system root certificates found; set an explicit CA path or enable TLS insecure for testing"))
  else Err (anyhow_msg (str "failed to load system root certificates: " ++ join (str "; ") (nc_errors native))).
(** [android] is the bridge in a build for Android. *)
Definition mobile_load_system_root_certificates (android : option (outcome anyhow bytes)) : outcome anyhow (list bytes) :=
  mobile_load_system_root_certificates_with (load_android_system_root_certificates <$> android) load_native_system_root_certificates.
Definition mobile_load_root_certificates (android : option (outcome anyhow bytes)) (path : bytes) : outcome anyhow (list bytes) :=
  mobile_load_root_certificates_with path (mobile_load_system_root_certificates android).
End mobile.

(** ** What is read *)

Lemma load_certificates_Ret disk pem path certs :
  load_certificates disk pem path = Ret certs →
  certs ≠ [] ∧ ∃ file, dk_read disk path = Ret file ∧ pem_certs pem file = Ret certs.
Proof.
  unfold load_certificates. intros H. apply bind_Ret_inv in H as (file & Hf & H). apply bind_Ret_inv in H as (cs & Hc & H).
  apply context_Ret in Hf, Hc. case_decide; [done|]. injection H as <-. eauto.
Qed.
Lemma load_system_Ret native certs : load_system_root_certificates native = Ret certs → certs ≠ [] ∧ certs = nc_certs native.
Proof. unfold load_system_root_certificates. repeat case_decide; intros [= <-]; done. Qed.

(** The first kind of key that the file has, in the order PKCS#8, PKCS#1, SEC1. *)
Lemma load_private_key_first disk pem path file k1 k2 k3 :
  dk_read disk path = Ret file → pem_pkcs8 pem file = Ret k1 → pem_rsa pem file = Ret k2 → pem_ec pem file = Ret k3 →
  load_private_key disk pem path
  = ok_or (head (map Pkcs8 k1 ++ map Pkcs1 k2 ++ map Sec1 k3)) (str "no supported private key found in " ++ path).
Proof.
  intros Hf H1 H2 H3. unfold load_private_key, first_key. rewrite Hf. cbn. rewrite H1. cbn. destruct k1; [|done].
  cbn. rewrite H2. cbn. destruct k2; [|done]. cbn. rewrite H3. by destruct k3.
Qed.
Lemma load_private_key_Ret disk pem path key :
  load_private_key disk pem path = Ret key →
  ∃ file ks, dk_read disk path = Ret file ∧
    match key with
    | Pkcs8 k => pem_pkcs8 pem file = Ret ks ∧ head ks = Some k
    | Pkcs1 k => pem_rsa pem file = Ret ks ∧ head ks = Some k
    | Sec1 k => pem_ec pem file = Ret ks ∧ head ks = Some k
    end.
Proof.
  assert (∀ parse kind o, first_key disk parse kind path = Ret o → ∃ file ks, dk_read disk path = Ret file ∧ parse file = Ret ks ∧ head ks = o) as Hk.
  { unfold first_key. intros parse kind o H. apply bind_Ret_inv in H as (file & Hf & H). apply bind_Ret_inv in H as (ks & Hp & H).
    apply context_Ret in Hf, Hp. injection H as <-. eauto. }
  unfold load_private_key. intros H. apply bind_Ret_inv in H as (o1 & H1 & H). destruct o1 as [k|].
  { injection H as <-. apply Hk in H1. naive_solver. }
  apply bind_Ret_inv in H as (o2 & H2 & H). destruct o2 as [k|].
  { injection H as <-. apply Hk in H2. naive_solver. }
  apply bind_Ret_inv in H as (o3 & H3 & H). destruct o3 as [k|]; [|done]. injection H as <-. apply Hk in H3. naive_solver.
Qed.
Lemma map_err_Ret {E F A} (f : E → F) (m : outcome E A) a : map_err f m = Ret a → m = Ret a.
Proof. destruct m; cbn; by intros [= ->]. Qed.
Lemma mobile_pem_Ret pem content source certs :
  parse_pem_certificates pem content source = Ret certs → certs ≠ [] ∧ pem_certs pem content = Ret certs.
Proof.
  unfold parse_pem_certificates. intros H. apply bind_Ret_inv in H as (cs & Hc & H). case_decide; [done|]. injection H as <-. split; [done|].
  by apply anyhow_context_Ret, map_err_Ret in Hc.
Qed.

(** ** Properties *)

(** The roots a client trusts: those of the file it names, or those of the
    system, and never none. *)
Definition anchored (disk : Disk) (pem : Pem) (path : bytes) (system : list bytes → Prop) (roots : list bytes) : Prop :=
  roots ≠ [] ∧ if Config.blank path then system roots else ∃ file, dk_read disk path = Ret file ∧ pem_certs pem file = Ret roots.
Definition mobile_system (pem : Pem) (native : NativeCerts) (android : option (outcome anyhow bytes)) (roots : list bytes) : Prop :=
  match android with
  | Some bundle => ∃ b, bundle = Ret b ∧ pem_certs pem b = Ret roots
  | None => roots = nc_certs native
  end.

Lemma app_roots_anchored disk pem native path roots :
  load_root_certificates disk pem native path = Ret roots → anchored disk pem path (eq (nc_certs native)) roots.
Proof.
  unfold load_root_certificates, load_root_certificates_with, anchored. destruct (Config.blank path).
  - intros H%load_system_Ret. naive_solver.
  - intros H%context_Ret%load_certificates_Ret. done.
Qed.
Lemma mobile_roots_anchored disk pem native android path roots :
  mobile_load_root_certificates disk pem native android path = Ret roots → anchored disk pem path (mobile_system pem native android) roots.
Proof.
  unfold mobile_load_root_certificates, mobile_load_root_certificates_with, mobile_load_system_root_certificates,
    mobile_load_system_root_certificates_with, anchored, mobile_system. destruct (Config.blank path).
  - destruct android as [bundle|]; cbn.
    + unfold load_android_system_root_certificates. intros (b & Hb & H)%anyhow_context_Ret%bind_Ret_inv. apply anyhow_context_Ret in Hb.
      apply mobile_pem_Ret in H. naive_solver.
    + unfold load_native_system_root_certificates. repeat case_decide; intros [= <-]; done.
  - intros (file & Hf & H)%bind_Ret_inv. apply anyhow_context_Ret, map_err_Ret in Hf. apply mobile_pem_Ret in H. naive_solver.
Qed.
Lemma normalize_keeps_ca parse_url config c : normalize_client_config parse_url config = Ret c → tl_ca (cf_tls c) = tl_ca (cf_tls config).
Proof.
  unfold normalize_client_config. case_match; [by intros [= <-]|]. intros (u & _ & Hc)%bind_Ret_inv. case_decide; [by injection Hc as <-|].
  apply bind_Ret_inv in Hc as (h & _ & Hc). apply bind_Ret_inv in Hc as (a & _ & Hc). by injection Hc as <-.
Qed.
Lemma app_client_anchored disk pem native parse_url to_socket_addrs config c :
  build_client_core_config disk pem native parse_url to_socket_addrs config = Ret c →
  anchored disk pem (tl_ca (cf_tls config)) (eq (nc_certs native)) (co_root_certificates c).
Proof.
  unfold build_client_core_config, build_client_core_config_with. intros H. returned H. injection H as <-. cbn.
  apply normalize_keeps_ca in E as <-. by apply app_roots_anchored.
Qed.

(** C8: what both clients trust, and the files of a server. The roots of an
    accepted configuration are exactly the certificates of the file it names,
    or, if it names none, those of the system (on Android, of its store), and
    there is one at least; a client that does not switch verification off gives
    its connection a verifier with exactly these roots, and sends its password
    only if the chain the peer presented on that connection is accepted against
    them for the configured name; without any root, nothing is accepted, whatever
    [tls.insecure] says. An accepted server configuration has a certificate and
    the key of its file that comes first in the order PKCS#8, PKCS#1, SEC1. *)
Theorem trust_anchors {H V} `{!HeaderMap H V} {S} disk pem native android parse_url to_socket_addrs murl utf8_error parse_duration to_addrs
    sy ty (qa : QuicApi H S) env checks sha256 protector padding now :
  honours_verifier ty qa →
  (∀ config c, build_client_core_config disk pem native parse_url to_socket_addrs config = Ret c →
     anchored disk pem (tl_ca (cf_tls config)) (eq (nc_certs native)) (co_root_certificates c)) ∧
  (∀ form c udp,
     client_config_of murl utf8_error parse_duration to_addrs (mobile_load_root_certificates disk pem native android) form = Ret (c, udp) →
     ∃ f, normalize_form murl utf8_error form = Ret f ∧ anchored disk pem (fm_ca_path f) (mobile_system pem native android) (co_root_certificates c)) ∧
  (∀ c request, EvRequest request ∈ (connect sy ty qa env checks sha256 protector padding now c).1 → co_insecure c = false →
     ∃ ep crypto transport chain,
       (make_client_endpoint (H:=H) sy protector (bind_addr_for (co_server_addr c)) (co_obfs c)).2 = Ret ep ∧
       build_client_config ty env checks c () = Ret (crypto, transport) ∧
       tls_verifier crypto = WebPkiServerVerifier (co_root_certificates c) ∧
       qa_connect qa ep crypto (co_server_addr c) (co_server_name c) = Ret (Some (Some chain)) ∧
       ty_webpki ty (co_root_certificates c) chain (co_server_name c) = true) ∧
  (∀ config c, nc_certs native = [] → Config.blank (tl_ca (cf_tls config)) = true →
     build_client_core_config disk pem native parse_url to_socket_addrs config ≠ Ret c) ∧
  (∀ config c, runnable_server disk pem to_socket_addrs config = Ret c →
     se_certificates c ≠ [] ∧ ∃ tls, sf_tls config = Some tls ∧ load_certificates disk pem (st_cert tls) = Ret (se_certificates c) ∧
       load_private_key disk pem (st_key tls) = Ret (se_private_key c)).
Proof.
  intros Hh. split_and!.
  - apply app_client_anchored.
  - intros form c udp Hc. unfold client_config_of in Hc. apply bind_Ret_inv in Hc as (f & Hf & Hc). exists f. split; [done|].
    returned Hc. injection Hc as <- <-. cbn. by apply mobile_roots_anchored.
  - intros c request Hin Hi.
    destruct (connect_request_verified sy ty qa env checks sha256 protector padding now c request Hh Hin)
      as (_ & _ & ep & crypto & transport & chain & Hep & Hc & Hq & _ & Hv & _). exists ep, crypto, transport, chain.
    split_and!; [done|done| |done|by apply Hv]. rewrite (proj1 (build_client_config_Ret _ _ _ _ _ _ Hc)). by rewrite Hi.
  - intros config c Hn Hb Hc%app_client_anchored. unfold anchored in Hc. rewrite Hb, Hn in Hc. naive_solver.
  - intros config c Hc. unfold runnable_server, build_runnable_server_config in Hc. returned Hc. injection Hc as <-. cbn.
    apply context_Ret in E6, E7. destruct (sf_tls config) as [tls|]; [|done]. injection E0 as ->.
    split; [exact (proj1 (load_certificates_Ret _ _ _ _ E6))|]. eauto.
Qed.

Definition example_disk : Disk := mkDisk (fun path => bool_decide (path = str "ca.pem")) (fun path => if decide (path = str "ca.pem") then Ret (str "PEM") else Err (str "No such file or directory (os error 2)")).
Definition example_pem : Pem := mkPem (fun file => Ret [file]) (fun _ => Ret []) (fun file => Ret [file]) (fun _ => Ret []).
Definition example_client : ClientConfig :=
  mkClient (str "h.example:443") (str "secret") transport_default obfs_default (mkClientTls [] false [] (str "ca.pem") [] []) client_quic_default
    bandwidth_default false false None None [] [] [] None None None None.
Example private_key_rsa : load_private_key example_disk example_pem (str "ca.pem") = Ret (Pkcs1 (str "PEM")).
Proof. reflexivity. Qed.
Example config_in_home :
  resolve_config_path (mkDisk (fun p => bool_decide (p = str "/root/.hysteria/config.yml")) (fun _ => Err [])) (Some (str "/root")) None
  = Ret (str "/root/.hysteria/config.yml").
Proof. vm_compute. reflexivity. Qed.
Lemma trust_anchors_witness :
  ∃ c, build_client_core_config example_disk example_pem (mkNativeCerts [] []) (fun _ => None) (fun _ => Some [SocketV4 [127; 0; 0; 1] 443]) example_client = Ret c ∧
    anchored example_disk example_pem (str "ca.pem") (eq []) (co_root_certificates c).
Proof.
  destruct (build_client_core_config example_disk example_pem (mkNativeCerts [] []) (fun _ => None) (fun _ => Some [SocketV4 [127; 0; 0; 1] 443])
    example_client) as [c| |] eqn:E; [|vm_compute in E; discriminate E..].
  exists c. split; [reflexivity|].
  refine (proj1 (trust_anchors (H:=gmap bytes bytes) example_disk example_pem (mkNativeCerts [] []) None (fun _ => None)
    (fun _ => Some [SocketV4 [127; 0; 0; 1] 443]) (fun _ => Err []) (fun _ => []) (fun _ => Err []) (fun _ => Err []) example_sockets example_tls example_quic
    (fun _ => None) false (fun x => x) None [] 0 example_honours) example_client c E).
Defined.
