(* ===== verification/Brutal.v ===== *)
(** * The Brutal congestion controller
    ([vendor/quinn-proto/src/congestion/brutal.rs])

    The congestion controller added to the vendored QUIC library. It sends at
    the target bandwidth both ends agreed on, raised by the share of packets
    lost in the last seconds, and leaves everything to another controller while
    there is no target. Times are nanoseconds; the target, which the connection
    may change at any time, is an argument of every operation. *)
From S2P Require Import Prelude Float Limit.
From Stdlib Require Import QArith.
From stdpp Require Import sorting.
Local Open Scope Z_scope.

Definition SLOT_COUNT : Z := 5.
Definition MIN_SAMPLE_COUNT : Z := 50.
Definition MIN_ACK_RATE : f64 := rnd (8 # 10).
Definition CWND_MULTIPLIER : f64 := 2%Q.
Definition INITIAL_WINDOW_NO_RTT : Z := 10240.

Inductive PacingBehavior := PaceWindow | PaceRateTokenBucket.
#[global] Instance PacingBehavior_eq_dec : EqDecision PacingBehavior.
Proof. solve_decision. Defined.
Record ControllerMetrics := mkMetrics {
  cm_congestion_window : Z; cm_ssthresh : option Z; cm_pacing_rate : option Z; cm_pacing_behavior : PacingBehavior
}.
(** What [RttEstimator] says, and the packets of an acknowledgement, as numbers
    with their sizes. *)
Record Rtt := mkRtt { rtt_has_sample : bool; rtt_get : Z }.
Record AckEvent := mkAckEvent {
  ae_prior_in_flight : Z; ae_acked_packets : list (Z * Z); ae_lost_packets : list (Z * Z); ae_app_limited : bool;
  ae_largest_acked : option Z; ae_rtt : Rtt
}.

(** The trait [Controller]. *)
Class CongestionController (C : Type) := {
  cg_on_sent : Z → Z → Z → Z → C → C;
  cg_on_ack : Z → Z → Z → Z → bool → Rtt → C → C;
  cg_on_ack_event : Z → AckEvent → C → C;
  cg_on_end_acks : Z → Z → Z → bool → option Z → C → C;
  cg_on_congestion_event : Z → Z → bool → Z → Z → Z → C → C;
  cg_on_mtu_update : Z → C → C;
  cg_window : C → Z;
  cg_metrics : C → ControllerMetrics;
  cg_initial_window : C → Z
}.

Record PacketSlot := mkSlot { sl_second : Z; sl_acked : Z; sl_lost : Z }.
Definition slot_default : PacketSlot := mkSlot 0 0 0.

Record Brutal (C : Type) := mkBrutal {
  bt_fallback : C; bt_current_mtu : Z; bt_has_rtt_sample : bool; bt_smoothed_rtt : Z; bt_ack_rate : f64; bt_sample_epoch : Z; bt_slots : list PacketSlot
}.
Arguments mkBrutal {C}. Arguments bt_fallback {C}. Arguments bt_current_mtu {C}. Arguments bt_has_rtt_sample {C}.
Arguments bt_smoothed_rtt {C}. Arguments bt_ack_rate {C}. Arguments bt_sample_epoch {C}. Arguments bt_slots {C}.

(** ** The acknowledgement rate *)

Definition as_secs (d : Z) : Z := d / NANOS_PER_SEC.
Definition record_slot (slots : list PacketSlot) (current_second acked lost : Z) : list PacketSlot :=
  alter (fun slot =>
    if decide (sl_second slot = current_second) then mkSlot current_second (sat_add (sl_acked slot) acked) (sat_add (sl_lost slot) lost)
    else mkSlot current_second acked lost) (Z.to_nat (current_second mod SLOT_COUNT)) slots.
Definition count_slots (slots : list PacketSlot) (current_second : Z) : Z * Z :=
  let min_second := sat_sub current_second SLOT_COUNT in
  fold_left (fun '(acked, lost) slot => (sat_add acked (sl_acked slot), sat_add lost (sl_lost slot)))
    (filter (fun slot => min_second ≤ sl_second slot) slots) (0, 0).
Definition rate_of (acked lost : Z) : f64 :=
  let total := sat_add acked lost in
  if decide (total < MIN_SAMPLE_COUNT) then 1%Q else f64_max (f64_div (f64_of_u64 acked) (f64_of_u64 total)) MIN_ACK_RATE.

Section brutal.
Context {C : Type} `{!CongestionController C}.
Implicit Types b : Brutal C.

Definition brutal_new (fallback : C) (now current_mtu : Z) : Brutal C :=
  mkBrutal fallback current_mtu false 0 1%Q now (replicate (Z.to_nat SLOT_COUNT) slot_default).

Definition update_ack_rate (now acked lost : Z) b : Brutal C :=
  let current_second := as_secs (Z.max 0 (now - bt_sample_epoch b)) in
  let slots := record_slot (bt_slots b) current_second acked lost in
  let '(acked, lost) := count_slots slots current_second in
  mkBrutal (bt_fallback b) (bt_current_mtu b) (bt_has_rtt_sample b) (bt_smoothed_rtt b) (rate_of acked lost) (bt_sample_epoch b) slots.

Definition brutal_window b (target : Z) : Z :=
  if negb (bt_has_rtt_sample b) || bool_decide (bt_smoothed_rtt b = 0) then Z.max INITIAL_WINDOW_NO_RTT (bt_current_mtu b)
  else
    let cwnd := f64_div (f64_mul (f64_mul (f64_of_u64 target) (as_secs_f64 (bt_smoothed_rtt b))) CWND_MULTIPLIER)
                  (f64_max (bt_ack_rate b) MIN_ACK_RATE) in
    Z.max (f64_as_usize cwnd) (bt_current_mtu b).
Definition pacing_rate_bps {E} (checks : bool) b (target : Z) : outcome E Z :=
  u64_mul checks (f64_as_usize (f64_div (f64_of_u64 target) (f64_max (bt_ack_rate b) MIN_ACK_RATE))) 8.

(** ** The trait *)

Definition with_fallback (f : C → C) b : Brutal C :=
  mkBrutal (f (bt_fallback b)) (bt_current_mtu b) (bt_has_rtt_sample b) (bt_smoothed_rtt b) (bt_ack_rate b) (bt_sample_epoch b) (bt_slots b).
Definition using_fallback (target : Z) : bool := bool_decide (target = 0).
Definition if_fallback (target : Z) (f : C → C) b : Brutal C := if using_fallback target then with_fallback f b else b.

Definition on_sent (target now bytes last_packet_number bytes_in_flight : Z) : Brutal C → Brutal C :=
  if_fallback target (cg_on_sent now bytes last_packet_number bytes_in_flight).
Definition on_ack (target now packet_number sent bytes : Z) (app_limited : bool) (rtt : Rtt) : Brutal C → Brutal C :=
  if_fallback target (cg_on_ack now packet_number sent bytes app_limited rtt).
Definition on_end_acks (target now in_flight prior_in_flight : Z) (app_limited : bool) (largest : option Z) : Brutal C → Brutal C :=
  if_fallback target (cg_on_end_acks now in_flight prior_in_flight app_limited largest).
Definition on_congestion_event (target now sent : Z) (persistent : bool) (lost_packets lost_bytes in_flight : Z) : Brutal C → Brutal C :=
  if_fallback target (cg_on_congestion_event now sent persistent lost_packets lost_bytes in_flight).
Definition on_ack_event (target now : Z) (event : AckEvent) b : Brutal C :=
  let b := mkBrutal (bt_fallback b) (bt_current_mtu b) (rtt_has_sample (ae_rtt event)) (rtt_get (ae_rtt event)) (bt_ack_rate b) (bt_sample_epoch b) (bt_slots b) in
  if negb (using_fallback target) then update_ack_rate now (len (ae_acked_packets event)) (len (ae_lost_packets event)) b
  else with_fallback (cg_on_ack_event now event) b.
Definition on_mtu_update (new_mtu : Z) b : Brutal C :=
  mkBrutal (cg_on_mtu_update new_mtu (bt_fallback b)) new_mtu (bt_has_rtt_sample b) (bt_smoothed_rtt b) (bt_ack_rate b) (bt_sample_epoch b) (bt_slots b).
Definition window (target : Z) b : Z := if decide (target = 0) then cg_window (bt_fallback b) else brutal_window b target.
Definition metrics {E} (checks : bool) (target : Z) b : outcome E ControllerMetrics :=
  if decide (target = 0) then Ret (cg_metrics (bt_fallback b))
  else
    rate ← pacing_rate_bps checks b target;
    Ret (mkMetrics (window target b) None (Some rate) PaceRateTokenBucket).
Definition initial_window (target : Z) b : Z :=
  if using_fallback target then cg_initial_window (bt_fallback b) else Z.max INITIAL_WINDOW_NO_RTT (bt_current_mtu b).
End brutal.

(** The tests of the source: samples older than five seconds are dropped, and
    few samples leave the rate at one. *)
Example rollover : rate_of 40 10 = MIN_ACK_RATE
  ∧ count_slots (record_slot (record_slot (replicate 5 slot_default) 0 20 0) 6 40 10) 6 = (40, 10).
Proof. split; vm_compute; reflexivity. Qed.
Example few_samples : rate_of 30 10 = 1%Q.
Proof. vm_compute. reflexivity. Qed.

(** ** The sliding window *)

(** A sample is a second with the packets acknowledged and lost. The sum of a
    count over the samples of some seconds. *)
Definition sample : Type := Z * Z * Z.
Definition sm_second (x : sample) : Z := x.1.1.
Definition sm_acked (x : sample) : Z := x.1.2.
Definition sm_lost (x : sample) : Z := x.2.
Fixpoint sum_where (P : Z → bool) (count : sample → Z) (l : list sample) : Z :=
  match l with
  | [] => 0
  | x :: l => (if P (sm_second x) then count x else 0) + sum_where P count l
  end.
Definition sat (x : Z) : Z := Z.min u64_max x.
(** What the rate is meant to count: the last five seconds. *)
Definition recent (current : Z) (count : sample → Z) (l : list sample) : Z := sum_where (fun s => bool_decide (current - SLOT_COUNT < s)) count l.

Definition sample_ok (x : sample) : Prop := 0 ≤ sm_acked x ≤ u64_max ∧ 0 ≤ sm_lost x ≤ u64_max.
Definition in_slot (i s : Z) (second : Z) : bool := bool_decide (second mod SLOT_COUNT = i ∧ second = s).
Record slot_ok (l : list sample) (current i : Z) (sl : PacketSlot) : Prop := mkSlotOk {
  so_range : 0 ≤ sl_second sl ≤ current;
  so_latest : ∀ x, x ∈ l → sm_second x mod SLOT_COUNT = i → sm_second x ≤ sl_second sl ∧ sl_second sl mod SLOT_COUNT = i;
  so_acked : sl_acked sl = sat (sum_where (in_slot i (sl_second sl)) sm_acked l);
  so_lost : sl_lost sl = sat (sum_where (in_slot i (sl_second sl)) sm_lost l)
}.
Record ring_ok (l : list sample) (current : Z) (slots : list PacketSlot) : Prop := mkRingOk {
  ro_samples : Forall (fun x => sample_ok x ∧ 0 ≤ sm_second x ≤ current) l;
  ro_length : length slots = 5%nat;
  ro_slots : ∀ i, 0 ≤ i < SLOT_COUNT → ∃ sl, slots !! Z.to_nat i = Some sl ∧ slot_ok l current i sl
}.

Lemma sum_where_app P count l k : sum_where P count (l ++ k) = sum_where P count l + sum_where P count k.
Proof. induction l as [|x l IH]; [done|]. cbn. rewrite IH. lia. Qed.
Lemma sum_where_nonneg P count l : Forall (fun x => 0 ≤ count x) l → 0 ≤ sum_where P count l.
Proof. induction 1; cbn; [lia|]. destruct (P _); lia. Qed.
Lemma sum_where_zero P count l : (∀ x, x ∈ l → P (sm_second x) = false) → sum_where P count l = 0.
Proof. induction l as [|x l IH]; intros Hp; [done|]. cbn. rewrite (Hp x) by left. rewrite IH; [done|]. intros y Hy. apply Hp. by right. Qed.

Lemma ring_new current : 0 ≤ current → ring_ok [] current (replicate 5 slot_default).
Proof.
  intros Hc. constructor; [constructor|done|]. intros i Hi. exists slot_default. unfold SLOT_COUNT in Hi. split; [by rewrite lookup_replicate_2 by lia|].
  constructor; cbn; try done. by intros x ?%elem_of_nil.
Qed.

(** A slot that is not the one of the sample is left alone. *)
Lemma slot_ok_other l current s i sl x :
  current ≤ s → sm_second x = s → s mod SLOT_COUNT ≠ i → slot_ok l current i sl → slot_ok (l ++ [x]) s i sl.
Proof.
  intros Hs Hx Hi []. constructor; [lia| | |].
  - intros y [Hy|Hy%list_elem_of_singleton]%elem_of_app Hm; [by apply so_latest0|]. congruence.
  - rewrite so_acked0, sum_where_app. cbn. unfold in_slot at 3. rewrite bool_decide_eq_false_2 by (rewrite Hx; naive_solver). f_equal. lia.
  - rewrite so_lost0, sum_where_app. cbn. unfold in_slot at 3. rewrite bool_decide_eq_false_2 by (rewrite Hx; naive_solver). f_equal. lia.
Qed.
Lemma sat_sat a b : 0 ≤ b → sat_add (sat a) b = sat (a + b).
Proof. unfold sat_add, sat. lia. Qed.
Lemma slot_ok_same l current s sl x :
  Forall (fun x => sample_ok x ∧ 0 ≤ sm_second x ≤ current) l → current ≤ s → 0 ≤ s → sm_second x = s → sample_ok x →
  slot_ok l current (s mod SLOT_COUNT) sl →
  slot_ok (l ++ [x]) s (s mod SLOT_COUNT)
    (if decide (sl_second sl = s) then mkSlot s (sat_add (sl_acked sl) (sm_acked x)) (sat_add (sl_lost sl) (sm_lost x)) else mkSlot s (sm_acked x) (sm_lost x)).
Proof.
  intros Hl Hs Hs0 Hx [Ha Hb] []. rewrite Forall_forall in Hl.
  assert (∀ y, y ∈ l ++ [x] → sm_second y ≤ s) as Hle.
  { intros y [Hy|Hy%list_elem_of_singleton]%elem_of_app; [|subst y; lia]. apply Hl in Hy. lia. }
  assert (in_slot (s mod SLOT_COUNT) s (sm_second x) = true) as Hin by (apply bool_decide_eq_true; by rewrite Hx).
  assert (∀ count, sum_where (in_slot (s mod SLOT_COUNT) s) count (l ++ [x]) = sum_where (in_slot (s mod SLOT_COUNT) s) count l + count x) as Hsum.
  { intros count. rewrite sum_where_app. cbn. rewrite Hin. lia. }
  case_decide as Hd; constructor; cbn; try lia; try (intros y Hy Hm; split; [by apply Hle|done]); rewrite Hsum.
  - rewrite so_acked0, Hd. apply sat_sat. lia.
  - rewrite so_lost0, Hd. apply sat_sat. lia.
  - rewrite sum_where_zero; [unfold sat; lia|]. intros y Hy. apply bool_decide_eq_false. intros [Hm Hy']. destruct (so_latest0 y Hy Hm). lia.
  - rewrite sum_where_zero; [unfold sat; lia|]. intros y Hy. apply bool_decide_eq_false. intros [Hm Hy']. destruct (so_latest0 y Hy Hm). lia.
Qed.
Lemma ring_record l current slots s a b :
  ring_ok l current slots → current ≤ s → 0 ≤ s → sample_ok (s, a, b) →
  ring_ok (l ++ [(s, a, b)]) s (record_slot slots s a b)
  ∧ ∃ sl, record_slot slots s a b !! Z.to_nat (s mod SLOT_COUNT) = Some sl ∧ sl_second sl = s.
Proof.
  intros [Hl Hlen Hslots] Hs Hs0 Hx. assert (0 ≤ s mod SLOT_COUNT < SLOT_COUNT) as Hm by (apply Z.mod_pos_bound; done).
  split; [constructor|].
  - apply Forall_app. split; [|by repeat constructor; cbn in *; try lia; apply Hx]. eapply Forall_impl; [exact Hl|]. cbn. intros x [? ?]. split; [done|lia].
  - unfold record_slot. by rewrite length_alter.
  - intros i Hi. destruct (Hslots i Hi) as (sl & Hsl & Hok). unfold record_slot. destruct (decide (s mod SLOT_COUNT = i)) as [<-|Hne].
    + rewrite list_lookup_alter, decide_True by done. rewrite Hsl. eexists. split; [done|]. by apply (slot_ok_same l current s sl (s, a, b)).
    + rewrite list_lookup_alter_ne by lia. exists sl. split; [done|]. by eapply (slot_ok_other l current s i sl (s, a, b)).
  - destruct (Hslots _ Hm) as (sl & Hsl & _). unfold record_slot. rewrite list_lookup_alter, decide_True by done. rewrite Hsl. eexists. split; [done|].
    by case_decide.
Qed.

(** Each recent sample is in one slot that is counted, and no other is. *)
Definition slot_counts (current : Z) (slots : list PacketSlot) (i : Z) (second : Z) : bool :=
  match slots !! Z.to_nat i with
  | Some sl => bool_decide (sat_sub current SLOT_COUNT ≤ sl_second sl) && in_slot i (sl_second sl) second
  | None => false
  end.
Lemma sum_where_ext P Q count l : (∀ x, x ∈ l → P (sm_second x) = Q (sm_second x)) → sum_where P count l = sum_where Q count l.
Proof. induction l as [|x l IH]; intros He; [done|]. cbn. rewrite (He x) by left. rewrite IH; [done|]. intros y Hy. apply He. by right. Qed.
Lemma sum_where_five (P : Z → Z → bool) Q count l :
  (∀ x, x ∈ l → (∃ j, 0 ≤ j < 5 ∧ P j (sm_second x) = Q (sm_second x) ∧ ∀ i, i ≠ j → P i (sm_second x) = false)) →
  sum_where (P 0) count l + sum_where (P 1) count l + sum_where (P 2) count l + sum_where (P 3) count l + sum_where (P 4) count l = sum_where Q count l.
Proof.
  induction l as [|x l IH]; intros He; [done|]. cbn. destruct (He x) as (j & Hj & Hq & Hi); [left|].
  rewrite <- IH by (intros y Hy; apply He; by right). rewrite <- Hq.
  assert (j = 0 ∨ j = 1 ∨ j = 2 ∨ j = 3 ∨ j = 4) as [->|[->|[->|[->| ->]]]] by lia;
    rewrite ?(Hi 0), ?(Hi 1), ?(Hi 2), ?(Hi 3), ?(Hi 4) by done; lia.
Qed.
Lemma recent_in_slot l current slots :
  ring_ok l current slots → (∃ sl, slots !! Z.to_nat (current mod SLOT_COUNT) = Some sl ∧ sl_second sl = current) →
  ∀ x, x ∈ l → ∃ j, 0 ≤ j < 5 ∧ slot_counts current slots j (sm_second x) = bool_decide (current - SLOT_COUNT < sm_second x)
    ∧ ∀ i, i ≠ j → slot_counts current slots i (sm_second x) = false.
Proof.
  intros [Hl _ Hslots] (top & Htop & Hcur) x Hx. rewrite Forall_forall in Hl. destruct (Hl x Hx) as [_ Hrange].
  set (s := sm_second x) in *. assert (0 ≤ s mod SLOT_COUNT < SLOT_COUNT) as Hm by (apply Z.mod_pos_bound; done).
  exists (s mod SLOT_COUNT). split; [done|]. split; last first.
  { intros i Hi. unfold slot_counts. destruct (slots !! Z.to_nat i); [|done]. unfold in_slot. rewrite (bool_decide_eq_false_2 (_ ∧ _)) by naive_solver.
    apply andb_false_r. }
  destruct (Hslots _ Hm) as (sl & Hsl & []). destruct (so_latest0 x Hx eq_refl) as [Hle Hmod]. fold s in Hle. unfold slot_counts. rewrite Hsl.
  assert (sl_second sl - s = 0 ∨ 5 ≤ sl_second sl - s) as Hgap.
  { pose proof (Z.div_mod s SLOT_COUNT ltac:(done)). pose proof (Z.div_mod (sl_second sl) SLOT_COUNT ltac:(done)). unfold SLOT_COUNT in *. lia. }
  apply eq_true_iff_eq. rewrite andb_true_iff. unfold in_slot. rewrite !bool_decide_eq_true. unfold sat_sub, SLOT_COUNT in *. split.
  - intros [Hmin [_ Heq]]. destruct (decide (s = current - 5)) as [Hold|]; [|lia].
    assert (current mod 5 = s mod 5) as Hsame by (rewrite Hold; symmetry; apply (Z.mod_add current (-1) 5); done).
    rewrite Hsame, Hsl in Htop. injection Htop as ->. lia.
  - lia.
Qed.

Lemma fold_sat (slots : list PacketSlot) (f : PacketSlot → Z) a :
  0 ≤ a → Forall (fun sl => 0 ≤ f sl) slots → fold_left (fun acc sl => sat_add acc (f sl)) slots (sat a) = sat (fold_left (fun acc sl => acc + f sl) slots a).
Proof.
  revert a. induction slots as [|sl slots IH]; intros a Ha Hf; [done|]. apply Forall_cons in Hf as [Hs Hf]. cbn. rewrite sat_sat by done. apply IH; [lia|done].
Qed.
Lemma fold_counts (slots : list PacketSlot) a b :
  fold_left (fun '(acked, lost) slot => (sat_add acked (sl_acked slot), sat_add lost (sl_lost slot))) slots (a, b)
  = (fold_left (fun acc sl => sat_add acc (sl_acked sl)) slots a, fold_left (fun acc sl => sat_add acc (sl_lost sl)) slots b).
Proof. revert a b. induction slots as [|sl slots IH]; intros a b; [done|]. cbn. apply IH. Qed.
(** The counted part of a slot. *)
Lemma slot_part l current slots i sl (f : PacketSlot → Z) count :
  slots !! Z.to_nat i = Some sl → f sl = sat (sum_where (in_slot i (sl_second sl)) count l) →
  (if decide (sat_sub current SLOT_COUNT ≤ sl_second sl) then f sl else 0) = sat (sum_where (slot_counts current slots i) count l).
Proof.
  intros Hsl ->. case_decide as Hd.
  - f_equal. apply sum_where_ext. intros x _. unfold slot_counts. rewrite Hsl. by rewrite bool_decide_eq_true_2.
  - rewrite (sum_where_zero (slot_counts _ _ _)); [done|]. intros x _. unfold slot_counts. rewrite Hsl. by rewrite bool_decide_eq_false_2.
Qed.
Lemma fold_keep (keep : PacketSlot → Prop) `{!∀ sl, Decision (keep sl)} (f : PacketSlot → Z) slots a :
  fold_left (fun acc sl => sat_add acc (f sl)) (filter keep slots) (sat a)
  = fold_left (fun acc sl => sat_add acc (if decide (keep sl) then f sl else 0)) slots (sat a).
Proof.
  revert a. induction slots as [|sl slots IH]; intros a; [done|]. rewrite filter_cons. cbn [fold_left]. case_decide; cbn [fold_left].
  - change (sat_add ?x ?y) with (sat (x + y)). apply IH.
  - assert (sat_add (sat a) 0 = sat a) as -> by (unfold sat_add, sat; lia). apply IH.
Qed.
Lemma fold_five (keep : PacketSlot → Prop) `{!∀ sl, Decision (keep sl)} (f : PacketSlot → Z) s0 s1 s2 s3 s4 a0 a1 a2 a3 a4 :
  0 ≤ a0 → 0 ≤ a1 → 0 ≤ a2 → 0 ≤ a3 → 0 ≤ a4 →
  (if decide (keep s0) then f s0 else 0) = sat a0 → (if decide (keep s1) then f s1 else 0) = sat a1 → (if decide (keep s2) then f s2 else 0) = sat a2 →
  (if decide (keep s3) then f s3 else 0) = sat a3 → (if decide (keep s4) then f s4 else 0) = sat a4 →
  fold_left (fun acc sl => sat_add acc (f sl)) (filter keep [s0; s1; s2; s3; s4]) 0 = sat (a0 + a1 + a2 + a3 + a4).
Proof.
  intros ? ? ? ? ? H0 H1 H2 H3 H4. change 0 with (sat 0). rewrite fold_keep. cbn [fold_left]. rewrite H0, H1, H2, H3, H4.
  assert (∀ x y, 0 ≤ x → 0 ≤ y → sat_add (sat x) (sat y) = sat (x + y)) as Hs by (unfold sat_add, sat, u64_max; lia).
  rewrite (Hs 0 a0), (Hs (0 + a0) a1), (Hs (0 + a0 + a1) a2), (Hs (0 + a0 + a1 + a2) a3), (Hs (0 + a0 + a1 + a2 + a3) a4) by lia. done.
Qed.
Theorem count_slots_recent l current slots :
  ring_ok l current slots → (∃ sl, slots !! Z.to_nat (current mod SLOT_COUNT) = Some sl ∧ sl_second sl = current) →
  count_slots slots current = (sat (recent current sm_acked l), sat (recent current sm_lost l)).
Proof.
  intros Hring Htop. pose proof (recent_in_slot l current slots Hring Htop) as Hin. destruct Hring as [Hl Hlen Hslots].
  destruct slots as [|s0 [|s1 [|s2 [|s3 [|s4 [|]]]]]]; try done. unfold count_slots, recent. rewrite fold_counts.
  assert (∀ P count, (count = sm_acked ∨ count = sm_lost) → 0 ≤ sum_where P count l) as Hpos.
  { intros P count Hc. apply sum_where_nonneg. eapply Forall_impl; [exact Hl|]. intros x [[? ?] _]. destruct Hc; subst; lia. }
  rewrite <- (sum_where_five (slot_counts current [s0; s1; s2; s3; s4]) _ sm_acked l Hin), <- (sum_where_five (slot_counts current [s0; s1; s2; s3; s4]) _ sm_lost l Hin).
  destruct (Hslots 0) as (? & [= <-] & []), (Hslots 1) as (? & [= <-] & []), (Hslots 2) as (? & [= <-] & []), (Hslots 3) as (? & [= <-] & []),
    (Hslots 4) as (? & [= <-] & []); try done.
  f_equal; [apply (fold_five _ sl_acked)|apply (fold_five _ sl_lost)]; auto; by apply (slot_part l).
Qed.

(** ** Runs *)

Inductive brutal_event :=
| BrSent (target now bytes last_packet_number bytes_in_flight : Z)
| BrAck (target now packet_number sent bytes : Z) (app_limited : bool) (rtt : Rtt)
| BrAckEvent (target now : Z) (event : AckEvent)
| BrEndAcks (target now in_flight prior_in_flight : Z) (app_limited : bool) (largest : option Z)
| BrCongestion (target now sent : Z) (persistent : bool) (lost_packets lost_bytes in_flight : Z)
| BrMtu (new_mtu : Z).

Section runs.
Context {C : Type} `{!CongestionController C}.

Definition brutal_step (b : Brutal C) (e : brutal_event) : Brutal C :=
  match e with
  | BrSent target now bytes last in_flight => on_sent target now bytes last in_flight b
  | BrAck target now number sent bytes app_limited rtt => on_ack target now number sent bytes app_limited rtt b
  | BrAckEvent target now event => on_ack_event target now event b
  | BrEndAcks target now in_flight prior app_limited largest => on_end_acks target now in_flight prior app_limited largest b
  | BrCongestion target now sent persistent lost lost_bytes in_flight => on_congestion_event target now sent persistent lost lost_bytes in_flight b
  | BrMtu new_mtu => on_mtu_update new_mtu b
  end.
Definition brutal_run (fallback : C) (epoch mtu : Z) (events : list brutal_event) : Brutal C :=
  fold_left brutal_step events (brutal_new fallback epoch mtu).
(** The same events on the fallback alone. *)
Definition fallback_step (c : C) (e : brutal_event) : C :=
  match e with
  | BrSent _ now bytes last in_flight => cg_on_sent now bytes last in_flight c
  | BrAck _ now number sent bytes app_limited rtt => cg_on_ack now number sent bytes app_limited rtt c
  | BrAckEvent _ now event => cg_on_ack_event now event c
  | BrEndAcks _ now in_flight prior app_limited largest => cg_on_end_acks now in_flight prior app_limited largest c
  | BrCongestion _ now sent persistent lost lost_bytes in_flight => cg_on_congestion_event now sent persistent lost lost_bytes in_flight c
  | BrMtu new_mtu => cg_on_mtu_update new_mtu c
  end.
Definition event_target (e : brutal_event) : Z :=
  match e with
  | BrSent target _ _ _ _ | BrAck target _ _ _ _ _ _ | BrAckEvent target _ _ | BrEndAcks target _ _ _ _ _ | BrCongestion target _ _ _ _ _ _ => target
  | BrMtu _ => 0
  end.
End runs.

(** The samples of a run: its acknowledgements while there was a target. *)
Definition sample_of (epoch : Z) (e : brutal_event) : option sample :=
  match e with
  | BrAckEvent target now event =>
      if using_fallback target then None
      else Some (as_secs (Z.max 0 (now - epoch)), len (ae_acked_packets event), len (ae_lost_packets event))
  | _ => None
  end.
Definition samples (epoch : Z) (events : list brutal_event) : list sample := omap (sample_of epoch) events.
(** The rate a controller that counts directly would have. *)
Definition reference_rate (l : list sample) : f64 :=
  match list.last l with
  | Some x => rate_of (sat (recent (sm_second x) sm_acked l)) (sat (recent (sm_second x) sm_lost l))
  | None => 1%Q
  end.
Definition latest (l : list sample) : Z := match list.last l with Some x => sm_second x | None => 0 end.

Section sliding.
Context {C : Type} `{!CongestionController C}.
Implicit Types b : Brutal C.

Record brutal_ok (epoch : Z) (l : list sample) b : Prop := mkBrutalOk {
  bk_epoch : bt_sample_epoch b = epoch;
  bk_ring : ring_ok l (latest l) (bt_slots b);
  bk_rate : bt_ack_rate b = reference_rate l
}.
Lemma brutal_update epoch l b now acked lost :
  brutal_ok epoch l b → 0 ≤ acked ≤ u64_max → 0 ≤ lost ≤ u64_max →
  let x := (as_secs (Z.max 0 (now - epoch)), acked, lost) in latest l ≤ sm_second x → brutal_ok epoch (l ++ [x]) (update_ack_rate now acked lost b).
Proof.
  intros [He Hring Hrate] Ha Hl x Hx. unfold update_ack_rate. rewrite He. cbn zeta.
  assert (0 ≤ sm_second x) as Hx0 by (unfold x, sm_second, as_secs; cbn; apply Z.div_pos; [lia|done]).
  destruct (ring_record l (latest l) (bt_slots b) (sm_second x) acked lost Hring Hx Hx0) as [Hring' Htop]; [by split|].
  assert (latest (l ++ [x]) = sm_second x) as Hlast by (unfold latest; by rewrite last_snoc).
  change (as_secs _) with (sm_second x). change (sm_second x, acked, lost) with x in Hring'.
  rewrite (count_slots_recent (l ++ [x])) by done. constructor; cbn.
  - done.
  - by rewrite Hlast.
  - unfold reference_rate. by rewrite last_snoc.
Qed.

Definition sizes_ok (e : brutal_event) : Prop :=
  match e with BrAckEvent _ _ event => len (ae_acked_packets event) ≤ u64_max ∧ len (ae_lost_packets event) ≤ u64_max | _ => True end.
Lemma ok_fallback epoch l target f b : brutal_ok epoch l b → brutal_ok epoch l (if_fallback target f b).
Proof. unfold if_fallback. destruct (using_fallback target); [by intros []|done]. Qed.
Lemma brutal_step_ok epoch l b e :
  sizes_ok e → (∀ x, sample_of epoch e = Some x → latest l ≤ sm_second x) → brutal_ok epoch l b →
  brutal_ok epoch (l ++ option_list (sample_of epoch e)) (brutal_step b e).
Proof.
  intros Hs Hx Hb. destruct e as [| |target now event| | |]; cbn [sample_of option_list brutal_step]; rewrite ?app_nil_r.
  1,2,4,5: by apply ok_fallback. 2: by destruct Hb.
  unfold on_ack_event. cbn [sample_of] in Hx. destruct (using_fallback target); cbn [negb option_list]; [rewrite app_nil_r; by destruct Hb|].
  destruct Hs. apply brutal_update; [by destruct Hb|pose proof (len_nonneg (ae_acked_packets event)); lia|pose proof (len_nonneg (ae_lost_packets event)); lia|].
  by apply Hx.
Qed.
Lemma samples_snoc epoch events e : samples epoch (events ++ [e]) = samples epoch events ++ option_list (sample_of epoch e).
Proof. unfold samples. rewrite omap_app. cbn. by destruct (sample_of epoch e). Qed.
Lemma brutal_run_ok fallback epoch mtu events :
  Forall sizes_ok events → StronglySorted Z.le (map sm_second (samples epoch events)) → brutal_ok epoch (samples epoch events) (brutal_run fallback epoch mtu events).
Proof.
  unfold brutal_run. induction events as [|e events IH] using rev_ind; intros Hs Hsort.
  - constructor; [done|by apply ring_new|done].
  - apply Forall_app in Hs as [Hs He]. rewrite samples_snoc in *. rewrite map_app in Hsort. apply StronglySorted_app in Hsort as (Hcross & Hsort & _).
    rewrite fold_left_app. apply brutal_step_ok; [by inv He| |by apply IH].
    intros x Hx. rewrite Hx in Hcross. unfold latest. destruct (list.last (samples epoch events)) as [y|] eqn:Ey.
    + apply Hcross; [|left]. apply last_Some in Ey as (l & ->). rewrite map_app. apply elem_of_app. right. left.
    + unfold sample_of in Hx. destruct e; try done. destruct (using_fallback target); [done|]. injection Hx as <-. unfold sm_second, as_secs. cbn.
      apply Z.div_pos; [lia|done].
Qed.

(** While there is no target, the fallback sees every event. *)
Lemma fallback_sees fallback epoch mtu events :
  Forall (fun e => event_target e = 0) events →
  bt_fallback (brutal_run fallback epoch mtu events) = fold_left fallback_step events fallback.
Proof.
  unfold brutal_run. change fallback with (bt_fallback (brutal_new fallback epoch mtu)) at 2. generalize (brutal_new fallback epoch mtu) as b.
  induction events as [|e events IH]; intros b He; [done|]. apply Forall_cons in He as [He Hevents]. cbn [fold_left]. rewrite IH by done. f_equal.
  destruct e; cbn in He |- *; rewrite ?He; done.
Qed.
End sliding.

(** ** Bounds *)

Lemma f64_max_ge_l x y : (x <= f64_max x y)%Q.
Proof. unfold f64_max. destruct (Qle_bool y x) eqn:E; [apply Qle_refl|]. apply Qle_bool_false in E. by apply Qlt_le_weak. Qed.
Lemma f64_max_lub x y z : (x <= z → y <= z → f64_max x y <= z)%Q.
Proof. unfold f64_max. by destruct (Qle_bool y x). Qed.
Lemma min_rate_bounds : (4 # 5 <= MIN_ACK_RATE <= 1)%Q.
Proof. split; apply Qle_bool_iff; vm_compute; reflexivity. Qed.
#[global] Opaque MIN_ACK_RATE.
Lemma rate_of_lower acked lost : (MIN_ACK_RATE <= rate_of acked lost)%Q.
Proof. unfold rate_of. case_decide; [apply min_rate_bounds|]. apply f64_max_ge_r. Qed.
Lemma rate_of_upper acked lost : 0 ≤ acked → 0 ≤ lost → acked + lost < 2 ^ 53 → (rate_of acked lost <= 1)%Q.
Proof.
  intros Ha Hl Ht. unfold rate_of. case_decide as Hd; [apply Qle_refl|]. assert (sat_add acked lost = acked + lost) as Hs by (unfold sat_add, u64_max; lia).
  rewrite Hs in *. apply f64_max_lub; [|apply min_rate_bounds]. unfold f64_div. unfold MIN_SAMPLE_COUNT in Hd.
  assert (0 < f64_of_u64 (acked + lost))%Q as Hpos by (rewrite f64_of_u64_exact by lia; unfold Qlt; cbn; lia).
  apply (rnd_upper _ 1); [lia| |].
  - apply Qle_shift_div_l; [done|]. rewrite Qmult_0_l, f64_of_u64_exact by lia. unfold Qle. cbn. lia.
  - apply Qle_shift_div_r; [done|]. rewrite !f64_of_u64_exact by lia. unfold Qle. cbn. lia.
Qed.
Lemma sum_where_le P count l : Forall (fun x => 0 ≤ count x) l → sum_where P count l ≤ sum_where (fun _ => true) count l.
Proof. induction 1; cbn; [lia|]. destruct (P _); lia. Qed.
(** All packets of a run. *)
Definition packets (l : list sample) : Z := sum_where (fun _ => true) sm_acked l + sum_where (fun _ => true) sm_lost l.
Lemma reference_rate_bounds l :
  Forall sample_ok l → packets l < 2 ^ 53 → (MIN_ACK_RATE <= reference_rate l <= 1)%Q.
Proof.
  intros Hl Hp. unfold reference_rate. destruct (list.last l) as [x|]; [|split; [apply min_rate_bounds|apply Qle_refl]]. split; [apply rate_of_lower|].
  assert (Forall (fun x => 0 ≤ sm_acked x) l ∧ Forall (fun x => 0 ≤ sm_lost x) l) as [Ha Hb]
    by (split; (eapply Forall_impl; [exact Hl|]); intros y [? ?]; lia).
  unfold packets, recent in *. set (P := fun s => bool_decide _).
  pose proof (sum_where_le P _ _ Ha). pose proof (sum_where_le P _ _ Hb). pose proof (sum_where_nonneg P _ _ Ha). pose proof (sum_where_nonneg P _ _ Hb).
  apply rate_of_upper; unfold sat, u64_max; lia.
Qed.

Section bounds.
Context {C : Type} `{!CongestionController C}.
Implicit Types b : Brutal C.

Lemma quarter_more x : 5 * x ≤ 4 * ((5 * x + 3) / 4) ≤ 5 * x + 3.
Proof. pose proof (Z.div_mod (5 * x + 3) 4 ltac:(done)). pose proof (Z.mod_pos_bound (5 * x + 3) 4 ltac:(done)). lia. Qed.
(** The paced rate of a target: at least the target, at most a quarter more. *)
Lemma paced_bytes b target :
  (MIN_ACK_RATE <= bt_ack_rate b <= 1)%Q → 0 < target < 2 ^ 50 →
  target ≤ f64_as_usize (f64_div (f64_of_u64 target) (f64_max (bt_ack_rate b) MIN_ACK_RATE)) ≤ (5 * target + 3) / 4.
Proof.
  intros [Hr0 Hr1] Ht. set (r := f64_max _ _). assert (MIN_ACK_RATE <= r)%Q as Hmin by apply f64_max_ge_r.
  assert (r <= 1)%Q as Hmax by (apply f64_max_lub; [done|apply min_rate_bounds]). assert (0 < r)%Q as Hpos by (eapply Qlt_le_trans; [|eapply Qle_trans; [exact (proj1 min_rate_bounds)|exact Hmin]]; done).
  pose proof (quarter_more target) as Hn.
  set (n := (5 * target + 3) / 4) in *. set (t := f64_of_u64 target). assert (t == inject_Z target)%Q as Et by (apply f64_of_u64_exact; lia).
  assert (inject_Z target <= t / r)%Q as Hlow.
  { apply Qle_shift_div_l; [done|]. rewrite Et. rewrite <- (Qmult_1_r (inject_Z target)) at 2. apply Qmult_le_compat_nonneg; [split; [unfold Qle; cbn; lia|apply Qle_refl]|].
    split; [by apply Qlt_le_weak|done]. }
  assert (t / r <= inject_Z n)%Q as Hup.
  { apply Qle_shift_div_r; [done|]. rewrite Et.
    apply Qle_trans with (inject_Z n * (4 # 5))%Q; [unfold Qle; cbn; lia|].
    apply Qmult_le_compat_nonneg; [split; [unfold Qle; cbn; lia|apply Qle_refl]|]. split; [done|]. eapply Qle_trans; [exact (proj1 min_rate_bounds)|exact Hmin]. }
  assert (0 <= t / r)%Q as H0 by (eapply Qle_trans; [|exact Hlow]; unfold Qle; cbn; lia).
  pose proof (rnd_lower (t / r) target ltac:(lia) Hlow) as HL. pose proof (rnd_upper (t / r) n ltac:(lia) H0 Hup) as HU.
  unfold f64_div, f64_as_usize. apply Qfloor_resp_le in HL, HU. rewrite Qfloor_Z in HL, HU. unfold u64_max. lia.
Qed.

(** A controller with a target paces at the target at least, and at most a
    quarter above it, without an overflow in either profile; its window holds
    a packet. *)
Lemma metrics_bounds {E} checks b target :
  (MIN_ACK_RATE <= bt_ack_rate b <= 1)%Q → 0 < target < 2 ^ 50 →
  ∃ rate, metrics (E:=E) checks target b = Ret (mkMetrics (window target b) None (Some rate) PaceRateTokenBucket)
    ∧ 8 * target ≤ rate ≤ 8 * ((5 * target + 3) / 4) ∧ bt_current_mtu b ≤ window target b.
Proof.
  intros Hr Ht. pose proof (paced_bytes b target Hr Ht) as Hp. pose proof (quarter_more target). unfold metrics, window, pacing_rate_bps, u64_mul. rewrite !decide_False by lia.
  rewrite u64_arith_ok by (unfold u64_max; lia). cbn. eexists. split; [done|]. split; [lia|].
  unfold brutal_window. destruct (negb _ || _); apply Z.le_max_r.
Qed.
(** A target of 2^61 bytes per second or more overflows. *)
Lemma pacing_overflow {E} b target :
  (MIN_ACK_RATE <= bt_ack_rate b <= 1)%Q → 2 ^ 61 ≤ target →
  metrics (E:=E) true target b = Panic ∧
  ∃ x, 2 ^ 61 ≤ x ≤ u64_max ∧
    metrics (E:=E) false target b = Ret (mkMetrics (window target b) None (Some (as_u64 (8 * x))) PaceRateTokenBucket).
Proof.
  intros [Hr0 Hr1] Ht. unfold metrics, pacing_rate_bps, u64_mul. set (r := f64_max _ _).
  assert (MIN_ACK_RATE <= r)%Q as Hmin by apply f64_max_ge_r. assert (r <= 1)%Q as Hmax by (apply f64_max_lub; [done|apply min_rate_bounds]).
  assert (0 < r)%Q as Hpos by (eapply Qlt_le_trans; [|eapply Qle_trans; [exact (proj1 min_rate_bounds)|exact Hmin]]; done).
  assert (inject_Z (2 ^ 61) <= f64_of_u64 target)%Q as Hf. { apply rnd_lower_pow2; [lia|]. by rewrite <- Zle_Qle. }
  assert (inject_Z (2 ^ 61) <= rnd (f64_of_u64 target / r))%Q as Hd.
  { apply rnd_lower_pow2; [lia|]. apply Qle_shift_div_l; [done|]. eapply Qle_trans; [|exact Hf].
    rewrite <- (Qmult_1_r (inject_Z (2 ^ 61))) at 2. apply Qmult_le_compat_nonneg; [split; [done|apply Qle_refl]|].
    split; [by apply Qlt_le_weak|done]. }
  apply Qfloor_resp_le in Hd. rewrite Qfloor_Z in Hd. set (x := f64_as_usize _).
  assert (2 ^ 61 ≤ x ≤ u64_max) as Hx by (unfold x, f64_as_usize, f64_div, u64_max in *; lia).
  rewrite !decide_False by lia. unfold u64_arith. rewrite !decide_False by (unfold u64_max; lia). cbn [mbind outcome_bind].
  split; [done|]. exists x. split; [done|]. by rewrite Z.mul_comm.
Qed.
End bounds.

(** C29: the controller over a run whose acknowledgements come in the order of
    their times, and in which less than 2^53 packets are acknowledged or lost.
    Its acknowledgement rate, which it keeps in five slots reused every five
    seconds, is the one of the packets of the last five seconds counted directly;
    so it lies between four fifths and one. For a target below 2^50 bytes per
    second the connection is paced at the target at least and at most a quarter
    above it, without overflow, with a window that holds a packet. For a target
    of 2^61 bytes per second or more the conversion to bits overflows: a build
    with overflow checks panics, and one without paces at what is left of the
    rate modulo 2^64. Without a target the fallback controller sees every event
    and decides alone. *)
Theorem brutal_sliding_rate {C} `{!CongestionController C} (fallback : C) epoch mtu events :
  Forall sizes_ok events → StronglySorted Z.le (map sm_second (samples epoch events)) → packets (samples epoch events) < 2 ^ 53 →
  let b := brutal_run fallback epoch mtu events in
  bt_ack_rate b = reference_rate (samples epoch events) ∧
  (4 # 5 <= bt_ack_rate b <= 1)%Q ∧
  (∀ checks target, 0 < target < 2 ^ 50 →
     ∃ rate, metrics (E:=unit) checks target b = Ret (mkMetrics (window target b) None (Some rate) PaceRateTokenBucket)
       ∧ 8 * target ≤ rate ≤ 8 * ((5 * target + 3) / 4) ∧ bt_current_mtu b ≤ window target b) ∧
  (∀ target, 2 ^ 61 ≤ target →
     metrics (E:=unit) true target b = Panic ∧
     ∃ x, 2 ^ 61 ≤ x ≤ u64_max ∧
       metrics (E:=unit) false target b = Ret (mkMetrics (window target b) None (Some (as_u64 (8 * x))) PaceRateTokenBucket)) ∧
  (Forall (fun e => event_target e = 0) events →
     bt_fallback b = fold_left fallback_step events fallback ∧ window 0 b = cg_window (bt_fallback b)).
Proof.
  intros Hs Hsort Hp b. pose proof (brutal_run_ok fallback epoch mtu events Hs Hsort) as [_ Hring Hrate]. fold b in Hring, Hrate.
  assert (MIN_ACK_RATE <= bt_ack_rate b <= 1)%Q as Hbounds.
  { rewrite Hrate. apply reference_rate_bounds; [|done]. eapply Forall_impl; [apply Hring|]. by intros x [? _]. }
  split_and!.
  - done.
  - eapply Qle_trans; [exact (proj1 min_rate_bounds)|apply Hbounds].
  - apply Hbounds.
  - intros checks target Ht. by apply metrics_bounds.
  - intros target Ht. by apply pacing_overflow.
  - intros Hf. split; [by apply fallback_sees|]. unfold window. by rewrite decide_True.
Qed.

(** A fallback that counts what it sees, and a run that loses packets, waits,
    and recovers. *)
#[local] Instance counting : CongestionController Z := {|
  cg_on_sent := fun _ _ _ _ n => n + 1; cg_on_ack := fun _ _ _ _ _ _ n => n + 1; cg_on_ack_event := fun _ _ n => n + 1;
  cg_on_end_acks := fun _ _ _ _ _ n => n + 1; cg_on_congestion_event := fun _ _ _ _ _ _ n => n + 1; cg_on_mtu_update := fun _ n => n + 1;
  cg_window := fun n => 1200 * n; cg_metrics := fun n => mkMetrics (1200 * n) None None PaceWindow; cg_initial_window := fun _ => 12000
|}.
Definition acks (acked lost : nat) : AckEvent := mkAckEvent 0 (replicate acked (0, 1200)) (replicate lost (0, 1200)) false None (mkRtt true 20000000).
Definition example_brutal : list brutal_event :=
  [BrAckEvent 1000000 0 (acks 90 10); BrSent 1000000 1 1200 1 0; BrAckEvent 0 NANOS_PER_SEC (acks 0 60);
   BrAckEvent 1000000 (4 * NANOS_PER_SEC) (acks 45 5); BrAckEvent 1000000 (5 * NANOS_PER_SEC) (acks 45 5)].
Lemma brutal_sliding_rate_witness :
  reference_rate (samples 0 example_brutal) = rnd (9 # 10) ∧
  bt_ack_rate (brutal_run 0 0 1200 example_brutal) = reference_rate (samples 0 example_brutal).
Proof.
  split; [vm_compute; reflexivity|]. apply (brutal_sliding_rate 0 0 1200 example_brutal).
  - repeat (apply Forall_cons; split; [first [exact I|split; vm_compute; discriminate]|]). constructor.
  - repeat first [apply SSorted_cons|apply SSorted_nil|apply Forall_cons; split; [vm_compute; discriminate|]|apply Forall_nil; exact I].
  - vm_compute. reflexivity.
Defined.
