(* ===== verification/Pacer.v ===== *)
(** * Pacing ([vendor/quinn-proto/src/connection/pacing.rs])

    The pacer of the vendored QUIC library, with the rate bucket that was added
    to it for Brutal. Instants are nanoseconds. The tuning the environment may
    change is a record, and arithmetic that can overflow with such a tuning takes
    the flag [checks]. *)
From S2P Require Import Prelude RustStr Float Limit Quic Brutal.
From Stdlib Require Import QArith.
From stdpp Require Import sorting.
Local Open Scope Z_scope.

Definition BURST_INTERVAL_NANOS : Z := 2000000.
Definition RATE_BASED_BURST_INTERVAL_NANOS : Z := 4000000.
Definition MIN_RATE_BASED_DELAY_NANOS : Z := 1000000.
Definition MIN_BURST_SIZE : Z := 10.
Definition RATE_BASED_MIN_BURST_PACKETS : Z := 10.
Definition MAX_BURST_SIZE : Z := 256.
Definition u128_max : Z := 2 ^ 128 - 1.

Record PacingTuning := mkTuning {
  tu_use_rate : bool; tu_burst_interval : Z; tu_min_burst_packets : Z; tu_max_burst_packets : Z; tu_rate_burst_interval : Z; tu_min_rate_delay : Z;
  tu_rate_min_burst_packets : Z
}.
Definition env_u128 (env : bytes → option bytes) (name : bytes) : option Z := value ← env name; parse_uint u128_max value.
Definition pacing_tuning (env : bytes → option bytes) : PacingTuning :=
  mkTuning (default true (env_bool env (str "HY_RS_PACING_USE_RATE")))
    (default BURST_INTERVAL_NANOS (env_u128 env (str "HY_RS_PACING_BURST_NS")))
    (default MIN_BURST_SIZE (env_u64 env (str "HY_RS_PACING_MIN_BURST_PKTS")))
    (default MAX_BURST_SIZE (env_u64 env (str "HY_RS_PACING_MAX_BURST_PKTS")))
    (default RATE_BASED_BURST_INTERVAL_NANOS (env_u128 env (str "HY_RS_RATE_PACING_BURST_NS")))
    (default MIN_RATE_BASED_DELAY_NANOS (env_u64 env (str "HY_RS_RATE_PACING_MIN_DELAY_NS")))
    (default RATE_BASED_MIN_BURST_PACKETS (env_u64 env (str "HY_RS_RATE_PACING_MIN_BURST_PKTS"))).

(** Multiplication on [u128], and a division that rounds up. *)
Definition u128_mul {E} (checks : bool) (a b : Z) : outcome E Z :=
  if decide (a * b ≤ u128_max) then Ret (a * b) else if checks then Panic else Ret (a * b mod 2 ^ 128).
Definition ceil_div (a b : Z) : Z := (a + b - 1) / b.

Record RateBucket := mkBucket { rb_budget : Z; rb_mtu : Z; rb_last_sent : option Z; rb_bytes_per_sec : Z }.

Section bucket.
Context {E : Type} (checks : bool) (tuning : PacingTuning).
Abbreviation M := (outcome E).

Definition max_burst_size (r : RateBucket) : M Z :=
  if decide (rb_bytes_per_sec r = 0) then Ret (sat_mul (rb_mtu r) RATE_BASED_MIN_BURST_PACKETS)
  else
    p ← u128_mul checks (rb_bytes_per_sec r) (tu_rate_burst_interval tuning);
    let rate_burst := as_u64 (ceil_div p NANOS_PER_SEC) in
    packets ← u64_mul checks (tu_rate_min_burst_packets tuning) (rb_mtu r);
    Ret (Z.max rate_burst packets).
Definition configure (mtu rate_bps : Z) (reset_budget : bool) (r : RateBucket) : M RateBucket :=
  let r' := mkBucket (rb_budget r) mtu (rb_last_sent r) (ceil_div rate_bps 8) in
  burst ← max_burst_size r';
  if reset_budget || bool_decide (rb_last_sent r = None) then Ret (mkBucket burst mtu None (ceil_div rate_bps 8))
  else Ret (mkBucket (Z.min (rb_budget r) burst) mtu (rb_last_sent r) (ceil_div rate_bps 8)).
Definition budget (now : Z) (r : RateBucket) : M Z :=
  burst ← max_burst_size r;
  match rb_last_sent r with
  | None => Ret burst
  | Some last =>
      p ← u128_mul checks (rb_bytes_per_sec r) (Z.max 0 (now - last));
      Ret (Z.min burst (sat_add (rb_budget r) (Z.min (p / NANOS_PER_SEC) u64_max)))
  end.
Definition bucket_on_transmit (now packet_length : Z) (r : RateBucket) : M RateBucket :=
  b ← budget now r;
  Ret (mkBucket (sat_sub b packet_length) (rb_mtu r) (Some now) (rb_bytes_per_sec r)).

(** ** The pacer *)

(** The rate that counts. *)
Definition active_rate (pacing_rate_bps : option Z) : option Z :=
  rate ← pacing_rate_bps; if bool_decide (0 < rate) && tu_use_rate tuning then Some rate else None.
Definition optimal_capacity (smoothed_rtt window mtu : Z) (pacing_rate_bps : option Z) : M Z :=
  match active_rate pacing_rate_bps with
  | Some rate_bps =>
      p ← u128_mul checks (ceil_div rate_bps 8) (tu_rate_burst_interval tuning);
      packets ← u64_mul checks (tu_rate_min_burst_packets tuning) mtu;
      Ret (Z.max (as_u64 (ceil_div p NANOS_PER_SEC)) packets)
  | None =>
      p ← u128_mul checks window (tu_burst_interval tuning);
      low ← u64_mul checks (tu_min_burst_packets tuning) mtu;
      high ← u64_mul checks (tu_max_burst_packets tuning) mtu;
      if decide (high < low) then Panic else Ret (Z.max low (Z.min high (as_u64 (p / Z.max smoothed_rtt 1))))
  end.

Record Pacer := mkPacer {
  pa_capacity : Z; pa_last_window : Z; pa_last_mtu : Z; pa_last_rate : option Z; pa_tokens : Z; pa_prev : Z; pa_behavior : PacingBehavior;
  pa_bucket : RateBucket
}.
Definition pacer_new (smoothed_rtt window mtu now : Z) : M Pacer :=
  capacity ← optimal_capacity smoothed_rtt window mtu None;
  Ret (mkPacer capacity window mtu None capacity now PaceWindow (mkBucket 0 mtu None 0)).
Definition set_bucket (r : RateBucket) (p : Pacer) : Pacer :=
  mkPacer (pa_capacity p) (pa_last_window p) (pa_last_mtu p) (pa_last_rate p) (pa_tokens p) (pa_prev p) (pa_behavior p) r.
Definition set_tokens (tokens prev : Z) (p : Pacer) : Pacer :=
  mkPacer (pa_capacity p) (pa_last_window p) (pa_last_mtu p) (pa_last_rate p) tokens prev (pa_behavior p) (pa_bucket p).
Definition on_transmit (now packet_length : Z) (p : Pacer) : M Pacer :=
  if decide (pa_behavior p = PaceRateTokenBucket ∧ 0 < rb_bytes_per_sec (pa_bucket p)) then
    r ← bucket_on_transmit now packet_length (pa_bucket p);
    Ret (set_bucket r p)
  else Ret (set_tokens (sat_sub (pa_tokens p) packet_length) (pa_prev p) p).

(** The delay for a deficit, in nanoseconds. *)
Definition delay_nanos (deficit bytes_per_sec : Z) : M Z :=
  p ← u128_mul checks deficit NANOS_PER_SEC;
  Ret (Z.min (Z.max (ceil_div p bytes_per_sec) (tu_min_rate_delay tuning)) u64_max).
(** [delay] of the rate bucket. *)
Definition rate_delay (mtu : Z) (pacing_rate_bps : option Z) (now : Z) (p : Pacer) : M (option Z * Pacer) :=
  match active_rate pacing_rate_bps with
  | Some rate_bps =>
      let fresh := bool_decide (pa_behavior p ≠ PaceRateTokenBucket) in
      let reconfigure := fresh || bool_decide (pa_last_mtu p ≠ mtu) || bool_decide (rb_bytes_per_sec (pa_bucket p) ≠ ceil_div rate_bps 8) in
      r ← (if reconfigure then configure mtu rate_bps fresh (pa_bucket p) else Ret (pa_bucket p));
      let p := mkPacer (pa_capacity p) (pa_last_window p) (if reconfigure then mtu else pa_last_mtu p) None (pa_tokens p) (pa_prev p) PaceRateTokenBucket r in
      b ← budget now r;
      if decide (mtu ≤ b) then Ret (None, p)
      else if decide (rb_bytes_per_sec r = 0) then Ret (None, p)
      else
        d ← delay_nanos (mtu - b) (rb_bytes_per_sec r);
        Ret (Some (default now (rb_last_sent r) + d), p)
  | None => Ret (None, p)
  end.
(** [delay] of the window. *)
Definition DURATION_MAX : Z := u64_max * NANOS_PER_SEC + 999999999.
Definition window_delay (smoothed_rtt bytes_to_send mtu window : Z) (pacing_rate_bps : option Z) (now : Z) (p : Pacer) : M (option Z * Pacer) :=
  let active_rate_bps := active_rate pacing_rate_bps in
  let bytes_required := if bool_decide (is_Some active_rate_bps) then mtu else bytes_to_send in
  p ← (if decide (window ≠ pa_last_window p ∨ mtu ≠ pa_last_mtu p ∨ active_rate_bps ≠ pa_last_rate p ∨ pa_behavior p ≠ PaceWindow) then
         capacity ← optimal_capacity smoothed_rtt window mtu active_rate_bps;
         let tokens := if decide (pa_behavior p ≠ PaceWindow) then capacity else Z.min capacity (pa_tokens p) in
         Ret (mkPacer capacity window mtu active_rate_bps tokens now PaceWindow (pa_bucket p))
       else Ret p);
  if decide (bytes_required ≤ pa_tokens p) then Ret (None, p)
  else if decide (u32_max < window) then Ret (None, p)
  else
    let time_elapsed := Z.max 0 (now - pa_prev p) in
    if decide (smoothed_rtt = 0 ∧ default 0 active_rate_bps = 0) then Ret (None, p)
    else
      let new_tokens :=
        match active_rate_bps with
        | Some rate_bps => f64_mul (f64_div (f64_of_u64 rate_bps) 8) (as_secs_f64 time_elapsed)
        | None => f64_mul (f64_mul (f64_of_u64 window) (5 # 4)) (f64_div (as_secs_f64 time_elapsed) (as_secs_f64 smoothed_rtt))
        end in
      let p := set_tokens (Z.min (sat_add (pa_tokens p) (f64_as_usize new_tokens)) (pa_capacity p)) now p in
      if decide (bytes_required ≤ pa_tokens p) then Ret (None, p)
      else
        match active_rate_bps with
        | Some rate_bps =>
            if decide (ceil_div rate_bps 8 = 0) then Ret (None, p)
            else d ← delay_nanos (sat_sub bytes_required (pa_tokens p)) (ceil_div rate_bps 8); Ret (Some (pa_prev p + d), p)
        | None =>
            if decide (window = 0) then Panic
            else
              let factor := (Z.max bytes_required (pa_capacity p) - pa_tokens p) mod 2 ^ 32 in
              let product := smoothed_rtt * factor in
              let unscaled_delay := (if decide (product ≤ DURATION_MAX) then product else DURATION_MAX) / window in
              Ret (Some (pa_prev p + unscaled_delay / 5 * 4), p)
        end.
Definition delay (smoothed_rtt bytes_to_send mtu window : Z) (pacing_rate_bps : option Z) (behavior : PacingBehavior) (now : Z) (p : Pacer)
    : M (option Z * Pacer) :=
  if checks && bool_decide (window = 0) then Panic
  else
    match behavior with
    | PaceRateTokenBucket => rate_delay mtu pacing_rate_bps now p
    | PaceWindow => window_delay smoothed_rtt bytes_to_send mtu window pacing_rate_bps now p
    end.
End bucket.
Arguments Pacer : clear implicits.

(** The tests of the source. *)
Definition default_tuning : PacingTuning := pacing_tuning (fun _ => None).
Definition MILLI : Z := 1000000.
Example initial_capacity :
  (p ← pacer_new (E:=unit) true default_tuning (50 * MILLI) 2000000 1500 0; Ret (pa_capacity p)) = Ret (2000000 * BURST_INTERVAL_NANOS / (50 * MILLI))
  ∧ (p ← pacer_new (E:=unit) true default_tuning 0 2000000 1500 0; Ret (pa_capacity p)) = Ret (256 * 1500)
  ∧ (p ← pacer_new (E:=unit) true default_tuning (50 * MILLI) 1 1500 0; Ret (pa_capacity p)) = Ret (10 * 1500).
Proof. split_and!; vm_compute; reflexivity. Qed.
Example rate_bucket_deficit :
  (p ← pacer_new (E:=unit) true default_tuning (50 * MILLI) 2000000 1500 0;
   '(d1, p) ← delay true default_tuning (50 * MILLI) 1500 1500 2000000 (Some 8000000) PaceRateTokenBucket 0 p;
   p ← on_transmit true default_tuning 0 1500 p;
   let p := set_bucket (mkBucket 0 1500 (Some 0) (rb_bytes_per_sec (pa_bucket p))) p in
   '(d2, _) ← delay true default_tuning (50 * MILLI) 1500 1500 2000000 (Some 8000000) PaceRateTokenBucket 0 p;
   Ret (d1, d2)) = Ret (None, Some 1500000).
Proof. vm_compute. reflexivity. Qed.
Example window_pause :
  (p ← pacer_new (E:=unit) true default_tuning (50 * MILLI) 2000000 1000 0;
   let p := set_tokens 0 0 p in
   '(d, _) ← delay true default_tuning (50 * MILLI) 1000 1000 2000000 None PaceWindow 0 p;
   '(d', p) ← delay true default_tuning (50 * MILLI) 1000 1000 2000000 None PaceWindow (800000) p;
   Ret (d, d', pa_tokens p, pa_capacity p)) = Ret (Some (BURST_INTERVAL_NANOS * 4 / 5), None, 40000, 80000).
Proof. vm_compute. reflexivity. Qed.

(** ** The rate bucket *)

(** A tuning, a rate and an MTU for which nothing overflows; the default tuning
    admits 4 terabytes per second. *)
Record fits (tuning : PacingTuning) (bytes_per_sec mtu : Z) : Prop := mkFits {
  ft_rate : 0 < bytes_per_sec ≤ u64_max;
  ft_mtu : 0 < mtu;
  ft_interval : 0 ≤ tu_rate_burst_interval tuning ∧ bytes_per_sec * tu_rate_burst_interval tuning ≤ u64_max;
  ft_packets : 1 ≤ tu_rate_min_burst_packets tuning ∧ tu_rate_min_burst_packets tuning * mtu ≤ u64_max
}.
Lemma default_fits bytes_per_sec mtu : 0 < bytes_per_sec ≤ 4000000000000 → 0 < mtu ≤ 65535 → fits default_tuning bytes_per_sec mtu.
Proof. intros. constructor; cbn; unfold RATE_BASED_BURST_INTERVAL_NANOS, RATE_BASED_MIN_BURST_PACKETS, u64_max; lia. Qed.

Definition burst (tuning : PacingTuning) (bytes_per_sec mtu : Z) : Z :=
  Z.max (ceil_div (bytes_per_sec * tu_rate_burst_interval tuning) NANOS_PER_SEC) (tu_rate_min_burst_packets tuning * mtu).
(** The budget, as what it is meant to be. *)
Definition accrued (bytes_per_sec elapsed : Z) : Z := bytes_per_sec * elapsed / NANOS_PER_SEC.
Definition budget_of (tuning : PacingTuning) (now : Z) (r : RateBucket) : Z :=
  let cap := burst tuning (rb_bytes_per_sec r) (rb_mtu r) in
  match rb_last_sent r with
  | None => cap
  | Some last => Z.min cap (rb_budget r + accrued (rb_bytes_per_sec r) (Z.max 0 (now - last)))
  end.

Section rates.
Context {E : Type} (checks : bool) (tuning : PacingTuning) (bps mtu : Z) (Hfits : fits tuning bps mtu).
Abbreviation N := NANOS_PER_SEC.

Lemma ceil_div_bounds a b : 0 < b → 0 ≤ a → a ≤ b * ceil_div a b < a + b ∧ 0 ≤ ceil_div a b.
Proof.
  intros Hb Ha. unfold ceil_div. pose proof (Z.div_mod (a + b - 1) b ltac:(lia)). pose proof (Z.mod_pos_bound (a + b - 1) b Hb).
  pose proof (Z.div_pos (a + b - 1) b ltac:(lia) Hb). lia.
Qed.
Lemma burst_range : mtu ≤ burst tuning bps mtu ≤ u64_max.
Proof.
  destruct Hfits as [[? ?] ? [? ?] [? ?]]. unfold burst.
  destruct (ceil_div_bounds (bps * tu_rate_burst_interval tuning) N ltac:(done) ltac:(nia)) as [? ?]. unfold NANOS_PER_SEC, u64_max in *. nia.
Qed.
Lemma u128_mul_ok a b : 0 ≤ a ≤ u64_max → 0 ≤ b ≤ u64_max → u128_mul (E:=E) checks a b = Ret (a * b).
Proof. intros. unfold u128_mul. rewrite decide_True; [done|]. unfold u64_max, u128_max in *. nia. Qed.
Lemma max_burst_ok r : rb_bytes_per_sec r = bps → rb_mtu r = mtu → max_burst_size (E:=E) checks tuning r = Ret (burst tuning bps mtu).
Proof.
  intros Hb Hm. destruct Hfits as [[? ?] ? [? ?] [? ?]]. unfold max_burst_size, burst. rewrite Hb, Hm, decide_False by lia.
  destruct (ceil_div_bounds (bps * tu_rate_burst_interval tuning) N ltac:(done) ltac:(nia)) as [? ?].
  rewrite u128_mul_ok by nia. cbn [mbind outcome_bind]. unfold u64_mul. rewrite u64_arith_ok by nia. cbn [mbind outcome_bind].
  unfold as_u64. rewrite Z.mod_small; [done|]. unfold NANOS_PER_SEC, u64_max in *. lia.
Qed.

(** A bucket that is configured. *)
Record bucket_ok (r : RateBucket) : Prop := mkBucketOk {
  ok_rate : rb_bytes_per_sec r = bps;
  ok_mtu : rb_mtu r = mtu;
  ok_budget : 0 ≤ rb_budget r ≤ burst tuning bps mtu
}.
(** Instants in range, so that the time since the last packet fits 64 bits. *)
Definition soon (now : Z) (r : RateBucket) : Prop := ∀ last, rb_last_sent r = Some last → now - last ≤ u64_max.
Lemma accrued_nonneg e : 0 ≤ e → 0 ≤ accrued bps e.
Proof. intros. destruct Hfits as [[? ?] _ _ _]. apply Z.div_pos; [nia|done]. Qed.
Lemma accrued_le e : 0 ≤ e → N * accrued bps e ≤ bps * e < N * accrued bps e + N.
Proof.
  intros. destruct Hfits as [[? ?] _ _ _]. unfold accrued. pose proof (Z.div_mod (bps * e) N ltac:(done)).
  pose proof (Z.mod_pos_bound (bps * e) N ltac:(done)). lia.
Qed.
Lemma budget_ok now r : bucket_ok r → soon now r → budget (E:=E) checks tuning now r = Ret (budget_of tuning now r).
Proof.
  intros [Hb Hm Hbud] Hsoon. unfold budget, budget_of. rewrite (max_burst_ok r) by done. rewrite Hb, Hm. cbn [mbind outcome_bind].
  destruct (rb_last_sent r) as [last|] eqn:El; [|done]. specialize (Hsoon last El).
  pose proof burst_range as Hr. destruct Hfits as [[? ?] ? ? ?].
  rewrite u128_mul_ok by (unfold u64_max in *; lia). cbn [mbind outcome_bind]. fold (accrued bps (Z.max 0 (now - last))).
  pose proof (accrued_nonneg (Z.max 0 (now - last)) ltac:(lia)). unfold sat_add. f_equal. lia.
Qed.
Lemma budget_of_range now r : bucket_ok r → 0 ≤ budget_of tuning now r ≤ burst tuning bps mtu.
Proof.
  intros [Hb Hm Hbud]. unfold budget_of. rewrite Hb, Hm. pose proof burst_range. destruct Hfits as [? ? ? ?]. destruct (rb_last_sent r) as [last|]; [|lia].
  pose proof (accrued_nonneg (Z.max 0 (now - last)) ltac:(lia)). lia.
Qed.

(** ** Conformance *)

(** A packet that was let through: [delay] did not ask to wait, and it was
    sent. *)
Inductive paced (rtt to_send window rate_bps : Z) : Pacer → list (Z * Z) → Pacer → Prop :=
| paced_nil p : paced rtt to_send window rate_bps p [] p
| paced_cons p p1 p2 p3 now size sends :
    delay (E:=E) checks tuning rtt to_send mtu window (Some rate_bps) PaceRateTokenBucket now p = Ret (None, p1) →
    0 ≤ size ≤ mtu → soon now (pa_bucket p1) → on_transmit (E:=E) checks tuning now size p1 = Ret p2 →
    paced rtt to_send window rate_bps p2 sends p3 → paced rtt to_send window rate_bps p ((now, size) :: sends) p3.
Definition bytes_of (sends : list (Z * Z)) : Z := fold_right (fun x n => x.2 + n) 0 sends.
Definition ready (rate_bps : Z) (p : Pacer) : Prop :=
  pa_behavior p = PaceRateTokenBucket ∧ pa_last_mtu p = mtu ∧ ceil_div rate_bps 8 = bps ∧ bucket_ok (pa_bucket p).

Lemma configure_ok rate_bps reset r :
  ceil_div rate_bps 8 = bps → 0 ≤ rb_budget r →
  ∃ r', configure (E:=E) checks tuning mtu rate_bps reset r = Ret r' ∧ bucket_ok r' ∧ (reset = true → rb_last_sent r' = None).
Proof.
  intros Hr Hb. unfold configure. rewrite (max_burst_ok _) by done. cbn [mbind outcome_bind]. pose proof burst_range. destruct Hfits as [? ? ? ?].
  destruct (reset || _) eqn:Eo; eexists; (split; [done|]); (split; [constructor; cbn; lia|]); [done|]. intros ->. done.
Qed.

(** A pacer that paced by the window so far, or by this bucket. *)
Definition paceable (rate_bps : Z) (p : Pacer) : Prop := ready rate_bps p ∨ (pa_behavior p = PaceWindow ∧ 0 ≤ rb_budget (pa_bucket p)).
Lemma delay_ready rtt to_send window rate_bps now p p1 o :
  tu_use_rate tuning = true → 0 < rate_bps → ceil_div rate_bps 8 = bps → paceable rate_bps p →
  delay (E:=E) checks tuning rtt to_send mtu window (Some rate_bps) PaceRateTokenBucket now p = Ret (o, p1) →
  soon now (pa_bucket p1) →
  ready rate_bps p1 ∧ (ready rate_bps p → pa_bucket p1 = pa_bucket p) ∧
  match o with
  | None => mtu ≤ budget_of tuning now (pa_bucket p1)
  | Some t => budget_of tuning now (pa_bucket p1) < mtu ∧
      ∃ d, delay_nanos (E:=E) checks tuning (mtu - budget_of tuning now (pa_bucket p1)) bps = Ret d ∧ t = default now (rb_last_sent (pa_bucket p1)) + d
  end.
Proof.
  intros Huse Hrate Hbps Hp. unfold delay. destruct (checks && _); [done|]. unfold rate_delay, active_rate. cbn [mbind option_bind].
  rewrite bool_decide_eq_true_2, Huse by done. cbn [andb]. cbn zeta.
  set (reconf := bool_decide (pa_behavior p ≠ _) || _ || _).
  assert (∃ r, (if reconf then configure (E:=E) checks tuning mtu rate_bps (bool_decide (pa_behavior p ≠ PaceRateTokenBucket)) (pa_bucket p) else Ret (pa_bucket p)) = Ret r
    ∧ bucket_ok r ∧ (ready rate_bps p → r = pa_bucket p) ∧ (if reconf then mtu else pa_last_mtu p) = mtu) as (r & -> & Hr & Hsame & Hmtu).
  { destruct Hp as [(Hb & Hm & _ & Hok)|[Hb Hbud]].
    - assert (reconf = false) as ->; [|by exists (pa_bucket p)]. unfold reconf. rewrite Hb, Hm, (ok_rate _ Hok), Hbps. by rewrite !bool_decide_eq_false_2 by naive_solver.
    - assert (reconf = true) as -> by (unfold reconf; rewrite Hb; by rewrite bool_decide_eq_true_2).
      destruct (configure_ok rate_bps (bool_decide (pa_behavior p ≠ PaceRateTokenBucket)) (pa_bucket p) Hbps Hbud) as (r & Hc & Hok & _).
      exists r. split_and!; [done|done| |done]. intros (Hb' & _). congruence. }
  cbn [mbind outcome_bind]. intros H Hsoon.
  assert (pa_bucket p1 = r) as Hp1.
  { destruct (budget _ _ _ _); cbn [mbind outcome_bind] in H; [|done..]. repeat case_decide; [by injection H as _ <-..|].
    destruct (delay_nanos _ _ _ _); cbn [mbind outcome_bind] in H; [|done..]. by injection H as _ <-. }
  rewrite Hp1 in *. rewrite (budget_ok now r Hr Hsoon) in H. cbn [mbind outcome_bind] in H. rewrite (ok_rate _ Hr), Hmtu in H.
  assert (ready rate_bps p1) as Hready.
  { unfold ready. rewrite Hp1. repeat case_decide; try (injection H as _ <-; done). destruct (delay_nanos _ _ _ _); cbn [mbind outcome_bind] in H; [|done..].
    by injection H as _ <-. }
  split; [done|]. split; [done|]. destruct Hfits as [[? ?] _ _ _]. case_decide as Hle; [by injection H as <- _|]. rewrite decide_False in H by lia.
  destruct (delay_nanos _ _ _ _) as [d| |] eqn:Ed; cbn [mbind outcome_bind] in H; [|done..]. injection H as <- _. split; [lia|]. by exists d.
Qed.
(** Asking a configured pacer leaves its bucket as it is. *)
Lemma delay_same rtt to_send window rate_bps now p p1 o :
  ready rate_bps p → delay (E:=E) checks tuning rtt to_send mtu window (Some rate_bps) PaceRateTokenBucket now p = Ret (o, p1) → pa_bucket p1 = pa_bucket p.
Proof.
  intros (Hb & Hm & Hr & Hok). unfold delay. destruct (checks && _); [done|]. unfold rate_delay. destruct (active_rate _ _) as [rate|] eqn:Ea; [|by intros [= _ <-]].
  assert (rate = rate_bps) as ->. { unfold active_rate in Ea. cbn in Ea. destruct (_ && _); [by injection Ea|done]. }
  rewrite Hb, Hm, (ok_rate _ Hok), Hr. rewrite !bool_decide_eq_false_2 by naive_solver. cbn [orb mbind outcome_bind].
  destruct (budget _ _ _ _); cbn [mbind outcome_bind]; [|done..]. repeat case_decide; [by intros [= _ <-]..|].
  destruct (delay_nanos _ _ _ _); cbn [mbind outcome_bind]; [|done..]. by intros [= _ <-].
Qed.
Lemma transmit_ready rate_bps now size p :
  ready rate_bps p → soon now (pa_bucket p) → 0 ≤ size →
  ∃ p', on_transmit (E:=E) checks tuning now size p = Ret p' ∧ ready rate_bps p' ∧ rb_last_sent (pa_bucket p') = Some now
    ∧ rb_budget (pa_bucket p') = sat_sub (budget_of tuning now (pa_bucket p)) size.
Proof.
  intros (Hb & Hm & Hr & Hok) Hsoon Hsize. destruct Hfits as [[? ?] _ _ _]. unfold on_transmit. rewrite decide_True by (by rewrite (ok_rate _ Hok)).
  unfold bucket_on_transmit. rewrite (budget_ok now _ Hok Hsoon). cbn [mbind outcome_bind]. eexists. split; [done|].
  pose proof (budget_of_range now _ Hok). unfold ready. cbn. split_and!; try done. constructor; cbn; [apply Hok|apply Hok|]. unfold sat_sub. lia.
Qed.

(** The instants of the packets do not go back. *)
Fixpoint ordered (from : Z) (sends : list (Z * Z)) : Prop :=
  match sends with [] => True | (now, _) :: sends => from ≤ now ∧ ordered now sends end.
Fixpoint end_of (from : Z) (sends : list (Z * Z)) : Z := match sends with [] => from | (now, _) :: sends => end_of now sends end.

Section conform.
Context (rtt to_send window rate_bps : Z) (Huse : tu_use_rate tuning = true) (Hrate : 0 < rate_bps) (Hbps : ceil_div rate_bps 8 = bps).

Lemma paced_from last sends p p' :
  paced rtt to_send window rate_bps p sends p' → ready rate_bps p → rb_last_sent (pa_bucket p) = Some last → ordered last sends →
  N * bytes_of sends + N * rb_budget (pa_bucket p') ≤ N * rb_budget (pa_bucket p) + bps * (end_of last sends - last).
Proof.
  intros Hrun. revert last. induction Hrun as [p|p p1 p2 p3 now size sends Hd Hsize Hsoon Ht Hrun IH]; intros last Hp Hl Ho.
  { cbn. lia. }
  destruct Ho as [Hle Ho]. destruct (delay_ready _ _ _ _ _ _ _ _ Huse Hrate Hbps (or_introl Hp) Hd Hsoon) as (Hp1 & Hsame & Hbud).
  rewrite (Hsame Hp) in *. destruct (transmit_ready rate_bps now size p1 Hp1) as (p2' & Ht' & Hp2 & Hl2 & Hb2); [by rewrite (Hsame Hp)|lia|].
  rewrite Ht in Ht'. injection Ht' as <-. specialize (IH now Hp2 Hl2 Ho). cbn [bytes_of fold_right end_of snd].
  fold (bytes_of sends). rewrite Hb2, (Hsame Hp) in IH. destruct Hp as (_ & _ & _ & [Hr Hm _]).
  assert (N * budget_of tuning now (pa_bucket p) ≤ N * rb_budget (pa_bucket p) + bps * (now - last)) as Hgrow.
  { unfold budget_of. rewrite Hl, Hr. pose proof (accrued_le (Z.max 0 (now - last)) ltac:(lia)) as Ha. rewrite Z.max_r in Ha |- * by lia.
    unfold NANOS_PER_SEC in *. lia. }
  unfold sat_sub in IH. rewrite Z.max_r in IH by lia. unfold NANOS_PER_SEC in *. lia.
Qed.
Lemma paced_ready p sends p' : paced rtt to_send window rate_bps p sends p' → ready rate_bps p → ready rate_bps p'.
Proof.
  induction 1 as [|p p1 p2 p3 now size sends Hd Hsize Hsoon Ht Hrun IH]; [done|]. intros Hp. apply IH.
  destruct (delay_ready _ _ _ _ _ _ _ _ Huse Hrate Hbps (or_introl Hp) Hd Hsoon) as (Hp1 & _).
  destruct (transmit_ready rate_bps now size p1 Hp1 Hsoon) as (p2' & Ht' & Hp2 & _); [lia|]. congruence.
Qed.
End conform.

(** ** Waking up *)

Lemma delay_nanos_ok deficit :
  0 < deficit ≤ 65535 → 0 ≤ tu_min_rate_delay tuning ≤ u64_max →
  delay_nanos (E:=E) checks tuning deficit bps = Ret (Z.max (ceil_div (deficit * N) bps) (tu_min_rate_delay tuning)).
Proof.
  intros Hd Hm. destruct Hfits as [[? ?] _ _ _]. unfold delay_nanos. rewrite u128_mul_ok by (unfold u64_max, NANOS_PER_SEC; lia). cbn [mbind outcome_bind].
  f_equal. apply Z.min_l. destruct (ceil_div_bounds (deficit * N) bps ltac:(lia) ltac:(unfold NANOS_PER_SEC; lia)) as [[_ Hc] _].
  assert (ceil_div (deficit * N) bps ≤ deficit * N) by (unfold NANOS_PER_SEC in *; nia). unfold u64_max, NANOS_PER_SEC in *. lia.
Qed.
(** The instant the pacer asks to wait for after a packet is late enough. *)
Lemma wake_enough r last deficit d :
  bucket_ok r → rb_last_sent r = Some last → mtu - rb_budget r ≤ deficit → 0 < deficit → ceil_div (deficit * N) bps ≤ d →
  mtu ≤ budget_of tuning (last + d) r.
Proof.
  intros [Hr Hm Hb] Hl Hd Hpos Hc. destruct Hfits as [[? ?] ? _ _]. pose proof burst_range. unfold budget_of. rewrite Hl, Hr, Hm.
  destruct (ceil_div_bounds (deficit * N) bps ltac:(lia) ltac:(unfold NANOS_PER_SEC; lia)) as [[Hlow _] Hpos'].
  replace (Z.max 0 (last + d - last)) with d by lia. assert (deficit ≤ accrued bps d); [|lia].
  apply Z.div_le_lower_bound; [done|]. nia.
Qed.
(** If time passed since the packet, it is too early. *)
Lemma wake_early r last now :
  bucket_ok r → rb_last_sent r = Some last → last ≤ now → bps ≤ N → 0 < accrued bps (now - last) → budget_of tuning now r < mtu →
  let d := ceil_div ((mtu - budget_of tuning now r) * N) bps in budget_of tuning (last + d) r < mtu.
Proof.
  intros [Hr Hm Hb] Hl Hle Hbps Hacc Hbud d. destruct Hfits as [[? ?] ? _ _]. pose proof burst_range.
  assert (budget_of tuning now r = rb_budget r + accrued bps (now - last)) as Eb.
  { unfold budget_of in *. rewrite Hl, Hr, Hm in *. rewrite Z.max_r in * by lia. lia. }
  set (b := budget_of tuning now r) in *. clearbody b.
  destruct (ceil_div_bounds ((mtu - b) * N) bps ltac:(lia) ltac:(unfold NANOS_PER_SEC; lia)) as [[_ Hup] Hpos]. fold d in Hup, Hpos.
  unfold budget_of. rewrite Hl, Hr, Hm. replace (Z.max 0 (last + d - last)) with d by lia. assert (accrued bps d ≤ mtu - b); [|lia].
  assert (accrued bps d < mtu - b + 1); [|lia]. apply Z.div_lt_upper_bound; [done|]. nia.
Qed.
End rates.

(** What follows from the lemmas above, for a run. *)
Lemma conforms {E} checks tuning bps mtu rtt to_send window rate_bps p p' first size sends :
  fits tuning bps mtu → mtu ≤ 65535 → tu_use_rate tuning = true → 0 ≤ tu_min_rate_delay tuning ≤ u64_max → 0 < rate_bps → ceil_div rate_bps 8 = bps →
  paceable tuning bps mtu rate_bps p → paced (E:=E) checks tuning mtu rtt to_send window rate_bps p ((first, size) :: sends) p' → ordered first sends →
  NANOS_PER_SEC * (size + bytes_of sends) ≤ NANOS_PER_SEC * burst tuning bps mtu + bps * (end_of first sends - first) ∧
  (∀ now t q, rb_last_sent (pa_bucket p') = Some now →
     delay (E:=E) checks tuning rtt to_send mtu window (Some rate_bps) PaceRateTokenBucket now p' = Ret (Some t, q) →
     now < t ∧ mtu ≤ budget_of tuning t (pa_bucket q)).
Proof.
  intros Hf Hmtu Huse Hmin Hrate Hbps Hp Hrun Ho.
  inversion Hrun as [|? p1 p2 ? ? ? ? Hd Hsize Hsoon Ht Hrest]; subst.
  destruct (delay_ready checks tuning _ mtu Hf _ _ _ _ _ _ _ _ Huse Hrate eq_refl Hp Hd Hsoon) as (Hp1 & _ & Hbud).
  destruct (transmit_ready checks tuning _ mtu Hf (E:=E) rate_bps first size p1 Hp1 Hsoon) as (p2' & Ht' & Hp2 & Hl2 & Hb2); [lia|].
  rewrite Ht in Ht'. injection Ht' as <-. pose proof (burst_range tuning _ _ Hf) as Hburst. split.
  - pose proof (paced_from checks tuning _ mtu Hf rtt to_send window rate_bps Huse Hrate eq_refl first sends p2 p' Hrest Hp2 Hl2 Ho) as Hfrom.
    pose proof (budget_of_range tuning _ _ Hf first _ (proj2 (proj2 (proj2 Hp1)))) as Hr1. destruct (paced_ready checks tuning _ mtu Hf _ _ _ _ Huse Hrate eq_refl _ _ _ Hrest Hp2) as (_ & _ & _ & [_ _ Hend]).
    rewrite Hb2 in Hfrom. unfold sat_sub, NANOS_PER_SEC in *. lia.
  - intros now t q Hnow Hdelay. pose proof (paced_ready checks tuning _ mtu Hf _ _ _ _ Huse Hrate eq_refl _ _ _ Hrest Hp2) as Hready.
    destruct (delay_ready checks tuning _ mtu Hf _ _ _ _ _ _ _ _ Huse Hrate eq_refl (or_introl Hready) Hdelay) as (Hq & Hsame & Hlow & d & Hdn & ->).
    { rewrite (delay_same checks tuning _ mtu _ _ _ _ _ _ _ _ Hready Hdelay). intros last Hlast. assert (last = now) as -> by congruence. unfold u64_max. lia. }
    rewrite (Hsame Hready) in *. destruct Hready as (_ & _ & _ & Hok). pose proof Hok as [Hr Hm Hbud'].
    assert (budget_of tuning now (pa_bucket p') = rb_budget (pa_bucket p')) as Enow.
    { unfold budget_of. rewrite Hnow, Hr, Hm. rewrite Z.sub_diag, Z.max_id. unfold accrued. rewrite Z.mul_0_r. change (0 / NANOS_PER_SEC) with 0. lia. }
    rewrite Enow in *. rewrite (delay_nanos_ok checks tuning _ mtu Hf) in Hdn by lia. injection Hdn as <-. rewrite Hnow. change (default now (Some now)) with now.
    pose proof Hf as [[? ?] ? ? ?]. set (deficit := mtu - rb_budget (pa_bucket p')) in *. assert (0 < deficit) by (unfold deficit; lia).
    assert (0 ≤ deficit * NANOS_PER_SEC) as Hdef by (unfold NANOS_PER_SEC; lia).
    destruct (ceil_div_bounds (deficit * NANOS_PER_SEC) (ceil_div rate_bps 8)) as [[Hc _] _]; [done|done|]. split.
    + unfold NANOS_PER_SEC in Hc. assert (0 < ceil_div (deficit * 1000000000) (ceil_div rate_bps 8)) by nia. unfold NANOS_PER_SEC. lia.
    + eapply (wake_enough tuning _ mtu Hf _ now deficit); [done|done|unfold deficit; lia|done|lia].
Qed.

(** The whole rate control: a connection under Brutal with a target, whose
    acknowledgements come in order, sends at most a burst and a quarter more than
    its target, and a pacer asked with what the controller says never overflows. *)
Theorem brutal_conforms {E C} `{!CongestionController C} (fallback : C) checks epoch initial_mtu events target mtu rtt to_send p p' first size sends :
  Forall sizes_ok events → StronglySorted Z.le (map sm_second (samples epoch events)) → packets (samples epoch events) < 2 ^ 53 →
  0 < target ≤ 3000000000000 → 0 < mtu ≤ 65535 →
  let b := brutal_run fallback epoch initial_mtu events in
  ∃ rate, metrics (E:=E) checks target b = Ret (mkMetrics (window target b) None (Some rate) PaceRateTokenBucket) ∧
    (paceable default_tuning (ceil_div rate 8) mtu rate p →
     paced (E:=E) checks default_tuning mtu rtt to_send (window target b) rate p ((first, size) :: sends) p' → ordered first sends →
     NANOS_PER_SEC * (size + bytes_of sends)
     ≤ NANOS_PER_SEC * burst default_tuning ((5 * target + 3) / 4) mtu + (5 * target + 3) / 4 * (end_of first sends - first)).
Proof.
  intros Hs Hsort Hp Ht Hmtu b. destruct (brutal_run_ok fallback epoch initial_mtu events Hs Hsort) as [_ Hring Hrate].
  destruct (metrics_bounds (E:=E) checks b target) as (rate & Hm & Hr & _); [|lia|].
  { unfold b. rewrite Hrate. apply reference_rate_bounds; [|done]. eapply Forall_impl; [apply Hring|]. by intros x [? _]. }
  exists rate. split; [done|]. intros Hpace Hrun Ho. pose proof (quarter_more target).
  destruct (ceil_div_bounds rate 8 ltac:(lia) ltac:(lia)) as [Hc _]. set (bps := ceil_div rate 8) in *. assert (target ≤ bps ≤ (5 * target + 3) / 4) as Hbps by lia.
  assert (fits default_tuning bps mtu) as Hf by (apply default_fits; lia).
  destruct (conforms (E:=E) checks default_tuning bps mtu rtt to_send (window target b) rate p p' first size sends) as [Hbytes _];
    [exact Hf|lia|reflexivity|by vm_compute|lia|reflexivity|exact Hpace|exact Hrun|exact Ho|].
  assert (first ≤ end_of first sends) as Hend.
  { clear -Ho. revert first Ho. induction sends as [|[now sz] sends IH]; intros first Ho; [cbn; lia|]. destruct Ho as [Hle Ho]. cbn. specialize (IH now Ho). lia. }
  assert (burst default_tuning bps mtu ≤ burst default_tuning ((5 * target + 3) / 4) mtu) as Hburst.
  { unfold burst, ceil_div. cbn. apply Z.max_le_compat_r, Z.div_le_mono; [done|]. unfold RATE_BASED_BURST_INTERVAL_NANOS. lia. }
  unfold NANOS_PER_SEC in *. nia.
Qed.

(** C30: the pacer keeps to its rate. From any state of a pacer that used the window
    so far or this rate already, over any run of packets it let through, however
    often it was asked and whatever their sizes up to the MTU: the bytes sent
    between two instants are at most a burst and what the rate gives in that time;
    and when it asks to wait right after a packet, it lets a packet through at the
    instant it named. *)
Theorem pacer_conforms {E} checks tuning bps mtu rtt to_send window rate_bps p p' first size sends :
  fits tuning bps mtu → mtu ≤ 65535 → tu_use_rate tuning = true → 0 ≤ tu_min_rate_delay tuning ≤ u64_max → 0 < rate_bps → ceil_div rate_bps 8 = bps →
  paceable tuning bps mtu rate_bps p → paced (E:=E) checks tuning mtu rtt to_send window rate_bps p ((first, size) :: sends) p' → ordered first sends →
  NANOS_PER_SEC * (size + bytes_of sends) ≤ NANOS_PER_SEC * burst tuning bps mtu + bps * (end_of first sends - first) ∧
  (∀ now t q, rb_last_sent (pa_bucket p') = Some now →
     delay (E:=E) checks tuning rtt to_send mtu window (Some rate_bps) PaceRateTokenBucket now p' = Ret (Some t, q) →
     now < t ∧ mtu ≤ budget_of tuning t (pa_bucket q)).
Proof. apply conforms. Qed.

Definition example_pacer : Pacer := mkPacer 80000 2000000 1500 None 80000 0 PaceWindow (mkBucket 0 1500 None 0).
Definition sent_twice : Pacer :=
  mkPacer 80000 2000000 1500 None 80000 0 PaceRateTokenBucket (mkBucket 13500 1500 (Some 12000000) 125000).
Lemma pacer_conforms_witness :
  NANOS_PER_SEC * (1500 + bytes_of [(12000000, 1500)]) ≤ NANOS_PER_SEC * burst default_tuning 125000 1500 + 125000 * (12000000 - 0).
Proof.
  refine (proj1 (pacer_conforms (E:=unit) true default_tuning 125000 1500 20000000 1500 2000000 1000000 example_pacer sent_twice 0 1500 [(12000000, 1500)]
    _ _ _ _ _ _ _ _ _)).
  - apply default_fits; lia.
  - lia.
  - reflexivity.
  - vm_compute. split; discriminate.
  - lia.
  - reflexivity.
  - right. split; [reflexivity|cbn; lia].
  - eapply paced_cons; [vm_compute; reflexivity|lia|intros last Hl; vm_compute in Hl; discriminate Hl|vm_compute; reflexivity|].
    eapply paced_cons; [vm_compute; reflexivity|lia| |vm_compute; reflexivity|apply paced_nil].
    intros last Hl. vm_compute in Hl. injection Hl as <-. vm_compute. discriminate.
  - split; [lia|exact I].
Defined.

(** Asked again before that instant, the pacer names an earlier one, at which it
    will not let a packet through: it takes what is missing now for what was
    missing at the last packet. Past the middle of the wait, that instant has
    already gone by, and a connection that waits for it asks again at once. *)
Theorem pacer_wakes_early {E} checks tuning bps mtu rtt to_send window rate_bps p q last now t :
  fits tuning bps mtu → mtu ≤ 65535 → bps ≤ NANOS_PER_SEC → tu_use_rate tuning = true → 0 ≤ tu_min_rate_delay tuning ≤ u64_max →
  0 < rate_bps → ceil_div rate_bps 8 = bps → ready tuning bps mtu rate_bps p → rb_last_sent (pa_bucket p) = Some last → last ≤ now ≤ last + u64_max →
  0 < accrued bps (now - last) →
  delay (E:=E) checks tuning rtt to_send mtu window (Some rate_bps) PaceRateTokenBucket now p = Ret (Some t, q) → last + tu_min_rate_delay tuning < t →
  budget_of tuning t (pa_bucket q) < mtu.
Proof.
  intros Hf Hmtu Hslow Huse Hmin Hrate Hbps Hp Hl Hnow Hacc Hd Ht. pose proof (delay_same checks tuning bps mtu _ _ _ _ _ _ _ _ Hp Hd) as Hq.
  destruct (delay_ready checks tuning bps mtu Hf _ _ _ _ _ _ _ _ Huse Hrate Hbps (or_introl Hp) Hd) as (_ & _ & Hlow & d & Hdn & ->).
  { rewrite Hq. intros l' Hl'. rewrite Hl in Hl'. injection Hl' as <-. lia. }
  rewrite Hq, Hl in *. destruct Hp as (_ & _ & _ & Hok). change (default now (Some last)) with last in *.
  pose proof (budget_of_range tuning bps mtu Hf now _ Hok). rewrite (delay_nanos_ok checks tuning bps mtu Hf) in Hdn by lia. injection Hdn as <-.
  rewrite Z.max_l in * by lia. apply (wake_early tuning bps mtu Hf _ last now); [exact Hok|exact Hl|lia|exact Hslow|exact Hacc|exact Hlow].
Qed.
Example pacer_names_the_past :
  (let p := mkPacer 80000 2000000 1500 None 80000 0 PaceRateTokenBucket (mkBucket 0 1500 (Some 0) 125000) in
   '(d, _) ← delay (E:=unit) true default_tuning 20000000 1500 1500 2000000 (Some 1000000) PaceRateTokenBucket 7000000 p; Ret d) = Ret (Some 5000000).
Proof. vm_compute. reflexivity. Qed.
