(* ===== verification/BenchRun.v ===== *)
(** * Running the UDP benchmark ([app/src/udp_bench.rs])

    The echo server with its workers, the sender of a run, the summary and the
    two commands, as computations that leave a trace. The sockets, the clock and
    what the tasks return are arguments; the receive task is that of [Bench.v]. *)
From S2P Require Import Prelude Trace RustStr Float Limit Net Config Anyhow Controller Cli Bench.
From stdpp Require Import sorting.
Local Open Scope Z_scope.

Record UdpBenchEchoArgs := mkEchoArgs { ea_listen : bytes; ea_workers : Z }.
Inductive UdpBenchCommand := UbEcho (args : UdpBenchEchoArgs) | UbRun (args : UdpBenchRunArgs).

Inductive bench_action :=
| BaPrint (line : bytes)
| BaBind (addr : SocketAddr)
| BaRecvBuffer (size : Z)
| BaSendBuffer (size : Z)
| BaConnect (addr : SocketAddr)
| BaSpawn
| BaStore (seq sent_ns : Z)
| BaSend (data : bytes)
| BaSleep (duration : Z)
| BaYield
| BaSenderDone
| BaSendTo (data : bytes) (peer : SocketAddr)
| BaShutdown.
Abbreviation bench_run A := (traced bench_action anyhow A).
Definition say (line : bytes) : bench_run unit := tell (BaPrint line).

(** The sockets and the clock; the texts are those of the errors. *)
Record bench_world := mkBenchWorld {
  bw_bind : SocketAddr → outcome bytes unit;
  bw_nonblocking : outcome bytes unit;
  bw_try_clone : Z → outcome bytes unit;
  bw_from_std : Z → outcome bytes unit;
  bw_local_addr : outcome bytes SocketAddr;
  bw_connect : SocketAddr → outcome bytes unit;
  bw_send : Z → outcome bytes unit;
  bw_stored : Z → Z;          (* the time when the number of a packet is stored *)
  bw_sent : Z → Z;            (* the time when it was sent *)
  bw_send_elapsed : Z;
  bw_elapsed : Z
}.

Section runs.
Context (w : bench_world) (format_duration : Z → bytes).

Definition bind_udp_bench_std_socket (bind_addr : SocketAddr) : bench_run unit :=
  _ ← tell (BaBind bind_addr);
  _ ← try (Anyhow.context (str "failed to bind UDP bench socket " ++ socket_addr_text bind_addr) (map_err anyhow_msg (bw_bind w bind_addr)));
  _ ← tell (BaRecvBuffer BENCH_SOCKET_BUFFER_SIZE);
  _ ← tell (BaSendBuffer BENCH_SOCKET_BUFFER_SIZE);
  try (Anyhow.context (str "failed to mark UDP bench socket nonblocking") (map_err anyhow_msg (bw_nonblocking w))).
Definition bind_udp_bench_socket (bind_addr : SocketAddr) : bench_run unit :=
  _ ← bind_udp_bench_std_socket bind_addr;
  try (Anyhow.context (str "failed to create async UDP bench socket") (map_err anyhow_msg (bw_from_std w 0))).
Definition parse_addr (text addr : bytes) : bench_run SocketAddr :=
  try (ok_or (parse_socket_addr addr) (add_context (text ++ addr) (anyhow_msg (str "invalid socket address syntax")))).

(** ** The echo server *)

(** What a worker selects on: a datagram with the result of sending it back, a
    failed receive, or a change of the shutdown flag. *)
Inductive echo_event :=
| EDatagram (data : bytes) (peer : SocketAddr) (send_to : outcome bytes unit)
| ERecvError (text : bytes)
| EChanged (flag : outcome bytes bool).
(** The trace of a worker, and its result unless it still waits. *)
Fixpoint echo_worker (events : list echo_event) : list bench_action * option (outcome anyhow unit) :=
  match events with
  | [] => ([], None)
  | EDatagram data peer send_to :: events =>
      match Anyhow.context (str "failed to echo UDP packet to " ++ socket_addr_text peer) (map_err anyhow_msg send_to) with
      | Ret _ => let '(t, r) := echo_worker events in (BaSendTo data peer :: t, r)
      | Err e => ([BaSendTo data peer], Some (Err e))
      | Panic => ([BaSendTo data peer], Some Panic)
      end
  | ERecvError text :: _ => ([], Some (Err (add_context (str "failed to receive UDP packet") (anyhow_msg text))))
  | EChanged flag :: events =>
      match Anyhow.context (str "udp echo shutdown channel closed") (map_err anyhow_msg flag) with
      | Ret true => ([], Some (Ret ()))
      | Ret false => echo_worker events
      | Err e => ([], Some (Err e))
      | Panic => ([], Some Panic)
      end
  end.
Definition start_worker (worker_id : Z) : bench_run unit :=
  _ ← try (Anyhow.context (str "failed to clone UDP echo socket") (map_err anyhow_msg (bw_try_clone w worker_id)));
  _ ← try (Anyhow.context (str "failed to create async UDP echo socket") (map_err anyhow_msg (bw_from_std w worker_id)));
  tell BaSpawn.
(** [signal] is what waiting for Ctrl-C gives, [joined] how the workers end. *)
Definition run_udp_echo (args : UdpBenchEchoArgs) (signal : outcome bytes unit) (joined : Z → outcome bytes (outcome anyhow unit)) : bench_run unit :=
  _ ← (if decide (ea_workers args = 0) then try (Err (anyhow_msg (str "--workers must be greater than 0"))) else mret ());
  bind_addr ← parse_addr (str "invalid UDP echo listen address ") (ea_listen args);
  _ ← bind_udp_bench_std_socket bind_addr;
  local_addr ← try (Anyhow.context (str "failed to read local UDP address") (map_err anyhow_msg (bw_local_addr w)));
  _ ← say (str "udp bench echo listening: " ++ socket_addr_text local_addr ++ str " workers=" ++ to_string (ea_workers args));
  let workers := map Z.of_nat (seq 0 (Z.to_nat (ea_workers args))) in
  _ ← for_each start_worker workers;
  _ ← tell BaShutdown;
  _ ← for_each (fun id => result ← try (Anyhow.context (str "udp echo worker panicked") (map_err anyhow_msg (joined id))); try result) workers;
  _ ← try (Anyhow.context (str "failed to listen for Ctrl-C") (map_err anyhow_msg signal));
  say (str "received shutdown signal").

(** ** A run *)

Definition elapsed_nanos (elapsed : Z) : Z := Z.min elapsed u64_max.
Definition send_turn (args : UdpBenchRunArgs) (target : SocketAddr) (packet_size next_seq : Z) : bench_run unit :=
  let sent_ns := elapsed_nanos (bw_stored w next_seq) in
  _ ← tell (BaStore next_seq (Z.max sent_ns 1));
  _ ← tell (BaSend (bench_packet packet_size next_seq));
  _ ← try (Anyhow.context (str "failed to send UDP packet to " ++ socket_addr_text target) (map_err anyhow_msg (bw_send w next_seq)));
  wait ← try (pacing args packet_size next_seq (bw_sent w next_seq));
  _ ← (if decide (0 < wait) then tell (BaSleep wait) else mret ());
  if bool_decide (0 < ba_window args) && bool_decide ((next_seq + 1) mod ba_window args = 0) then tell BaYield else mret ().
Definition send_loop (args : UdpBenchRunArgs) (target : SocketAddr) (packet_size : Z) : bench_run unit :=
  for_each (send_turn args target packet_size) (map Z.of_nat (seq 0 (Z.to_nat (ba_packets args)))).
(** [received] is what joining the receive task gives. *)
Definition run_udp_bench_once (args : UdpBenchRunArgs) (target : SocketAddr) (packet_size : Z)
    (received : outcome bytes (outcome anyhow (list (Z * Z)))) : bench_run UdpBenchSummary :=
  bind_addr ← (match ba_listen args with
               | Some listen => parse_addr (str "invalid UDP listen address ") listen
               | None => mret (default_bind_addr target)
               end : bench_run SocketAddr);
  _ ← bind_udp_bench_socket bind_addr;
  _ ← tell (BaConnect target);
  _ ← try (Anyhow.context (str "failed to connect UDP bench socket to " ++ socket_addr_text target) (map_err anyhow_msg (bw_connect w target)));
  local_addr ← try (Anyhow.context (str "failed to read UDP bench local address") (map_err anyhow_msg (bw_local_addr w)));
  _ ← say (str "udp bench: local=" ++ socket_addr_text local_addr ++ str " target=" ++ socket_addr_text target ++ str " packets="
        ++ to_string (ba_packets args) ++ str " packet_size=" ++ to_string packet_size ++ str "B window=" ++ to_string (ba_window args)
        ++ str " tail_timeout=" ++ format_duration (ba_tail_timeout args));
  _ ← tell BaSpawn;
  _ ← send_loop args target packet_size;
  _ ← tell BaSenderDone;
  result ← try (Anyhow.context (str "udp bench receiver task panicked") (map_err anyhow_msg received));
  counted ← try result;
  mret (mkBenchSummary packet_size (ba_packets args) (len counted) packet_size (bw_send_elapsed w) (bw_elapsed w) counted.*2).

(** [rtts.sort_unstable()]. *)
Definition sorted_rtts (rtts : list Z) : list Z := merge_sort Z.le rtts.
Definition rtt_line (rtts : list Z) : outcome anyhow bytes :=
  first ← Prelude.index rtts 0;
  p50 ← quantile rtts (rnd (1 # 2));
  p95 ← quantile rtts (rnd (95 # 100));
  p99 ← quantile rtts (rnd (99 # 100));
  max ← match list.last rtts with Some max => Ret max | None => Panic end;
  Ret (str "rtt min/p50/p95/p99/max = " ++ fixed3 (duration_ms first) ++ 47 :: fixed3 (duration_ms p50) ++ 47 :: fixed3 (duration_ms p95)
       ++ 47 :: fixed3 (duration_ms p99) ++ 47 :: fixed3 (duration_ms max) ++ str " ms").
Definition print_udp_bench_summary (s : UdpBenchSummary) : bench_run unit :=
  let payload_sent := sat_mul (bs_sent_packets s) (bs_payload_bytes s) in
  let payload_received := sat_mul (bs_received_packets s) (bs_payload_bytes s) in
  _ ← say [];
  _ ← say (str "--- udp bench summary ---");
  _ ← say (str "packet_size=" ++ to_string (bs_packet_size s) ++ str "B");
  _ ← say (str "packets sent=" ++ to_string (bs_sent_packets s) ++ str " received=" ++ to_string (bs_received_packets s) ++ str " lost="
        ++ to_string (bench_lost s) ++ str " loss=" ++ fixed2 (bench_loss_pct s) ++ str "%");
  _ ← say (str "payload sent=" ++ to_string payload_sent ++ str " payload received=" ++ to_string payload_received ++ str " send_elapsed="
        ++ format_duration (bs_send_elapsed s) ++ str " elapsed=" ++ format_duration (bs_elapsed s));
  _ ← say (str "throughput send=" ++ format_throughput payload_sent (bs_send_elapsed s) ++ str " recv=" ++ format_throughput payload_received (bs_elapsed s));
  if decide (bs_rtts s = []) then mret ()
  else line ← try (rtt_line (sorted_rtts (bs_rtts s))); say line.
End runs.

(** [run_udp_bench]: [worlds] gives the sockets and the receive task of each
    run. *)
Section command.
Context (format_duration : Z → bytes) (worlds : Z → bench_world * outcome bytes (outcome anyhow (list (Z * Z)))).

Fixpoint bench_runs (args : UdpBenchRunArgs) (target : SocketAddr) (index : Z) (sizes : list Z) : bench_run unit :=
  match sizes with
  | [] => mret ()
  | packet_size :: sizes =>
      _ ← (if decide (packet_size < BENCH_HEADER_SIZE)
           then try (Err (anyhow_msg (str "packet size " ++ to_string packet_size ++ str " is smaller than bench header"))) else mret ());
      _ ← (if decide (0 < index) then say [] else mret ());
      summary ← run_udp_bench_once (worlds index).1 format_duration args target packet_size (worlds index).2;
      _ ← print_udp_bench_summary format_duration summary;
      bench_runs args target (index + 1) sizes
  end.
Definition run_udp_bench (args : UdpBenchRunArgs) : bench_run unit :=
  '(target, packet_sizes) ← try (bench_plan args);
  bench_runs args target 0 packet_sizes.
Definition run_udp_bench_command (command : UdpBenchCommand) (signal : outcome bytes unit)
    (joined : Z → outcome bytes (outcome anyhow unit)) : bench_run unit :=
  match command with
  | UbEcho args => run_udp_echo (worlds 0).1 args signal joined
  | UbRun args => run_udp_bench args
  end.
End command.

(** ** The sender *)

Definition stores (t : list bench_action) : list (Z * Z) := omap (fun a => match a with BaStore seq ns => Some (seq, ns) | _ => None end) t.
Definition sends (t : list bench_action) : list bytes := omap (fun a => match a with BaSend data => Some data | _ => None end) t.
Lemma stores_app t u : stores (t ++ u) = stores t ++ stores u.
Proof. apply omap_app. Qed.
Lemma sends_app t u : sends (t ++ u) = sends t ++ sends u.
Proof. apply omap_app. Qed.

Section sender.
Context (w : bench_world) (args : UdpBenchRunArgs) (target : SocketAddr) (packet_size : Z).

Lemma send_turn_trace seq :
  (send_turn w args target packet_size seq).2 = Ret () →
  ∃ rest, (send_turn w args target packet_size seq).1
    = BaStore seq (Z.max (elapsed_nanos (bw_stored w seq)) 1) :: BaSend (bench_packet packet_size seq) :: rest ∧ stores rest = [] ∧ sends rest = [].
Proof.
  unfold send_turn. rewrite !tell_bind. cbn [fst snd]. destruct (Anyhow.context _ _) as [[]|e|]; [rewrite try_bind|done..].
  destruct (pacing _ _ _ _) as [wait|e|]; [rewrite try_bind|done..]. intros _.
  repeat case_decide; destruct (_ && _); cbn; eexists; (split; [done|]); split; reflexivity.
Qed.
Lemma send_turns_trace l :
  (for_each (send_turn w args target packet_size) l).2 = Ret () →
  stores (for_each (send_turn w args target packet_size) l).1 = map (fun i => (i, Z.max (elapsed_nanos (bw_stored w i)) 1)) l
  ∧ sends (for_each (send_turn w args target packet_size) l).1 = map (bench_packet packet_size) l.
Proof.
  induction l as [|i l IH]; [done|]. cbn [for_each map]. intros ([] & Hi & Hl & ->)%traced_Ret. destruct (IH Hl) as [IH1 IH2].
  destruct (send_turn_trace i Hi) as (rest & -> & Hr1 & Hr2). rewrite stores_app, sends_app, IH1, IH2.
  cbn. fold (stores rest) (sends rest). by rewrite Hr1, Hr2.
Qed.
End sender.

(** The sender that ends numbered and sent all the packets, in order. *)
Definition numbers (n : Z) : list Z := map Z.of_nat (seq 0 (Z.to_nat n)).
Lemma elem_of_numbers n i : i ∈ numbers n ↔ 0 ≤ i < n.
Proof.
  unfold numbers. rewrite list_elem_of_In, in_map_iff. split.
  - intros (k & <- & ?%in_seq). lia.
  - intros ?. exists (Z.to_nat i). rewrite in_seq. lia.
Qed.
Lemma NoDup_numbers n : NoDup (numbers n).
Proof. apply NoDup_fmap; [apply _|apply NoDup_seq]. Qed.

Lemma reply_of_packet packet_size seq now : BENCH_HEADER_SIZE ≤ packet_size → 0 ≤ seq ≤ u64_max → is_reply seq (BReply (bench_packet packet_size seq) now).
Proof.
  intros Hsize Hseq. unfold is_reply, bench_packet. rewrite len_app, len_be_bytes, take_app_length' by (by rewrite length_be_bytes). split.
  - unfold BENCH_HEADER_SIZE. pose proof (len_nonneg (replicate (Z.to_nat (packet_size - 8)) 120)). lia.
  - apply of_be_be_bytes_id. unfold u64_max in *. lia.
Qed.

(** ** A lossless run *)

(** Nothing ends the receive task early: the socket does not fail, and every
    silence after the last packet is within the tail timeout of the start. *)
Definition undisturbed (n tail start : Z) (e : bench_event) : Prop :=
  event_ok n e ∧
  match e with
  | BReply _ now => start ≤ now
  | BQuiet true now => now < start + tail
  | BError _ => False
  | _ => True
  end.
Lemma receive_undisturbed n tail start b events :
  start ≤ br_last_progress b → Forall (undisturbed n tail start) events →
  match receive_udp_bench n tail b events with Some r => ∃ counted, r = Ret counted ∧ len counted = n | None => True end.
Proof.
  intros Hb Hev. revert b Hb. induction Hev as [|e events [_ He] Hev IH]; intros b Hb; cbn [receive_udp_bench].
  all: case_decide as Hall; [by exists (br_counted b)|].
  - done.
  - destruct e as [seq now|data now|[] now|text]; [apply IH; done| | |by apply IH|done].
    + apply IH. unfold on_reply. case_decide; [done|]. destruct (get _ _); [|done]. case_decide; cbn; lia.
    + rewrite bool_decide_eq_false_2 by lia. by apply IH.
Qed.
Lemma receive_complete n tail start events :
  0 ≤ n ≤ u32_max → NoDup (sents events) → Forall (undisturbed n tail start) events → (∀ seq, 0 ≤ seq < n → answered events seq) →
  ∃ counted, receive_udp_bench n tail (bench_new n start) events = Some (Ret counted) ∧ len counted = n.
Proof.
  intros Hn Hdup Hev Hall. assert (Forall (event_ok n) events) as Hok by (eapply Forall_impl; [exact Hev|by intros e [? _]]).
  pose proof (receive_from n tail [] (bench_new n start) events Hn Hdup Hok (bench_new_ok n start ltac:(lia))) as Hr.
  pose proof (receive_undisturbed n tail start (bench_new n start) events ltac:(done) Hev) as Hu.
  destruct (receive_udp_bench _ _ _ _) as [r|]; [|by destruct Hr]. destruct Hu as (counted & -> & Hlen). eauto.
Qed.

(** The echo worker sends every datagram back to where it came from. *)
Lemma echo_worker_echoes datagrams rest :
  (echo_worker (map (fun '(data, peer) => EDatagram data peer (Ret ())) datagrams ++ rest)).1
  = map (fun '(data, peer) => BaSendTo data peer) datagrams ++ (echo_worker rest).1.
Proof.
  induction datagrams as [|[data peer] l IH]; [done|]. cbn -[echo_worker]. cbn [echo_worker]. cbn -[echo_worker].
  destruct (echo_worker (_ ++ _)) eqn:E. cbn in *. by rewrite IH.
Qed.

Lemma summary_no_loss packet_size n send_elapsed elapsed rtts :
  let summary := mkBenchSummary packet_size n n packet_size send_elapsed elapsed rtts in
  bs_received_packets summary = n ∧ bench_lost summary = 0 ∧ fixed2 (bench_loss_pct summary) = str "0.00".
Proof.
  intros summary. assert (bench_lost summary = 0) as Hlost by (unfold bench_lost, sat_sub; cbn; lia). split_and!; [done|done|].
  unfold bench_loss_pct. rewrite Hlost. reflexivity.
Qed.

(** A run against the echo server over a network that loses nothing. The sender
    ends; the datagrams of the echo worker are its packets, in any order, with
    others between; each datagram the worker sends back arrives, after its packet
    was stored; nothing else disturbs the receive task. Then it counts every
    packet, and the run ends with a summary that shows no loss. *)
Theorem bench_lossless w format_duration args target packet_size client datagrams rest start events bind_addr local_addr :
  0 < ba_packets args ≤ u32_max → BENCH_HEADER_SIZE ≤ packet_size →
  let trace := (send_loop w args target packet_size).1 in
  (send_loop w args target packet_size).2 = Ret () →
  (∀ data, data ∈ sends trace → (data, client) ∈ datagrams) →
  (∀ seq, 0 ≤ seq < ba_packets args →
     BaSendTo (bench_packet packet_size seq) client ∈ (echo_worker (map (fun '(data, peer) => EDatagram data peer (Ret ())) datagrams ++ rest)).1 →
     ∃ before now after, events = before ++ BReply (bench_packet packet_size seq) now :: after ∧ seq ∈ sents before) →
  sents events = (stores trace).*1 → Forall (undisturbed (ba_packets args) (ba_tail_timeout args) start) events →
  (match ba_listen args with Some listen => parse_socket_addr listen | None => Some (default_bind_addr target) end) = Some bind_addr →
  bw_bind w bind_addr = Ret () → bw_nonblocking w = Ret () → bw_from_std w 0 = Ret () → bw_connect w target = Ret () → bw_local_addr w = Ret local_addr →
  ∃ counted summary,
    receive_udp_bench (ba_packets args) (ba_tail_timeout args) (bench_new (ba_packets args) start) events = Some (Ret counted)
    ∧ (run_udp_bench_once w format_duration args target packet_size (Ret (Ret counted))).2 = Ret summary
    ∧ bs_received_packets summary = ba_packets args ∧ bench_lost summary = 0 ∧ fixed2 (bench_loss_pct summary) = str "0.00".
Proof.
  intros Hn Hsize trace Hsent Hforward Hback Hsents Hev Hbind Hb1 Hb2 Hb3 Hb4 Hb5.
  destruct (send_turns_trace w args target packet_size _ Hsent) as [Hstores Hsends]. fold (numbers (ba_packets args)) in Hstores, Hsends.
  change (for_each _ _).1 with trace in Hstores, Hsends.
  assert ((stores trace).*1 = numbers (ba_packets args)) as Hnum.
  { rewrite Hstores. unfold fmap. change list_fmap with map. rewrite map_map. cbn. apply map_id. }
  destruct (receive_complete (ba_packets args) (ba_tail_timeout args) start events) as (counted & Hr & Hlen); [lia| |done| |].
  - rewrite Hsents, Hnum. apply NoDup_numbers.
  - intros seq Hseq. destruct (Hback seq Hseq) as (before & now & after & -> & Hbefore).
    + rewrite echo_worker_echoes. apply elem_of_app. left. apply list_elem_of_In, in_map_iff. exists (bench_packet packet_size seq, client).
      split; [done|]. apply list_elem_of_In, Hforward. rewrite Hsends. apply list_elem_of_In, in_map, list_elem_of_In. by apply elem_of_numbers.
    + exists before, (BReply (bench_packet packet_size seq) now), after. split_and!; [done|done|]. apply reply_of_packet; unfold u64_max, u32_max in *; lia.
  - exists counted, (mkBenchSummary packet_size (ba_packets args) (len counted) packet_size (bw_send_elapsed w) (bw_elapsed w) counted.*2).
    split; [done|]. split; [|by rewrite Hlen; apply summary_no_loss].
    unfold run_udp_bench_once, bind_udp_bench_socket, bind_udp_bench_std_socket, parse_addr.
    rewrite (bind_result _ _ bind_addr) by (by destruct (ba_listen args); [cbn; rewrite Hbind|injection Hbind as ->]).
    rewrite (bind_result _ _ ()) by (by cbn; rewrite Hb1; cbn; rewrite Hb2; cbn; rewrite Hb3).
    rewrite tell_bind, Hb4, Hb5. cbn [snd map_err Anyhow.context]. rewrite !try_bind. unfold say. rewrite !tell_bind. cbn [snd].
    rewrite (bind_result _ _ ()) by done. reflexivity.
Qed.

(** The run of two packets the echo server answers in the other order. *)
Definition loopback (port : Z) : SocketAddr := SocketV4 [127; 0; 0; 1] port.
Definition example_world : bench_world :=
  mkBenchWorld (fun _ => Ret ()) (Ret ()) (fun _ => Ret ()) (fun _ => Ret ()) (Ret (loopback 5000)) (fun _ => Ret ()) (fun _ => Ret ())
    (fun i => 10 * i) (fun i => 10 * i + 1) 20 90.
Definition example_bench : UdpBenchRunArgs := mkBenchArgs (str "127.0.0.1:9999") None 2 16 false 0%Q 256 (3 * NANOS_PER_SEC).
Definition example_events : list bench_event :=
  [BSent 0 0; BSent 1 10; BReply (bench_packet 16 1) 30; BReply (bench_packet 16 1) 31; BQuiet true 60; BReply (bench_packet 16 0) 80].
Lemma bench_lossless_example : ∃ summary,
  (run_udp_bench_once example_world (fun _ => []) example_bench (loopback 9999) 16 (Ret (Ret [(1, 20); (0, 79)]))).2 = Ret summary
  ∧ bench_lost summary = 0.
Proof.
  destruct (bench_lossless example_world (fun _ => []) example_bench (loopback 9999) 16 (loopback 5000)
    [(bench_packet 16 1, loopback 5000); (bench_packet 16 0, loopback 5000)] [] 0 example_events (default_bind_addr (loopback 9999)) (loopback 5000))
    as (counted & summary & Hr & Hrun & _ & Hlost & _); try done.
  - intros data Hdata. vm_compute in Hdata. apply elem_of_cons in Hdata as [->|Hdata]; [right; left|].
    apply list_elem_of_singleton in Hdata as ->. left.
  - intros seq Hseq _. destruct (decide (seq = 0)) as [->|Hne].
    + exists (take 5 example_events), 80, []. split; [done|]. left.
    + assert (seq = 1) as -> by (cbn in Hseq; lia). exists (take 2 example_events), 30, (drop 3 example_events). split; [done|]. right; left.
  - repeat (apply Forall_cons; split; [split; [first [exact I|unfold event_ok; cbn; lia|unfold event_ok; by_decide]|cbn; unfold NANOS_PER_SEC; try done; lia]|]).
    constructor.
  - change (receive_udp_bench _ _ _ _) with (Some (Ret (E:=anyhow) [(1, 20); (0, 79)])) in Hr. injection Hr as <-. by exists summary.
Qed.

(** The round trip times of a summary: every quantile is one of them, and they
    are printed without a panic. *)
Lemma quantile_sample rtts q : rtts ≠ [] →
  ∃ p, quantile rtts q = Ret p ∧ p ∈ rtts.
Proof.
  intros Hne. unfold quantile. set (i := Z.min _ _). assert (0 < len rtts) by (destruct rtts; [done|rewrite len_cons; pose proof (len_nonneg rtts); lia]).
  assert (0 ≤ i < len rtts) as Hi by (unfold i, round_usize, sat_sub; lia).
  destruct (lookup_lt_is_Some_2 rtts (Z.to_nat i)) as [p Hp]; [unfold len in *; lia|].
  exists p. split; [|by eapply list_elem_of_lookup_2]. unfold Prelude.index, get. rewrite decide_True by lia. by rewrite Hp.
Qed.
Theorem summary_printed format_duration s : ∃ lines, print_udp_bench_summary format_duration s = (map BaPrint lines, Ret ())
  ∧ length lines = (if decide (bs_rtts s = []) then 6 else 7)%nat.
Proof.
  unfold print_udp_bench_summary, say. rewrite !tell_bind. cbn [fst snd]. case_decide as Hd.
  { eexists [_; _; _; _; _; _]. split; reflexivity. }
  assert (sorted_rtts (bs_rtts s) ≠ []) as Hne.
  { intros E. apply Hd. apply Permutation_nil. rewrite <- E. apply merge_sort_Permutation. }
  unfold rtt_line. destruct (quantile_sample _ (rnd (1 # 2)) Hne) as (p50 & -> & _), (quantile_sample _ (rnd (95 # 100)) Hne) as (p95 & -> & _),
    (quantile_sample _ (rnd (99 # 100)) Hne) as (p99 & -> & _). destruct (sorted_rtts (bs_rtts s)) as [|first rest] eqn:Es; [done|].
  cbn [Prelude.index get]. rewrite (last_cons first rest).
  destruct (list.last rest); (eexists [_; _; _; _; _; _; _]; split; reflexivity).
Qed.

(** A datagram that counts nothing keeps the receive task from looking at the
    tail timeout: it waits on however late these datagrams come. *)
Theorem receive_flooded n tail b times data :
  br_received b ≠ n → len data < BENCH_HEADER_SIZE →
  receive_udp_bench n tail b (map (BReply data) times) = None.
Proof.
  intros Hb Hdata. induction times as [|now times IH]; cbn [map receive_udp_bench]; rewrite decide_False by done; [done|].
  unfold on_reply. by rewrite decide_True.
Qed.
(** A target rate so small that the time of the first packet is out of range
    panics the run. *)
Example pacing_panics : pacing (mkBenchArgs [] None 1 1400 false (rnd (1 # 10 ^ 24)) 256 NANOS_PER_SEC) 1400 0 0 = Panic.
Proof. vm_compute. reflexivity. Qed.
