(* ===== verification/Commands.v ===== *)
(** * The commands ([app/src/cli.rs], [app/src/main.rs], [app/src/speedtest.rs])

    The command line as clap parses it, and every command from its
    configuration file to its end, as a computation that leaves a trace: the
    lines it prints, the connections it opens and closes, and the tasks it
    starts. What the tasks, the network and the signal do are arguments. *)
From S2P Require Import Prelude Trace Errors RustStr Float Limit Net Quic Server Auth Client Config Share Anyhow MobileStatus SpeedTest Controller Cli Endpoint Files Bench BenchRun.
Local Open Scope Z_scope.

(** ** The command line *)

Definition APP_DESC : bytes := str "a powerful, lightning fast and censorship resistant proxy".
Definition APP_AUTHORS : bytes := str "Aperture Internet Laboratory <https://github.com/apernet>".
Definition APP_LOGO : bytes := str "
░█░█░█░█░█▀▀░▀█▀░█▀▀░█▀▄░▀█▀░█▀█░░░▀▀▄
░█▀█░░█░░▀▀█░░█░░█▀▀░█▀▄░░█░░█▀█░░░▄▀░
░▀░▀░░▀░░▀▀▀░░▀░░▀▀▀░▀░▀░▀▀▀░▀░▀░░░▀▀▀
".

Record AppMetadata := mkMetadata {
  me_version : bytes; me_build_date : bytes; me_build_type : bytes; me_toolchain : bytes; me_commit : bytes;
  me_platform : bytes; me_arch : bytes; me_library_versions : bytes
}.
(** [AppMetadata::current]: [var] are the variables of the build. *)
Definition metadata_current (var : bytes → option bytes) (pkg_version os arch : bytes) : AppMetadata :=
  let unknown name := default (str "Unknown") (var (str name)) in
  mkMetadata (default pkg_version (var (str "HYSTERIA_RS_VERSION"))) (unknown "HYSTERIA_RS_BUILD_DATE") (unknown "HYSTERIA_RS_BUILD_TYPE")
    (unknown "HYSTERIA_RS_TOOLCHAIN") (unknown "HYSTERIA_RS_COMMIT") (default os (var (str "HYSTERIA_RS_PLATFORM")))
    (default arch (var (str "HYSTERIA_RS_ARCH"))) (default (str "core=partial,extras=partial") (var (str "HYSTERIA_RS_LIBS"))).
Definition about_long (m : AppMetadata) : bytes :=
  let row name value := 10 :: str name ++ str ":" ++ 9 :: value in
  APP_LOGO ++ 10 :: APP_DESC ++ 10 :: APP_AUTHORS ++ [10] ++ row "Version" (me_version m) ++ row "BuildDate" (me_build_date m)
  ++ row "BuildType" (me_build_type m) ++ row "Toolchain" (me_toolchain m) ++ row "CommitHash" (me_commit m) ++ row "Platform" (me_platform m)
  ++ row "Architecture" (me_arch m) ++ row "Libraries" (me_library_versions m).

Inductive LogLevel := LevelDebug | LevelInfo | LevelWarn | LevelError.
Inductive LogFormat := FormatConsole | FormatJson.
Definition log_level_text (l : LogLevel) : bytes :=
  match l with LevelDebug => str "debug" | LevelInfo => str "info" | LevelWarn => str "warn" | LevelError => str "error" end.
Definition log_format_text (f : LogFormat) : bytes := match f with FormatConsole => str "console" | FormatJson => str "json" end.

Record ClientArgs := mkClientArgs { ca_qr : bool }.
Record PingArgs := mkPingArgs { pa_address : bytes; pa_count : Z; pa_interval : Z }.
Inductive Command :=
| CmdClient (args : ClientArgs)
| CmdServer
| CmdVersion
| CmdPing (args : PingArgs)
| CmdShare (args : ShareArgs)
| CmdSpeedtest (args : SpeedtestArgs)
| CmdUdpBench (args : UdpBenchCommand)
| CmdUpdate.
Record CliArgs := mkCli {
  cli_config : option bytes; cli_log_level : LogLevel; cli_log_format : LogFormat; cli_disable_update_check : bool;
  cli_command : option Command
}.

(** ** What commands do *)

Inductive action :=
| APrint (text : bytes)
| AConnect (config : CoreClientConfig)
| ATcp (addr : bytes)
| ASleep (duration : Z)
| ASpawn (task : listener)
| ABind (listen : bytes)
| AAbortAll
| AClose
| AServerBind (config : CoreServerConfig)
| AServerClose
| ABench (a : bench_action).
Abbreviation run A := (traced action anyhow A).
(** [println!]. *)
Definition print (line : bytes) : run unit := tell (APrint (line ++ [10])).

(** How the command ends: a task returns, a task panics, or the signal comes. *)
Definition select_end (text : bytes) (e : client_end) : run (outcome anyhow unit) :=
  match e with
  | EndTask result => mret result
  | EndPanic panic => try (Err (add_context text (anyhow_msg panic)))
  | EndSignal signal =>
      _ ← try (Anyhow.context (str "failed to listen for Ctrl-C") (map_err anyhow_msg signal));
      _ ← print (str "received shutdown signal");
      mret (Ret ())
  end.

Section commands.
Context (disk : Disk) (pem : Pem) (native : NativeCerts) (home : option bytes).
Context (client_yaml : bytes → outcome bytes ClientConfig) (server_yaml : bytes → outcome bytes ServerConfig).
Context (parse_url : bytes → option Url) (to_socket_addrs : bytes → option (list SocketAddr)).
Context (serialize_query : list (bytes * bytes) → bytes) (to_yaml : ShareConfigExport → outcome bytes bytes).
Context (render_qr : bytes → outcome bytes bytes) (format_duration : Z → bytes) (sqrt : f64 → f64).
(** [Client::connect] with the address of the peer, and [TcpListener::bind] with
    the address bound. *)
Context (connect : CoreClientConfig → outcome CoreError (bytes * HandshakeInfo)) (tcp_bind : bytes → outcome bytes (outcome bytes bytes)).

Definition load_client (cli : CliArgs) : run (LoadedConfig ClientConfig) :=
  try (map_err anyhow_msg (load_client_config disk home client_yaml (cli_config cli))).
Definition core_client (config : ClientConfig) : run CoreClientConfig :=
  try (map_err anyhow_msg (build_client_core_config disk pem native parse_url to_socket_addrs config)).
Definition open_connection (config : CoreClientConfig) : run (bytes * HandshakeInfo) :=
  _ ← tell (AConnect config);
  try (Anyhow.context (str "failed to connect hysteria client") (map_err anyhow_core (connect config))).
Definition handshake_text (remote : bytes) (info : HandshakeInfo) : bytes :=
  str "remote=" ++ remote ++ str " udp_enabled=" ++ bool_text (hi_udp_enabled info) ++ str " negotiated_tx=" ++ to_string (hi_tx info) ++ str "B/s".

(** *** The client *)

Definition show_qr (config : ClientConfig) : run unit :=
  uri ← try (Anyhow.context (str "failed to build share URI") (map_err anyhow_msg (build_share_uri parse_url serialize_query config)));
  _ ← print (str "share URI: " ++ uri);
  qr ← try (Anyhow.context (str "failed to render QR code") (map_err anyhow_msg (render_qr uri)));
  print qr.
Definition start_tcp_forwarding (entry : TcpForwardingEntry) : run unit :=
  _ ← tell (ABind (tf_listen entry));
  local_addr ← try (Anyhow.context (str "failed to bind TCP forwarding listener " ++ tf_listen entry) (map_err anyhow_msg (tcp_bind (tf_listen entry))));
  bound ← try (Anyhow.context (str "failed to read local address for " ++ tf_listen entry) (map_err anyhow_msg local_addr));
  _ ← print (str "tcp forwarding: " ++ bound ++ str " -> " ++ tf_remote entry);
  tell (ASpawn (LTcpForward entry)).
Definition start_listeners (runtime : RunnableClientConfig) : run unit :=
  _ ← match rc_socks5 runtime with Some socks5 => tell (ASpawn (LSocks5 socks5)) | None => mret () end;
  _ ← match rc_http runtime with Some http => tell (ASpawn (LHttp http)) | None => mret () end;
  _ ← for_each start_tcp_forwarding (rc_tcp_forwarding runtime);
  _ ← for_each (fun entry => tell (ASpawn (LUdpForward entry))) (rc_udp_forwarding runtime);
  if should_run_client_health_probe (bool_decide (is_Some (rc_socks5 runtime) ∨ is_Some (rc_http runtime)
       ∨ len (rc_tcp_forwarding runtime) ≠ 0 ∨ len (rc_udp_forwarding runtime) ≠ 0))
  then tell (ASpawn LHealthProbe) else mret ().
Definition run_client (cli : CliArgs) (args : ClientArgs) (fin : client_end) : run unit :=
  loaded ← load_client cli;
  runtime ← try (map_err anyhow_msg (build_runnable_client_config parse_url to_socket_addrs (load_certificates disk pem)
                   (load_system_root_certificates native) (ld_value loaded)));
  _ ← print (str "client config: " ++ ld_path loaded);
  '(remote, info) ← open_connection (rc_core runtime);
  _ ← print (str "connected: " ++ handshake_text remote info ++ str " qr=" ++ bool_text (ca_qr args));
  _ ← (if ca_qr args then show_qr (ld_value loaded) else mret ());
  _ ← for_each print (client_access_hints (bool_decide (is_Some (rc_socks5 runtime))) (bool_decide (is_Some (rc_http runtime))) (hi_udp_enabled info));
  _ ← start_listeners runtime;
  result ← select_end (str "client runtime task panicked") fin;
  _ ← tell AAbortAll;
  _ ← tell AClose;
  try result.

(** [serve_tcp_forwarder]: what it prints for each connection it accepts, with
    the address of its peer, the result of opening its stream and that of the
    relay; and the error it ends with. *)
Fixpoint serve_tcp_forwarder (remote : bytes) (accepts : list (outcome bytes (bytes * outcome CoreError unit * outcome io_error unit)))
    : list (list bytes) * option anyhow :=
  match accepts with
  | Ret (peer_addr, tcp, relay) :: accepts =>
      let '(lines, e) := serve_tcp_forwarder remote accepts in (forward_tcp peer_addr remote tcp relay :: lines, e)
  | Err text :: _ => ([], Some (add_context (str "failed to accept TCP forwarding connection for " ++ remote) (anyhow_msg text)))
  | _ => ([], None)
  end.

(** *** The server *)

(** [bind] gives the address it listens on; [fin] is how [serve] ends, and
    [after_close] its result once the endpoint was closed. *)
Definition run_server (cli : CliArgs) (bind : CoreServerConfig → outcome CoreError (outcome CoreError bytes)) (fin : client_end)
    (after_close : outcome bytes (outcome anyhow unit)) : run unit :=
  loaded ← try (map_err anyhow_msg (load_server_config disk home server_yaml (cli_config cli)));
  runtime ← try (map_err anyhow_msg (runnable_server disk pem to_socket_addrs (ld_value loaded)));
  _ ← print (str "server config: " ++ ld_path loaded);
  _ ← tell (AServerBind runtime);
  local_addr ← try (Anyhow.context (str "failed to bind hysteria server") (map_err anyhow_core (bind runtime)));
  local_addr ← try (map_err anyhow_core local_addr);
  _ ← print (str "server up and running: " ++ local_addr);
  match fin with
  | EndTask result => try result
  | EndPanic panic => try (Err (add_context (str "server task panicked") (anyhow_msg panic)))
  | EndSignal signal =>
      _ ← try (Anyhow.context (str "failed to listen for Ctrl-C") (map_err anyhow_msg signal));
      _ ← print (str "received shutdown signal");
      _ ← tell AServerClose;
      result ← try (Anyhow.context (str "server task panicked") (map_err anyhow_msg after_close));
      try result
  end.

(** *** Ping *)

(** The probes from number [seq] on; the results are those of [client.tcp] with
    the time it took. *)
Fixpoint ping_turns (args : PingArgs) (seq : Z) (probes : list (outcome CoreError Z)) : run (list Z * Z) :=
  match probes with
  | [] => mret ([], 0)
  | probe :: probes =>
      _ ← tell (ATcp (pa_address args));
      let head := str "reply from " ++ pa_address args ++ str ": seq=" ++ to_string seq in
      let sleep : run unit := if decide (seq < pa_count args) then tell (ASleep (pa_interval args)) else mret () in
      match probe with
      | Ret elapsed =>
          _ ← print (head ++ str " time=" ++ fixed3 (millis elapsed) ++ str " ms");
          _ ← sleep;
          '(samples, failures) ← ping_turns args (seq + 1) probes;
          mret (elapsed :: samples, failures)
      | Err err =>
          _ ← print (head ++ str " error=" ++ core_error_text err);
          _ ← sleep;
          '(samples, failures) ← ping_turns args (seq + 1) probes;
          mret (samples, failures + 1)
      | Panic => ([], Panic)
      end
  end.
Definition run_ping (cli : CliArgs) (args : PingArgs) (probe : Z → outcome CoreError Z) : run unit :=
  loaded ← load_client cli;
  core ← core_client (ld_value loaded);
  _ ← (if decide (0 < pa_count args) then mret () else try (Err (anyhow_msg (str "--count must be greater than 0"))));
  _ ← print (str "ping mode");
  _ ← print (str "client config: " ++ ld_path loaded);
  '(remote, info) ← open_connection core;
  _ ← print (str "connected to server: " ++ handshake_text remote info);
  _ ← print (str "PING " ++ pa_address args ++ str " count=" ++ to_string (pa_count args) ++ str " interval=" ++ format_duration (pa_interval args));
  '(samples, failures) ← ping_turns args 1 (map (fun i => probe (Z.of_nat i)) (seq 1 (Z.to_nat (pa_count args))));
  _ ← for_each print (ping_statistics sqrt (pa_address args) (pa_count args) samples failures);
  tell AClose.

(** *** The others *)

Definition run_version (meta : AppMetadata) : run unit := print (about_long meta).
Definition run_share (cli : CliArgs) (args : ShareArgs) : run unit :=
  loaded ← load_client cli;
  output ← try (build_share_output parse_url serialize_query to_yaml render_qr (ld_value loaded) args);
  tell (APrint output).
Definition run_update (cli : CliArgs) (meta : AppMetadata) : run unit :=
  _ ← print (str "[skeleton] update check mode");
  print (str "version=" ++ me_version meta ++ str " platform=" ++ me_platform meta ++ str " arch=" ++ me_arch meta ++ str " build-type="
    ++ me_build_type meta ++ str " disable-update-check=" ++ bool_text (cli_disable_update_check cli)).

(** *** Speed tests *)

(** The progress reporter: what it remembers between its ticks. *)
Record reporter := mkReporter { rp_start : Z; rp_last_report : Z; rp_last_total : Z }.
Definition report_tick (name : bytes) (size_based : bool) (data_size duration : Z) (use_bytes : bool) (r : reporter) (now total : Z) : bytes * reporter :=
  let delta := sat_sub total (rp_last_total r) in
  let elapsed := now - rp_last_report r in
  let total_elapsed := now - rp_start r in
  let p := progress size_based data_size duration total total_elapsed in
  let shown := fixed2 (if Qle_bool 100 p then 100%Q else p) in
  let current_speed := cli_format_speed delta elapsed use_bytes in
  let average_speed := cli_format_speed total total_elapsed use_bytes in
  (if size_based then
     name ++ str "ing: total_bytes=" ++ to_string total ++ str " progress=" ++ shown ++ str "% current=" ++ current_speed ++ str " average=" ++ average_speed
   else
     name ++ str "ing: elapsed=" ++ format_duration total_elapsed ++ str " remaining=" ++ format_duration (Z.max 0 (duration - total_elapsed))
       ++ str " total_bytes=" ++ to_string total ++ str " progress=" ++ shown ++ str "% current=" ++ current_speed ++ str " average=" ++ average_speed,
   mkReporter (rp_start r) now total).
Fixpoint report_lines (name : bytes) (size_based : bool) (data_size duration : Z) (use_bytes : bool) (r : reporter) (ticks : list (Z * Z)) : list bytes :=
  match ticks with
  | [] => []
  | (now, total) :: ticks =>
      let '(line, r) := report_tick name size_based data_size duration use_bytes r now total in
      line :: report_lines name size_based data_size duration use_bytes r ticks
  end.

(** A test: the result of opening its stream, the ticks of its reporter with the
    bytes counted so far, and the result of the transfer. *)
Record speed_run := mkSpeedRun { sr_tcp : outcome CoreError unit; sr_start : Z; sr_ticks : list (Z * Z); sr_result : outcome anyhow TransferSummary }.
Definition run_single_test (name : bytes) (size_based : bool) (data_size duration : Z) (use_bytes : bool) (t : speed_run) : run unit :=
  _ ← print (str "performing " ++ name ++ str " test");
  _ ← tell (ATcp SPEEDTEST_ADDR);
  _ ← try (Anyhow.context (str "failed to connect (server may not support speed test)") (map_err anyhow_core (sr_tcp t)));
  _ ← for_each print (report_lines name size_based data_size duration use_bytes (mkReporter (sr_start t) (sr_start t) 0) (sr_ticks t));
  summary ← try (Anyhow.context (name ++ str " test failed") (sr_result t));
  print (name ++ str " complete: bytes=" ++ to_string (ts_bytes summary) ++ str " elapsed=" ++ format_duration (ts_elapsed summary)
    ++ str " average=" ++ cli_format_speed (ts_bytes summary) (ts_elapsed summary) use_bytes).
Definition run_speedtest_command (args : SpeedtestArgs) (test : SpeedDirection → speed_run) : run unit :=
  let size_based := bool_decide (is_Some (sd_data_size args)) in
  let data_size := default 0 (sd_data_size args) in
  let duration := if size_based then 0 else sd_duration args in
  _ ← (if sd_skip_download args then mret ()
       else run_single_test (str "download") size_based data_size duration (sd_use_bytes args) (test Download));
  if sd_skip_upload args then mret ()
  else run_single_test (str "upload") size_based data_size duration (sd_use_bytes args) (test Upload).

(** How it ends: by itself, or by a panic or the signal after some actions. *)
Inductive speed_end := SpeedDone | SpeedPanic (after : nat) (text : bytes) | SpeedSignal (after : nat) (signal : outcome bytes unit).
Definition run_speedtest (cli : CliArgs) (args : SpeedtestArgs) (test : SpeedDirection → speed_run) (fin : speed_end) : run unit :=
  loaded ← load_client cli;
  core ← core_client (ld_value loaded);
  _ ← print (str "speed test mode");
  _ ← print (str "client config: " ++ ld_path loaded);
  '(remote, info) ← open_connection core;
  _ ← print (str "connected to server: " ++ handshake_text remote info);
  let task := run_speedtest_command args test in
  result ← (match fin with
            | SpeedDone => (task.1, Ret task.2)
            | SpeedPanic after text => (take after task.1, Err (add_context (str "speedtest task panicked") (anyhow_msg text)))
            | SpeedSignal after signal =>
                _ ← (take after task.1, Ret ());
                _ ← try (Anyhow.context (str "failed to listen for Ctrl-C") (map_err anyhow_msg signal));
                _ ← print (str "received shutdown signal");
                mret (Ret ())
            end : run (outcome anyhow unit));
  _ ← tell AClose;
  _ ← try result;
  print (str "speed test complete").

(** ** Dispatch *)

Definition command_of (cli : CliArgs) : Command := default (CmdClient (mkClientArgs false)) (cli_command cli).
(** The world of a run: how each command ends. *)
Record world := mkWorld {
  wd_client_end : client_end;
  wd_bind : CoreServerConfig → outcome CoreError (outcome CoreError bytes);
  wd_server_end : client_end;
  wd_after_close : outcome bytes (outcome anyhow unit);
  wd_probe : Z → outcome CoreError Z;
  wd_test : SpeedDirection → speed_run;
  wd_speed_end : speed_end;
  wd_bench : Z → bench_world * outcome bytes (outcome anyhow (list (Z * Z)));
  wd_signal : outcome bytes unit;
  wd_workers : Z → outcome bytes (outcome anyhow unit)
}.
Definition run_udp_bench_cmd (command : UdpBenchCommand) (w : world) : run unit :=
  let '(t, r) := run_udp_bench_command format_duration (wd_bench w) command (wd_signal w) (wd_workers w) in (map ABench t, r).
Definition execute (cli : CliArgs) (meta : AppMetadata) (w : world) : run unit :=
  match command_of cli with
  | CmdClient args => run_client cli args (wd_client_end w)
  | CmdServer => run_server cli (wd_bind w) (wd_server_end w) (wd_after_close w)
  | CmdVersion => run_version meta
  | CmdPing args => run_ping cli args (wd_probe w)
  | CmdShare args => run_share cli args
  | CmdSpeedtest args => run_speedtest cli args (wd_test w) (wd_speed_end w)
  | CmdUdpBench command => run_udp_bench_cmd command w
  | CmdUpdate => run_update cli meta
  end.
End commands.

(** ** What a command opens *)

(** What is done before anything is opened, which is printing, and after. *)
Definition idle (a : action) : Prop := match a with APrint _ => True | _ => False end.
Definition follows (a next : action) : Prop :=
  match a with
  | AConnect _ => match next with APrint _ | ATcp _ | ASleep _ | ASpawn _ | ABind _ | AAbortAll | AClose => True | _ => False end
  | AServerBind _ => match next with APrint _ | AServerClose => True | _ => False end
  | _ => False
  end.

(** A computation that opens at most one thing, one that is allowed. *)
Definition opens_once {A} (allowed : action → Prop) (m : run A) : Prop :=
  Forall idle m.1 ∨ ∃ before a after, m.1 = before ++ a :: after ∧ Forall idle before ∧ allowed a ∧ Forall (follows a) after.

Section opens.
Context {A B : Type} (allowed : action → Prop).
Lemma opens_idle (m : run A) : Forall idle m.1 → opens_once allowed m.
Proof. by left. Qed.
Lemma opens_bind (m : run A) (f : A → run B) :
  Forall idle m.1 → (∀ a, m.2 = Ret a → opens_once allowed (f a)) → opens_once allowed (m ≫= f).
Proof.
  unfold opens_once. destruct m as [evs [a|err|]]; cbn; intros Hm Hf; [|by left..]. destruct (f a) as [evs' r] eqn:E.
  destruct (Hf a eq_refl) as [Hi|(before & x & after & Ht & Hb & Hx & Ha)]; rewrite E in *; cbn in *.
  - left. by apply Forall_app.
  - right. exists (evs ++ before), x, after. rewrite Ht, <- app_assoc. split_and!; [done|by apply Forall_app|done|done].
Qed.
Lemma opens_now (m : run A) (f : A → run B) a :
  m.1 = [a] → allowed a → (∀ x, m.2 = Ret x → Forall (follows a) (f x).1) → opens_once allowed (m ≫= f).
Proof.
  intros Hm Ha Hf. right. exists [], a. destruct m as [evs [x|err|]]; cbn in *; subst evs; [|by exists []..].
  exists (f x).1. split_and!; [by destruct (f x)|constructor|done|by apply Hf].
Qed.
End opens.

Section guarded.
Context (disk : Disk) (pem : Pem) (native : NativeCerts) (home : option bytes).
Context (client_yaml : bytes → outcome bytes ClientConfig) (server_yaml : bytes → outcome bytes ServerConfig).
Context (parse_url : bytes → option Url) (to_socket_addrs : bytes → option (list SocketAddr)).
Context (serialize_query : list (bytes * bytes) → bytes) (to_yaml : ShareConfigExport → outcome bytes bytes).
Context (render_qr : bytes → outcome bytes bytes) (format_duration : Z → bytes) (sqrt : f64 → f64).
Context (connect : CoreClientConfig → outcome CoreError (bytes * HandshakeInfo)) (tcp_bind : bytes → outcome bytes (outcome bytes bytes)).

(** What may be opened: a connection with the configuration of the client's
    file, a server with that of the server's. *)
Definition allowed (cli : CliArgs) (a : action) : Prop :=
  match a with
  | AConnect c => ∃ loaded, load_client_config disk home client_yaml (cli_config cli) = Ret loaded
      ∧ build_client_core_config disk pem native parse_url to_socket_addrs (ld_value loaded) = Ret c
  | AServerBind c => ∃ loaded, load_server_config disk home server_yaml (cli_config cli) = Ret loaded
      ∧ runnable_server disk pem to_socket_addrs (ld_value loaded) = Ret c
  | _ => False
  end.

Lemma connect_client_trace c : (open_connection connect c).1 = [AConnect c].
Proof. reflexivity. Qed.
Lemma runnable_core config runtime :
  build_runnable_client_config parse_url to_socket_addrs (load_certificates disk pem) (load_system_root_certificates native) config = Ret runtime →
  build_client_core_config disk pem native parse_url to_socket_addrs config = Ret (rc_core runtime).
Proof. unfold build_runnable_client_config, build_client_core_config. intros H. returned H. by injection H as <-. Qed.

Lemma run_client_opens cli args fin :
  opens_once (allowed cli) (run_client disk pem native home client_yaml parse_url to_socket_addrs serialize_query render_qr connect tcp_bind cli args fin).
Proof.
  unfold run_client, load_client. apply opens_bind; [apply does_try|intros loaded Hl]. apply map_err_Ret in Hl.
  apply opens_bind; [apply does_try|intros runtime Hr]. apply map_err_Ret, runnable_core in Hr.
  apply opens_bind; [by apply does_tell|intros _ _]. apply (opens_now _ _ _ (AConnect (rc_core runtime))); [done|cbn; eauto|].
  intros [remote info] _. unfold print, show_qr, start_listeners, start_tcp_forwarding, select_end. does; exact I.
Qed.
Lemma run_server_opens cli bind fin after_close :
  opens_once (allowed cli) (run_server disk pem home server_yaml to_socket_addrs cli bind fin after_close).
Proof.
  unfold run_server. apply opens_bind; [apply does_try|intros loaded Hl]. apply map_err_Ret in Hl.
  apply opens_bind; [apply does_try|intros runtime Hr]. apply map_err_Ret in Hr.
  apply opens_bind; [by apply does_tell|intros _ _]. apply (opens_now _ _ _ (AServerBind runtime)); [done|cbn; eauto|].
  intros _ _. unfold print. does; exact I.
Qed.
Lemma ping_turns_follow c args seq probes : Forall (follows (AConnect c)) (ping_turns args seq probes).1.
Proof.
  revert seq. induction probes as [|probe probes IH]; intros seq; cbn [ping_turns]; [constructor|].
  unfold print. destruct probe; does; first [apply IH|exact I|constructor].
Qed.
Lemma run_ping_opens cli args probe :
  opens_once (allowed cli) (run_ping disk pem native home client_yaml parse_url to_socket_addrs format_duration sqrt connect cli args probe).
Proof.
  unfold run_ping, load_client, core_client. apply opens_bind; [apply does_try|intros loaded Hl]. apply map_err_Ret in Hl.
  apply opens_bind; [apply does_try|intros c Hc]. apply map_err_Ret in Hc. unfold print.
  apply opens_bind; [does; exact I|intros _ _]. do 2 (apply opens_bind; [by apply does_tell|intros _ _]).
  apply (opens_now _ _ _ (AConnect c)); [done|cbn; eauto|]. intros [remote info] _.
  does; first [apply ping_turns_follow|exact I].
Qed.
Lemma speedtest_follows c args test : Forall (follows (AConnect c)) (run_speedtest_command format_duration args test).1.
Proof. unfold run_speedtest_command, run_single_test, print. does; exact I. Qed.
Lemma run_speedtest_opens cli args test fin :
  opens_once (allowed cli) (run_speedtest disk pem native home client_yaml parse_url to_socket_addrs format_duration connect cli args test fin).
Proof.
  unfold run_speedtest, load_client, core_client. apply opens_bind; [apply does_try|intros loaded Hl]. apply map_err_Ret in Hl.
  apply opens_bind; [apply does_try|intros c Hc]. apply map_err_Ret in Hc. unfold print.
  do 2 (apply opens_bind; [by apply does_tell|intros _ _]).
  apply (opens_now _ _ _ (AConnect c)); [done|cbn; eauto|]. intros [remote info] _.
  pose proof (speedtest_follows c args test) as Ht. set (task := run_speedtest_command _ _ _) in *.
  does; try exact I; cbn; first [apply Ht|apply Forall_take, Ht].
Qed.

(** *** The benchmark *)

(** What [udp-bench] does outside the process: an echo server binds the address
    it was given and answers its peers, and a run binds the address it was given
    or any, connects its sockets to the target it was given, and sends there. *)
Definition bench_permits (command : UdpBenchCommand) (a : bench_action) : Prop :=
  match command, a with
  | UbEcho args, BaBind addr => parse_socket_addr (ea_listen args) = Some addr
  | UbEcho _, (BaConnect _ | BaSend _ | BaStore _ _ | BaSenderDone) => False
  | UbRun args, BaBind addr =>
      match ba_listen args with
      | Some listen => parse_socket_addr listen = Some addr
      | None => ∃ target, parse_socket_addr (ba_target args) = Some target ∧ addr = default_bind_addr target
      end
  | UbRun args, BaConnect addr => parse_socket_addr (ba_target args) = Some addr
  | UbRun args, BaSend data => ∃ packet_size seq, data = bench_packet packet_size seq
  | UbRun _, (BaSendTo _ _ | BaShutdown) => False
  | _, _ => True
  end.
Lemma parse_addr_Ret text addr a : (parse_addr text addr).2 = Ret a → parse_socket_addr addr = Some a.
Proof. unfold parse_addr. cbn. destruct (parse_socket_addr addr); cbn; by intros [= ->]. Qed.
Lemma bench_plan_target args target sizes : bench_plan args = Ret (target, sizes) → parse_socket_addr (ba_target args) = Some target.
Proof.
  unfold bench_plan. case_decide; [done|]. destruct (_ && _); [done|]. destruct (negb _); [done|]. do 2 (case_decide; [done|]).
  intros (t & Ht & [= -> _])%bind_Ret_inv. destruct (parse_socket_addr (ba_target args)); [by injection Ht as ->|done].
Qed.
Lemma bench_once_permitted args w target size received :
  parse_socket_addr (ba_target args) = Some target →
  Forall (bench_permits (UbRun args)) (run_udp_bench_once w format_duration args target size received).1.
Proof.
  intros Ht. unfold run_udp_bench_once. apply does_bind; [unfold parse_addr; does|]. intros bind_addr Hb.
  assert (bench_permits (UbRun args) (BaBind bind_addr)) as Hbind.
  { cbn. destruct (ba_listen args); [by eapply parse_addr_Ret|]. injection Hb as <-. eauto. }
  unfold bind_udp_bench_socket, bind_udp_bench_std_socket, say, send_loop, send_turn. does; cbn; eauto.
Qed.
Lemma bench_permitted worlds command signal joined :
  Forall (bench_permits command) (run_udp_bench_command format_duration worlds command signal joined).1.
Proof.
  destruct command as [args|args]; cbn [run_udp_bench_command].
  - unfold run_udp_echo. apply does_bind; [does|intros [] _]. apply does_bind; [unfold parse_addr; does|intros addr Ha%parse_addr_Ret].
    unfold bind_udp_bench_std_socket, say, start_worker. does; by cbn.
  - unfold run_udp_bench. apply does_bind; [does|]. intros [target sizes] Hp%bench_plan_target. generalize 0 at 1.
    induction sizes as [|size sizes IH]; intros index; cbn [bench_runs]; [constructor|].
    apply does_bind; [does|intros [] _]. apply does_bind; [unfold say; does; exact I|intros [] _].
    apply does_bind; [by apply bench_once_permitted|intros summary _].
    apply does_bind; [unfold print_udp_bench_summary, say; does; exact I|intros [] _]. apply IH.
Qed.

(** The error of a command whose configuration is refused. *)
Definition client_refused (cli : CliArgs) (e : bytes) : Prop :=
  load_client_config disk home client_yaml (cli_config cli) = Err e ∨
  ∃ loaded, load_client_config disk home client_yaml (cli_config cli) = Ret loaded
    ∧ build_client_core_config disk pem native parse_url to_socket_addrs (ld_value loaded) = Err e.
Definition refused (cli : CliArgs) (e : bytes) : Prop :=
  match command_of cli with
  | CmdClient _ =>
      load_client_config disk home client_yaml (cli_config cli) = Err e ∨
      ∃ loaded, load_client_config disk home client_yaml (cli_config cli) = Ret loaded
        ∧ build_runnable_client_config parse_url to_socket_addrs (load_certificates disk pem) (load_system_root_certificates native) (ld_value loaded) = Err e
  | CmdPing _ | CmdSpeedtest _ => client_refused cli e
  | CmdShare _ => load_client_config disk home client_yaml (cli_config cli) = Err e
  | CmdServer =>
      load_server_config disk home server_yaml (cli_config cli) = Err e ∨
      ∃ loaded, load_server_config disk home server_yaml (cli_config cli) = Ret loaded
        ∧ runnable_server disk pem to_socket_addrs (ld_value loaded) = Err e
  | CmdVersion | CmdUdpBench _ | CmdUpdate => False
  end.

Lemma refused_ends cli meta w e :
  refused cli e →
  execute disk pem native home client_yaml server_yaml parse_url to_socket_addrs serialize_query to_yaml render_qr format_duration sqrt
    connect tcp_bind cli meta w = ([], Err (anyhow_msg e)).
Proof.
  unfold refused, client_refused, execute. destruct (command_of cli); try done;
    unfold run_client, run_server, run_ping, run_share, run_speedtest, load_client, core_client; intros H;
    repeat match goal with
           | H : _ ∨ _ |- _ => destruct H
           | H : ∃ _, _ |- _ => destruct H as (? & H & ?)
           | H : _ = Err _ |- _ => rewrite H; clear H
           | H : _ = Ret _ |- _ => rewrite H; clear H; cbn [map_err]; rewrite try_bind
           end; reflexivity.
Qed.
Lemma command_opens cli meta w :
  (∀ command, command_of cli ≠ CmdUdpBench command) →
  opens_once (allowed cli)
    (execute disk pem native home client_yaml server_yaml parse_url to_socket_addrs serialize_query to_yaml render_qr format_duration sqrt
       connect tcp_bind cli meta w).
Proof.
  intros Hc. unfold execute. destruct (command_of cli) as [args| | |args|args|args|command|].
  - apply run_client_opens.
  - apply run_server_opens.
  - left. by repeat constructor.
  - apply run_ping_opens.
  - left. unfold run_share, load_client. does; exact I.
  - apply run_speedtest_opens.
  - by destruct (Hc command).
  - left. by repeat constructor.
Qed.

(** C39: whatever the command, its arguments and the world. Every command but
    [udp-bench] opens at most one thing, after nothing but printing, and that is
    a connection with exactly the configuration read from the client's file and
    accepted, or a server with that of the server's file; after a connection only
    the tasks, streams and listeners of a client come, and after a server only
    its end. The connection trusts only the certificates of the file the
    configuration names, or those of the system, and some; and tasks only start
    on a client that connects. [udp-bench] reads no file and opens neither a
    connection of the tunnel nor a server of it: it binds the address it was
    given, or any, and connects and sends only to the target it was given. A
    configuration file that cannot be loaded, or whose content is refused, the
    client's as well as the server's, is the error of the command, which does
    nothing at all. *)
Theorem commands_open_configured cli meta w :
  let result := execute disk pem native home client_yaml server_yaml parse_url to_socket_addrs serialize_query to_yaml render_qr format_duration sqrt
                  connect tcp_bind cli meta w in
  let trace := result.1 in
  match command_of cli with
  | CmdUdpBench command => ∃ t, trace = map ABench t ∧ Forall (bench_permits command) t
  | _ => Forall idle trace ∨ ∃ before a after, trace = before ++ a :: after ∧ Forall idle before ∧ allowed cli a ∧ Forall (follows a) after
  end
  ∧ (∀ c, AConnect c ∈ trace → ∃ loaded, load_client_config disk home client_yaml (cli_config cli) = Ret loaded
       ∧ anchored disk pem (tl_ca (cf_tls (ld_value loaded))) (eq (nc_certs native)) (co_root_certificates c))
  ∧ (∀ task, ASpawn task ∈ trace → ∃ c, AConnect c ∈ trace)
  ∧ (∀ e, refused cli e → result = ([], Err (anyhow_msg e))).
Proof.
  intros result trace. assert (∀ e, refused cli e → result = ([], Err (anyhow_msg e))) as Href by (intros e; apply refused_ends).
  assert ((∃ command, command_of cli = CmdUdpBench command) ∨ ∀ command, command_of cli ≠ CmdUdpBench command) as [[command Hc]|Hc]
    by (destruct (command_of cli); eauto; by right).
  { assert (∃ t, trace = map ABench t ∧ Forall (bench_permits command) t) as (t & Ht & Hp).
    { unfold trace, result, execute. rewrite Hc. unfold run_udp_bench_cmd. pose proof (bench_permitted (wd_bench w) command (wd_signal w) (wd_workers w)).
      destruct (run_udp_bench_command _ _ _ _ _) as [t r]. by exists t. }
    rewrite Hc. split; [eauto|]. rewrite Ht.
    split_and!; [intros c (? & [=] & _)%list_elem_of_fmap|intros task (? & [=] & _)%list_elem_of_fmap|done]. }
  assert (opens_once (allowed cli) result) as Ht by (by apply command_opens). split.
  { destruct (command_of cli) as [| | | | | |command|]; try exact Ht. by destruct (Hc command). }
  destruct Ht as [Hidle|(before & a & after & Ht & Hbefore & Ha & Hafter)].
  { rewrite Forall_forall in Hidle. split_and!; [intros c Hin|intros task Hin|done]; by apply Hidle in Hin. }
  rewrite Forall_forall in Hbefore, Hafter. unfold trace. rewrite Ht. split_and!; [| |done].
  - intros c [Hin|[<-|Hin]%elem_of_cons]%elem_of_app; [by apply Hbefore in Hin| |by apply Hafter in Hin; destruct a].
    destruct Ha as (loaded & Hl & Hcore). exists loaded. split; [done|]. by apply (app_client_anchored _ _ _ parse_url to_socket_addrs).
  - intros task Hin. assert (∃ c, a = AConnect c) as [c ->].
    { apply elem_of_app in Hin as [Hin|[<-|Hin]%elem_of_cons]; [by apply Hbefore in Hin|done|]. apply Hafter in Hin. destruct a; eauto; done. }
    exists c. apply elem_of_app. right. left.
Qed.

(** ** The life of the client *)

Definition spawns (t : list action) : list listener := omap (fun a => match a with ASpawn task => Some task | _ => None end) t.
Definition closing (a : action) : Prop := a = AAbortAll ∨ a = AClose.
Lemma spawns_app t u : spawns (t ++ u) = spawns t ++ spawns u.
Proof. apply omap_app. Qed.
Lemma spawns_bind {A B} (m : run A) (f : A → run B) a : m.2 = Ret a → spawns (m ≫= f).1 = spawns m.1 ++ spawns (f a).1.
Proof. intros Hm. by rewrite (traced_after _ _ _ Hm), spawns_app. Qed.
Lemma spawns_quiet {A} (m : run A) : Forall (fun a => match a with ASpawn _ => False | _ => True end) m.1 → spawns m.1 = [].
Proof. induction 1 as [|a l Ha Hl IH]; [done|]. destruct a; cbn in *; done. Qed.
Lemma spawns_each {A} (f : A → run unit) (g : A → listener) l :
  (∀ a, a ∈ l → (f a).2 = Ret () ∧ spawns (f a).1 = [g a]) → (for_each f l).2 = Ret () ∧ spawns (for_each f l).1 = map g l.
Proof.
  induction l as [|a l IH]; intros Hf; [done|]. destruct (Hf a) as [Ha Hs]; [left|]. destruct IH as [IH1 IH2]; [intros; apply Hf; by right|].
  cbn [for_each map]. rewrite (bind_result _ _ () Ha), (spawns_bind _ _ () Ha), Hs, IH2. done.
Qed.

Definition bound_text (listen : bytes) : option bytes :=
  match tcp_bind listen with Ret (Ret bound) => Some bound | _ => None end.
Lemma start_tcp_forwarding_spawns entry :
  is_Some (bound_text (tf_listen entry)) → (start_tcp_forwarding tcp_bind entry).2 = Ret () ∧ spawns (start_tcp_forwarding tcp_bind entry).1 = [LTcpForward entry].
Proof.
  unfold bound_text, start_tcp_forwarding. destruct (tcp_bind _) as [[bound| |]| |]; by intros [].
Qed.
Lemma has_listeners runtime :
  is_Some (rc_socks5 runtime) ∨ is_Some (rc_http runtime) ∨ len (rc_tcp_forwarding runtime) ≠ 0 ∨ len (rc_udp_forwarding runtime) ≠ 0
  ↔ (match rc_socks5 runtime with Some c => [LSocks5 c] | None => [] end) ++ (match rc_http runtime with Some c => [LHttp c] | None => [] end)
    ++ map LTcpForward (rc_tcp_forwarding runtime) ++ map LUdpForward (rc_udp_forwarding runtime) ≠ [].
Proof.
  assert (∀ A (x : A) l, len (x :: l) ≠ 0) as Hcons by (intros; rewrite len_cons; pose proof (len_nonneg l); lia).
  destruct (rc_socks5 runtime), (rc_http runtime), (rc_tcp_forwarding runtime), (rc_udp_forwarding runtime); cbn; split; intros H; try done; eauto.
  by destruct H as [[? ?]|[[? ?]|[?|?]]].
Qed.
Lemma start_listeners_spawns runtime :
  Forall (fun entry => is_Some (bound_text (tf_listen entry))) (rc_tcp_forwarding runtime) →
  (start_listeners tcp_bind runtime).2 = Ret () ∧ spawns (start_listeners tcp_bind runtime).1 = client_listeners runtime.
Proof.
  intros Hb. rewrite Forall_forall in Hb. unfold start_listeners, client_listeners.
  rewrite (bind_result _ _ ()), (spawns_bind _ _ ()) by (by destruct (rc_socks5 runtime)).
  rewrite (bind_result _ _ ()), (spawns_bind _ _ ()) by (by destruct (rc_http runtime)).
  destruct (spawns_each (start_tcp_forwarding tcp_bind) LTcpForward (rc_tcp_forwarding runtime)) as [Ht1 Ht2].
  { intros entry He. by apply start_tcp_forwarding_spawns, Hb. }
  rewrite (bind_result _ _ () Ht1), (spawns_bind _ _ () Ht1), Ht2.
  destruct (spawns_each (fun entry => tell (ASpawn (LUdpForward entry))) LUdpForward (rc_udp_forwarding runtime)) as [Hu1 Hu2].
  { done. }
  rewrite (bind_result _ _ () Hu1), (spawns_bind _ _ () Hu1), Hu2. unfold should_run_client_health_probe. split; [by case_bool_decide|].
  rewrite <- !app_assoc. f_equal; [by destruct (rc_socks5 runtime)|]. f_equal; [by destruct (rc_http runtime)|]. do 2 f_equal.
  rewrite (bool_decide_ext _ _ (has_listeners runtime)). by case_bool_decide.
Qed.

(** The end of the client closes it unless a task panicked or waiting for the
    signal failed. *)
Definition clean_end (e : client_end) : bool := match e with EndTask _ | EndSignal (Ret _) => true | _ => false end.
Lemma select_end_result text fin :
  (select_end text fin).2 = (match fin with
    | EndTask result => Ret result
    | EndPanic panic => Err (add_context text (anyhow_msg panic))
    | EndSignal signal => _ ← Anyhow.context (str "failed to listen for Ctrl-C") (map_err anyhow_msg signal); Ret (Ret ())
    end).
Proof. by destruct fin as [result|panic|[[]| |]]. Qed.
Lemma select_end_prints text fin : Forall idle (select_end text fin).1.
Proof. unfold select_end, print. destruct fin; does; exact I. Qed.
Lemma client_ends (m : run unit) fin :
  m.2 = Ret () →
  let r := (_ ← m; result ← select_end (str "client runtime task panicked") fin; _ ← tell AAbortAll; _ ← tell AClose; try result) : run unit in
  r.2 = client_result fin ∧ ∃ prints, Forall idle prints ∧ r.1 = m.1 ++ prints ++ if clean_end fin then [AAbortAll; AClose] else [].
Proof.
  intros Hm r. subst r. rewrite (traced_bind_Ret _ _ () Hm). cbn [fst snd]. pose proof (select_end_prints (str "client runtime task panicked") fin) as Hp.
  destruct fin as [result|panic|[[]| |]].
  all: split; [done|]. all: eexists; (split; [exact Hp|]); cbn; rewrite ?app_nil_r; done.
Qed.

(** A client whose configuration is accepted, that connects and binds its
    forwarding listeners: it opens its connection once, starts exactly the tasks
    of its configuration, in order and the health probe last, and its result is
    that of the first task to end, a failure if one panics, or that of waiting for
    the signal; in the end it stops the others and closes the connection, unless
    a task panicked or waiting for the signal failed. *)
Theorem client_lifecycle cli args fin loaded runtime remote info :
  load_client_config disk home client_yaml (cli_config cli) = Ret loaded →
  build_runnable_client_config parse_url to_socket_addrs (load_certificates disk pem) (load_system_root_certificates native) (ld_value loaded) = Ret runtime →
  connect (rc_core runtime) = Ret (remote, info) →
  (ca_qr args = true → ∃ uri qr, build_share_uri parse_url serialize_query (ld_value loaded) = Ret uri ∧ render_qr uri = Ret qr) →
  Forall (fun entry => is_Some (bound_text (tf_listen entry))) (rc_tcp_forwarding runtime) →
  let m := run_client disk pem native home client_yaml parse_url to_socket_addrs serialize_query render_qr connect tcp_bind cli args fin in
  m.2 = client_result fin ∧
  ∃ before started after,
    m.1 = before ++ [AConnect (rc_core runtime)] ++ started ++ after ++ (if clean_end fin then [AAbortAll; AClose] else [])
    ∧ Forall idle before ∧ spawns started = client_listeners runtime ∧ Forall idle after.
Proof.
  intros Hl Hr Hc Hq Hb m. subst m. unfold run_client, load_client, open_connection. rewrite Hl. cbn [map_err]. rewrite try_bind, Hr. cbn [map_err].
  rewrite try_bind. unfold print. rewrite tell_bind. cbn [fst snd]. rewrite Hc. cbn [map_err Anyhow.context].
  set (body := fun x : bytes * HandshakeInfo => _). rewrite (traced_bind_Ret _ body (remote, info)) by done.
  unfold body. clear body. rewrite tell_bind. cbn [fst snd].
  set (qr := (if ca_qr args then show_qr parse_url serialize_query render_qr (ld_value loaded) else mret ()) : run unit).
  assert (qr.2 = Ret ()) as Hqr.
  { unfold qr, show_qr. destruct (ca_qr args); [|done]. destruct (Hq eq_refl) as (uri & q & -> & Hrender). cbn. by rewrite Hrender. }
  rewrite (traced_bind_Ret qr _ () Hqr). cbv beta. set (hints := for_each _ (client_access_hints _ _ _)).
  assert (hints.2 = Ret ()) as Hhints by (unfold hints; by rewrite for_each_Ret). rewrite (traced_bind_Ret hints _ () Hhints). cbn [fst snd].
  destruct (start_listeners_spawns runtime Hb) as [Hs1 Hs2]. destruct (client_ends _ fin Hs1) as [He (prints & Hp & Ht)].
  split; [exact He|]. rewrite Ht. eexists [_], (_ :: qr.1 ++ hints.1 ++ (start_listeners tcp_bind runtime).1), prints. split_and!.
  - cbn. by rewrite <- !app_assoc.
  - by repeat constructor.
  - cbn. fold (spawns (qr.1 ++ hints.1 ++ (start_listeners tcp_bind runtime).1)). rewrite !spawns_app, Hs2.
    rewrite (spawns_quiet qr), (spawns_quiet hints); [done|unfold hints; does; exact I|unfold qr, show_qr, print; does; exact I].
  - done.
Qed.

(** ** Pings *)

Definition printed (t : list action) : list bytes := omap (fun a => match a with APrint text => Some text | _ => None end) t.
Definition probed (t : list action) : list bytes := omap (fun a => match a with ATcp addr => Some addr | _ => None end) t.
Lemma printed_app t u : printed (t ++ u) = printed t ++ printed u.
Proof. apply omap_app. Qed.
Lemma probed_app t u : probed (t ++ u) = probed t ++ probed u.
Proof. apply omap_app. Qed.

(** The turns of a ping print the lines of its loop, one for each probe, and
    every probe is a sample or a failure. *)
Theorem ping_turns_loop args seq probes :
  Forall no_panic probes →
  let '(samples, failures, lines) := ping_loop (pa_address args) seq probes in
  (ping_turns args seq probes).2 = Ret (samples, failures) ∧ len samples + failures = len probes
  ∧ printed (ping_turns args seq probes).1 = map (fun line => line ++ [10]) lines
  ∧ probed (ping_turns args seq probes).1 = replicate (length probes) (pa_address args).
Proof.
  intros Hp. pose proof (ping_accounts (pa_address args) seq probes Hp) as Ha. revert seq Ha.
  induction Hp as [|probe probes Hprobe Hp IH]; intros seq Ha; [done|]. specialize (IH (seq + 1) (ping_accounts _ _ _ Hp)).
  cbn [ping_loop] in *. destruct (ping_loop (pa_address args) (seq + 1) probes) as [[samples failures] lines].
  destruct IH as (IH1 & _ & IH2 & IH3). destruct (ping_turns args (seq + 1) probes) as [t r] eqn:Et. cbn [fst snd] in *. subst r.
  destruct probe as [elapsed|err|]; [..|done]; (split; [|split; [apply Ha|]]); cbn [ping_turns]; unfold print; rewrite Et, !tell_bind;
    cbn [fst snd]; case_decide; rewrite ?tell_bind; cbn; rewrite ?app_nil_r; fold (printed t) (probed t); rewrite ?IH2, ?IH3; done.
Qed.
End guarded.

(** ** A ping *)

Definition example_cli : CliArgs :=
  mkCli (Some (str "ca.pem")) LevelInfo FormatConsole false (Some (CmdPing (mkPingArgs (str "example.com:80") 2 NANOS_PER_SEC))).
Definition example_meta : AppMetadata := metadata_current (fun _ => None) (str "0.1.0") (str "linux") (str "x86_64").
Definition example_commands (probe : Z → outcome CoreError Z) : run unit :=
  execute example_disk example_pem (mkNativeCerts [] []) None (fun _ => Ret example_client) (fun _ => Err (str "no server")) (fun _ => None)
    (fun _ => Some [SocketV4 [127; 0; 0; 1] 443]) (fun _ => []) (fun _ => Err []) Ret (fun _ => str "1s") (fun x => x)
    (fun _ => Ret (str "127.0.0.1:443", mkHandshakeInfo true 0)) (fun _ => Err []) example_cli example_meta
    (mkWorld (EndSignal (Ret ())) (fun _ => Err (Errors.Connect [])) (EndSignal (Ret ())) (Ret (Ret ())) probe
       (fun _ => mkSpeedRun (Ret ()) 0 [] (Err [])) SpeedDone (fun _ => (example_world, Ret (Ret []))) (Ret ()) (fun _ => Ret (Ret ()))).
Definition is_connect (a : action) : bool := match a with AConnect _ => true | _ => false end.
Lemma commands_open_configured_witness :
  length (filter (fun a => is_connect a = true) (example_commands (fun i => Ret (i * 1000000))).1) = 1%nat
  ∧ ∀ c, AConnect c ∈ (example_commands (fun i => Ret (i * 1000000))).1 → co_root_certificates c ≠ [].
Proof.
  split; [vm_compute; reflexivity|]. intros c Hc. eapply (commands_open_configured example_disk example_pem _ _ _ _ _ _ _ _ _ _ _ _ _ _ _ _) in Hc.
  by destruct Hc as (loaded & _ & Hne & _).
Defined.
